(* ===== verification/_CoqProject ===== *)
-Q . S2P
Prelude.v
GoStd.v
Sha256.v
Framing.v
GoTime.v
Model.v
Json.v
Event.v
Observe.v
Compare.v
CompareSpec.v
CompareDoc.v
CompareLaws.v
CompareEx.v
Policy.v
PolicySpec.v
PolicyEx.v
GoText.v
Utf8.v
JsonCopy.v
GoPath.v
Yaml.v
Config.v
ConfigParse.v
ConfigValidate.v
ConfigTrusted.v
ConfigSpec.v
ConfigDiff.v
Waiver.v
WaiverSpec.v
WaiverEx.v
ConfigEx.v
Plan.v
Application.v
ApplicationSpec.v
TrustedSpec.v
ApplicationEx.v
GoCalendar.v
Sql.v
GithubApp.v
ControllerStore.v
ControllerSource.v
ControllerStoreSpec.v
ControllerInv.v
ControllerSteps.v
ControllerLaws.v
ControllerProgress.v
ControllerEx.v
Inbox.v
InboxSpec.v
Controller.v
ControllerSpec.v
WorldEx.v
Runner.v
RunnerSpec.v
RunnerEx.v
Evidence.v
Normalize.v
NormalizeHost.v
NormalizeSpec.v
NormalizeTotal.v
NormalizeEx.v
PlanSpec.v
PlanEx.v
Report.v
Render.v
RenderSpec.v
ReportSpec.v
ReportEx.v
BundleWriter.v
BundleWriterSpec.v
BundleWriterEx.v
