(* ===== verification/Prelude.v ===== *)
(** * Glassroot: a verification library

    Glassroot runs the scenarios of a repository at two revisions, the trusted base and
    the proposed head, observes what they do, and says what the head changed.  This
    library models the code that decides: from the configuration of a run to its report,
    and from a GitHub delivery to the work it schedules.  Every definition follows the Go
    source under [src/] and computes, identities included; the theorems are about those
    definitions.

    ** The program, and the files that model it

    One run is a pipeline of packages, each of which hands a frozen document to the next:

    - [internal/config], the pipeline file of each revision: [Config] (types, the
      comparison of two pipelines), [ConfigParse] ([parser.go]), [ConfigValidate]
      ([validate.go], [units.go], [path.go]), [ConfigTrusted] ([trusted.go]: the base is
      loaded, the head only assessed); theorems in [ConfigSpec], [ConfigDiff] and
      [TrustedSpec].
    - [internal/waiver], the waiver file of each revision: [Waiver], [WaiverSpec].
    - [internal/pipeline], the run plan: [Plan], [PlanSpec].
    - [internal/runner], the execution of a plan: [Runner] (attempts, events, hooks),
      [RunnerSpec].  What a backend, a sink, a hook or a deadline answers comes from an
      [Environment], asked once per question.
    - [internal/evidence]: [Evidence] holds the verified bundle that readers see;
      [BundleWriter] is the session that writes a bundle ([writer.go], [session.go],
      [logs.go], [artifacts.go], [manifest.go]), a state and error monad over a directory
      whose system calls an oracle answers; theorems in [BundleWriterSpec].
    - [internal/observe], from a bundle to a trace document: [Observe] (the document),
      [Normalize] (the walk), [NormalizeSpec], [NormalizeHost], [NormalizeTotal].
    - [internal/compare], from a trace document to a frozen delta: [Compare], [CompareSpec],
      [CompareDoc], [CompareLaws].
    - [internal/policy], from a delta to findings, and from findings, waivers and
      governance to the application: [Policy], [PolicySpec], [Application],
      [ApplicationSpec].
    - [internal/report], from bundle, delta and application to the report and its two
      renderings: [Report], [Render], [RenderSpec], [ReportSpec].

    The GitHub application is a receiver and a controller around two databases:

    - [internal/githubapp], the protocol: [GithubApp] (identities, state machines,
      projections, generations, checks).
    - [internal/githubinbox], deliveries and the outbox: [Inbox], [InboxSpec].
    - [internal/githubcontrollerstore], the tables of the controller and each operation
      on them: [ControllerStore], [ControllerSource]; [ControllerStoreSpec] (steps and
      reachable tables), [ControllerInv] and [ControllerSteps] (the invariant),
      [ControllerLaws], [ControllerProgress].
    - [internal/githubcontroller], the processing of a record: [Controller],
      [ControllerSpec].

    Both stores are modelled over [Sql]: an operation is one transaction, a state and
    error monad over the tables in which an oracle may fail any database call and an
    error rolls back.  The receiver, the controllers and the clock interleave as steps.

    Below these: this file (results, loops that return early, stable sorts, sorted keys,
    tactics), [GoStd], [Sha256], [Framing] (length-prefixed encodings), [GoTime] and
    [GoCalendar] (instants, RFC 3339), [GoText] and [Utf8] (runes), [GoPath] ([path]),
    [Json] ([json.Marshal]), [JsonCopy] (copies through JSON), [Yaml] (the interface of
    the YAML library), [Model] and [Event] ([internal/model]).

    The files ending in [Ex] hold concrete inputs, evaluated, and the witnesses that the
    hypotheses of the theorems can hold.  [ReportEx] takes one run through all of it: the
    plan of [PlanEx] is executed, normalized, compared, judged, waived, reported, rendered.

    ** How the source is written down

    A Go struct is a record with its fields in order; a named string type is [string]; a
    Go string is a byte sequence, a [[]byte] a [list] of bytes; integers are [Z], with
    wrap-around where the code can reach it; a pointer is an [option]; a Go map is a
    [gmap]; an error is a value of the package's own error record in [result]; a method
    that loops and returns early is [foldR]; [sort.Slice] and [sort.SliceStable] are
    [stable_sort] with the code's comparison (where the code's sort is not stable, the
    order is total on what it sorts, or the choice is said).  A context is asked with the
    number of the check ([Context]).  A frozen document is its record, the bytes of its
    JSON and their digest.  Clones that only copy are left out; a copy through JSON is
    kept ([json_copy], [cloneTraceDocument]), because it replaces what is not UTF-8.
    Packages reuse names ([Limits], [errCode], [validateLimits]); such a name is its own
    file's, and other files qualify it.

    ** The theorems

    - Comparison ([CompareDoc], [CompareLaws]): no fact is lost, an absence is only
      claimed when the other side is complete, no evidence is invented, and a valid
      document has one delta, which is the answer unless it exceeds an enforced limit.
    - Policy ([PolicySpec], [ApplicationSpec]): every trigger of the catalogue is a
      finding and every finding has a trigger; waivers change exactly what they may; the
      head has no say in them; every governance event is a finding; the overall
      disposition is the strongest effective one.
    - Configuration and waivers ([ConfigSpec], [ConfigDiff], [WaiverSpec], [TrustedSpec]):
      what validates is well formed; the analysis of changes is exact; the trusted load
      answers exactly what is said of the base file, the head file and both; a run that passes ran under the pipeline that
      its head proposes.
    - Plan, execution, normalization ([PlanSpec], [RunnerSpec], [NormalizeSpec],
      [NormalizeHost], [NormalizeTotal]): plans come from the base and stay within the
      platform; events are numbered without gaps whatever the outside answers; process
      numbers and clocks of the host do not reach the trace; what was planned and executed
      is normalized under any valid limits that its contents fit.
    - Bundles ([BundleWriterSpec]): whatever is called and whatever fails, what an active
      session publishes is what its manifest says, with the accepted events and the
      written bytes of the logs; a bundle that is declared complete hides no cut and no
      omission.
    - Report ([ReportSpec]): a report binds one run, hides no finding and no record, and
      its renderings are its document line by line; distinct values look different and no
      value can add a line, close a code span or bring a control character in.
    - GitHub ([InboxSpec], [ControllerLaws], [ControllerProgress], [ControllerSpec]): one
      record per delivery, one live generation per pull request, deliveries decided once,
      leases kept from others until they expire or are given back, and fenced; history
      never rewritten; a record acknowledged only once its delivery was decided (which may
      be to ignore it); and an admissible snapshot is applied.

    ** Fuel

    Recursion that is not structural runs on fuel that covers it: the scanners of [Json],
    [GoText], [GoPath] and [Sha256] consume a byte (or a block) per step and get the length
    of their input; digit loops get 20 steps, the digits of a 64-bit integer.

    ** Hypotheses

    Code that is not under [src/] is a parameter: the YAML loader ([Yaml.YamlLoad]), the
    reader of a file of a revision ([RevisionFileSource], which is git), the token broker
    and the pull request reader of the controller, and the answers of backends, sinks,
    hooks, deadlines, databases and system calls, and random names.  Where theorems assume something of them it is named:
    a database that does not fail ([calm], for progress), identities not used before
    ([ControllerProgress.unused]), instants within the years 0 to 9999 whose texts parse
    again, and observed instants within 64-bit nanoseconds ([NormalizeHost.in_clock]).
    SHA-256 is computed; no theorem assumes that it has no collisions: identities are shown
    to bind their inputs up to the digest.

    ** Not modelled

    - Code whose content is system calls, sockets, subprocesses or HTTP:
      [internal/artifactcollect], [materialize], [gitstore], [githubsource],
      [githubsourcestore], [dockerengine], [runner/dockerdev], [githubbroker],
      [githubreceiver], [githubauth], [gvisorspike], [githubapi] beyond the snapshot type,
      and the verification of a bundle that is read back in [internal/evidence]
      ([reader.go], [reader_inventory.go], [strictjson.go]); of its writer, the permissions
      of files, closing a file after an error, the hooks of its tests and the checks of
      the parent directory.
    - Orchestration and tools around the modelled packages: [internal/localrun],
      [internal/inspect], [internal/demo], [runner/fake], [src/cmd], [src/tools].
    - Of modelled packages: opening, migrating and checking database files; in
      [internal/githubapp] the media type of a header, the JSON decoder and its preflight
      and the constant permission and event tables; the printed text of errors and
      diagnostics; the encoders of documents that only unmodelled code writes. *)

From stdpp Require Import prelude gmap strings pretty sorting.
From Stdlib Require Import ZArith Lia.

(** ** Notation: Go's comparisons on values with decidable equality *)

Declare Scope go_scope.
Delimit Scope go_scope with go.
Notation "a == b" := (bool_decide (a = b)) (at level 70, no associativity) : go_scope.
Notation "a != b" := (negb (bool_decide (a = b))) (at level 70, no associativity) : go_scope.
Notation "a <? b" := (Z.ltb a b) (at level 70, no associativity) : go_scope.
Notation "a <=? b" := (Z.leb a b) (at level 70, no associativity) : go_scope.
#[global] Open Scope go_scope.

(** ** Fallible code: Go's [(value, error)] results *)

Inductive result (E A : Type) : Type :=
| Ok (a : A)
| Err (e : E).
Arguments Ok {E A} a.
Arguments Err {E A} e.

#[global] Instance result_ret {E} : MRet (result E) := λ A a, Ok a.
#[global] Instance result_bind {E} : MBind (result E) := λ A B k m,
  match m with Ok a => k a | Err e => Err e end.

(** [if bad { return err }] *)
Definition reject_if {E} (bad : bool) (e : E) : result E unit :=
  if bad then Err e else Ok ().

(** A [for] loop whose body updates a state and may return early with an error. *)
Fixpoint foldR {E S A} (f : S → A → result E S) (s : S) (l : list A) : result E S :=
  match l with
  | [] => Ok s
  | x :: l => match f s x with Ok s' => foldR f s' l | Err e => Err e end
  end.

(** A [for] loop that appends one value per element and may return early. *)
Fixpoint mapR {E A B} (f : A → result E B) (l : list A) : result E (list B) :=
  match l with
  | [] => Ok []
  | x :: l => match f x with
              | Ok y => match mapR f l with Ok k => Ok (y :: k) | Err e => Err e end
              | Err e => Err e
              end
  end.

Section results.
Context {E : Type}.

Lemma Ok_inj {A} (a b : A) : @Ok E A a = Ok b → a = b.
Proof. by intros [= ->]. Qed.

Lemma bind_Ok {A B} (m : result E A) (k : A → result E B) b :
(m ≫= k) = Ok b ↔ ∃ a, m = Ok a ∧ k a = Ok b.
Proof. destruct m; cbn; [|by split; [|intros (?&?&?)]]. split; [eauto|]. by intros (?&[= ->]&?). Qed.

Lemma bind_Err {A B} (m : result E A) (k : A → result E B) e :
(m ≫= k) = Err e ↔ m = Err e ∨ ∃ a, m = Ok a ∧ k a = Err e.
Proof. destruct m; cbn; naive_solver. Qed.

Lemma reject_bind_Err {B} bad (e : E) (k : unit → result E B) e' :
(reject_if bad e ≫= k) = Err e' ↔ bad = true ∧ e = e' ∨ bad = false ∧ k () = Err e'.
Proof. destruct bad; cbn; naive_solver. Qed.

Lemma reject_if_Ok bad (e : E) u : reject_if bad e = Ok u ↔ bad = false.
Proof. by destruct bad, u. Qed.

Lemma reject_bind_Ok {B} bad (e : E) (k : unit → result E B) b :
(reject_if bad e ≫= k) = Ok b ↔ bad = false ∧ k () = Ok b.
Proof. destruct bad; cbn; [|tauto]. by split; [|intros []]. Qed.

Lemma mapR_Ok {A B} (f : A → result E B) l k :
mapR f l = Ok k ↔ Forall2 (λ x y, f x = Ok y) l k.
Proof.
revert k. induction l as [|x l IH]; intros k; cbn.
- split; [intros [= <-]; constructor|by inversion 1].
- destruct (f x) as [y|e] eqn:Hx.
+ destruct (mapR f l) as [k'|e] eqn:Hl.
  * split.
    -- intros [= <-]. constructor; [done|]. by apply IH.
    -- inversion 1 as [|? y' ? k'' Hy Hk]; subst. rewrite Hx in Hy.
       apply IH in Hk. congruence.
  * split; [done|]. inversion 1 as [|? ? ? ? ? Hk]; subst. by apply IH in Hk.
+ split; [done|]. inversion 1; congruence.
Qed.

(** Induction principle for loops: an invariant kept by the body is kept by the loop. *)
Lemma foldR_ind {S A} (P : S → Prop) (f : S → A → result E S) l s s' :
P s →
(∀ s x s', x ∈ l → P s → f s x = Ok s' → P s') →
foldR f s l = Ok s' → P s'.
Proof.
revert s. induction l as [|x l IH]; cbn; intros s Hs Hstep Hf; [by simplify_eq|].
destruct (f s x) as [s1|e] eqn:Hx; [|done].
apply (IH s1); [|intros; eapply Hstep; set_solver|done].
eapply Hstep; [|done..]. set_solver.
Qed.

(** A loop that only checks its elements. *)
Lemma foldR_reject {A} (bad : A → bool) (e : A → E) l u :
foldR (λ _ x, reject_if (bad x) (e x)) () l = Ok u ↔ ∀ x, x ∈ l → bad x = false.
Proof.
destruct u. induction l as [|x l IH]; cbn.
- split; [by intros _ x ?%not_elem_of_nil|done].
- destruct (bad x) eqn:Hx; cbn.
+ split; [done|]. intros H. specialize (H x (list_elem_of_here _ _)). congruence.
+ rewrite IH. split; intros H y; [|intros Hy; apply H; by apply list_elem_of_further].
  intros [->|Hy]%elem_of_cons; [done|by apply H].
Qed.

Lemma foldR_app {S A} (f : S → A → result E S) l1 l2 s :
foldR f s (l1 ++ l2) = (foldR f s l1 ≫= λ s, foldR f s l2).
Proof.
revert s. induction l1 as [|x l1 IH]; intros s; cbn; [done|].
by destruct (f s x).
Qed.
End results.

(** The same principle for a loop without early return. *)
Lemma foldl_invariant {S A} (P : S → Prop) (f : S → A → S) l s :
  P s → (∀ s x, x ∈ l → P s → P (f s x)) → P (foldl f s l).
Proof.
  revert s. induction l as [|x l IH]; cbn; intros s Hs Hstep; [done|].
  apply IH; [apply Hstep; [apply list_elem_of_here|done]|].
  intros s' y Hy. apply Hstep. by apply list_elem_of_further.
Qed.

Lemma filter_all {A} (P : A → Prop) `{∀ x, Decision (P x)} (l : list A) :
  (∀ x, x ∈ l → P x) → filter P l = l.
Proof.
  induction l as [|x l IH]; [done|]. intros Hl. rewrite filter_cons_True by apply Hl, list_elem_of_here.
  f_equal. apply IH. intros y Hy. apply Hl. by apply list_elem_of_further.
Qed.

Lemma filter_none {A} (P : A → Prop) `{∀ x, Decision (P x)} (l : list A) :
  (∀ x, x ∈ l → ¬ P x) → filter P l = [].
Proof.
  induction l as [|x l IH]; [done|]. intros Hl. rewrite filter_cons_False by apply Hl, list_elem_of_here.
  apply IH. intros y Hy. apply Hl. by apply list_elem_of_further.
Qed.

Lemma mapR_app {E A B} (f : A → result E B) l1 l2 k1 k2 :
  mapR f l1 = Ok k1 → mapR f l2 = Ok k2 → mapR f (l1 ++ l2) = Ok (k1 ++ k2).
Proof. rewrite !mapR_Ok. apply Forall2_app. Qed.

Lemma mapR_elem {E A B} (f : A → result E B) l k y :
  mapR f l = Ok k → y ∈ k → ∃ x, x ∈ l ∧ f x = Ok y.
Proof.
  rewrite mapR_Ok. intros H Hy. apply list_elem_of_lookup in Hy as [i Hi].
  destruct (Forall2_lookup_r _ _ _ _ _ H Hi) as (x & Hx & ?). exists x. split; [|done].
  by eapply list_elem_of_lookup_2.
Qed.

Lemma mapR_elem_l {E A B} (f : A → result E B) l k x :
  mapR f l = Ok k → x ∈ l → ∃ y, y ∈ k ∧ f x = Ok y.
Proof.
  rewrite mapR_Ok. intros H Hx. apply list_elem_of_lookup in Hx as [i Hi].
  destruct (Forall2_lookup_l _ _ _ _ _ H Hi) as (y & Hy & ?). exists y. split; [|done].
  by eapply list_elem_of_lookup_2.
Qed.

Lemma mapR_Err {E A B} (f : A → result E B) l e : mapR f l = Err e → ∃ x, x ∈ l ∧ f x = Err e.
Proof.
  induction l as [|x l IH]; cbn; [done|]. destruct (f x) as [y|e'] eqn:Hx.
  - destruct (mapR f l) as [k|e']; [done|]. intros [= ->]. destruct IH as (z & ? & ?); [done|].
    exists z. split; [by apply list_elem_of_further|done].
  - intros [= ->]. exists x. split; [apply list_elem_of_here|done].
Qed.

Lemma foldR_Err {E S A} (f : S → A → result E S) s l e :
  foldR f s l = Err e → ∃ s' x, x ∈ l ∧ f s' x = Err e.
Proof.
  revert s. induction l as [|x l IH]; cbn; intros s H; [done|]. destruct (f s x) as [s'|e'] eqn:Hx.
  - destruct (IH _ H) as (t & y & ? & ?). exists t, y. split; [by apply list_elem_of_further|done].
  - simplify_eq. exists s, x. split; [apply list_elem_of_here|done].
Qed.

Lemma elem_of_two {A} (x a b : A) : x ∈ [a; b] ↔ x = a ∨ x = b.
Proof. by rewrite elem_of_cons, list_elem_of_singleton. Qed.

Lemma NoDup_fmap_via {A B C} (f : A → B) (g : A → C) l :
  (∀ x y, x ∈ l → y ∈ l → g x = g y → f x = f y) → NoDup (f <$> l) → NoDup (g <$> l).
Proof.
  induction l as [|x l IH]; cbn; intros Hfg Hnd; [constructor|]. inversion_clear Hnd as [|? ? Hx Hl].
  constructor.
  - intros (y & E & Hy)%list_elem_of_fmap. apply Hx, list_elem_of_fmap. exists y.
    split; [|done]. apply Hfg; [apply list_elem_of_here|by apply list_elem_of_further|done].
  - apply IH; [|done]. intros y z Hy Hz. apply Hfg; by apply list_elem_of_further.
Qed.

(** ** Stable sorting: [sort.SliceStable], [sort.Strings]

    [less] is the comparison closure the Go code passes.  The result of a
    stable sort is determined by the input, so an insertion sort computes it. *)

Section stable_sort.
Context {A : Type} (less : A → A → bool).

(** Insert [x], which came before every element of [l], in sorted [l]. *)
Fixpoint sort_insert (x : A) (l : list A) : list A :=
match l with
| [] => [x]
| y :: l' => if less y x then y :: sort_insert x l' else x :: y :: l'
end.

Definition stable_sort (l : list A) : list A := foldr sort_insert [] l.

(** [x] may stand before [y] in the output. *)
Definition not_after (x y : A) : Prop := less y x = false.

Lemma sort_insert_Permutation x l : sort_insert x l ≡ₚ x :: l.
Proof.
induction l as [|y l IH]; cbn; [done|].
destruct (less y x); [|done]. rewrite IH. apply Permutation_swap.
Qed.

Lemma stable_sort_Permutation l : stable_sort l ≡ₚ l.
Proof.
induction l as [|x l IH]; cbn; [done|].
by rewrite sort_insert_Permutation, IH.
Qed.
End stable_sort.

(** What a Go comparison closure must satisfy for sorting to be meaningful. *)
Class StrictWeak {A} (less : A → A → bool) : Prop := {
  sw_irrefl x : less x x = false;
  sw_negtrans x y z : less x z = true → less x y = true ∨ less y z = true;
  sw_asym x y : less x y = true → less y x = false;
}.

(** A comparison that also separates distinct keys: [<] on strings and integers. *)
Class StrictTotal {A} (lt : A → A → bool) : Prop := {
  st_weak :: StrictWeak lt;
  st_total x y : lt x y = false → lt y x = false → x = y;
}.

Section sort_facts.
Context {A : Type} (less : A → A → bool) `{!StrictWeak less}.

Lemma not_after_trans x y z : not_after less x y → not_after less y z → not_after less x z.
Proof.
unfold not_after. intros Hxy Hyz. destruct (less z x) eqn:Hzx; [|done].
destruct (sw_negtrans z y x Hzx) as [H|H]; congruence.
Qed.

Lemma sort_insert_StronglySorted x l :
StronglySorted (not_after less) l → StronglySorted (not_after less) (sort_insert less x l).
Proof.
induction 1 as [|y l Hl IH Hy]; cbn; [by repeat constructor|].
destruct (less y x) eqn:Hyx.
- constructor; [done|]. rewrite sort_insert_Permutation. constructor; [|done].
by apply sw_asym.
- constructor; [by constructor|]. constructor; [done|].
eapply Forall_impl; [done|]. intros z Hz. by eapply not_after_trans.
Qed.

Lemma stable_sort_StronglySorted l : StronglySorted (not_after less) (stable_sort less l).
Proof. induction l as [|x l IH]; cbn; [constructor|]. by apply sort_insert_StronglySorted. Qed.

(** Sorting is canonical when the comparison separates the elements: the
output does not depend on the order (e.g. Go's map order) of the input. *)
Lemma sorted_unique l1 l2 :
(∀ x y, x ∈ l1 → y ∈ l1 → less x y = false → less y x = false → x = y) →
StronglySorted (not_after less) l1 → StronglySorted (not_after less) l2 →
l1 ≡ₚ l2 → l1 = l2.
Proof.
intros Hanti Hs1. revert l2 Hanti. induction Hs1 as [|x l1 Hs1 IH Hx]; intros l2 Hanti Hs2 Hp.
{ by apply Permutation_nil_l in Hp. }
destruct Hs2 as [|y l2 Hs2 Hy]; [by apply Permutation_nil_r in Hp|].
assert (x = y) as <-.
{ assert (y = x ∨ y ∈ l1) as [?|Hyin] by (apply elem_of_cons; rewrite Hp; set_solver); [done|].
assert (x = y ∨ x ∈ l2) as [?|Hxin] by (apply elem_of_cons; rewrite <- Hp; set_solver); [done|].
rewrite Forall_forall in Hx, Hy.
apply Hanti; [set_solver|set_solver|by apply Hy|by apply Hx]. }
f_equal. apply IH; [set_solver|done|]. by apply Permutation_cons_inv in Hp.
Qed.

Lemma stable_sort_canonical l1 l2 :
(∀ x y, x ∈ l1 → y ∈ l1 → less x y = false → less y x = false → x = y) →
l1 ≡ₚ l2 → stable_sort less l1 = stable_sort less l2.
Proof.
intros Hanti Hp. apply sorted_unique; try apply stable_sort_StronglySorted.
- intros x y. rewrite !stable_sort_Permutation. apply Hanti.
- by rewrite !stable_sort_Permutation.
Qed.

Lemma stable_sort_id l : StronglySorted (not_after less) l → stable_sort less l = l.
Proof.
induction 1 as [|x l Hl IH Hx]; cbn; [done|]. fold (stable_sort less l). rewrite IH.
destruct Hx as [|y l Hxy]; cbn; [done|]. by rewrite Hxy.
Qed.
End sort_facts.

(** *** Comparison closures of the form
    [if a.K != b.K { return a.K < b.K }; ...rest...] *)

Definition by_key {A K} `{EqDecision K} (key : A → K) (lt : K → K → bool)
    (rest : A → A → bool) (a b : A) : bool :=
  if bool_decide (key a = key b) then rest a b else lt (key a) (key b).

#[global] Instance by_key_StrictWeak {A K} `{EqDecision K} (key : A → K) lt rest :
  StrictTotal lt → StrictWeak rest → StrictWeak (by_key key lt rest).
Proof.
  intros Hlt Hrest. unfold by_key. split.
  - intros x. rewrite bool_decide_true by done. apply sw_irrefl.
  - intros x y z. repeat case_bool_decide; try congruence.
    + apply sw_negtrans.
    + replace (key z) with (key x) in * by congruence. intros _.
      destruct (lt (key x) (key y)) eqn:?, (lt (key y) (key x)) eqn:?; auto.
      by destruct (st_total (key x) (key y)).
    + by replace (key y) with (key x) by congruence; right.
    + by replace (key y) with (key z) by congruence; left.
    + apply sw_negtrans.
  - intros x y. repeat case_bool_decide; try congruence; apply sw_asym.
Qed.

(** Elements a chain of comparisons does not separate agree on its keys. *)
Lemma by_key_tie {A K} `{EqDecision K} (key : A → K) lt rest `{!StrictTotal lt} a b :
  by_key key lt rest a b = false → by_key key lt rest b a = false →
  key a = key b ∧ rest a b = false ∧ rest b a = false.
Proof.
  unfold by_key. destruct (decide (key a = key b)) as [E|E].
  - by rewrite !bool_decide_true.
  - rewrite !bool_decide_false by done. intros Hab Hba. by destruct (st_total _ _ Hab Hba).
Qed.

(** [return a.K < b.K] *)
Definition by_last {A K} (key : A → K) (lt : K → K → bool) (a b : A) : bool := lt (key a) (key b).

#[global] Instance by_last_StrictWeak {A K} (key : A → K) lt :
  StrictWeak lt → StrictWeak (by_last key lt).
Proof.
  intros Hlt. split; unfold by_last; intros.
  - apply sw_irrefl.
  - by apply sw_negtrans.
  - by apply sw_asym.
Qed.

(** *** Byte-wise order on Go strings, and [<] on integers *)

Definition str_lt (a b : string) : bool := String.ltb a b.

#[global] Instance str_lt_StrictTotal : StrictTotal str_lt.
Proof.
  assert (∀ a b, str_lt a b = negb (String.leb b a)) as Hneg.
  { intros a b. unfold str_lt, String.ltb, String.leb. rewrite (String.compare_antisym b a).
    by destruct (a ?= b)%string. }
  assert (∀ a b, String.leb a b = true ∨ String.leb b a = true) as Htot.
  { intros a b. destruct (String.le_total a b) as [H|H]; unfold String.le in H;
      apply Is_true_true in H; auto. }
  assert (∀ a b c, String.leb a b = true → String.leb b c = true → String.leb a c = true) as Htr.
  { intros a b c H1 H2. apply Is_true_true. trans b; by apply Is_true_true. }
  split; [split|].
  - intros x. rewrite Hneg. destruct (Htot x x) as [-> | ->]; done.
  - intros x y z. rewrite !Hneg, !negb_true_iff. intros Hzx.
    destruct (String.leb y x) eqn:Hyx, (String.leb z y) eqn:Hzy; auto.
    rewrite (Htr _ _ _ Hzy Hyx) in Hzx. done.
  - intros x y. rewrite !Hneg, negb_true_iff, negb_false_iff. intros H.
    destruct (Htot x y); congruence.
  - intros x y. rewrite !Hneg, !negb_false_iff. intros H1 H2. by apply String.leb_antisym.
Qed.

#[global] Instance Z_lt_StrictTotal : StrictTotal Z.ltb.
Proof.
  split; [split|].
  - intros x. lia.
  - intros x y z. rewrite !Z.ltb_lt. lia.
  - intros x y. rewrite Z.ltb_lt, Z.ltb_ge. lia.
  - intros x y. rewrite !Z.ltb_ge. lia.
Qed.

(** [sort.Strings] *)
Definition sort_strings (l : list string) : list string := stable_sort str_lt l.

Lemma sort_strings_canonical l1 l2 : l1 ≡ₚ l2 → sort_strings l1 = sort_strings l2.
Proof. apply stable_sort_canonical; [apply _|]. intros x y _ _. apply st_total. Qed.

Lemma sort_strings_Permutation l : sort_strings l ≡ₚ l.
Proof. apply stable_sort_Permutation. Qed.

(** The keys of a Go map, collected in map order and then sorted. *)
Definition sorted_keys {A} (m : gmap string A) : list string := sort_strings (map_to_list m).*1.

Lemma elem_of_sorted_keys {A} (m : gmap string A) k : k ∈ sorted_keys m ↔ is_Some (m !! k).
Proof.
  unfold sorted_keys. rewrite sort_strings_Permutation, list_elem_of_fmap. split.
  - intros ([k' v] & -> & Hkv). apply elem_of_map_to_list in Hkv. by exists v.
  - intros [v Hv]. exists (k, v). split; [done|]. by apply elem_of_map_to_list.
Qed.

Lemma NoDup_sorted_keys {A} (m : gmap string A) : NoDup (sorted_keys m).
Proof. unfold sorted_keys. rewrite sort_strings_Permutation. apply NoDup_fst_map_to_list. Qed.

(** A map filled by a loop, [m[key(x)] = x]: with distinct keys it is a lookup table. *)
Lemma foldl_insert_lookup {A} (key : A → string) (l : list A) (m : gmap string A) k x :
  NoDup (key <$> l) →
  (foldl (λ m x, <[key x := x]> m) m l !! k = Some x) ↔ (x ∈ l ∧ key x = k) ∨ (k ∉ (key <$> l) ∧ m !! k = Some x).
Proof.
  revert m. induction l as [|y l IH]; intros m; cbn.
  { intros _. split; [intros H; right; split; [apply not_elem_of_nil|done]|].
    intros [[[]%not_elem_of_nil _]|[_ H]]; done. }
  intros [Hy Hnd]%NoDup_cons. rewrite IH by done. rewrite not_elem_of_cons, elem_of_cons, lookup_insert_Some.
  split.
  - intros [[Hx Hk]|(Hk & [[<- <-]|[Hne Hm]])]; [tauto|left; split; [by left|done]|].
    right. split; [split; [congruence|done]|done].
  - intros [[[-> |Hx] Hk]|[[Hne Hk] Hm]].
    + right. rewrite <- Hk. split; [done|by left].
    + left; done.
    + right. split; [done|]. right. split; [congruence|done].
Qed.

Lemma foldl_insert_lookup_empty {A} (key : A → string) (l : list A) k x :
  NoDup (key <$> l) → (foldl (λ m x, <[key x := x]> m) (∅ : gmap string A) l !! k = Some x) ↔ x ∈ l ∧ key x = k.
Proof. intros H. rewrite foldl_insert_lookup by done. rewrite lookup_empty. naive_solver. Qed.

Lemma foldl_insert_None {A} (key : A → string) (l : list A) k :
  NoDup (key <$> l) → (foldl (λ m x, <[key x := x]> m) (∅ : gmap string A) l !! k = None) ↔ ∀ x, x ∈ l → key x <> k.
Proof.
  intros H. rewrite eq_None_not_Some. split.
  - intros Hn x Hx Hk. apply Hn. exists x. by apply foldl_insert_lookup_empty.
  - intros Hn [x [Hx Hk]%foldl_insert_lookup_empty]; [by eapply Hn|done].
Qed.

(** ** Automation *)

Create HintDb glassroot.

(** Split the boolean conditions the code branches on into facts. *)
Ltac go_bool :=
  repeat match goal with
  | H : _ && _ = true |- _ => apply andb_true_iff in H as [? ?]
  | H : _ || _ = false |- _ => apply orb_false_iff in H as [? ?]
  | H : negb _ = true |- _ => apply negb_true_iff in H
  | H : negb _ = false |- _ => apply negb_false_iff in H
  | H : bool_decide _ = true |- _ => apply bool_decide_eq_true in H
  | H : bool_decide _ = false |- _ => apply bool_decide_eq_false in H
  | H : (_ <? _)%Z = true |- _ => apply Z.ltb_lt in H
  | H : (_ <? _)%Z = false |- _ => apply Z.ltb_ge in H
  | H : (_ <=? _)%Z = true |- _ => apply Z.leb_le in H
  | H : (_ <=? _)%Z = false |- _ => apply Z.leb_gt in H
  end.

(** Invert a computation known to have returned [Ok]. *)
Ltac inv_ok :=
  repeat match goal with
  | H : Err _ = Ok _ |- _ => discriminate H
  | H : Ok _ = Ok _ |- _ => injection H as H
  | H : mret _ = Ok _ |- _ => injection H as H
  | H : (reject_if _ _ ≫= _) = Ok _ |- _ => apply reject_bind_Ok in H as [? H]
  | H : reject_if _ _ = Ok _ |- _ => apply reject_if_Ok in H
  | H : (_ ≫= _) = Ok _ |- _ => apply bind_Ok in H as (? & ? & H)
  end.
