(* ===== verification/GoStd.v ===== *)
(** * The parts of Go's standard library the modelled code calls

    Byte streams ([[]byte]), big-endian integers ([encoding/binary]), lower-case
    hexadecimal ([encoding/hex]), decimal formatting ([strconv], [fmt] with
    [%d]), string predicates ([strings]) and SHA-256 ([crypto/sha256]).
    A Go string is a byte sequence: it is a Rocq [string], whose characters are
    bytes; a [[]byte] is a list of bytes.  Everything computes. *)

From stdpp Require Import prelude strings pretty.
From Stdlib Require Import ZArith Lia Ascii.
From S2P Require Import Prelude.
Local Open Scope Z_scope.

(** ** Bytes *)

Abbreviation bytes := (list ascii).

(** [[]byte(s)] *)
Definition to_bytes (s : string) : bytes := String.list_ascii_of_string s.
(** [string(b)] *)
Definition of_bytes (b : bytes) : string := String.string_of_list_ascii b.

Definition byte_val (c : ascii) : Z := Z.of_N (N_of_ascii c).
(** [byte(v)]: the low eight bits. *)
Definition byte_of (v : Z) : ascii := ascii_of_N (Z.to_N (v mod 256)).

Lemma byte_val_of v : byte_val (byte_of v) = v mod 256.
Proof.
  unfold byte_val, byte_of. pose proof (Z.mod_pos_bound v 256).
  rewrite N_ascii_embedding by lia. lia.
Qed.

Lemma byte_val_range c : 0 <= byte_val c < 256.
Proof. unfold byte_val. pose proof (N_ascii_bounded c). lia. Qed.

Lemma byte_of_val c : byte_of (byte_val c) = c.
Proof.
  unfold byte_of. rewrite Z.mod_small by apply byte_val_range.
  unfold byte_val. by rewrite N2Z.id, ascii_N_embedding.
Qed.

#[global] Instance byte_val_inj : Inj (=) (=) byte_val.
Proof. intros c d H. by rewrite <- (byte_of_val c), H, byte_of_val. Qed.

#[global] Instance to_bytes_inj : Inj (=) (=) to_bytes.
Proof.
  intros s t H. unfold to_bytes in H.
  by rewrite <- (String.string_of_list_ascii_of_string s), H, String.string_of_list_ascii_of_string.
Qed.

(** [len(s)] *)
Definition str_len (s : string) : Z := Z.of_nat (String.length s).

Lemma length_to_bytes s : length (to_bytes s) = String.length s.
Proof. unfold to_bytes. induction s as [|c s IH]; cbn; [done|]. by rewrite IH. Qed.

Lemma str_len_bytes s : str_len s = Z.of_nat (length (to_bytes s)).
Proof. by rewrite length_to_bytes. Qed.

Lemma to_bytes_app s t : to_bytes (s +:+ t) = to_bytes s ++ to_bytes t.
Proof.
  induction s as [|c s IH]; [done|].
  change (to_bytes (String c s +:+ t)) with (c :: to_bytes (s +:+ t)). by rewrite IH.
Qed.

(** ** Slicing and searching strings *)

(** [s[n:]] for [n <= len(s)] *)
Fixpoint str_drop (n : nat) (s : string) : string :=
  match n, s with
  | O, _ => s
  | S n, String _ s => str_drop n s
  | S _, EmptyString => EmptyString
  end.

(** [strings.HasPrefix(s, p)] *)
Definition has_prefix (p s : string) : bool := String.prefix p s.

Lemma has_prefix_spec p s : has_prefix p s = true ↔ ∃ t, s = p +:+ t.
Proof.
  unfold has_prefix. revert s. induction p as [|c p IH]; intros s; cbn.
  - split; [by exists s|by destruct s].
  - destruct s as [|d s]; cbn; [by split; [|intros [? ?]]|].
    destruct (ascii_dec c d) as [->|Hne].
    + rewrite IH. split; intros [t Ht]; exists t; [by rewrite Ht|]. by injection Ht.
    + split; [done|]. intros [t Ht]. by injection Ht.
Qed.

Lemma str_drop_app p t : str_drop (String.length p) (p +:+ t) = t.
Proof. induction p as [|c p IH]; cbn; done. Qed.

(** A [for _, r := range s] loop that returns on the first bad rune, for a test
    that only ever accepts or rejects ASCII runes: a byte above 127 starts (or
    is) a rune above 127, so testing runes and testing bytes agree. *)
Definition str_forallb (P : Z → bool) (s : string) : bool :=
  forallb (λ c, P (byte_val c)) (to_bytes s).
Definition str_existsb (P : Z → bool) (s : string) : bool :=
  existsb (λ c, P (byte_val c)) (to_bytes s).

Definition is_lower_hex_digit (c : Z) : bool :=
  ((48 <=? c) && (c <=? 57)) || ((97 <=? c) && (c <=? 102)).
Definition is_control (c : Z) : bool := (c <? 32) || bool_decide (c = 127).

(** The string of one NUL byte, which ends a hash domain. *)
Definition NUL : string := String (byte_of 0) EmptyString.

(** ** Machine integers

    An [int64] or [uint64] that overflows wraps around. *)
Definition wrap64 (v : Z) : Z := (v + 2 ^ 63) mod 2 ^ 64 - 2 ^ 63.
Definition wrapU64 (v : Z) : Z := v mod 2 ^ 64.

Lemma wrap64_id v : - 2 ^ 63 <= v < 2 ^ 63 → wrap64 v = v.
Proof. intros Hv. unfold wrap64. rewrite Z.mod_small by lia. lia. Qed.
Lemma wrap64_range v : - 2 ^ 63 <= wrap64 v < 2 ^ 63.
Proof. unfold wrap64. pose proof (Z.mod_pos_bound (v + 2 ^ 63) (2 ^ 64) ltac:(lia)). lia. Qed.
(** Adding a multiple of the modulus does not show. *)
Lemma wrap64_congr v w k : v = w + k * 2 ^ 64 → wrap64 v = wrap64 w.
Proof.
  intros ->. unfold wrap64. replace (w + k * 2 ^ 64 + 2 ^ 63) with (w + 2 ^ 63 + k * 2 ^ 64) by lia.
  by rewrite Z_mod_plus_full.
Qed.

(** ** [context]

    What a poll of [ctx.Err()] reports: nothing, or why the context is done.
    A context is the sequence of answers to successive polls. *)
Inductive CtxCause := DeadlineExceeded | Canceled.
Abbreviation Context := (nat → option CtxCause).

(** ** Decimal text *)

(** [fmt.Sprintf("%d", v)], [strconv.FormatInt(v, 10)] *)
Definition fmt_d (v : Z) : string := pretty v.

#[global] Instance fmt_d_inj : Inj (=) (=) fmt_d.
Proof. unfold fmt_d. apply _. Qed.

(** The text of a natural number is digits. *)
Definition is_digit (c : ascii) : Prop := 48 <= byte_val c <= 57.
Lemma pretty_N_go_digits x s : Forall is_digit (to_bytes s) → Forall is_digit (to_bytes (pretty_N_go x s)).
Proof.
  revert s. induction (N.lt_wf_0 x) as [x _ IH]; intros s Hs. destruct (decide (x = 0)%N) as [->|Hx]; [by rewrite pretty_N_go_0|].
  rewrite pretty_N_go_step by lia. apply IH; [apply N.div_lt; lia|]. constructor; [|done].
  unfold is_digit, pretty_N_char. repeat case_match; split; vm_compute; congruence.
Qed.
Lemma fmt_d_digits n : 0 <= n → Forall is_digit (to_bytes (fmt_d n)).
Proof.
  intros Hn. unfold fmt_d, pretty, pretty_Z. destruct n as [|p|p]; [by repeat constructor| |lia].
  change (pretty p) with (pretty_N (N.pos p)). unfold pretty_N. case_decide; [done|]. apply pretty_N_go_digits. constructor.
Qed.

(** ** [encoding/binary]: big-endian [uint64]

    [PutUint64(b, uint64(v))]: a negative [v] is its two's complement. *)
Definition put_u64 (v : Z) : bytes :=
  (λ i, byte_of (Z.shiftr v i)) <$> [56; 48; 40; 32; 24; 16; 8; 0].

Definition get_u64 (b : bytes) : Z := foldl (λ acc c, acc * 256 + byte_val c) 0 b.

Lemma length_put_u64 v : length (put_u64 v) = 8%nat.
Proof. done. Qed.

Lemma get_put_u64 v : get_u64 (put_u64 v) = v mod 2 ^ 64.
Proof.
  unfold get_u64, put_u64. cbn [fmap list_fmap foldl]. rewrite !byte_val_of.
  rewrite !Z.shiftr_div_pow2 by lia. rewrite Z.div_1_r.
  change (2 ^ 64) with (256 * (256 * (256 * (256 * (256 * (256 * (256 * 256))))))).
  rewrite !(Z.rem_mul_r v) by lia.
  change (2 ^ 8) with 256. change (2 ^ 16) with (256 * 256).
  change (2 ^ 24) with (256 * (256 * 256)). change (2 ^ 32) with (256 * (256 * (256 * 256))).
  change (2 ^ 40) with (256 * (256 * (256 * (256 * 256)))).
  change (2 ^ 48) with (256 * (256 * (256 * (256 * (256 * 256))))).
  change (2 ^ 56) with (256 * (256 * (256 * (256 * (256 * (256 * 256)))))).
  rewrite <- !Z.div_div by lia.
  rewrite !Z.rem_mul_r by lia. lia.
Qed.

Lemma put_u64_inj v w : 0 <= v < 2 ^ 64 → 0 <= w < 2 ^ 64 → put_u64 v = put_u64 w → v = w.
Proof.
  intros Hv Hw H. apply (f_equal get_u64) in H. rewrite !get_put_u64 in H.
  by rewrite !Z.mod_small in H.
Qed.

(** ** [encoding/hex] *)

Definition hex_digit (v : Z) : ascii :=
  if v <? 10 then byte_of (48 + v) else byte_of (87 + v).

Definition hex_encode (b : bytes) : string :=
  of_bytes (b ≫= λ c, [hex_digit (byte_val c / 16); hex_digit (byte_val c mod 16)]).

Lemma to_bytes_of_bytes b : to_bytes (of_bytes b) = b.
Proof. apply String.list_ascii_of_string_of_list_ascii. Qed.

Lemma hex_digit_lower v : 0 <= v < 16 → is_lower_hex_digit (byte_val (hex_digit v)) = true.
Proof.
  intros Hv. unfold hex_digit. destruct (v <? 10) eqn:Hlt; rewrite byte_val_of; go_bool;
    rewrite Z.mod_small by lia; unfold is_lower_hex_digit; lia.
Qed.

Lemma hex_encode_lower b : str_forallb is_lower_hex_digit (hex_encode b) = true.
Proof.
  unfold str_forallb, hex_encode. rewrite to_bytes_of_bytes.
  induction b as [|c b IH]; cbn; [done|].
  pose proof (byte_val_range c). pose proof (Z.mod_pos_bound (byte_val c) 16 ltac:(lia)).
  assert (0 <= byte_val c / 16 < 16).
  { split; [apply Z.div_pos; lia|]. apply Z.div_lt_upper_bound; lia. }
  by rewrite !hex_digit_lower by lia.
Qed.

Lemma length_hex_encode b : str_len (hex_encode b) = 2 * Z.of_nat (length b).
Proof.
  rewrite str_len_bytes. unfold hex_encode. rewrite to_bytes_of_bytes.
  induction b as [|c b IH]; cbn -[Z.mul]; lia.
Qed.
