(* ===== verification/Sha256.v ===== *)
(** * SHA-256 ([crypto/sha256], FIPS 180-4)

    The identities the program computes are SHA-256 digests of length-prefixed
    encodings.  The digest is computed here, so that an identity in a witness is
    the one the program would print; the facts proved about identities only use
    the length of a digest. *)

From stdpp Require Import prelude strings.
From Stdlib Require Import ZArith Lia.
From S2P Require Import Prelude GoStd.
Local Open Scope Z_scope.

Definition w32 (v : Z) : Z := Z.land v 4294967295.
Definition rotr (n x : Z) : Z := w32 (Z.lor (Z.shiftr x n) (Z.shiftl x (32 - n))).

(** The round constants are the first 32 bits of the fractional parts of the cube
    roots of the first 64 primes, the initial state those of the square roots of
    the first eight. *)
Definition is_prime (n : Z) : bool :=
  forallb (λ d, negb (n mod Z.of_nat d =? 0)) (seq 2 (Z.to_nat (Z.sqrt n) - 1)).
Definition first_primes : list Z := take 64 (List.filter is_prime (Z.of_nat <$> seq 2 400)).

(** The largest [x + y], [y < 2 ^ bits], whose cube is at most [n]. *)
Fixpoint icbrt (bits : nat) (x n : Z) : Z :=
  match bits with
  | O => x
  | S bits => let y := x + 2 ^ Z.of_nat bits in icbrt bits (if y * y * y <=? n then y else x) n
  end.
Definition cbrt_fraction (p : Z) : Z := icbrt 40 0 (p * 2 ^ 96) mod 2 ^ 32.
Definition sqrt_fraction (p : Z) : Z := Z.sqrt (p * 2 ^ 64) mod 2 ^ 32.

Definition sha_k : list Z := Eval vm_compute in cbrt_fraction <$> first_primes.

Record sha_state := ShaState { sha_a : Z; sha_b : Z; sha_c : Z; sha_d : Z; sha_e : Z; sha_f : Z; sha_g : Z; sha_h : Z }.

Definition sha_init : sha_state := Eval vm_compute in
  match sqrt_fraction <$> take 8 first_primes with
  | [a; b; c; d; e; f; g; h] => ShaState a b c d e f g h
  | _ => ShaState 0 0 0 0 0 0 0 0
  end.

(** The message schedule, most recent word first. *)
Fixpoint sha_extend (n : nat) (w : list Z) : list Z :=
  match n with
  | O => w
  | S n =>
    let w2 := nth 1 w 0 in let w7 := nth 6 w 0 in
    let w15 := nth 14 w 0 in let w16 := nth 15 w 0 in
    let s0 := Z.lxor (Z.lxor (rotr 7 w15) (rotr 18 w15)) (Z.shiftr w15 3) in
    let s1 := Z.lxor (Z.lxor (rotr 17 w2) (rotr 19 w2)) (Z.shiftr w2 10) in
    sha_extend n (w32 (w16 + s0 + w7 + s1) :: w)
  end.

Definition sha_round (s : sha_state) (kw : Z * Z) : sha_state :=
  let '(k, w) := kw in
  let s1 := Z.lxor (Z.lxor (rotr 6 (sha_e s)) (rotr 11 (sha_e s))) (rotr 25 (sha_e s)) in
  let ch := Z.lxor (Z.land (sha_e s) (sha_f s)) (Z.land (Z.lxor (sha_e s) 4294967295) (sha_g s)) in
  let t1 := w32 (sha_h s + s1 + ch + k + w) in
  let s0 := Z.lxor (Z.lxor (rotr 2 (sha_a s)) (rotr 13 (sha_a s))) (rotr 22 (sha_a s)) in
  let maj := Z.lxor (Z.lxor (Z.land (sha_a s) (sha_b s)) (Z.land (sha_a s) (sha_c s))) (Z.land (sha_b s) (sha_c s)) in
  let t2 := w32 (s0 + maj) in
  ShaState (w32 (t1 + t2)) (sha_a s) (sha_b s) (sha_c s) (w32 (sha_d s + t1)) (sha_e s) (sha_f s) (sha_g s).

Definition sha_block (s : sha_state) (w : list Z) : sha_state :=
  let ws := rev (sha_extend 48 (rev w)) in
  let r := foldl sha_round s (zip sha_k ws) in
  ShaState (w32 (sha_a s + sha_a r)) (w32 (sha_b s + sha_b r)) (w32 (sha_c s + sha_c r)) (w32 (sha_d s + sha_d r))
           (w32 (sha_e s + sha_e r)) (w32 (sha_f s + sha_f r)) (w32 (sha_g s + sha_g r)) (w32 (sha_h s + sha_h r)).

(** Big-endian 32-bit words of a byte stream whose length is a multiple of 4. *)
Fixpoint sha_words (b : bytes) : list Z :=
  match b with
  | c0 :: c1 :: c2 :: c3 :: b =>
    (byte_val c0 * 16777216 + byte_val c1 * 65536 + byte_val c2 * 256 + byte_val c3) :: sha_words b
  | _ => []
  end.

Definition sha_pad (b : bytes) : bytes :=
  let n := length b in
  b ++ byte_of 128 :: replicate ((119 - n mod 64) mod 64)%nat (byte_of 0) ++ put_u64 (8 * Z.of_nat n).

Fixpoint sha_blocks (fuel : nat) (s : sha_state) (w : list Z) : sha_state :=
  match fuel with
  | O => s
  | S fuel => match w with
              | [] => s
              | _ => sha_blocks fuel (sha_block s (take 16 w)) (drop 16 w)
              end
  end.

Definition put_w32 (v : Z) : bytes := (λ i, byte_of (Z.shiftr v i)) <$> [24; 16; 8; 0].

Definition sha256 (b : bytes) : bytes :=
  let w := sha_words (sha_pad b) in
  let s := sha_blocks (length w) sha_init w in
  [sha_a s; sha_b s; sha_c s; sha_d s; sha_e s; sha_f s; sha_g s; sha_h s] ≫= put_w32.

(** [hex.EncodeToString(h.Sum(nil))] after writing [b] to [sha256.New()] *)
Definition sha256_hex (b : bytes) : string := hex_encode (sha256 b).

Lemma length_sha256 b : length (sha256 b) = 32%nat.
Proof. done. Qed.

Lemma length_sha256_hex b : str_len (sha256_hex b) = 64.
Proof. unfold sha256_hex. by rewrite length_hex_encode, length_sha256. Qed.

Lemma sha256_hex_lower b : str_forallb is_lower_hex_digit (sha256_hex b) = true.
Proof. apply hex_encode_lower. Qed.

(** Test vectors of FIPS 180-4: the empty message, and a two-block message. *)
Example sha256_empty :
  sha256_hex (to_bytes "") = "e3b0c44298fc1c149afbf4c8996fb92427ae41e4649b934ca495991b7852b855"%string.
Proof. vm_compute. reflexivity. Qed.

Example sha256_two_blocks :
  sha256_hex (to_bytes "abcdbcdecdefdefgefghfghighijhijkijkljklmklmnlmnomnopnopq")
  = "248d6a61d20638b8e5c026930c3e6039a33ce45964ff2167f6ecedd419db06c1"%string.
Proof. vm_compute. reflexivity. Qed.

#[global] Opaque sha256.
