(* ===== verification/Framing.v ===== *)
(** * Length-prefixed encodings ([internal/compare/digest.go], [internal/policy/digest.go])

    Every identity is a SHA-256 digest of a sequence of framed fields: integers
    are eight big-endian bytes, strings and lists are preceded by their length.
    The writers below are the bytes each helper feeds to the hash
    ([internal/policy/digest.go] repeats them verbatim).  An encoder is
    _prefix-free_ when a decoder could find where it ends; sequences of
    prefix-free encoders are injective, which is why two different records never
    hash the same bytes. *)

From stdpp Require Import prelude strings.
From Stdlib Require Import ZArith Lia.
From S2P Require Import Prelude GoStd Sha256.
Local Open Scope Z_scope.

Definition writeU64 (v : Z) : bytes := put_u64 v.
Definition writeI64 (v : Z) : bytes := writeU64 v.
Definition writeBool (v : bool) : bytes := if v then [byte_of 1] else [byte_of 0].
Definition writeString (s : string) : bytes := writeU64 (str_len s) ++ to_bytes s.
Definition writeDigest (d : string) : bytes := writeString d.
Definition writeStrings (l : list string) : bytes :=
  writeU64 (Z.of_nat (length l)) ++ (l ≫= writeString).
Definition writeDigests (l : list string) : bytes :=
  writeU64 (Z.of_nat (length l)) ++ (l ≫= writeDigest).

(** [digestBytes]: the domain-separated digest of a serialised document. *)
Definition digestBytes (domain : string) (data : bytes) : string :=
  "sha256:" +:+ sha256_hex (to_bytes domain ++ writeU64 (Z.of_nat (length data)) ++ data).

#[global] Arguments writeU64 _ : simpl never.
#[global] Arguments writeI64 _ : simpl never.
#[global] Arguments writeBool _ : simpl never.
#[global] Arguments writeString _ : simpl never.
#[global] Arguments writeDigest _ : simpl never.
#[global] Arguments writeStrings _ : simpl never.
#[global] Arguments writeDigests _ : simpl never.

(** ** Prefix-free encoders *)

Class PrefixFree {A} (ok : A → Prop) (enc : A → bytes) : Prop :=
  prefix_free x y r s : ok x → ok y → enc x ++ r = enc y ++ s → x = y ∧ r = s.
Global Hint Mode PrefixFree ! - ! : typeclass_instances.

(** The machine ranges of the encoded values. *)
Definition is_u64 (v : Z) : Prop := 0 <= v < 2 ^ 64.
Definition is_i64 (v : Z) : Prop := - 2 ^ 63 <= v < 2 ^ 63.
Definition is_str (s : string) : Prop := str_len s < 2 ^ 63.
Definition is_list {A} (ok : A → Prop) (l : list A) : Prop :=
  Z.of_nat (length l) < 2 ^ 63 ∧ Forall ok l.

Lemma prefix_free_inj {A} (ok : A → Prop) (enc : A → bytes) `{!PrefixFree ok enc} x y :
  ok x → ok y → enc x = enc y → x = y.
Proof. intros Hx Hy H. destruct (prefix_free (enc := enc) x y [] []) as [? _]; by rewrite ?H. Qed.

(** An encoder of fixed length that is injective is prefix-free. *)
Lemma fixed_prefix_free {A} (ok : A → Prop) (enc : A → bytes) n :
  (∀ x, length (enc x) = n) → (∀ x y, ok x → ok y → enc x = enc y → x = y) → PrefixFree ok enc.
Proof.
  intros Hlen Hinj x y r s Hx Hy H. apply app_inj_1 in H as [H ?]; [|by rewrite !Hlen].
  eauto.
Qed.

#[global] Instance writeU64_prefix_free : PrefixFree is_u64 writeU64.
Proof. apply (fixed_prefix_free _ _ 8); [done|]. intros x y. apply put_u64_inj. Qed.

Lemma put_u64_mod v : put_u64 (v mod 2 ^ 64) = put_u64 v.
Proof.
  unfold put_u64. apply list_fmap_ext. intros i j Hij. unfold byte_of. do 2 f_equal.
  assert (0 <= j <= 56) as Hj by (do 8 (destruct i as [|i]; [injection Hij; lia|]); done).
  rewrite !Z.shiftr_div_pow2 by lia.
  apply Z.bits_inj'. intros k Hk. change 256 with (2 ^ 8).
  destruct (decide (k < 8)).
  - rewrite !Z.mod_pow2_bits_low by lia. rewrite !Z.div_pow2_bits by lia.
    by rewrite Z.mod_pow2_bits_low by lia.
  - by rewrite !Z.mod_pow2_bits_high by lia.
Qed.

#[global] Instance writeI64_prefix_free : PrefixFree is_i64 writeI64.
Proof.
  apply (fixed_prefix_free _ _ 8); [done|]. unfold is_i64, writeI64, writeU64. intros x y Hx Hy H.
  rewrite <- (put_u64_mod x), <- (put_u64_mod y) in H.
  apply put_u64_inj in H; [|apply Z.mod_pos_bound; lia..].
  rewrite (Z.mod_eq x), (Z.mod_eq y) in H by lia.
  pose proof (Z.div_mod x (2 ^ 64) ltac:(lia)). pose proof (Z.mod_pos_bound x (2 ^ 64) ltac:(lia)).
  pose proof (Z.div_mod y (2 ^ 64) ltac:(lia)). pose proof (Z.mod_pos_bound y (2 ^ 64) ltac:(lia)).
  assert (x / 2 ^ 64 = y / 2 ^ 64 ∨ x / 2 ^ 64 <> y / 2 ^ 64) as [?|?] by lia; [lia|].
  assert (-1 <= x / 2 ^ 64 <= 0) by nia. assert (-1 <= y / 2 ^ 64 <= 0) by nia. nia.
Qed.

#[global] Instance writeBool_prefix_free : PrefixFree (λ _, True) writeBool.
Proof. intros [] [] r s _ _ H; by injection H. Qed.

#[global] Instance writeString_prefix_free : PrefixFree is_str writeString.
Proof.
  intros x y r s Hx Hy. unfold is_str, writeString in *. rewrite <- !app_assoc. intros H.
  rewrite !str_len_bytes in *.
  apply (prefix_free (ok := is_u64)) in H as [Hl H]; [|unfold is_u64; lia..].
  apply app_inj_1 in H as [H ?]; [|lia]. split; [|done]. by apply to_bytes_inj.
Qed.

#[global] Instance writeDigest_prefix_free : PrefixFree is_str writeDigest.
Proof. apply writeString_prefix_free. Qed.

Section lists.
Context {A} (ok : A → Prop) (enc : A → bytes) `{!PrefixFree ok enc}.

(** A list preceded by its length. *)
Definition framed_list (l : list A) : bytes := writeU64 (Z.of_nat (length l)) ++ (l ≫= enc).

Lemma elements_prefix_free l k r s :
length l = length k → Forall ok l → Forall ok k →
(l ≫= enc) ++ r = (k ≫= enc) ++ s → l = k ∧ r = s.
Proof.
intros Hlen Hl. revert k Hlen. induction Hl as [|x l Hx Hl IH]; intros [|y k] Hlen Hk; try done.
cbn. rewrite <- !app_assoc. intros H. inversion_clear Hk as [|? ? Hy Hk'].
apply (prefix_free (ok := ok)) in H as [-> H]; [|done..].
injection Hlen as Hlen. by destruct (IH k Hlen Hk' H) as [-> ->].
Qed.

#[global] Instance framed_list_prefix_free : PrefixFree (is_list ok) framed_list.
Proof.
intros l k r s [Hl Hl'] [Hk Hk']. unfold framed_list. rewrite <- !app_assoc. intros H.
apply (prefix_free (ok := is_u64)) in H as [Hn H]; [|unfold is_u64; lia..].
apply elements_prefix_free in H; [done|lia|done..].
Qed.
End lists.

#[global] Instance writeStrings_prefix_free : PrefixFree (is_list is_str) writeStrings.
Proof. apply (framed_list_prefix_free is_str writeString). Qed.

#[global] Instance writeDigests_prefix_free : PrefixFree (is_list is_str) writeDigests.
Proof. apply (framed_list_prefix_free is_str writeDigest). Qed.

(** Peel equal fields off two equal encodings, leaving the equations. *)
Ltac peel_frames :=
  repeat match goal with
  | H : writeU64 _ ++ _ = writeU64 _ ++ _ |- _ =>
      apply (prefix_free (ok := is_u64)) in H as [? H]; [|by auto with glassroot..]
  | H : writeI64 _ ++ _ = writeI64 _ ++ _ |- _ =>
      apply (prefix_free (ok := is_i64)) in H as [? H]; [|by auto with glassroot..]
  | H : writeBool _ ++ _ = writeBool _ ++ _ |- _ =>
      apply (prefix_free (ok := λ _, True)) in H as [? H]; [|done..]
  | H : writeString _ ++ _ = writeString _ ++ _ |- _ =>
      apply (prefix_free (ok := is_str)) in H as [? H]; [|by auto with glassroot..]
  | H : writeDigest _ ++ _ = writeDigest _ ++ _ |- _ =>
      apply (prefix_free (ok := is_str)) in H as [? H]; [|by auto with glassroot..]
  | H : writeStrings _ ++ _ = writeStrings _ ++ _ |- _ =>
      apply (prefix_free (ok := is_list is_str)) in H as [? H]; [|by auto with glassroot..]
  | H : writeDigests _ ++ _ = writeDigests _ ++ _ |- _ =>
      apply (prefix_free (ok := is_list is_str)) in H as [? H]; [|by auto with glassroot..]
  end.
