(* ===== verification/GoTime.v ===== *)
(** * Instants and their RFC 3339 text ([time])

    An instant is its number of nanoseconds since the Unix epoch, in UTC.
    [time.RFC3339] writes whole seconds; [time.RFC3339Nano] adds the fraction of
    the second with its trailing zeros removed (and no fraction at all when it is
    zero), so its texts do not all have the same length. *)

From stdpp Require Import prelude strings pretty.
From Stdlib Require Import ZArith Lia.
From S2P Require Import Prelude GoStd.
Local Open Scope Z_scope.

Definition nanos_per_second : Z := 1000000000.
Definition second : Z := nanos_per_second.

(** [time.Time{}]: midnight, January 1st of year 1. *)
Definition zero_time : Z := -62135596800 * nanos_per_second.

(** A [time.Time] as a value: its instant, the offset of its zone, whether its
    location is UTC itself, and whether it carries a monotonic reading. *)
Record GoTimeValue := mkGoTimeValue { gt_instant : Z; gt_offset : Z; gt_utc : bool; gt_monotonic : bool }.

(** [t.IsZero()], and the test [!t.IsZero() && t.Location() == time.UTC]. *)
Definition is_zero_time (t : GoTimeValue) : bool := bool_decide (gt_instant t = zero_time).
Definition valid_utc (t : GoTimeValue) : bool := negb (is_zero_time t) && gt_utc t.

(** Proleptic Gregorian date of a day number (day 0 is 1970-01-01). *)
Definition civil_of_days (d : Z) : Z * Z * Z :=
  let z := d + 719468 in
  let era := z / 146097 in
  let doe := z - era * 146097 in
  let yoe := (doe - doe / 1460 + doe / 36524 - doe / 146096) / 365 in
  let doy := doe - (365 * yoe + yoe / 4 - yoe / 100) in
  let mp := (5 * doy + 2) / 153 in
  let day := doy - (153 * mp + 2) / 5 + 1 in
  let month := if mp <? 10 then mp + 3 else mp - 9 in
  let year := yoe + era * 400 + (if month <=? 2 then 1 else 0) in
  (year, month, day).

(** Decimal digits of [v], most significant first, padded to [w] digits. *)
Fixpoint digits (w : nat) (v : Z) : string :=
  match w with
  | O => EmptyString
  | S w => digits w (v / 10) +:+ String (byte_of (48 + v mod 10)) EmptyString
  end.

(** Seconds part: [2006-01-02T15:04:05]. *)
Definition format_seconds (s : Z) : string :=
  let '(y, m, d) := civil_of_days (s / 86400) in
  let r := s mod 86400 in
  digits 4 y +:+ "-" +:+ digits 2 m +:+ "-" +:+ digits 2 d +:+ "T" +:+
  digits 2 (r / 3600) +:+ ":" +:+ digits 2 (r / 60 mod 60) +:+ ":" +:+ digits 2 (r mod 60).

(** [t.UTC().Round(0).Format(time.RFC3339)] *)
Definition format_rfc3339 (t : Z) : string := format_seconds (t / nanos_per_second) +:+ "Z".

(** The fraction [.999999999]: nine digits without trailing zeros. *)
Fixpoint frac_digits (w : nat) (n : Z) : string :=
  match w with
  | O => EmptyString
  | S w => if bool_decide (n mod 10 = 0) then frac_digits w (n / 10) else digits (S w) n
  end.
Definition format_frac (n : Z) : string :=
  if bool_decide (n = 0) then EmptyString else "." +:+ frac_digits 9 n.

(** [t.UTC().Round(0).Format(time.RFC3339Nano)] *)
Definition format_rfc3339nano (t : Z) : string :=
  format_seconds (t / nanos_per_second) +:+ format_frac (t mod nanos_per_second) +:+ "Z".

Example format_epoch : format_rfc3339nano 0 = "1970-01-01T00:00:00Z"%string.
Proof. reflexivity. Qed.
Example format_leap_day :
  format_rfc3339nano (1709210096 * nanos_per_second + 120000000) = "2024-02-29T12:34:56.12Z"%string.
Proof. vm_compute. reflexivity. Qed.
