(* ===== verification/Model.v ===== *)
(** * Wire types ([internal/model])

    The data the comparator, the policy and the report exchange.  A Go struct is
    a record with the same fields in the same order; a named string type is an
    abbreviation of [string], because documents can carry values outside the
    named constants and the code checks for them; [int64], [uint32] and [uint64]
    fields are integers; a pointer is an [option]; an instant ([time.Time], UTC)
    is its number of nanoseconds since the Unix epoch. *)

From stdpp Require Import prelude strings.
From Stdlib Require Import ZArith.
From S2P Require Import Prelude GoStd.
Local Open Scope Z_scope.

Abbreviation Time := Z.

(** ** [internal/model/schema.go], [common.go] *)

Abbreviation SchemaVersion := string.
Definition SchemaVersionRunV1Alpha1 : string := "glassroot.dev/run/v1alpha1".
Definition SchemaVersionRunPlanV1Alpha1 : string := "glassroot.dev/run-plan/v1alpha1".
Definition SchemaVersionObservationEventV1Alpha1 : string := "glassroot.dev/observation-event/v1alpha1".
Definition SchemaVersionScenarioResultV1Alpha1 : string := "glassroot.dev/scenario-result/v1alpha1".
Definition SchemaVersionBehavioralDeltaV1Alpha1 : string := "glassroot.dev/behavioral-delta/v1alpha1".
Definition SchemaVersionEvidenceManifestV1Alpha1 : string := "glassroot.dev/evidence-manifest/v1alpha1".
Definition SchemaVersionExecutionResultV1Alpha1 : string := "glassroot.dev/execution-result/v1alpha1".
Definition SchemaVersionAttemptResultV1Alpha1 : string := "glassroot.dev/attempt-result/v1alpha1".
Definition SchemaVersionArtifactIndexV1Alpha1 : string := "glassroot.dev/artifact-index/v1alpha1".
Definition SchemaVersionFindingV1Alpha1 : string := "glassroot.dev/finding/v1alpha1".
Definition SchemaVersionReportV1Alpha1 : string := "glassroot.dev/report/v1alpha1".

Abbreviation Digest := string.

Abbreviation RevisionKind := string.
Definition RevisionKindBase : string := "base".
Definition RevisionKindHead : string := "head".

Abbreviation GitObjectFormat := string.
Definition GitObjectFormatSHA1 : string := "sha1".
Definition GitObjectFormatSHA256 : string := "sha256".

Record Limitation := mkLimitation {
  lim_ID : string;
  lim_Summary : string;
  lim_Details : string
}.

Record EnvEntry := mkEnvEntry {
  env_Name : string;
  env_Value : string
}.

(** ** [internal/model/event.go]: provenance and observation kinds *)

Abbreviation ObservationSource := string.
Definition ObservationSourceHostObserved : string := "host-observed".
Definition ObservationSourceNetworkBrokerObserved : string := "network-broker-observed".
Definition ObservationSourceSandboxRuntimeObserved : string := "sandbox-runtime-observed".
Definition ObservationSourceGuestAgentReported : string := "guest-agent-reported".
Definition ObservationSourceWorkloadReported : string := "workload-reported".
Definition ObservationSourceStaticAnalysisDerived : string := "static-analysis-derived".
Definition ObservationSourceModelInferred : string := "model-inferred".
Definition ObservationSourceSyntheticTestGenerated : string := "synthetic-test-generated".

Abbreviation ObservationKind := string.
Definition ObservationKindProcessStart : string := "process-start".
Definition ObservationKindProcessExit : string := "process-exit".
Definition ObservationKindFilesystemCreate : string := "filesystem-create".
Definition ObservationKindFilesystemRead : string := "filesystem-read".
Definition ObservationKindFilesystemWrite : string := "filesystem-write".
Definition ObservationKindFilesystemDelete : string := "filesystem-delete".
Definition ObservationKindFilesystemRename : string := "filesystem-rename".
Definition ObservationKindFilesystemChmod : string := "filesystem-chmod".
Definition ObservationKindDNSQuery : string := "dns-query".
Definition ObservationKindNetworkConnection : string := "network-connection".
Definition ObservationKindArtifactActivity : string := "artifact-activity".
Definition ObservationKindScenarioStarted : string := "scenario-started".
Definition ObservationKindScenarioCompleted : string := "scenario-completed".
Definition ObservationKindObserverWarning : string := "observer-warning".
Definition ObservationKindUnsupportedObservation : string := "unsupported-observation".
Definition ObservationKindResourceLimit : string := "resource-limit".

(** ** [internal/model/run.go], [scenario.go]: plans *)

Record CommitRef := mkCommitRef {
  cr_Kind : RevisionKind;
  cr_Repository : string;
  cr_Ref : string;
  cr_CommitID : string;
  cr_ObjectFormat : GitObjectFormat;
  cr_TreeID : string;
  cr_TreeDigest : Digest
}.

Abbreviation NetworkMode := string.
Definition NetworkModeDeny : string := "deny".
Definition NetworkModeAllowlist : string := "allowlist".

Abbreviation IsolationTier := string.
Definition IsolationTierFake : string := "fake".
Definition IsolationTierDevelopmentOnly : string := "development-only".
Definition IsolationTierHardenedContainer : string := "hardened-container".
Definition IsolationTierMicroVM : string := "microvm".

Abbreviation ScenarioStatus := string.
Definition ScenarioStatusPlanned : string := "planned".
Definition ScenarioStatusRunning : string := "running".
Definition ScenarioStatusPassed : string := "passed".
Definition ScenarioStatusFailed : string := "failed".
Definition ScenarioStatusError : string := "error".
Definition ScenarioStatusTimedOut : string := "timed-out".
Definition ScenarioStatusCancelled : string := "cancelled".
Definition ScenarioStatusSkipped : string := "skipped".
Definition ScenarioStatusIncomplete : string := "incomplete".

Record RunnerCapabilities := mkRunnerCapabilities {
  rc_Name : string;
  rc_Version : string;
  rc_IsolationTier : IsolationTier;
  rc_FreshKernel : bool;
  rc_BrokeredNetwork : bool;
  rc_ExecutesTargetCode : bool;
  rc_SyntheticEvidence : bool;
  rc_EnforcesNetworkDeny : bool;
  rc_ProcessEventCollection : bool;
  rc_FilesystemEventCollection : bool;
  rc_SyscallEventCollection : bool;
  rc_ArtifactHashing : bool;
  rc_SnapshotSupport : bool
}.

Record PolicyPlan := mkPolicyPlan {
  pp_Profile : string
}.

Record ResourceLimits := mkResourceLimits {
  rl_CPU : Z;
  rl_TimeoutMillis : Z;
  rl_MemoryBytes : Z;
  rl_DiskBytes : Z;
  rl_CPUMillis : Z;
  rl_ProcessCount : Z
}.

Record NetworkAllowRule := mkNetworkAllowRule {
  nar_Protocol : string;
  nar_Host : string;
  nar_Port : Z
}.

Record NetworkPolicy := mkNetworkPolicy {
  np_Mode : NetworkMode;
  np_Allowed : list NetworkAllowRule
}.

Record RunPlanPlatform := mkRunPlanPlatform {
  rpp_MaxCPU : Z;
  rpp_MaxMemoryBytes : Z;
  rpp_MaxDiskBytes : Z;
  rpp_MaxProcessCount : Z;
  rpp_MaxGlobalTimeoutMillis : Z;
  rpp_MaxScenarioTimeoutMillis : Z;
  rpp_MaxScenarioCount : Z;
  rpp_MaxRepetitions : Z;
  rpp_MaxFilesystemRootCount : Z;
  rpp_MaxArtifactCount : Z;
  rpp_MaxArtifactBytes : Z;
  rpp_MaxLogBytesPerStream : Z;
  rpp_MaxPlanJSONBytes : Z;
  rpp_RequiredNetworkMode : NetworkMode
}.

Record SourceSummary := mkSourceSummary {
  ss_DirectoryCount : Z;
  ss_RegularFileCount : Z;
  ss_ExecutableFileCount : Z;
  ss_SymlinkCount : Z;
  ss_GitlinkCount : Z;
  ss_LFSPointerCount : Z;
  ss_TotalMaterializedFileBytes : Z;
  ss_SkippedEntryCount : Z
}.

Record SourceLimitation := mkSourceLimitation {
  sl_Code : string;
  sl_Path : string;
  sl_Summary : string
}.

Record ExpectedArtifactSpec := mkExpectedArtifactSpec {
  eas_LogicalPath : string;
  eas_Required : bool;
  eas_MaxSizeBytes : Z
}.

Record Command := mkCommand {
  cmd_Argv : list string;
  cmd_WorkingDirectory : string;
  cmd_Environment : list EnvEntry;
  cmd_TimeoutMillis : Z
}.

Record ScenarioPlan := mkScenarioPlan {
  sp_ID : string;
  sp_Name : string;
  sp_Shell : string;
  sp_Run : string;
  sp_Repetitions : Z;
  sp_Command : Command;
  sp_ResourceLimits : ResourceLimits;
  sp_NetworkPolicy : NetworkPolicy;
  sp_ExpectedArtifacts : list ExpectedArtifactSpec
}.

Record CollectionPlan := mkCollectionPlan {
  clp_FilesystemRoots : list string;
  clp_FilesystemContents : string;
  clp_Artifacts : list ExpectedArtifactSpec;
  clp_LogMaxBytesPerStream : Z
}.

Record ComparisonPlan := mkComparisonPlan {
  cmp_IgnoreFields : list string;
  cmp_Repetitions : Z
}.

Record RunPlanConfig := mkRunPlanConfig {
  rpc_Source : RevisionKind;
  rpc_Path : string;
  rpc_Digest : Digest;
  rpc_SizeBytes : Z;
  rpc_ObjectID : string
}.

Record RunPlanEnvironment := mkRunPlanEnvironment {
  rpe_Image : string;
  rpe_ImageDigest : string;
  rpe_Workdir : string
}.

Record RevisionPlan := mkRevisionPlan {
  rvp_Kind : RevisionKind;
  rvp_Commit : CommitRef;
  rvp_ObjectFormat : GitObjectFormat;
  rvp_TreeID : string;
  rvp_MaterializedTreeDigest : Digest;
  rvp_MaterializationManifestDigest : Digest;
  rvp_SourceSummary : option SourceSummary;
  rvp_SourceLimitations : list SourceLimitation;
  rvp_ScenarioIDs : list string
}.

Record RunPlan := mkRunPlan {
  rp_SchemaVersion : SchemaVersion;
  rp_ID : string;
  rp_RunID : string;
  rp_CreatedAt : Time;
  rp_PipelineName : string;
  rp_Configuration : option RunPlanConfig;
  rp_ExecutionEnvironment : option RunPlanEnvironment;
  rp_Base : CommitRef;
  rp_Head : CommitRef;
  rp_Revisions : list RevisionPlan;
  rp_Scenarios : list ScenarioPlan;
  rp_Runner : RunnerCapabilities;
  rp_ResourceLimits : ResourceLimits;
  rp_NetworkPolicy : NetworkPolicy;
  rp_Environment : list EnvEntry;
  rp_Collection : option CollectionPlan;
  rp_Comparison : option ComparisonPlan;
  rp_Policy : option PolicyPlan;
  rp_Platform : option RunPlanPlatform;
  rp_Limitations : list Limitation
}.

(** ** [internal/model/evidence.go] *)

Record EvidenceRef := mkEvidenceRef {
  er_Digest : Digest;
  er_EventIDs : list string;
  er_BundlePath : option string;
  er_EventStreamDigest : Digest;
  er_EventStreamPath : string;
  er_EventSequence : Z;
  er_Revision : RevisionKind;
  er_ScenarioID : string;
  er_Repetition : Z
}.

(** ** [internal/model/finding.go]: behavioural deltas and findings *)

Record EvidenceContext := mkEvidenceContext {
  ec_SyntheticEvidence : bool;
  ec_ExecutesTargetCode : bool
}.

Abbreviation DeltaKind := string.
Definition DeltaKindAddedProcess : string := "added-process".
Definition DeltaKindAddedFilesystemActivity : string := "added-filesystem-activity".
Definition DeltaKindAddedNetworkConnection : string := "added-network-connection".
Definition DeltaKindArtifactChanged : string := "artifact-changed".
Definition DeltaKindObservationIncomplete : string := "observation-incomplete".
Definition DeltaKindAdded : string := "added".
Definition DeltaKindRemoved : string := "removed".
Definition DeltaKindModified : string := "modified".
Definition DeltaKindCountChanged : string := "count-changed".
Definition DeltaKindOrderChanged : string := "order-changed".
Definition DeltaKindStabilityChanged : string := "stability-changed".
Definition DeltaKindCoverageChanged : string := "coverage-changed".

Abbreviation Severity := string.
Definition SeverityInfo : string := "info".
Definition SeverityLow : string := "low".
Definition SeverityMedium : string := "medium".
Definition SeverityHigh : string := "high".
Definition SeverityCritical : string := "critical".

Abbreviation Confidence := string.
Definition ConfidenceLow : string := "low".
Definition ConfidenceMedium : string := "medium".
Definition ConfidenceHigh : string := "high".
Definition ConfidenceUnknown : string := "unknown".

Abbreviation Disposition := string.
Definition DispositionPassed : string := "passed".
Definition DispositionRequiresReview : string := "requires-review".
Definition DispositionFailed : string := "failed".
Definition DispositionWaived : string := "waived".

Abbreviation ComparisonBasis := string.
Definition ComparisonBasisCompleteObservation : string := "complete-observation".
Definition ComparisonBasisSingleSample : string := "single-sample".
Definition ComparisonBasisRepetitionVariable : string := "repetition-variable".
Definition ComparisonBasisCoverageLimited : string := "coverage-limited".
Definition ComparisonBasisAmbiguousCorrelation : string := "ambiguous-correlation".

Abbreviation CoverageAssessment := string.
Definition CoverageAssessmentComplete : string := "complete".
Definition CoverageAssessmentPartial : string := "partial".
Definition CoverageAssessmentNone : string := "none".

Abbreviation RepeatabilityAssessment := string.
Definition RepeatabilityStable : string := "stable".
Definition RepeatabilityVariable : string := "variable".
Definition RepeatabilitySingleSample : string := "single-sample".
Definition RepeatabilityNotAssessable : string := "not-assessable".

Record ComparisonProfile := mkComparisonProfile {
  cp_Version : string;
  cp_RequiredNormalizationProfile : string;
  cp_ExactSemanticMatchAlgorithm : string;
  cp_TypedAnchorAlgorithm : string;
  cp_RepetitionAssessmentAlgorithm : string;
  cp_OrderAssessmentAlgorithm : string;
  cp_AbsencePolicy : string;
  cp_IncludedFactKinds : list string
}.

Record RepetitionOccurrence := mkRepetitionOccurrence {
  ro_Repetition : Z;
  ro_Coverage : CoverageAssessment;
  ro_CountKnown : bool;
  ro_Count : Z
}.

Record OccurrenceProfile := mkOccurrenceProfile {
  op_PlannedRepetitionCount : Z;
  op_Repetitions : list RepetitionOccurrence;
  op_CompleteRepetitionCount : Z;
  op_IncompleteRepetitionCount : Z;
  op_MinimumKnownCount : Z;
  op_MaximumKnownCount : Z;
  op_TotalKnownCount : Z;
  op_Coverage : CoverageAssessment;
  op_Repeatability : RepeatabilityAssessment
}.

Record AttemptCoverage := mkAttemptCoverage {
  ac_AttemptID : string;
  ac_Revision : RevisionKind;
  ac_Repetition : Z;
  ac_Coverage : CoverageAssessment
}.

Record ScenarioComparison := mkScenarioComparison {
  sc_ScenarioID : string;
  sc_BaseRepetitions : list AttemptCoverage;
  sc_HeadRepetitions : list AttemptCoverage;
  sc_Coverage : CoverageAssessment;
  sc_RepeatabilityNotes : list Limitation;
  sc_Limitations : list Limitation
}.

Record DeltaSummary := mkDeltaSummary {
  ds_TotalRecords : Z;
  ds_Added : Z;
  ds_Removed : Z;
  ds_Modified : Z;
  ds_CountChanged : Z;
  ds_OrderChanged : Z;
  ds_StabilityChanged : Z;
  ds_CoverageChanged : Z
}.

Record DeltaNormalizedPath := mkDeltaNormalizedPath {
  dnp_Namespace : string;
  dnp_RootIndex : Z;
  dnp_Relative : string;
  dnp_Literal : string;
  dnp_Display : string
}.

Record DeltaProcessFact := mkDeltaProcessFact {
  dpf_Operation : string;
  dpf_StableID : string;
  dpf_ParentStableID : string;
  dpf_ParentRelation : string;
  dpf_Executable : DeltaNormalizedPath;
  dpf_Arguments : list string;
  dpf_Environment : list EnvEntry;
  dpf_ExitCode : option Z;
  dpf_DurationMillis : Z
}.

Record DeltaFilesystemFact := mkDeltaFilesystemFact {
  dff_Operation : string;
  dff_Path : DeltaNormalizedPath;
  dff_OldPath : option DeltaNormalizedPath;
  dff_Mode : string;
  dff_Digest : Digest;
  dff_SizeBytes : Z;
  dff_Executable : bool;
  dff_Truncated : bool
}.

Record DeltaNetworkFact := mkDeltaNetworkFact {
  dnf_Operation : string;
  dnf_Protocol : string;
  dnf_QueryName : string;
  dnf_DestinationHost : string;
  dnf_DestinationPort : Z;
  dnf_ResolvedAddresses : list string;
  dnf_Result : string;
  dnf_DurationMillis : Z
}.

Record DeltaArtifactFact := mkDeltaArtifactFact {
  daf_Operation : string;
  daf_ArtifactID : string;
  daf_Path : DeltaNormalizedPath;
  daf_Digest : Digest;
  daf_SizeBytes : Z;
  daf_Executable : bool;
  daf_SourceEventIDs : list string
}.

Record DeltaScenarioFact := mkDeltaScenarioFact {
  dsf_Status : ScenarioStatus;
  dsf_Message : string;
  dsf_DurationMillis : Z
}.

Record DeltaWarningFact := mkDeltaWarningFact {
  dwf_Code : string;
  dwf_Message : string;
  dwf_Unsupported : bool;
  dwf_Limitations : list Limitation
}.

Record DeltaResourceFact := mkDeltaResourceFact {
  drf_LimitKind : string;
  drf_LimitValue : Z;
  drf_Unit : string;
  drf_ObservedValue : Z;
  drf_Exceeded : bool
}.

Record DeltaFactSnapshot := mkDeltaFactSnapshot {
  dfs_ID : string;
  dfs_SemanticDigest : Digest;
  dfs_Kind : string;
  dfs_Source : ObservationSource;
  dfs_Process : option DeltaProcessFact;
  dfs_Filesystem : option DeltaFilesystemFact;
  dfs_Network : option DeltaNetworkFact;
  dfs_Artifact : option DeltaArtifactFact;
  dfs_Scenario : option DeltaScenarioFact;
  dfs_Warning : option DeltaWarningFact;
  dfs_Resource : option DeltaResourceFact;
  dfs_Evidence : list EvidenceRef;
  dfs_Limitations : list Limitation
}.

Record DeltaRecord := mkDeltaRecord {
  dr_ID : string;
  dr_Kind : DeltaKind;
  dr_Summary : string;
  dr_BaseObserved : bool;
  dr_HeadObserved : bool;
  dr_Evidence : list EvidenceRef;
  dr_ScenarioIDs : list string;
  dr_Limitations : list Limitation;
  dr_FactKind : string;
  dr_Source : ObservationSource;
  dr_AnchorDigest : Digest;
  dr_Basis : ComparisonBasis;
  dr_ChangedFields : list string;
  dr_BaseOccurrence : OccurrenceProfile;
  dr_HeadOccurrence : OccurrenceProfile;
  dr_BaseFacts : list DeltaFactSnapshot;
  dr_HeadFacts : list DeltaFactSnapshot;
  dr_BaseEvidence : list EvidenceRef;
  dr_HeadEvidence : list EvidenceRef;
  dr_BaseSemanticDigests : list Digest;
  dr_HeadSemanticDigests : list Digest
}.

Record BehavioralDelta := mkBehavioralDelta {
  bd_SchemaVersion : SchemaVersion;
  bd_ID : string;
  bd_RunID : string;
  bd_Base : CommitRef;
  bd_Head : CommitRef;
  bd_PlanDigest : Digest;
  bd_ManifestDigest : Digest;
  bd_ManifestVerificationMode : string;
  bd_ExecutionComplete : bool;
  bd_EvidenceComplete : bool;
  bd_EvidenceContext : EvidenceContext;
  bd_ComparisonProfile : ComparisonProfile;
  bd_NormalizationProfileVersion : string;
  bd_ScenarioIDs : list string;
  bd_ScenarioComparisons : list ScenarioComparison;
  bd_Summary : DeltaSummary;
  bd_Records : list DeltaRecord;
  bd_Limitations : list Limitation
}.

Record ModelWaiver := mkModelWaiver {
  mw_ID : string;
  mw_RuleID : string;
  mw_Scope : string;
  mw_Reason : string;
  mw_Owner : string;
  mw_ExpiresAt : option Time;
  mw_Evidence : list EvidenceRef
}.

Record Finding := mkFinding {
  fd_SchemaVersion : SchemaVersion;
  fd_ID : string;
  fd_RuleID : string;
  fd_RuleVersion : string;
  fd_Title : string;
  fd_Severity : Severity;
  fd_Confidence : Confidence;
  fd_Disposition : Disposition;
  fd_Summary : string;
  fd_DeltaRecordIDs : list string;
  fd_Evidence : list EvidenceRef;
  fd_ScenarioIDs : list string;
  fd_BaseObserved : bool;
  fd_HeadObserved : bool;
  fd_Waived : bool;
  fd_Waivers : list ModelWaiver;
  fd_Limitations : list Limitation
}.
