(* ===== verification/Json.v ===== *)
(** * JSON serialisation ([encoding/json], [json.Marshal])

    Documents are frozen as the bytes [json.Marshal] produces: compact, with the
    fields in declaration order, the names of the [json] tags, the [omitempty]
    rules, and strings escaped as the encoder does by default (HTML characters,
    control characters, line separators, and invalid UTF-8 replaced by U+FFFD).
    The [json_of_*] encoders follow the struct tags of [internal/model]. *)

From stdpp Require Import prelude strings.
From Stdlib Require Import ZArith Ascii.
From S2P Require Import Prelude GoStd GoTime Model.
Local Open Scope Z_scope.

#[warnings="-register-all"]
Inductive json : Type :=
| JNull
| JBool (b : bool)
| JNum (n : Z)
| JStr (s : string)
| JArr (l : list json)
| JObj (l : list (string * json)).

(** ** UTF-8 ([utf8.DecodeRune]): the rune and its size, or [None] for an
    invalid encoding (which Go reports as [RuneError] of size 1) *)

Definition cont (c : ascii) : bool := (128 <=? byte_val c) && (byte_val c <=? 191).
Definition in_range (lo hi : Z) (c : ascii) : bool := (lo <=? byte_val c) && (byte_val c <=? hi).

Definition utf8_decode (b : bytes) : option (Z * nat) :=
  match b with
  | [] => None
  | c :: rest =>
    let v := byte_val c in
    if v <? 128 then Some (v, 1%nat)
    else if in_range 194 223 c then
      match rest with
      | c1 :: _ => if cont c1 then Some (Z.land v 31 * 64 + Z.land (byte_val c1) 63, 2%nat) else None
      | _ => None
      end
    else if in_range 224 239 c then
      match rest with
      | c1 :: c2 :: _ =>
        let lo := if bool_decide (v = 224) then 160 else 128 in
        let hi := if bool_decide (v = 237) then 159 else 191 in
        if in_range lo hi c1 && cont c2 then
          Some (Z.land v 15 * 4096 + Z.land (byte_val c1) 63 * 64 + Z.land (byte_val c2) 63, 3%nat)
        else None
      | _ => None
      end
    else if in_range 240 244 c then
      match rest with
      | c1 :: c2 :: c3 :: _ =>
        let lo := if bool_decide (v = 240) then 144 else 128 in
        let hi := if bool_decide (v = 244) then 143 else 191 in
        if in_range lo hi c1 && cont c2 && cont c3 then
          Some (Z.land v 7 * 262144 + Z.land (byte_val c1) 63 * 4096
                + Z.land (byte_val c2) 63 * 64 + Z.land (byte_val c3) 63, 4%nat)
        else None
      | _ => None
      end
    else None
  end.

(** ** Strings *)

Definition u00 (v : Z) : bytes := to_bytes "\u00" ++ [hex_digit (v / 16); hex_digit (v mod 16)].

Definition escape_ascii (c : ascii) : bytes :=
  let v := byte_val c in
  if bool_decide (v = 34) then [byte_of 92; c]
  else if bool_decide (v = 92) then [c; c]
  else if bool_decide (v = 8) then to_bytes "\b"
  else if bool_decide (v = 12) then to_bytes "\f"
  else if bool_decide (v = 10) then to_bytes "\n"
  else if bool_decide (v = 13) then to_bytes "\r"
  else if bool_decide (v = 9) then to_bytes "\t"
  else if (v <? 32) || bool_decide (v ∈ [60; 62; 38]) then u00 v
  else [c].

(** [fuel] is the number of bytes: every step consumes at least one. *)
Fixpoint escape_bytes (fuel : nat) (b : bytes) : bytes :=
  match fuel, b with
  | S fuel, c :: rest =>
    if byte_val c <? 128 then escape_ascii c ++ escape_bytes fuel rest
    else match utf8_decode b with
         | None => to_bytes "\ufffd" ++ escape_bytes fuel rest
         | Some (r, n) =>
           (if bool_decide (r = 8232) then to_bytes "\u2028"
            else if bool_decide (r = 8233) then to_bytes "\u2029"
            else take n b) ++ escape_bytes fuel (drop n b)
         end
  | _, _ => []
  end.

Definition quote : ascii := byte_of 34.
Definition render_string (s : string) : bytes :=
  quote :: escape_bytes (String.length s) (to_bytes s) ++ [quote].

(** ** Values *)

Definition sep (l : list bytes) : bytes :=
  match l with [] => [] | x :: l => x ++ (l ≫= λ y, to_bytes "," ++ y) end.

Fixpoint render (j : json) : bytes :=
  match j with
  | JNull => to_bytes "null"
  | JBool b => to_bytes (if b then "true" else "false")
  | JNum n => to_bytes (fmt_d n)
  | JStr s => render_string s
  | JArr l => to_bytes "[" ++ sep (map render l) ++ to_bytes "]"
  | JObj l => to_bytes "{" ++
      sep (map (λ kv, render_string kv.1 ++ to_bytes ":" ++ render kv.2) l) ++ to_bytes "}"
  end.

(** A struct: fields flagged (zero value under [omitempty]) are left out. *)
Definition j_fields (l : list (bool * string * json)) : list (string * json) :=
  omap (λ '(omit, k, v), if (omit : bool) then None else Some (k, v)) l.
Definition j_ptr {A} (f : A → json) (o : option A) : json :=
  match o with None => JNull | Some v => f v end.
(** A slice built by [append([]T(nil), in...)]: it is nil, and encoded as [null],
    when it is empty. *)
Definition j_appended {A} (f : A → json) (l : list A) : json :=
  match l with [] => JNull | _ => JArr (f <$> l) end.
Definition ze_str (s : string) : bool := bool_decide (s = ""%string).
Definition ze_num (n : Z) : bool := bool_decide (n = 0).
Definition ze_ptr {A} (o : option A) : bool := match o with None => true | Some _ => false end.
Definition ze_list {A} (l : list A) : bool := match l with [] => true | _ :: _ => false end.

(** ** Encoders of [internal/model] *)

Definition json_of_Limitation (x : Limitation) : json := JObj (j_fields [
  (false, "id"%string, JStr (lim_ID x));
  (false, "summary"%string, JStr (lim_Summary x));
  (ze_str (lim_Details x), "details"%string, JStr (lim_Details x))]).

Definition json_of_EnvEntry (x : EnvEntry) : json := JObj (j_fields [
  (false, "name"%string, JStr (env_Name x));
  (false, "value"%string, JStr (env_Value x))]).

Definition json_of_CommitRef (x : CommitRef) : json := JObj (j_fields [
  (false, "kind"%string, JStr (cr_Kind x));
  (false, "repository"%string, JStr (cr_Repository x));
  (false, "ref"%string, JStr (cr_Ref x));
  (false, "commitId"%string, JStr (cr_CommitID x));
  (ze_str (cr_ObjectFormat x), "objectFormat"%string, JStr (cr_ObjectFormat x));
  (ze_str (cr_TreeID x), "treeId"%string, JStr (cr_TreeID x));
  (ze_str (cr_TreeDigest x), "treeDigest"%string, JStr (cr_TreeDigest x))]).

Definition json_of_EvidenceRef (x : EvidenceRef) : json := JObj (j_fields [
  (ze_str (er_Digest x), "digest"%string, JStr (er_Digest x));
  (false, "eventIds"%string, j_appended JStr (er_EventIDs x));
  (ze_ptr (er_BundlePath x), "bundlePath"%string, j_ptr (λ v, JStr v) (er_BundlePath x));
  (ze_str (er_EventStreamDigest x), "eventStreamDigest"%string, JStr (er_EventStreamDigest x));
  (ze_str (er_EventStreamPath x), "eventStreamPath"%string, JStr (er_EventStreamPath x));
  (ze_num (er_EventSequence x), "eventSequence"%string, JNum (er_EventSequence x));
  (ze_str (er_Revision x), "revision"%string, JStr (er_Revision x));
  (ze_str (er_ScenarioID x), "scenarioId"%string, JStr (er_ScenarioID x));
  (ze_num (er_Repetition x), "repetition"%string, JNum (er_Repetition x))]).

Definition json_of_EvidenceContext (x : EvidenceContext) : json := JObj (j_fields [
  (false, "syntheticEvidence"%string, JBool (ec_SyntheticEvidence x));
  (false, "executesTargetCode"%string, JBool (ec_ExecutesTargetCode x))]).

Definition json_of_ComparisonProfile (x : ComparisonProfile) : json := JObj (j_fields [
  (false, "version"%string, JStr (cp_Version x));
  (false, "requiredNormalizationProfile"%string, JStr (cp_RequiredNormalizationProfile x));
  (false, "exactSemanticMatchAlgorithm"%string, JStr (cp_ExactSemanticMatchAlgorithm x));
  (false, "typedAnchorAlgorithm"%string, JStr (cp_TypedAnchorAlgorithm x));
  (false, "repetitionAssessmentAlgorithm"%string, JStr (cp_RepetitionAssessmentAlgorithm x));
  (false, "orderAssessmentAlgorithm"%string, JStr (cp_OrderAssessmentAlgorithm x));
  (false, "absencePolicy"%string, JStr (cp_AbsencePolicy x));
  (false, "includedFactKinds"%string, JArr ((λ v, JStr v) <$> (cp_IncludedFactKinds x)))]).

Definition json_of_RepetitionOccurrence (x : RepetitionOccurrence) : json := JObj (j_fields [
  (false, "repetition"%string, JNum (ro_Repetition x));
  (false, "coverage"%string, JStr (ro_Coverage x));
  (false, "countKnown"%string, JBool (ro_CountKnown x));
  (false, "count"%string, JNum (ro_Count x))]).

Definition json_of_OccurrenceProfile (x : OccurrenceProfile) : json := JObj (j_fields [
  (false, "plannedRepetitionCount"%string, JNum (op_PlannedRepetitionCount x));
  (false, "repetitions"%string, JArr ((λ v, json_of_RepetitionOccurrence v) <$> (op_Repetitions x)));
  (false, "completeRepetitionCount"%string, JNum (op_CompleteRepetitionCount x));
  (false, "incompleteRepetitionCount"%string, JNum (op_IncompleteRepetitionCount x));
  (false, "minimumKnownCount"%string, JNum (op_MinimumKnownCount x));
  (false, "maximumKnownCount"%string, JNum (op_MaximumKnownCount x));
  (false, "totalKnownCount"%string, JNum (op_TotalKnownCount x));
  (false, "coverage"%string, JStr (op_Coverage x));
  (false, "repeatability"%string, JStr (op_Repeatability x))]).

Definition json_of_AttemptCoverage (x : AttemptCoverage) : json := JObj (j_fields [
  (false, "attemptId"%string, JStr (ac_AttemptID x));
  (false, "revision"%string, JStr (ac_Revision x));
  (false, "repetition"%string, JNum (ac_Repetition x));
  (false, "coverage"%string, JStr (ac_Coverage x))]).

Definition json_of_ScenarioComparison (x : ScenarioComparison) : json := JObj (j_fields [
  (false, "scenarioId"%string, JStr (sc_ScenarioID x));
  (false, "baseRepetitions"%string, JArr ((λ v, json_of_AttemptCoverage v) <$> (sc_BaseRepetitions x)));
  (false, "headRepetitions"%string, JArr ((λ v, json_of_AttemptCoverage v) <$> (sc_HeadRepetitions x)));
  (false, "coverage"%string, JStr (sc_Coverage x));
  (false, "repeatabilityNotes"%string, JArr ((λ v, json_of_Limitation v) <$> (sc_RepeatabilityNotes x)));
  (false, "limitations"%string, JArr ((λ v, json_of_Limitation v) <$> (sc_Limitations x)))]).

Definition json_of_DeltaSummary (x : DeltaSummary) : json := JObj (j_fields [
  (false, "totalRecords"%string, JNum (ds_TotalRecords x));
  (false, "added"%string, JNum (ds_Added x));
  (false, "removed"%string, JNum (ds_Removed x));
  (false, "modified"%string, JNum (ds_Modified x));
  (false, "countChanged"%string, JNum (ds_CountChanged x));
  (false, "orderChanged"%string, JNum (ds_OrderChanged x));
  (false, "stabilityChanged"%string, JNum (ds_StabilityChanged x));
  (false, "coverageChanged"%string, JNum (ds_CoverageChanged x))]).

Definition json_of_DeltaNormalizedPath (x : DeltaNormalizedPath) : json := JObj (j_fields [
  (false, "namespace"%string, JStr (dnp_Namespace x));
  (ze_num (dnp_RootIndex x), "rootIndex"%string, JNum (dnp_RootIndex x));
  (ze_str (dnp_Relative x), "relative"%string, JStr (dnp_Relative x));
  (false, "literal"%string, JStr (dnp_Literal x));
  (false, "display"%string, JStr (dnp_Display x))]).

Definition json_of_DeltaProcessFact (x : DeltaProcessFact) : json := JObj (j_fields [
  (false, "operation"%string, JStr (dpf_Operation x));
  (false, "stableId"%string, JStr (dpf_StableID x));
  (ze_str (dpf_ParentStableID x), "parentStableId"%string, JStr (dpf_ParentStableID x));
  (false, "parentRelation"%string, JStr (dpf_ParentRelation x));
  (false, "executable"%string, json_of_DeltaNormalizedPath (dpf_Executable x));
  (false, "arguments"%string, JArr ((λ v, JStr v) <$> (dpf_Arguments x)));
  (false, "environment"%string, JArr ((λ v, json_of_EnvEntry v) <$> (dpf_Environment x)));
  (ze_ptr (dpf_ExitCode x), "exitCode"%string, j_ptr (λ v, JNum v) (dpf_ExitCode x));
  (false, "durationMillis"%string, JNum (dpf_DurationMillis x))]).

Definition json_of_DeltaFilesystemFact (x : DeltaFilesystemFact) : json := JObj (j_fields [
  (false, "operation"%string, JStr (dff_Operation x));
  (false, "path"%string, json_of_DeltaNormalizedPath (dff_Path x));
  (ze_ptr (dff_OldPath x), "oldPath"%string, j_ptr (λ v, json_of_DeltaNormalizedPath v) (dff_OldPath x));
  (ze_str (dff_Mode x), "mode"%string, JStr (dff_Mode x));
  (ze_str (dff_Digest x), "digest"%string, JStr (dff_Digest x));
  (false, "sizeBytes"%string, JNum (dff_SizeBytes x));
  (false, "executable"%string, JBool (dff_Executable x));
  (false, "truncated"%string, JBool (dff_Truncated x))]).

Definition json_of_DeltaNetworkFact (x : DeltaNetworkFact) : json := JObj (j_fields [
  (false, "operation"%string, JStr (dnf_Operation x));
  (false, "protocol"%string, JStr (dnf_Protocol x));
  (ze_str (dnf_QueryName x), "queryName"%string, JStr (dnf_QueryName x));
  (ze_str (dnf_DestinationHost x), "destinationHost"%string, JStr (dnf_DestinationHost x));
  (ze_num (dnf_DestinationPort x), "destinationPort"%string, JNum (dnf_DestinationPort x));
  (false, "resolvedAddresses"%string, JArr ((λ v, JStr v) <$> (dnf_ResolvedAddresses x)));
  (false, "result"%string, JStr (dnf_Result x));
  (ze_num (dnf_DurationMillis x), "durationMillis"%string, JNum (dnf_DurationMillis x))]).

Definition json_of_DeltaArtifactFact (x : DeltaArtifactFact) : json := JObj (j_fields [
  (false, "operation"%string, JStr (daf_Operation x));
  (false, "artifactId"%string, JStr (daf_ArtifactID x));
  (false, "path"%string, json_of_DeltaNormalizedPath (daf_Path x));
  (ze_str (daf_Digest x), "digest"%string, JStr (daf_Digest x));
  (false, "sizeBytes"%string, JNum (daf_SizeBytes x));
  (false, "executable"%string, JBool (daf_Executable x));
  (false, "sourceEventIds"%string, JArr ((λ v, JStr v) <$> (daf_SourceEventIDs x)))]).

Definition json_of_DeltaScenarioFact (x : DeltaScenarioFact) : json := JObj (j_fields [
  (false, "status"%string, JStr (dsf_Status x));
  (ze_str (dsf_Message x), "message"%string, JStr (dsf_Message x));
  (false, "durationMillis"%string, JNum (dsf_DurationMillis x))]).

Definition json_of_DeltaWarningFact (x : DeltaWarningFact) : json := JObj (j_fields [
  (false, "code"%string, JStr (dwf_Code x));
  (false, "message"%string, JStr (dwf_Message x));
  (false, "unsupported"%string, JBool (dwf_Unsupported x));
  (false, "limitations"%string, JArr ((λ v, json_of_Limitation v) <$> (dwf_Limitations x)))]).

Definition json_of_DeltaResourceFact (x : DeltaResourceFact) : json := JObj (j_fields [
  (false, "limitKind"%string, JStr (drf_LimitKind x));
  (false, "limitValue"%string, JNum (drf_LimitValue x));
  (false, "unit"%string, JStr (drf_Unit x));
  (false, "observedValue"%string, JNum (drf_ObservedValue x));
  (false, "exceeded"%string, JBool (drf_Exceeded x))]).

Definition json_of_DeltaFactSnapshot (x : DeltaFactSnapshot) : json := JObj (j_fields [
  (false, "id"%string, JStr (dfs_ID x));
  (false, "semanticDigest"%string, JStr (dfs_SemanticDigest x));
  (false, "kind"%string, JStr (dfs_Kind x));
  (false, "source"%string, JStr (dfs_Source x));
  (ze_ptr (dfs_Process x), "process"%string, j_ptr (λ v, json_of_DeltaProcessFact v) (dfs_Process x));
  (ze_ptr (dfs_Filesystem x), "filesystem"%string, j_ptr (λ v, json_of_DeltaFilesystemFact v) (dfs_Filesystem x));
  (ze_ptr (dfs_Network x), "network"%string, j_ptr (λ v, json_of_DeltaNetworkFact v) (dfs_Network x));
  (ze_ptr (dfs_Artifact x), "artifact"%string, j_ptr (λ v, json_of_DeltaArtifactFact v) (dfs_Artifact x));
  (ze_ptr (dfs_Scenario x), "scenario"%string, j_ptr (λ v, json_of_DeltaScenarioFact v) (dfs_Scenario x));
  (ze_ptr (dfs_Warning x), "warning"%string, j_ptr (λ v, json_of_DeltaWarningFact v) (dfs_Warning x));
  (ze_ptr (dfs_Resource x), "resource"%string, j_ptr (λ v, json_of_DeltaResourceFact v) (dfs_Resource x));
  (false, "evidence"%string, JArr ((λ v, json_of_EvidenceRef v) <$> (dfs_Evidence x)));
  (false, "limitations"%string, JArr ((λ v, json_of_Limitation v) <$> (dfs_Limitations x)))]).

Definition json_of_DeltaRecord (x : DeltaRecord) : json := JObj (j_fields [
  (false, "id"%string, JStr (dr_ID x));
  (false, "kind"%string, JStr (dr_Kind x));
  (false, "summary"%string, JStr (dr_Summary x));
  (false, "baseObserved"%string, JBool (dr_BaseObserved x));
  (false, "headObserved"%string, JBool (dr_HeadObserved x));
  (false, "evidence"%string, JArr ((λ v, json_of_EvidenceRef v) <$> (dr_Evidence x)));
  (false, "scenarioIds"%string, JArr ((λ v, JStr v) <$> (dr_ScenarioIDs x)));
  (false, "limitations"%string, JArr ((λ v, json_of_Limitation v) <$> (dr_Limitations x)));
  (ze_str (dr_FactKind x), "factKind"%string, JStr (dr_FactKind x));
  (ze_str (dr_Source x), "source"%string, JStr (dr_Source x));
  (ze_str (dr_AnchorDigest x), "anchorDigest"%string, JStr (dr_AnchorDigest x));
  (ze_str (dr_Basis x), "basis"%string, JStr (dr_Basis x));
  (ze_list (dr_ChangedFields x), "changedFields"%string, JArr ((λ v, JStr v) <$> (dr_ChangedFields x)));
  (false, "baseOccurrence"%string, json_of_OccurrenceProfile (dr_BaseOccurrence x));
  (false, "headOccurrence"%string, json_of_OccurrenceProfile (dr_HeadOccurrence x));
  (ze_list (dr_BaseFacts x), "baseFacts"%string, JArr ((λ v, json_of_DeltaFactSnapshot v) <$> (dr_BaseFacts x)));
  (ze_list (dr_HeadFacts x), "headFacts"%string, JArr ((λ v, json_of_DeltaFactSnapshot v) <$> (dr_HeadFacts x)));
  (ze_list (dr_BaseEvidence x), "baseEvidence"%string, JArr ((λ v, json_of_EvidenceRef v) <$> (dr_BaseEvidence x)));
  (ze_list (dr_HeadEvidence x), "headEvidence"%string, JArr ((λ v, json_of_EvidenceRef v) <$> (dr_HeadEvidence x)));
  (ze_list (dr_BaseSemanticDigests x), "baseSemanticDigests"%string, JArr ((λ v, JStr v) <$> (dr_BaseSemanticDigests x)));
  (ze_list (dr_HeadSemanticDigests x), "headSemanticDigests"%string, JArr ((λ v, JStr v) <$> (dr_HeadSemanticDigests x)))]).

Definition json_of_BehavioralDelta (x : BehavioralDelta) : json := JObj (j_fields [
  (false, "schemaVersion"%string, JStr (bd_SchemaVersion x));
  (false, "id"%string, JStr (bd_ID x));
  (false, "runId"%string, JStr (bd_RunID x));
  (false, "base"%string, json_of_CommitRef (bd_Base x));
  (false, "head"%string, json_of_CommitRef (bd_Head x));
  (ze_str (bd_PlanDigest x), "planDigest"%string, JStr (bd_PlanDigest x));
  (ze_str (bd_ManifestDigest x), "manifestDigest"%string, JStr (bd_ManifestDigest x));
  (ze_str (bd_ManifestVerificationMode x), "manifestVerificationMode"%string, JStr (bd_ManifestVerificationMode x));
  (negb (bd_ExecutionComplete x), "executionComplete"%string, JBool (bd_ExecutionComplete x));
  (negb (bd_EvidenceComplete x), "evidenceComplete"%string, JBool (bd_EvidenceComplete x));
  (false, "evidenceContext"%string, json_of_EvidenceContext (bd_EvidenceContext x));
  (false, "comparisonProfile"%string, json_of_ComparisonProfile (bd_ComparisonProfile x));
  (ze_str (bd_NormalizationProfileVersion x), "normalizationProfileVersion"%string, JStr (bd_NormalizationProfileVersion x));
  (false, "scenarioIds"%string, JArr ((λ v, JStr v) <$> (bd_ScenarioIDs x)));
  (ze_list (bd_ScenarioComparisons x), "scenarioComparisons"%string, JArr ((λ v, json_of_ScenarioComparison v) <$> (bd_ScenarioComparisons x)));
  (false, "summary"%string, json_of_DeltaSummary (bd_Summary x));
  (false, "records"%string, j_appended json_of_DeltaRecord (bd_Records x));
  (false, "limitations"%string, JArr ((λ v, json_of_Limitation v) <$> (bd_Limitations x)))]).

Definition json_of_ModelWaiver (x : ModelWaiver) : json := JObj (j_fields [
  (false, "id"%string, JStr (mw_ID x));
  (false, "ruleId"%string, JStr (mw_RuleID x));
  (false, "scope"%string, JStr (mw_Scope x));
  (false, "reason"%string, JStr (mw_Reason x));
  (false, "owner"%string, JStr (mw_Owner x));
  (ze_ptr (mw_ExpiresAt x), "expiresAt"%string, j_ptr (λ v, JStr (format_rfc3339nano v)) (mw_ExpiresAt x));
  (false, "evidence"%string, JArr ((λ v, json_of_EvidenceRef v) <$> (mw_Evidence x)))]).

Definition json_of_Finding (x : Finding) : json := JObj (j_fields [
  (false, "schemaVersion"%string, JStr (fd_SchemaVersion x));
  (false, "id"%string, JStr (fd_ID x));
  (false, "ruleId"%string, JStr (fd_RuleID x));
  (ze_str (fd_RuleVersion x), "ruleVersion"%string, JStr (fd_RuleVersion x));
  (false, "title"%string, JStr (fd_Title x));
  (false, "severity"%string, JStr (fd_Severity x));
  (false, "confidence"%string, JStr (fd_Confidence x));
  (false, "disposition"%string, JStr (fd_Disposition x));
  (false, "summary"%string, JStr (fd_Summary x));
  (ze_list (fd_DeltaRecordIDs x), "deltaRecordIds"%string, JArr ((λ v, JStr v) <$> (fd_DeltaRecordIDs x)));
  (false, "evidence"%string, JArr ((λ v, json_of_EvidenceRef v) <$> (fd_Evidence x)));
  (false, "scenarioIds"%string, JArr ((λ v, JStr v) <$> (fd_ScenarioIDs x)));
  (false, "baseObserved"%string, JBool (fd_BaseObserved x));
  (false, "headObserved"%string, JBool (fd_HeadObserved x));
  (false, "waived"%string, JBool (fd_Waived x));
  (ze_list (fd_Waivers x), "waivers"%string, JArr ((λ v, json_of_ModelWaiver v) <$> (fd_Waivers x)));
  (false, "limitations"%string, JArr ((λ v, json_of_Limitation v) <$> (fd_Limitations x)))]).


Example json_escapes :
  of_bytes (render (JObj [("k"%string, JArr [JStr "a<b"; JNum (-3); JNull])]))
  = of_bytes (byte_of 123 :: quote :: to_bytes "k" ++ [quote] ++ to_bytes ":[" ++ [quote]
              ++ to_bytes "a\u003cb" ++ [quote] ++ to_bytes ",-3,null]}").
Proof. vm_compute. reflexivity. Qed.
