(* ===== verification/Event.v ===== *)
(** * Observation events ([internal/model/event.go])

    What a runner reports and the normalizer reads: an envelope and one typed
    payload, with the encoder that measures an event.  The instants of an event
    are in UTC. *)

From stdpp Require Import prelude strings.
From Stdlib Require Import ZArith.
From S2P Require Import Prelude GoStd GoTime Model Json.
Local Open Scope Z_scope.

Record ProcessObservation := mkProcessObservation {
  po_Operation : string;
  po_ProcessID : Z;
  po_ParentProcessID : option Z;
  po_ExecutablePath : string;
  po_Arguments : list string;
  po_Environment : list EnvEntry;
  po_ExitCode : option Z;
  po_StartedAt : option Time;
  po_ExitedAt : option Time;
  po_DurationMillis : Z
}.

Record FilesystemObservation := mkFilesystemObservation {
  fo_Operation : string;
  fo_Path : string;
  fo_OldPath : string;
  fo_Mode : string;
  fo_Digest : Digest;
  fo_SizeBytes : Z;
  fo_Executable : bool;
  fo_Truncated : bool
}.

Record NetworkObservation := mkNetworkObservation {
  no_Operation : string;
  no_Protocol : string;
  no_QueryName : string;
  no_DestinationHost : string;
  no_DestinationPort : Z;
  no_ResolvedAddresses : list string;
  no_Result : string;
  no_DurationMillis : Z
}.

Record ArtifactObservation := mkArtifactObservation {
  ao_Operation : string;
  ao_ArtifactID : string;
  ao_Path : string;
  ao_Digest : Digest;
  ao_SizeBytes : Z;
  ao_Executable : bool;
  ao_SourceEventIDs : list string
}.

Record ScenarioObservation := mkScenarioObservation {
  so_Status : ScenarioStatus;
  so_Message : string;
  so_StartedAt : option Time;
  so_CompletedAt : option Time;
  so_DurationMillis : Z
}.

Record ObserverWarningObservation := mkObserverWarningObservation {
  wo_Code : string;
  wo_Message : string;
  wo_Unsupported : bool;
  wo_Limitations : list Limitation
}.

Record ResourceLimitObservation := mkResourceLimitObservation {
  ro_LimitKind : string;
  ro_LimitValue : Z;
  ro_Unit : string;
  ro_ObservedValue : Z;
  ro_Exceeded : bool
}.

Record ObservationEvent := mkObservationEvent {
  oe_SchemaVersion : SchemaVersion;
  oe_ID : string;
  oe_RunID : string;
  oe_Revision : RevisionKind;
  oe_ScenarioID : string;
  oe_Repetition : Z;
  oe_SequenceNumber : Z;
  oe_ObservedAt : Time;
  oe_Source : ObservationSource;
  oe_Kind : ObservationKind;
  oe_Process : option ProcessObservation;
  oe_Filesystem : option FilesystemObservation;
  oe_Network : option NetworkObservation;
  oe_Artifact : option ArtifactObservation;
  oe_Scenario : option ScenarioObservation;
  oe_ObserverWarning : option ObserverWarningObservation;
  oe_ResourceLimit : option ResourceLimitObservation
}.

(** ** Encoders *)

(** [time.Time] is encoded as RFC 3339 with nanoseconds. *)
Definition j_time (t : Time) : json := JStr (format_rfc3339nano t).

Definition json_of_ProcessObservation (x : ProcessObservation) : json := JObj (j_fields [
  (false, "operation"%string, JStr (po_Operation x));
  (false, "processId"%string, JNum (po_ProcessID x));
  (ze_ptr (po_ParentProcessID x), "parentProcessId"%string, j_ptr JNum (po_ParentProcessID x));
  (false, "executablePath"%string, JStr (po_ExecutablePath x));
  (false, "arguments"%string, JArr (JStr <$> po_Arguments x));
  (false, "environment"%string, JArr (json_of_EnvEntry <$> po_Environment x));
  (ze_ptr (po_ExitCode x), "exitCode"%string, j_ptr JNum (po_ExitCode x));
  (ze_ptr (po_StartedAt x), "startedAt"%string, j_ptr j_time (po_StartedAt x));
  (ze_ptr (po_ExitedAt x), "exitedAt"%string, j_ptr j_time (po_ExitedAt x));
  (false, "durationMillis"%string, JNum (po_DurationMillis x))]).

Definition json_of_FilesystemObservation (x : FilesystemObservation) : json := JObj (j_fields [
  (false, "operation"%string, JStr (fo_Operation x));
  (false, "path"%string, JStr (fo_Path x));
  (ze_str (fo_OldPath x), "oldPath"%string, JStr (fo_OldPath x));
  (ze_str (fo_Mode x), "mode"%string, JStr (fo_Mode x));
  (ze_str (fo_Digest x), "digest"%string, JStr (fo_Digest x));
  (false, "sizeBytes"%string, JNum (fo_SizeBytes x));
  (false, "executable"%string, JBool (fo_Executable x));
  (false, "truncated"%string, JBool (fo_Truncated x))]).

Definition json_of_NetworkObservation (x : NetworkObservation) : json := JObj (j_fields [
  (false, "operation"%string, JStr (no_Operation x));
  (false, "protocol"%string, JStr (no_Protocol x));
  (ze_str (no_QueryName x), "queryName"%string, JStr (no_QueryName x));
  (ze_str (no_DestinationHost x), "destinationHost"%string, JStr (no_DestinationHost x));
  (ze_num (no_DestinationPort x), "destinationPort"%string, JNum (no_DestinationPort x));
  (false, "resolvedAddresses"%string, JArr (JStr <$> no_ResolvedAddresses x));
  (false, "result"%string, JStr (no_Result x));
  (ze_num (no_DurationMillis x), "durationMillis"%string, JNum (no_DurationMillis x))]).

Definition json_of_ArtifactObservation (x : ArtifactObservation) : json := JObj (j_fields [
  (false, "operation"%string, JStr (ao_Operation x));
  (false, "artifactId"%string, JStr (ao_ArtifactID x));
  (false, "path"%string, JStr (ao_Path x));
  (ze_str (ao_Digest x), "digest"%string, JStr (ao_Digest x));
  (false, "sizeBytes"%string, JNum (ao_SizeBytes x));
  (false, "executable"%string, JBool (ao_Executable x));
  (false, "sourceEventIds"%string, JArr (JStr <$> ao_SourceEventIDs x))]).

Definition json_of_ScenarioObservation (x : ScenarioObservation) : json := JObj (j_fields [
  (false, "status"%string, JStr (so_Status x));
  (ze_str (so_Message x), "message"%string, JStr (so_Message x));
  (ze_ptr (so_StartedAt x), "startedAt"%string, j_ptr j_time (so_StartedAt x));
  (ze_ptr (so_CompletedAt x), "completedAt"%string, j_ptr j_time (so_CompletedAt x));
  (false, "durationMillis"%string, JNum (so_DurationMillis x))]).

Definition json_of_ObserverWarningObservation (x : ObserverWarningObservation) : json := JObj (j_fields [
  (false, "code"%string, JStr (wo_Code x));
  (false, "message"%string, JStr (wo_Message x));
  (false, "unsupported"%string, JBool (wo_Unsupported x));
  (false, "limitations"%string, JArr (json_of_Limitation <$> wo_Limitations x))]).

Definition json_of_ResourceLimitObservation (x : ResourceLimitObservation) : json := JObj (j_fields [
  (false, "limitKind"%string, JStr (ro_LimitKind x));
  (false, "limitValue"%string, JNum (ro_LimitValue x));
  (false, "unit"%string, JStr (ro_Unit x));
  (false, "observedValue"%string, JNum (ro_ObservedValue x));
  (false, "exceeded"%string, JBool (ro_Exceeded x))]).

Definition json_of_ObservationEvent (x : ObservationEvent) : json := JObj (j_fields [
  (false, "schemaVersion"%string, JStr (oe_SchemaVersion x));
  (false, "id"%string, JStr (oe_ID x));
  (false, "runId"%string, JStr (oe_RunID x));
  (false, "revision"%string, JStr (oe_Revision x));
  (false, "scenarioId"%string, JStr (oe_ScenarioID x));
  (ze_num (oe_Repetition x), "repetition"%string, JNum (oe_Repetition x));
  (false, "sequenceNumber"%string, JNum (oe_SequenceNumber x));
  (false, "observedAt"%string, j_time (oe_ObservedAt x));
  (false, "source"%string, JStr (oe_Source x));
  (false, "kind"%string, JStr (oe_Kind x));
  (ze_ptr (oe_Process x), "process"%string, j_ptr json_of_ProcessObservation (oe_Process x));
  (ze_ptr (oe_Filesystem x), "filesystem"%string, j_ptr json_of_FilesystemObservation (oe_Filesystem x));
  (ze_ptr (oe_Network x), "network"%string, j_ptr json_of_NetworkObservation (oe_Network x));
  (ze_ptr (oe_Artifact x), "artifact"%string, j_ptr json_of_ArtifactObservation (oe_Artifact x));
  (ze_ptr (oe_Scenario x), "scenario"%string, j_ptr json_of_ScenarioObservation (oe_Scenario x));
  (ze_ptr (oe_ObserverWarning x), "observerWarning"%string, j_ptr json_of_ObserverWarningObservation (oe_ObserverWarning x));
  (ze_ptr (oe_ResourceLimit x), "resourceLimit"%string, j_ptr json_of_ResourceLimitObservation (oe_ResourceLimit x))]).

(** [json.Marshal] fails on an instant outside the years 0 to 9999. *)
Definition json_year_ok (t : Time) : bool :=
  let y := (civil_of_days (t / nanos_per_second / 86400)).1.1 in (0 <=? y) && (y <=? 9999).
Definition event_times (x : ObservationEvent) : list Time :=
  oe_ObservedAt x
  :: option_list (oe_Process x ≫= po_StartedAt) ++ option_list (oe_Process x ≫= po_ExitedAt)
  ++ option_list (oe_Scenario x ≫= so_StartedAt) ++ option_list (oe_Scenario x ≫= so_CompletedAt).
