(* ===== verification/Observe.v ===== *)
(** * Normalised traces ([internal/observe/types.go])

    What the normaliser hands to the comparator: attempts, their coverage, and
    the typed facts observed in each. *)

From stdpp Require Import prelude strings.
From Stdlib Require Import ZArith.
From S2P Require Import Prelude GoStd Model.
Local Open Scope Z_scope.

Definition TraceSetSchemaV1Alpha1 : string := "glassroot.dev/normalized-trace/v1alpha1".
Definition ProfileVersionV1Alpha1 : string := "glassroot.dev/normalization-profile/v1alpha1".

Abbreviation FactID := string.

Abbreviation ProcessID := string.

Abbreviation CaptureState := string.

Abbreviation VerificationMode := string.

Abbreviation FactKind := string.

Definition FactKindProcessStart : FactKind := ObservationKindProcessStart.
Definition FactKindProcessExit : FactKind := ObservationKindProcessExit.
Definition FactKindFilesystemCreate : FactKind := ObservationKindFilesystemCreate.
Definition FactKindFilesystemRead : FactKind := ObservationKindFilesystemRead.
Definition FactKindFilesystemWrite : FactKind := ObservationKindFilesystemWrite.
Definition FactKindFilesystemDelete : FactKind := ObservationKindFilesystemDelete.
Definition FactKindFilesystemRename : FactKind := ObservationKindFilesystemRename.
Definition FactKindFilesystemChmod : FactKind := ObservationKindFilesystemChmod.
Definition FactKindDNSQuery : FactKind := ObservationKindDNSQuery.
Definition FactKindNetworkConnection : FactKind := ObservationKindNetworkConnection.
Definition FactKindArtifactActivity : FactKind := ObservationKindArtifactActivity.
Definition FactKindScenarioStarted : FactKind := ObservationKindScenarioStarted.
Definition FactKindScenarioCompleted : FactKind := ObservationKindScenarioCompleted.
Definition FactKindObserverWarning : FactKind := ObservationKindObserverWarning.
Definition FactKindUnsupportedObservation : FactKind := ObservationKindUnsupportedObservation.
Definition FactKindResourceLimit : FactKind := ObservationKindResourceLimit.

Abbreviation CoverageState := string.
Definition CoverageComplete : string := "complete".
Definition CoverageIncomplete : string := "incomplete".
Definition CoverageNotStarted : string := "not-started".

Abbreviation PathNamespace := string.
Definition PathNamespaceWorkdirRoot : string := "workdir-root".
Definition PathNamespaceCollectionRoot : string := "collection-root".
Definition PathNamespaceAbsoluteUnmapped : string := "absolute-unmapped".
Definition PathNamespaceRelative : string := "relative".
Definition PathNamespaceOpaqueInvalid : string := "opaque-invalid".

Record PathRootAlias := mkPathRootAlias {
  pra_Namespace : PathNamespace;
  pra_RootIndex : Z;
  pra_Root : string;
  pra_Alias : string
}.

Record NormalizationProfile := mkNormalizationProfile {
  nzp_Version : string;
  nzp_IgnoreFields : list string;
  nzp_ProcessIdentityAlgorithm : string;
  nzp_TimestampAlgorithm : string;
  nzp_PathRootAlgorithm : string;
  nzp_RootAliases : list PathRootAlias
}.

Record ManifestVerification := mkManifestVerification {
  mv_Mode : VerificationMode;
  mv_ManifestDigest : Digest;
  mv_ExpectedManifestDigestSupplied : bool;
  mv_ExpectedManifestDigestMatched : bool;
  mv_InternallyConsistent : bool;
  mv_Limitations : list Limitation
}.

Record NormalizedTiming := mkNormalizedTiming {
  nt_SourceRelativeNanos : Z;
  nt_IncludedInSemanticDigest : bool;
  nt_ClockRegression : bool
}.

Record NormalizedPath := mkNormalizedPath {
  nzpath_Namespace : PathNamespace;
  nzpath_RootIndex : Z;
  nzpath_Relative : string;
  nzpath_Literal : string;
  nzpath_Display : string
}.

Record ProcessFact := mkProcessFact {
  pf_Operation : string;
  pf_StableID : ProcessID;
  pf_ParentStableID : ProcessID;
  pf_ParentRelation : string;
  pf_Executable : NormalizedPath;
  pf_Arguments : list string;
  pf_Environment : list EnvEntry;
  pf_ExitCode : option Z;
  pf_DurationMillis : Z
}.

Record FilesystemFact := mkFilesystemFact {
  ff_Operation : string;
  ff_Path : NormalizedPath;
  ff_OldPath : option NormalizedPath;
  ff_Mode : string;
  ff_Digest : Digest;
  ff_SizeBytes : Z;
  ff_Executable : bool;
  ff_Truncated : bool
}.

Record NetworkFact := mkNetworkFact {
  nf_Operation : string;
  nf_Protocol : string;
  nf_QueryName : string;
  nf_DestinationHost : string;
  nf_DestinationPort : Z;
  nf_ResolvedAddresses : list string;
  nf_Result : string;
  nf_DurationMillis : Z
}.

Record ArtifactFact := mkArtifactFact {
  af_Operation : string;
  af_ArtifactID : string;
  af_Path : NormalizedPath;
  af_Digest : Digest;
  af_SizeBytes : Z;
  af_Executable : bool;
  af_SourceEventIDs : list string
}.

Record ScenarioFact := mkScenarioFact {
  sf_Status : ScenarioStatus;
  sf_Message : string;
  sf_DurationMillis : Z
}.

Record WarningFact := mkWarningFact {
  wf_Code : string;
  wf_Message : string;
  wf_Unsupported : bool;
  wf_Limitations : list Limitation
}.

Record ResourceFact := mkResourceFact {
  rf_LimitKind : string;
  rf_LimitValue : Z;
  rf_Unit : string;
  rf_ObservedValue : Z;
  rf_Exceeded : bool
}.

Record RawEvidenceReference := mkRawEvidenceReference {
  rer_EventStreamDigest : Digest;
  rer_EventStreamPath : string;
  rer_EventID : string;
  rer_EventSequence : Z;
  rer_Revision : RevisionKind;
  rer_ScenarioID : string;
  rer_Repetition : Z
}.

Record Fact := mkFact {
  f_ID : FactID;
  f_SemanticDigest : Digest;
  f_Kind : FactKind;
  f_Source : ObservationSource;
  f_Timing : NormalizedTiming;
  f_Process : option ProcessFact;
  f_Filesystem : option FilesystemFact;
  f_Network : option NetworkFact;
  f_Artifact : option ArtifactFact;
  f_Scenario : option ScenarioFact;
  f_Warning : option WarningFact;
  f_Resource : option ResourceFact;
  f_Evidence : list RawEvidenceReference;
  f_Limitations : list Limitation
}.

Record AttemptTrace := mkAttemptTrace {
  at_AttemptID : string;
  at_Ordinal : Z;
  at_Revision : RevisionKind;
  at_ScenarioID : string;
  at_Repetition : Z;
  at_Coverage : CoverageState;
  at_Result : CaptureState;
  at_Events : CaptureState;
  at_Stdout : CaptureState;
  at_Stderr : CaptureState;
  at_Artifacts : CaptureState;
  at_FirstEventSequence : Z;
  at_LastEventSequence : Z;
  at_AcceptedEventCount : Z;
  at_Facts : list Fact;
  at_Limitations : list Limitation
}.

Record TraceSetDocument := mkTraceSetDocument {
  tsd_SchemaVersion : string;
  tsd_Profile : NormalizationProfile;
  tsd_PlanDigest : Digest;
  tsd_ManifestDigest : Digest;
  tsd_RunID : string;
  tsd_ManifestVerification : ManifestVerification;
  tsd_ExecutionComplete : bool;
  tsd_EvidenceComplete : bool;
  tsd_EvidenceContext : EvidenceContext;
  tsd_Attempts : list AttemptTrace;
  tsd_Limitations : list Limitation
}.
