(* ===== verification/Compare.v ===== *)
(** * The behavioural comparator ([internal/compare])

    [compareDocument] groups the attempts of a validated trace document by
    scenario, folds the facts of each revision into _variants_ (facts with the
    same semantic digest, kind and source), pairs the variants of the two
    revisions, and emits one delta record per difference.  The definitions follow
    [match.go], [snapshot.go], [digest.go], [profile.go], [limits.go] and
    [comparator.go].  A Go map is a [gmap]; a [*variant] shared by the variant
    map and the anchor lists is its key in that map, so that setting [consumed]
    or [ambiguous] through either is one update of the map. *)

From stdpp Require Import prelude gmap strings.
From Stdlib Require Import ZArith Lia.
From S2P Require Import Prelude GoStd Sha256 Framing Model Json Observe.
Local Open Scope Z_scope.

(** ** [errors.go] *)

Record CompareError := mkCompareError {
  ce_Code : string;
  ce_Stage : string;
  ce_Scenario : string;
  ce_Field : string
}.

Definition errCode (code stage scenario field : string) : CompareError :=
  mkCompareError code stage scenario field.

Definition contextErr (c : CtxCause) : CompareError :=
  match c with
  | DeadlineExceeded => errCode "comparison-timeout" "context" "" "deadline"
  | Canceled => errCode "context-cancelled" "context" "" "cancelled"
  end.

Definition poll (ctx : Context) (n : nat) : result CompareError unit :=
  match ctx n with None => Ok () | Some c => Err (contextErr c) end.

(** ** [limits.go] *)

Record Limits := mkLimits {
  l_MaxScenarios : Z;
  l_MaxAttempts : Z;
  l_MaxFactsPerAttempt : Z;
  l_MaxFactsTotal : Z;
  l_MaxDistinctSemanticVariants : Z;
  l_MaxDistinctAnchors : Z;
  l_MaxVariantsPerAnchor : Z;
  l_MaxDeltaRecords : Z;
  l_MaxChangedFieldsPerRecord : Z;
  l_MaxEvidenceRefsPerRecord : Z;
  l_MaxEvidenceRefsTotal : Z;
  l_MaxLimitationsPerRecord : Z;
  l_MaxLimitationsTotal : Z;
  l_MaxDeltaJSONBytes : Z
}.

#[global] Instance Limits_eq_dec : EqDecision Limits.
Proof. solve_decision. Defined.

Definition zeroLimits : Limits := mkLimits 0 0 0 0 0 0 0 0 0 0 0 0 0 0.

Definition DefaultLimits : Limits :=
  mkLimits 64 1280 10000 100000 100000 100000 1024 100000 128 1024 200000 1000 10000 (64 * 2 ^ 20).

Definition validateLimits (l : Limits) : result CompareError Limits :=
  reject_if (l == zeroLimits) (errCode "invalid-limits" "limits" "" "zero") ;;
  foldR (λ _ '(v, max, name),
           reject_if ((v <=? 0) || (max <? v)) (errCode "invalid-limits" "limits" "" name))
    () [ (l_MaxScenarios l, 64, "maxScenarios"%string);
         (l_MaxAttempts l, 1280, "maxAttempts"%string);
         (l_MaxFactsPerAttempt l, 10000, "maxFactsPerAttempt"%string);
         (l_MaxFactsTotal l, 100000, "maxFactsTotal"%string);
         (l_MaxDistinctSemanticVariants l, 100000, "maxVariants"%string);
         (l_MaxDistinctAnchors l, 100000, "maxAnchors"%string);
         (l_MaxVariantsPerAnchor l, 1024, "maxVariantsPerAnchor"%string);
         (l_MaxDeltaRecords l, 100000, "maxDeltaRecords"%string);
         (l_MaxChangedFieldsPerRecord l, 128, "maxChangedFields"%string);
         (l_MaxEvidenceRefsPerRecord l, 1024, "maxEvidenceRefsPerRecord"%string);
         (l_MaxEvidenceRefsTotal l, 200000, "maxEvidenceRefsTotal"%string);
         (l_MaxLimitationsPerRecord l, 1000, "maxLimitationsPerRecord"%string);
         (l_MaxLimitationsTotal l, 10000, "maxLimitationsTotal"%string);
         (l_MaxDeltaJSONBytes l, 64 * 2 ^ 20, "maxDeltaJsonBytes"%string) ] ;;
  mret l.

(** ** [profile.go] *)

Definition ComparisonProfileVersionV1Alpha1 : string := "glassroot.dev/comparison-profile/v1alpha1".
Definition ExactSemanticMatchAlgorithmV1 : string := "glassroot.dev/exact-semantic-multiset/v1".
Definition TypedAnchorAlgorithmV1 : string := "glassroot.dev/comparison-anchor/v1".
Definition RepetitionAssessmentAlgorithmV1 : string := "glassroot.dev/repetition-occurrence-profile/v1".
Definition OrderAssessmentAlgorithmV1 : string := "glassroot.dev/strict-semantic-sequence/v1".
Definition AbsencePolicyV1 : string := "glassroot.dev/unknown-is-not-absence/v1".

(** [observe.SupportedObservationKinds()], sorted. *)
Definition SupportedFactKinds : list FactKind := sort_strings [
  FactKindProcessStart; FactKindProcessExit; FactKindFilesystemCreate; FactKindFilesystemRead;
  FactKindFilesystemWrite; FactKindFilesystemDelete; FactKindFilesystemRename;
  FactKindFilesystemChmod; FactKindDNSQuery; FactKindNetworkConnection; FactKindArtifactActivity;
  FactKindScenarioStarted; FactKindScenarioCompleted; FactKindObserverWarning;
  FactKindUnsupportedObservation; FactKindResourceLimit ].

Definition comparisonProfile : ComparisonProfile := {|
  cp_Version := ComparisonProfileVersionV1Alpha1;
  cp_RequiredNormalizationProfile := ProfileVersionV1Alpha1;
  cp_ExactSemanticMatchAlgorithm := ExactSemanticMatchAlgorithmV1;
  cp_TypedAnchorAlgorithm := TypedAnchorAlgorithmV1;
  cp_RepetitionAssessmentAlgorithm := RepetitionAssessmentAlgorithmV1;
  cp_OrderAssessmentAlgorithm := OrderAssessmentAlgorithmV1;
  cp_AbsencePolicy := AbsencePolicyV1;
  cp_IncludedFactKinds := SupportedFactKinds |}.

Definition isSupportedFactKind (k : FactKind) : bool := bool_decide (k ∈ SupportedFactKinds).

Definition isSupportedSource (s : ObservationSource) : bool :=
  bool_decide (s ∈ [ObservationSourceHostObserved; ObservationSourceNetworkBrokerObserved;
    ObservationSourceSandboxRuntimeObserved; ObservationSourceGuestAgentReported;
    ObservationSourceWorkloadReported; ObservationSourceStaticAnalysisDerived;
    ObservationSourceModelInferred; ObservationSourceSyntheticTestGenerated]).

(** ** [digest.go] *)

Definition anchorDomain : string := "glassroot.dev/comparison-anchor/v1" +:+ NUL.
Definition recordIDDomain : string := "glassroot.dev/behavioral-delta-record-id/v1" +:+ NUL.
Definition deltaJSONDomain : string := "glassroot.dev/behavioral-delta-json/v1" +:+ NUL.
Definition sequenceDomain : string := "glassroot.dev/normalized-fact-sequence/v1" +:+ NUL.

Definition DigestBehavioralDeltaJSON (data : bytes) : Digest := digestBytes deltaJSONDomain data.

Definition filesystemKinds : list FactKind :=
  [FactKindFilesystemCreate; FactKindFilesystemRead; FactKindFilesystemWrite;
   FactKindFilesystemDelete; FactKindFilesystemRename; FactKindFilesystemChmod].

Definition writePath (p : NormalizedPath) : bytes :=
  writeString (nzpath_Namespace p) ++ writeU64 (nzpath_RootIndex p) ++
  writeString (nzpath_Relative p) ++
  (if bool_decide (nzpath_Namespace p ∈ [PathNamespaceWorkdirRoot; PathNamespaceCollectionRoot])
   then writeString "" else writeString (nzpath_Literal p)) ++
  writeString (nzpath_Display p).

Definition missingPayload (field : string) : CompareError :=
  errCode "invalid-fact-payload" "anchor" "" field.

(** The kind-specific part of the anchor's preimage; [None] when the fact has
    no anchor (a warning without a code). *)
Definition anchorPayload (f : Fact) : result CompareError (option bytes) :=
  let k := f_Kind f in
  if bool_decide (k ∈ [FactKindProcessStart; FactKindProcessExit]) then
    match f_Process f with
    | None => Err (missingPayload "process")
    | Some p => Ok (Some (writeString (pf_StableID p) ++ writeString (pf_Operation p)))
    end
  else if bool_decide (k ∈ filesystemKinds) then
    match f_Filesystem f with
    | None => Err (missingPayload "filesystem")
    | Some p => Ok (Some (writeString (ff_Operation p) ++ writePath (ff_Path p)))
    end
  else if bool_decide (k ∈ [FactKindDNSQuery; FactKindNetworkConnection]) then
    match f_Network f with
    | None => Err (missingPayload "network")
    | Some p => Ok (Some (writeString (nf_Operation p) ++ writeString (nf_Protocol p) ++
        writeString (nf_QueryName p) ++ writeString (nf_DestinationHost p) ++
        writeI64 (nf_DestinationPort p)))
    end
  else if k == FactKindArtifactActivity then
    match f_Artifact f with
    | None => Err (missingPayload "artifact")
    | Some p => Ok (Some (writePath (af_Path p)))
    end
  else if bool_decide (k ∈ [FactKindScenarioStarted; FactKindScenarioCompleted]) then
    match f_Scenario f with
    | None => Err (missingPayload "scenario")
    | Some p => Ok (Some (writeString (sf_Status p)))
    end
  else if bool_decide (k ∈ [FactKindObserverWarning; FactKindUnsupportedObservation]) then
    match f_Warning f with
    | None => Err (missingPayload "warning")
    | Some p => if wf_Code p == ""%string then Ok None else Ok (Some (writeString (wf_Code p)))
    end
  else if k == FactKindResourceLimit then
    match f_Resource f with
    | None => Err (missingPayload "resource")
    | Some p => Ok (Some (writeString (rf_LimitKind p)))
    end
  else Err (errCode "unsupported-fact-kind" "anchor" "" k).

Definition typedAnchorDigest (f : Fact) : result CompareError Digest :=
  match anchorPayload f with
  | Err e => Err e
  | Ok None => Ok ""%string
  | Ok (Some b) => Ok ("sha256:" +:+ sha256_hex
      (to_bytes anchorDomain ++ writeString (f_Kind f) ++ writeString (f_Source f) ++ b))
  end.

Definition sequenceDigest (seq : list Digest) : Digest :=
  "sha256:" +:+ sha256_hex (to_bytes sequenceDomain ++ writeDigests seq).

Definition writeRepetition (r : RepetitionOccurrence) : bytes :=
  writeU64 (ro_Repetition r) ++ writeString (ro_Coverage r) ++
  writeBool (ro_CountKnown r) ++ writeI64 (ro_Count r).

Definition writeOccurrence (p : OccurrenceProfile) : bytes :=
  writeI64 (op_PlannedRepetitionCount p) ++ writeI64 (op_CompleteRepetitionCount p) ++
  writeI64 (op_IncompleteRepetitionCount p) ++ writeI64 (op_MinimumKnownCount p) ++
  writeI64 (op_MaximumKnownCount p) ++ writeI64 (op_TotalKnownCount p) ++
  writeString (op_Coverage p) ++ writeString (op_Repeatability p) ++
  writeU64 (Z.of_nat (length (op_Repetitions p))) ++ (op_Repetitions p ≫= writeRepetition).

(** The bytes hashed into a record's identity. *)
Definition recordPreimage (profile normProfile scenario : string) (rec : DeltaRecord) : bytes :=
  writeString profile ++ writeString normProfile ++ writeString scenario ++
  writeString (dr_Kind rec) ++ writeString (dr_FactKind rec) ++ writeString (dr_Source rec) ++
  writeDigest (dr_AnchorDigest rec) ++ writeStrings (dr_ChangedFields rec) ++
  writeDigests (dr_BaseSemanticDigests rec) ++ writeDigests (dr_HeadSemanticDigests rec) ++
  writeOccurrence (dr_BaseOccurrence rec) ++ writeOccurrence (dr_HeadOccurrence rec) ++
  writeString (dr_Basis rec).

Definition deltaRecordID (profile normProfile scenario : string) (rec : DeltaRecord) : string :=
  "delta-" +:+ sha256_hex (to_bytes recordIDDomain ++ recordPreimage profile normProfile scenario rec).

Definition sortDigests (l : list Digest) : list Digest := stable_sort str_lt l.

(** ** [snapshot.go] *)

(** The decimal loop of [itoa] and [itoa64]; [fuel] bounds the number of digits
    (10 for a [uint32], 20 for a [uint64]). *)
Fixpoint itoa_loop (fuel : nat) (v : Z) (b : string) : string :=
  match fuel with
  | O => b
  | S fuel => if 0 <? v then itoa_loop fuel (v / 10) (String (byte_of (48 + v mod 10)) b) else b
  end.
Definition itoa (v : Z) : string := if v == 0 then "0"%string else itoa_loop 10 v "".
Definition itoa64 (v : Z) : string := if v == 0 then "0"%string else itoa_loop 20 v "".

Definition lim_less : Limitation → Limitation → bool :=
  by_key lim_ID str_lt (by_key lim_Summary str_lt (by_last lim_Details str_lt)).
Definition sortLimitations (l : list Limitation) : list Limitation := stable_sort lim_less l.

Definition pathSnap (p : NormalizedPath) : DeltaNormalizedPath := {|
  dnp_Namespace := nzpath_Namespace p; dnp_RootIndex := nzpath_RootIndex p;
  dnp_Relative := nzpath_Relative p; dnp_Literal := nzpath_Literal p;
  dnp_Display := nzpath_Display p |}.

(** The identity of an evidence reference: a later reference with the same
    coordinates replaces an earlier one. *)
Definition evidenceKey (r : EvidenceRef) : string :=
  er_Revision r +:+ NUL +:+ er_ScenarioID r +:+ NUL +:+ itoa (er_Repetition r) +:+ NUL +:+
  itoa64 (er_EventSequence r) +:+ NUL +:+
  match er_EventIDs r with e :: _ => e | [] => ""%string end.

Definition dedupeEvidence (l : list EvidenceRef) : list EvidenceRef :=
  let seen : gmap string EvidenceRef := foldl (λ m r, <[evidenceKey r := r]> m) ∅ l in
  omap (λ k, seen !! k) (sorted_keys seen).

Definition evidenceRef (r : RawEvidenceReference) : EvidenceRef := {|
  er_Digest := rer_EventStreamDigest r;
  er_EventIDs := [rer_EventID r];
  er_BundlePath := Some (rer_EventStreamPath r);
  er_EventStreamDigest := rer_EventStreamDigest r;
  er_EventStreamPath := rer_EventStreamPath r;
  er_EventSequence := rer_EventSequence r;
  er_Revision := rer_Revision r;
  er_ScenarioID := rer_ScenarioID r;
  er_Repetition := rer_Repetition r |}.

Definition evidenceRefs (facts : list Fact) : list EvidenceRef :=
  dedupeEvidence (facts ≫= λ f, evidenceRef <$> f_Evidence f).

Definition snapshot (f : Fact) : DeltaFactSnapshot := {|
  dfs_ID := f_ID f;
  dfs_SemanticDigest := f_SemanticDigest f;
  dfs_Kind := f_Kind f;
  dfs_Source := f_Source f;
  dfs_Process := (λ p, {|
    dpf_Operation := pf_Operation p; dpf_StableID := pf_StableID p;
    dpf_ParentStableID := pf_ParentStableID p; dpf_ParentRelation := pf_ParentRelation p;
    dpf_Executable := pathSnap (pf_Executable p); dpf_Arguments := pf_Arguments p;
    dpf_Environment := pf_Environment p; dpf_ExitCode := pf_ExitCode p;
    dpf_DurationMillis := pf_DurationMillis p |}) <$> f_Process f;
  dfs_Filesystem := (λ p, {|
    dff_Operation := ff_Operation p; dff_Path := pathSnap (ff_Path p);
    dff_OldPath := pathSnap <$> ff_OldPath p; dff_Mode := ff_Mode p; dff_Digest := ff_Digest p;
    dff_SizeBytes := ff_SizeBytes p; dff_Executable := ff_Executable p;
    dff_Truncated := ff_Truncated p |}) <$> f_Filesystem f;
  dfs_Network := (λ p, {|
    dnf_Operation := nf_Operation p; dnf_Protocol := nf_Protocol p; dnf_QueryName := nf_QueryName p;
    dnf_DestinationHost := nf_DestinationHost p; dnf_DestinationPort := nf_DestinationPort p;
    dnf_ResolvedAddresses := nf_ResolvedAddresses p; dnf_Result := nf_Result p;
    dnf_DurationMillis := nf_DurationMillis p |}) <$> f_Network f;
  dfs_Artifact := (λ p, {|
    daf_Operation := af_Operation p; daf_ArtifactID := af_ArtifactID p;
    daf_Path := pathSnap (af_Path p); daf_Digest := af_Digest p; daf_SizeBytes := af_SizeBytes p;
    daf_Executable := af_Executable p; daf_SourceEventIDs := af_SourceEventIDs p |}) <$> f_Artifact f;
  dfs_Scenario := (λ p, {|
    dsf_Status := sf_Status p; dsf_Message := sf_Message p;
    dsf_DurationMillis := sf_DurationMillis p |}) <$> f_Scenario f;
  dfs_Warning := (λ p, {|
    dwf_Code := wf_Code p; dwf_Message := wf_Message p; dwf_Unsupported := wf_Unsupported p;
    dwf_Limitations := sortLimitations (wf_Limitations p) |}) <$> f_Warning f;
  dfs_Resource := (λ p, {|
    drf_LimitKind := rf_LimitKind p; drf_LimitValue := rf_LimitValue p; drf_Unit := rf_Unit p;
    drf_ObservedValue := rf_ObservedValue p; drf_Exceeded := rf_Exceeded p |}) <$> f_Resource f;
  dfs_Evidence := evidenceRefs [f];
  dfs_Limitations := sortLimitations (f_Limitations f) |}.

Definition snap_less : DeltaFactSnapshot → DeltaFactSnapshot → bool :=
  by_key dfs_SemanticDigest str_lt (by_last dfs_ID str_lt).
Definition snapshots (facts : list Fact) : list DeltaFactSnapshot :=
  stable_sort snap_less (snapshot <$> facts).

Definition firstScenario (ids : list string) : string :=
  match ids with id :: _ => id | [] => ""%string end.

Definition rank (k : DeltaKind) : Z :=
  if k == DeltaKindCoverageChanged then 0
  else if k == DeltaKindStabilityChanged then 1
  else if k == DeltaKindAdded then 2
  else if k == DeltaKindRemoved then 3
  else if k == DeltaKindModified then 4
  else if k == DeltaKindCountChanged then 5
  else if k == DeltaKindOrderChanged then 6
  else 9.

Definition record_less : DeltaRecord → DeltaRecord → bool :=
  by_key (λ r, firstScenario (dr_ScenarioIDs r)) str_lt
  (by_key (λ r, rank (dr_Kind r)) Z.ltb
  (by_key dr_FactKind str_lt
  (by_key dr_Source str_lt
  (by_key dr_AnchorDigest str_lt
  (by_last dr_ID str_lt))))).
Definition sortRecords (l : list DeltaRecord) : list DeltaRecord := stable_sort record_less l.

(** ** [match.go]: grouping attempts and folding facts into variants *)

Definition set_dr_ID (v : string) (r : DeltaRecord) : DeltaRecord :=
  mkDeltaRecord v (dr_Kind r) (dr_Summary r) (dr_BaseObserved r) (dr_HeadObserved r) (dr_Evidence r) (dr_ScenarioIDs r) (dr_Limitations r) (dr_FactKind r) (dr_Source r) (dr_AnchorDigest r) (dr_Basis r) (dr_ChangedFields r) (dr_BaseOccurrence r) (dr_HeadOccurrence r) (dr_BaseFacts r) (dr_HeadFacts r) (dr_BaseEvidence r) (dr_HeadEvidence r) (dr_BaseSemanticDigests r) (dr_HeadSemanticDigests r).
Definition set_dr_Basis (v : string) (r : DeltaRecord) : DeltaRecord :=
  mkDeltaRecord (dr_ID r) (dr_Kind r) (dr_Summary r) (dr_BaseObserved r) (dr_HeadObserved r) (dr_Evidence r) (dr_ScenarioIDs r) (dr_Limitations r) (dr_FactKind r) (dr_Source r) (dr_AnchorDigest r) v (dr_ChangedFields r) (dr_BaseOccurrence r) (dr_HeadOccurrence r) (dr_BaseFacts r) (dr_HeadFacts r) (dr_BaseEvidence r) (dr_HeadEvidence r) (dr_BaseSemanticDigests r) (dr_HeadSemanticDigests r).

Record scenarioGroup := mkScenarioGroup {
  sg_id : string;
  sg_base : list AttemptTrace;
  sg_head : list AttemptTrace
}.

Record variant := mkVariant {
  v_key : string;
  v_kind : FactKind;
  v_source : ObservationSource;
  v_semantic : Digest;
  v_factsByRep : gmap Z (list Fact);
  v_facts : list Fact;
  v_profile : OccurrenceProfile;
  v_anchor : Digest;
  v_consumed : bool;
  v_ambiguous : bool
}.

Abbreviation variants := (gmap string variant).

Record repetitionFacts := mkRepetitionFacts {
  rfx_repetition : Z;
  rfx_coverage : CoverageState;
  rfx_facts : Z
}.

Definition set_assessed (p : OccurrenceProfile) (a : Digest) (v : variant) : variant :=
  mkVariant (v_key v) (v_kind v) (v_source v) (v_semantic v) (v_factsByRep v) (v_facts v)
    p a (v_consumed v) (v_ambiguous v).
Definition set_consumed (v : variant) : variant :=
  mkVariant (v_key v) (v_kind v) (v_source v) (v_semantic v) (v_factsByRep v) (v_facts v)
    (v_profile v) (v_anchor v) true (v_ambiguous v).
Definition set_ambiguous (v : variant) : variant :=
  mkVariant (v_key v) (v_kind v) (v_source v) (v_semantic v) (v_factsByRep v) (v_facts v)
    (v_profile v) (v_anchor v) (v_consumed v) true.

(** [groups[i].base = append(...)] or [groups[i].head = append(...)] *)
Definition addAttempt (a : AttemptTrace) (g : scenarioGroup) : scenarioGroup :=
  if at_Revision a == RevisionKindBase
  then mkScenarioGroup (sg_id g) (sg_base g ++ [a]) (sg_head g)
  else mkScenarioGroup (sg_id g) (sg_base g) (sg_head g ++ [a]).

(** One iteration: [idx] maps a scenario to its position in [groups]. *)
Definition groupStep (s : gmap string nat * list scenarioGroup) (a : AttemptTrace) :
    gmap string nat * list scenarioGroup :=
  let '(idx, groups) := s in
  match idx !! at_ScenarioID a with
  | Some i => (idx, alter (addAttempt a) i groups)
  | None => (<[at_ScenarioID a := length groups]> idx,
             groups ++ [addAttempt a (mkScenarioGroup (at_ScenarioID a) [] [])])
  end.

Definition sortAttempts (l : list AttemptTrace) : list AttemptTrace :=
  stable_sort (by_last at_Repetition Z.ltb) l.

Definition groupScenarios (attempts : list AttemptTrace) : list scenarioGroup :=
  (λ g, mkScenarioGroup (sg_id g) (sortAttempts (sg_base g)) (sortAttempts (sg_head g)))
    <$> (foldl groupStep (∅, []) attempts).2.

Definition emptyOccurrence : OccurrenceProfile :=
  mkOccurrenceProfile 0 [] 0 0 0 0 0 CoverageAssessmentNone RepeatabilityNotAssessable.

(** The key under which a fact is matched across revisions. *)
Definition factKey (f : Fact) : string :=
  f_SemanticDigest f +:+ NUL +:+ f_Kind f +:+ NUL +:+ f_Source f.

Definition newVariant (key : string) (f : Fact) : variant :=
  mkVariant key (f_Kind f) (f_Source f) (f_SemanticDigest f) ∅ []
    (mkOccurrenceProfile 0 [] 0 0 0 0 0 "" "") "" false false.

Definition addFact (rep : Z) (f : Fact) (v : variant) : variant :=
  mkVariant (v_key v) (v_kind v) (v_source v) (v_semantic v)
    (<[rep := default [] (v_factsByRep v !! rep) ++ [f]]> (v_factsByRep v))
    (v_facts v ++ [f]) (v_profile v) (v_anchor v) (v_consumed v) (v_ambiguous v).

Definition variantStep (out : variants) (af : AttemptTrace * Fact) : variants :=
  let '(a, f) := af in
  let key := factKey f in
  let v := default (newVariant key f) (out !! key) in
  <[key := addFact (at_Repetition a) f v]> out.

(** The facts of the attempts, in loop order, with the attempt of each. *)
Definition attemptFacts (attempts : list AttemptTrace) : list (AttemptTrace * Fact) :=
  attempts ≫= λ a, pair a <$> at_Facts a.

Definition buildVariants (attempts : list AttemptTrace) : variants :=
  foldl variantStep ∅ (attemptFacts attempts).

(** State of the loop of [buildOccurrenceProfile]: the profile and [minSet]. *)
Definition occurrenceStep (s : OccurrenceProfile * bool) (r : repetitionFacts) :
    OccurrenceProfile * bool :=
  let '(out, minSet) := s in
  if rfx_coverage r == CoverageComplete then
    let count := rfx_facts r in
    let setMin := negb minSet || (count <? op_MinimumKnownCount out) in
    (mkOccurrenceProfile (op_PlannedRepetitionCount out)
       (op_Repetitions out ++
          [mkRepetitionOccurrence (rfx_repetition r) CoverageAssessmentComplete true count])
       (op_CompleteRepetitionCount out + 1) (op_IncompleteRepetitionCount out)
       (if setMin then count else op_MinimumKnownCount out)
       (if op_MaximumKnownCount out <? count then count else op_MaximumKnownCount out)
       (op_TotalKnownCount out + count) (op_Coverage out) (op_Repeatability out),
     minSet || setMin)
  else
    (mkOccurrenceProfile (op_PlannedRepetitionCount out)
       (op_Repetitions out ++
          [mkRepetitionOccurrence (rfx_repetition r) CoverageAssessmentPartial false 0])
       (op_CompleteRepetitionCount out) (op_IncompleteRepetitionCount out + 1)
       (op_MinimumKnownCount out) (op_MaximumKnownCount out) (op_TotalKnownCount out)
       (op_Coverage out) (op_Repeatability out),
     minSet).

Definition occurrenceCoverage (out : OccurrenceProfile) : CoverageAssessment :=
  if op_CompleteRepetitionCount out == op_PlannedRepetitionCount out then CoverageAssessmentComplete
  else if 0 <? op_CompleteRepetitionCount out then CoverageAssessmentPartial
  else CoverageAssessmentNone.

Definition occurrenceRepeatability (cov : CoverageAssessment) (out : OccurrenceProfile) :
    RepeatabilityAssessment :=
  if (cov != CoverageAssessmentComplete) || (op_CompleteRepetitionCount out == 0)
  then RepeatabilityNotAssessable
  else if op_CompleteRepetitionCount out == 1 then RepeatabilitySingleSample
  else if op_MinimumKnownCount out == op_MaximumKnownCount out then RepeatabilityStable
  else RepeatabilityVariable.

Definition buildOccurrenceProfile (planned : Z) (reps : list repetitionFacts) : OccurrenceProfile :=
  let out := (foldl occurrenceStep
    (mkOccurrenceProfile planned [] 0 0 0 0 0 "" "", false) reps).1 in
  let cov := occurrenceCoverage out in
  mkOccurrenceProfile (op_PlannedRepetitionCount out) (op_Repetitions out)
    (op_CompleteRepetitionCount out) (op_IncompleteRepetitionCount out)
    (op_MinimumKnownCount out) (op_MaximumKnownCount out) (op_TotalKnownCount out)
    cov (occurrenceRepeatability cov out).

Definition profileForVariant (attempts : list AttemptTrace) (v : variant) : OccurrenceProfile :=
  buildOccurrenceProfile (Z.of_nat (length attempts))
    ((λ a, mkRepetitionFacts (at_Repetition a) (at_Coverage a)
             (Z.of_nat (length (default [] (v_factsByRep v !! at_Repetition a))))) <$> attempts).

(** ** [match.go]: records *)

Definition summaryFor (kind : DeltaKind) (factKind : string) (scenarios : list string) : string :=
  kind +:+ " " +:+ factKind +:+ " comparison for scenario " +:+ firstScenario scenarios.

(** [v != nil && test(v)] *)
Definition present (test : variant → bool) (v : option variant) : bool :=
  match v with Some v => test v | None => false end.

Definition recordBasis (b h : option variant) : ComparisonBasis :=
  let either test := present test b || present test h in
  if either (λ v, op_Repeatability (v_profile v) == RepeatabilityVariable)
  then ComparisonBasisRepetitionVariable
  else if either (λ v, op_Coverage (v_profile v) != CoverageAssessmentComplete)
  then ComparisonBasisCoverageLimited
  else if either (λ v, op_Repeatability (v_profile v) == RepeatabilitySingleSample)
  then ComparisonBasisSingleSample
  else ComparisonBasisCompleteObservation.

(** The per-side fields: occurrence, facts, evidence and semantic digests. *)
Definition sideOccurrence (v : option variant) : OccurrenceProfile :=
  match v with Some v => v_profile v | None => emptyOccurrence end.
Definition sideFacts (v : option variant) : list DeltaFactSnapshot :=
  match v with Some v => snapshots (v_facts v) | None => [] end.
Definition sideEvidence (v : option variant) : list EvidenceRef :=
  match v with Some v => evidenceRefs (v_facts v) | None => [] end.
Definition sideDigests (v : option variant) : list Digest :=
  match v with Some v => [v_semantic v] | None => [] end.

(** [FactKind], [Source] and [AnchorDigest] are set from [b], then from [h]. *)
Definition latest {A} (f : variant → A) (zero : A) (b h : option variant) : A :=
  match h with
  | Some h => f h
  | None => match b with Some b => f b | None => zero end
  end.

Definition makeRecord (normProfile scenario : string) (kind : DeltaKind) (b h : option variant)
    (changed : list string) (lim : list Limitation) : DeltaRecord :=
  let factKind := latest v_kind ""%string b h in
  let rec := {|
    dr_ID := ""%string;
    dr_Kind := kind;
    dr_Summary := summaryFor kind factKind [scenario];
    dr_BaseObserved := present (λ _, true) b;
    dr_HeadObserved := present (λ _, true) h;
    dr_Evidence := dedupeEvidence (sideEvidence b ++ sideEvidence h);
    dr_ScenarioIDs := [scenario];
    dr_Limitations := sortLimitations lim;
    dr_FactKind := factKind;
    dr_Source := latest v_source ""%string b h;
    dr_AnchorDigest := latest v_anchor ""%string b h;
    dr_Basis := recordBasis b h;
    dr_ChangedFields := changed;
    dr_BaseOccurrence := sideOccurrence b;
    dr_HeadOccurrence := sideOccurrence h;
    dr_BaseFacts := sideFacts b;
    dr_HeadFacts := sideFacts h;
    dr_BaseEvidence := dedupeEvidence (sideEvidence b);
    dr_HeadEvidence := dedupeEvidence (sideEvidence h);
    dr_BaseSemanticDigests := sortDigests (sideDigests b);
    dr_HeadSemanticDigests := sortDigests (sideDigests h) |} in
  set_dr_ID (deltaRecordID ComparisonProfileVersionV1Alpha1 normProfile scenario rec) rec.

Definition basisForAbsence (otherComplete : bool) (p : OccurrenceProfile) : ComparisonBasis :=
  if negb otherComplete || (op_Coverage p != CoverageAssessmentComplete)
  then ComparisonBasisCoverageLimited
  else if op_Repeatability p == RepeatabilitySingleSample then ComparisonBasisSingleSample
  else if op_Repeatability p == RepeatabilityVariable then ComparisonBasisRepetitionVariable
  else ComparisonBasisCompleteObservation.

Definition attemptsComplete (l : list AttemptTrace) : bool :=
  match l with
  | [] => false
  | _ => forallb (λ a, at_Coverage a == CoverageComplete) l
  end.

Definition ambiguityLimit (v : variant) : list Limitation :=
  if v_ambiguous v then
    [mkLimitation "ambiguous-correlation"
       "Typed anchor matched multiple unmatched variants; no one-to-one modification was inferred." ""]
  else [].

Definition unionKeys {A B} (a : gmap string A) (b : gmap string B) : list string :=
  sort_strings (elements (dom a ∪ dom b)).
Definition unionAnchorKeys {A B} (a : gmap string A) (b : gmap string B) : list Digest :=
  unionKeys a b.

Definition sortedVariants (m : variants) : list variant := omap (λ k, m !! k) (sorted_keys m).

Definition occurrenceEqual (a b : OccurrenceProfile) : bool :=
  of_bytes (render (json_of_OccurrenceProfile a)) == of_bytes (render (json_of_OccurrenceProfile b)).

Definition intPtrEqual (a b : option Z) : bool := a == b.

(** [fields = append(fields, name)] when the values differ *)
Definition when_changed (differs : bool) (name : string) : list string :=
  if differs then [name] else [].

Definition joinNUL (l : list string) : string := String.concat NUL l.

Definition changedFields (a b : Fact) : list string :=
  let k := f_Kind a in
  let fields : option (list string) :=
    if bool_decide (k ∈ filesystemKinds) then
      match f_Filesystem a, f_Filesystem b with
      | Some x, Some y => Some (
          when_changed (ff_Digest x != ff_Digest y) "filesystem.digest" ++
          when_changed (ff_Mode x != ff_Mode y) "filesystem.mode" ++
          when_changed (ff_SizeBytes x != ff_SizeBytes y) "filesystem.sizeBytes" ++
          when_changed (ff_Executable x != ff_Executable y) "filesystem.executable" ++
          when_changed (ff_Truncated x != ff_Truncated y) "filesystem.truncated")
      | _, _ => None
      end
    else if k == FactKindArtifactActivity then
      match f_Artifact a, f_Artifact b with
      | Some x, Some y => Some (
          when_changed (af_Digest x != af_Digest y) "artifact.digest" ++
          when_changed (af_SizeBytes x != af_SizeBytes y) "artifact.sizeBytes" ++
          when_changed (af_Executable x != af_Executable y) "artifact.executable" ++
          when_changed (af_Operation x != af_Operation y) "artifact.operation")
      | _, _ => None
      end
    else if bool_decide (k ∈ [FactKindNetworkConnection; FactKindDNSQuery]) then
      match f_Network a, f_Network b with
      | Some x, Some y => Some (
          when_changed (nf_Result x != nf_Result y) "network.result" ++
          when_changed (nf_DurationMillis x != nf_DurationMillis y) "network.durationMillis" ++
          when_changed (joinNUL (nf_ResolvedAddresses x) != joinNUL (nf_ResolvedAddresses y))
            "network.resolvedAddresses")
      | _, _ => None
      end
    else if bool_decide (k ∈ [FactKindScenarioStarted; FactKindScenarioCompleted]) then
      match f_Scenario a, f_Scenario b with
      | Some x, Some y => Some (
          when_changed (sf_Status x != sf_Status y) "scenario.status" ++
          when_changed (sf_DurationMillis x != sf_DurationMillis y) "scenario.durationMillis" ++
          when_changed (sf_Message x != sf_Message y) "scenario.message")
      | _, _ => None
      end
    else if bool_decide (k ∈ [FactKindObserverWarning; FactKindUnsupportedObservation]) then
      match f_Warning a, f_Warning b with
      | Some x, Some y => Some (
          when_changed (wf_Message x != wf_Message y) "warning.message" ++
          when_changed (wf_Unsupported x != wf_Unsupported y) "warning.unsupported")
      | _, _ => None
      end
    else if k == FactKindResourceLimit then
      match f_Resource a, f_Resource b with
      | Some x, Some y => Some (
          when_changed (rf_LimitValue x != rf_LimitValue y) "resource.limitValue" ++
          when_changed (rf_ObservedValue x != rf_ObservedValue y) "resource.observedValue" ++
          when_changed (rf_Exceeded x != rf_Exceeded y) "resource.exceeded")
      | _, _ => None
      end
    else if bool_decide (k ∈ [FactKindProcessStart; FactKindProcessExit]) then
      match f_Process a, f_Process b with
      | Some x, Some y => Some (
          when_changed (negb (intPtrEqual (pf_ExitCode x) (pf_ExitCode y))) "process.exitCode" ++
          when_changed (pf_DurationMillis x != pf_DurationMillis y) "process.durationMillis")
      | _, _ => None
      end
    else Some [] in
  match fields with Some fields => sort_strings fields | None => [] end.

(** *** Order of stable sequences *)

Definition semanticSequence (a : AttemptTrace) : list Digest := f_SemanticDigest <$> at_Facts a.

(** [None] is the Go result [(nil, false)]. *)
Definition stableSequences (l : list AttemptTrace) : option (list Digest) :=
  if Z.of_nat (length l) <? 2 then None
  else match foldR (λ (first : option (list Digest)) a,
           if at_Coverage a != CoverageComplete then Err ()
           else match first with
                | None => Ok (Some (semanticSequence a))
                | Some first => if first == semanticSequence a then Ok (Some first) else Err ()
                end) None l with
       | Ok first => first
       | Err _ => None
       end.

Definition sameMultiset (a b : list Digest) : bool := sortDigests a == sortDigests b.

(** [None] is the zero record, which the caller drops. *)
Definition orderRecord (normProfile : string) (sg : scenarioGroup) : option DeltaRecord :=
  match stableSequences (sg_base sg), stableSequences (sg_head sg) with
  | Some baseSeqs, Some headSeqs =>
    if (Z.of_nat (length baseSeqs) == 0) || (Z.of_nat (length headSeqs) == 0) then None
    else if negb (sameMultiset baseSeqs headSeqs) || (baseSeqs == headSeqs) then None
    else
      let rec := {|
        dr_ID := ""%string;
        dr_Kind := DeltaKindOrderChanged;
        dr_Summary := "Complete repetitions contained the same semantic facts in a different stable order.";
        dr_BaseObserved := false; dr_HeadObserved := false;
        dr_Evidence := [];
        dr_ScenarioIDs := [sg_id sg];
        dr_Limitations := [];
        dr_FactKind := "sequence"; dr_Source := ""; dr_AnchorDigest := "";
        dr_Basis := ComparisonBasisCompleteObservation;
        dr_ChangedFields := ["sequence.order"%string];
        dr_BaseOccurrence := emptyOccurrence; dr_HeadOccurrence := emptyOccurrence;
        dr_BaseFacts := []; dr_HeadFacts := [];
        dr_BaseEvidence := []; dr_HeadEvidence := [];
        dr_BaseSemanticDigests := baseSeqs; dr_HeadSemanticDigests := headSeqs |} in
      Some (set_dr_ID (deltaRecordID ComparisonProfileVersionV1Alpha1 normProfile (sg_id sg) rec) rec)
  | _, _ => None
  end.

(** ** [compareScenario]

    The two variant maps are the shared store of the function: the exact pass,
    the anchor pass and the leftover pass communicate through the [consumed]
    and [ambiguous] marks. *)

Record cstate := mkCstate {
  cs_base : variants;
  cs_head : variants;
  cs_records : list DeltaRecord
}.

(** The two loops that set [v.profile] and [v.anchor].  Go visits a map in an
    unspecified order; this is the order of the keys, and another order could
    only return another variant's error. *)
Definition assess (attempts : list AttemptTrace) (m : variants) : result CompareError variants :=
  foldR (λ m k,
    match m !! k with
    | None => Ok m
    | Some v =>
      match v_facts v with
      | [] => Ok m (* no variant is without facts *)
      | f :: _ =>
        match typedAnchorDigest f with
        | Err e => Err e
        | Ok a => Ok (<[k := set_assessed (profileForVariant attempts v) a v]> m)
        end
      end
    end) m (sorted_keys m).

(** The variants of both sides with the same key. *)
Definition exactStep (normProfile scenario : string) (s : cstate) (k : string) : cstate :=
  match cs_base s !! k, cs_head s !! k with
  | Some b, Some h =>
    let records :=
      if occurrenceEqual (v_profile b) (v_profile h) then cs_records s
      else
        let kind := if op_Repeatability (v_profile b) != op_Repeatability (v_profile h)
                    then DeltaKindStabilityChanged else DeltaKindCountChanged in
        cs_records s ++ [makeRecord normProfile scenario kind (Some b) (Some h) [] []] in
    mkCstate (alter set_consumed k (cs_base s)) (alter set_consumed k (cs_head s)) records
  | _, _ => s
  end.

Definition exactPass (normProfile scenario : string) (s : cstate) : cstate :=
  foldl (exactStep normProfile scenario) s (unionKeys (cs_base s) (cs_head s)).

(** Unmatched variants by anchor; the values are keys of the variant map. *)
Definition anchorGroups (m : variants) : gmap Digest (list string) :=
  foldl (λ g k,
    match m !! k with
    | Some v => if negb (v_consumed v) && (v_anchor v != ""%string)
                then <[v_anchor v := default [] (g !! v_anchor v) ++ [k]]> g else g
    | None => g
    end) ∅ (sorted_keys m).

(** [len(bs) == 1 && len(hs) == 1 && same kind && same source] *)
Definition correlated (s : cstate) (bs hs : list string) : option (string * variant * (string * variant)) :=
  match bs, hs with
  | [kb], [kh] =>
    match cs_base s !! kb, cs_head s !! kh with
    | Some b, Some h =>
      if (v_kind b == v_kind h) && (v_source b == v_source h) then Some (kb, b, (kh, h)) else None
    | _, _ => None
    end
  | _, _ => None
  end.

Definition firstChanged (b h : variant) : list string :=
  match v_facts b, v_facts h with
  | fb :: _, fh :: _ => changedFields fb fh
  | _, _ => []
  end.

Definition mark (f : variant → variant) (ks : list string) (m : variants) : variants :=
  foldl (λ m k, alter f k m) m ks.

Definition anchorStep (normProfile scenario : string) (ab ah : gmap Digest (list string))
    (s : cstate) (a : Digest) : cstate :=
  let bs := default [] (ab !! a) in
  let hs := default [] (ah !! a) in
  match correlated s bs hs with
  | Some (kb, b, (kh, h)) =>
    let changed := firstChanged b h in
    if 0 <? Z.of_nat (length changed) then
      mkCstate (alter set_consumed kb (cs_base s)) (alter set_consumed kh (cs_head s))
        (cs_records s ++
          [makeRecord normProfile scenario DeltaKindModified (Some b) (Some h) changed []])
    else s
  | None =>
    if (0 <? Z.of_nat (length bs)) && (0 <? Z.of_nat (length hs)) then
      mkCstate (mark set_ambiguous bs (cs_base s)) (mark set_ambiguous hs (cs_head s)) (cs_records s)
    else s
  end.

Definition anchorPass (normProfile scenario : string) (s : cstate) : cstate :=
  let ab := anchorGroups (cs_base s) in
  let ah := anchorGroups (cs_head s) in
  foldl (anchorStep normProfile scenario ab ah) s (unionAnchorKeys ab ah).

(** A variant no pass consumed: observed in one revision only. *)
Definition absenceRecord (normProfile scenario : string) (onHead otherComplete : bool)
    (v : variant) : DeltaRecord :=
  let kind := if otherComplete then (if onHead then DeltaKindAdded else DeltaKindRemoved)
              else DeltaKindCoverageChanged in
  let b := if onHead then None else Some v in
  let h := if onHead then Some v else None in
  set_dr_Basis (basisForAbsence otherComplete (v_profile v))
    (makeRecord normProfile scenario kind b h [] (ambiguityLimit v)).

Definition leftovers (normProfile scenario : string) (onHead otherComplete : bool)
    (m : variants) : list DeltaRecord :=
  omap (λ v, if v_consumed v then None
             else Some (absenceRecord normProfile scenario onHead otherComplete v))
    (sortedVariants m).

Definition evidenceCount (records : list DeltaRecord) : Z :=
  foldl (λ refs r, refs + Z.of_nat (length (dr_BaseEvidence r) + length (dr_HeadEvidence r))) 0 records.

Definition compareScenario (normProfile : string) (sg : scenarioGroup) :
    result CompareError (list DeltaRecord * Z) :=
  base ← assess (sg_base sg) (buildVariants (sg_base sg));
  head ← assess (sg_head sg) (buildVariants (sg_head sg));
  let s := anchorPass normProfile (sg_id sg)
             (exactPass normProfile (sg_id sg) (mkCstate base head [])) in
  let baseComplete := attemptsComplete (sg_base sg) in
  let headComplete := attemptsComplete (sg_head sg) in
  let records := cs_records s ++
    leftovers normProfile (sg_id sg) false headComplete (cs_base s) ++
    leftovers normProfile (sg_id sg) true baseComplete (cs_head s) ++
    option_list (orderRecord normProfile sg) in
  mret (records, evidenceCount records).

(** ** Coverage and summary *)

Definition attemptCoverage (l : list AttemptTrace) : list AttemptCoverage :=
  (λ a, mkAttemptCoverage (at_AttemptID a) (at_Revision a) (at_Repetition a)
    (if at_Coverage a == CoverageComplete then CoverageAssessmentComplete
     else if at_Coverage a == CoverageNotStarted then CoverageAssessmentNone
     else CoverageAssessmentPartial)) <$> l.

Definition scenarioComparison (sg : scenarioGroup) : ScenarioComparison * list Limitation :=
  let complete := attemptsComplete (sg_base sg) && attemptsComplete (sg_head sg) in
  (mkScenarioComparison (sg_id sg) (attemptCoverage (sg_base sg)) (attemptCoverage (sg_head sg))
     (if complete then CoverageAssessmentComplete
      else if 0 <? Z.of_nat (length (sg_base sg) + length (sg_head sg)) then CoverageAssessmentPartial
      else CoverageAssessmentNone) [] [],
   if negb complete then
     [mkLimitation "scenario-coverage-limited"
        "At least one repetition has incomplete observation coverage." ""]
   else []).

Definition coverageRecord (normProfile : string) (sg : scenarioGroup) (lim : Limitation) : DeltaRecord :=
  let rec := {|
    dr_ID := ""%string;
    dr_Kind := DeltaKindCoverageChanged;
    dr_Summary := "Scenario coverage limitation is explicit comparison data.";
    dr_BaseObserved := false; dr_HeadObserved := false;
    dr_Evidence := [];
    dr_ScenarioIDs := [sg_id sg];
    dr_Limitations := [lim];
    dr_FactKind := ""; dr_Source := ""; dr_AnchorDigest := "";
    dr_Basis := ComparisonBasisCoverageLimited;
    dr_ChangedFields := [];
    dr_BaseOccurrence := emptyOccurrence; dr_HeadOccurrence := emptyOccurrence;
    dr_BaseFacts := []; dr_HeadFacts := [];
    dr_BaseEvidence := []; dr_HeadEvidence := [];
    dr_BaseSemanticDigests := []; dr_HeadSemanticDigests := [] |} in
  set_dr_ID (deltaRecordID ComparisonProfileVersionV1Alpha1 normProfile (sg_id sg) rec) rec.

Definition scenarioIDs (groups : list scenarioGroup) : list string := sg_id <$> groups.

Definition summarizeStep (s : DeltaSummary) (r : DeltaRecord) : DeltaSummary :=
  let '(mkDeltaSummary total added removed modified count order stability coverage) := s in
  let k := dr_Kind r in
  if k == DeltaKindAdded then mkDeltaSummary total (added + 1) removed modified count order stability coverage
  else if k == DeltaKindRemoved then mkDeltaSummary total added (removed + 1) modified count order stability coverage
  else if k == DeltaKindModified then mkDeltaSummary total added removed (modified + 1) count order stability coverage
  else if k == DeltaKindCountChanged then mkDeltaSummary total added removed modified (count + 1) order stability coverage
  else if k == DeltaKindOrderChanged then mkDeltaSummary total added removed modified count (order + 1) stability coverage
  else if k == DeltaKindStabilityChanged then mkDeltaSummary total added removed modified count order (stability + 1) coverage
  else if k == DeltaKindCoverageChanged then mkDeltaSummary total added removed modified count order stability (coverage + 1)
  else s.

Definition summarize (records : list DeltaRecord) : DeltaSummary :=
  foldl summarizeStep (mkDeltaSummary (Z.of_nat (length records)) 0 0 0 0 0 0 0) records.

(** ** [comparator.go] *)

Definition validDigest (d : Digest) : bool :=
  negb ((str_len d != 71) || negb (has_prefix "sha256:" d))
  && str_forallb is_lower_hex_digit (str_drop 7 d).

Definition countPresent (l : list bool) : Z := foldl (λ n (b : bool), if b then n + 1 else n) 0 l.
Definition isSome {A} (o : option A) : bool := match o with Some _ => true | None => false end.

Definition validateFactPayload (f : Fact) : result CompareError unit :=
  let n := countPresent [isSome (f_Process f); isSome (f_Filesystem f); isSome (f_Network f);
    isSome (f_Artifact f); isSome (f_Scenario f); isSome (f_Warning f); isSome (f_Resource f)] in
  reject_if (n != 1) (errCode "invalid-fact-payload" "facts" "" (f_Kind f)).

Definition badReference (a : AttemptTrace) (ref : RawEvidenceReference) : bool :=
  (rer_Revision ref != at_Revision a) || (rer_ScenarioID ref != at_ScenarioID a)
  || (rer_Repetition ref != at_Repetition a) || (rer_EventID ref == ""%string)
  || (rer_EventSequence ref == 0) || negb (validDigest (rer_EventStreamDigest ref))
  || (rer_EventStreamPath ref == ""%string).

Definition validateFact (a : AttemptTrace) (seen : gset FactID) (f : Fact) :
    result CompareError (gset FactID) :=
  let sc := at_ScenarioID a in
  reject_if (f_ID f == ""%string) (errCode "invalid-trace-set" "facts" sc "id") ;;
  reject_if (bool_decide (f_ID f ∈ seen)) (errCode "duplicate-fact-id" "facts" sc (f_ID f)) ;;
  let seen := {[ f_ID f ]} ∪ seen in
  reject_if (negb (validDigest (f_SemanticDigest f)))
    (errCode "invalid-semantic-digest" "facts" sc (f_SemanticDigest f)) ;;
  reject_if (negb (isSupportedFactKind (f_Kind f)))
    (errCode "unsupported-fact-kind" "facts" sc (f_Kind f)) ;;
  reject_if (negb (isSupportedSource (f_Source f)))
    (errCode "invalid-observation-source" "facts" sc (f_Source f)) ;;
  validateFactPayload f ;;
  foldR (λ _ ref, reject_if (badReference a ref)
    (errCode "evidence-reference-invalid" "facts" sc "evidence")) () (f_Evidence f) ;;
  mret seen.

(** The loop state of [validateTraceDocument]; [vt_next] is [i+1] of the next attempt. *)
Record vtState := mkVtState {
  vt_seenAttempts : gset string;
  vt_seenCoordinates : gset string;
  vt_seenFacts : gset FactID;
  vt_facts : Z;
  vt_sawHead : bool;
  vt_next : Z
}.

Definition coordinate (a : AttemptTrace) : string :=
  at_Revision a +:+ NUL +:+ at_ScenarioID a +:+ NUL +:+ itoa (at_Repetition a).

Definition validateAttempt (limits : Limits) (s : vtState) (a : AttemptTrace) :
    result CompareError vtState :=
  let sc := at_ScenarioID a in
  reject_if ((at_AttemptID a == ""%string) || (sc == ""%string) || (at_Repetition a == 0))
    (errCode "invalid-attempt-inventory" "attempts" sc "identity") ;;
  reject_if (bool_decide (at_AttemptID a ∈ vt_seenAttempts s))
    (errCode "duplicate-attempt" "attempts" sc (at_AttemptID a)) ;;
  reject_if (bool_decide (coordinate a ∈ vt_seenCoordinates s))
    (errCode "duplicate-attempt" "attempts" sc "coordinate") ;;
  sawHead ← (if at_Revision a == RevisionKindHead then Ok true
             else if (at_Revision a == RevisionKindBase) && vt_sawHead s then
               Err (errCode "invalid-attempt-inventory" "attempts" sc "order")
             else if at_Revision a != RevisionKindBase then
               Err (errCode "invalid-attempt-inventory" "attempts" sc "revision")
             else Ok (vt_sawHead s));
  let n := Z.of_nat (length (at_Facts a)) in
  reject_if (l_MaxFactsPerAttempt limits <? n) (errCode "comparison-limit" "facts" sc "count") ;;
  let facts := vt_facts s + n in
  reject_if (l_MaxFactsTotal limits <? facts) (errCode "comparison-limit" "facts" "" "count") ;;
  reject_if (vt_next s != at_Ordinal a) (errCode "invalid-attempt-inventory" "attempts" sc "ordinal") ;;
  seen ← foldR (validateFact a) (vt_seenFacts s) (at_Facts a);
  mret (mkVtState ({[ at_AttemptID a ]} ∪ vt_seenAttempts s)
          ({[ coordinate a ]} ∪ vt_seenCoordinates s) seen facts sawHead (vt_next s + 1)).

Definition validateTraceDocument (doc : TraceSetDocument) (limits : Limits) :
    result CompareError unit :=
  reject_if ((tsd_SchemaVersion doc != TraceSetSchemaV1Alpha1)
             || (nzp_Version (tsd_Profile doc) != ProfileVersionV1Alpha1))
    (errCode "unsupported-normalization-profile" "input" "" "profile") ;;
  reject_if (negb (validDigest (tsd_PlanDigest doc)) || negb (validDigest (tsd_ManifestDigest doc)))
    (errCode "invalid-trace-set" "input" "" "digest") ;;
  reject_if (tsd_RunID doc == ""%string) (errCode "invalid-trace-set" "input" "" "runId") ;;
  let n := Z.of_nat (length (tsd_Attempts doc)) in
  reject_if ((n == 0) || (l_MaxAttempts limits <? n))
    (errCode "invalid-attempt-inventory" "attempts" "" "count") ;;
  foldR (validateAttempt limits) (mkVtState ∅ ∅ ∅ 0 false 1) (tsd_Attempts doc) ;;
  mret ().

(** A delta frozen with its bytes and digest.  [cloneDelta], a JSON round trip
    that copies the document, is the identity on values. *)
Record FrozenDelta := mkFrozenDelta {
  fz_doc : BehavioralDelta;
  fz_json : bytes;
  fz_digest : Digest
}.

(** State of the loop over the groups. *)
Record cdState := mkCdState {
  cd_records : list DeltaRecord;
  cd_scenarios : list ScenarioComparison;
  cd_totalRefs : Z;
  cd_poll : nat
}.

Definition compareGroup (ctx : Context) (limits : Limits) (normProfile : string)
    (s : cdState) (sg : scenarioGroup) : result CompareError cdState :=
  poll ctx (cd_poll s) ;;
  let '(sc, lims) := scenarioComparison sg in
  '(recs, refs) ← compareScenario normProfile sg;
  let records := cd_records s ++ (coverageRecord normProfile sg <$> lims) ++ recs in
  let totalRefs := cd_totalRefs s + refs in
  reject_if (l_MaxEvidenceRefsTotal limits <? totalRefs)
    (errCode "evidence-reference-limit" "records" (sg_id sg) "evidence") ;;
  reject_if (l_MaxDeltaRecords limits <? Z.of_nat (length records))
    (errCode "delta-limit" "records" (sg_id sg) "count") ;;
  mret (mkCdState records (cd_scenarios s ++ [sc]) totalRefs (S (cd_poll s))).

(** [if records[i].ID == "" { records[i].ID = ... }] *)
Definition ensureID (profile normProfile : string) (r : DeltaRecord) : DeltaRecord :=
  if dr_ID r == ""%string
  then set_dr_ID (deltaRecordID profile normProfile (firstScenario (dr_ScenarioIDs r)) r) r
  else r.

Definition zeroCommitRef : CommitRef := mkCommitRef "" "" "" "" "" "" "".

Definition makeDelta (doc : TraceSetDocument) (groups : list scenarioGroup)
    (scenarios : list ScenarioComparison) (records : list DeltaRecord) : BehavioralDelta := {|
  bd_SchemaVersion := SchemaVersionBehavioralDeltaV1Alpha1;
  bd_ID := "delta-" +:+ of_bytes (take 16 (drop 7 (to_bytes (tsd_PlanDigest doc))));
  bd_RunID := tsd_RunID doc;
  bd_Base := zeroCommitRef; bd_Head := zeroCommitRef;
  bd_PlanDigest := tsd_PlanDigest doc;
  bd_ManifestDigest := tsd_ManifestDigest doc;
  bd_ManifestVerificationMode := mv_Mode (tsd_ManifestVerification doc);
  bd_ExecutionComplete := tsd_ExecutionComplete doc;
  bd_EvidenceComplete := tsd_EvidenceComplete doc;
  bd_EvidenceContext := tsd_EvidenceContext doc;
  bd_ComparisonProfile := comparisonProfile;
  bd_NormalizationProfileVersion := nzp_Version (tsd_Profile doc);
  bd_ScenarioIDs := scenarioIDs groups;
  bd_ScenarioComparisons := scenarios;
  bd_Summary := summarize records;
  bd_Records := records;
  bd_Limitations := sortLimitations (tsd_Limitations doc) |}.

Definition compareDocument (limits : Limits) (ctx : Context) (doc : TraceSetDocument) :
    result CompareError FrozenDelta :=
  poll ctx 0 ;;
  validateTraceDocument doc limits ;;
  let norm := nzp_Version (tsd_Profile doc) in
  let groups := groupScenarios (tsd_Attempts doc) in
  s ← foldR (compareGroup ctx limits norm) (mkCdState [] [] 0 1) groups;
  let records := ensureID (cp_Version comparisonProfile) norm <$> sortRecords (cd_records s) in
  let delta := makeDelta doc groups (cd_scenarios s) records in
  let data := render (json_of_BehavioralDelta delta) in
  reject_if (l_MaxDeltaJSONBytes limits <? Z.of_nat (length data))
    (errCode "delta-too-large" "freeze" "" "json") ;;
  mret (mkFrozenDelta delta data (digestBytes deltaJSONDomain data)).

(** [New] followed by [Compare]; a nil trace set is [None]. *)
Definition Compare (limits : Limits) (ctx : Context) (traces : option TraceSetDocument) :
    result CompareError FrozenDelta :=
  l ← validateLimits limits;
  poll ctx 0 ;;
  match traces with
  | None => Err (errCode "nil-trace-set" "input" "" "traceSet")
  | Some doc => compareDocument l (λ n, ctx (S n)) doc
  end.
