(* ===== verification/CompareSpec.v ===== *)
(** * What the comparator guarantees ([internal/compare])

    The comparison of one scenario is specified without its mutable variants:
    [factsWith k attempts] are the facts of a revision that match under key [k],
    and [occurrences attempts k] counts them per repetition.  The passes of
    [compareScenario] are shown to keep an invariant ([pass_inv]) from which the
    properties of its records follow; [compareDocument] lifts them to the delta. *)

From stdpp Require Import prelude gmap strings sorting.
From Stdlib Require Import ZArith Lia.
From S2P Require Import Prelude GoStd Sha256 Framing Model Json Observe Compare.
Local Open Scope Z_scope.

(** ** Specification vocabulary *)

(** The facts a revision observed under one matching key, in trace order. *)
Definition factsWith (k : string) (attempts : list AttemptTrace) : list Fact :=
  filter (λ f, factKey f = k) (attempts ≫= at_Facts).

(** How often the key occurs in each repetition. *)
Definition occurrences (attempts : list AttemptTrace) (k : string) : OccurrenceProfile :=
  buildOccurrenceProfile (Z.of_nat (length attempts))
    ((λ a, mkRepetitionFacts (at_Repetition a) (at_Coverage a)
             (Z.of_nat (length (factsWith k
                (filter (λ a', at_Repetition a' = at_Repetition a) attempts))))) <$> attempts).

Inductive side := OnBase | OnHead.

Definition group_side (sd : side) (sg : scenarioGroup) : list AttemptTrace :=
  match sd with OnBase => sg_base sg | OnHead => sg_head sg end.
Definition store (sd : side) (s : cstate) : variants :=
  match sd with OnBase => cs_base s | OnHead => cs_head s end.
Definition dr_Observed (sd : side) (r : DeltaRecord) : bool :=
  match sd with OnBase => dr_BaseObserved r | OnHead => dr_HeadObserved r end.
Definition dr_Facts (sd : side) (r : DeltaRecord) : list DeltaFactSnapshot :=
  match sd with OnBase => dr_BaseFacts r | OnHead => dr_HeadFacts r end.
Definition dr_Digests (sd : side) (r : DeltaRecord) : list Digest :=
  match sd with OnBase => dr_BaseSemanticDigests r | OnHead => dr_HeadSemanticDigests r end.
Definition dr_Occurrence (sd : side) (r : DeltaRecord) : OccurrenceProfile :=
  match sd with OnBase => dr_BaseOccurrence r | OnHead => dr_HeadOccurrence r end.
Definition dr_SideEvidence (sd : side) (r : DeltaRecord) : list EvidenceRef :=
  match sd with OnBase => dr_BaseEvidence r | OnHead => dr_HeadEvidence r end.

(** The matching key a record reports for a side. *)
Definition recordKey (sd : side) (r : DeltaRecord) : string :=
  match dr_Digests sd r with d :: _ => d | [] => ""%string end
  +:+ NUL +:+ dr_FactKind r +:+ NUL +:+ dr_Source r.

(** Record [r] reports all of the facts of [v] on side [sd], and nothing else there. *)
Record reports (sd : side) (r : DeltaRecord) (v : variant) : Prop := {
  rep_observed : dr_Observed sd r = true;
  rep_kind : dr_FactKind r = v_kind v;
  rep_source : dr_Source r = v_source v;
  rep_facts : dr_Facts sd r = snapshots (v_facts v);
  rep_digests : dr_Digests sd r = [v_semantic v];
  rep_occurrence : dr_Occurrence sd r = v_profile v;
  rep_evidence : dr_SideEvidence sd r = dedupeEvidence (evidenceRefs (v_facts v));
}.

(** [v] is the assessed variant of key [k] of a revision. *)
Record is_variant (attempts : list AttemptTrace) (k : string) (v : variant) : Prop := {
  iv_facts : v_facts v = factsWith k attempts;
  iv_first : ∃ f rest, v_facts v = f :: rest ∧ v_kind v = f_Kind f ∧ v_source v = f_Source f
               ∧ v_semantic v = f_SemanticDigest f ∧ typedAnchorDigest f = Ok (v_anchor v);
  iv_profile : v_profile v = occurrences attempts k;
}.

(** Digest and kind of a validated fact hold no NUL, so keys are unambiguous. *)
Definition nul_free (s : string) : Prop := byte_of 0 ∉ to_bytes s.
Definition keyed (attempts : list AttemptTrace) : Prop :=
  ∀ f, f ∈ attempts ≫= at_Facts → nul_free (f_SemanticDigest f) ∧ nul_free (f_Kind f).

(** ** Strings joined with NUL *)

Lemma of_to_bytes s : of_bytes (to_bytes s) = s.
Proof. apply String.string_of_list_ascii_of_string. Qed.

Lemma nul_split b1 b2 t1 t2 :
  byte_of 0 ∉ b1 → byte_of 0 ∉ b2 →
  b1 ++ byte_of 0 :: t1 = b2 ++ byte_of 0 :: t2 → b1 = b2 ∧ t1 = t2.
Proof.
  revert b2. induction b1 as [|c b1 IH]; intros [|d b2] H1 H2; cbn; intros [= E].
  - done.
  - subst. set_solver.
  - subst. set_solver.
  - subst. destruct (IH b2) as [-> ->]; [set_solver|set_solver|done..].
Qed.

Lemma NUL_app_inj s1 s2 t1 t2 :
  nul_free s1 → nul_free s2 → s1 +:+ NUL +:+ t1 = s2 +:+ NUL +:+ t2 → s1 = s2 ∧ t1 = t2.
Proof.
  intros H1 H2 E. apply (f_equal to_bytes) in E. rewrite !to_bytes_app in E.
  destruct (nul_split (to_bytes s1) (to_bytes s2) (to_bytes t1) (to_bytes t2)) as [E1 E2]; try done.
  split; by apply to_bytes_inj.
Qed.

Lemma factKey_inj f g :
  nul_free (f_SemanticDigest f) → nul_free (f_Kind f) →
  nul_free (f_SemanticDigest g) → nul_free (f_Kind g) →
  factKey f = factKey g →
  f_SemanticDigest f = f_SemanticDigest g ∧ f_Kind f = f_Kind g ∧ f_Source f = f_Source g.
Proof.
  intros ???? E. apply NUL_app_inj in E as [-> E]; [|done..].
  apply NUL_app_inj in E as [-> E]; [|done..]. done.
Qed.

Lemma NoDup_unionKeys {A B} (a : gmap string A) (b : gmap string B) : NoDup (unionKeys a b).
Proof. unfold unionKeys. rewrite sort_strings_Permutation. apply NoDup_elements. Qed.

Lemma elem_of_unionKeys {A B} (a : gmap string A) (b : gmap string B) k :
  k ∈ unionKeys a b ↔ is_Some (a !! k) ∨ is_Some (b !! k).
Proof.
  unfold unionKeys. rewrite sort_strings_Permutation, elem_of_elements, elem_of_union.
  by rewrite !elem_of_dom.
Qed.

(** ** Variants *)

Lemma elem_of_factsWith k attempts f :
  f ∈ factsWith k attempts ↔ factKey f = k ∧ ∃ a, a ∈ attempts ∧ f ∈ at_Facts a.
Proof.
  unfold factsWith. rewrite list_elem_of_filter, list_elem_of_bind. naive_solver.
Qed.

Section build.
(** The variant of key [k] after the facts [l], from [o]. *)
Let stepk k (o : option variant) (af : AttemptTrace * Fact) : option variant :=
Some (addFact (at_Repetition af.1) af.2 (default (newVariant k af.2) o)).

Local Lemma fold_lookup l m k :
foldl variantStep m l !! k = foldl (stepk k) (m !! k) (filter (λ af, factKey af.2 = k) l).
Proof.
revert m. induction l as [|[a f] l IH]; intros m; [done|]. cbn [foldl]. rewrite IH.
rewrite filter_cons. cbn [variantStep snd]. case_decide as Hk.
- subst k. by rewrite lookup_insert_eq.
- by rewrite lookup_insert_ne.
Qed.

(** What the fold accumulates. *)
Local Lemma fold_variant k l :
match foldl (stepk k) None l with
| None => l = []
| Some v => v_facts v = l.*2
  ∧ (∀ n, default [] (v_factsByRep v !! n) = (filter (λ af, at_Repetition af.1 = n) l).*2)
  ∧ (∃ af rest, l = af :: rest ∧ v_kind v = f_Kind af.2 ∧ v_source v = f_Source af.2
       ∧ v_semantic v = f_SemanticDigest af.2)
  ∧ v_consumed v = false
end.
Proof.
induction l as [|af l IH] using rev_ind; [done|].
rewrite foldl_app. cbn [foldl]. unfold stepk at 1.
destruct (foldl (stepk k) None l) as [v|]; cbn -[filter].
- destruct IH as (Hf & Hr & (af0 & rest & Hl & ?) & Hc). split_and!; try done.
+ by rewrite Hf, fmap_app.
+ intros n. rewrite filter_app, fmap_app.
  destruct (decide (at_Repetition af.1 = n)) as [<-|Hn].
  * rewrite lookup_insert_eq, filter_cons_True by done. cbn. by rewrite Hr.
  * rewrite lookup_insert_ne, filter_cons_False by done. cbn. by rewrite Hr, app_nil_r.
+ exists af0, (rest ++ [af]). by rewrite Hl.
- subst l. cbn -[filter]. split_and!; try done.
+ intros n. destruct (decide (at_Repetition af.1 = n)) as [<-|Hn].
  * by rewrite lookup_insert_eq, filter_cons_True.
  * by rewrite lookup_insert_ne, filter_cons_False.
+ by exists af, [].
Qed.

Local Lemma attemptFacts_snd attempts : (attemptFacts attempts).*2 = attempts ≫= at_Facts.
Proof.
unfold attemptFacts. induction attempts as [|a l IH]; [done|].
cbn. rewrite fmap_app. f_equal; [|done]. rewrite <- list_fmap_compose. cbn.
by rewrite list_fmap_id.
Qed.

Local Lemma filter_fmap_snd {A B} (P : B → Prop) `{∀ x, Decision (P x)} (l : list (A * B)) :
(filter (λ af, P af.2) l).*2 = filter P l.*2.
Proof.
induction l as [|[x y] l IH]; [done|]. cbn -[filter]. rewrite !filter_cons. cbn -[filter].
by case_decide; cbn -[filter]; rewrite ?IH.
Qed.

Local Lemma filter_rep attempts n :
filter (λ af, at_Repetition af.1 = n) (attemptFacts attempts)
= attemptFacts (filter (λ a, at_Repetition a = n) attempts).
Proof.
unfold attemptFacts. induction attempts as [|a l IH]; [done|].
cbn -[filter]. rewrite filter_app, IH, filter_cons. case_decide as Hn; cbn -[filter].
- f_equal. induction (at_Facts a) as [|f fs IHf]; [done|]. cbn -[filter].
rewrite filter_cons_True by done. by rewrite IHf.
- replace (filter _ _) with (@nil (AttemptTrace * Fact)); [done|].
induction (at_Facts a) as [|f fs IHf]; [done|]. cbn -[filter]. by rewrite filter_cons_False.
Qed.

(** [buildVariants] computes, for every key, exactly the facts with that key. *)
Lemma buildVariants_spec attempts k :
match buildVariants attempts !! k with
| None => factsWith k attempts = []
| Some v => v_facts v = factsWith k attempts
  ∧ (∀ n, default [] (v_factsByRep v !! n)
          = factsWith k (filter (λ a, at_Repetition a = n) attempts))
  ∧ (∃ f rest, v_facts v = f :: rest ∧ v_kind v = f_Kind f ∧ v_source v = f_Source f
       ∧ v_semantic v = f_SemanticDigest f)
  ∧ v_consumed v = false
end.
Proof.
unfold buildVariants. rewrite fold_lookup, lookup_empty.
pose proof (fold_variant k (filter (λ af, factKey af.2 = k) (attemptFacts attempts))) as H.
assert (∀ l, (filter (λ af, factKey af.2 = k) (attemptFacts l)).*2 = factsWith k l) as Hfw.
{ intros l. unfold factsWith. rewrite <- attemptFacts_snd. exact (filter_fmap_snd (λ f, factKey f = k) (attemptFacts l)). }
destruct (foldl _ _ _) as [v|].
- destruct H as (Hf & Hr & (af & rest & Hl & Hk & Hs & Hd) & Hc). split_and!; [..|done].
+ by rewrite Hf, Hfw.
+ intros n. rewrite Hr, <- Hfw, <- filter_rep, !list_filter_filter.
  f_equal. apply list_filter_iff. intros ?. tauto.
+ exists af.2, rest.*2. rewrite Hf, Hl. done.
- by rewrite <- Hfw, H.
Qed.
End build.

Section assess.
Context (attempts : list AttemptTrace).

Local Definition assessStep (m : variants) (k : string) : result CompareError variants :=
match m !! k with
| None => Ok m
| Some v =>
match v_facts v with
| [] => Ok m
| f :: _ =>
  match typedAnchorDigest f with
  | Err e => Err e
  | Ok a => Ok (<[k := set_assessed (profileForVariant attempts v) a v]> m)
  end
end
end.

(** What the step leaves at its own key. *)
Local Definition assessed (o o' : option variant) : Prop :=
match o with
| None => o' = None
| Some v =>
match v_facts v with
| [] => o' = Some v
| f :: _ => ∃ a, typedAnchorDigest f = Ok a
                 ∧ o' = Some (set_assessed (profileForVariant attempts v) a v)
end
end.

Local Lemma assessStep_spec m k m' :
assessStep m k = Ok m' →
assessed (m !! k) (m' !! k) ∧ ∀ k', k' ≠ k → m' !! k' = m !! k'.
Proof.
unfold assessStep, assessed. destruct (m !! k) as [v|] eqn:Hk; [|by intros [= <-]].
destruct (v_facts v) as [|f fs]; [by intros [= <-]|].
destruct (typedAnchorDigest f) as [a|e]; intros [= <-]. split.
- exists a. by rewrite lookup_insert_eq.
- intros k' Hne. by rewrite lookup_insert_ne.
Qed.

Local Lemma assess_fold l m m' :
NoDup l → foldR assessStep m l = Ok m' →
∀ k, (k ∉ l → m' !! k = m !! k) ∧ (k ∈ l → assessed (m !! k) (m' !! k)).
Proof.
intros Hnd. revert m. induction Hnd as [|x l Hx Hnd IH]; cbn; intros m Hf k.
{ injection Hf as <-. split; [done|]. by intros ?%not_elem_of_nil. }
destruct (assessStep m x) as [m1|] eqn:Hm1; [|done].
apply assessStep_spec in Hm1 as [Hxk Hother]. destruct (IH _ Hf k) as [Hout Hin].
split; rewrite ?elem_of_cons.
- intros Hk. rewrite Hout by tauto. apply Hother. tauto.
- intros Hk. destruct (decide (k = x)) as [->|Hne]; [by rewrite Hout by done|].
rewrite <- Hother by done. apply Hin. naive_solver.
Qed.

Lemma profileForVariant_occurrences v k :
(∀ n, default [] (v_factsByRep v !! n)
    = factsWith k (filter (λ a, at_Repetition a = n) attempts)) →
profileForVariant attempts v = occurrences attempts k.
Proof.
intros Hr. unfold profileForVariant, occurrences. f_equal.
apply list_fmap_ext. intros i a _. by rewrite Hr.
Qed.

Lemma assess_spec m :
assess attempts (buildVariants attempts) = Ok m →
∀ k, match m !! k with
   | None => factsWith k attempts = []
   | Some v => is_variant attempts k v ∧ v_consumed v = false
   end.
Proof.
intros Hm k. change (foldR assessStep (buildVariants attempts)
(sorted_keys (buildVariants attempts)) = Ok m) in Hm.
destruct (assess_fold _ _ _ (NoDup_sorted_keys _) Hm k) as [Hout Hin].
pose proof (buildVariants_spec attempts k) as Hb.
rewrite elem_of_sorted_keys in Hout, Hin.
destruct (buildVariants attempts !! k) as [v|].
- specialize (Hin ltac:(by eexists)). clear Hout. cbn in Hin.
destruct Hb as (Hf & Hr & (f & rest & Hcons & ? & ? & ?) & Hc). rewrite Hcons in Hin.
destruct Hin as (a & Ha & ->). split; [|done].
split; cbn; [done| |by apply profileForVariant_occurrences].
exists f, rest. done.
- rewrite Hout; [done|]. by intros [? ?].
Qed.
End assess.

(** ** Records made from variants *)

Lemma makeRecord_reports norm scenario kind b h changed lim sd v :
  match sd with OnBase => b | OnHead => h end = Some v →
  (∀ b' h', b = Some b' → h = Some h' → v_kind b' = v_kind h' ∧ v_source b' = v_source h') →
  reports sd (makeRecord norm scenario kind b h changed lim) v.
Proof.
  intros Hv Hsame. destruct sd, b as [b|], h as [h|]; simplify_eq;
    try (edestruct Hsame as [H1 H2]; [done..|]); split; cbn; congruence.
Qed.

Lemma reports_set_Basis sd r v basis :
  reports sd r v → reports sd (set_dr_Basis basis r) v.
Proof. intros []. destruct sd; split; done. Qed.

Lemma reports_key sd r v :
  reports sd r v → recordKey sd r = v_semantic v +:+ NUL +:+ v_kind v +:+ NUL +:+ v_source v.
Proof. intros []. unfold recordKey. by rewrite rep_digests0, rep_kind0, rep_source0. Qed.

Lemma variant_key attempts k v :
  is_variant attempts k v → v_semantic v +:+ NUL +:+ v_kind v +:+ NUL +:+ v_source v = k.
Proof.
  intros [Hf (f & rest & Hcons & -> & -> & -> & _) _].
  assert (f ∈ factsWith k attempts) as Hin by (rewrite <- Hf, Hcons; apply elem_of_cons; auto).
  by apply elem_of_factsWith in Hin as [Hk _].
Qed.

Lemma variant_fact attempts k v :
  is_variant attempts k v →
  ∃ f, f ∈ attempts ≫= at_Facts ∧ factKey f = k ∧ v_kind v = f_Kind f ∧ v_source v = f_Source f
       ∧ v_semantic v = f_SemanticDigest f.
Proof.
  intros [Hf (f & rest & Hcons & ? & ? & ? & _) _]. exists f.
  assert (f ∈ factsWith k attempts) as Hin by (rewrite <- Hf, Hcons; apply elem_of_cons; auto).
  apply list_elem_of_filter in Hin as [? ?]. done.
Qed.

(** Variants of the two revisions with one key agree on kind, source and digest. *)
Lemma variants_agree l1 l2 k v w :
  keyed l1 → keyed l2 → is_variant l1 k v → is_variant l2 k w →
  v_kind v = v_kind w ∧ v_source v = v_source w ∧ v_semantic v = v_semantic w.
Proof.
  intros H1 H2 (f & Hf & Hk & -> & -> & ->)%variant_fact (g & Hg & Hk' & -> & -> & ->)%variant_fact.
  destruct (H1 f Hf), (H2 g Hg). destruct (factKey_inj f g) as (-> & -> & ->); try done. congruence.
Qed.

Lemma is_variant_consumed attempts k v : is_variant attempts k v → is_variant attempts k (set_consumed v).
Proof. by intros []. Qed.
Lemma is_variant_ambiguous attempts k v : is_variant attempts k v → is_variant attempts k (set_ambiguous v).
Proof. by intros []. Qed.
#[export] Hint Resolve is_variant_consumed is_variant_ambiguous : glassroot.

(** ** The invariant of the three passes of [compareScenario] *)

Section passes.
Context (norm : string) (sg : scenarioGroup).
Context (Hkeyed : ∀ sd, keyed (group_side sd sg)).

(** Key [k] occurs in both revisions with equal occurrence profiles. *)
Definition matched_equal (k : string) : Prop :=
(∀ sd, factsWith k (group_side sd sg) ≠ []) ∧
occurrenceEqual (occurrences (sg_base sg) k) (occurrences (sg_head sg) k) = true.

(** Why a record that pairs the two revisions exists. *)
Definition pair_reason (r : DeltaRecord) : Prop :=
(dr_Kind r ∈ [DeltaKindCountChanged; DeltaKindStabilityChanged]
 ∧ recordKey OnBase r = recordKey OnHead r
 ∧ occurrenceEqual (dr_BaseOccurrence r) (dr_HeadOccurrence r) = false
 ∧ (dr_Kind r = DeltaKindStabilityChanged ↔
  op_Repeatability (dr_BaseOccurrence r) ≠ op_Repeatability (dr_HeadOccurrence r)))
∨ (dr_Kind r = DeltaKindModified ∧ dr_ChangedFields r ≠ []
 ∧ factsWith (recordKey OnBase r) (sg_head sg) = []
 ∧ factsWith (recordKey OnHead r) (sg_base sg) = []).

Record pass_inv (s : cstate) : Prop := {
pi_variant sd k v : store sd s !! k = Some v → is_variant (group_side sd sg) k v;
pi_none sd k : store sd s !! k = None → factsWith k (group_side sd sg) = [];
pi_consumed sd k v : store sd s !! k = Some v → v_consumed v = true →
matched_equal k ∨ ∃ r, r ∈ cs_records s ∧ reports sd r v;
pi_records sd r : r ∈ cs_records s →
∃ v, store sd s !! recordKey sd r = Some v ∧ v_consumed v = true ∧ reports sd r v;
pi_nodup sd : NoDup (recordKey sd <$> cs_records s);
pi_reason r : r ∈ cs_records s →
dr_ScenarioIDs r = [sg_id sg] ∧ dr_ID r ≠ ""%string ∧ pair_reason r;
}.

Lemma reports_consumed sd r v : reports sd r v → reports sd r (set_consumed v).
Proof. by intros []. Qed.
Lemma reports_ambiguous sd r v : reports sd r v → reports sd r (set_ambiguous v).
Proof. by intros []. Qed.

(** Two unconsumed variants are paired by a new record. *)
Lemma pass_inv_pair s (K : side → string) (V : side → variant) r :
pass_inv s →
(∀ sd, store sd s !! K sd = Some (V sd)) →
(∀ sd, v_consumed (V sd) = false) →
(∀ sd, reports sd r (V sd)) →
dr_ScenarioIDs r = [sg_id sg] → dr_ID r ≠ ""%string → pair_reason r →
pass_inv (mkCstate (alter set_consumed (K OnBase) (cs_base s))
          (alter set_consumed (K OnHead) (cs_head s)) (cs_records s ++ [r])).
Proof.
intros Hs HV Hfresh Hr Hsc Hid Hwhy.
assert (∀ sd, recordKey sd r = K sd) as Hkey.
{ intros sd. rewrite (reports_key sd r (V sd)) by done.
eapply variant_key, pi_variant; [done|]. apply HV. }
set (s' := mkCstate _ _ _).
assert (∀ sd, store sd s' = alter set_consumed (K sd) (store sd s)) as Hst by by intros [].
assert (cs_records s' = cs_records s ++ [r]) as Hrs by done.
assert (∀ sd r', r' ∈ cs_records s → recordKey sd r' ≠ K sd) as Hold.
{ intros sd r' Hr' E. destruct (pi_records s Hs sd r' Hr') as (v & Hv & Hc & _).
rewrite E, HV in Hv. simplify_eq. rewrite Hfresh in Hc. done. }
split.
- intros sd k v. rewrite Hst, lookup_alter_Some.
intros [(<- & v0 & Hv0 & ->)|[_ Hv]]; [apply is_variant_consumed|]; by eapply (pi_variant s Hs).
- intros sd k. rewrite Hst, lookup_alter_None. by apply (pi_none s Hs).
- intros sd k v. rewrite Hst, lookup_alter_Some, Hrs.
intros [(<- & v0 & Hv0 & ->)|[_ Hv]] Hc.
+ right. exists r. split; [apply elem_of_app; right; by apply list_elem_of_singleton|].
  rewrite HV in Hv0. simplify_eq. by apply reports_consumed.
+ destruct (pi_consumed s Hs sd k v Hv Hc) as [|(r' & ? & ?)]; [by left|].
  right. exists r'. split; [apply elem_of_app; by left|done].
- intros sd r'. rewrite Hrs, elem_of_app, list_elem_of_singleton, Hst.
intros [Hr'| ->].
+ rewrite lookup_alter_ne by (intros E; by eapply Hold). by apply pi_records.
+ rewrite Hkey, lookup_alter_eq, HV. eexists. split_and!; [done..|].
  by apply reports_consumed.
- intros sd. rewrite Hrs, fmap_app. cbn. apply NoDup_app. split_and!.
+ by apply pi_nodup.
+ intros k (r' & -> & Hr')%list_elem_of_fmap. rewrite list_elem_of_singleton, Hkey. by apply Hold.
+ apply NoDup_singleton.
- intros r'. rewrite Hrs, elem_of_app, list_elem_of_singleton.
intros [Hr'| ->]; [by apply (pi_reason s Hs)|done].
Qed.

(** Two variants of one key with equal profiles are consumed silently. *)
Lemma pass_inv_equal s k :
pass_inv s → matched_equal k →
pass_inv (mkCstate (alter set_consumed k (cs_base s)) (alter set_consumed k (cs_head s)) (cs_records s)).
Proof.
intros Hs Hm. set (s' := mkCstate _ _ _).
assert (∀ sd, store sd s' = alter set_consumed k (store sd s)) as Hst by by intros [].
split.
- intros sd k' v. rewrite Hst, lookup_alter_Some.
intros [(<- & v0 & Hv0 & ->)|[_ Hv]]; [apply is_variant_consumed|]; by eapply (pi_variant s Hs).
- intros sd k'. rewrite Hst, lookup_alter_None. by apply (pi_none s Hs).
- intros sd k' v. rewrite Hst, lookup_alter_Some.
intros [(<- & v0 & Hv0 & ->)|[_ Hv]] Hc; [by left|by apply (pi_consumed s Hs sd _ _ Hv)].
- intros sd r Hr. rewrite Hst. destruct (pi_records s Hs sd r Hr) as (v & Hv & Hc & Hrep).
destruct (decide (k = recordKey sd r)) as [E|Hne].
+ rewrite E, lookup_alter_eq, Hv. eexists. split_and!; [done..|]. by apply reports_consumed.
+ rewrite lookup_alter_ne by done. eauto.
- apply (pi_nodup s Hs).
- apply (pi_reason s Hs).
Qed.

Lemma mark_lookup ks m k :
mark set_ambiguous ks m !! k
= if bool_decide (k ∈ ks) then set_ambiguous <$> m !! k else m !! k.
Proof.
revert m. induction ks as [|x ks IH]; intros m; [done|].
change (mark set_ambiguous (x :: ks) m) with (mark set_ambiguous ks (alter set_ambiguous x m)).
rewrite IH. destruct (decide (k = x)) as [->|Hne].
- rewrite lookup_alter_eq. rewrite (bool_decide_true (x ∈ x :: ks)) by apply list_elem_of_here.
case_bool_decide; [|done]. by destruct (m !! x).
- rewrite lookup_alter_ne by done. erewrite bool_decide_ext; [done|].
rewrite elem_of_cons. tauto.
Qed.

(** Marking variants ambiguous changes nothing else. *)
Lemma pass_inv_ambiguous s bs hs :
pass_inv s →
pass_inv (mkCstate (mark set_ambiguous bs (cs_base s)) (mark set_ambiguous hs (cs_head s)) (cs_records s)).
Proof.
intros Hs. set (s' := mkCstate _ _ _).
assert (∀ sd k, store sd s' !! k = store sd s !! k ∨
              store sd s' !! k = set_ambiguous <$> store sd s !! k) as Hst.
{ intros [] k; cbn; rewrite mark_lookup; case_bool_decide; auto. }
split.
- intros sd k v Hv. destruct (Hst sd k) as [E|E]; rewrite E in Hv; [by eapply (pi_variant s Hs)|].
apply fmap_Some in Hv as (v0 & Hv0 & ->). apply is_variant_ambiguous. by eapply (pi_variant s Hs).
- intros sd k Hv. destruct (Hst sd k) as [E|E]; rewrite E in Hv; [by eapply (pi_none s Hs)|].
apply fmap_None in Hv. by eapply (pi_none s Hs).
- intros sd k v Hv Hc. destruct (Hst sd k) as [E|E]; rewrite E in Hv; [by apply (pi_consumed s Hs sd _ _ Hv)|].
apply fmap_Some in Hv as (v0 & Hv0 & ->).
destruct (pi_consumed s Hs sd k v0 Hv0 Hc) as [|(r & ? & ?)]; [by left|].
right. exists r. split; [done|]. by apply reports_ambiguous.
- intros sd r Hr. destruct (pi_records s Hs sd r Hr) as (v & Hv & Hc & Hrep).
destruct (Hst sd (recordKey sd r)) as [E|E]; rewrite E, Hv; [by eauto|].
eexists. split_and!; [done..|]. by apply reports_ambiguous.
- apply (pi_nodup s Hs).
- apply (pi_reason s Hs).
Qed.

Lemma variant_nonempty attempts k v : is_variant attempts k v → factsWith k attempts ≠ [].
Proof. intros [Hf (f & rest & Hcons & _) _]. by rewrite <- Hf, Hcons. Qed.

(** Wherever both revisions have a variant of key [k], both are consumed. *)
Definition settled (s : cstate) (k : string) : Prop :=
∀ b h, cs_base s !! k = Some b → cs_head s !! k = Some h →
v_consumed b = true ∧ v_consumed h = true.

Local Lemma exactStep_spec s k :
pass_inv s →
(∀ sd v, store sd s !! k = Some v → v_consumed v = false) →
let s' := exactStep norm (sg_id sg) s k in
pass_inv s' ∧ settled s' k ∧ ∀ sd k', k' ≠ k → store sd s' !! k' = store sd s !! k'.
Proof.
intros Hs Hfresh. unfold exactStep.
destruct (cs_base s !! k) as [b|] eqn:Hb; [|by split_and!; [|intros ?? ?; congruence|]].
destruct (cs_head s !! k) as [h|] eqn:Hh; [|by split_and!; [|intros ?? ?; congruence|]].
pose proof (pi_variant s Hs OnBase k b Hb) as Vb. pose proof (pi_variant s Hs OnHead k h Hh) as Vh.
cbn in Vb, Vh.
destruct (variants_agree _ _ _ _ _ (Hkeyed OnBase) (Hkeyed OnHead) Vb Vh) as (Hkind & Hsrc & Hsem).
assert (∀ recs, let s' := mkCstate (alter set_consumed k (cs_base s)) (alter set_consumed k (cs_head s)) recs in
settled s' k ∧ ∀ sd k', k' ≠ k → store sd s' !! k' = store sd s !! k') as Hrest.
{ intros recs. split.
- intros b' h'. cbn. rewrite !lookup_alter_eq, Hb, Hh. by intros [= <-] [= <-].
- intros [] k' Hne; cbn; by rewrite lookup_alter_ne. }
split; [|apply Hrest]. destruct (occurrenceEqual _ _) eqn:Heq.
- apply pass_inv_equal; [done|]. split.
+ intros []; by eapply variant_nonempty.
+ by rewrite <- (iv_profile _ _ _ Vb), <- (iv_profile _ _ _ Vh).
- set (r := makeRecord _ _ _ _ _ _ _).
assert (∀ sd, reports sd r (match sd with OnBase => b | OnHead => h end)) as Hr.
{ intros []; apply makeRecord_reports; try done; by intros ?? [= <-] [= <-]. }
apply (pass_inv_pair s (λ _, k) (λ sd, match sd with OnBase => b | OnHead => h end));
  [done|by intros []| |done|done|done|].
{ intros []; [by apply (Hfresh OnBase)|by apply (Hfresh OnHead)]. }
left. rewrite (reports_key OnBase r b (Hr OnBase)), (reports_key OnHead r h (Hr OnHead)).
rewrite (variant_key _ _ _ Vb), (variant_key _ _ _ Vh). cbn. split_and!; [|done|done|].
+ destruct (_ != _); rewrite !elem_of_cons; auto.
+ destruct (op_Repeatability (v_profile b) != _) eqn:Hrep; go_bool; by split.
Qed.

Lemma exactPass_spec s :
pass_inv s →
(∀ sd k v, store sd s !! k = Some v → v_consumed v = false) →
pass_inv (exactPass norm (sg_id sg) s) ∧ ∀ k, settled (exactPass norm (sg_id sg) s) k.
Proof.
intros Hs Hfresh. unfold exactPass.
assert (∀ l s, NoDup l → pass_inv s →
(∀ k, k ∈ l → ∀ sd v, store sd s !! k = Some v → v_consumed v = false) →
let s' := foldl (exactStep norm (sg_id sg)) s l in
pass_inv s' ∧ (∀ k, k ∈ l → settled s' k) ∧
∀ sd k, k ∉ l → store sd s' !! k = store sd s !! k) as Hfold.
{ clear s Hs Hfresh. intros l s Hnd. revert s.
induction Hnd as [|k l Hk Hnd IH]; intros s Hs Hfresh; cbn.
{ split_and!; [done| |done]. by intros k ?%not_elem_of_nil. }
destruct (exactStep_spec s k Hs) as (Hs1 & Hset & Hother); [apply Hfresh, list_elem_of_here|].
destruct (IH _ Hs1) as (Hs2 & Hset2 & Hother2).
{ intros k' Hk' sd v. rewrite Hother by congruence. apply Hfresh. by apply list_elem_of_further. }
split_and!; [done| |].
- intros k' [->|Hk']%elem_of_cons; [|by apply Hset2].
  intros b h Hb Hh. apply Hset;
    [rewrite <- (Hother2 OnBase) by done|rewrite <- (Hother2 OnHead) by done]; done.
- intros sd k' [Hne Hk']%not_elem_of_cons. by rewrite Hother2, Hother. }
destruct (Hfold (unionKeys (cs_base s) (cs_head s)) s) as (Hinv & Hset & Hother).
- apply NoDup_unionKeys.
- done.
- intros k _ sd v. by apply Hfresh.
- split; [done|]. intros k. destruct (decide (k ∈ unionKeys (cs_base s) (cs_head s))) as [Hk|Hk].
{ by apply Hset. }
intros b h Hb Hh. exfalso. rewrite (Hother OnBase) in Hb by done. apply Hk.
apply elem_of_unionKeys. left. by eexists.
Qed.

Lemma anchorGroups_spec m a k :
k ∈ default [] (anchorGroups m !! a) →
∃ v, m !! k = Some v ∧ v_consumed v = false ∧ v_anchor v = a.
Proof.
unfold anchorGroups.
apply (foldl_invariant (λ g : gmap Digest (list string), ∀ a k, k ∈ default [] (g !! a) →
∃ v, m !! k = Some v ∧ v_consumed v = false ∧ v_anchor v = a)).
{ intros a' k'. rewrite lookup_empty. by intros ?%not_elem_of_nil. }
clear a k. intros g x _ IH a k. destruct (m !! x) as [v|] eqn:Hx; [|apply IH].
destruct (negb (v_consumed v) && _) eqn:Hc; [|apply IH]. go_bool.
destruct (decide (v_anchor v = a)) as [<-|Hne]; [|by rewrite lookup_insert_ne; [apply IH|]].
rewrite lookup_insert_eq. cbn. rewrite elem_of_app, list_elem_of_singleton.
intros [Hk| ->]; [by apply IH|eauto].
Qed.

(** How a step of the anchor pass may change the variant of key [k]. *)
Local Definition touched (group : list string) (k : string) (o o' : option variant) : Prop :=
o' = o ∨ o' = set_ambiguous <$> o ∨ (o' = set_consumed <$> o ∧ k ∈ group).

Local Lemma anchorStep_spec s (G : side → gmap Digest (list string)) a :
pass_inv s → (∀ k, settled s k) →
(∀ sd k v, k ∈ default [] (G sd !! a) → store sd s !! k = Some v → v_consumed v = false) →
let s' := anchorStep norm (sg_id sg) (G OnBase) (G OnHead) s a in
pass_inv s' ∧ ∀ sd k, touched (default [] (G sd !! a)) k (store sd s !! k) (store sd s' !! k).
Proof.
intros Hs Hset Hfresh. unfold anchorStep.
remember (default [] (G OnBase !! a)) as bs eqn:Ebs.
remember (default [] (G OnHead !! a)) as hs eqn:Ehs.
destruct (correlated s bs hs) as [[[kb b] [kh h]]|] eqn:Hcorr.
- unfold correlated in Hcorr.
destruct bs as [|kb' [|]], hs as [|kh' [|]]; try discriminate.
destruct (cs_base s !! kb') as [b'|] eqn:Hb; [|done].
destruct (cs_head s !! kh') as [h'|] eqn:Hh; [|done].
destruct ((v_kind b' == _) && _) eqn:Hsame; [|done]. simplify_eq. go_bool.
destruct (0 <? _) eqn:Hch; [|by split; [|left]]. go_bool.
assert (v_consumed b = false) as Cb.
{ apply (Hfresh OnBase kb); [rewrite <- Ebs; apply list_elem_of_here|done]. }
assert (v_consumed h = false) as Ch.
{ apply (Hfresh OnHead kh); [rewrite <- Ehs; apply list_elem_of_here|done]. }
set (r := makeRecord _ _ _ _ _ _ _).
assert (∀ sd, reports sd r (match sd with OnBase => b | OnHead => h end)) as Hr.
{ intros []; apply makeRecord_reports; try done; by intros ?? [= <-] [= <-]. }
split.
+ apply (pass_inv_pair s (λ sd, match sd with OnBase => kb | OnHead => kh end)
           (λ sd, match sd with OnBase => b | OnHead => h end)); try done; try by intros [].
  right. rewrite (reports_key OnBase r b (Hr OnBase)), (reports_key OnHead r h (Hr OnHead)).
  rewrite (variant_key _ _ _ (pi_variant s Hs OnBase kb b Hb)).
  rewrite (variant_key _ _ _ (pi_variant s Hs OnHead kh h Hh)). split_and!; [done| | |].
  * cbn. intros E. by rewrite E in Hch.
  * apply (pi_none s Hs OnHead). cbn. destruct (cs_head s !! kb) as [h'|] eqn:Hh'; [|done].
    destruct (Hset kb b h' Hb Hh'). congruence.
  * apply (pi_none s Hs OnBase). cbn. destruct (cs_base s !! kh) as [b'|] eqn:Hb'; [|done].
    destruct (Hset kh b' h Hb' Hh). congruence.
+ intros sd k. destruct sd; cbn.
  * rewrite <- Ebs. destruct (decide (k = kb)) as [->|Hne].
    { rewrite lookup_alter_eq. right; right. split; [done|apply list_elem_of_here]. }
    left. by rewrite lookup_alter_ne.
  * rewrite <- Ehs. destruct (decide (k = kh)) as [->|Hne].
    { rewrite lookup_alter_eq. right; right. split; [done|apply list_elem_of_here]. }
    left. by rewrite lookup_alter_ne.
- destruct ((0 <? _) && _); [|by split; [|left]]. split; [by apply pass_inv_ambiguous|].
intros [] k; cbn; rewrite mark_lookup; case_bool_decide; unfold touched; auto.
Qed.

Lemma settled_touched s s' g k :
settled s k → (∀ sd, touched (g sd) k (store sd s !! k) (store sd s' !! k)) → settled s' k.
Proof.
intros Hset Ht b h Hb Hh.
assert (∀ sd v', store sd s' !! k = Some v' →
∃ v, store sd s !! k = Some v ∧ (v_consumed v = true → v_consumed v' = true)) as Hback.
{ intros sd v' Hv'. destruct (Ht sd) as [E|[E|[E _]]]; rewrite E in Hv'; [by eauto|..];
  apply fmap_Some in Hv' as (v & Hv & ->); eauto. }
destruct (Hback OnBase b Hb) as (b0 & Hb0 & ?). destruct (Hback OnHead h Hh) as (h0 & Hh0 & ?).
destruct (Hset b0 h0 Hb0 Hh0). auto.
Qed.

Lemma anchorPass_spec s :
pass_inv s → (∀ k, settled s k) →
pass_inv (anchorPass norm (sg_id sg) s) ∧ ∀ k, settled (anchorPass norm (sg_id sg) s) k.
Proof.
intros Hs Hset. unfold anchorPass.
set (G := λ sd, anchorGroups (store sd s)).
assert (∀ sd a a' k, k ∈ default [] (G sd !! a) → k ∈ default [] (G sd !! a') → a = a') as Hdisj.
{ intros sd a a' k (v & Hv & _ & <-)%anchorGroups_spec (v' & Hv' & _ & <-)%anchorGroups_spec.
congruence. }
assert (∀ sd a k v, k ∈ default [] (G sd !! a) → store sd s !! k = Some v → v_consumed v = false) as Hfresh.
{ intros sd a k v (v' & Hv' & ? & _)%anchorGroups_spec ?. congruence. }
change (anchorGroups (cs_base s)) with (G OnBase).
change (anchorGroups (cs_head s)) with (G OnHead). clearbody G.
assert (∀ l, NoDup l → ∀ s, pass_inv s → (∀ k, settled s k) →
(∀ a, a ∈ l → ∀ sd k v, k ∈ default [] (G sd !! a) → store sd s !! k = Some v → v_consumed v = false) →
let s' := foldl (anchorStep norm (sg_id sg) (G OnBase) (G OnHead)) s l in
pass_inv s' ∧ ∀ k, settled s' k) as Hfold.
{ clear s Hs Hset Hfresh. induction 1 as [|a l Ha Hnd IH]; intros s Hs Hset Hfresh; cbn; [done|].
destruct (anchorStep_spec s G a Hs Hset) as [Hs1 Ht]; [apply Hfresh, list_elem_of_here|].
apply IH; [done| |].
- intros k. eapply settled_touched; [apply Hset|]. intros sd. apply (Ht sd k).
- intros a' Ha' sd k v Hk Hv.
  destruct (Ht sd k) as [E|[E|[_ Hk']]].
  + rewrite E in Hv. eapply Hfresh; [by apply list_elem_of_further|done..].
  + rewrite E in Hv. apply fmap_Some in Hv as (v0 & Hv0 & ->).
    change (v_consumed v0 = false). eapply Hfresh; [by apply list_elem_of_further|done..].
  + exfalso. apply Ha. by rewrite (Hdisj sd a a' k Hk' Hk). }
apply Hfold; [apply NoDup_unionKeys|done..|]. intros a _ sd k v. apply Hfresh.
Qed.

(** The records of a scenario: the pairs of the passes, the two sides'
leftovers, and at most one order record. *)
Lemma compareScenario_inv recs refs :
compareScenario norm sg = Ok (recs, refs) →
∃ s, pass_inv s ∧ (∀ k, settled s k) ∧
recs = cs_records s ++
  leftovers norm (sg_id sg) false (attemptsComplete (sg_head sg)) (cs_base s) ++
  leftovers norm (sg_id sg) true (attemptsComplete (sg_base sg)) (cs_head s) ++
  option_list (orderRecord norm sg).
Proof.
intros H. apply bind_Ok in H as (base & Hbase & H). apply bind_Ok in H as (head & Hhead & H).
apply Ok_inj, (f_equal fst) in H. cbv zeta in H. cbn [fst] in H. symmetry in H.
set (s0 := mkCstate base head []).
assert (∀ sd k, match store sd s0 !! k with
              | None => factsWith k (group_side sd sg) = []
              | Some v => is_variant (group_side sd sg) k v ∧ v_consumed v = false end) as Hs0.
{ intros [] k; [apply (assess_spec _ _ Hbase)|apply (assess_spec _ _ Hhead)]. }
assert (pass_inv s0) as Hinv.
{ split.
- intros sd k v Hv. specialize (Hs0 sd k). rewrite Hv in Hs0. apply Hs0.
- intros sd k Hv. specialize (Hs0 sd k). by rewrite Hv in Hs0.
- intros sd k v Hv Hc. specialize (Hs0 sd k). rewrite Hv in Hs0. destruct Hs0. congruence.
- intros sd r []%not_elem_of_nil.
- intros sd. constructor.
- intros r []%not_elem_of_nil. }
destruct (exactPass_spec s0 Hinv) as [Hinv1 Hset1].
{ intros sd k v Hv. specialize (Hs0 sd k). rewrite Hv in Hs0. apply Hs0. }
destruct (anchorPass_spec _ Hinv1 Hset1) as [Hinv2 Hset2].
eexists. split_and!; [exact Hinv2|exact Hset2|exact H].
Qed.

Lemma elem_of_leftovers onHead other m r :
r ∈ leftovers norm (sg_id sg) onHead other m ↔
∃ k v, m !! k = Some v ∧ v_consumed v = false
     ∧ r = absenceRecord norm (sg_id sg) onHead other v.
Proof.
unfold leftovers, sortedVariants. rewrite list_elem_of_omap. split.
- intros (v & (k & Hk & Hv)%list_elem_of_omap & Hr).
destruct (v_consumed v) eqn:?; [done|]. simplify_eq. eauto.
- intros (k & v & Hv & Hc & ->). exists v. rewrite Hc. split; [|done].
apply list_elem_of_omap. exists k. split; [|done]. apply elem_of_sorted_keys. by eexists.
Qed.

(** The side a leftover record does report. *)
Lemma absenceRecord_reports (onHead : bool) other v :
reports (if onHead then OnHead else OnBase) (absenceRecord norm (sg_id sg) onHead other v) v.
Proof. apply reports_set_Basis, makeRecord_reports; by destruct onHead. Qed.

Lemma absenceRecord_other (onHead : bool) other v :
dr_Observed (if onHead then OnBase else OnHead) (absenceRecord norm (sg_id sg) onHead other v) = false.
Proof. by destruct onHead. Qed.

Lemma orderRecord_unobserved r sd : orderRecord norm sg = Some r → dr_Observed sd r = false.
Proof.
unfold orderRecord. destruct (stableSequences _); [|done]. destruct (stableSequences _); [|done].
destruct (_ || _); [done|]. destruct (_ || _); [done|]. intros [= <-]. by destruct sd.
Qed.

(** Facts observed in one revision are reported, or matched exactly. *)
Lemma scenario_accounted recs refs sd f :
compareScenario norm sg = Ok (recs, refs) →
f ∈ group_side sd sg ≫= at_Facts →
matched_equal (factKey f) ∨
∃ r, r ∈ recs ∧ dr_Observed sd r = true ∧ recordKey sd r = factKey f ∧ snapshot f ∈ dr_Facts sd r.
Proof.
intros (s & Hinv & _ & ->)%compareScenario_inv Hf.
assert (f ∈ factsWith (factKey f) (group_side sd sg)) as Hfw.
{ by apply list_elem_of_filter. }
destruct (store sd s !! factKey f) as [v|] eqn:Hv.
2:{ apply (pi_none s Hinv) in Hv. rewrite Hv in Hfw. by apply not_elem_of_nil in Hfw. }
pose proof (pi_variant s Hinv sd _ v Hv) as Hvar.
assert (∀ r, reports sd r v → dr_Observed sd r = true ∧ recordKey sd r = factKey f
           ∧ snapshot f ∈ dr_Facts sd r) as Hgood.
{ intros r Hr. split_and!; [apply Hr| |].
- rewrite (reports_key sd r v Hr). by apply (variant_key _ _ _ Hvar).
- rewrite (rep_facts _ _ _ Hr), (iv_facts _ _ _ Hvar). unfold snapshots.
  rewrite stable_sort_Permutation. by apply list_elem_of_fmap_2. }
destruct (v_consumed v) eqn:Hc.
- destruct (pi_consumed s Hinv sd _ v Hv Hc) as [|(r & Hr & Hrep)]; [by left|].
right. exists r. split; [apply elem_of_app; by left|]. by apply Hgood.
- right. exists (absenceRecord norm (sg_id sg) (match sd with OnBase => false | OnHead => true end)
  (attemptsComplete (match sd with OnBase => sg_head sg | OnHead => sg_base sg end)) v).
split.
+ rewrite !elem_of_app, !elem_of_leftovers. destruct sd; [right; left|right; right; left]; eauto.
+ apply Hgood. destruct sd; [apply (absenceRecord_reports false)|apply (absenceRecord_reports true)].
Qed.

(** A record's observed side is exactly the facts of one key of that revision. *)
Lemma scenario_sound recs refs r :
compareScenario norm sg = Ok (recs, refs) → r ∈ recs →
dr_ScenarioIDs r = [sg_id sg] ∧
∀ sd, dr_Observed sd r = true → ∃ v, is_variant (group_side sd sg) (recordKey sd r) v ∧ reports sd r v.
Proof.
intros (s & Hinv & _ & ->)%compareScenario_inv. rewrite !elem_of_app, !elem_of_leftovers.
assert (∀ sd k v, is_variant (group_side sd sg) k v → reports sd r v →
∃ v, is_variant (group_side sd sg) (recordKey sd r) v ∧ reports sd r v) as Hgood.
{ intros sd k v Hv Hr. exists v. split; [|done].
by rewrite (reports_key sd r v Hr), (variant_key _ _ _ Hv). }
intros [Hr|[(k & v & Hv & Hc & ->)|[(k & v & Hv & Hc & ->)|Ho]]].
- split; [by apply (pi_reason s Hinv)|]. intros sd _.
destruct (pi_records s Hinv sd r Hr) as (v & Hv & _ & Hrep). exists v. split; [|done].
by apply (pi_variant s Hinv).
- split; [done|]. intros [] Ho; [|done]. eapply (Hgood OnBase k v); [by apply (pi_variant s Hinv)|].
apply (absenceRecord_reports false).
- split; [done|]. intros [] Ho; [done|]. eapply (Hgood OnHead k v); [by apply (pi_variant s Hinv)|].
apply (absenceRecord_reports true).
- destruct (orderRecord norm sg) as [r'|] eqn:Hor; [|by apply not_elem_of_nil in Ho].
apply list_elem_of_singleton in Ho as ->. split.
+ revert Hor. unfold orderRecord. destruct (stableSequences _); [|done].
  destruct (stableSequences _); [|done]. destruct (_ || _); [done|]. destruct (_ || _); [done|].
  by intros [= <-].
+ intros sd. by rewrite (orderRecord_unobserved r' sd Hor).
Qed.

Lemma scenario_ids recs refs r :
compareScenario norm sg = Ok (recs, refs) → r ∈ recs → dr_ID r ≠ ""%string.
Proof.
intros (s & Hinv & _ & ->)%compareScenario_inv. rewrite !elem_of_app, !elem_of_leftovers.
intros [Hr|[(k & v & _ & _ & ->)|[(k & v & _ & _ & ->)|Ho]]]; [by apply (pi_reason s Hinv)|done..|].
revert Ho. unfold orderRecord. destruct (stableSequences _); [|by intros ?%not_elem_of_nil].
destruct (stableSequences _); [|by intros ?%not_elem_of_nil].
destruct (_ || _); [by intros ?%not_elem_of_nil|]. destruct (_ || _); [by intros ?%not_elem_of_nil|].
by intros ->%list_elem_of_singleton.
Qed.

Definition otherSide (sd : side) : side := match sd with OnBase => OnHead | OnHead => OnBase end.
Definition absenceKind (sd : side) : DeltaKind :=
match sd with OnBase => DeltaKindRemoved | OnHead => DeltaKindAdded end.

Lemma settled_unconsumed s sd k v :
pass_inv s → settled s k → store sd s !! k = Some v → v_consumed v = false →
factsWith k (group_side (otherSide sd) sg) = [].
Proof.
intros Hinv Hset Hv Hc. apply (pi_none s Hinv). destruct sd; cbn in *.
- destruct (cs_head s !! k) as [h|] eqn:Hh; [|done]. destruct (Hset v h Hv Hh). congruence.
- destruct (cs_base s !! k) as [b|] eqn:Hb; [|done]. destruct (Hset b v Hb Hv). congruence.
Qed.

(** A definitive addition or removal rests on a complete opposite revision
that never observed the behaviour. *)
Lemma scenario_absence recs refs r sd :
compareScenario norm sg = Ok (recs, refs) → r ∈ recs → dr_Kind r = absenceKind sd →
attemptsComplete (group_side (otherSide sd) sg) = true
∧ dr_Observed sd r = true ∧ dr_Observed (otherSide sd) r = false
∧ factsWith (recordKey sd r) (group_side (otherSide sd) sg) = [].
Proof.
intros (s & Hinv & Hset & ->)%compareScenario_inv. rewrite !elem_of_app, !elem_of_leftovers.
assert (∀ onHead k v, store (if (onHead : bool) then OnHead else OnBase) s !! k = Some v →
v_consumed v = false →
let sd' := if onHead then OnHead else OnBase in
r = absenceRecord norm (sg_id sg) onHead (attemptsComplete (group_side (otherSide sd') sg)) v →
dr_Kind r = absenceKind sd →
attemptsComplete (group_side (otherSide sd) sg) = true
∧ dr_Observed sd r = true ∧ dr_Observed (otherSide sd) r = false
∧ factsWith (recordKey sd r) (group_side (otherSide sd) sg) = []) as Hleft.
{ intros onHead k v Hv Hc sd' -> Hkind.
assert (sd = sd' ∧ attemptsComplete (group_side (otherSide sd') sg) = true) as [-> ->].
{ subst sd'. cbn in Hkind. destruct (attemptsComplete _), onHead, sd; by try split. }
split_and!; [done| | |].
- subst sd'. by destruct onHead.
- subst sd'. by destruct onHead.
- rewrite (reports_key sd' _ v) by (subst sd'; destruct onHead; [apply (absenceRecord_reports true)|apply (absenceRecord_reports false)]).
  rewrite (variant_key (group_side sd' sg) k v) by by apply (pi_variant s Hinv).
  by apply (settled_unconsumed s sd' k v). }
intros [Hr|[(k & v & Hv & Hc & ->)|[(k & v & Hv & Hc & ->)|Ho]]] Hkind.
- destruct (pi_reason s Hinv r Hr) as (_ & _ & [(Hk & _)|(Hk & _)]); rewrite Hkind in Hk;
  destruct sd; try done; by apply elem_of_cons in Hk as [?|[?|?%not_elem_of_nil]%elem_of_cons].
- by apply (Hleft false k v).
- by apply (Hleft true k v).
- exfalso. destruct (orderRecord norm sg) as [r'|] eqn:Hor; [|by apply not_elem_of_nil in Ho].
apply list_elem_of_singleton in Ho as ->. revert Hor Hkind. unfold orderRecord.
destruct (stableSequences _); [|done]. destruct (stableSequences _); [|done].
destruct (_ || _); [done|]. destruct (_ || _); [done|]. intros [= <-]. by destruct sd.
Qed.

(** *** No behaviour is reported twice *)

Lemma leftovers_keys onHead other m :
(∀ k v, m !! k = Some v → is_variant (group_side (if (onHead : bool) then OnHead else OnBase) sg) k v) →
NoDup (recordKey (if onHead then OnHead else OnBase) <$> leftovers norm (sg_id sg) onHead other m).
Proof.
intros Hm. apply (sublist_NoDup _ (sorted_keys m)); [apply NoDup_sorted_keys|].
unfold leftovers, sortedVariants. induction (sorted_keys m) as [|k l IH]; [done|]. cbn.
destruct (m !! k) as [v|] eqn:Hv; [|by apply sublist_cons]. cbn.
destruct (v_consumed v); [by apply sublist_cons|]. cbn.
rewrite (reports_key _ _ v) by apply absenceRecord_reports.
rewrite (variant_key _ k v) by by apply Hm. by apply sublist_skip.
Qed.

Lemma scenario_unique recs refs sd :
compareScenario norm sg = Ok (recs, refs) →
NoDup (recordKey sd <$> filter (λ r, dr_Observed sd r = true) recs).
Proof.
intros (s & Hinv & Hset & ->)%compareScenario_inv.
assert (∀ r, r ∈ cs_records s → dr_Observed sd r = true) as Hobs.
{ intros r Hr. by destruct (pi_records s Hinv sd r Hr) as (v & _ & _ & []). }
rewrite !filter_app, filter_all by done.
assert (filter (λ r, dr_Observed sd r = true) (option_list (orderRecord norm sg)) = []) as ->.
{ apply filter_none. intros r. destruct (orderRecord norm sg) as [r'|] eqn:Ho; [|by intros ?%not_elem_of_nil].
intros ->%list_elem_of_singleton. by rewrite (orderRecord_unobserved r' sd Ho). }
assert (∀ (onHead : bool) (other : bool) k m,
m = store (if onHead then OnHead else OnBase) s →
k ∈ recordKey (if onHead then OnHead else OnBase) <$> leftovers norm (sg_id sg) onHead other m →
k ∉ recordKey (if onHead then OnHead else OnBase) <$> cs_records s) as Hdisj.
{ intros onHead other k0 m -> (r & -> & (k & v & Hv & Hc & ->)%elem_of_leftovers)%list_elem_of_fmap.
rewrite (reports_key _ _ v) by apply absenceRecord_reports.
rewrite (variant_key _ k v) by by apply (pi_variant s Hinv).
intros (r & -> & Hr)%list_elem_of_fmap.
destruct (pi_records s Hinv (if onHead then OnHead else OnBase) r Hr) as (v' & Hv' & ? & _). congruence. }
assert (∀ (onHead : bool) other m, m = store (if onHead then OnHead else OnBase) s →
NoDup (recordKey (if onHead then OnHead else OnBase) <$>
       cs_records s ++ leftovers norm (sg_id sg) onHead other m)) as Happ.
{ intros onHead other m ->. rewrite fmap_app. apply NoDup_app. split_and!.
- apply (pi_nodup s Hinv).
- intros k Hk Hk'. by eapply Hdisj.
- apply leftovers_keys. intros k v. apply (pi_variant s Hinv). }
assert (∀ (onHead : bool) other m sd', sd' = (if onHead then OnHead else OnBase) →
filter (λ r, dr_Observed sd' r = true) (leftovers norm (sg_id sg) onHead other m)
  = leftovers norm (sg_id sg) onHead other m
∧ filter (λ r, dr_Observed (otherSide sd') r = true) (leftovers norm (sg_id sg) onHead other m) = [])
as Hfil.
{ intros onHead other m sd' ->. split; [apply filter_all|apply filter_none];
  intros r (k & v & _ & _ & ->)%elem_of_leftovers; by destruct onHead. }
destruct sd.
- rewrite (proj1 (Hfil false _ _ OnBase eq_refl)), (proj2 (Hfil true _ _ OnHead eq_refl)).
rewrite app_nil_r. by apply (Happ false).
- rewrite (proj2 (Hfil false _ _ OnBase eq_refl)), (proj1 (Hfil true _ _ OnHead eq_refl)).
rewrite app_nil_r. by apply (Happ true).
Qed.

(** *** Equal behaviour *)

(** What the comparator looks at in a fact. *)
Definition factIdentity (f : Fact) : Digest * FactKind * ObservationSource :=
(f_SemanticDigest f, f_Kind f, f_Source f).

(** Both revisions ran the same repetitions with the same coverage and
observed the same facts in the same order. *)
Definition same_behaviour : Prop :=
Forall2 (λ a b, at_Repetition a = at_Repetition b ∧ at_Coverage a = at_Coverage b ∧
         (factIdentity <$> at_Facts a) = (factIdentity <$> at_Facts b))
(sg_base sg) (sg_head sg).

Lemma factsWith_length k (P : Z → Prop) `{∀ n, Decision (P n)} :
same_behaviour →
length (factsWith k (filter (λ a, P (at_Repetition a)) (sg_base sg)))
= length (factsWith k (filter (λ a, P (at_Repetition a)) (sg_head sg))).
Proof.
assert (∀ fs gs, factIdentity <$> fs = factIdentity <$> gs →
length (filter (λ f, factKey f = k) fs) = length (filter (λ f, factKey f = k) gs)) as Hfs.
{ induction fs as [|f fs IH]; intros [|g gs]; try done. rewrite !fmap_cons. intros [= ??? E].
assert (factKey f = factKey g) as Hk by (unfold factKey; congruence).
rewrite !filter_cons, Hk. case_decide; cbn; auto. }
unfold same_behaviour, factsWith. induction 1 as [|a b l1 l2 (Hr & Hc & Hf) _ IH]; [done|].
rewrite !filter_cons, Hr. case_decide; [|done].
change ((?x :: ?y) ≫= at_Facts) with (at_Facts x ++ (y ≫= at_Facts)).
cbn [mbind list_bind]. rewrite !filter_app, !length_app. auto.
Qed.

Lemma same_occurrences k :
same_behaviour → occurrences (sg_base sg) k = occurrences (sg_head sg) k.
Proof.
intros Hs. unfold occurrences. f_equal; [by rewrite (Forall2_length _ _ _ Hs)|].
assert (∀ n, length (factsWith k (filter (λ a', at_Repetition a' = n) (sg_base sg)))
         = length (factsWith k (filter (λ a', at_Repetition a' = n) (sg_head sg)))) as Hn.
{ intros n. exact (factsWith_length k (λ m, m = n) Hs). }
apply list_eq_Forall2, Forall2_fmap. eapply Forall2_impl; [exact Hs|].
intros a b (Hr & Hc & _). by rewrite Hr, Hc, Hn.
Qed.

Lemma same_none k sd :
same_behaviour → factsWith k (group_side (otherSide sd) sg) = [] → factsWith k (group_side sd sg) = [].
Proof.
intros Hs E. apply nil_length_inv. apply (f_equal length) in E.
pose proof (factsWith_length k (λ _, True) Hs) as Hl.
assert (∀ l : list AttemptTrace, filter (λ _, True) l = l) as Hid by (intros; by apply filter_all).
rewrite !Hid in Hl. destruct sd; cbn [group_side otherSide] in *; [by rewrite Hl, E|by rewrite <- Hl, E].
Qed.

Lemma occurrenceEqual_refl p : occurrenceEqual p p = true.
Proof. unfold occurrenceEqual. by apply bool_decide_true. Qed.

Lemma stableSequences_same :
same_behaviour → stableSequences (sg_base sg) = stableSequences (sg_head sg).
Proof.
intros Hs. unfold stableSequences. rewrite (Forall2_length _ _ _ Hs).
destruct (_ <? 2); [done|]. f_equal.
assert (∀ l1 l2 first, Forall2 (λ a b, at_Repetition a = at_Repetition b ∧ at_Coverage a = at_Coverage b ∧
         (factIdentity <$> at_Facts a) = (factIdentity <$> at_Facts b)) l1 l2 →
∀ F, F = (λ (first : option (list Digest)) a,
     if at_Coverage a != CoverageComplete then Err ()
     else match first with
          | None => Ok (Some (semanticSequence a))
          | Some first => if first == semanticSequence a then Ok (Some first) else Err ()
          end) → foldR F first l1 = foldR F first l2) as Hfold.
{ intros l1 l2 first Hl F HF. revert first.
induction Hl as [|a b l1 l2 (_ & Hc & Hf) _ IH]; intros first; [done|]. cbn.
assert (semanticSequence a = semanticSequence b) as Hseq.
{ apply (f_equal (fmap (λ x : Digest * FactKind * ObservationSource, x.1.1))) in Hf.
  by rewrite <- !list_fmap_compose in Hf. }
replace (F first a) with (F first b) by (subst F; cbn; by rewrite Hc, Hseq).
by destruct (F first b). }
by rewrite (Hfold _ _ None Hs _ eq_refl).
Qed.

Lemma scenario_same recs refs :
same_behaviour → compareScenario norm sg = Ok (recs, refs) → recs = [].
Proof.
intros Hs (s & Hinv & Hset & ->)%compareScenario_inv.
assert (∀ sd k v, store sd s !! k = Some v → v_consumed v = false → False) as Hleft.
{ intros sd k v Hv Hc. pose proof (settled_unconsumed s sd k v Hinv (Hset k) Hv Hc) as E.
apply same_none in E; [|done].
by apply (variant_nonempty (group_side sd sg) k v (pi_variant s Hinv sd k v Hv)). }
assert (∀ sd r, r ∈ cs_records s → factsWith (recordKey sd r) (group_side sd sg) ≠ []) as Hne.
{ intros sd r Hr. destruct (pi_records s Hinv sd r Hr) as (v & Hv & _).
eapply variant_nonempty. by apply (pi_variant s Hinv). }
assert (∀ r, r ∉ cs_records s) as Hpairs.
{ intros r Hr. destruct (pi_reason s Hinv r Hr) as (_ & _ & [(_ & Hk & Hocc & _)|(_ & _ & H0 & _)]).
- destruct (pi_records s Hinv OnBase r Hr) as (b & Hb & _ & Rb).
  destruct (pi_records s Hinv OnHead r Hr) as (h & Hh & _ & Rh).
  pose proof (rep_occurrence _ _ _ Rb) as Ob. pose proof (rep_occurrence _ _ _ Rh) as Oh.
  cbn [dr_Occurrence] in Ob, Oh. rewrite Ob, Oh in Hocc.
  rewrite (iv_profile _ _ _ (pi_variant s Hinv _ _ _ Hb)) in Hocc.
  rewrite (iv_profile _ _ _ (pi_variant s Hinv _ _ _ Hh)) in Hocc.
  cbn [group_side] in Hocc. rewrite Hk, same_occurrences, occurrenceEqual_refl in Hocc; done.
- apply (same_none _ OnBase Hs) in H0. by apply (Hne OnBase r Hr). }
assert (orderRecord norm sg = None) as ->.
{ unfold orderRecord. rewrite stableSequences_same by done.
destruct (stableSequences _); [|done]. destruct (_ || _); [done|].
rewrite (bool_decide_true (_ = _)) by done. by rewrite orb_true_r. }
assert (∀ onHead other, leftovers norm (sg_id sg) onHead other
        (store (if (onHead : bool) then OnHead else OnBase) s) = []) as Hnil.
{ intros onHead other. destruct (leftovers _ _ _ _ _) as [|r l] eqn:El; [done|]. exfalso.
assert (r ∈ r :: l) as Hr by apply list_elem_of_here. rewrite <- El in Hr.
apply elem_of_leftovers in Hr as (k & v & Hv & Hc & _). by eapply Hleft. }
rewrite (Hnil false), (Hnil true), !app_nil_r. destruct (cs_records s) as [|r l] eqn:E; [done|].
exfalso. apply (Hpairs r). apply list_elem_of_here.
Qed.

(** *** The comparison of a scenario returns *)

Lemma assess_total attempts :
(∀ f, f ∈ attempts ≫= at_Facts → ∃ d, typedAnchorDigest f = Ok d) →
∃ m, assess attempts (buildVariants attempts) = Ok m.
Proof.
intros Hok. unfold assess. set (m0 := buildVariants attempts).
assert (∀ l m, (∀ k v, m !! k = Some v → ∃ v0, m0 !! k = Some v0 ∧ v_facts v = v_facts v0) →
∃ m', foldR (assessStep attempts) m l = Ok m') as Hfold; [|by apply Hfold; eauto].
induction l as [|k l IH]; intros m Hm; [by eexists|]. cbn [foldR]. unfold assessStep at 1.
destruct (m !! k) as [v|] eqn:Hk; [|by apply IH].
destruct (v_facts v) as [|f fs] eqn:Hf; [by apply IH|].
destruct (Hm k v Hk) as (v0 & Hv0 & Hvf).
pose proof (buildVariants_spec attempts k) as Hb. fold m0 in Hb. rewrite Hv0 in Hb.
destruct Hb as (Hfw & _). destruct (Hok f) as [d ->].
{ assert (f ∈ factsWith k attempts) as Hin by (rewrite <- Hfw, <- Hvf, Hf; apply list_elem_of_here).
by apply list_elem_of_filter in Hin as [_ ?]. }
apply IH. intros k' v'. destruct (decide (k = k')) as [<-|Hne].
- rewrite lookup_insert_eq. intros [= <-]. eauto.
- rewrite lookup_insert_ne by done. apply Hm.
Qed.

Lemma scenario_total :
(∀ sd f, f ∈ group_side sd sg ≫= at_Facts → ∃ d, typedAnchorDigest f = Ok d) →
∃ recs refs, compareScenario norm sg = Ok (recs, refs).
Proof.
intros Hok. unfold compareScenario.
destruct (assess_total (sg_base sg) (Hok OnBase)) as [mb ->].
destruct (assess_total (sg_head sg) (Hok OnHead)) as [mh ->]. cbn. eauto.
Qed.
End passes.
