(* ===== verification/CompareDoc.v ===== *)
(** * The comparator on whole documents ([internal/compare/comparator.go])

    What [validateTraceDocument] establishes about the attempts it accepts, how
    [groupScenarios] partitions them, and the guarantees of [compareDocument]
    about the delta it freezes. *)

From stdpp Require Import prelude gmap strings sorting.
From Stdlib Require Import ZArith Lia.
From S2P Require Import Prelude GoStd Sha256 Framing Model Json Observe Compare CompareSpec.
Local Open Scope Z_scope.

(** ** Specification vocabulary *)

Definition rev_side (a : AttemptTrace) : side :=
  if at_Revision a == RevisionKindBase then OnBase else OnHead.

#[global] Instance side_eq_dec : EqDecision side.
Proof. solve_decision. Defined.

(** The attempts of one scenario and revision, by repetition. *)
Definition scenarioAttempts (sd : side) (scenario : string) (l : list AttemptTrace) : list AttemptTrace :=
  sortAttempts (filter (λ a, at_ScenarioID a = scenario ∧ rev_side a = sd) l).

Record fact_valid (a : AttemptTrace) (f : Fact) : Prop := {
  fv_id : f_ID f ≠ ""%string;
  fv_digest : validDigest (f_SemanticDigest f) = true;
  fv_kind : f_Kind f ∈ SupportedFactKinds;
  fv_source : isSupportedSource (f_Source f) = true;
  fv_payload : validateFactPayload f = Ok ();
  fv_evidence ref : ref ∈ f_Evidence f → badReference a ref = false;
}.

(** A deterministic, duplicate-free inventory of attempts. *)
Record inventory (limits : Limits) (l : list AttemptTrace) : Prop := {
  inv_attempts : NoDup (at_AttemptID <$> l);
  inv_coordinates : NoDup (coordinate <$> l);
  inv_ordinals i a : l !! i = Some a → at_Ordinal a = Z.of_nat i + 1;
  inv_revisions a : a ∈ l → at_Revision a ∈ [RevisionKindBase; RevisionKindHead] ∧ at_Repetition a ≠ 0;
  inv_order i j a b : l !! i = Some a → l !! j = Some b → (i <= j)%nat →
    at_Revision a = RevisionKindHead → at_Revision b = RevisionKindHead;
  inv_factIDs : NoDup (f_ID <$> (l ≫= at_Facts));
  inv_facts a f : a ∈ l → f ∈ at_Facts a → fact_valid a f;
  inv_count : Z.of_nat (length (l ≫= at_Facts)) <= Z.max 0 (l_MaxFactsTotal limits);
}.

(** ** Validation *)

Lemma validateFact_inv a seen f seen' :
  validateFact a seen f = Ok seen' →
  fact_valid a f ∧ (f_ID f ∉ seen) ∧ seen' = ({[ f_ID f ]} ∪ seen).
Proof.
  unfold validateFact. intros H. inv_ok. go_bool.
  match goal with E : foldR _ _ _ = Ok _ |- _ => pose proof (proj1 (foldR_reject _ _ _ _) E) as Hev end.
  split_and!; [|done|done].
  split; [done|done| |done|by destruct x|done].
  by apply bool_decide_eq_true in H3.
Qed.

Lemma validateFacts_inv a seen l seen' :
  foldR (validateFact a) seen l = Ok seen' →
  (∀ f, f ∈ l → fact_valid a f) ∧ NoDup (f_ID <$> l) ∧ (∀ f, f ∈ l → f_ID f ∉ seen)
  ∧ ∀ id, id ∈ seen' ↔ id ∈ seen ∨ id ∈ f_ID <$> l.
Proof.
  revert seen. induction l as [|f l IH]; cbn; intros seen H.
  { simplify_eq. split_and!; [by intros f ?%not_elem_of_nil|constructor|by intros f ?%not_elem_of_nil|].
    intros id. rewrite elem_of_nil. tauto. }
  destruct (validateFact a seen f) as [seen1|] eqn:Hf; [|done].
  apply validateFact_inv in Hf as (Hv & Hnew & ->). apply IH in H as (Hvs & Hnd & Hout & Hin).
  split_and!.
  - intros g [->|Hg]%elem_of_cons; auto.
  - constructor; [|done]. intros (g & Hfg & Hg)%list_elem_of_fmap.
    apply (Hout g Hg). set_solver.
  - intros g [->|Hg]%elem_of_cons; [done|]. specialize (Hout g Hg). set_solver.
  - intros id. rewrite Hin, elem_of_cons. set_solver.
Qed.

(** What [validateAttempt] has established after the attempts [l]. *)
Record checked (limits : Limits) (l : list AttemptTrace) (s : vtState) : Prop := {
  ck_inventory : inventory limits l;
  ck_attempts id : id ∈ vt_seenAttempts s ↔ id ∈ at_AttemptID <$> l;
  ck_coordinates c : c ∈ vt_seenCoordinates s ↔ c ∈ coordinate <$> l;
  ck_facts id : id ∈ vt_seenFacts s ↔ id ∈ f_ID <$> (l ≫= at_Facts);
  ck_count : vt_facts s = Z.of_nat (length (l ≫= at_Facts));
  ck_sawHead : vt_sawHead s = true ↔ ∃ a, a ∈ l ∧ at_Revision a = RevisionKindHead;
  ck_next : vt_next s = Z.of_nat (length l) + 1;
}.

Lemma bind_snoc {A B} (f : A → list B) l x : (l ++ [x]) ≫= f = (l ≫= f) ++ f x.
Proof. rewrite bind_app. cbn. by rewrite app_nil_r. Qed.

Lemma NoDup_snoc {A} (l : list A) x : NoDup (l ++ [x]) ↔ NoDup l ∧ x ∉ l.
Proof.
  rewrite NoDup_app. split.
  - intros (H1 & H2 & _). split; [done|]. intros Hx. by apply (H2 x Hx), list_elem_of_singleton.
  - intros [H1 H2]. split_and!; [done| |apply NoDup_singleton].
    by intros y Hy ->%list_elem_of_singleton.
Qed.

(** The verdict on the revision, by cases. *)
Lemma revision_inv (rev : RevisionKind) (saw : bool) (e1 e2 : CompareError) b :
  (if rev == RevisionKindHead then Ok true
   else if (rev == RevisionKindBase) && saw then Err e1
   else if rev != RevisionKindBase then Err e2 else Ok saw) = Ok b →
  (rev = RevisionKindHead ∧ b = true) ∨ (rev = RevisionKindBase ∧ saw = false ∧ b = false).
Proof.
  destruct (rev == RevisionKindHead) eqn:H1; go_bool; [intros [= <-]; by left|].
  destruct (rev == RevisionKindBase) eqn:H2; [|done]. cbn. go_bool. destruct saw; [done|].
  intros [= <-]. by right.
Qed.

Lemma validateAttempt_checked limits l s a s' :
  checked limits l s → validateAttempt limits s a = Ok s' → checked limits (l ++ [a]) s'.
Proof.
  intros [[] Ca Cc Cf Cn Ch Cx] H. unfold validateAttempt in H. inv_ok.
  match goal with E : foldR _ _ _ = Ok _ |- _ => apply validateFacts_inv in E as (Fv & Fnd & Fnew & Fin) end.
  match goal with E : _ = Ok x |- _ => apply revision_inv in E; rename E into Hrev end.
  go_bool. subst s'.
  assert (∀ P : AttemptTrace → Prop, (∃ b, b ∈ l ++ [a] ∧ P b) ↔ (∃ b, b ∈ l ∧ P b) ∨ P a) as Hex.
  { intros P. split.
    - intros (b & [Hb| ->%list_elem_of_singleton]%elem_of_app & ?); eauto.
    - intros [(b & Hb & ?)|?]; [exists b|exists a]; rewrite elem_of_app, list_elem_of_singleton; auto. }
  split; cbn; [split| | | | | |].
  - rewrite fmap_app. apply NoDup_snoc. split; [done|]. by rewrite <- Ca.
  - rewrite fmap_app. apply NoDup_snoc. split; [done|]. by rewrite <- Cc.
  - intros i b. rewrite lookup_snoc_Some. intros [[_ Hi]|[-> <-]]; [by apply inv_ordinals0|]. lia.
  - intros b [Hb| ->%list_elem_of_singleton]%elem_of_app; [by apply inv_revisions0|].
    split; [|done]. destruct Hrev as [[-> _]|(-> & _)]; rewrite !elem_of_cons; auto.
  - intros i j b c. rewrite !lookup_snoc_Some. intros [[Hi Hb]|[-> <-]] [[Hj Hc]|[-> <-]] Hij Hhead.
    + by apply (inv_order0 i j b c).
    + destruct Hrev as [[-> _]|(_ & Hsaw & _)]; [done|].
      assert (vt_sawHead s = true) as Hsaw'; [|congruence]. apply Ch. exists b. split; [|done].
      by eapply list_elem_of_lookup_2.
    + apply lookup_lt_Some in Hc. lia.
    + done.
  - rewrite bind_snoc, fmap_app. apply NoDup_app. split_and!; [done| |done].
    intros id Hid (f & -> & Hf)%list_elem_of_fmap. apply (Fnew f Hf). by apply Cf.
  - intros b f [Hb| ->%list_elem_of_singleton]%elem_of_app Hf; [by eapply inv_facts0|by apply Fv].
  - rewrite bind_snoc, length_app. lia.
  - intros id. rewrite fmap_app, elem_of_app, elem_of_union, elem_of_singleton, Ca. cbn.
    rewrite list_elem_of_singleton. tauto.
  - intros id. rewrite fmap_app, elem_of_app, elem_of_union, elem_of_singleton, Cc. cbn.
    rewrite list_elem_of_singleton. tauto.
  - intros id. rewrite bind_snoc, fmap_app, elem_of_app, Fin, Cf. done.
  - rewrite bind_snoc, length_app. lia.
  - rewrite Hex, <- Ch. destruct Hrev as [[-> ->]|(-> & Hs & ->)]; [tauto|]. rewrite Hs.
    split; [done|]. by intros [?|?].
  - rewrite length_app. cbn. lia.
Qed.

Lemma checked_nil limits : checked limits [] (mkVtState ∅ ∅ ∅ 0 false 1).
Proof.
  split; cbn; [split; cbn| | | | | |]; try done; try (intros; by rewrite elem_of_nil, elem_of_empty).
  - apply NoDup_nil_2.
  - apply NoDup_nil_2.
  - intros a []%not_elem_of_nil.
  - apply NoDup_nil_2.
  - intros a f []%not_elem_of_nil.
  - lia.
  - split; [done|]. by intros (? & ?%not_elem_of_nil & _).
Qed.

Lemma validateTraceDocument_inv doc limits :
  validateTraceDocument doc limits = Ok () →
  inventory limits (tsd_Attempts doc) ∧ validDigest (tsd_PlanDigest doc) = true
  ∧ validDigest (tsd_ManifestDigest doc) = true ∧ tsd_Attempts doc ≠ []
  ∧ tsd_SchemaVersion doc = TraceSetSchemaV1Alpha1
  ∧ nzp_Version (tsd_Profile doc) = ProfileVersionV1Alpha1.
Proof.
  unfold validateTraceDocument. intros H. inv_ok. go_bool.
  assert (∀ l2 l1 s s', checked limits l1 s → foldR (validateAttempt limits) s l2 = Ok s' →
            checked limits (l1 ++ l2) s') as Hfold.
  { induction l2 as [|a l2 IH]; intros l1 s s' Hc; cbn.
    - intros [= <-]. by rewrite app_nil_r.
    - destruct (validateAttempt limits s a) as [s1|] eqn:Hs1; [|done]. intros Hf.
      rewrite (cons_middle a l1 l2), app_assoc. eapply IH; [|done]. by eapply validateAttempt_checked. }
  split_and!; try done.
  - match goal with E : foldR _ _ _ = Ok _ |- _ => apply (Hfold _ []) in E; [by destruct E|] end.
    apply checked_nil.
  - intros E. rewrite E in *. done.
Qed.

(** A validated fact has an unambiguous matching key. *)
Lemma nul_free_app s t : nul_free (s +:+ t) ↔ nul_free s ∧ nul_free t.
Proof. unfold nul_free. rewrite to_bytes_app, not_elem_of_app. done. Qed.

Lemma validDigest_nul_free d : validDigest d = true → nul_free d.
Proof.
  unfold validDigest. intros H. go_bool.
  match goal with E : has_prefix _ _ = true |- _ => apply has_prefix_spec in E as [t ->] end.
  apply nul_free_app. split; [by apply (bool_decide_unpack _); vm_compute|].
  match goal with E : str_forallb _ _ = true |- _ => rename E into Hh end.
  change 7%nat with (String.length "sha256:") in Hh. rewrite str_drop_app in Hh.
  unfold str_forallb in Hh. rewrite forallb_forall in Hh.
  intros Hin%list_elem_of_In%Hh. done.
Qed.

Lemma supported_kind_nul_free k : k ∈ SupportedFactKinds → nul_free k.
Proof.
  intros Hk. assert (Forall nul_free SupportedFactKinds) as HF.
  { apply (bool_decide_unpack _). vm_compute. done. }
  rewrite Forall_forall in HF. by apply HF.
Qed.

Lemma inventory_keyed limits l : inventory limits l → keyed l.
Proof.
  intros Hi f (a & Hf & Ha)%list_elem_of_bind.
  destruct (inv_facts _ _ Hi a f Ha Hf) as [_ Hd Hk _ _ _].
  split; [by apply validDigest_nul_free|by apply supported_kind_nul_free].
Qed.

(** ** Grouping *)

Definition groupInv (l : list AttemptTrace) (s : gmap string nat * list scenarioGroup) : Prop :=
  (∀ sc i, s.1 !! sc = Some i ↔ ∃ g, s.2 !! i = Some g ∧ sg_id g = sc) ∧
  (∀ i g sd, s.2 !! i = Some g →
     group_side sd g = filter (λ a, at_ScenarioID a = sg_id g ∧ rev_side a = sd) l) ∧
  (∀ a, a ∈ l → is_Some (s.1 !! at_ScenarioID a)) ∧
  (∀ i g, s.2 !! i = Some g → ∃ a, a ∈ l ∧ at_ScenarioID a = sg_id g).

Lemma group_side_addAttempt sd a g :
  group_side sd (addAttempt a g) = group_side sd g ++ (if decide (rev_side a = sd) then [a] else []).
Proof.
  unfold addAttempt, rev_side. destruct (at_Revision a == RevisionKindBase), sd; cbn; by rewrite ?app_nil_r.
Qed.
Lemma sg_id_addAttempt a g : sg_id (addAttempt a g) = sg_id g.
Proof. unfold addAttempt. by destruct (_ == _). Qed.

Lemma filter_snoc_group sc sd l a :
  filter (λ b, at_ScenarioID b = sc ∧ rev_side b = sd) (l ++ [a])
  = filter (λ b, at_ScenarioID b = sc ∧ rev_side b = sd) l ++
    (if decide (at_ScenarioID a = sc) then if decide (rev_side a = sd) then [a] else [] else []).
Proof.
  rewrite filter_app. f_equal. rewrite filter_cons.
  repeat case_decide; try done; tauto.
Qed.

Lemma groupStep_inv l s a : groupInv l s → groupInv (l ++ [a]) (groupStep s a).
Proof.
  destruct s as [idx groups]. intros (Hidx & Hside & Hin & Hex). unfold groupStep. cbn in *.
  assert (∀ b, b ∈ l → b ∈ l ++ [a]) as Hold by (intros b Hb; apply elem_of_app; by left).
  assert (a ∈ l ++ [a]) as Hlast by (apply elem_of_app; right; by apply list_elem_of_singleton).
  destruct (idx !! at_ScenarioID a) as [i|] eqn:Hi.
  - destruct (proj1 (Hidx _ _) Hi) as (g0 & Hg0 & Hid0). split_and!; cbn.
    + intros sc j. rewrite Hidx. split.
      * intros (g & Hg & <-). destruct (decide (i = j)) as [<-|Hne].
        -- exists (addAttempt a g). rewrite list_lookup_alter_eq, Hg. split; [done|apply sg_id_addAttempt].
        -- exists g. by rewrite list_lookup_alter_ne.
      * intros (g & Hg & <-). destruct (decide (i = j)) as [<-|Hne].
        -- rewrite list_lookup_alter_eq, Hg0 in Hg. injection Hg as <-. exists g0. by rewrite sg_id_addAttempt.
        -- rewrite list_lookup_alter_ne in Hg by done. eauto.
    + intros j g sd Hg. destruct (decide (i = j)) as [<-|Hne].
      * rewrite list_lookup_alter_eq, Hg0 in Hg. injection Hg as <-.
        rewrite group_side_addAttempt, sg_id_addAttempt, filter_snoc_group.
        destruct (decide (at_ScenarioID a = sg_id g0)); [|congruence].
        by rewrite (Hside i g0 sd Hg0).
      * rewrite list_lookup_alter_ne in Hg by done. rewrite filter_snoc_group, decide_False.
        -- by rewrite app_nil_r, (Hside j g sd Hg).
        -- intros E. apply Hne. assert (idx !! at_ScenarioID a = Some j) by (apply Hidx; eauto). congruence.
    + intros b [Hb| ->%list_elem_of_singleton]%elem_of_app; [by apply Hin|by eexists].
    + intros j g. destruct (decide (i = j)) as [<-|Hij].
      * rewrite list_lookup_alter_eq, Hg0. intros [= <-]. exists a. by rewrite sg_id_addAttempt.
      * rewrite list_lookup_alter_ne by done. intros (b & ? & ?)%Hex. eauto.
  - assert (∀ j g, groups !! j = Some g → sg_id g ≠ at_ScenarioID a) as Hnew.
    { intros j g Hg E. assert (idx !! at_ScenarioID a = Some j) by (apply Hidx; eauto). congruence. }
    set (g0 := mkScenarioGroup (at_ScenarioID a) [] []). split_and!; cbn.
    + intros sc j. destruct (decide (at_ScenarioID a = sc)) as [<-|Hne].
      * rewrite lookup_insert_eq. split.
        -- intros [= <-]. exists (addAttempt a g0). split; [|apply sg_id_addAttempt].
           apply lookup_snoc_Some. by right.
        -- intros (g & [[_ Hg]|[-> _]]%lookup_snoc_Some & E); [by destruct (Hnew j g Hg)|done].
      * rewrite lookup_insert_ne, Hidx by done. split; intros (g & Hg & <-).
        -- exists g. split; [|done]. by apply lookup_app_l_Some.
        -- apply lookup_snoc_Some in Hg as [[_ Hg]|[-> <-]]; [eauto|]. by rewrite sg_id_addAttempt in Hne.
    + intros j g sd [[_ Hg]|[-> <-]]%lookup_snoc_Some; rewrite filter_snoc_group.
      * rewrite decide_False by (intros E; by apply (Hnew j g Hg)). by rewrite app_nil_r, (Hside j g sd Hg).
      * rewrite group_side_addAttempt, sg_id_addAttempt. cbn [sg_id g0].
        destruct (decide (at_ScenarioID a = at_ScenarioID a)); [|done]. f_equal.
        rewrite filter_none; [by destruct sd|]. intros b Hb [E _].
        destruct (Hin b Hb) as [j Hj]. cbn in E. congruence.
    + intros b [Hb| ->%list_elem_of_singleton]%elem_of_app.
      * destruct (decide (at_ScenarioID a = at_ScenarioID b)) as [->|Hne]; [by rewrite lookup_insert_eq; eexists|].
        rewrite lookup_insert_ne by done. by apply Hin.
      * rewrite lookup_insert_eq. by eexists.
    + intros j g [[_ Hg]|[-> <-]]%lookup_snoc_Some.
      * destruct (Hex j g Hg) as (b & ? & ?). eauto.
      * exists a. by rewrite sg_id_addAttempt.
Qed.

Lemma groupFold_inv l : groupInv l (foldl groupStep (∅, []) l).
Proof.
  induction l as [|a l IH] using rev_ind.
  - split_and!; cbn; [|by intros *; rewrite lookup_nil|by intros a ?%not_elem_of_nil|by intros *; rewrite lookup_nil].
    intros sc i. rewrite lookup_empty. split; [done|]. intros (g & Hg & _). by rewrite lookup_nil in Hg.
  - rewrite foldl_app. by apply groupStep_inv.
Qed.

(** Every scenario has exactly one group, holding its attempts in repetition order. *)
Lemma groupScenarios_spec l :
  (∀ g, g ∈ groupScenarios l → ∀ sd, group_side sd g = scenarioAttempts sd (sg_id g) l) ∧
  (∀ a, a ∈ l → ∃ g, g ∈ groupScenarios l ∧ sg_id g = at_ScenarioID a) ∧
  NoDup (sg_id <$> groupScenarios l) ∧
  (∀ g, g ∈ groupScenarios l → ∃ a, a ∈ l ∧ at_ScenarioID a = sg_id g).
Proof.
  destruct (groupFold_inv l) as (Hidx & Hside & Hin & Hne). unfold groupScenarios. split_and!.
  - intros g (g0 & -> & (i & Hi)%list_elem_of_lookup)%list_elem_of_fmap sd. unfold scenarioAttempts. cbn [sg_id].
    rewrite <- (Hside i g0 sd Hi). by destruct sd.
  - intros a Ha. destruct (Hin a Ha) as [i Hi]. apply Hidx in Hi as (g & Hg & Hid).
    eexists. split; [apply list_elem_of_fmap_2, (list_elem_of_lookup_2 _ _ _ Hg)|done].
  - rewrite <- list_fmap_compose. apply NoDup_alt. intros i j sc.
    rewrite !list_lookup_fmap, !fmap_Some. intros (g & Hg & ->) (h & Hh & E). cbn in E.
    assert ((foldl groupStep (∅, []) l).1 !! sg_id g = Some i) by (apply Hidx; eauto).
    assert ((foldl groupStep (∅, []) l).1 !! sg_id g = Some j) by (apply Hidx; eauto). congruence.
  - intros g (g0 & -> & (i & Hi)%list_elem_of_lookup)%list_elem_of_fmap. apply (Hne i g0 Hi).
Qed.

(** ** The loop over the groups *)

(** The records one group contributes, in order. *)
Definition groupRecords (norm : string) (g : scenarioGroup) (rs : list DeltaRecord) : Prop :=
  ∃ recs refs, compareScenario norm g = Ok (recs, refs) ∧
    rs = (coverageRecord norm g <$> (scenarioComparison g).2) ++ recs.

Lemma compareGroup_inv ctx limits norm s g s' :
  compareGroup ctx limits norm s g = Ok s' →
  ∃ rs, groupRecords norm g rs ∧ cd_records s' = cd_records s ++ rs
    ∧ cd_scenarios s' = cd_scenarios s ++ [(scenarioComparison g).1]
    ∧ Z.of_nat (length (cd_records s')) <= l_MaxDeltaRecords limits.
Proof.
  unfold compareGroup. intros H. apply bind_Ok in H as ([] & _ & H).
  destruct (scenarioComparison g) as [sc lims] eqn:Hsc.
  apply bind_Ok in H as ([recs refs] & Hrecs & H).
  apply reject_bind_Ok in H as [_ H]. apply reject_bind_Ok in H as [Hlim H].
  apply Ok_inj in H as <-. go_bool. eexists. split_and!; [|done|done|done].
  unfold groupRecords. rewrite Hsc. eauto.
Qed.

Lemma compareGroups_inv ctx limits norm groups s s' :
  foldR (compareGroup ctx limits norm) s groups = Ok s' →
  ∃ rss, Forall2 (groupRecords norm) groups rss
    ∧ cd_records s' = cd_records s ++ concat rss
    ∧ cd_scenarios s' = cd_scenarios s ++ ((λ g, (scenarioComparison g).1) <$> groups).
Proof.
  revert s. induction groups as [|g groups IH]; cbn [foldR]; intros s H.
  { apply Ok_inj in H as <-. exists []. cbn. by rewrite !app_nil_r. }
  destruct (compareGroup ctx limits norm s g) as [s1|] eqn:Hs1; [|done].
  apply compareGroup_inv in Hs1 as (rs & Hrs & Er & Es & _).
  apply IH in H as (rss & Hrss & Er' & Es'). exists (rs :: rss). split_and!.
  - by constructor.
  - by rewrite Er', Er, <- app_assoc.
  - rewrite Es', Es, <- app_assoc. done.
Qed.

Lemma scenario_keyed limits l g :
  inventory limits l → g ∈ groupScenarios l → ∀ sd, keyed (group_side sd g).
Proof.
  intros Hi Hg sd f Hf. apply (inventory_keyed limits l Hi).
  destruct (groupScenarios_spec l) as (Hgs & _). rewrite (Hgs g Hg) in Hf.
  apply list_elem_of_bind in Hf as (a & Hf & Ha). apply list_elem_of_bind. exists a. split; [done|].
  unfold scenarioAttempts, sortAttempts in Ha. rewrite stable_sort_Permutation in Ha.
  by apply list_elem_of_filter in Ha as [_ ?].
Qed.

Lemma coverageRecord_unobserved norm g lim sd : dr_Observed sd (coverageRecord norm g lim) = false.
Proof. by destruct sd. Qed.

Lemma groupRecords_ids norm g rs r :
  (∀ sd, keyed (group_side sd g)) → groupRecords norm g rs → r ∈ rs →
  dr_ID r ≠ ""%string ∧ dr_ScenarioIDs r = [sg_id g].
Proof.
  intros Hk (recs & refs & Hc & ->) [(lim & -> & _)%list_elem_of_fmap|Hr]%elem_of_app; [done|].
  split; [by eapply scenario_ids|]. by eapply scenario_sound.
Qed.

Lemma elem_of_groupRecords norm groups rss r :
  Forall2 (groupRecords norm) groups rss →
  r ∈ concat rss ↔ ∃ g rs, g ∈ groups ∧ groupRecords norm g rs ∧ r ∈ rs ∧ rs ∈ rss.
Proof.
  induction 1 as [|g rs groups rss Hg Hall IH]; cbn.
  - split; [by intros ?%not_elem_of_nil|by intros (? & ? & ?%not_elem_of_nil & _)].
  - rewrite elem_of_app, IH. split.
    + intros [Hr|(g' & rs' & Hg' & ? & ? & ?)]; [exists g, rs|exists g', rs'];
        rewrite !elem_of_cons; auto.
    + intros (g' & rs' & _ & Hgr & Hr & [->|Hrs]%elem_of_cons); [by left|].
      right. assert (∃ h, h ∈ groups ∧ groupRecords norm h rs') as (h & ? & ?); [|by exists h, rs'].
      apply list_elem_of_lookup in Hrs as [i Hi].
      destruct (Forall2_lookup_r _ _ _ _ _ Hall Hi) as (h & Hh & ?). exists h.
      split; [by eapply list_elem_of_lookup_2|done].
Qed.

(** A successful comparison, taken apart. *)
Lemma compareDocument_inv limits ctx doc fz :
  compareDocument limits ctx doc = Ok fz →
  ∃ rss, inventory limits (tsd_Attempts doc)
    ∧ Forall2 (groupRecords ProfileVersionV1Alpha1) (groupScenarios (tsd_Attempts doc)) rss
    ∧ bd_Records (fz_doc fz) = sortRecords (concat rss)
    ∧ bd_Summary (fz_doc fz) = summarize (bd_Records (fz_doc fz))
    ∧ bd_ScenarioIDs (fz_doc fz) = sg_id <$> groupScenarios (tsd_Attempts doc)
    ∧ bd_ScenarioComparisons (fz_doc fz)
      = (λ g, (scenarioComparison g).1) <$> groupScenarios (tsd_Attempts doc)
    ∧ fz_json fz = render (json_of_BehavioralDelta (fz_doc fz))
    ∧ Z.of_nat (length (fz_json fz)) <= l_MaxDeltaJSONBytes limits
    ∧ fz_digest fz = DigestBehavioralDeltaJSON (fz_json fz).
Proof.
  unfold compareDocument. intros H. apply bind_Ok in H as ([] & _ & H).
  apply bind_Ok in H as ([] & Hv & H).
  destruct (validateTraceDocument_inv _ _ Hv) as (Hinv & _ & _ & _ & _ & Hprof). rewrite Hprof in H.
  cbv zeta in H. apply bind_Ok in H as (s & Hs & H). apply reject_bind_Ok in H as [Hlen H].
  apply Ok_inj in H as <-. go_bool.
  apply compareGroups_inv in Hs as (rss & Hrss & Er & Es). cbn [cd_records cd_scenarios app] in Er, Es.
  assert (ensureID (cp_Version comparisonProfile) ProfileVersionV1Alpha1 <$> sortRecords (cd_records s)
          = sortRecords (concat rss)) as Eid.
  { rewrite Er. rewrite <- (list_fmap_id (sortRecords (concat rss))) at 2. apply list_fmap_ext.
    intros i r Hr%list_elem_of_lookup_2. unfold sortRecords in Hr.
    rewrite stable_sort_Permutation in Hr.
    apply (elem_of_groupRecords _ _ _ _ Hrss) in Hr as (g & rs & Hg & Hgr & Hr & _).
    destruct (groupRecords_ids _ _ _ _ (scenario_keyed _ _ _ Hinv Hg) Hgr Hr) as [Hid _].
    unfold ensureID. by rewrite bool_decide_false. }
  exists rss. split_and!; cbn [fz_doc fz_json fz_digest]; done.
Qed.

(** ** From scenarios to the document *)

(** Facts of the document under one scenario, revision and key. *)
Definition docFacts (doc : TraceSetDocument) (sd : side) (sc k : string) : list Fact :=
  factsWith k (scenarioAttempts sd sc (tsd_Attempts doc)).

(** Key [k] occurs in both revisions of the scenario, with equal profiles. *)
Definition doc_matched (doc : TraceSetDocument) (sc k : string) : Prop :=
  (∀ sd, docFacts doc sd sc k ≠ []) ∧
  occurrenceEqual (occurrences (scenarioAttempts OnBase sc (tsd_Attempts doc)) k)
    (occurrences (scenarioAttempts OnHead sc (tsd_Attempts doc)) k) = true.

(** The record is about the kind, source and semantic digest of [f]. *)
Definition about (sd : side) (r : DeltaRecord) (f : Fact) : Prop :=
  dr_FactKind r = f_Kind f ∧ dr_Source r = f_Source f ∧ dr_Digests sd r = [f_SemanticDigest f].

(** What the records that report a side report there. *)
Definition reportedKeys (sd : side) (l : list DeltaRecord) : list (list string * string) :=
  (λ r, (dr_ScenarioIDs r, recordKey sd r)) <$> filter (λ r, dr_Observed sd r = true) l.

Lemma elem_of_docFacts doc sd sc k f :
  f ∈ docFacts doc sd sc k ↔
  factKey f = k ∧ ∃ a, a ∈ tsd_Attempts doc ∧ at_ScenarioID a = sc ∧ rev_side a = sd ∧ f ∈ at_Facts a.
Proof.
  unfold docFacts, scenarioAttempts, sortAttempts. rewrite elem_of_factsWith.
  split; intros (Hk & a & Ha & Hf); (split; [done|]); exists a.
  - rewrite stable_sort_Permutation, list_elem_of_filter in Ha. naive_solver.
  - rewrite stable_sort_Permutation, list_elem_of_filter. naive_solver.
Qed.

(** A side that reports a variant is about each fact of its key. *)
Lemma reports_about attempts sd k r v f :
  keyed attempts → is_variant attempts k v → reports sd r v →
  f ∈ attempts ≫= at_Facts → factKey f = k → about sd r f.
Proof.
  intros Hkeyed Hv Hr Hf Hk. destruct (variant_fact _ _ _ Hv) as (g & Hg & Hkg & Ek & Es & Ed).
  destruct (Hkeyed f Hf), (Hkeyed g Hg).
  destruct (factKey_inj f g) as (Ed' & Ek' & Es'); [done..|congruence|].
  unfold about. rewrite (rep_kind _ _ _ Hr), (rep_source _ _ _ Hr), (rep_digests _ _ _ Hr). split_and!; congruence.
Qed.

Section document.
Context (limits : Limits) (ctx : Context) (doc : TraceSetDocument) (fz : FrozenDelta).
Context (Hok : compareDocument limits ctx doc = Ok fz).

(** Each record comes from one group: the coverage notice or the scenario's records. *)
Lemma doc_record r :
r ∈ bd_Records (fz_doc fz) →
∃ g recs refs, g ∈ groupScenarios (tsd_Attempts doc)
∧ (∀ sd, group_side sd g = scenarioAttempts sd (sg_id g) (tsd_Attempts doc))
∧ (∀ sd, keyed (group_side sd g))
∧ compareScenario ProfileVersionV1Alpha1 g = Ok (recs, refs)
∧ (r ∈ recs ∨ ∃ lim, lim ∈ (scenarioComparison g).2 ∧ r = coverageRecord ProfileVersionV1Alpha1 g lim).
Proof.
destruct (compareDocument_inv _ _ _ _ Hok) as (rss & Hinv & Hrss & Er & _). rewrite Er.
unfold sortRecords. rewrite stable_sort_Permutation.
intros (g & rs & Hg & (recs & refs & Hc & ->) & Hr & _)%(elem_of_groupRecords _ _ _ _ Hrss).
exists g, recs, refs. split_and!; [done| | |done|].
- by apply groupScenarios_spec.
- by apply (scenario_keyed limits (tsd_Attempts doc)).
- apply elem_of_app in Hr as [(lim & -> & ?)%list_elem_of_fmap|?]; [right; eauto|by left].
Qed.

(** A group's records are all in the delta. *)
Lemma doc_group a :
a ∈ tsd_Attempts doc →
∃ g recs refs, sg_id g = at_ScenarioID a
∧ (∀ sd, group_side sd g = scenarioAttempts sd (at_ScenarioID a) (tsd_Attempts doc))
∧ (∀ sd, keyed (group_side sd g))
∧ compareScenario ProfileVersionV1Alpha1 g = Ok (recs, refs)
∧ ∀ r, r ∈ recs → r ∈ bd_Records (fz_doc fz).
Proof.
intros Ha. destruct (compareDocument_inv _ _ _ _ Hok) as (rss & Hinv & Hrss & Er & _).
destruct (groupScenarios_spec (tsd_Attempts doc)) as (Hgs & Hex & _ & _).
destruct (Hex a Ha) as (g & Hg & Hid). pose proof Hg as [i Hi]%list_elem_of_lookup.
destruct (Forall2_lookup_l _ _ _ _ _ Hrss Hi) as (rs & Hrsi & recs & refs & Hc & ->).
exists g, recs, refs. split_and!; [done| | |done|].
- intros sd. by rewrite <- Hid, Hgs.
- by apply (scenario_keyed limits (tsd_Attempts doc)).
- intros r Hr. rewrite Er. unfold sortRecords. rewrite stable_sort_Permutation.
apply (elem_of_groupRecords _ _ _ _ Hrss). exists g. eexists. split_and!; [done|by eexists _, _| |].
+ apply elem_of_app. by right.
+ by apply (list_elem_of_lookup_2 _ i).
Qed.

Lemma attempt_fact_side a f :
a ∈ tsd_Attempts doc → f ∈ at_Facts a →
f ∈ scenarioAttempts (rev_side a) (at_ScenarioID a) (tsd_Attempts doc) ≫= at_Facts.
Proof.
intros Ha Hf. apply list_elem_of_bind. exists a. split; [done|].
unfold scenarioAttempts, sortAttempts. by rewrite stable_sort_Permutation, list_elem_of_filter.
Qed.
End document.

(** ** Properties of the comparator *)

(** C6: nothing observed is lost.  Every fact of every attempt, of the base as
    of the head revision, is either reported by a record of its scenario (with
    its kind, source, semantic digest and a snapshot of the fact itself), or
    its matching key occurs in both revisions with equal occurrence profiles. *)
Theorem compare_accounts limits ctx doc fz a f :
  compareDocument limits ctx doc = Ok fz →
  a ∈ tsd_Attempts doc → f ∈ at_Facts a →
  doc_matched doc (at_ScenarioID a) (factKey f) ∨
  ∃ r, r ∈ bd_Records (fz_doc fz) ∧ dr_ScenarioIDs r = [at_ScenarioID a]
    ∧ dr_Observed (rev_side a) r = true ∧ about (rev_side a) r f
    ∧ snapshot f ∈ dr_Facts (rev_side a) r.
Proof.
  intros Hok Ha Hf. destruct (doc_group _ _ _ _ Hok a Ha) as (g & recs & refs & Hid & Hsd & Hkey & Hc & Hin).
  pose proof (attempt_fact_side doc a f Ha Hf) as Hfs. rewrite <- Hsd in Hfs.
  destruct (scenario_accounted _ _ Hkey _ _ _ _ Hc Hfs) as [[Hne Heq]|(r & Hr & Hobs & Hk & Hs)].
  - left. split; [intros sd; unfold docFacts; by rewrite <- Hsd|].
    by rewrite <- (Hsd OnBase), <- (Hsd OnHead).
  - right. exists r. destruct (scenario_sound _ _ Hkey _ _ _ Hc Hr) as [Hsc Hsound].
    destruct (Hsound _ Hobs) as (v & Hv & Hrep). split_and!; [by apply Hin|congruence|done| |done].
    eapply reports_about; [apply Hkey|done..].
Qed.

(** C17: unknown is not absence.  An [added] record (resp. [removed]) is only
    made when every base (resp. head) attempt of its scenario has complete
    coverage, at least one ran, and no fact of that revision has the kind, source and digest
    the record reports. *)
Theorem compare_absence limits ctx doc fz r sd :
  compareDocument limits ctx doc = Ok fz →
  r ∈ bd_Records (fz_doc fz) → dr_Kind r = absenceKind sd →
  ∃ sc, dr_ScenarioIDs r = [sc]
    ∧ attemptsComplete (scenarioAttempts (otherSide sd) sc (tsd_Attempts doc)) = true
    ∧ dr_Observed sd r = true ∧ dr_Observed (otherSide sd) r = false
    ∧ ∀ a f, a ∈ tsd_Attempts doc → at_ScenarioID a = sc → rev_side a = otherSide sd →
        f ∈ at_Facts a → ¬ about sd r f.
Proof.
  intros Hok Hr Hkind.
  destruct (doc_record _ _ _ _ Hok r Hr) as (g & recs & refs & Hg & Hsd & Hkey & Hc & [Hrec|(lim & _ & ->)]).
  2:{ by destruct sd. }
  destruct (scenario_absence _ _ Hkey _ _ _ _ Hc Hrec Hkind) as (Hcomp & Hobs & Hoth & Hnone).
  exists (sg_id g). split_and!; [by eapply scenario_sound|by rewrite <- Hsd|done|done|].
  intros a f Ha Hid Hside Hf (Hk & Hs & Hd).
  assert (f ∈ factsWith (recordKey sd r) (group_side (otherSide sd) g)) as Hin.
  { rewrite Hsd. apply elem_of_docFacts. split; [|by exists a].
    unfold recordKey, factKey. by rewrite Hd, Hk, Hs. }
  rewrite Hnone in Hin. by apply not_elem_of_nil in Hin.
Qed.

(** C26: no evidence is invented.  Whatever a record claims to have observed in
    a revision is exactly what the trace of that scenario holds: the snapshots
    are those of all the facts with the record's key, the evidence is theirs,
    and the occurrence profile counts them per repetition. *)
Theorem compare_sound limits ctx doc fz r sd :
  compareDocument limits ctx doc = Ok fz →
  r ∈ bd_Records (fz_doc fz) → dr_Observed sd r = true →
  ∃ sc, dr_ScenarioIDs r = [sc]
    ∧ docFacts doc sd sc (recordKey sd r) ≠ []
    ∧ dr_Facts sd r = snapshots (docFacts doc sd sc (recordKey sd r))
    ∧ dr_SideEvidence sd r = dedupeEvidence (evidenceRefs (docFacts doc sd sc (recordKey sd r)))
    ∧ dr_Occurrence sd r = occurrences (scenarioAttempts sd sc (tsd_Attempts doc)) (recordKey sd r).
Proof.
  intros Hok Hr Hobs.
  destruct (doc_record _ _ _ _ Hok r Hr) as (g & recs & refs & Hg & Hsd & Hkey & Hc & [Hrec|(lim & _ & ->)]).
  2:{ by rewrite coverageRecord_unobserved in Hobs. }
  destruct (scenario_sound _ _ Hkey _ _ _ Hc Hrec) as [Hsc Hsound].
  destruct (Hsound sd Hobs) as (v & Hv & Hrep). exists (sg_id g). unfold docFacts. rewrite <- Hsd.
  split_and!; [done|by eapply variant_nonempty|..].
  - by rewrite (rep_facts _ _ _ Hrep), (iv_facts _ _ _ Hv).
  - by rewrite (rep_evidence _ _ _ Hrep), (iv_facts _ _ _ Hv).
  - by rewrite (rep_occurrence _ _ _ Hrep), (iv_profile _ _ _ Hv).
Qed.

(** No behaviour is reported twice.  Within the delta, two records that
    report the same side never share scenario, kind, source and digest. *)
Theorem compare_unique limits ctx doc fz sd :
  compareDocument limits ctx doc = Ok fz →
  NoDup (reportedKeys sd (bd_Records (fz_doc fz))).
Proof.
  unfold reportedKeys. intros Hok. destruct (compareDocument_inv _ _ _ _ Hok) as (rss & Hinv & Hrss & -> & _).
  unfold sortRecords. rewrite stable_sort_Permutation.
  pose proof (scenario_keyed limits (tsd_Attempts doc)) as Hkeyed.
  destruct (groupScenarios_spec (tsd_Attempts doc)) as (_ & _ & Hnd & _).
  specialize (λ g, Hkeyed g Hinv). revert Hkeyed Hnd.
  generalize dependent (groupScenarios (tsd_Attempts doc)). intros groups Hrss Hkeyed Hnd.
  induction Hrss as [|g rs groups rss Hg Hrss IH]; [constructor|].
  cbn [concat]. rewrite filter_app, fmap_app. cbn [fmap list_fmap] in Hnd. apply NoDup_cons in Hnd as [Hnew Hnd].
  apply NoDup_app. split_and!.
  - destruct Hg as (recs & refs & Hc & ->). rewrite filter_app, filter_none.
    2:{ intros r (lim & -> & _)%list_elem_of_fmap. by rewrite coverageRecord_unobserved. }
    apply (NoDup_fmap_1 snd). rewrite <- list_fmap_compose.
    by apply (scenario_unique _ _ (Hkeyed g (list_elem_of_here _ _)) _ _ _ Hc).
  - intros key (r & -> & [_ Hr]%list_elem_of_filter)%list_elem_of_fmap
      (r' & E & [_ Hr']%list_elem_of_filter)%list_elem_of_fmap.
    apply (elem_of_groupRecords _ _ _ _ Hrss) in Hr' as (h & rs' & Hh & Hgh & Hr' & _).
    destruct (groupRecords_ids _ _ _ _ (Hkeyed g (list_elem_of_here _ _)) Hg Hr) as [_ E1].
    destruct (groupRecords_ids _ _ _ _ (Hkeyed h (list_elem_of_further _ _ _ Hh)) Hgh Hr') as [_ E2].
    apply Hnew. rewrite E1, E2 in E. injection E as E _. rewrite E. by apply list_elem_of_fmap_2.
  - apply IH; [|done]. intros h Hh. apply Hkeyed. by apply list_elem_of_further.
Qed.

(** Both revisions of every scenario observed the same facts, repetition by repetition. *)
Definition doc_same (doc : TraceSetDocument) : Prop :=
  ∀ sc, Forall2 (λ a b, at_Repetition a = at_Repetition b ∧ at_Coverage a = at_Coverage b ∧
          (factIdentity <$> at_Facts a) = (factIdentity <$> at_Facts b))
    (scenarioAttempts OnBase sc (tsd_Attempts doc)) (scenarioAttempts OnHead sc (tsd_Attempts doc)).

Lemma attemptsComplete_true l : attemptsComplete l = true ↔ l ≠ [] ∧ ∀ a, a ∈ l → at_Coverage a = CoverageComplete.
Proof.
  unfold attemptsComplete. destruct l as [|a l]; [by split; [|intros []]|].
  rewrite forallb_forall. split.
  - intros H. split; [done|]. intros b Hb%list_elem_of_In. apply H in Hb. by apply bool_decide_eq_true in Hb.
  - intros [_ H] b Hb%list_elem_of_In. apply bool_decide_eq_true. by apply H.
Qed.

(** No difference, no delta.  When base and head behaved identically the
    delta holds no behavioural record, only coverage notices, and none at all
    when every attempt has complete coverage. *)
Theorem compare_same limits ctx doc fz :
  compareDocument limits ctx doc = Ok fz → doc_same doc →
  (∀ r, r ∈ bd_Records (fz_doc fz) →
     dr_Kind r = DeltaKindCoverageChanged ∧ dr_Observed OnBase r = false ∧ dr_Observed OnHead r = false) ∧
  ((∀ a, a ∈ tsd_Attempts doc → at_Coverage a = CoverageComplete) → bd_Records (fz_doc fz) = []).
Proof.
  intros Hok Hsame.
  assert (∀ r, r ∈ bd_Records (fz_doc fz) → ∃ g lim, g ∈ groupScenarios (tsd_Attempts doc)
    ∧ lim ∈ (scenarioComparison g).2 ∧ r = coverageRecord ProfileVersionV1Alpha1 g lim) as Hcov.
  { intros r Hr.
    destruct (doc_record _ _ _ _ Hok r Hr) as (g & recs & refs & Hg & Hsd & Hkey & Hc & [Hrec|(lim & Hl & ->)]); [|eauto].
    apply scenario_same in Hc as ->; [by apply not_elem_of_nil in Hrec|done|].
    unfold same_behaviour. rewrite (Hsd OnBase : sg_base g = _), (Hsd OnHead : sg_head g = _). apply Hsame. }
  split.
  { intros r Hr. by destruct (Hcov r Hr) as (g & lim & _ & _ & ->). }
  intros Hall. destruct (bd_Records (fz_doc fz)) as [|r rs] eqn:Er; [done|]. exfalso.
  destruct (Hcov r (list_elem_of_here _ _)) as (g & lim & Hg & Hl & _).
  destruct (groupScenarios_spec (tsd_Attempts doc)) as (Hgs & _ & _ & Hne).
  destruct (Hne g Hg) as (a & Ha & Hid).
  assert (∀ sd, attemptsComplete (group_side sd g) = true) as Hcomp.
  { intros sd. apply attemptsComplete_true. rewrite (Hgs g Hg). split.
    - assert (a ∈ scenarioAttempts (rev_side a) (sg_id g) (tsd_Attempts doc)) as Hin.
      { unfold scenarioAttempts, sortAttempts. by rewrite stable_sort_Permutation, list_elem_of_filter. }
      specialize (Hsame (sg_id g)). intros E.
      assert (∀ sd', scenarioAttempts sd' (sg_id g) (tsd_Attempts doc) = []) as Hnil.
      { destruct sd; rewrite E in Hsame; [apply Forall2_nil_inv_l in Hsame|apply Forall2_nil_inv_r in Hsame];
          by intros []. }
      rewrite Hnil in Hin. by apply not_elem_of_nil in Hin.
    - intros b. unfold scenarioAttempts, sortAttempts. rewrite stable_sort_Permutation, list_elem_of_filter.
      intros [_ Hb]. by apply Hall. }
  unfold scenarioComparison in Hl. rewrite (Hcomp OnBase : attemptsComplete (sg_base g) = true) in Hl.
  rewrite (Hcomp OnHead : attemptsComplete (sg_head g) = true) in Hl. by apply not_elem_of_nil in Hl.
Qed.
