(* ===== verification/CompareLaws.v ===== *)
(** * Laws of the comparator's building blocks ([internal/compare])

    Occurrence profiles, strict order, the canonical order of records, the
    summary, the identity of records, and which delta a comparison returns, or which limit the
    delta exceeds. *)

From stdpp Require Import prelude gmap strings sorting.
From Stdlib Require Import ZArith Lia.
From S2P Require Import Prelude GoStd Sha256 Framing Model Json Observe Compare CompareSpec CompareDoc.
Local Open Scope Z_scope.

(** ** Specification vocabulary *)

(** The counts of the repetitions with complete coverage. *)
Definition knownCounts (reps : list repetitionFacts) : list Z :=
  rfx_facts <$> filter (λ r, rfx_coverage r = CoverageComplete) reps.

Definition sumZ (l : list Z) : Z := foldl Z.add 0 l.

(** All attempts, at least two, are complete and show the sequence [seq]. *)
Definition stable_order (l : list AttemptTrace) (seq : list Digest) : Prop :=
  2 <= Z.of_nat (length l) ∧
  ∀ a, a ∈ l → at_Coverage a = CoverageComplete ∧ semanticSequence a = seq.

Definition countKind (k : DeltaKind) (l : list DeltaRecord) : Z :=
  Z.of_nat (length (filter (λ r, dr_Kind r = k) l)).

(** Field sizes a Go program can hold: strings and lists shorter than 2^63, and
    integers in the range of their type. *)
Record repetition_ok (r : RepetitionOccurrence) : Prop := {
  rok_repetition : is_u64 (ro_Repetition r);
  rok_coverage : is_str (ro_Coverage r);
  rok_count : is_i64 (ro_Count r);
}.
Record occurrence_ok (p : OccurrenceProfile) : Prop := {
  ook_planned : is_i64 (op_PlannedRepetitionCount p);
  ook_complete : is_i64 (op_CompleteRepetitionCount p);
  ook_incomplete : is_i64 (op_IncompleteRepetitionCount p);
  ook_minimum : is_i64 (op_MinimumKnownCount p);
  ook_maximum : is_i64 (op_MaximumKnownCount p);
  ook_total : is_i64 (op_TotalKnownCount p);
  ook_coverage : is_str (op_Coverage p);
  ook_repeatability : is_str (op_Repeatability p);
  ook_repetitions : is_list repetition_ok (op_Repetitions p);
}.
Record record_ok (r : DeltaRecord) : Prop := {
  dok_kind : is_str (dr_Kind r);
  dok_factKind : is_str (dr_FactKind r);
  dok_source : is_str (dr_Source r);
  dok_anchor : is_str (dr_AnchorDigest r);
  dok_changed : is_list is_str (dr_ChangedFields r);
  dok_base : is_list is_str (dr_BaseSemanticDigests r);
  dok_head : is_list is_str (dr_HeadSemanticDigests r);
  dok_baseOcc : occurrence_ok (dr_BaseOccurrence r);
  dok_headOcc : occurrence_ok (dr_HeadOccurrence r);
  dok_basis : is_str (dr_Basis r);
}.

(** The parts of a record its identity binds. *)
Definition identityFields (r : DeltaRecord) :=
  (dr_Kind r, dr_FactKind r, dr_Source r, dr_AnchorDigest r, dr_ChangedFields r,
   dr_BaseSemanticDigests r, dr_HeadSemanticDigests r, dr_BaseOccurrence r, dr_HeadOccurrence r,
   dr_Basis r).

(** ** Occurrence profiles *)

Lemma sumZ_snoc l x : sumZ (l ++ [x]) = sumZ l + x.
Proof. unfold sumZ. by rewrite foldl_app. Qed.

Lemma knownCounts_snoc l r :
  knownCounts (l ++ [r]) = knownCounts l ++ (if rfx_coverage r == CoverageComplete then [rfx_facts r] else []).
Proof.
  unfold knownCounts. rewrite filter_app, fmap_app, filter_cons. f_equal.
  destruct (decide (rfx_coverage r = CoverageComplete)) as [E|E];
    [by rewrite (bool_decide_true (_ = _)) by done|by rewrite (bool_decide_false (_ = _)) by done].
Qed.

(** The state of the loop after the repetitions [l]. *)
Record occ_inv (planned : Z) (l : list repetitionFacts) (s : OccurrenceProfile * bool) : Prop := {
  oi_planned : op_PlannedRepetitionCount s.1 = planned;
  oi_complete : op_CompleteRepetitionCount s.1 = Z.of_nat (length (knownCounts l));
  oi_incomplete : op_CompleteRepetitionCount s.1 + op_IncompleteRepetitionCount s.1 = Z.of_nat (length l);
  oi_total : op_TotalKnownCount s.1 = sumZ (knownCounts l);
  oi_minSet : s.2 = true ↔ knownCounts l ≠ [];
  oi_none : knownCounts l = [] → op_MinimumKnownCount s.1 = 0 ∧ op_MaximumKnownCount s.1 = 0;
  oi_bounds c : c ∈ knownCounts l → op_MinimumKnownCount s.1 <= c <= op_MaximumKnownCount s.1;
  oi_attained : knownCounts l ≠ [] →
    op_MinimumKnownCount s.1 ∈ knownCounts l ∧ op_MaximumKnownCount s.1 ∈ knownCounts l;
  oi_length : length (op_Repetitions s.1) = length l;
}.

Lemma occurrenceStep_inv planned l s r :
  (∀ x, x ∈ l ++ [r] → 0 <= rfx_facts x) →
  occ_inv planned l s → occ_inv planned (l ++ [r]) (occurrenceStep s r).
Proof.
  intros Hpos [Hp Hc Hi Ht Hm Hn Hb Ha Hl]. destruct s as [out minSet]. cbn [fst snd] in *.
  assert (0 <= rfx_facts r) as Hr by (apply Hpos, elem_of_app; right; by apply list_elem_of_singleton).
  unfold occurrenceStep. destruct (rfx_coverage r == CoverageComplete) eqn:Hcov.
  - assert (knownCounts (l ++ [r]) = knownCounts l ++ [rfx_facts r]) as Ek by by rewrite knownCounts_snoc, Hcov.
    set (setMin := negb minSet || (rfx_facts r <? op_MinimumKnownCount out)).
    assert ((knownCounts l = [] ∧ minSet = false) ∨ (knownCounts l ≠ [] ∧ minSet = true)) as Hcase.
    { destruct (decide (knownCounts l = [])) as [E|E]; [left|right]; split; try done.
      - destruct minSet; [|done]. by destruct (proj1 Hm eq_refl).
      - by apply Hm. }
    split; cbn [fst snd op_PlannedRepetitionCount op_CompleteRepetitionCount op_IncompleteRepetitionCount
      op_TotalKnownCount op_MinimumKnownCount op_MaximumKnownCount op_Repetitions]; rewrite ?Ek.
    + done.
    + rewrite length_app. cbn. lia.
    + rewrite length_app. cbn. lia.
    + rewrite sumZ_snoc. lia.
    + split; [intros _; by destruct (knownCounts l)|]. intros _. unfold setMin. by destruct minSet.
    + by destruct (knownCounts l).
    + intros c. rewrite elem_of_app, list_elem_of_singleton. unfold setMin.
      destruct Hcase as [[E ->]|[E ->]]; cbn.
      * rewrite E. destruct (Hn E) as [_ ->]. intros [?%not_elem_of_nil| ->]; [done|].
        destruct (0 <? _) eqn:?; go_bool; lia.
      * destruct (rfx_facts r <? _) eqn:?, (op_MaximumKnownCount out <? _) eqn:?; go_bool;
          destruct (Ha E) as [Hmn _]; apply Hb in Hmn as Hmn'; intros [Hcin| ->]; try (apply Hb in Hcin); lia.
    + intros _. rewrite !elem_of_app, !list_elem_of_singleton. unfold setMin.
      destruct Hcase as [[E ->]|[E ->]]; cbn.
      * destruct (Hn E) as [_ ->]. destruct (0 <? _) eqn:?; go_bool; split; right; lia.
      * destruct (Ha E). destruct (rfx_facts r <? _), (op_MaximumKnownCount out <? _); auto.
    + rewrite !length_app. cbn. lia.
  - assert (knownCounts (l ++ [r]) = knownCounts l) as Ek by by rewrite knownCounts_snoc, Hcov, app_nil_r.
    split; cbn [fst snd op_PlannedRepetitionCount op_CompleteRepetitionCount op_IncompleteRepetitionCount
      op_TotalKnownCount op_MinimumKnownCount op_MaximumKnownCount op_Repetitions]; rewrite ?Ek; try done.
    + rewrite length_app. cbn. lia.
    + rewrite !length_app. cbn. lia.
Qed.

Lemma occurrenceFold_inv planned l :
  (∀ x, x ∈ l → 0 <= rfx_facts x) →
  occ_inv planned l (foldl occurrenceStep (mkOccurrenceProfile planned [] 0 0 0 0 0 "" "", false) l).
Proof.
  induction l as [|r l IH] using rev_ind; intros Hpos.
  - split; cbn; try done; by intros ? ?%not_elem_of_nil.
  - rewrite foldl_app. apply occurrenceStep_inv; [done|]. apply IH.
    intros x Hx. apply Hpos, elem_of_app. by left.
Qed.

Lemma knownCounts_all l :
  length (knownCounts l) = length l ↔ ∀ r, r ∈ l → rfx_coverage r = CoverageComplete.
Proof.
  unfold knownCounts. rewrite length_fmap. split.
  - intros E r Hr. destruct (decide (rfx_coverage r = CoverageComplete)) as [|Hne]; [done|].
    exfalso. pose proof (length_filter_lt (λ r, rfx_coverage r = CoverageComplete) l r Hr Hne). lia.
  - intros H. by rewrite filter_all.
Qed.

Lemma occurrenceCoverage_complete out :
  occurrenceCoverage out = CoverageAssessmentComplete ↔
  op_CompleteRepetitionCount out = op_PlannedRepetitionCount out.
Proof.
  unfold occurrenceCoverage. destruct (_ == _) eqn:E; go_bool; [done|].
  split; [|done]. by destruct (0 <? _).
Qed.

(** The assessment when every repetition is complete. *)
Lemma occurrenceRepeatability_complete out :
  occurrenceRepeatability CoverageAssessmentComplete out =
  if op_CompleteRepetitionCount out == 0 then RepeatabilityNotAssessable
  else if op_CompleteRepetitionCount out == 1 then RepeatabilitySingleSample
  else if op_MinimumKnownCount out == op_MaximumKnownCount out then RepeatabilityStable
  else RepeatabilityVariable.
Proof. done. Qed.

Lemma occurrenceRepeatability_incomplete cov out :
  cov ≠ CoverageAssessmentComplete → occurrenceRepeatability cov out = RepeatabilityNotAssessable.
Proof. intros H. unfold occurrenceRepeatability. by rewrite (bool_decide_false (cov = _)). Qed.

(** The three definite assessments of a complete revision. *)
Lemma repeatability_cases reps out :
  op_CompleteRepetitionCount out = Z.of_nat (length reps) →
  (∀ r, r ∈ reps → op_MinimumKnownCount out <= rfx_facts r <= op_MaximumKnownCount out) →
  (reps ≠ [] → op_MinimumKnownCount out ∈ rfx_facts <$> reps ∧ op_MaximumKnownCount out ∈ rfx_facts <$> reps) →
  let rep := occurrenceRepeatability CoverageAssessmentComplete out in
  (rep = RepeatabilityStable ↔ (2 <= length reps)%nat ∧ ∃ c, ∀ r, r ∈ reps → rfx_facts r = c)
  ∧ (rep = RepeatabilityVariable ↔ ∃ r r', r ∈ reps ∧ r' ∈ reps ∧ rfx_facts r ≠ rfx_facts r')
  ∧ (rep = RepeatabilitySingleSample ↔ length reps = 1%nat).
Proof.
  intros Hc Hin Ha rep. subst rep. rewrite occurrenceRepeatability_complete, Hc.
  destruct reps as [|r0 [|r1 reps]].
  - split_and!; (split; [done|]); [cbn; lia|by intros (? & ? & ?%not_elem_of_nil & _)|done].
  - split_and!; (split; try done); [cbn; lia|].
    intros (r & r' & ->%list_elem_of_singleton & ->%list_elem_of_singleton & ?). done.
  - destruct (Ha ltac:(done)) as [Hmin Hmax].
    apply list_elem_of_fmap in Hmin as (ra & Ema & Hra). apply list_elem_of_fmap in Hmax as (rb & Emb & Hrb).
    rewrite (bool_decide_false (_ = 0)), (bool_decide_false (_ = 1)) by (cbn; lia).
    destruct (_ == _) eqn:E; go_bool; split_and!; (split; try done).
    + intros _. split; [cbn; lia|]. exists (op_MaximumKnownCount out). intros r Hr. specialize (Hin r Hr). lia.
    + intros (r & r' & Hr & Hr' & Hne). pose proof (Hin r Hr). pose proof (Hin r' Hr'). lia.
    + intros (_ & c & Hall). rewrite (Hall ra Hra) in Ema. rewrite (Hall rb Hrb) in Emb. congruence.
    + intros _. exists ra, rb. split_and!; [done..|]. congruence.
Qed.

(** What an occurrence profile says.  For the repetitions of a revision,
    complete and incomplete ones partition the repetitions; coverage is
    [complete] exactly when every repetition is; the total, minimum and maximum
    are those of the known counts; and the assessment is [stable] exactly when
    at least two repetitions, all complete, agree on the count, [variable]
    exactly when all are complete and two disagree, [single-sample] exactly for
    one complete repetition, and [not-assessable] otherwise. *)
Theorem occurrence_profile_spec reps :
  (∀ r, r ∈ reps → 0 <= rfx_facts r) →
  let p := buildOccurrenceProfile (Z.of_nat (length reps)) reps in
  let complete := ∀ r, r ∈ reps → rfx_coverage r = CoverageComplete in
  op_PlannedRepetitionCount p = Z.of_nat (length reps)
  ∧ op_CompleteRepetitionCount p + op_IncompleteRepetitionCount p = op_PlannedRepetitionCount p
  ∧ op_TotalKnownCount p = sumZ (knownCounts reps)
  ∧ (∀ c, c ∈ knownCounts reps → op_MinimumKnownCount p <= c <= op_MaximumKnownCount p)
  ∧ (knownCounts reps ≠ [] → op_MinimumKnownCount p ∈ knownCounts reps
                            ∧ op_MaximumKnownCount p ∈ knownCounts reps)
  ∧ (op_Coverage p = CoverageAssessmentComplete ↔ complete)
  ∧ (op_Repeatability p = RepeatabilityStable ↔
       complete ∧ (2 <= length reps)%nat ∧ ∃ c, ∀ r, r ∈ reps → rfx_facts r = c)
  ∧ (op_Repeatability p = RepeatabilityVariable ↔
       complete ∧ ∃ r r', r ∈ reps ∧ r' ∈ reps ∧ rfx_facts r ≠ rfx_facts r')
  ∧ (op_Repeatability p = RepeatabilitySingleSample ↔ complete ∧ length reps = 1%nat).
Proof.
  intros Hpos p complete.
  pose proof (occurrenceFold_inv (Z.of_nat (length reps)) reps Hpos) as [Hp Hc Hi Ht Hm Hn Hb Ha Hl].
  subst p. unfold buildOccurrenceProfile.
  set (s := foldl occurrenceStep _ reps) in *. clearbody s. destruct s as [out m]. cbn [fst snd] in *.
  cbn [op_PlannedRepetitionCount op_CompleteRepetitionCount op_IncompleteRepetitionCount
      op_TotalKnownCount op_MinimumKnownCount op_MaximumKnownCount op_Coverage op_Repeatability].
  assert (op_CompleteRepetitionCount out = op_PlannedRepetitionCount out ↔ complete) as Hcomp.
  { unfold complete. rewrite Hp, Hc, <- (knownCounts_all reps). lia. }
  assert (complete → knownCounts reps = rfx_facts <$> reps) as Hall.
  { intros H. unfold knownCounts. by rewrite filter_all. }
  split; [done|]. split; [lia|]. split; [done|]. split; [done|]. split; [done|].
  split; [by rewrite occurrenceCoverage_complete|].
  destruct (decide (op_CompleteRepetitionCount out = op_PlannedRepetitionCount out)) as [E|E].
  - rewrite (proj2 (occurrenceCoverage_complete out) E).
    pose proof (proj1 Hcomp E) as Hco. specialize (Hall Hco). rewrite Hall in *. rewrite length_fmap in Hc.
    destruct (repeatability_cases reps out Hc) as (Hs & Hv & H1).
    + intros r Hr. by apply Hb, list_elem_of_fmap_2.
    + intros Hne. apply Ha. by destruct reps.
    + rewrite Hs, Hv, H1. tauto.
  - rewrite occurrenceRepeatability_incomplete by (by rewrite occurrenceCoverage_complete).
    split_and!; (split; [done|]; intros [?%Hcomp ?]; done).
Qed.

(** ** Strict order *)

Lemma stableSequences_spec l seq : stableSequences l = Some seq ↔ stable_order l seq.
Proof.
  unfold stableSequences, stable_order. set (F := λ (first : option (list Digest)) a, _).
  assert (∀ l first, match foldR F (Some first) l with
                     | Ok o => o = Some first ∧ ∀ a, a ∈ l → at_Coverage a = CoverageComplete ∧ semanticSequence a = first
                     | Err _ => ∃ a, a ∈ l ∧ ¬ (at_Coverage a = CoverageComplete ∧ semanticSequence a = first)
                     end) as Hfold.
  { clear l. induction l as [|a l IH]; intros first; cbn [foldR].
    { split; [done|]. by intros a ?%not_elem_of_nil. }
    unfold F at 1. destruct (at_Coverage a != CoverageComplete) eqn:Ec; go_bool.
    { exists a. split; [apply list_elem_of_here|]. tauto. }
    destruct (first == semanticSequence a) eqn:Es; go_bool.
    2:{ exists a. split; [apply list_elem_of_here|]. intros [_ ?]. congruence. }
    specialize (IH first). destruct (foldR F (Some first) l).
    - destruct IH as [-> IH]. split; [done|]. intros b [->|Hb]%elem_of_cons; [done|by apply IH].
    - destruct IH as (b & Hb & ?). exists b. split; [by apply list_elem_of_further|done]. }
  destruct (Z.of_nat (length l) <? 2) eqn:Hl; go_bool; [split; [done|intros [? _]; lia]|].
  destruct l as [|a l]; [cbn in Hl; lia|]. cbn [foldR]. unfold F at 1.
  destruct (at_Coverage a != CoverageComplete) eqn:Ec; go_bool.
  { split; [done|]. intros [_ H]. by destruct (H a (list_elem_of_here _ _)). }
  specialize (Hfold l (semanticSequence a)). destruct (foldR F _ l) as [o|].
  - destruct Hfold as [-> Hall]. split.
    + intros [= <-]. split; [done|]. intros b [->|Hb]%elem_of_cons; [done|by apply Hall].
    + intros [_ H]. by destruct (H a (list_elem_of_here _ _)) as [_ ->].
  - destruct Hfold as (b & Hb & Hbad). split; [done|]. intros [_ H].
    destruct (H a (list_elem_of_here _ _)) as [_ <-]. by destruct (Hbad (H b (list_elem_of_further _ _ _ Hb))).
Qed.

Lemma sameMultiset_spec a b : sameMultiset a b = true ↔ a ≡ₚ b.
Proof.
  unfold sameMultiset, sortDigests. rewrite bool_decide_eq_true. split.
  - intros E. by rewrite <- (stable_sort_Permutation str_lt a), E, stable_sort_Permutation.
  - apply sort_strings_canonical.
Qed.

(** An order change is reported exactly when, in both revisions, at least
    two repetitions ran, all complete and all in one repeatable order of facts,
    and the two orders are different arrangements of the same facts; the record
    then carries the two orders. *)
Theorem order_record_iff norm sg bs hs :
  (∃ r, orderRecord norm sg = Some r
        ∧ dr_BaseSemanticDigests r = bs ∧ dr_HeadSemanticDigests r = hs) ↔
  stable_order (sg_base sg) bs ∧ stable_order (sg_head sg) hs ∧ bs ≡ₚ hs ∧ bs ≠ hs.
Proof.
  unfold orderRecord. rewrite <- !stableSequences_spec. split.
  - intros (r & H & <- & <-). destruct (stableSequences (sg_base sg)) as [b|]; [|done].
    destruct (stableSequences (sg_head sg)) as [h|]; [|done].
    destruct (_ || _); [done|]. destruct (negb _ || _) eqn:E; [done|]. go_bool.
    apply sameMultiset_spec in H0. by injection H as <-.
  - intros (-> & -> & Hp & Hne).
    assert (bs ≠ [] ∧ hs ≠ []) as [Hb Hh].
    { split; intros ->; [apply Permutation_nil_l in Hp|apply Permutation_nil_r in Hp]; congruence. }
    rewrite (proj2 (sameMultiset_spec bs hs) Hp), (bool_decide_false (bs = hs)) by done.
    rewrite !bool_decide_false by (destruct bs, hs; cbn; try done; lia).
    cbn. eexists. done.
Qed.

(** ** Canonical order of the records *)

Lemma record_less_total x y :
  record_less x y = false → record_less y x = false → dr_ID x = dr_ID y.
Proof.
  unfold record_less. intros H1 H2.
  do 5 (destruct (by_key_tie _ _ _ _ _ H1 H2) as (_ & ? & ?); clear H1 H2; rename select (_ x y = false) into H1; rename select (_ y x = false) into H2).
  by apply st_total.
Qed.

(** The order of the records is canonical.  [sortRecords] returns the same
    records, in order, and does not depend on the order they were produced in
    when their identities are distinct. *)
Theorem sort_records_canonical l l' :
  l ≡ₚ l' → NoDup (dr_ID <$> l) →
  sortRecords l = sortRecords l' ∧ sortRecords l ≡ₚ l
  ∧ StronglySorted (not_after record_less) (sortRecords l).
Proof.
  intros Hp Hnd. unfold sortRecords. split_and!.
  - apply stable_sort_canonical; [apply _| |done]. intros x y Hx Hy Hxy Hyx.
    pose proof (record_less_total x y Hxy Hyx) as E.
    apply list_elem_of_lookup in Hx as [i Hi]. apply list_elem_of_lookup in Hy as [j Hj].
    assert (i = j) as <-; [|congruence].
    eapply NoDup_lookup; [exact Hnd| |]; rewrite list_lookup_fmap; [by rewrite Hi|]. rewrite Hj. cbn. by rewrite E.
  - apply stable_sort_Permutation.
  - apply stable_sort_StronglySorted. apply _.
Qed.

(** ** Summary *)

Definition deltaKinds : list DeltaKind :=
  [DeltaKindAdded; DeltaKindRemoved; DeltaKindModified; DeltaKindCountChanged; DeltaKindOrderChanged;
   DeltaKindStabilityChanged; DeltaKindCoverageChanged].

Lemma countKind_cons k r l : countKind k (r :: l) = (if dr_Kind r == k then 1 else 0) + countKind k l.
Proof.
  unfold countKind. rewrite filter_cons. destruct (decide (dr_Kind r = k)) as [E|E].
  - rewrite (bool_decide_true (_ = _)) by done. cbn. lia.
  - by rewrite (bool_decide_false (_ = _)).
Qed.

(** Decide comparisons of named kinds. *)
Ltac simpl_kinds :=
  repeat match goal with
  | |- context [bool_decide (?a = ?b)] =>
      first [rewrite (bool_decide_true (a = b)) by done | rewrite (bool_decide_false (a = b)) by done]
  end.

Lemma summarize_fold l t a rm m c o st cv :
  foldl summarizeStep (mkDeltaSummary t a rm m c o st cv) l =
  mkDeltaSummary t (a + countKind DeltaKindAdded l) (rm + countKind DeltaKindRemoved l)
    (m + countKind DeltaKindModified l) (c + countKind DeltaKindCountChanged l)
    (o + countKind DeltaKindOrderChanged l) (st + countKind DeltaKindStabilityChanged l)
    (cv + countKind DeltaKindCoverageChanged l).
Proof.
  revert a rm m c o st cv. induction l as [|r l IH]; intros.
  { unfold countKind. cbn. f_equal; lia. }
  cbn [foldl]. rewrite !countKind_cons. unfold summarizeStep.
  generalize (dr_Kind r). intros kind.
  repeat match goal with
  | |- context [kind == ?k] =>
      destruct (decide (kind = k)) as [->|?];
      [simpl_kinds; rewrite IH; f_equal; lia|rewrite !(bool_decide_false (kind = k)) by done]
  end.
  rewrite IH. f_equal; lia.
Qed.

Lemma summarize_spec l :
  summarize l = mkDeltaSummary (Z.of_nat (length l)) (countKind DeltaKindAdded l)
    (countKind DeltaKindRemoved l) (countKind DeltaKindModified l) (countKind DeltaKindCountChanged l)
    (countKind DeltaKindOrderChanged l) (countKind DeltaKindStabilityChanged l)
    (countKind DeltaKindCoverageChanged l).
Proof. unfold summarize. rewrite summarize_fold. done. Qed.

Lemma countKind_total l :
  (∀ r, r ∈ l → dr_Kind r ∈ deltaKinds) →
  Z.of_nat (length l) = sumZ ((λ k, countKind k l) <$> deltaKinds).
Proof.
  induction l as [|r l IH]; intros Hk; [done|].
  specialize (IH (λ r' Hr', Hk r' (list_elem_of_further _ _ _ Hr'))).
  specialize (Hk r (list_elem_of_here _ _)).
  unfold deltaKinds in *. cbn -[countKind] in *. rewrite !countKind_cons.
  rewrite !elem_of_cons, elem_of_nil in Hk.
  destruct_or? Hk; try done; rewrite Hk;
    simpl_kinds; lia.
Qed.

Lemma scenario_kinds norm sg recs refs r :
  (∀ sd, keyed (group_side sd sg)) → compareScenario norm sg = Ok (recs, refs) → r ∈ recs →
  dr_Kind r ∈ deltaKinds.
Proof.
  intros Hkey (s & Hinv & _ & ->)%(compareScenario_inv _ _ Hkey).
  rewrite !elem_of_app, !elem_of_leftovers.
  intros [Hr|[(k & v & _ & _ & ->)|[(k & v & _ & _ & ->)|Ho]]].
  - destruct (pi_reason _ s Hinv r Hr) as (_ & _ & [(Hk & _)|(-> & _)]).
    + unfold deltaKinds. rewrite !elem_of_cons in *. rewrite elem_of_nil in Hk. tauto.
    + by apply (bool_decide_unpack _).
  - cbn. destruct (attemptsComplete _); by apply (bool_decide_unpack _).
  - cbn. destruct (attemptsComplete _); by apply (bool_decide_unpack _).
  - destruct (orderRecord norm sg) as [r'|] eqn:Hor; [|by apply not_elem_of_nil in Ho].
    apply list_elem_of_singleton in Ho as ->. revert Hor. unfold orderRecord.
    destruct (stableSequences _); [|done]. destruct (stableSequences _); [|done].
    destruct (_ || _); [done|]. destruct (_ || _); [done|]. intros [= <-].
    by apply (bool_decide_unpack _).
Qed.

(** The summary of a delta counts its records: each field is the number of
    records of its kind, and the total is their sum. *)
Theorem compare_summary limits ctx doc fz :
  compareDocument limits ctx doc = Ok fz →
  let s := bd_Summary (fz_doc fz) in
  let n k := countKind k (bd_Records (fz_doc fz)) in
  ds_TotalRecords s = Z.of_nat (length (bd_Records (fz_doc fz)))
  ∧ ds_TotalRecords s = sumZ [ds_Added s; ds_Removed s; ds_Modified s; ds_CountChanged s;
                              ds_OrderChanged s; ds_StabilityChanged s; ds_CoverageChanged s]
  ∧ ds_Added s = n DeltaKindAdded ∧ ds_Removed s = n DeltaKindRemoved
  ∧ ds_Modified s = n DeltaKindModified ∧ ds_CountChanged s = n DeltaKindCountChanged
  ∧ ds_OrderChanged s = n DeltaKindOrderChanged ∧ ds_StabilityChanged s = n DeltaKindStabilityChanged
  ∧ ds_CoverageChanged s = n DeltaKindCoverageChanged.
Proof.
  intros Hok s n. destruct (compareDocument_inv _ _ _ _ Hok) as (rss & _ & _ & _ & Es & _).
  subst s. rewrite Es, summarize_spec. cbn [ds_TotalRecords ds_Added ds_Removed ds_Modified ds_CountChanged
    ds_OrderChanged ds_StabilityChanged ds_CoverageChanged]. split_and!; try done.
  apply countKind_total. intros r Hr.
  destruct (doc_record _ _ _ _ Hok r Hr) as (g & recs & refs & _ & _ & Hkey & Hc & [Hrec|(lim & _ & ->)]).
  - by eapply scenario_kinds.
  - by apply (bool_decide_unpack _).
Qed.

(** ** Identity of records *)

#[global] Instance writeRepetition_prefix_free : PrefixFree repetition_ok writeRepetition.
Proof.
  intros [r1 c1 k1 n1] [r2 c2 k2 n2] r s [] []. cbn in *. unfold writeRepetition. cbn.
  rewrite <- !app_assoc. intros H. peel_frames. by subst.
Qed.

#[global] Instance writeOccurrence_prefix_free : PrefixFree occurrence_ok writeOccurrence.
Proof.
  intros [] [] r s [] []. cbn in *. unfold writeOccurrence. cbn. rewrite <- !app_assoc. intros H.
  peel_frames. rewrite (app_assoc (writeU64 _) _ r), (app_assoc (writeU64 _) _ s) in H.
  apply (framed_list_prefix_free repetition_ok writeRepetition) in H as [-> ->]; [|done..]. by subst.
Qed.

(** The identity of a record binds what it is about.  Equal hash inputs
    mean equal profiles, scenario, kind, fact kind, source, anchor, changed
    fields, digests of both sides, both occurrence profiles and basis: records
    that differ in any of them can only share an identity by a SHA-256
    collision. *)
Theorem record_identity p n sc r p' n' sc' r' :
  is_str p → is_str n → is_str sc → record_ok r →
  is_str p' → is_str n' → is_str sc' → record_ok r' →
  recordPreimage p n sc r = recordPreimage p' n' sc' r' →
  p = p' ∧ n = n' ∧ sc = sc' ∧ identityFields r = identityFields r'.
Proof.
  intros ??? [] ??? [] H. unfold recordPreimage in H. unfold identityFields.
  peel_frames.
  apply (prefix_free (ok := occurrence_ok) (enc := writeOccurrence)) in H as [? H]; [|done..].
  apply (prefix_free (ok := occurrence_ok) (enc := writeOccurrence)) in H as [? H]; [|done..].
  apply (prefix_free_inj is_str writeString) in H; [|done..].
  split_and!; congruence.
Qed.

(** ** Comparisons return *)








Lemma foldl_add l n : foldl Z.add n l = n + sumZ l.
Proof.
  unfold sumZ. revert n. induction l as [|x l IH]; intros n; cbn [foldl]; [lia|]. rewrite IH, (IH (0 + x)). lia.
Qed.
Lemma sumZ_cons x l : sumZ (x :: l) = x + sumZ l.
Proof. unfold sumZ at 1. cbn [foldl]. rewrite foldl_add. lia. Qed.
#[global] Instance sumZ_Proper : Proper ((≡ₚ) ==> (=)) sumZ.
Proof. intros l l' H. induction H; rewrite ?sumZ_cons; lia. Qed.









(** C40: validation accepts only deterministic inventories.  In an accepted
    document attempt identifiers, coordinates and fact identifiers are unique,
    ordinals count from one, no base attempt follows a head attempt, and every fact has a
    valid digest, a supported kind and source, one payload, and evidence that
    names its own attempt. *)
Theorem validate_inventory doc limits :
  validateTraceDocument doc limits = Ok () → inventory limits (tsd_Attempts doc).
Proof. intros H. exact (proj1 (validateTraceDocument_inv _ _ H)). Qed.
