(* ===== verification/CompareEx.v ===== *)
(** * A worked comparison

    A small trace document, evaluated by the comparator: one scenario with two
    repetitions per revision, in which the head connects to a new host, writes a
    file with another digest, and starts the same process as the base.  The
    theorems of the comparator are instantiated at it. *)

From stdpp Require Import prelude gmap strings sorting.
From Stdlib Require Import ZArith Lia.
From S2P Require Import Prelude GoStd Sha256 Framing Model Json Observe Compare CompareSpec CompareDoc CompareLaws.
Local Open Scope Z_scope.

Definition hex64 (c : string) : string := String.concat "" (replicate 64 c).
Definition ex_digest (c : string) : Digest := "sha256:" +:+ hex64 c.

Definition ex_timing : NormalizedTiming := mkNormalizedTiming 0 false false.
Definition ex_path (p : string) : NormalizedPath :=
  mkNormalizedPath PathNamespaceWorkdirRoot 0 p "" p.

Definition ex_ref (rev : RevisionKind) (rep n : Z) (id : string) : RawEvidenceReference :=
  mkRawEvidenceReference (ex_digest "e") "events.jsonl" id n rev "build" rep.

Definition ex_process (rev : RevisionKind) (rep : Z) (id : string) : Fact :=
  mkFact id (ex_digest "a") FactKindProcessStart ObservationSourceHostObserved ex_timing
    (Some (mkProcessFact "start" "p1" "" "root" (ex_path "bin/tool") [] [] None 0))
    None None None None None None [ex_ref rev rep 1 id] [].

Definition ex_write (rev : RevisionKind) (rep : Z) (id d : string) : Fact :=
  mkFact id (ex_digest d) FactKindFilesystemWrite ObservationSourceHostObserved ex_timing
    None (Some (mkFilesystemFact "write" (ex_path "out.txt") None "" (ex_digest d) 3 false false))
    None None None None None [ex_ref rev rep 2 id] [].

Definition ex_connect (rev : RevisionKind) (rep : Z) (id : string) : Fact :=
  mkFact id (ex_digest "f") FactKindNetworkConnection ObservationSourceNetworkBrokerObserved ex_timing
    None None (Some (mkNetworkFact "connect" "tcp" "" "evil.example" 443 [] "allowed" 0))
    None None None None [ex_ref rev rep 3 id] [].

Definition ex_attempt (id : string) (ord : Z) (rev : RevisionKind) (rep : Z) (facts : list Fact) : AttemptTrace :=
  mkAttemptTrace id ord rev "build" rep CoverageComplete "" "" "" "" "" 0 0 0 facts [].

Definition ex_base : list AttemptTrace := [
  ex_attempt "b1" 1 RevisionKindBase 1 [ex_process "base" 1 "f1"; ex_write "base" 1 "f2" "b"];
  ex_attempt "b2" 2 RevisionKindBase 2 [ex_process "base" 2 "f3"; ex_write "base" 2 "f4" "b"]].

Definition ex_head : list AttemptTrace := [
  ex_attempt "h1" 3 RevisionKindHead 1
    [ex_process "head" 1 "f5"; ex_write "head" 1 "f6" "c"; ex_connect "head" 1 "f7"];
  ex_attempt "h2" 4 RevisionKindHead 2
    [ex_process "head" 2 "f8"; ex_write "head" 2 "f9" "c"; ex_connect "head" 2 "f10"]].

(** The same behaviour in both revisions. *)
Definition ex_head_same : list AttemptTrace := [
  ex_attempt "h1" 3 RevisionKindHead 1 [ex_process "head" 1 "f5"; ex_write "head" 1 "f6" "b"];
  ex_attempt "h2" 4 RevisionKindHead 2 [ex_process "head" 2 "f8"; ex_write "head" 2 "f9" "b"]].

(** The digest of the plan of the run ([pipeline.DigestRunPlanJSON]). *)
Definition ex_plan_json : bytes := to_bytes "{}".
Definition ex_plan_digest : Digest :=
  Eval vm_compute in Framing.digestBytes ("glassroot.dev/run-plan-json/v1" +:+ NUL) ex_plan_json.

Definition ex_doc (attempts : list AttemptTrace) : TraceSetDocument :=
  mkTraceSetDocument TraceSetSchemaV1Alpha1 (mkNormalizationProfile ProfileVersionV1Alpha1 [] "" "" "" [])
    ex_plan_digest (ex_digest "2") "run-1" (mkManifestVerification "strict" (ex_digest "2") true true true [])
    true true (mkEvidenceContext false true) attempts [].

Definition never : Context := λ _, None.

Definition ex_run (attempts : list AttemptTrace) : result CompareError FrozenDelta :=
  compareDocument DefaultLimits never (ex_doc attempts).

(** The frozen delta of a run (an empty one if it fails). *)
Definition zeroDelta : BehavioralDelta :=
  makeDelta (ex_doc []) [] [] [].
Definition frozen (r : result CompareError FrozenDelta) : FrozenDelta :=
  match r with Ok fz => fz | Err _ => mkFrozenDelta zeroDelta [] "" end.

Definition isOk {E A} (r : result E A) : bool := match r with Ok _ => true | Err _ => false end.

Definition ex_diff : list AttemptTrace := ex_base ++ ex_head.
Definition ex_equal : list AttemptTrace := ex_base ++ ex_head_same.

Definition firstRecord (l : list DeltaRecord) : DeltaRecord :=
  match l with
  | r :: _ => r
  | [] => coverageRecord "" (mkScenarioGroup "" [] []) (mkLimitation "" "" "")
  end.
(** The two deltas, evaluated once. *)
Definition ex_diff_delta : FrozenDelta := Eval vm_compute in frozen (ex_run ex_diff).
Definition ex_equal_delta : FrozenDelta := Eval vm_compute in frozen (ex_run ex_equal).

(** The new connection: the first record of the delta. *)
Definition ex_added : DeltaRecord := Eval vm_compute in firstRecord (bd_Records (fz_doc ex_diff_delta)).

(** ** Evaluating the example *)

Lemma firstRecord_in l : negb (ze_list l) = true → firstRecord l ∈ l.
Proof. destruct l; [done|]. intros _. apply list_elem_of_here. Qed.

Lemma ex_diff_ok : ex_run ex_diff = Ok ex_diff_delta.
Proof. vm_compute. reflexivity. Qed.
Lemma ex_equal_ok : ex_run ex_equal = Ok ex_equal_delta.
Proof. vm_compute. reflexivity. Qed.

Lemma ex_added_in : ex_added ∈ bd_Records (fz_doc ex_diff_delta).
Proof. apply (firstRecord_in (bd_Records (fz_doc ex_diff_delta))). vm_compute. reflexivity. Qed.

(** The head connects to a host the base never contacted; the comparator says so. *)
Example ex_added_connection :
  (dr_Kind ex_added, dr_FactKind ex_added, dr_Basis ex_added)
  = (DeltaKindAdded, FactKindNetworkConnection, ComparisonBasisCompleteObservation).
Proof. vm_compute. reflexivity. Qed.

Lemma ex_doc_same : doc_same (ex_doc ex_equal).
Proof.
  intros sc. unfold scenarioAttempts. destruct (decide (sc = "build"%string)) as [->|Hne].
  - vm_compute. repeat constructor.
  - rewrite !filter_none; [constructor|..]; intros a Ha [E _]; apply Hne; rewrite <- E;
      repeat (apply elem_of_cons in Ha as [->|Ha]; [reflexivity|]); by apply not_elem_of_nil in Ha.
Qed.


(** ** The comparator's properties at the example *)

Lemma compare_accounts_witness :
  doc_matched (ex_doc ex_diff) "build" (factKey (ex_connect "head" 2 "f10")) ∨
  ∃ r, r ∈ bd_Records (fz_doc ex_diff_delta) ∧ dr_ScenarioIDs r = ["build"%string]
    ∧ dr_Observed OnHead r = true ∧ about OnHead r (ex_connect "head" 2 "f10")
    ∧ snapshot (ex_connect "head" 2 "f10") ∈ dr_Facts OnHead r.
Proof.
  apply (compare_accounts DefaultLimits never (ex_doc ex_diff) ex_diff_delta
    (ex_attempt "h2" 4 RevisionKindHead 2
      [ex_process "head" 2 "f8"; ex_write "head" 2 "f9" "c"; ex_connect "head" 2 "f10"])
    (ex_connect "head" 2 "f10") ex_diff_ok).
  - do 3 apply list_elem_of_further. apply list_elem_of_here.
  - do 2 apply list_elem_of_further. apply list_elem_of_here.
Defined.

Lemma compare_absence_witness :
  ∃ sc, dr_ScenarioIDs ex_added = [sc]
    ∧ attemptsComplete (scenarioAttempts OnBase sc ex_diff) = true
    ∧ dr_Observed OnHead ex_added = true ∧ dr_Observed OnBase ex_added = false
    ∧ ∀ a f, a ∈ ex_diff → at_ScenarioID a = sc → rev_side a = OnBase →
        f ∈ at_Facts a → ¬ about OnHead ex_added f.
Proof.
  apply (compare_absence DefaultLimits never (ex_doc ex_diff) ex_diff_delta ex_added OnHead
    ex_diff_ok ex_added_in).
  vm_compute. reflexivity.
Defined.

Lemma compare_sound_witness :
  ∃ sc, dr_ScenarioIDs ex_added = [sc]
    ∧ docFacts (ex_doc ex_diff) OnHead sc (recordKey OnHead ex_added) ≠ []
    ∧ dr_Facts OnHead ex_added = snapshots (docFacts (ex_doc ex_diff) OnHead sc (recordKey OnHead ex_added))
    ∧ dr_SideEvidence OnHead ex_added
      = dedupeEvidence (evidenceRefs (docFacts (ex_doc ex_diff) OnHead sc (recordKey OnHead ex_added)))
    ∧ dr_Occurrence OnHead ex_added
      = occurrences (scenarioAttempts OnHead sc ex_diff) (recordKey OnHead ex_added).
Proof.
  apply (compare_sound DefaultLimits never (ex_doc ex_diff) ex_diff_delta ex_added OnHead
    ex_diff_ok ex_added_in).
  vm_compute. reflexivity.
Defined.

Lemma compare_unique_witness :
  NoDup (reportedKeys OnHead (bd_Records (fz_doc ex_diff_delta))).
Proof.
  pose proof (compare_unique DefaultLimits never (ex_doc ex_diff) ex_diff_delta OnHead) as H.
  specialize (H ex_diff_ok). exact H.
Defined.

Lemma compare_same_witness :
  (∀ r, r ∈ bd_Records (fz_doc ex_equal_delta) →
     dr_Kind r = DeltaKindCoverageChanged ∧ dr_Observed OnBase r = false ∧ dr_Observed OnHead r = false) ∧
  ((∀ a, a ∈ ex_equal → at_Coverage a = CoverageComplete) →
     bd_Records (fz_doc ex_equal_delta) = []).
Proof.
  pose proof (compare_same DefaultLimits never (ex_doc ex_equal) ex_equal_delta) as H.
  specialize (H ex_equal_ok ex_doc_same). exact H.
Defined.

Lemma compare_summary_witness :
  ds_TotalRecords (bd_Summary (fz_doc ex_diff_delta))
  = Z.of_nat (length (bd_Records (fz_doc ex_diff_delta))).
Proof.
  pose proof (compare_summary DefaultLimits never (ex_doc ex_diff) ex_diff_delta) as H.
  specialize (H ex_diff_ok). exact (proj1 H).
Defined.


Lemma validate_inventory_witness : inventory DefaultLimits ex_diff.
Proof. apply (validate_inventory (ex_doc ex_diff) DefaultLimits). vm_compute. reflexivity. Defined.

Lemma occurrence_profile_spec_witness :
  op_Repeatability (buildOccurrenceProfile 2 [mkRepetitionFacts 1 CoverageComplete 3; mkRepetitionFacts 2 CoverageComplete 1])
    = RepeatabilityVariable ↔
  (∀ r, r ∈ [mkRepetitionFacts 1 CoverageComplete 3; mkRepetitionFacts 2 CoverageComplete 1] →
     rfx_coverage r = CoverageComplete) ∧
  ∃ r r', r ∈ [mkRepetitionFacts 1 CoverageComplete 3; mkRepetitionFacts 2 CoverageComplete 1]
    ∧ r' ∈ [mkRepetitionFacts 1 CoverageComplete 3; mkRepetitionFacts 2 CoverageComplete 1]
    ∧ rfx_facts r ≠ rfx_facts r'.
Proof.
  apply (occurrence_profile_spec [mkRepetitionFacts 1 CoverageComplete 3; mkRepetitionFacts 2 CoverageComplete 1]).
  intros r [->|[->|?%not_elem_of_nil]%elem_of_cons]%elem_of_cons; done.
Defined.

Definition ex_records : list DeltaRecord :=
  (λ id, set_dr_ID id (coverageRecord "n" (mkScenarioGroup "build" [] []) (mkLimitation "x" "y" "")))
    <$> ["r2"; "r1"; "r3"]%string.

Lemma sort_records_canonical_witness :
  sortRecords ex_records = sortRecords (reverse ex_records) ∧ sortRecords ex_records ≡ₚ ex_records
  ∧ StronglySorted (not_after record_less) (sortRecords ex_records).
Proof.
  apply (sort_records_canonical ex_records (reverse ex_records)).
  - symmetry. apply reverse_Permutation.
  - apply (bool_decide_unpack _). vm_compute. exact I.
Defined.

Lemma ex_list_ok l : forallb (λ s, str_len s <? 2 ^ 63) l && (Z.of_nat (length l) <? 2 ^ 63) = true → is_list is_str l.
Proof.
  intros [Hl Hn]%andb_true_iff. apply Z.ltb_lt in Hn. split; [done|]. apply Forall_forall. intros s Hs.
  rewrite forallb_forall in Hl. apply list_elem_of_In, Hl in Hs. by apply Z.ltb_lt.
Qed.

Lemma ex_empty_occurrence_ok : occurrence_ok emptyOccurrence.
Proof. split; [unfold is_i64; cbn; lia..|reflexivity|reflexivity|split; [reflexivity|constructor]]. Qed.

Lemma ex_record_ok : record_ok (firstRecord ex_records).
Proof.
  split; [reflexivity..|apply ex_list_ok; reflexivity|apply ex_list_ok; reflexivity
    |apply ex_list_ok; reflexivity|exact ex_empty_occurrence_ok|exact ex_empty_occurrence_ok|reflexivity].
Qed.

Lemma record_identity_witness :
  recordPreimage "p" "n" "build" (firstRecord ex_records) = recordPreimage "p" "n" "build" (firstRecord ex_records)
  ∧ ("p" = "p" ∧ "n" = "n" ∧ "build" = "build"
     ∧ identityFields (firstRecord ex_records) = identityFields (firstRecord ex_records))%string.
Proof.
  split; [reflexivity|].
  apply (record_identity "p" "n" "build" (firstRecord ex_records) "p" "n" "build" (firstRecord ex_records));
    first [exact ex_record_ok | reflexivity].
Defined.

(** ** The identity of a coverage-limited record

    [compareScenario] overwrites the basis of a one-sided record after
    [makeRecord] has computed its identity from another basis: when the other
    revision is incomplete, the identity of the record is not that of its
    contents. *)
Definition ex_incomplete (a : AttemptTrace) : AttemptTrace :=
  mkAttemptTrace (at_AttemptID a) (at_Ordinal a) (at_Revision a) (at_ScenarioID a) (at_Repetition a)
    CoverageIncomplete "" "" "" "" "" 0 0 0 (at_Facts a) [].

Definition ex_partial : list AttemptTrace := (ex_incomplete <$> ex_base) ++ ex_head.

Definition staleID (r : DeltaRecord) : bool :=
  dr_ID r != deltaRecordID ComparisonProfileVersionV1Alpha1 ProfileVersionV1Alpha1
               (firstScenario (dr_ScenarioIDs r)) r.

Example coverage_limited_identity_is_stale :
  ((λ r, (dr_Kind r, dr_Basis r, staleID r)) <$> bd_Records (fz_doc ex_diff_delta))
  = [(DeltaKindAdded, ComparisonBasisCompleteObservation, false);
     (DeltaKindModified, ComparisonBasisCompleteObservation, false)] ∧
  (DeltaKindCoverageChanged, ComparisonBasisCoverageLimited, true) ∈
  ((λ r, (dr_Kind r, dr_Basis r, staleID r)) <$> bd_Records (fz_doc (frozen (ex_run ex_partial)))).
Proof.
  split; [vm_compute; reflexivity|]. apply (bool_decide_unpack _). vm_compute. exact I.
Qed.
