(* ===== verification/Policy.v ===== *)
(** * The strict policy ([internal/policy]: evaluation)

    From a frozen behavioural delta to findings: validation of the delta, the
    built-in rules, the findings they make, their order, summary and overall
    disposition.  The definitions follow [limits.go], [profile.go], [catalog.go],
    [digest.go], [rules.go] and [evaluator.go].  Names the package shares with
    [internal/compare] are the package's own here. *)

From stdpp Require Import prelude gmap strings.
From Stdlib Require Import ZArith Lia.
From S2P Require Import Prelude GoStd Sha256 Framing Model Json Observe Compare.
Local Open Scope Z_scope.

(** ** [errors.go] *)

Record PolicyError := mkPolicyError {
  pe_Code : string;
  pe_Stage : string;
  pe_Rule : string;
  pe_Record : string;
  pe_Field : string
}.

Definition errCode (code stage rule record field : string) : PolicyError :=
  mkPolicyError code stage rule record field.

Definition contextErr (c : CtxCause) : PolicyError :=
  match c with
  | DeadlineExceeded => errCode "policy-timeout" "context" "" "" "deadline"
  | Canceled => errCode "context-cancelled" "context" "" "" "cancelled"
  end.

Definition poll (ctx : Context) (n : nat) : result PolicyError unit :=
  match ctx n with None => Ok () | Some c => Err (contextErr c) end.

(** ** [limits.go] *)

Definition MaxTitleBytes : Z := 256.
Definition MaxRuleIDBytes : Z := 128.
Definition MaxRuleVersionBytes : Z := 128.

Record Limits := mkLimits {
  l_MaxDeltaRecords : Z;
  l_MaxFindings : Z;
  l_MaxFindingsPerDeltaRecord : Z;
  l_MaxDeltaRecordIDsPerFinding : Z;
  l_MaxScenarioIDsPerFinding : Z;
  l_MaxEvidenceRefsPerFinding : Z;
  l_MaxEvidenceRefsTotal : Z;
  l_MaxLimitationsPerFinding : Z;
  l_MaxLimitationsTotal : Z;
  l_MaxTitleBytes : Z;
  l_MaxSummaryBytes : Z;
  l_MaxRuleIDBytes : Z;
  l_MaxRuleVersionBytes : Z;
  l_MaxEvaluationJSONBytes : Z
}.

#[global] Instance Limits_eq_dec : EqDecision Limits.
Proof. solve_decision. Defined.

Definition zeroLimits : Limits := mkLimits 0 0 0 0 0 0 0 0 0 0 0 0 0 0.
Definition DefaultLimits : Limits :=
  mkLimits 100000 100000 8 128 64 1024 200000 1000 10000 256 1024 128 128 (64 * 2 ^ 20).

Definition validateLimits (l : Limits) : result PolicyError Limits :=
  reject_if (l == zeroLimits) (errCode "invalid-limits" "limits" "" "" "zero") ;;
  foldR (λ _ '(v, max, name),
           reject_if ((v <=? 0) || (max <? v)) (errCode "invalid-limits" "limits" "" "" name))
    () [ (l_MaxDeltaRecords l, 100000, "maxDeltaRecords"%string);
         (l_MaxFindings l, 100000, "maxFindings"%string);
         (l_MaxFindingsPerDeltaRecord l, 8, "maxFindingsPerDeltaRecord"%string);
         (l_MaxDeltaRecordIDsPerFinding l, 128, "maxDeltaRecordIdsPerFinding"%string);
         (l_MaxScenarioIDsPerFinding l, 64, "maxScenarioIdsPerFinding"%string);
         (l_MaxEvidenceRefsPerFinding l, 1024, "maxEvidenceRefsPerFinding"%string);
         (l_MaxEvidenceRefsTotal l, 200000, "maxEvidenceRefsTotal"%string);
         (l_MaxLimitationsPerFinding l, 1000, "maxLimitationsPerFinding"%string);
         (l_MaxLimitationsTotal l, 10000, "maxLimitationsTotal"%string);
         (l_MaxTitleBytes l, MaxTitleBytes, "maxTitleBytes"%string);
         (l_MaxSummaryBytes l, 1024, "maxSummaryBytes"%string);
         (l_MaxRuleIDBytes l, MaxRuleIDBytes, "maxRuleIdBytes"%string);
         (l_MaxRuleVersionBytes l, MaxRuleVersionBytes, "maxRuleVersionBytes"%string);
         (l_MaxEvaluationJSONBytes l, 64 * 2 ^ 20, "maxEvaluationJsonBytes"%string) ] ;;
  mret l.

(** ** [profile.go] *)

Definition PolicyProfileNameStrict : string := "strict".
Definition PolicyProfileVersionStrictV1Alpha1 : string := "glassroot.dev/policy-profile/strict/v1alpha1".
Definition BuiltinRuleSetVersionStrictV1Alpha1 : string := "glassroot.dev/builtin-rules/strict/v1alpha1".
Definition SchemaVersionPolicyEvaluationV1Alpha1 : string := "glassroot.dev/policy-evaluation/v1alpha1".

Record PolicyProfile := mkPolicyProfile { pp_Name : string; pp_Version : string }.

Definition PolicyProfileStrict : PolicyProfile :=
  mkPolicyProfile PolicyProfileNameStrict PolicyProfileVersionStrictV1Alpha1.

Definition validateProfile (p : PolicyProfile) : result PolicyError unit :=
  reject_if ((pp_Name p != PolicyProfileNameStrict) || (pp_Version p != PolicyProfileVersionStrictV1Alpha1))
    (errCode "invalid-policy-profile" "profile" "" "" "profile").

(** ** [catalog.go] *)

Record ruleMeta := mkRuleMeta {
  rm_ID : string;
  rm_Version : string;
  rm_Title : string;
  rm_Severity : Severity;
  rm_Disposition : Disposition;
  rm_Emit : bool
}.

Definition ruleVersionV1Alpha1 : string := "v1alpha1".

Definition ruleCatalog : list ruleMeta := [
  mkRuleMeta "GR-OBS-001" ruleVersionV1Alpha1 "Observation coverage incomplete or weakened"
    SeverityMedium DispositionRequiresReview true;
  mkRuleMeta "GR-PROC-001" ruleVersionV1Alpha1 "New process or executable"
    SeverityMedium DispositionRequiresReview true;
  mkRuleMeta "GR-FS-001" ruleVersionV1Alpha1 "New executable file or artifact"
    SeverityHigh DispositionRequiresReview true;
  mkRuleMeta "GR-FS-002" ruleVersionV1Alpha1 "New filesystem access outside configured roots"
    SeverityMedium DispositionRequiresReview true;
  mkRuleMeta "GR-NET-001" ruleVersionV1Alpha1 "New or changed network behavior"
    SeverityHigh DispositionRequiresReview true;
  mkRuleMeta "GR-ART-001" ruleVersionV1Alpha1 "New or changed artifact"
    SeverityMedium DispositionRequiresReview true;
  mkRuleMeta "GR-DET-001" ruleVersionV1Alpha1 "Behavioral repeatability degraded"
    SeverityMedium DispositionRequiresReview true;
  mkRuleMeta "GR-LIMIT-001" ruleVersionV1Alpha1 "Resource limit behavior introduced"
    SeverityHigh DispositionRequiresReview true;
  mkRuleMeta "GR-CONFIG-001" ruleVersionV1Alpha1 "Trusted security configuration changed in head"
    "" "" false;
  mkRuleMeta "GR-WAIVER-001" ruleVersionV1Alpha1 "Waiver added, changed, invalid, or expired"
    "" "" false ].

Definition zeroRule : ruleMeta := mkRuleMeta "" "" "" "" "" false.

Definition ruleByID (id : string) : ruleMeta :=
  default zeroRule (list_find (λ r, rm_ID r = id) ruleCatalog ≫= λ p, Some p.2).

Definition validateRuleCatalog : result PolicyError unit :=
  foldR (λ (seen : gset string) r,
    reject_if ((rm_ID r == ""%string) || (rm_Version r == ""%string) || (rm_Title r == ""%string)
               || (MaxRuleIDBytes <? str_len (rm_ID r)) || (MaxRuleVersionBytes <? str_len (rm_Version r))
               || (MaxTitleBytes <? str_len (rm_Title r)))
      (errCode "invalid-rule-catalog" "catalog" (rm_ID r) "" "metadata") ;;
    reject_if (bool_decide (rm_ID r ∈ seen)) (errCode "invalid-rule-catalog" "catalog" (rm_ID r) "" "id") ;;
    mret ({[ rm_ID r ]} ∪ seen)) ∅ ruleCatalog ;;
  mret ().

(** ** [digest.go] *)

Definition evaluationJSONDomain : string := "glassroot.dev/policy-evaluation-json/v1" +:+ NUL.
Definition findingIDDomain : string := "glassroot.dev/finding-id/v1" +:+ NUL.

Definition sortedStrings (l : list string) : list string := sort_strings l.

Definition findingPreimage (profileVersion ruleSetVersion ruleID ruleVersion : string)
    (deltaRecordIDs : list string) (scope : string) (scenarioIDs : list string) : bytes :=
  writeString profileVersion ++ writeString ruleSetVersion ++ writeString ruleID ++
  writeString ruleVersion ++ writeStrings (sortedStrings deltaRecordIDs) ++ writeString scope ++
  writeStrings (sortedStrings scenarioIDs).

Definition findingID (profileVersion ruleSetVersion ruleID ruleVersion : string)
    (deltaRecordIDs : list string) (scope : string) (scenarioIDs : list string) : string :=
  "finding-" +:+ sha256_hex (to_bytes findingIDDomain ++
    findingPreimage profileVersion ruleSetVersion ruleID ruleVersion deltaRecordIDs scope scenarioIDs).

(** ** [rules.go]: predicates on records *)

(** An [int] loop over the head facts and similar helpers use [existsb] where the
    loop returns [true] at the first hit. *)
Definition containsString (l : list string) (v : string) : bool := existsb (λ x, x == v) l.
Definition first (l : list string) : string := match l with x :: _ => x | [] => ""%string end.

(** The non-empty strings, each once, sorted. *)
Definition sortedUniqueStrings (l : list string) : list string :=
  sort_strings (elements (list_to_set (C := gset string) (filter (λ v, v ≠ ""%string) l))).

Definition headCountIncrease (rec : DeltaRecord) : bool :=
  let b := dr_BaseOccurrence rec in
  let h := dr_HeadOccurrence rec in
  if (op_Coverage b == CoverageAssessmentNone) || (op_Coverage h == CoverageAssessmentNone) then false
  else if op_TotalKnownCount b <? op_TotalKnownCount h then true
  else if op_MaximumKnownCount b <? op_MaximumKnownCount h then true
  else false.

Definition headPositive (rec : DeltaRecord) : bool :=
  if negb (dr_HeadObserved rec) || (Z.of_nat (length (dr_HeadFacts rec)) == 0) then false
  else if bool_decide (dr_Kind rec ∈ [DeltaKindAdded; DeltaKindModified; DeltaKindCoverageChanged]) then true
  else if dr_Kind rec == DeltaKindCountChanged then headCountIncrease rec
  else false.

Definition headWarning (rec : DeltaRecord) : bool :=
  (dr_FactKind rec == "observer-warning"%string) || (dr_FactKind rec == "unsupported-observation"%string).

Definition onlyChangedExitOrDuration (fields : list string) : bool :=
  match fields with
  | [] => false
  | _ => forallb (λ f, (f == "process.exitCode"%string) || (f == "process.durationMillis"%string)) fields
  end.

Definition isProcessNew (rec : DeltaRecord) : bool :=
  (dr_FactKind rec == "process-start"%string)
  && ((dr_Kind rec != DeltaKindModified) || negb (onlyChangedExitOrDuration (dr_ChangedFields rec))).

Definition isFilesystemFact (rec : DeltaRecord) : bool :=
  bool_decide (dr_FactKind rec ∈ ["filesystem-create"; "filesystem-read"; "filesystem-write";
    "filesystem-delete"; "filesystem-rename"; "filesystem-chmod"]%string).
Definition isNetworkFact (rec : DeltaRecord) : bool :=
  (dr_FactKind rec == "network-connection"%string) || (dr_FactKind rec == "dns-query"%string).
Definition isArtifactFact (rec : DeltaRecord) : bool := dr_FactKind rec == "artifact-activity"%string.
Definition isResourceFact (rec : DeltaRecord) : bool := dr_FactKind rec == "resource-limit"%string.

(** A modified record counts only if the executable flag changed or the count grew. *)
Definition executableMatters (rec : DeltaRecord) (field : string) : bool :=
  negb ((dr_Kind rec == DeltaKindModified) && negb (containsString (dr_ChangedFields rec) field)
        && negb (headCountIncrease rec)).

Definition executableHeadBehavior (rec : DeltaRecord) : bool :=
  (isFilesystemFact rec
   && existsb (λ f, match dfs_Filesystem f with
                    | Some p => dff_Executable p && executableMatters rec "filesystem.executable"
                    | None => false
                    end) (dr_HeadFacts rec))
  || (isArtifactFact rec
      && existsb (λ f, match dfs_Artifact f with
                       | Some p => daf_Executable p && executableMatters rec "artifact.executable"
                       | None => false
                       end) (dr_HeadFacts rec)).

Definition mutatingOperations : list string :=
  ["create"; "write"; "delete"; "rename"; "chmod"; "permission-change"]%string.
Definition readingOperations : list string := ["read"; "stat"; "metadata"; "metadata-read"]%string.

(** The first head fact outside the configured roots decides; [None] is the Go
    result [("", false, nil)]. *)
Fixpoint outsideRootLoop (recID : string) (facts : list DeltaFactSnapshot) :
    result PolicyError (option Severity) :=
  match facts with
  | [] => Ok None
  | f :: facts =>
    match dfs_Filesystem f with
    | None => outsideRootLoop recID facts
    | Some p =>
      if dnp_Namespace (dff_Path p) != "absolute-unmapped"%string then outsideRootLoop recID facts
      else if containsString mutatingOperations (dff_Operation p) then Ok (Some SeverityHigh)
      else if containsString readingOperations (dff_Operation p) then Ok (Some SeverityMedium)
      else Err (errCode "invalid-delta-record" "rules" "GR-FS-002" recID "filesystem.operation")
    end
  end.
Definition outsideRootSeverity (rec : DeltaRecord) : result PolicyError (option Severity) :=
  outsideRootLoop (dr_ID rec) (dr_HeadFacts rec).

Definition repeatabilityRank (r : RepeatabilityAssessment) : Z :=
  if r == RepeatabilityStable then 0
  else if r == RepeatabilitySingleSample then 1
  else if r == RepeatabilityVariable then 2
  else if r == RepeatabilityNotAssessable then 3
  else 4.
Definition repeatabilityWorse (base head : RepeatabilityAssessment) : bool :=
  repeatabilityRank base <? repeatabilityRank head.

Definition confidenceRank (c : Confidence) : Z :=
  if c == ConfidenceLow then 0 else if c == ConfidenceMedium then 1
  else if c == ConfidenceHigh then 2 else -1.

Definition classifyPolicyConfidence (basis : ComparisonBasis) (source : ObservationSource)
    (targetBehavior : bool) : Confidence :=
  let conf :=
    if basis == ComparisonBasisCompleteObservation then ConfidenceHigh
    else if bool_decide (basis ∈ [ComparisonBasisSingleSample; ComparisonBasisRepetitionVariable])
    then ConfidenceMedium else ConfidenceLow in
  let cap :=
    if bool_decide (source ∈ [ObservationSourceGuestAgentReported; ObservationSourceWorkloadReported;
                              ObservationSourceStaticAnalysisDerived]) then ConfidenceMedium
    else if source == ObservationSourceModelInferred then ConfidenceLow
    else if (source == ObservationSourceSyntheticTestGenerated) && targetBehavior then ConfidenceLow
    else ConfidenceHigh in
  if confidenceRank cap <? confidenceRank conf then cap else conf.

Definition evidenceForRecord (rec : DeltaRecord) : list EvidenceRef :=
  if dr_HeadObserved rec && (0 <? Z.of_nat (length (dr_HeadEvidence rec))) then dr_HeadEvidence rec
  else if dr_BaseObserved rec && (0 <? Z.of_nat (length (dr_BaseEvidence rec))) then dr_BaseEvidence rec
  else dr_Evidence rec.

Definition evidenceKey (r : EvidenceRef) : string :=
  er_Revision r +:+ NUL +:+ er_ScenarioID r +:+ NUL +:+ itoa (er_Repetition r) +:+ NUL +:+
  itoa64 (er_EventSequence r) +:+ NUL +:+ first (er_EventIDs r) +:+ NUL +:+
  er_EventStreamDigest r +:+ NUL +:+ er_EventStreamPath r.

Definition dedupeEvidence (l : list EvidenceRef) : list EvidenceRef :=
  let seen : gmap string EvidenceRef := foldl (λ m r, <[evidenceKey r := r]> m) ∅ l in
  omap (λ k, seen !! k) (sorted_keys seen).

(** ** [rules.go]: findings *)

Record findingSpec := mkFindingSpec {
  fs_ruleID : string;
  fs_severity : Severity;
  fs_confidence : Confidence;
  fs_disposition : Disposition;
  fs_recordIDs : list string;
  fs_scenarioIDs : list string;
  fs_baseObserved : bool;
  fs_headObserved : bool;
  fs_evidence : list EvidenceRef;
  fs_limitations : list Limitation;
  fs_scope : string
}.

(** The spec of a rule that fires on a record. *)
Definition recordSpec (rec : DeltaRecord) (rule : string) (sev : Severity) (conf : Confidence) : findingSpec :=
  mkFindingSpec rule sev conf DispositionRequiresReview [dr_ID rec] (dr_ScenarioIDs rec)
    (dr_BaseObserved rec) (dr_HeadObserved rec) (evidenceForRecord rec) (dr_Limitations rec) "record".

(** [if cond { add(rule, sev, requires-review) }] *)
Definition addIf (cond : bool) (rec : DeltaRecord) (rule : string) (sev : Severity) : list findingSpec :=
  if cond then [recordSpec rec rule sev (classifyPolicyConfidence (dr_Basis rec) (dr_Source rec) true)] else [].

Definition specsForRecord (rec : DeltaRecord) : result PolicyError (list findingSpec) :=
  if (dr_Kind rec == DeltaKindCoverageChanged)
     && negb (dr_HeadObserved rec && (0 <? Z.of_nat (length (dr_HeadFacts rec)))) then
    let sev := if op_Coverage (dr_HeadOccurrence rec) != CoverageAssessmentComplete
               then SeverityHigh else SeverityMedium in
    Ok (addIf true rec "GR-OBS-001" sev)
  else
    let pos := headPositive rec in
    outside ← (if pos && isFilesystemFact rec then outsideRootSeverity rec else Ok None);
    let det := (dr_Kind rec == DeltaKindStabilityChanged)
               && repeatabilityWorse (op_Repeatability (dr_BaseOccurrence rec))
                    (op_Repeatability (dr_HeadOccurrence rec)) in
    let detConf := if (dr_Basis rec == ComparisonBasisCoverageLimited)
                      || (op_Coverage (dr_HeadOccurrence rec) != CoverageAssessmentComplete)
                   then ConfidenceLow else ConfidenceMedium in
    mret (
      addIf (headWarning rec && bool_decide (dr_Kind rec ∈
               [DeltaKindAdded; DeltaKindModified; DeltaKindCoverageChanged]))
        rec "GR-OBS-001" SeverityMedium ++
      addIf (pos && isProcessNew rec) rec "GR-PROC-001" SeverityMedium ++
      addIf (pos && executableHeadBehavior rec) rec "GR-FS-001" SeverityHigh ++
      match outside with Some sev => addIf true rec "GR-FS-002" sev | None => [] end ++
      addIf (pos && isNetworkFact rec) rec "GR-NET-001" SeverityHigh ++
      addIf (pos && isArtifactFact rec) rec "GR-ART-001" SeverityMedium ++
      (if det then [recordSpec rec "GR-DET-001" SeverityMedium detConf] else []) ++
      addIf (pos && isResourceFact rec) rec "GR-LIMIT-001" SeverityHigh).

Definition summaryForRule (ruleID scope : string) : string :=
  if ruleID == "GR-OBS-001"%string then
    if scope == "global-incomplete"%string then
      "Observation coverage or execution completeness is insufficient for an adequate strict-profile evaluation."
    else if scope == "global-synthetic"%string then
      "The policy evaluation is based on synthetic evidence or no target code execution; review is required before drawing target-behavior conclusions."
    else "Observation coverage or observer-reported state requires review."
  else if ruleID == "GR-PROC-001"%string then
    "Typed comparison data shows new or increased head process behavior requiring review."
  else if ruleID == "GR-FS-001"%string then
    "Typed comparison data shows new or changed executable file or artifact behavior requiring review."
  else if ruleID == "GR-FS-002"%string then
    "Typed comparison data shows head filesystem access outside configured roots requiring review."
  else if ruleID == "GR-NET-001"%string then
    "Typed comparison data shows new or changed head network behavior requiring review."
  else if ruleID == "GR-ART-001"%string then
    "Typed comparison data shows new or changed head artifact behavior requiring review."
  else if ruleID == "GR-DET-001"%string then
    "Typed comparison data shows degraded behavioral repeatability requiring review."
  else if ruleID == "GR-LIMIT-001"%string then
    "Typed comparison data shows new or changed head resource-limit behavior requiring review."
  else "Typed comparison data matched a built-in rule requiring review.".

(** [if s == "" { s = d }] *)
Definition orElse (s d : string) : string := if s == ""%string then d else s.

Definition makeFinding (limits : Limits) (sp : findingSpec) : result PolicyError Finding :=
  let rule := ruleByID (fs_ruleID sp) in
  reject_if ((rm_ID rule == ""%string) || negb (rm_Emit rule))
    (errCode "invalid-rule-catalog" "findings" (fs_ruleID sp) "" "rule") ;;
  let scope := orElse (fs_scope sp) "record" in
  let ids := sortedUniqueStrings (fs_recordIDs sp) in
  let scenarios := sortedUniqueStrings (fs_scenarioIDs sp) in
  reject_if ((l_MaxDeltaRecordIDsPerFinding limits <? Z.of_nat (length ids))
             || (l_MaxScenarioIDsPerFinding limits <? Z.of_nat (length scenarios)))
    (errCode "finding-limit" "findings" (rm_ID rule) (first ids) "identity") ;;
  let evidence := dedupeEvidence (fs_evidence sp) in
  reject_if (l_MaxEvidenceRefsPerFinding limits <? Z.of_nat (length evidence))
    (errCode "evidence-reference-limit" "findings" (rm_ID rule) (first ids) "evidence") ;;
  let limitations := sortLimitations (fs_limitations sp) in
  reject_if (l_MaxLimitationsPerFinding limits <? Z.of_nat (length limitations))
    (errCode "finding-limit" "findings" (rm_ID rule) (first ids) "limitations") ;;
  mret {|
    fd_SchemaVersion := SchemaVersionFindingV1Alpha1;
    fd_ID := findingID PolicyProfileVersionStrictV1Alpha1 BuiltinRuleSetVersionStrictV1Alpha1
               (rm_ID rule) (rm_Version rule) ids scope scenarios;
    fd_RuleID := rm_ID rule;
    fd_RuleVersion := rm_Version rule;
    fd_Title := rm_Title rule;
    fd_Severity := orElse (fs_severity sp) (rm_Severity rule);
    fd_Confidence := orElse (fs_confidence sp) ConfidenceLow;
    fd_Disposition := orElse (fs_disposition sp) (rm_Disposition rule);
    fd_Summary := summaryForRule (rm_ID rule) scope;
    fd_DeltaRecordIDs := ids;
    fd_Evidence := evidence;
    fd_ScenarioIDs := scenarios;
    fd_BaseObserved := fs_baseObserved sp;
    fd_HeadObserved := fs_headObserved sp;
    fd_Waived := false;
    fd_Waivers := [];
    fd_Limitations := limitations |}.

Definition completenessLimitations (delta : BehavioralDelta) : list Limitation :=
  (if negb (bd_ExecutionComplete delta) then
     [mkLimitation "execution-incomplete"
        "Execution did not complete; missing behavior must not be treated as absent." ""] else []) ++
  (if negb (bd_EvidenceComplete delta) then
     [mkLimitation "evidence-incomplete"
        "Evidence collection did not complete; missing behavior must not be treated as absent." ""] else []).

Definition syntheticContextRequiresReview (c : EvidenceContext) : bool :=
  ec_SyntheticEvidence c || negb (ec_ExecutesTargetCode c).

Definition syntheticContextLimitations (c : EvidenceContext) : list Limitation :=
  sortLimitations (
    (if ec_SyntheticEvidence c then
       [mkLimitation "synthetic-evidence"
          "Policy evaluation is based on synthetic evidence; it is not target workload behavior." ""] else []) ++
    (if negb (ec_ExecutesTargetCode c) then
       [mkLimitation "synthetic-no-target-execution"
          "No target code was executed; absence of ordinary behavioral deltas is not a real workload pass." ""]
     else [])).

Definition globalSpec (sev : Severity) (disp : Disposition) (scope : string) (lims : list Limitation) : findingSpec :=
  mkFindingSpec "GR-OBS-001" sev ConfidenceHigh disp [] [] false false [] lims scope.

(** The findings about the run as a whole. *)
Definition globalSpecs (delta : BehavioralDelta) : list findingSpec :=
  let incomplete := negb (bd_ExecutionComplete delta) || negb (bd_EvidenceComplete delta) in
  (if incomplete then
     [globalSpec SeverityHigh DispositionFailed "global-incomplete" (completenessLimitations delta)] else []) ++
  (if negb incomplete && syntheticContextRequiresReview (bd_EvidenceContext delta) then
     [globalSpec SeverityMedium DispositionRequiresReview "global-synthetic"
        (syntheticContextLimitations (bd_EvidenceContext delta))] else []).

(** Loop state of [evaluateRules]. *)
Record erState := mkErState {
  ers_findings : list Finding;
  ers_perRecordRuleCount : gmap string Z;
  ers_poll : nat
}.

Definition evaluateSpec (limits : Limits) (rec : DeltaRecord) (s : erState) (sp : findingSpec) :
    result PolicyError erState :=
  let count := default 0 (ers_perRecordRuleCount s !! dr_ID rec) + 1 in
  reject_if (l_MaxFindingsPerDeltaRecord limits <? count)
    (errCode "finding-limit" "findings" (fs_ruleID sp) (dr_ID rec) "count") ;;
  f ← makeFinding limits sp;
  mret (mkErState (ers_findings s ++ [f]) (<[dr_ID rec := count]> (ers_perRecordRuleCount s)) (ers_poll s)).

Definition evaluateRecord (limits : Limits) (ctx : Context) (s : erState) (rec : DeltaRecord) :
    result PolicyError erState :=
  poll ctx (ers_poll s) ;;
  specs ← specsForRecord rec;
  s' ← foldR (evaluateSpec limits rec) s specs;
  mret (mkErState (ers_findings s') (ers_perRecordRuleCount s') (S (ers_poll s))).

(** Polls the context before the rules and before every record. *)
Definition evaluateRules (limits : Limits) (ctx : Context) (delta : BehavioralDelta) :
    result PolicyError (list Finding) :=
  poll ctx 0 ;;
  globals ← mapR (makeFinding limits) (globalSpecs delta);
  s ← foldR (evaluateRecord limits ctx) (mkErState globals ∅ 1) (bd_Records delta);
  mret (ers_findings s).

(** *** Order and summary *)

Definition dispositionRank (d : Disposition) : Z :=
  if d == DispositionFailed then 0
  else if d == DispositionRequiresReview then 1
  else if d == DispositionPassed then 2
  else if d == DispositionWaived then 3
  else 9.

Definition severityRank (s : Severity) : Z :=
  if s == SeverityCritical then 0
  else if s == SeverityHigh then 1
  else if s == SeverityMedium then 2
  else if s == SeverityLow then 3
  else if s == SeverityInfo then 4
  else 9.

(** [scenarioRank[id] = i] in a loop: the last position of a repeated id. *)
Definition scenarioRanks (ids : list string) : gmap string Z :=
  (foldl (λ '(m, i) id, (<[id := i]> m, i + 1)) (∅, 0) ids).1.

Definition minScenarioRank (rank : gmap string Z) (ids : list string) : Z :=
  foldl (λ best id, match rank !! id with
                    | Some r => if r <? best then r else best
                    | None => best
                    end) (2 ^ 30) ids.

Definition finding_less (rank : gmap string Z) : Finding → Finding → bool :=
  by_key (λ f, dispositionRank (fd_Disposition f)) Z.ltb
  (by_key (λ f, severityRank (fd_Severity f)) Z.ltb
  (by_key fd_RuleID str_lt
  (by_key (λ f, minScenarioRank rank (fd_ScenarioIDs f)) Z.ltb
  (by_key (λ f, first (fd_DeltaRecordIDs f)) str_lt
  (by_last fd_ID str_lt))))).

Definition sortFindings (findings : list Finding) (delta : BehavioralDelta) : list Finding :=
  stable_sort (finding_less (scenarioRanks (bd_ScenarioIDs delta))) findings.

Record EvaluationSummary := mkEvaluationSummary {
  es_TotalFindings : Z;
  es_Info : Z;
  es_Low : Z;
  es_Medium : Z;
  es_High : Z;
  es_Critical : Z;
  es_RequiresReview : Z;
  es_Failed : Z;
  es_Passed : Z;
  es_Waived : Z
}.

Definition bump (b : bool) (n : Z) : Z := if b then n + 1 else n.

Definition summarizeFinding (s : EvaluationSummary) (f : Finding) : EvaluationSummary :=
  let sev := fd_Severity f in
  let disp := fd_Disposition f in
  mkEvaluationSummary (es_TotalFindings s)
    (bump (sev == SeverityInfo) (es_Info s)) (bump (sev == SeverityLow) (es_Low s))
    (bump (sev == SeverityMedium) (es_Medium s)) (bump (sev == SeverityHigh) (es_High s))
    (bump (sev == SeverityCritical) (es_Critical s))
    (bump (disp == DispositionRequiresReview) (es_RequiresReview s))
    (bump (disp == DispositionFailed) (es_Failed s)) (bump (disp == DispositionPassed) (es_Passed s))
    (bump (disp == DispositionWaived) (es_Waived s)).

Definition summarizeFindings (findings : list Finding) : EvaluationSummary :=
  foldl summarizeFinding
    (mkEvaluationSummary (Z.of_nat (length findings)) 0 0 0 0 0 0 0 0 0) findings.

(** ** [evaluator.go] *)

Definition supportedDeltaKind (k : DeltaKind) : bool :=
  bool_decide (k ∈ [DeltaKindAdded; DeltaKindRemoved; DeltaKindModified; DeltaKindCountChanged;
    DeltaKindOrderChanged; DeltaKindStabilityChanged; DeltaKindCoverageChanged]).
Definition supportedBasis (b : ComparisonBasis) : bool :=
  bool_decide (b ∈ [ComparisonBasisCompleteObservation; ComparisonBasisSingleSample;
    ComparisonBasisRepetitionVariable; ComparisonBasisCoverageLimited; ComparisonBasisAmbiguousCorrelation]).
Definition supportedFactKind (k : string) : bool :=
  bool_decide (k ∈ ["process-start"; "process-exit"; "filesystem-create"; "filesystem-read";
    "filesystem-write"; "filesystem-delete"; "filesystem-rename"; "filesystem-chmod"; "dns-query";
    "network-connection"; "artifact-activity"; "scenario-started"; "scenario-completed";
    "observer-warning"; "unsupported-observation"; "resource-limit"; "sequence"]%string).
Definition supportedSource (s : ObservationSource) : bool :=
  bool_decide (s ∈ [ObservationSourceHostObserved; ObservationSourceNetworkBrokerObserved;
    ObservationSourceSandboxRuntimeObserved; ObservationSourceGuestAgentReported;
    ObservationSourceWorkloadReported; ObservationSourceStaticAnalysisDerived;
    ObservationSourceModelInferred; ObservationSourceSyntheticTestGenerated]).
Definition supportedCoverage (c : CoverageAssessment) : bool :=
  bool_decide (c ∈ [CoverageAssessmentComplete; CoverageAssessmentPartial; CoverageAssessmentNone]).
Definition supportedRepeatability (r : RepeatabilityAssessment) : bool :=
  bool_decide (r ∈ [RepeatabilityStable; RepeatabilityVariable; RepeatabilitySingleSample;
    RepeatabilityNotAssessable]).

(** The package repeats [compare]'s [validDigest] verbatim. *)
Definition validDigest (d : Digest) : bool := Compare.validDigest d.

Definition validateOccurrence (p : OccurrenceProfile) : result PolicyError unit :=
  reject_if ((op_PlannedRepetitionCount p <? 0) || (op_CompleteRepetitionCount p <? 0)
             || (op_IncompleteRepetitionCount p <? 0) || (op_MinimumKnownCount p <? 0)
             || (op_MaximumKnownCount p <? 0) || (op_TotalKnownCount p <? 0))
    (errCode "invalid-occurrence-profile" "occurrence" "" "" "count") ;;
  reject_if ((op_Coverage p != ""%string) && negb (supportedCoverage (op_Coverage p)))
    (errCode "invalid-occurrence-profile" "occurrence" "" "" "coverage") ;;
  reject_if ((op_Repeatability p != ""%string) && negb (supportedRepeatability (op_Repeatability p)))
    (errCode "invalid-occurrence-profile" "occurrence" "" "" "repeatability").

(** [if err := f(); err != nil { return errCode(...) }]: the error is wrapped. *)
Definition wrapErr {A} (m : result PolicyError A) (e : PolicyError) : result PolicyError A :=
  match m with Ok a => Ok a | Err _ => Err e end.

Definition validateEvidenceRef (record : string) (ref : EvidenceRef) : result PolicyError unit :=
  reject_if ((er_EventStreamDigest ref != ""%string) && negb (validDigest (er_EventStreamDigest ref)))
    (errCode "evidence-reference-invalid" "evidence" "" record "eventStreamDigest") ;;
  reject_if ((er_EventStreamPath ref == ""%string) && negb (isSome (er_BundlePath ref)))
    (errCode "evidence-reference-invalid" "evidence" "" record "path") ;;
  reject_if ((Z.of_nat (length (er_EventIDs ref)) == 0) && (er_EventSequence ref == 0))
    (errCode "evidence-reference-invalid" "evidence" "" record "event") ;;
  reject_if ((er_Revision ref != ""%string) && (er_Revision ref != RevisionKindBase)
             && (er_Revision ref != RevisionKindHead))
    (errCode "evidence-reference-invalid" "evidence" "" record "revision").

Definition validateSnapshot (rec : DeltaRecord) (f : DeltaFactSnapshot) : result PolicyError unit :=
  reject_if ((dfs_ID f == ""%string) || negb (validDigest (dfs_SemanticDigest f))
             || (dfs_Kind f == ""%string) || (dfs_Source f == ""%string))
    (errCode "invalid-delta-record" "facts" "" (dr_ID rec) "fact") ;;
  reject_if (negb (supportedFactKind (dfs_Kind f)))
    (errCode "unsupported-fact-kind" "facts" "" (dr_ID rec) "kind") ;;
  reject_if (negb (supportedSource (dfs_Source f)))
    (errCode "invalid-observation-source" "facts" "" (dr_ID rec) "source") ;;
  let n := countPresent [isSome (dfs_Process f); isSome (dfs_Filesystem f); isSome (dfs_Network f);
    isSome (dfs_Artifact f); isSome (dfs_Scenario f); isSome (dfs_Warning f); isSome (dfs_Resource f)] in
  reject_if (n != 1) (errCode "invalid-delta-record" "facts" "" (dr_ID rec) "payload").

Definition validateDeltaRecord (limits : Limits) (rec : DeltaRecord) : result PolicyError unit :=
  let id := dr_ID rec in
  reject_if (negb (supportedDeltaKind (dr_Kind rec)))
    (errCode "unsupported-delta-kind" "records" "" id "kind") ;;
  reject_if (negb (supportedBasis (dr_Basis rec)))
    (errCode "unsupported-comparison-basis" "records" "" id "basis") ;;
  reject_if ((dr_FactKind rec != ""%string) && negb (supportedFactKind (dr_FactKind rec)))
    (errCode "unsupported-fact-kind" "records" "" id "factKind") ;;
  reject_if ((dr_Source rec != ""%string) && negb (supportedSource (dr_Source rec)))
    (errCode "invalid-observation-source" "records" "" id "source") ;;
  reject_if ((dr_AnchorDigest rec != ""%string) && negb (validDigest (dr_AnchorDigest rec)))
    (errCode "invalid-delta-record" "records" "" id "anchorDigest") ;;
  reject_if ((Z.of_nat (length (dr_ScenarioIDs rec)) == 0)
             || (l_MaxScenarioIDsPerFinding limits <? Z.of_nat (length (dr_ScenarioIDs rec))))
    (errCode "invalid-delta-record" "records" "" id "scenarioIds") ;;
  let maxRefs := l_MaxEvidenceRefsPerFinding limits in
  reject_if ((maxRefs <? Z.of_nat (length (dr_Evidence rec)))
             || (maxRefs <? Z.of_nat (length (dr_BaseEvidence rec)))
             || (maxRefs <? Z.of_nat (length (dr_HeadEvidence rec))))
    (errCode "evidence-reference-limit" "records" "" id "evidence") ;;
  foldR (λ _ ref, validateEvidenceRef id ref) () (dr_BaseEvidence rec ++ dr_HeadEvidence rec) ;;
  wrapErr (validateOccurrence (dr_BaseOccurrence rec))
    (errCode "invalid-occurrence-profile" "records" "" id "baseOccurrence") ;;
  wrapErr (validateOccurrence (dr_HeadOccurrence rec))
    (errCode "invalid-occurrence-profile" "records" "" id "headOccurrence") ;;
  foldR (λ _ f, validateSnapshot rec f) () (dr_BaseFacts rec ++ dr_HeadFacts rec).

#[global] Instance DeltaSummary_eq_dec : EqDecision DeltaSummary.
Proof. solve_decision. Defined.

(** Recounts the records, with the same loop as [compare]'s [summarize]. *)
Definition validateSummary (s : DeltaSummary) (records : list DeltaRecord) : result PolicyError unit :=
  let want := foldl summarizeStep (mkDeltaSummary (Z.of_nat (length records)) 0 0 0 0 0 0 0) records in
  reject_if (s != want) (errCode "invalid-delta" "delta" "" "" "summary").

Definition validateRecordOnce (limits : Limits) (seen : gset string) (rec : DeltaRecord) :
    result PolicyError (gset string) :=
  reject_if (dr_ID rec == ""%string) (errCode "invalid-delta-record" "records" "" "" "id") ;;
  reject_if (bool_decide (dr_ID rec ∈ seen)) (errCode "invalid-delta" "records" "" (dr_ID rec) "id") ;;
  validateDeltaRecord limits rec ;;
  mret ({[ dr_ID rec ]} ∪ seen).

Definition validateDelta (delta : BehavioralDelta) (limits : Limits) : result PolicyError unit :=
  reject_if (bd_SchemaVersion delta != SchemaVersionBehavioralDeltaV1Alpha1)
    (errCode "invalid-delta" "delta" "" "" "schemaVersion") ;;
  reject_if (cp_Version (bd_ComparisonProfile delta) != ComparisonProfileVersionV1Alpha1)
    (errCode "unsupported-comparison-profile" "delta" "" "" "comparisonProfile") ;;
  reject_if (bd_NormalizationProfileVersion delta != "glassroot.dev/normalization-profile/v1alpha1"%string)
    (errCode "unsupported-normalization-profile" "delta" "" "" "normalizationProfile") ;;
  reject_if (negb (validDigest (bd_PlanDigest delta)) || negb (validDigest (bd_ManifestDigest delta))
             || (bd_RunID delta == ""%string))
    (errCode "invalid-delta" "delta" "" "" "identity") ;;
  reject_if (l_MaxDeltaRecords limits <? Z.of_nat (length (bd_Records delta)))
    (errCode "invalid-delta" "delta" "" "" "records") ;;
  validateSummary (bd_Summary delta) (bd_Records delta) ;;
  foldR (validateRecordOnce limits) ∅ (bd_Records delta) ;;
  mret ().

Record EvaluationDocument := mkEvaluationDocument {
  ed_SchemaVersion : string;
  ed_PolicyProfileName : string;
  ed_PolicyProfileVersion : string;
  ed_BuiltinRuleSetVersion : string;
  ed_BehavioralDeltaDigest : Digest;
  ed_RunID : string;
  ed_PlanDigest : Digest;
  ed_ManifestDigest : Digest;
  ed_ManifestVerificationMode : string;
  ed_ExecutionComplete : bool;
  ed_EvidenceComplete : bool;
  ed_OverallDisposition : Disposition;
  ed_Findings : list Finding;
  ed_Summary : EvaluationSummary;
  ed_Limitations : list Limitation
}.

Record FrozenEvaluation := mkFrozenEvaluation {
  fe_doc : EvaluationDocument;
  fe_json : bytes;
  fe_digest : Digest
}.

Definition json_of_EvaluationSummary (x : EvaluationSummary) : json := JObj (j_fields [
  (false, "totalFindings"%string, JNum (es_TotalFindings x));
  (false, "info"%string, JNum (es_Info x));
  (false, "low"%string, JNum (es_Low x));
  (false, "medium"%string, JNum (es_Medium x));
  (false, "high"%string, JNum (es_High x));
  (false, "critical"%string, JNum (es_Critical x));
  (false, "requiresReview"%string, JNum (es_RequiresReview x));
  (false, "failed"%string, JNum (es_Failed x));
  (false, "passed"%string, JNum (es_Passed x));
  (false, "waived"%string, JNum (es_Waived x))]).

Definition json_of_EvaluationDocument (x : EvaluationDocument) : json := JObj (j_fields [
  (false, "schemaVersion"%string, JStr (ed_SchemaVersion x));
  (false, "policyProfileName"%string, JStr (ed_PolicyProfileName x));
  (false, "policyProfileVersion"%string, JStr (ed_PolicyProfileVersion x));
  (false, "builtinRuleSetVersion"%string, JStr (ed_BuiltinRuleSetVersion x));
  (false, "behavioralDeltaDigest"%string, JStr (ed_BehavioralDeltaDigest x));
  (false, "runId"%string, JStr (ed_RunID x));
  (false, "planDigest"%string, JStr (ed_PlanDigest x));
  (false, "manifestDigest"%string, JStr (ed_ManifestDigest x));
  (false, "manifestVerificationMode"%string, JStr (ed_ManifestVerificationMode x));
  (false, "executionComplete"%string, JBool (ed_ExecutionComplete x));
  (false, "evidenceComplete"%string, JBool (ed_EvidenceComplete x));
  (false, "overallDisposition"%string, JStr (ed_OverallDisposition x));
  (false, "findings"%string, j_appended json_of_Finding (ed_Findings x));
  (false, "summary"%string, json_of_EvaluationSummary (ed_Summary x));
  (false, "limitations"%string, JArr (json_of_Limitation <$> ed_Limitations x))]).

(** The loop that rejects duplicate finding identities and too much evidence. *)
Definition checkFinding (limits : Limits) (s : gset string * Z) (f : Finding) :
    result PolicyError (gset string * Z) :=
  let '(seen, refs) := s in
  reject_if (bool_decide (fd_ID f ∈ seen))
    (errCode "duplicate-finding-id" "findings" (fd_RuleID f) "" (fd_ID f)) ;;
  let refs := refs + Z.of_nat (length (fd_Evidence f)) in
  reject_if (l_MaxEvidenceRefsTotal limits <? refs)
    (errCode "evidence-reference-limit" "findings" "" "" "evidence") ;;
  mret ({[ fd_ID f ]} ∪ seen, refs).

Definition overallDisposition (s : EvaluationSummary) : Disposition :=
  if 0 <? es_Failed s then DispositionFailed
  else if 0 <? es_TotalFindings s then DispositionRequiresReview
  else DispositionPassed.

Definition evaluationLimitations (delta : BehavioralDelta) : list Limitation :=
  let lims := sortLimitations (bd_Limitations delta) in
  if bd_ManifestVerificationMode delta == "internal-consistency-only"%string then
    sortLimitations (lims ++ [mkLimitation "manifest-internal-consistency-only"
      "Manifest digest was not matched against an independently supplied expected digest." ""])
  else lims.

Definition evaluateDeltaDocument (limits : Limits) (ctx : Context) (profile : PolicyProfile)
    (delta : BehavioralDelta) (deltaDigest : Digest) : result PolicyError FrozenEvaluation :=
  poll ctx 0 ;;
  validateProfile profile ;;
  validateDelta delta limits ;;
  findings ← evaluateRules limits (λ n, ctx (S n)) delta;
  let findings := sortFindings findings delta in
  reject_if (l_MaxFindings limits <? Z.of_nat (length findings))
    (errCode "finding-limit" "findings" "" "" "count") ;;
  foldR (checkFinding limits) (∅, 0) findings ;;
  let summary := summarizeFindings findings in
  let doc := {|
    ed_SchemaVersion := SchemaVersionPolicyEvaluationV1Alpha1;
    ed_PolicyProfileName := pp_Name profile;
    ed_PolicyProfileVersion := pp_Version profile;
    ed_BuiltinRuleSetVersion := BuiltinRuleSetVersionStrictV1Alpha1;
    ed_BehavioralDeltaDigest := deltaDigest;
    ed_RunID := bd_RunID delta;
    ed_PlanDigest := bd_PlanDigest delta;
    ed_ManifestDigest := bd_ManifestDigest delta;
    ed_ManifestVerificationMode := bd_ManifestVerificationMode delta;
    ed_ExecutionComplete := bd_ExecutionComplete delta;
    ed_EvidenceComplete := bd_EvidenceComplete delta;
    ed_OverallDisposition := overallDisposition summary;
    ed_Findings := findings;
    ed_Summary := summary;
    ed_Limitations := evaluationLimitations delta |} in
  let data := render (json_of_EvaluationDocument doc) in
  reject_if (l_MaxEvaluationJSONBytes limits <? Z.of_nat (length data))
    (errCode "evaluation-too-large" "freeze" "" "" "json") ;;
  mret (mkFrozenEvaluation doc data (digestBytes evaluationJSONDomain data)).

(** [New] followed by [Evaluate]; a nil delta is [None]. *)
Definition Evaluate (limits : Limits) (ctx : Context) (profile : PolicyProfile)
    (delta : option FrozenDelta) : result PolicyError FrozenEvaluation :=
  l ← validateLimits limits;
  validateRuleCatalog ;;
  poll ctx 0 ;;
  match delta with
  | None => Err (errCode "nil-delta" "input" "" "" "delta")
  | Some fz =>
    validateProfile profile ;;
    reject_if (DigestBehavioralDeltaJSON (fz_json fz) != fz_digest fz)
      (errCode "invalid-delta" "input" "" "" "digest") ;;
    evaluateDeltaDocument l (λ n, ctx (S n)) profile (fz_doc fz) (fz_digest fz)
  end.
