(* ===== verification/PolicySpec.v ===== *)
(** * What the strict policy promises ([internal/policy], [docs/POLICY.md])

    [triggers] is the rule catalogue as the documentation states it: which rule
    fires on which record, and with which severity.  The theorems relate the
    evaluator to it: every trigger gives a finding, every finding has a trigger
    (or is about the run as a whole), and the disposition, order, identities and
    summary of an evaluation follow. *)

From stdpp Require Import prelude gmap strings sorting.
From Stdlib Require Import ZArith Lia.
From S2P Require Import Prelude GoStd Sha256 Framing Model Json Observe Compare Policy.
Local Open Scope Z_scope.

(** ** Specification vocabulary *)

(** Behaviour was seen in the head. *)
Definition observedHead (rec : DeltaRecord) : Prop :=
  dr_HeadObserved rec = true ∧ dr_HeadFacts rec ≠ [].

Definition reviewableKinds : list DeltaKind :=
  [DeltaKindAdded; DeltaKindModified; DeltaKindCoverageChanged].

(** New, changed or more frequent head behaviour. *)
Definition positive (rec : DeltaRecord) : Prop :=
  observedHead rec ∧
  (dr_Kind rec ∈ reviewableKinds ∨ dr_Kind rec = DeltaKindCountChanged ∧ headCountIncrease rec = true).

(** A record of a modification counts for executability only if the executable
    flag is among the changes, or the behaviour became more frequent. *)
Definition executableChange (rec : DeltaRecord) (field : string) : Prop :=
  dr_Kind rec = DeltaKindModified → field ∈ dr_ChangedFields rec ∨ headCountIncrease rec = true.

Definition executableEntry (rec : DeltaRecord) : Prop :=
  (isFilesystemFact rec = true ∧ executableChange rec "filesystem.executable" ∧
   ∃ f p, f ∈ dr_HeadFacts rec ∧ dfs_Filesystem f = Some p ∧ dff_Executable p = true) ∨
  (isArtifactFact rec = true ∧ executableChange rec "artifact.executable" ∧
   ∃ f p, f ∈ dr_HeadFacts rec ∧ dfs_Artifact f = Some p ∧ daf_Executable p = true).

(** The operation of a fact on a path outside the configured roots. *)
Definition unmappedOperation (f : DeltaFactSnapshot) : option string :=
  p ← dfs_Filesystem f;
  if bool_decide (dnp_Namespace (dff_Path p) = "absolute-unmapped"%string)
  then Some (dff_Operation p) else None.

(** The first such operation of the head. *)
Definition firstUnmapped (rec : DeltaRecord) : option string := head (omap unmappedOperation (dr_HeadFacts rec)).

Inductive operationSeverity : string → Severity → Prop :=
| severity_mutating op : op ∈ mutatingOperations → operationSeverity op SeverityHigh
| severity_reading op : op ∈ readingOperations → operationSeverity op SeverityMedium.

(** The rule catalogue: [triggers rec rule sev] when [rule] fires on [rec]. *)
Inductive triggers (rec : DeltaRecord) : string → Severity → Prop :=
| trig_coverage_high : dr_Kind rec = DeltaKindCoverageChanged → ¬ observedHead rec →
    op_Coverage (dr_HeadOccurrence rec) ≠ CoverageAssessmentComplete →
    triggers rec "GR-OBS-001" SeverityHigh
| trig_coverage : dr_Kind rec = DeltaKindCoverageChanged → ¬ observedHead rec →
    op_Coverage (dr_HeadOccurrence rec) = CoverageAssessmentComplete →
    triggers rec "GR-OBS-001" SeverityMedium
| trig_warning : dr_FactKind rec ∈ ["observer-warning"; "unsupported-observation"]%string →
    dr_Kind rec ∈ reviewableKinds → (dr_Kind rec = DeltaKindCoverageChanged → observedHead rec) →
    triggers rec "GR-OBS-001" SeverityMedium
| trig_process : positive rec → dr_FactKind rec = "process-start"%string →
    (dr_Kind rec = DeltaKindModified → dr_ChangedFields rec = [] ∨
       ∃ c, c ∈ dr_ChangedFields rec ∧ c ∉ ["process.exitCode"; "process.durationMillis"]%string) →
    triggers rec "GR-PROC-001" SeverityMedium
| trig_executable : positive rec → executableEntry rec → triggers rec "GR-FS-001" SeverityHigh
| trig_outside op sev : positive rec → isFilesystemFact rec = true →
    firstUnmapped rec = Some op → operationSeverity op sev → triggers rec "GR-FS-002" sev
| trig_network : positive rec → dr_FactKind rec ∈ ["network-connection"; "dns-query"]%string →
    triggers rec "GR-NET-001" SeverityHigh
| trig_artifact : positive rec → dr_FactKind rec = "artifact-activity"%string →
    triggers rec "GR-ART-001" SeverityMedium
| trig_repeatability : dr_Kind rec = DeltaKindStabilityChanged →
    repeatabilityRank (op_Repeatability (dr_BaseOccurrence rec))
      < repeatabilityRank (op_Repeatability (dr_HeadOccurrence rec)) →
    triggers rec "GR-DET-001" SeverityMedium
| trig_limit : positive rec → dr_FactKind rec = "resource-limit"%string →
    triggers rec "GR-LIMIT-001" SeverityHigh.

(** Nothing about the run itself needs review. *)
Definition run_trusted (delta : BehavioralDelta) : Prop :=
  bd_ExecutionComplete delta = true ∧ bd_EvidenceComplete delta = true ∧
  ec_SyntheticEvidence (bd_EvidenceContext delta) = false ∧
  ec_ExecutesTargetCode (bd_EvidenceContext delta) = true.

(** A finding about the run as a whole. *)
Definition about_run (delta : BehavioralDelta) (f : Finding) : Prop :=
  fd_RuleID f = "GR-OBS-001"%string ∧ fd_DeltaRecordIDs f = [] ∧ fd_ScenarioIDs f = [] ∧ fd_Evidence f = [] ∧
  fd_Confidence f = ConfidenceHigh ∧ ¬ run_trusted delta ∧
  (fd_Disposition f = DispositionFailed ∧ fd_Severity f = SeverityHigh ∧
     (bd_ExecutionComplete delta = false ∨ bd_EvidenceComplete delta = false) ∨
   fd_Disposition f = DispositionRequiresReview ∧ fd_Severity f = SeverityMedium ∧
     bd_ExecutionComplete delta = true ∧ bd_EvidenceComplete delta = true).

(** The confidence of a rule's finding: the basis and source of the record, or
    the head's coverage for a repeatability finding. *)
Definition ruleConfidence (rec : DeltaRecord) (rule : string) : Confidence :=
  if bool_decide (rule = "GR-DET-001"%string) then
    if bool_decide (dr_Basis rec = ComparisonBasisCoverageLimited
                    ∨ op_Coverage (dr_HeadOccurrence rec) ≠ CoverageAssessmentComplete)
    then ConfidenceLow else ConfidenceMedium
  else classifyPolicyConfidence (dr_Basis rec) (dr_Source rec) true.

(** Finding [f] reports that a rule fires on [rec].  Its confidence is that of the
    basis and the source of the record; a repeatability finding is never high, and
    low without full coverage. *)
Record about_record (rec : DeltaRecord) (f : Finding) : Prop := {
  ab_trigger : triggers rec (fd_RuleID f) (fd_Severity f);
  ab_records : fd_DeltaRecordIDs f = (if bool_decide (dr_ID rec = "") then [] else [dr_ID rec]);
  ab_confidence : fd_RuleID f ≠ "GR-DET-001"%string →
    fd_Confidence f = classifyPolicyConfidence (dr_Basis rec) (dr_Source rec) true;
  ab_repeatability : fd_RuleID f = "GR-DET-001"%string →
    fd_Confidence f ∈ [ConfidenceMedium; ConfidenceLow] ∧
    (dr_Basis rec = ComparisonBasisCoverageLimited ∨ op_Coverage (dr_HeadOccurrence rec) ≠ CoverageAssessmentComplete →
       fd_Confidence f = ConfidenceLow);
  ab_disposition : fd_Disposition f = DispositionRequiresReview;
  ab_scenarios sc : sc ∈ fd_ScenarioIDs f ↔ sc ∈ dr_ScenarioIDs rec ∧ sc ≠ ""%string;
  ab_base : fd_BaseObserved f = dr_BaseObserved rec;
  ab_head : fd_HeadObserved f = dr_HeadObserved rec;
  ab_evidence r : r ∈ fd_Evidence f → r ∈ evidenceForRecord rec;
  ab_evidence_all r : r ∈ evidenceForRecord rec → ∃ r', r' ∈ fd_Evidence f ∧ evidenceKey r' = evidenceKey r;
  ab_waived : fd_Waived f = false ∧ fd_Waivers f = [];
}.

(** What every finding carries, whatever it is about. *)
Definition finding_identity (f : Finding) (scope : string) : Prop :=
  fd_ID f = findingID PolicyProfileVersionStrictV1Alpha1 BuiltinRuleSetVersionStrictV1Alpha1
              (fd_RuleID f) (fd_RuleVersion f) (fd_DeltaRecordIDs f) scope (fd_ScenarioIDs f).

(** ** Predicates of the code against the vocabulary *)

Lemma observedHead_iff rec :
  observedHead rec ↔ dr_HeadObserved rec && (0 <? Z.of_nat (length (dr_HeadFacts rec))) = true.
Proof.
  unfold observedHead. rewrite andb_true_iff, Z.ltb_lt.
  destruct (dr_HeadFacts rec); cbn; split; intros []; split; try done; lia.
Qed.

Lemma headPositive_iff rec : headPositive rec = true ↔ positive rec.
Proof.
  assert (∀ l : list DeltaFactSnapshot, (Z.of_nat (length l) == 0) = true ↔ l = []) as Hl.
  { by intros [|? l]. }
  unfold headPositive, positive, observedHead. specialize (Hl (dr_HeadFacts rec)).
  destruct (dr_HeadObserved rec); cbn; [|naive_solver].
  destruct (Z.of_nat _ == 0) eqn:E; [naive_solver|].
  assert (dr_HeadFacts rec ≠ []) by naive_solver. clear E Hl.
  case_bool_decide as E1; [naive_solver|]. destruct (dr_Kind rec == _) eqn:E2; go_bool; naive_solver.
Qed.

Lemma headWarning_iff rec :
  headWarning rec = true ↔ dr_FactKind rec ∈ ["observer-warning"; "unsupported-observation"]%string.
Proof. unfold headWarning. by rewrite orb_true_iff, !bool_decide_eq_true, elem_of_two. Qed.

Lemma isNetworkFact_iff rec :
  isNetworkFact rec = true ↔ dr_FactKind rec ∈ ["network-connection"; "dns-query"]%string.
Proof. unfold isNetworkFact. by rewrite orb_true_iff, !bool_decide_eq_true, elem_of_two. Qed.

Lemma containsString_iff l v : containsString l v = true ↔ v ∈ l.
Proof.
  unfold containsString. rewrite existsb_exists. setoid_rewrite bool_decide_eq_true.
  setoid_rewrite <- list_elem_of_In. naive_solver.
Qed.

Lemma onlyChanged_iff l :
  onlyChangedExitOrDuration l = false ↔
  l = [] ∨ ∃ c, c ∈ l ∧ c ∉ ["process.exitCode"; "process.durationMillis"]%string.
Proof.
  destruct l as [|x l]; [naive_solver|]. unfold onlyChangedExitOrDuration.
  rewrite <- not_true_iff_false, forallb_forall. setoid_rewrite orb_true_iff.
  setoid_rewrite bool_decide_eq_true. setoid_rewrite <- list_elem_of_In. split.
  - intros H. right. destruct (decide (Exists (λ c, c ∉ ["process.exitCode"; "process.durationMillis"]%string) (x :: l)))
      as [He|He]; [by apply Exists_exists in He|]. destruct H. intros y Hy.
    apply not_Exists_Forall in He; [|apply _]. rewrite Forall_forall in He. specialize (He y Hy).
    apply dec_stable in He. set_solver.
  - intros [?|(c & Hc & Hne)]; [done|]. intros H. specialize (H c Hc). set_solver.
Qed.

Lemma isProcessNew_iff rec :
  isProcessNew rec = true ↔ dr_FactKind rec = "process-start"%string ∧
    (dr_Kind rec = DeltaKindModified → dr_ChangedFields rec = [] ∨
       ∃ c, c ∈ dr_ChangedFields rec ∧ c ∉ ["process.exitCode"; "process.durationMillis"]%string).
Proof.
  unfold isProcessNew. rewrite andb_true_iff, orb_true_iff, !negb_true_iff, bool_decide_eq_true,
    bool_decide_eq_false, onlyChanged_iff.
  destruct (decide (dr_Kind rec = DeltaKindModified)); naive_solver.
Qed.

Lemma executableMatters_iff rec field : executableMatters rec field = true ↔ executableChange rec field.
Proof.
  unfold executableMatters, executableChange. rewrite negb_true_iff, !andb_false_iff, !negb_false_iff,
    containsString_iff, bool_decide_eq_false.
  destruct (decide (dr_Kind rec = DeltaKindModified)); naive_solver.
Qed.

Lemma executableHeadBehavior_iff rec : executableHeadBehavior rec = true ↔ executableEntry rec.
Proof.
  unfold executableHeadBehavior, executableEntry. rewrite orb_true_iff, !andb_true_iff, !existsb_exists.
  split.
  - intros [(? & f & Hf & Hm)|(? & f & Hf & Hm)]; apply list_elem_of_In in Hf; [left|right];
      (split; [done|]); [destruct (dfs_Filesystem f) eqn:?|destruct (dfs_Artifact f) eqn:?]; try done;
      apply andb_true_iff in Hm as [? Hm]; rewrite executableMatters_iff in Hm; eauto 8.
  - intros [(? & Hc & f & p & Hf & Hp & Hx)|(? & Hc & f & p & Hf & Hp & Hx)]; [left|right];
      (split; [done|]); exists f; (split; [by apply list_elem_of_In|]); rewrite Hp, Hx; cbn;
      by apply executableMatters_iff.
Qed.

#[local] Arguments containsString _ _ : simpl never.

(** The first access outside the roots decides the severity, or fails closed. *)
Lemma outsideRootLoop_spec recID facts :
  match outsideRootLoop recID facts, head (omap unmappedOperation facts) with
  | Ok None, None => True
  | Ok (Some sev), Some op => operationSeverity op sev
  | Err e, Some op => pe_Code e = "invalid-delta-record"%string ∧ (op ∉ mutatingOperations) ∧ op ∉ readingOperations
  | _, _ => False
  end.
Proof.
  induction facts as [|f facts IH]; cbn; [done|].
  assert (unmappedOperation f = match dfs_Filesystem f with
    | Some p => if dnp_Namespace (dff_Path p) == "absolute-unmapped"%string then Some (dff_Operation p) else None
    | None => None end) as -> by (unfold unmappedOperation; by destruct (dfs_Filesystem f)).
  destruct (dfs_Filesystem f) as [p|]; cbn; [|exact IH].
  destruct (dnp_Namespace (dff_Path p) == _) eqn:E; cbn; [|exact IH].
  pose proof (containsString_iff mutatingOperations (dff_Operation p)) as Hm.
  pose proof (containsString_iff readingOperations (dff_Operation p)) as Hr.
  destruct (containsString mutatingOperations _); cbn; [apply severity_mutating; naive_solver|].
  destruct (containsString readingOperations _); cbn; [apply severity_reading; naive_solver|].
  naive_solver.
Qed.

Lemma operationSeverity_fun op s s' : operationSeverity op s → operationSeverity op s' → s = s'.
Proof.
  assert (∀ op, op ∈ mutatingOperations → op ∉ readingOperations) as Hd.
  { apply Forall_forall, (bool_decide_unpack _). vm_compute. exact I. }
  inversion_clear 1; inversion_clear 1; try done; exfalso; by apply (Hd op).
Qed.

(** ** The rules fire exactly on their triggers *)

Definition fires (specs : list findingSpec) (rule : string) (sev : Severity) : Prop :=
  ∃ sp, sp ∈ specs ∧ fs_ruleID sp = rule ∧ fs_severity sp = sev.

Lemma fires_app l1 l2 rule sev : fires (l1 ++ l2) rule sev ↔ fires l1 rule sev ∨ fires l2 rule sev.
Proof. unfold fires. setoid_rewrite elem_of_app. naive_solver. Qed.

Lemma fires_nil rule sev : ¬ fires [] rule sev.
Proof. by intros (? & ?%not_elem_of_nil & _). Qed.

Lemma fires_one sp rule sev : fires [sp] rule sev ↔ fs_ruleID sp = rule ∧ fs_severity sp = sev.
Proof. unfold fires. setoid_rewrite list_elem_of_singleton. naive_solver. Qed.

Lemma fires_addIf c rec r s rule sev :
  fires (addIf c rec r s) rule sev ↔ c = true ∧ r = rule ∧ s = sev.
Proof.
  unfold addIf. destruct c; [rewrite fires_one; cbn; naive_solver|].
  split; [by intros ?%fires_nil|naive_solver].
Qed.

(** The shape of a spec of [rec]. *)
Definition spec_of (rec : DeltaRecord) (sp : findingSpec) : Prop :=
  ∃ conf, sp = recordSpec rec (fs_ruleID sp) (fs_severity sp) conf
    ∧ conf ≠ ""%string ∧ fs_severity sp ≠ ""%string
    ∧ rm_ID (ruleByID (fs_ruleID sp)) = fs_ruleID sp ∧ rm_Emit (ruleByID (fs_ruleID sp)) = true
    ∧ conf = ruleConfidence rec (fs_ruleID sp).

Lemma triggers_unobserved rec rule sev :
  dr_Kind rec = DeltaKindCoverageChanged → ¬ observedHead rec → triggers rec rule sev →
  rule = "GR-OBS-001"%string ∧
  sev = (if op_Coverage (dr_HeadOccurrence rec) == CoverageAssessmentComplete then SeverityMedium else SeverityHigh).
Proof.
  intros Hk Hno. destruct 1 as [? ? Hc|? ? Hc|? ? Ho| [] | [] | ? ? [] | [] | [] | Hs | []]; try done.
  - by rewrite bool_decide_false.
  - by rewrite bool_decide_true.
  - by destruct Hno, Ho.
  - by rewrite Hk in Hs.
Qed.

Lemma outside_iff rec outside :
  (if headPositive rec && isFilesystemFact rec then outsideRootSeverity rec else Ok None) = Ok outside →
  ∀ sev, outside = Some sev ↔
    positive rec ∧ isFilesystemFact rec = true ∧
    ∃ op, firstUnmapped rec = Some op ∧ operationSeverity op sev.
Proof.
  intros H sev. rewrite <- headPositive_iff.
  destruct (headPositive rec); cbn in H; [|apply Ok_inj in H as <-; naive_solver].
  destruct (isFilesystemFact rec); cbn in H; [|apply Ok_inj in H as <-; naive_solver].
  pose proof (outsideRootLoop_spec (dr_ID rec) (dr_HeadFacts rec)) as Hs.
  unfold outsideRootSeverity in H. rewrite H in Hs. unfold firstUnmapped.
  destruct outside as [s|], (head _) as [op|]; try done; [|naive_solver].
  split; [naive_solver|]. intros (_ & _ & op' & [= <-] & Ho).
  by rewrite (operationSeverity_fun _ _ _ Hs Ho).
Qed.

Lemma specsForRecord_fires rec specs :
  specsForRecord rec = Ok specs → ∀ rule sev, fires specs rule sev ↔ triggers rec rule sev.
Proof.
  unfold specsForRecord. intros H rule sev.
  destruct ((dr_Kind rec == _) && _) eqn:Hcov.
  - apply andb_true_iff in Hcov as [Hk Hno]. go_bool. apply not_true_iff_false in Hno.
    rewrite <- observedHead_iff in Hno. apply Ok_inj in H as <-. rewrite fires_addIf. split.
    + intros (_ & <- & <-). destruct (op_Coverage _ == _) eqn:E; go_bool; by constructor.
    + intros Ht. apply triggers_unobserved in Ht as [-> ->]; [|done..].
      by destruct (op_Coverage _ == _).
  - assert (dr_Kind rec = DeltaKindCoverageChanged → observedHead rec) as Hobs.
    { intros E. rewrite (bool_decide_true _ E) in Hcov. cbn in Hcov. apply negb_false_iff in Hcov.
      by apply observedHead_iff. }
    clear Hcov. apply bind_Ok in H as (outside & Ho & H). cbn zeta in H. apply Ok_inj in H as <-.
    pose proof (outside_iff _ _ Ho) as Ho'. clear Ho. rename Ho' into Ho.
    rewrite !fires_app, !fires_addIf, !andb_true_iff, !headPositive_iff, isProcessNew_iff,
      executableHeadBehavior_iff, headWarning_iff, isNetworkFact_iff.
    rewrite (bool_decide_eq_true (dr_Kind rec ∈ reviewableKinds)).
    unfold isArtifactFact, isResourceFact. rewrite !bool_decide_eq_true.
    split.
    + intros [((Hw & Hk) & <- & <-)|[((Hp & Hf & Hc) & <- & <-)|[((Hp & Hx) & <- & <-)|[Hout|
        [((Hp & Hn) & <- & <-)|[((Hp & Ha) & <- & <-)|[Hdet|((Hp & Hr) & <- & <-)]]]]]]].
      * by apply trig_warning.
      * by apply trig_process.
      * by apply trig_executable.
      * destruct outside as [s|]; [|by apply fires_nil in Hout]. apply fires_addIf in Hout as (_ & <- & ->).
        destruct (proj1 (Ho _) eq_refl) as (Hp & Hf & op & Hu & Hs). by eapply trig_outside.
      * by apply trig_network.
      * by apply trig_artifact.
      * destruct (_ && _) eqn:Hd; [|by apply fires_nil in Hdet]. apply fires_one in Hdet as [<- <-].
        unfold repeatabilityWorse in Hd. go_bool. by apply trig_repeatability.
      * by apply trig_limit.
    + intros [Hk Hno _|Hk Hno _|Hw Hk _|Hp Hf Hc|Hp Hx|op sev' Hp Hf Hu Hs|Hp Hn|Hp Ha|Hk Hr|Hp Hr];
        [by destruct Hno, Hobs..|left|right; left|do 2 right; left|do 3 right; left|do 4 right; left
        |do 5 right; left|do 6 right; left|do 7 right]; repeat (split; try done).
      * rewrite (proj2 (Ho sev') (conj Hp (conj Hf (ex_intro _ op (conj Hu Hs))))). by apply fires_addIf.
      * unfold repeatabilityWorse. rewrite (bool_decide_true _ Hk), (proj2 (Z.ltb_lt _ _) Hr).
        by apply fires_one.
Qed.

(** The unknown operation of an access outside the roots is the only failure. *)
Lemma specsForRecord_Err rec e :
  specsForRecord rec = Err e →
  pe_Code e = "invalid-delta-record"%string ∧ positive rec ∧ isFilesystemFact rec = true ∧
  ∃ op, firstUnmapped rec = Some op ∧ (op ∉ mutatingOperations) ∧ op ∉ readingOperations.
Proof.
  unfold specsForRecord. destruct (_ && _); [done|]. rewrite bind_Err. intros [H|(? & _ & H)]; [|done].
  rewrite <- headPositive_iff.
  destruct (headPositive rec); cbn in H; [|done]. destruct (isFilesystemFact rec); cbn in H; [|done].
  pose proof (outsideRootLoop_spec (dr_ID rec) (dr_HeadFacts rec)) as Hs.
  unfold outsideRootSeverity in H. rewrite H in Hs. unfold firstUnmapped.
  destruct (head _); naive_solver.
Qed.

Definition recordRules : list string :=
  ["GR-OBS-001"; "GR-PROC-001"; "GR-FS-001"; "GR-FS-002"; "GR-NET-001"; "GR-ART-001"; "GR-DET-001"; "GR-LIMIT-001"]%string.

Lemma addIf_sublist c rec r s : sublist (fs_ruleID <$> addIf c rec r s) [r].
Proof. unfold addIf. destruct c; cbn; [done|]. apply sublist_nil_l. Qed.

Lemma specsForRecord_rules rec specs : specsForRecord rec = Ok specs → sublist (fs_ruleID <$> specs) recordRules.
Proof.
  unfold specsForRecord. destruct (_ && _).
  - intros H. apply Ok_inj in H as <-. trans ["GR-OBS-001"%string]; [apply addIf_sublist|].
    apply sublist_skip, sublist_nil_l.
  - intros H. apply bind_Ok in H as (outside & _ & H). cbn zeta in H. apply Ok_inj in H as <-.
    rewrite !fmap_app. change recordRules with (["GR-OBS-001"%string] ++ ["GR-PROC-001"%string] ++ ["GR-FS-001"%string] ++
      ["GR-FS-002"%string] ++ ["GR-NET-001"%string] ++ ["GR-ART-001"%string] ++ ["GR-DET-001"%string] ++ ["GR-LIMIT-001"%string]).
    repeat apply sublist_app; try apply addIf_sublist.
    + destruct outside; [apply addIf_sublist|apply sublist_nil_l].
    + destruct (_ && _); [done|apply sublist_nil_l].
Qed.

Lemma classifyPolicyConfidence_nonempty b s t : classifyPolicyConfidence b s t ≠ ""%string.
Proof.
  unfold classifyPolicyConfidence. cbn zeta.
  repeat match goal with |- context [if ?c then _ else _] => destruct c end; discriminate.
Qed.

Lemma recordRule_emitted r : r ∈ recordRules → rm_ID (ruleByID r) = r ∧ rm_Emit (ruleByID r) = true.
Proof. revert r. apply Forall_forall, (bool_decide_unpack _). vm_compute. exact I. Qed.

Lemma addIf_spec c rec r s sp :
  r ∈ recordRules → bool_decide (r = "GR-DET-001"%string) = false → s ≠ ""%string → sp ∈ addIf c rec r s → spec_of rec sp.
Proof.
  intros Hr Hdet Hs. unfold addIf. destruct c; [|by intros ?%not_elem_of_nil].
  intros ->%list_elem_of_singleton. apply recordRule_emitted in Hr as [? ?].
  exists (classifyPolicyConfidence (dr_Basis rec) (dr_Source rec) true).
  cbn. unfold ruleConfidence. rewrite Hdet. pose proof classifyPolicyConfidence_nonempty. naive_solver.
Qed.

Lemma specsForRecord_shape rec specs sp : specsForRecord rec = Ok specs → sp ∈ specs → spec_of rec sp.
Proof.
  unfold specsForRecord.
  assert (∀ r, bool_decide (r ∈ recordRules) = true → r ∈ recordRules) as Hin by (intros; by go_bool).
  destruct (_ && _).
  - intros H. apply Ok_inj in H as <-. apply addIf_spec; [by apply Hin|done|by destruct (_ != _)].
  - intros H. apply bind_Ok in H as (outside & Ho & H). cbn zeta in H. apply Ok_inj in H as <-.
    pose proof (outside_iff _ _ Ho) as Hsev.
    rewrite !elem_of_app. intros Hsp.
    destruct_or! Hsp; try (revert Hsp; by apply addIf_spec; [apply Hin|..]).
    + destruct outside as [sev|]; [|by apply not_elem_of_nil in Hsp].
      destruct (proj1 (Hsev _) eq_refl) as (_ & _ & op & _ & Hop).
      revert Hsp. apply addIf_spec; [by apply Hin|done|by inversion Hop].
    + destruct (_ && repeatabilityWorse _ _); [|by apply not_elem_of_nil in Hsp].
      apply list_elem_of_singleton in Hsp as ->. destruct (recordRule_emitted "GR-DET-001") as [H H0]; [by apply Hin|].
      eexists. cbn. split_and!; [done|by destruct (_ || _)|discriminate|exact H|exact H0|].
      unfold ruleConfidence. rewrite (bool_decide_true ("GR-DET-001"%string = "GR-DET-001"%string)) by done.
      destruct (_ || _) eqn:E.
      * rewrite bool_decide_true; [done|]. apply orb_true_iff in E as [?|?]; go_bool; tauto.
      * go_bool. rewrite bool_decide_false; [done|]. tauto.
Qed.

(** ** From specs to findings *)

Lemma elem_of_sortedUniqueStrings l v : v ∈ sortedUniqueStrings l ↔ v ∈ l ∧ v ≠ ""%string.
Proof.
  unfold sortedUniqueStrings. rewrite sort_strings_Permutation, elem_of_elements, elem_of_list_to_set,
    list_elem_of_filter. tauto.
Qed.

Lemma sortedUniqueStrings_one v :
  sortedUniqueStrings [v] = if bool_decide (v = "") then [] else [v].
Proof.
  unfold sortedUniqueStrings. case_bool_decide as E.
  - rewrite filter_cons_False, filter_nil by auto. by rewrite list_to_set_nil, elements_empty.
  - rewrite filter_cons_True, filter_nil by auto. cbn [list_to_set].
    by rewrite right_id_L, elements_singleton by apply _.
Qed.

Lemma sortedUniqueStrings_single v : v ≠ ""%string → sortedUniqueStrings [v] = [v].
Proof. intros Hv. by rewrite sortedUniqueStrings_one, bool_decide_false. Qed.

(** The last reference of each key. *)
Lemma lastByKey_lookup {K A} `{Countable K} (key : A → K) l (m : gmap K A) k :
  match foldl (λ m r, <[key r := r]> m) m l !! k with
  | Some r => r ∈ l ∧ key r = k ∨ m !! k = Some r
  | None => m !! k = None ∧ ∀ r, r ∈ l → key r ≠ k
  end.
Proof.
  revert m. induction l as [|x l IH]; intros m; cbn.
  - destruct (m !! k); [by right|]. split; [done|]. by intros ? ?%not_elem_of_nil.
  - specialize (IH (<[key x := x]> m)). destruct (foldl _ _ l !! k) as [r|].
    + destruct IH as [[? ?]|IH]; [left; set_solver|].
      apply lookup_insert_Some in IH as [[<- ->]|[_ ?]]; [left; set_solver|by right].
    + destruct IH as [Hm Hl]. apply lookup_insert_None in Hm as [? ?]. split; [done|].
      intros r [->|Hr]%elem_of_cons; auto.
Qed.

Lemma elem_of_dedupeEvidence l r : r ∈ dedupeEvidence l → r ∈ l.
Proof.
  unfold dedupeEvidence. rewrite list_elem_of_omap. intros (k & _ & Hk).
  pose proof (lastByKey_lookup evidenceKey l ∅ k) as H. rewrite Hk, lookup_empty in H. naive_solver.
Qed.

Lemma dedupeEvidence_complete l r : r ∈ l → ∃ r', r' ∈ dedupeEvidence l ∧ evidenceKey r' = evidenceKey r.
Proof.
  intros Hr. unfold dedupeEvidence. pose proof (lastByKey_lookup evidenceKey l ∅ (evidenceKey r)) as H.
  setoid_rewrite list_elem_of_omap. setoid_rewrite elem_of_sorted_keys.
  destruct (_ !! evidenceKey r) as [r'|] eqn:E; [|naive_solver].
  rewrite lookup_empty in H. exists r'. split; [|naive_solver]. exists (evidenceKey r). by rewrite E.
Qed.

(** What [makeFinding] makes of a spec. *)
Record makes (limits : Limits) (sp : findingSpec) (f : Finding) : Prop := {
  mk_rule : fd_RuleID f = rm_ID (ruleByID (fs_ruleID sp));
  mk_severity : fd_Severity f = orElse (fs_severity sp) (rm_Severity (ruleByID (fs_ruleID sp)));
  mk_confidence : fd_Confidence f = orElse (fs_confidence sp) ConfidenceLow;
  mk_disposition : fd_Disposition f = orElse (fs_disposition sp) (rm_Disposition (ruleByID (fs_ruleID sp)));
  mk_records : fd_DeltaRecordIDs f = sortedUniqueStrings (fs_recordIDs sp);
  mk_scenarios : fd_ScenarioIDs f = sortedUniqueStrings (fs_scenarioIDs sp);
  mk_evidence : fd_Evidence f = dedupeEvidence (fs_evidence sp);
  mk_base : fd_BaseObserved f = fs_baseObserved sp;
  mk_head : fd_HeadObserved f = fs_headObserved sp;
  mk_waived : fd_Waived f = false ∧ fd_Waivers f = [];
  mk_identity : finding_identity f (orElse (fs_scope sp) "record");
  mk_version : fd_RuleVersion f = rm_Version (ruleByID (fs_ruleID sp));
}.

Lemma makeFinding_Ok limits sp f : makeFinding limits sp = Ok f → makes limits sp f.
Proof. intros H. unfold makeFinding in H. inv_ok. subst f. by split. Qed.

Definition findingCodes : list string := ["finding-limit"; "evidence-reference-limit"]%string.

Lemma makeFinding_Err limits sp e :
  rm_ID (ruleByID (fs_ruleID sp)) ≠ ""%string → rm_Emit (ruleByID (fs_ruleID sp)) = true →
  makeFinding limits sp = Err e → pe_Code e ∈ findingCodes.
Proof.
  intros Hid Hemit. unfold makeFinding. rewrite Hemit, (bool_decide_false _ Hid). cbn zeta.
  rewrite !reject_bind_Err. unfold findingCodes. rewrite elem_of_two. naive_solver.
Qed.

(** *** The loop over the records *)

Lemma evaluateSpec_fold limits rec sps s s' :
  foldR (evaluateSpec limits rec) s sps = Ok s' →
  ∃ fs, mapR (makeFinding limits) sps = Ok fs ∧ ers_findings s' = ers_findings s ++ fs.
Proof.
  revert s. induction sps as [|sp sps IH]; intros s H; cbn in *.
  - apply Ok_inj in H as <-. exists []. by rewrite app_nil_r.
  - destruct (evaluateSpec limits rec s sp) as [s1|] eqn:Hsp; [|done].
    unfold evaluateSpec in Hsp. inv_ok. subst s1. destruct (IH _ H) as (fs & -> & ->). cbn.
    match goal with Hf : makeFinding _ _ = Ok ?f |- _ => rewrite Hf; exists (f :: fs) end.
    by rewrite <- app_assoc.
Qed.

Lemma evaluateRecords limits ctx recs s s' :
  foldR (evaluateRecord limits ctx) s recs = Ok s' →
  ∃ specss fs, mapR specsForRecord recs = Ok specss ∧ mapR (makeFinding limits) (concat specss) = Ok fs
    ∧ ers_findings s' = ers_findings s ++ fs.
Proof.
  revert s. induction recs as [|rec recs IH]; intros s H; cbn in *.
  - apply Ok_inj in H as <-. exists [], []. by rewrite app_nil_r.
  - destruct (evaluateRecord limits ctx s rec) as [s1|] eqn:Hr; [|done].
    unfold evaluateRecord in Hr. inv_ok. subst s1.
    destruct (IH _ H) as (specss & fs & -> & Hfs & ->). cbn in *.
    match goal with Hf : foldR _ _ ?l = Ok _ |- _ => destruct (evaluateSpec_fold _ _ _ _ _ Hf) as (fs0 & Hfs0 & ->);
      rename l into specs end.
    match goal with Hs : specsForRecord rec = _ |- _ => rewrite Hs end.
    exists (specs :: specss), (fs0 ++ fs). cbn. split_and!; [done|by apply mapR_app|by rewrite app_assoc].
Qed.

(** The findings are those of the run, then those of the records in order. *)
Lemma evaluateRules_specs limits ctx delta fs :
  evaluateRules limits ctx delta = Ok fs →
  ∃ specss, mapR specsForRecord (bd_Records delta) = Ok specss ∧
    mapR (makeFinding limits) (globalSpecs delta ++ concat specss) = Ok fs.
Proof.
  unfold evaluateRules. intros H. apply bind_Ok in H as (? & _ & H). apply bind_Ok in H as (gs & Hg & H).
  apply bind_Ok in H as (s & Hs & H). apply Ok_inj in H as <-.
  destruct (evaluateRecords _ _ _ _ _ Hs) as (specss & fs & Hm & Hf & ->). exists specss.
  split; [done|]. by apply mapR_app.
Qed.

(** *** Findings are about records or about the run *)

Lemma makes_about_record limits rec specs sp f :
  specsForRecord rec = Ok specs → sp ∈ specs → makes limits sp f →
  about_record rec f ∧ finding_identity f "record"
  ∧ fd_RuleID f = fs_ruleID sp ∧ fd_Severity f = fs_severity sp ∧ fd_Confidence f = fs_confidence sp.
Proof.
  intros Hspecs Hsp [Hr Hs Hc Hd Hids Hsc Hev Hb Hh Hw Hid _].
  destruct (specsForRecord_shape _ _ _ Hspecs Hsp) as (conf & E & Hconf & Hsev & Hrule & _ & Hrc).
  rewrite Hrule in Hr. unfold orElse in Hs, Hc, Hd, Hid.
  rewrite (bool_decide_false _ Hsev) in Hs.
  assert (fs_confidence sp = conf) as Ec by (by rewrite E).
  rewrite Ec, (bool_decide_false _ Hconf) in Hc.
  rewrite E in Hd, Hids, Hsc, Hev, Hb, Hh, Hid. cbn in Hd, Hids, Hsc, Hev, Hb, Hh, Hid.
  split_and!; [|done|done|done|by rewrite Hc].
  split; try done.
  - apply (specsForRecord_fires _ _ Hspecs). exists sp. by rewrite Hr, Hs.
  - by rewrite Hids, sortedUniqueStrings_one.
  - intros Hn. rewrite Hc, Hrc. unfold ruleConfidence. rewrite <- Hr. by rewrite (bool_decide_false _ Hn).
  - intros He. rewrite Hc, Hrc. unfold ruleConfidence. rewrite <- Hr, (bool_decide_true _ He).
    split; [rewrite elem_of_two|by intros Hl; rewrite (bool_decide_true _ Hl)].
    match goal with |- (if ?b then _ else _) = _ ∨ _ => destruct b end; auto.
  - intros sc. rewrite Hsc. apply elem_of_sortedUniqueStrings.
  - intros r. rewrite Hev. apply elem_of_dedupeEvidence.
  - intros r. rewrite Hev. apply dedupeEvidence_complete.
Qed.

Lemma run_trusted_iff delta : run_trusted delta ↔ globalSpecs delta = [].
Proof.
  unfold run_trusted, globalSpecs, syntheticContextRequiresReview.
  destruct (bd_ExecutionComplete delta), (bd_EvidenceComplete delta),
    (ec_SyntheticEvidence _), (ec_ExecutesTargetCode _); cbn; naive_solver.
Qed.

Lemma makes_about_run limits delta sp f : sp ∈ globalSpecs delta → makes limits sp f → about_run delta f.
Proof.
  intros Hsp [Hr Hs Hc Hd Hids Hsc Hev Hb Hh Hw Hid _]. unfold about_run.
  assert (¬ run_trusted delta) as Hnt.
  { rewrite run_trusted_iff. intros E. rewrite E in Hsp. by apply not_elem_of_nil in Hsp. }
  rewrite Hr, Hids, Hsc, Hev, Hc, Hd, Hs.
  unfold globalSpecs in Hsp. apply elem_of_app in Hsp as [Hsp|Hsp].
  - destruct (negb _ || negb _) eqn:Hi; [|by apply not_elem_of_nil in Hsp].
    apply list_elem_of_singleton in Hsp as ->. cbn. split_and!; try done. left. split_and!; try done.
    apply orb_true_iff in Hi as [?|?]; go_bool; auto.
  - destruct (_ && _) eqn:Hi; [|by apply not_elem_of_nil in Hsp].
    apply list_elem_of_singleton in Hsp as ->. cbn. split_and!; try done. right. by go_bool.
Qed.

(** ** Evaluations *)

(** What a successful evaluation computed. *)
Record evaluated (limits : Limits) (delta : BehavioralDelta) (doc : EvaluationDocument) : Prop := {
  ev_rules : ∃ ctx fs, evaluateRules limits ctx delta = Ok fs ∧ ed_Findings doc = sortFindings fs delta;
  ev_count : Z.of_nat (length (ed_Findings doc)) <= l_MaxFindings limits;
  ev_checked : ∃ s, foldR (checkFinding limits) (∅, 0) (ed_Findings doc) = Ok s;
  ev_summary : ed_Summary doc = summarizeFindings (ed_Findings doc);
  ev_overall : ed_OverallDisposition doc = overallDisposition (ed_Summary doc);
  ev_valid : validateDelta delta limits = Ok ();
}.

Lemma Evaluate_Ok limits ctx profile fz ev :
  Evaluate limits ctx profile (Some fz) = Ok ev → evaluated limits (fz_doc fz) (fe_doc ev).
Proof.
  unfold Evaluate. intros H. apply bind_Ok in H as (l & Hl & H). apply bind_Ok in Hl as (_ & _ & Hl).
  apply bind_Ok in Hl as (_ & _ & Hl). apply Ok_inj in Hl as <-.
  unfold evaluateDeltaDocument in H. cbv beta zeta in H.
  do 3 apply bind_Ok in H as (? & _ & H). inv_ok. go_bool.
  match goal with Hr : evaluateRules _ _ _ = Ok _ |- _ => rename Hr into Hrules end.
  match goal with Hv : validateDelta _ _ = Ok ?u |- _ => destruct u; rename Hv into Hvalid end.
  subst ev. split; cbn [fe_doc ed_Findings ed_Summary ed_OverallDisposition]; eauto.
Qed.

(** Membership in the sorted findings is membership in the findings of the specs. *)
Lemma evaluated_findings limits delta doc :
  evaluated limits delta doc →
  ∃ specss, mapR specsForRecord (bd_Records delta) = Ok specss ∧
    (∀ f, f ∈ ed_Findings doc → ∃ sp, sp ∈ globalSpecs delta ++ concat specss ∧ makes limits sp f) ∧
    (∀ sp, sp ∈ globalSpecs delta ++ concat specss → ∃ f, f ∈ ed_Findings doc ∧ makes limits sp f).
Proof.
  intros [(ctx & fs & Hr & E) _ _ _ _ _]. destruct (evaluateRules_specs _ _ _ _ Hr) as (specss & Hm & Hf).
  exists specss. split; [done|]. rewrite E. unfold sortFindings. setoid_rewrite stable_sort_Permutation.
  split.
  - intros f Hin. destruct (mapR_elem _ _ _ _ Hf Hin) as (sp & ? & ?). eauto using makeFinding_Ok.
  - intros sp Hin. destruct (mapR_elem_l _ _ _ _ Hf Hin) as (f & ? & ?). eauto using makeFinding_Ok.
Qed.

Lemma elem_of_specss records specss sp :
  mapR specsForRecord records = Ok specss → sp ∈ concat specss →
  ∃ rec specs, rec ∈ records ∧ specsForRecord rec = Ok specs ∧ sp ∈ specs.
Proof.
  intros Hm Hin. apply list_elem_of_In, in_concat in Hin as (specs & Hs & Hin).
  apply list_elem_of_In in Hs, Hin. destruct (mapR_elem _ _ _ _ Hm Hs) as (rec & ? & ?). eauto.
Qed.

Lemma specss_elem_of records specss rec :
  mapR specsForRecord records = Ok specss → rec ∈ records →
  ∃ specs, specsForRecord rec = Ok specs ∧ ∀ sp, sp ∈ specs → sp ∈ concat specss.
Proof.
  intros Hm Hin. destruct (mapR_elem_l _ _ _ _ Hm Hin) as (specs & Hs & ?). exists specs. split; [done|].
  intros sp Hsp. apply list_elem_of_In, in_concat. exists specs. by rewrite <- !list_elem_of_In.
Qed.

(** Every finding is about the run, or about one of its records. *)
Lemma evaluated_cases limits delta doc f :
  evaluated limits delta doc → f ∈ ed_Findings doc →
  (about_run delta f ∧ ∃ scope, scope ∈ ["global-incomplete"; "global-synthetic"]%string ∧ finding_identity f scope) ∨
  ∃ rec, rec ∈ bd_Records delta ∧ about_record rec f ∧ finding_identity f "record".
Proof.
  intros Hev Hf. destruct (evaluated_findings _ _ _ Hev) as (specss & Hm & Hsound & _).
  destruct (Hsound f Hf) as (sp & [Hsp|Hsp]%elem_of_app & Hmk).
  - left. split; [by eapply makes_about_run|]. exists (orElse (fs_scope sp) "record").
    split; [|apply Hmk]. unfold globalSpecs in Hsp. rewrite elem_of_two.
    destruct (negb _ || negb _), (syntheticContextRequiresReview _); cbn in Hsp;
      rewrite ?app_nil_r, ?list_elem_of_singleton in Hsp; try (by apply not_elem_of_nil in Hsp);
      subst sp; cbn; auto.
  - right. destruct (elem_of_specss _ _ _ Hm Hsp) as (rec & specs & Hrec & Hspecs & Hin).
    exists rec. destruct (makes_about_record _ _ _ _ _ Hspecs Hin Hmk) as (? & ? & _). done.
Qed.

(** *** Disposition *)

Definition countDisposition (d : Disposition) (l : list Finding) : Z :=
  Z.of_nat (length (filter (λ f, fd_Disposition f = d) l)).
Definition countSeverity (s : Severity) (l : list Finding) : Z :=
  Z.of_nat (length (filter (λ f, fd_Severity f = s) l)).

Lemma count_cons {A} (P : A → Prop) `{∀ x, Decision (P x)} x l :
  Z.of_nat (length (filter P (x :: l))) = bump (bool_decide (P x)) (Z.of_nat (length (filter P l))).
Proof. rewrite filter_cons. unfold bump. case_bool_decide; case_decide; try done. cbn. lia. Qed.

Lemma summarize_findings_fold l s :
  foldl summarizeFinding s l =
  mkEvaluationSummary (es_TotalFindings s)
    (es_Info s + countSeverity SeverityInfo l) (es_Low s + countSeverity SeverityLow l)
    (es_Medium s + countSeverity SeverityMedium l) (es_High s + countSeverity SeverityHigh l)
    (es_Critical s + countSeverity SeverityCritical l)
    (es_RequiresReview s + countDisposition DispositionRequiresReview l)
    (es_Failed s + countDisposition DispositionFailed l) (es_Passed s + countDisposition DispositionPassed l)
    (es_Waived s + countDisposition DispositionWaived l).
Proof.
  revert s. induction l as [|f l IH]; intros s.
  - destruct s. cbn. by rewrite !Z.add_0_r.
  - cbn [foldl]. rewrite IH. unfold countSeverity, countDisposition. rewrite !count_cons.
    unfold summarizeFinding. cbn [es_TotalFindings es_Info es_Low es_Medium es_High es_Critical
      es_RequiresReview es_Failed es_Passed es_Waived].
    f_equal; unfold bump; case_bool_decide; lia.
Qed.

Lemma summarizeFindings_spec l :
  summarizeFindings l =
  mkEvaluationSummary (Z.of_nat (length l))
    (countSeverity SeverityInfo l) (countSeverity SeverityLow l) (countSeverity SeverityMedium l)
    (countSeverity SeverityHigh l) (countSeverity SeverityCritical l)
    (countDisposition DispositionRequiresReview l) (countDisposition DispositionFailed l)
    (countDisposition DispositionPassed l) (countDisposition DispositionWaived l).
Proof. unfold summarizeFindings. by rewrite summarize_findings_fold. Qed.

Lemma countDisposition_pos d l : 0 < countDisposition d l ↔ ∃ f, f ∈ l ∧ fd_Disposition f = d.
Proof.
  unfold countDisposition. split.
  - intros H. destruct (filter _ l) as [|f k] eqn:E; [done|]. exists f.
    assert (f ∈ filter (λ f, fd_Disposition f = d) l) as Hf by (rewrite E; apply list_elem_of_here).
    apply list_elem_of_filter in Hf. tauto.
  - intros (f & Hf & Hd).
    assert (f ∈ filter (λ f, fd_Disposition f = d) l) as Hin by (by apply list_elem_of_filter).
    destruct (filter _ l); [by apply not_elem_of_nil in Hin|]. cbn. lia.
Qed.

Lemma overallDisposition_cases l :
  overallDisposition (summarizeFindings l) =
    if bool_decide (Exists (λ f, fd_Disposition f = DispositionFailed) l) then DispositionFailed
    else match l with [] => DispositionPassed | _ => DispositionRequiresReview end.
Proof.
  unfold overallDisposition. rewrite summarizeFindings_spec. cbn [es_Failed es_TotalFindings].
  case_bool_decide as E.
  - rewrite Exists_exists, <- countDisposition_pos in E. by rewrite (proj2 (Z.ltb_lt _ _)).
  - rewrite Exists_exists, <- countDisposition_pos in E. rewrite (proj2 (Z.ltb_ge _ _)) by lia.
    by destruct l.
Qed.

(** C30: The overall disposition of an evaluation is [failed] exactly when the
    execution or the evidence of the run is incomplete, [passed] exactly when
    the run is complete, executed target code on real evidence and no rule
    fires on any record of the delta, and [requires-review] otherwise. *)
Theorem evaluate_disposition limits ctx profile fz ev :
  Evaluate limits ctx profile (Some fz) = Ok ev →
  let delta := fz_doc fz in
  let overall := ed_OverallDisposition (fe_doc ev) in
  (overall = DispositionFailed ↔ bd_ExecutionComplete delta = false ∨ bd_EvidenceComplete delta = false) ∧
  (overall = DispositionPassed ↔
     run_trusted delta ∧ ∀ rec rule sev, rec ∈ bd_Records delta → ¬ triggers rec rule sev) ∧
  overall ∈ [DispositionFailed; DispositionPassed; DispositionRequiresReview].
Proof.
  intros H. apply Evaluate_Ok in H as Hev. destruct (evaluated_findings _ _ _ Hev) as (specss & Hm & Hsound & Hall).
  cbn zeta. rewrite (ev_overall _ _ _ Hev), (ev_summary _ _ _ Hev), overallDisposition_cases.
  set (delta := fz_doc fz) in *. set (fs := ed_Findings (fe_doc ev)) in *.
  assert (Exists (λ f, fd_Disposition f = DispositionFailed) fs ↔
    bd_ExecutionComplete delta = false ∨ bd_EvidenceComplete delta = false) as Hfail.
  { rewrite Exists_exists. split.
    - intros (f & Hf & Hd). destruct (evaluated_cases _ _ _ _ Hev Hf) as [[Hrun _]|(rec & _ & Hrec & _)].
      + destruct Hrun as (_ & _ & _ & _ & _ & _ & [(_ & _ & ?)|(Hd' & _)]); [done|by rewrite Hd' in Hd].
      + by rewrite (ab_disposition _ _ Hrec) in Hd.
    - intros Hinc. destruct (Hall (globalSpec SeverityHigh DispositionFailed "global-incomplete"
        (completenessLimitations delta))) as (f & Hf & Hmk).
      + apply elem_of_app. left. unfold globalSpecs.
        assert (negb (bd_ExecutionComplete delta) || negb (bd_EvidenceComplete delta) = true) as ->
          by (destruct Hinc as [-> | ->]; [done|apply orb_true_r]).
        apply list_elem_of_here.
      + exists f. split; [done|]. by rewrite (mk_disposition _ _ _ Hmk). }
  assert (fs = [] ↔ run_trusted delta ∧ ∀ rec rule sev, rec ∈ bd_Records delta → ¬ triggers rec rule sev) as Hnil.
  { rewrite run_trusted_iff. split.
    - intros E. split.
      + destruct (globalSpecs delta) as [|sp l]; [done|].
        destruct (Hall sp) as (f & Hf & _); [apply list_elem_of_here|]. rewrite E in Hf. by apply not_elem_of_nil in Hf.
      + intros rec rule sev Hrec Htr. destruct (specss_elem_of _ _ _ Hm Hrec) as (specs & Hs & Hin).
        destruct (proj2 (specsForRecord_fires _ _ Hs rule sev) Htr) as (sp & Hsp & _).
        destruct (Hall sp) as (f & Hf & _); [apply elem_of_app; auto|]. rewrite E in Hf. by apply not_elem_of_nil in Hf.
    - intros [E Hno]. destruct fs as [|f l] eqn:Ef; [done|]. destruct (Hsound f) as (sp & Hsp & Hmk); [apply list_elem_of_here|].
      rewrite E in Hsp. destruct (elem_of_specss _ _ _ Hm Hsp) as (rec & specs & Hrec & Hs & Hin).
      exfalso. apply (Hno rec (fs_ruleID sp) (fs_severity sp) Hrec), (specsForRecord_fires _ _ Hs). by exists sp. }
  case_bool_decide as E.
  - split_and!; [tauto| |apply list_elem_of_here]. split; [done|]. rewrite Hfail in E.
    intros [(? & ? & _) _]. destruct E; congruence.
  - destruct fs as [|f l].
    + split_and!; [by split; [|tauto]|by split; [tauto|]|by apply elem_of_cons; right; apply list_elem_of_here].
    + split_and!; [by split; [|tauto]|split; [done|]; intros Hp; by apply Hnil in Hp|].
      by do 2 (apply elem_of_cons; right); apply list_elem_of_here.
Qed.

(** *** Every trigger is reported, every report has a trigger *)

(** C28: Whenever a rule of the catalogue fires on a record of the delta, the
    evaluation holds a finding of that rule and severity that names the record
    and all its scenarios, requires review, is not waived, and carries a
    reference for every piece of the record's evidence.  Its confidence is that of
    the record's basis and source; of GR-DET-001, where the code applies no cap of
    the source, it is only said that it is never high, and low without full coverage. *)
Theorem evaluate_complete limits ctx profile fz ev rec rule sev :
  Evaluate limits ctx profile (Some fz) = Ok ev →
  rec ∈ bd_Records (fz_doc fz) → triggers rec rule sev →
  ∃ f, f ∈ ed_Findings (fe_doc ev) ∧ fd_RuleID f = rule ∧ fd_Severity f = sev ∧ about_record rec f.
Proof.
  intros H Hrec Htr. apply Evaluate_Ok in H as Hev. destruct (evaluated_findings _ _ _ Hev) as (specss & Hm & _ & Hall).
  destruct (specss_elem_of _ _ _ Hm Hrec) as (specs & Hs & Hin).
  destruct (proj2 (specsForRecord_fires _ _ Hs rule sev) Htr) as (sp & Hsp & <- & <-).
  destruct (Hall sp) as (f & Hf & Hmk); [apply elem_of_app; auto|].
  destruct (makes_about_record _ _ _ _ _ Hs Hsp Hmk) as (Hab & _ & ? & ? & _). by exists f.
Qed.

(** C29: Every finding of an evaluation either states that the run as a whole is
    incomplete, synthetic or did not execute target code, and names no record;
    or it names one record of the delta on which its rule fires with its
    severity, and cites evidence of that record only.  Its identity is the
    digest of the profile, rule set, rule, record and scenarios it names. *)
Theorem evaluate_sound limits ctx profile fz ev f :
  Evaluate limits ctx profile (Some fz) = Ok ev → f ∈ ed_Findings (fe_doc ev) →
  (about_run (fz_doc fz) f ∨ ∃ rec, rec ∈ bd_Records (fz_doc fz) ∧ about_record rec f) ∧
  ∃ scope, scope ∈ ["record"; "global-incomplete"; "global-synthetic"]%string ∧ finding_identity f scope.
Proof.
  intros H Hf. apply Evaluate_Ok in H as Hev.
  destruct (evaluated_cases _ _ _ _ Hev Hf) as [(Hr & sc & Hsc & Hid)|(rec & Hrec & Hab & Hid)].
  - split; [by left|]. exists sc. split; [|done]. by apply elem_of_cons; right.
  - split; [right; eauto|]. exists "record"%string. split; [apply list_elem_of_here|done].
Qed.

(** *** Confidence *)

Definition cappedAt (c : Confidence) (s : ObservationSource) : Prop :=
  (s ∈ [ObservationSourceModelInferred; ObservationSourceSyntheticTestGenerated] → c = ConfidenceLow) ∧
  (s ∈ [ObservationSourceGuestAgentReported; ObservationSourceWorkloadReported;
        ObservationSourceStaticAnalysisDerived] → c ≠ ConfidenceHigh).

Lemma classify_capped b s :
  let c := classifyPolicyConfidence b s true in
  cappedAt c s ∧ (c = ConfidenceHigh → b = ComparisonBasisCompleteObservation) ∧
  (b ∈ [ComparisonBasisCoverageLimited; ComparisonBasisAmbiguousCorrelation] → c = ConfidenceLow).
Proof.
  unfold cappedAt. rewrite !elem_of_cons, !elem_of_nil. cbn zeta. unfold classifyPolicyConfidence. split_and!.
  - intros [-> |[-> | []]]; by destruct (b == _), (bool_decide (b ∈ [ComparisonBasisSingleSample; ComparisonBasisRepetitionVariable])).
  - intros [-> |[-> |[-> | []]]]; by destruct (b == _), (bool_decide (b ∈ [ComparisonBasisSingleSample; ComparisonBasisRepetitionVariable])).
  - destruct (b == _) eqn:E; go_bool; [done|].
    destruct (bool_decide (b ∈ [ComparisonBasisSingleSample; ComparisonBasisRepetitionVariable])),
      (bool_decide (s ∈ [ObservationSourceGuestAgentReported; ObservationSourceWorkloadReported; ObservationSourceStaticAnalysisDerived])); repeat destruct (s == _); done.
  - intros [-> |[-> | []]];
      destruct (bool_decide (s ∈ [ObservationSourceGuestAgentReported; ObservationSourceWorkloadReported; ObservationSourceStaticAnalysisDerived])); repeat destruct (s == _); done.
Qed.

(** A finding about a record never claims more confidence than the evidence
    supports: high confidence requires a complete observation from a trusted
    source, a coverage-limited or ambiguous comparison gives low confidence,
    reported and derived observations cap it at medium, and inferred or
    synthetic ones at low; except that a repeatability finding (GR-DET-001)
    does not look at the source: it is never high, and medium only when the
    basis is not coverage-limited and the head coverage is complete. *)
Theorem confidence_capped limits ctx profile fz ev f :
  Evaluate limits ctx profile (Some fz) = Ok ev → f ∈ ed_Findings (fe_doc ev) →
  about_run (fz_doc fz) f ∨
  ∃ rec, rec ∈ bd_Records (fz_doc fz) ∧ about_record rec f ∧
    (fd_RuleID f ≠ "GR-DET-001"%string →
      cappedAt (fd_Confidence f) (dr_Source rec) ∧
      (fd_Confidence f = ConfidenceHigh → dr_Basis rec = ComparisonBasisCompleteObservation) ∧
      (dr_Basis rec ∈ [ComparisonBasisCoverageLimited; ComparisonBasisAmbiguousCorrelation] →
         fd_Confidence f = ConfidenceLow)) ∧
    (fd_RuleID f = "GR-DET-001"%string →
      fd_Confidence f = ConfidenceMedium ∧ dr_Basis rec ≠ ComparisonBasisCoverageLimited
        ∧ op_Coverage (dr_HeadOccurrence rec) = CoverageAssessmentComplete ∨
      fd_Confidence f = ConfidenceLow).
Proof.
  intros H Hf. apply Evaluate_Ok in H as Hev.
  destruct (evaluated_cases _ _ _ _ Hev Hf) as [[Hr _]|(rec & Hrec & Hab & _)]; [by left|right].
  exists rec. split_and!; [done..| |]; intros Hrule.
  - rewrite (ab_confidence _ _ Hab Hrule). apply classify_capped.
  - destruct (ab_repeatability _ _ Hab Hrule) as [[E|E]%elem_of_two Hlow]; [|by right]. left. split; [done|].
    split; [intros Eb; rewrite Hlow in E by tauto; discriminate E|].
    apply dec_stable. intros Eb. rewrite Hlow in E by tauto. discriminate E.
Qed.

(** *** Order, identities and bounds *)

Definition evidenceTotal (l : list Finding) : Z := foldr (λ f n, Z.of_nat (length (fd_Evidence f)) + n) 0 l.

Lemma checkFindings_Ok limits l seen refs s :
  foldR (checkFinding limits) (seen, refs) l = Ok s → refs <= l_MaxEvidenceRefsTotal limits →
  NoDup (fd_ID <$> l) ∧ (∀ f, f ∈ l → fd_ID f ∉ seen) ∧ refs + evidenceTotal l <= l_MaxEvidenceRefsTotal limits.
Proof.
  revert seen refs. induction l as [|f l IH]; intros seen refs H Hle; cbn in *.
  - split_and!; [constructor|by intros ? ?%not_elem_of_nil|lia].
  - unfold checkFinding at 1 in H. destruct (_ ≫= _) as [s1|] eqn:Hf; [|done]. inv_ok. go_bool. subst s1.
    destruct (IH _ _ H) as (Hnd & Hseen & Hsum); [done|]. split_and!.
    + constructor; [|done]. intros (g & Hg & Hin)%list_elem_of_fmap. apply Hseen in Hin. set_solver.
    + intros g [->|Hg]%elem_of_cons; [done|]. apply Hseen in Hg. set_solver.
    + fold (evidenceTotal l). lia.
Qed.

#[global] Instance finding_less_weak rank : StrictWeak (finding_less rank).
Proof. unfold finding_less. apply _. Qed.

Lemma finding_less_total rank f g :
  finding_less rank f g = false → finding_less rank g f = false → fd_ID f = fd_ID g.
Proof.
  unfold finding_less. intros Hfg Hgf.
  do 5 (apply (by_key_tie _ _ _ _ _ Hfg) in Hgf as (_ & Hfg' & Hgf'); clear Hfg; rename Hfg' into Hfg, Hgf' into Hgf).
  by apply st_total.
Qed.

(** The findings of an evaluation have distinct identities, stay within the
    configured counts of findings and evidence references, and are in the
    documented order (failed before requires-review, then by severity, rule,
    scenario rank, record and identity); any other order of the same findings
    sorts to the same list, so the output does not depend on the order in which
    rules and records were visited. *)
Theorem evaluate_canonical limits ctx profile fz ev :
  Evaluate limits ctx profile (Some fz) = Ok ev → 0 <= l_MaxEvidenceRefsTotal limits →
  let delta := fz_doc fz in
  let fs := ed_Findings (fe_doc ev) in
  NoDup (fd_ID <$> fs) ∧
  Z.of_nat (length fs) <= l_MaxFindings limits ∧ evidenceTotal fs <= l_MaxEvidenceRefsTotal limits ∧
  StronglySorted (not_after (finding_less (scenarioRanks (bd_ScenarioIDs delta)))) fs ∧
  ∀ fs', fs' ≡ₚ fs → sortFindings fs' delta = fs.
Proof.
  intros H Hpos delta fs. apply Evaluate_Ok in H as [(? & fs0 & _ & E) Hn [s Hs] _ _ _].
  apply checkFindings_Ok in Hs as (Hnd & _ & Hsum); [|done].
  assert (StronglySorted (not_after (finding_less (scenarioRanks (bd_ScenarioIDs delta)))) fs) as Hsort
    by (unfold fs; rewrite E; apply stable_sort_StronglySorted, _).
  split_and!; [done..|by rewrite Z.add_0_l in Hsum|done|].
  intros fs' Hp. unfold sortFindings. rewrite <- (stable_sort_id (finding_less _) fs Hsort).
  apply stable_sort_canonical; [apply _| |done].
  intros f g Hf Hg Hfg Hgf. pose proof (finding_less_total _ _ _ Hfg Hgf) as Hid.
  rewrite Hp in Hf, Hg. apply list_elem_of_lookup in Hf as [i Hi], Hg as [j Hj].
  assert (i = j) as ->; [|congruence]. apply (NoDup_lookup _ _ _ (fd_ID f) Hnd).
  - apply list_lookup_fmap_Some. eauto.
  - apply list_lookup_fmap_Some. eauto.
Qed.

Lemma finding_classes limits delta doc f :
  evaluated limits delta doc → f ∈ ed_Findings doc →
  (fd_Severity f = SeverityMedium ∨ fd_Severity f = SeverityHigh) ∧
  (fd_Disposition f = DispositionRequiresReview ∨ fd_Disposition f = DispositionFailed).
Proof.
  intros Hev Hf. destruct (evaluated_cases _ _ _ _ Hev Hf) as [[Hr _]|(rec & _ & Hab & _)].
  - destruct Hr as (_ & _ & _ & _ & _ & _ & [(? & ? & _)|(? & ? & _)]); auto.
  - split; [|left; apply Hab]. pose proof (ab_trigger _ _ Hab) as Ht. revert Ht.
    generalize (fd_RuleID f). intros r Ht.
    destruct Ht as [| | | | |op sev ? ? ? Hop| | | |]; auto. destruct Hop; auto.
Qed.

Lemma length_filter_split {A} (P Q : A → Prop) `{∀ x, Decision (P x)} `{∀ x, Decision (Q x)} l :
  (∀ x, x ∈ l → P x ∨ Q x) → (∀ x, P x → ¬ Q x) →
  Z.of_nat (length (filter P l)) + Z.of_nat (length (filter Q l)) = Z.of_nat (length l).
Proof.
  intros Hl Hd. induction l as [|x l IH]; [done|].
  rewrite !count_cons. cbn [length]. specialize (IH (λ y Hy, Hl y (list_elem_of_further _ _ _ Hy))).
  destruct (Hl x (list_elem_of_here _ _)) as [HP|HQ]; unfold bump.
  - rewrite bool_decide_true, (bool_decide_false (Q x)) by eauto. lia.
  - rewrite (bool_decide_false (P x)), bool_decide_true by (intuition eauto). lia.
Qed.

(** The summary of an evaluation counts its findings by severity and by
    disposition; only medium and high severities and the dispositions
    requires-review and failed occur, and each pair adds up to the number of
    findings. *)
Theorem evaluate_summary limits ctx profile fz ev :
  Evaluate limits ctx profile (Some fz) = Ok ev →
  let fs := ed_Findings (fe_doc ev) in
  let s := ed_Summary (fe_doc ev) in
  s = mkEvaluationSummary (Z.of_nat (length fs)) 0 0
        (countSeverity SeverityMedium fs) (countSeverity SeverityHigh fs) 0
        (countDisposition DispositionRequiresReview fs) (countDisposition DispositionFailed fs) 0 0 ∧
  es_Medium s + es_High s = es_TotalFindings s ∧ es_RequiresReview s + es_Failed s = es_TotalFindings s.
Proof.
  intros H fs s. apply Evaluate_Ok in H as Hev. pose proof (λ f, finding_classes _ _ _ f Hev) as Hc.
  fold fs in Hc.
  assert (s = mkEvaluationSummary (Z.of_nat (length fs)) 0 0
        (countSeverity SeverityMedium fs) (countSeverity SeverityHigh fs) 0
        (countDisposition DispositionRequiresReview fs) (countDisposition DispositionFailed fs) 0 0) as ->.
  { unfold s. rewrite (ev_summary _ _ _ Hev), summarizeFindings_spec. fold fs.
    f_equal; unfold countSeverity, countDisposition; rewrite filter_none; try done;
      intros f Hf; destruct (Hc f Hf) as [[E|E] [E'|E']]; rewrite ?E, ?E'; discriminate. }
  split; [done|]. cbn. split; apply length_filter_split.
  - intros f Hf. apply (Hc f Hf).
  - intros f ->. discriminate.
  - intros f Hf. apply (Hc f Hf).
  - intros f ->. discriminate.
Qed.

(** *** What the identity of a finding binds *)

Definition list_ok (l : list string) : Prop := is_list is_str l.

Lemma list_ok_Permutation l k : l ≡ₚ k → list_ok l → list_ok k.
Proof. unfold list_ok, is_list. intros Hp [Hn Hl]. by rewrite <- Hp. Qed.

Lemma sortedStrings_ok l : list_ok l → list_ok (sortedStrings l).
Proof. apply list_ok_Permutation. symmetry. apply sort_strings_Permutation. Qed.

Lemma sortedUniqueStrings_ok l : list_ok l → list_ok (sortedUniqueStrings l).
Proof.
  unfold list_ok, is_list. rewrite !Forall_forall. intros [Hn Hl]. split.
  - assert (length (sortedUniqueStrings l) <= length l)%nat; [|lia].
    apply submseteq_length, NoDup_submseteq.
    + unfold sortedUniqueStrings. rewrite sort_strings_Permutation. apply NoDup_elements.
    + intros v. rewrite elem_of_sortedUniqueStrings. tauto.
  - intros v [Hv _]%elem_of_sortedUniqueStrings. auto.
Qed.

Lemma sortedStrings_perm l k : sortedStrings l = sortedStrings k → l ≡ₚ k.
Proof.
  intros E. rewrite <- (sort_strings_Permutation l), <- (sort_strings_Permutation k).
  unfold sortedStrings in E. by rewrite E.
Qed.

Lemma findingPreimage_binds p s r v ids sc scs p' s' r' v' ids' sc' scs' :
  Forall is_str [p; s; r; v; sc] → Forall is_str [p'; s'; r'; v'; sc'] →
  list_ok ids → list_ok scs → list_ok ids' → list_ok scs' →
  findingPreimage p s r v ids sc scs = findingPreimage p' s' r' v' ids' sc' scs' →
  p = p' ∧ s = s' ∧ r = r' ∧ v = v' ∧ sc = sc' ∧ ids ≡ₚ ids' ∧ scs ≡ₚ scs'.
Proof.
  intros H H' Hi Hs Hi' Hs' E. repeat setoid_rewrite Forall_cons in H. repeat setoid_rewrite Forall_cons in H'.
  destruct H as (? & ? & ? & ? & ? & _), H' as (? & ? & ? & ? & ? & _).
  apply sortedStrings_ok in Hi, Hs, Hi', Hs'. unfold list_ok in *.
  unfold findingPreimage in E. peel_frames.
  apply (prefix_free_inj (is_list is_str) writeStrings) in E; [|done..].
  split_and!; try done; by apply sortedStrings_perm.
Qed.


(** The bytes hashed into a finding's identity determine the profile, the
    rule set, the rule and its version, the scope, and the sets of records and
    scenarios: two findings that differ in any of them hash different bytes. *)
Theorem finding_identity_binds p s r v ids sc scs p' s' r' v' ids' sc' scs' :
  Forall is_str [p; s; r; v; sc] → Forall is_str [p'; s'; r'; v'; sc'] →
  list_ok ids → list_ok scs → list_ok ids' → list_ok scs' →
  findingPreimage p s r v ids sc scs = findingPreimage p' s' r' v' ids' sc' scs' →
  p = p' ∧ s = s' ∧ r = r' ∧ v = v' ∧ sc = sc' ∧ ids ≡ₚ ids' ∧ scs ≡ₚ scs'.
Proof. apply findingPreimage_binds. Qed.

(** The bytes hashed into the identity of the finding of a spec. *)
Definition specPreimage (sp : findingSpec) : bytes :=
  let rule := ruleByID (fs_ruleID sp) in
  findingPreimage PolicyProfileVersionStrictV1Alpha1 BuiltinRuleSetVersionStrictV1Alpha1 (rm_ID rule)
    (rm_Version rule) (sortedUniqueStrings (fs_recordIDs sp)) (orElse (fs_scope sp) "record")
    (sortedUniqueStrings (fs_scenarioIDs sp)).

(** All the findings a delta can give rise to. *)
Definition allSpecs (delta : BehavioralDelta) : list findingSpec :=
  globalSpecs delta ++
  (bd_Records delta ≫= λ rec, match specsForRecord rec with Ok l => l | Err _ => [] end).

(** SHA-256 does not collide on the given inputs. *)
Definition collision_free (inputs : list bytes) : Prop :=
  ∀ a b, a ∈ inputs → b ∈ inputs → sha256_hex a = sha256_hex b → a = b.

(** Strings and lists a Go program can hold. *)
Definition record_sized (rec : DeltaRecord) : Prop := is_str (dr_ID rec) ∧ list_ok (dr_ScenarioIDs rec).

Lemma allSpecs_concat delta specss :
  mapR specsForRecord (bd_Records delta) = Ok specss → allSpecs delta = globalSpecs delta ++ concat specss.
Proof.
  intros H. unfold allSpecs. f_equal. apply mapR_Ok in H. induction H as [|rec l recs ls Hr _ IH]; [done|].
  cbn. by rewrite Hr, IH.
Qed.

(** The rule and the records of a spec: no two specs of a delta share both. *)
Definition specKey (sp : findingSpec) : string * list string := (fs_ruleID sp, fs_recordIDs sp).

Lemma specs_of_record rec specs :
  specsForRecord rec = Ok specs → specKey <$> specs = (λ r, (r, [dr_ID rec])) <$> (fs_ruleID <$> specs).
Proof.
  intros Hs. rewrite <- list_fmap_compose. apply list_fmap_ext. intros i sp Hi.
  apply list_elem_of_lookup_2 in Hi. destruct (specsForRecord_shape _ _ _ Hs Hi) as (conf & E & _).
  unfold specKey. cbn. rewrite E. done.
Qed.

Lemma recordSpecs_keys recs specss :
  mapR specsForRecord recs = Ok specss → NoDup (dr_ID <$> recs) → NoDup (specKey <$> concat specss).
Proof.
  intros Hm%mapR_Ok Hnd. induction Hm as [|rec specs recs specss Hr Hm IH]; cbn in *; [constructor|].
  inversion_clear Hnd as [|? ? Hrec Hrecs]. rewrite fmap_app. apply NoDup_app. split_and!.
  - rewrite (specs_of_record _ _ Hr). apply NoDup_fmap_2; [by intros ? ? [= ->]|].
    refine (sublist_NoDup _ _ _ (specsForRecord_rules _ _ Hr)).
    apply (bool_decide_unpack _). vm_compute. exact I.
  - intros k. rewrite (specs_of_record _ _ Hr). intros (r & -> & _)%list_elem_of_fmap (sp & E & Hsp)%list_elem_of_fmap.
    apply mapR_Ok in Hm. destruct (elem_of_specss _ _ _ Hm Hsp) as (rec' & specs' & Hrec' & Hr' & Hin).
    destruct (specsForRecord_shape _ _ _ Hr' Hin) as (conf & E' & _).
    apply Hrec, list_elem_of_fmap. exists rec'. split; [|done]. rewrite E' in E. by injection E.
  - by apply IH.
Qed.

Lemma spec_sized delta specss sp :
  mapR specsForRecord (bd_Records delta) = Ok specss →
  (∀ rec, rec ∈ bd_Records delta → record_sized rec) →
  sp ∈ globalSpecs delta ++ concat specss →
  list_ok (fs_recordIDs sp) ∧ list_ok (fs_scenarioIDs sp) ∧ is_str (fs_scope sp)
  ∧ rm_ID (ruleByID (fs_ruleID sp)) = fs_ruleID sp ∧ is_str (fs_ruleID sp) ∧ rm_Emit (ruleByID (fs_ruleID sp)) = true
  ∧ is_str (rm_Version (ruleByID (fs_ruleID sp))).
Proof.
  intros Hm Hsz Hsp.
  assert (∀ r, r ∈ recordRules → is_str r ∧ is_str (rm_Version (ruleByID r))) as Hrules.
  { apply Forall_forall. repeat constructor. }
  apply elem_of_app in Hsp as [Hsp|Hsp].
  - unfold globalSpecs in Hsp. apply elem_of_app in Hsp as [Hsp|Hsp];
      (destruct (_ : bool) in Hsp; [|by apply not_elem_of_nil in Hsp]);
      apply list_elem_of_singleton in Hsp as ->; cbn [fs_recordIDs fs_scenarioIDs fs_scope fs_ruleID globalSpec];
      (split_and!; [by split; [|constructor]|by split; [|constructor]|done..]).
  - destruct (elem_of_specss _ _ _ Hm Hsp) as (rec & specs & Hrec & Hr & Hin).
    destruct (specsForRecord_shape _ _ _ Hr Hin) as (conf & E & _ & _ & Hid & Hemit & _).
    assert (fs_ruleID sp ∈ recordRules) as Hrule.
    { eapply elem_of_submseteq; [|by apply sublist_submseteq, (specsForRecord_rules _ _ Hr)].
      apply list_elem_of_fmap. eauto. }
    destruct (Hrules _ Hrule). destruct (Hsz rec Hrec) as [? ?].
    split_and!; try done; rewrite E; try done. split; [done|]. by constructor.
Qed.

Lemma allSpecs_preimages delta specss :
  mapR specsForRecord (bd_Records delta) = Ok specss →
  (∀ rec, rec ∈ bd_Records delta → record_sized rec) →
  NoDup (dr_ID <$> bd_Records delta) → (∀ rec, rec ∈ bd_Records delta → dr_ID rec ≠ ""%string) →
  NoDup (specPreimage <$> (globalSpecs delta ++ concat specss)).
Proof.
  intros Hm Hsz Hnd Hne.
  assert (∀ sp, sp ∈ globalSpecs delta ++ concat specss →
    fs_recordIDs sp = [] ∧ sp ∈ globalSpecs delta ∨ ∃ id, fs_recordIDs sp = [id] ∧ id ≠ ""%string) as Hids.
  { intros sp [Hsp|Hsp]%elem_of_app.
    - left. split; [|done]. unfold globalSpecs in Hsp. apply elem_of_app in Hsp as [Hsp|Hsp];
        (destruct (_ : bool) in Hsp; [|by apply not_elem_of_nil in Hsp]);
        by apply list_elem_of_singleton in Hsp as ->.
    - right. destruct (elem_of_specss _ _ _ Hm Hsp) as (rec & specs & Hrec & Hr & Hin).
      destruct (specsForRecord_shape _ _ _ Hr Hin) as (conf & E & _). exists (dr_ID rec). rewrite E. auto. }
  apply (NoDup_fmap_via specKey).
  - intros x y Hx Hy E. destruct (spec_sized _ _ _ Hm Hsz Hx) as (? & ? & ? & Ex & ? & _ & ?).
    destruct (spec_sized _ _ _ Hm Hsz Hy) as (? & ? & ? & Ey & ? & _ & ?).
    unfold specPreimage in E. rewrite Ex, Ey in E.
    assert (∀ s, is_str s → is_str (orElse s "record")) as Hs by (intros s; unfold orElse; by case_bool_decide).
    apply findingPreimage_binds in E as (_ & _ & Er & _ & _ & Ei & _);
      [|first [by apply sortedUniqueStrings_ok
              |repeat apply Forall_cons_2; first [by apply Forall_nil_2|by auto|reflexivity]]..].
    unfold specKey. f_equal; [done|].
    destruct (Hids x Hx) as [[Ix _]|(i & Ix & Hi)], (Hids y Hy) as [[Iy _]|(j & Iy & Hj)];
      rewrite Ix, Iy in *; rewrite ?sortedUniqueStrings_single in Ei by done.
    + done.
    + apply Permutation_length in Ei. vm_compute in Ei. discriminate Ei.
    + apply Permutation_length in Ei. vm_compute in Ei. discriminate Ei.
    + by apply Permutation_singleton_inj in Ei as ->.
  - rewrite fmap_app. apply NoDup_app. split_and!.
    + unfold globalSpecs. destruct (negb _ || negb _), (syntheticContextRequiresReview _); cbn;
        first [apply NoDup_singleton|apply NoDup_nil_2].
    + intros k (sp & -> & Hsp)%list_elem_of_fmap (sp' & E & Hsp')%list_elem_of_fmap.
      destruct (elem_of_specss _ _ _ Hm Hsp') as (rec & specs & Hrec & Hr & Hin).
      destruct (specsForRecord_shape _ _ _ Hr Hin) as (conf & E' & _).
      injection E as _ E. rewrite E' in E. cbn in E.
      unfold globalSpecs in Hsp. apply elem_of_app in Hsp as [Hsp|Hsp];
        (destruct (_ : bool) in Hsp; [|by apply not_elem_of_nil in Hsp]);
        by apply list_elem_of_singleton in Hsp as ->.
    + by eapply recordSpecs_keys.
Qed.

(** *** Evaluations return *)

Definition evaluationLimitCodes : list string :=
  ["finding-limit"; "evidence-reference-limit"; "evaluation-too-large"]%string.

Lemma findingCodes_limit c : c ∈ findingCodes → c ∈ evaluationLimitCodes.
Proof. unfold findingCodes, evaluationLimitCodes. rewrite !elem_of_cons. tauto. Qed.

(** The run is not cancelled while it is evaluated. *)
Definition uncancelled (ctx : Context) : Prop := ∀ n, ctx n = None.

Lemma evaluateRules_Err limits ctx delta e :
  uncancelled ctx → (∀ rec, rec ∈ bd_Records delta → ∃ specs, specsForRecord rec = Ok specs) →
  evaluateRules limits ctx delta = Err e → pe_Code e ∈ findingCodes.
Proof.
  intros Hctx Hspecs. unfold evaluateRules, poll. rewrite Hctx. cbn [mbind result_bind].
  rewrite bind_Err. intros [H|(gs & _ & H)].
  - apply mapR_Err in H as (sp & Hsp & H). apply makeFinding_Err in H; [done|..];
      unfold globalSpecs in Hsp; apply elem_of_app in Hsp as [Hsp|Hsp];
      (destruct (_ : bool) in Hsp; [|by apply not_elem_of_nil in Hsp]);
      by apply list_elem_of_singleton in Hsp as ->.
  - apply bind_Err in H as [H|(? & _ & H)]; [|done]. apply foldR_Err in H as (s & rec & Hrec & H).
    destruct (Hspecs rec Hrec) as [specs Hr]. unfold evaluateRecord, poll in H. rewrite Hctx in H.
    cbn [mbind result_bind] in H. apply bind_Err in H as [H|(? & H' & H)]; [by rewrite Hr in H|].
    rewrite Hr in H'. apply Ok_inj in H' as <-. apply bind_Err in H as [H|(? & _ & H)]; [|done].
    apply foldR_Err in H as (s' & sp & Hsp & H). unfold evaluateSpec in H. cbn zeta in H.
    apply reject_bind_Err in H as [[_ <-]|[_ H]]; [apply list_elem_of_here|].
    apply bind_Err in H as [H|(? & _ & H)]; [|done].
    destruct (specsForRecord_shape _ _ _ Hr Hsp) as (conf & _ & _ & Hne & Hid & Hemit & _).
    apply makeFinding_Err in H; [done| |done]. rewrite Hid.
    assert (fs_ruleID sp ∈ recordRules) as Hrule.
    { eapply elem_of_submseteq; [|by apply sublist_submseteq, (specsForRecord_rules _ _ Hr)].
      apply list_elem_of_fmap. eauto. }
    revert Hrule. generalize (fs_ruleID sp). apply Forall_forall, (bool_decide_unpack _). vm_compute. exact I.
Qed.

(** Duplicate identities are the only other way to fail, and need a collision. *)
Lemma checkFindings_Err limits l seen refs e :
  NoDup (fd_ID <$> l) → (∀ f, f ∈ l → fd_ID f ∉ seen) →
  foldR (checkFinding limits) (seen, refs) l = Err e → pe_Code e = "evidence-reference-limit"%string.
Proof.
  revert seen refs. induction l as [|f l IH]; intros seen refs Hnd Hseen H; [done|]. cbn in H.
  inversion_clear Hnd as [|? ? Hf Hl].
  assert (fd_ID f ∉ seen) as Hfs by apply Hseen, list_elem_of_here.
  rewrite (bool_decide_false _ Hfs) in H. cbn in H.
  destruct (_ <? _) in H; cbn in H; [by injection H as <-|].
  eapply IH; [done| |exact H]. intros g Hg. specialize (Hseen g (list_elem_of_further _ _ _ Hg)).
  assert (fd_ID g ≠ fd_ID f); [|set_solver]. intros E. apply Hf, list_elem_of_fmap. eauto.
Qed.

Lemma findings_ids limits sps fs :
  mapR (makeFinding limits) sps = Ok fs →
  fd_ID <$> fs = (λ b, "finding-" +:+ sha256_hex (to_bytes findingIDDomain ++ b)) <$> (specPreimage <$> sps).
Proof.
  intros H%mapR_Ok. induction H as [|sp f sps fs Hf _ IH]; [done|]. cbn. f_equal; [|done].
  apply makeFinding_Ok in Hf. rewrite (mk_identity _ _ _ Hf), (mk_rule _ _ _ Hf), (mk_version _ _ _ Hf),
    (mk_records _ _ _ Hf), (mk_scenarios _ _ _ Hf). done.
Qed.

Lemma validateRecords_ids limits recs seen s :
  foldR (validateRecordOnce limits) seen recs = Ok s →
  NoDup (dr_ID <$> recs) ∧ ∀ rec, rec ∈ recs →
    dr_ID rec ≠ ""%string ∧ (dr_ID rec ∉ seen) ∧ validateDeltaRecord limits rec = Ok ().
Proof.
  revert seen. induction recs as [|rec recs IH]; intros seen H; cbn in *.
  - split; [constructor|]. by intros ? ?%not_elem_of_nil.
  - destruct (validateRecordOnce limits seen rec) as [s1|] eqn:Hr; [|done].
    unfold validateRecordOnce in Hr. inv_ok. go_bool. subst s1. destruct (IH _ H) as [Hnd Hall].
    match goal with Hv : validateDeltaRecord _ _ = Ok ?u |- _ => destruct u end. split.
    + cbn. constructor; [|done]. intros (rec' & E & Hrec')%list_elem_of_fmap.
      destruct (Hall rec' Hrec') as (_ & Hseen & _). set_solver.
    + intros rec' [->|Hrec']%elem_of_cons; [done|]. destruct (Hall rec' Hrec') as (? & Hseen & ?). set_solver.
Qed.

Lemma validateDelta_records limits delta :
  validateDelta delta limits = Ok () →
  NoDup (dr_ID <$> bd_Records delta) ∧ ∀ rec, rec ∈ bd_Records delta →
    dr_ID rec ≠ ""%string ∧ validateDeltaRecord limits rec = Ok ().
Proof.
  unfold validateDelta. intros H. inv_ok.
  match goal with Hs : foldR _ _ _ = Ok _ |- _ => apply validateRecords_ids in Hs as [Hnd Hall] end.
  split; [done|]. intros rec Hrec. by destruct (Hall rec Hrec) as (? & _ & ?).
Qed.

Lemma sorted_ids limits delta fs sps :
  mapR (makeFinding limits) sps = Ok fs → NoDup (specPreimage <$> sps) →
  collision_free ((λ sp, to_bytes findingIDDomain ++ specPreimage sp) <$> sps) →
  NoDup (fd_ID <$> sortFindings fs delta).
Proof.
  intros Hf Hnd Hcf. unfold sortFindings. rewrite stable_sort_Permutation, (findings_ids _ _ _ Hf),
    <- list_fmap_compose. eapply NoDup_fmap_via; [|exact Hnd].
  intros x y Hx Hy E. cbn in E. apply (inj (String.append "finding-")) in E.
  apply Hcf in E; [by apply app_inv_head in E|apply list_elem_of_fmap; eauto..].
Qed.

Lemma validateRuleCatalog_Ok : validateRuleCatalog = Ok ().
Proof. vm_compute. reflexivity. Qed.

(** Evaluation is total on valid input: with valid limits, the strict
    profile, a delta whose digest matches and that passes validation, no
    cancellation and no unknown operation outside the configured roots, it
    returns an evaluation or reports one of three limits.  In particular the
    rejection of duplicate finding identities cannot happen unless SHA-256
    collides on the delta's finding identities. *)
Theorem evaluate_total limits ctx fz :
  let delta := fz_doc fz in
  uncancelled ctx → validateLimits limits = Ok limits →
  DigestBehavioralDeltaJSON (fz_json fz) = fz_digest fz →
  validateDelta delta limits = Ok () →
  (∀ rec, rec ∈ bd_Records delta → record_sized rec) →
  (∀ rec op, rec ∈ bd_Records delta → positive rec → isFilesystemFact rec = true → firstUnmapped rec = Some op →
     op ∈ mutatingOperations ++ readingOperations) →
  collision_free ((λ sp, to_bytes findingIDDomain ++ specPreimage sp) <$> allSpecs delta) →
  match Evaluate limits ctx PolicyProfileStrict (Some fz) with
  | Ok _ => True
  | Err e => pe_Code e ∈ evaluationLimitCodes
  end.
Proof.
  intros delta Hctx Hlim Hdig Hvalid Hsz Hops Hcf.
  destruct (Evaluate _ _ _ _) as [|e] eqn:H; [done|]. unfold Evaluate in H.
  rewrite Hlim in H. cbn [mbind result_bind] in H. rewrite validateRuleCatalog_Ok in H.
  unfold poll in H. rewrite Hctx in H. cbn [mbind result_bind validateProfile PolicyProfileStrict] in H.
  apply bind_Err in H as [H|(? & _ & H)]; [done|]. apply reject_bind_Err in H as [[Hd _]|[_ H]].
  { go_bool. done. }
  unfold evaluateDeltaDocument, poll in H. rewrite Hctx in H. cbn [mbind result_bind] in H.
  apply bind_Err in H as [H|(? & _ & H)]; [done|]. fold delta in H. rewrite Hvalid in H. cbn [mbind result_bind] in H.
  destruct (validateDelta_records _ _ Hvalid) as [Hnd Hrecs].
  assert (∀ rec, rec ∈ bd_Records delta → ∃ specs, specsForRecord rec = Ok specs) as Hspecs.
  { intros rec Hrec. destruct (specsForRecord rec) as [specs|e'] eqn:Hr; [by exists specs|].
    apply specsForRecord_Err in Hr as (_ & Hp & Hf & op & Hu & Hm & Hr).
    destruct (elem_of_app mutatingOperations readingOperations op) as [Hop _].
    by destruct (Hop (Hops _ _ Hrec Hp Hf Hu)). }
  apply bind_Err in H as [H|(fs & Hfs & H)].
  { apply evaluateRules_Err in H; [by apply findingCodes_limit|by intros n|done]. }
  destruct (evaluateRules_specs _ _ _ _ Hfs) as (specss & Hm & Hmk).
  rewrite (allSpecs_concat _ _ Hm) in Hcf.
  assert (NoDup (fd_ID <$> sortFindings fs delta)) as Hids.
  { eapply sorted_ids; [done| |done]. apply allSpecs_preimages; try done. intros rec Hrec. by apply Hrecs. }
  cbv zeta in H. apply reject_bind_Err in H as [[_ <-]|[_ H]]; [apply list_elem_of_here|].
  apply bind_Err in H as [H|(? & _ & H)].
  { apply checkFindings_Err in H as ->; [by apply list_elem_of_further, list_elem_of_here|done|set_solver]. }
  apply reject_bind_Err in H as [[_ <-]|[_ H]]; [|done].
  by do 2 apply list_elem_of_further; apply list_elem_of_here.
Qed.
