(* ===== verification/PolicyEx.v ===== *)
(** * A worked policy evaluation

    The delta of the worked comparison, evaluated by the strict policy: the new
    connection of the head is reported, and the unchanged run passes.  The
    theorems of the evaluation are instantiated here, and two identities of the
    repository's golden evaluation ([internal/policy/testdata]) are recomputed. *)

From stdpp Require Import prelude gmap strings sorting.
From Stdlib Require Import ZArith Lia.
From S2P Require Import Prelude GoStd Sha256 Framing Model Json Observe Compare CompareEx Policy PolicySpec.
Local Open Scope Z_scope.

Definition ex_delta : FrozenDelta := ex_diff_delta.

Definition ex_evaluate (fz : FrozenDelta) : result PolicyError FrozenEvaluation :=
  Evaluate DefaultLimits never PolicyProfileStrict (Some fz).

Definition zeroEvaluation : EvaluationDocument :=
  mkEvaluationDocument "" "" "" "" "" "" "" "" "" false false "" []
    (mkEvaluationSummary 0 0 0 0 0 0 0 0 0 0) [].
Definition evaluation (r : result PolicyError FrozenEvaluation) : FrozenEvaluation :=
  match r with Ok ev => ev | Err _ => mkFrozenEvaluation zeroEvaluation [] "" end.

(** The two evaluations, evaluated once. *)
Definition ex_evaluation : FrozenEvaluation := Eval vm_compute in evaluation (ex_evaluate ex_delta).
Definition ex_same_evaluation : FrozenEvaluation := Eval vm_compute in evaluation (ex_evaluate ex_equal_delta).

Lemma ex_delta_ok : ex_evaluate ex_delta = Ok ex_evaluation.
Proof. vm_compute. reflexivity. Qed.
Lemma ex_same_ok : ex_evaluate ex_equal_delta = Ok ex_same_evaluation.
Proof. vm_compute. reflexivity. Qed.

Definition ex_findings : list Finding := Eval vm_compute in ed_Findings (fe_doc ex_evaluation).
Definition zeroFinding : Finding :=
  mkFinding "" "" "" "" "" "" "" "" "" [] [] [] false false false [] [].
Definition firstFinding (l : list Finding) : Finding := match l with f :: _ => f | [] => zeroFinding end.
Definition ex_finding : Finding := Eval vm_compute in firstFinding ex_findings.

Lemma ex_finding_in : ex_finding ∈ ex_findings.
Proof.
  assert (∀ l, negb (ze_list l) = true → firstFinding l ∈ l) as Hl
    by (intros [|f l] ?; [done|apply list_elem_of_here]).
  apply (Hl ex_findings). vm_compute. reflexivity.
Qed.

Example ex_evaluations :
  (ed_OverallDisposition (fe_doc ex_evaluation),
   (λ f, (fd_RuleID f, fd_Severity f, fd_Confidence f)) <$> ex_findings,
   ed_OverallDisposition (fe_doc ex_same_evaluation))
  = (DispositionRequiresReview, [("GR-NET-001"%string, SeverityHigh, ConfidenceHigh)], DispositionPassed).
Proof. vm_compute. reflexivity. Qed.

(** Identities of [testdata/v1alpha1/policy-evaluation.json]. *)
Example golden_identities :
  (findingID PolicyProfileVersionStrictV1Alpha1 BuiltinRuleSetVersionStrictV1Alpha1 "GR-OBS-001"
     ruleVersionV1Alpha1 [] "global-synthetic" [],
   findingID PolicyProfileVersionStrictV1Alpha1 BuiltinRuleSetVersionStrictV1Alpha1 "GR-FS-001"
     ruleVersionV1Alpha1 ["delta-f88e96dbc40d7481d18c5d79857af23b723d87f88ca91b1a9dce00702d9929c7"%string]
     "record" ["build"%string])
  = ("finding-2191475b86b8ff9a9d4d7fb4c894d3debdebf62cb8ae8ba6895a6cae6388a934",
     "finding-0aaed9cd1c3bf9a563ba6a11af73ef0269ecd4d3be283cbe18ae6edc7c16109d")%string.
Proof. vm_compute. reflexivity. Qed.

(** ** The evaluation's properties at the example *)

Lemma ex_added_network : triggers ex_added "GR-NET-001" SeverityHigh.
Proof.
  apply trig_network.
  - apply headPositive_iff. vm_compute. reflexivity.
  - apply (bool_decide_unpack _). vm_compute. exact I.
Qed.

Lemma evaluate_disposition_witness :
  let overall := ed_OverallDisposition (fe_doc ex_evaluation) in
  overall ∈ [DispositionFailed; DispositionPassed; DispositionRequiresReview].
Proof.
  pose proof (evaluate_disposition DefaultLimits never PolicyProfileStrict ex_delta
    ex_evaluation) as H.
  specialize (H ex_delta_ok). exact (proj2 (proj2 H)).
Defined.

Lemma evaluate_complete_witness :
  ∃ f, f ∈ ex_findings ∧ fd_RuleID f = "GR-NET-001"%string ∧ fd_Severity f = SeverityHigh
    ∧ about_record ex_added f.
Proof.
  pose proof (evaluate_complete DefaultLimits never PolicyProfileStrict ex_delta
    ex_evaluation ex_added "GR-NET-001" SeverityHigh) as H.
  exact (H ex_delta_ok ex_added_in ex_added_network).
Defined.

Lemma evaluate_sound_witness :
  (about_run (fz_doc ex_delta) ex_finding ∨
     ∃ rec, rec ∈ bd_Records (fz_doc ex_delta) ∧ about_record rec ex_finding) ∧
  ∃ scope, scope ∈ ["record"; "global-incomplete"; "global-synthetic"]%string
    ∧ finding_identity ex_finding scope.
Proof.
  pose proof (evaluate_sound DefaultLimits never PolicyProfileStrict ex_delta
    ex_evaluation ex_finding) as H.
  exact (H ex_delta_ok ex_finding_in).
Defined.

Lemma confidence_capped_witness :
  about_run (fz_doc ex_delta) ex_finding ∨
  ∃ rec, rec ∈ bd_Records (fz_doc ex_delta) ∧ about_record rec ex_finding.
Proof.
  pose proof (confidence_capped DefaultLimits never PolicyProfileStrict ex_delta
    ex_evaluation ex_finding) as H.
  destruct (H ex_delta_ok ex_finding_in) as [Hr|(rec & Hrec & Hab & _)]; [left; exact Hr|right].
  exists rec. exact (conj Hrec Hab).
Defined.

Lemma evaluate_canonical_witness : NoDup (fd_ID <$> ex_findings).
Proof.
  pose proof (evaluate_canonical DefaultLimits never PolicyProfileStrict ex_delta
    ex_evaluation) as H.
  assert (0 <= l_MaxEvidenceRefsTotal DefaultLimits) as Hpos by (vm_compute; discriminate).
  exact (proj1 (H ex_delta_ok Hpos)).
Defined.

Lemma evaluate_summary_witness :
  es_Medium (ed_Summary (fe_doc ex_evaluation))
    + es_High (ed_Summary (fe_doc ex_evaluation))
  = es_TotalFindings (ed_Summary (fe_doc ex_evaluation)).
Proof.
  pose proof (evaluate_summary DefaultLimits never PolicyProfileStrict ex_delta
    ex_evaluation) as H.
  exact (proj1 (proj2 (H ex_delta_ok))).
Defined.

Lemma finding_identity_binds_witness :
  ["r1"; "r2"]%string ≡ₚ ["r2"; "r1"]%string ∧ ["build"]%string ≡ₚ ["build"]%string.
Proof.
  pose proof (finding_identity_binds "p" "s" "r" "v" ["r1"; "r2"] "record" ["build"]
    "p" "s" "r" "v" ["r2"; "r1"] "record" ["build"]) as H.
  assert (Forall is_str ["p"; "s"; "r"; "v"; "record"]%string) as H1 by (repeat constructor).
  assert (list_ok ["r1"; "r2"]%string) as H2 by (by apply ex_list_ok).
  assert (list_ok ["r2"; "r1"]%string) as H3 by (by apply ex_list_ok).
  assert (list_ok ["build"]%string) as H4 by (by apply ex_list_ok).
  specialize (H H1 H1 H2 H4 H3 H4 ltac:(vm_compute; reflexivity)).
  exact (proj2 (proj2 (proj2 (proj2 (proj2 H))))).
Defined.

Lemma ex_no_filesystem_unmapped :
  forallb (λ rec, match firstUnmapped rec with Some _ => false | None => true end)
    (bd_Records (fz_doc ex_delta)) = true.
Proof. vm_compute. reflexivity. Qed.

Lemma ex_sized :
  forallb (λ rec, (str_len (dr_ID rec) <? 2 ^ 63)
    && (forallb (λ s, str_len s <? 2 ^ 63) (dr_ScenarioIDs rec) && (Z.of_nat (length (dr_ScenarioIDs rec)) <? 2 ^ 63)))
    (bd_Records (fz_doc ex_delta)) = true.
Proof. vm_compute. reflexivity. Qed.

(** The example has one finding, so nothing can collide. *)
Lemma ex_specs_one : length (allSpecs (fz_doc ex_delta)) = 1%nat.
Proof. vm_compute. reflexivity. Qed.

Lemma ex_valid : validateDelta (fz_doc ex_delta) DefaultLimits = Ok ().
Proof. vm_compute. reflexivity. Qed.
Lemma ex_digest_ok : DigestBehavioralDeltaJSON (fz_json ex_delta) = fz_digest ex_delta.
Proof. vm_compute. reflexivity. Qed.
Lemma ex_limits_ok : validateLimits DefaultLimits = Ok DefaultLimits.
Proof. vm_compute. reflexivity. Qed.

Lemma evaluate_total_witness :
  match Evaluate DefaultLimits never PolicyProfileStrict (Some ex_delta) with
  | Ok _ => True
  | Err e => pe_Code e ∈ evaluationLimitCodes
  end.
Proof.
  pose proof (evaluate_total DefaultLimits never ex_delta) as H. cbv zeta in H.
  apply H; clear H.
  - intros n. reflexivity.
  - exact ex_limits_ok.
  - exact ex_digest_ok.
  - exact ex_valid.
  - intros rec Hrec. pose proof ex_sized as Hs. rewrite forallb_forall in Hs.
    apply list_elem_of_In, Hs, andb_true_iff in Hrec as [H1 H2]. split; [by apply Z.ltb_lt|by apply ex_list_ok].
  - intros rec op Hrec _ _ Hu. pose proof ex_no_filesystem_unmapped as Hs. rewrite forallb_forall in Hs.
    apply list_elem_of_In, Hs in Hrec. by rewrite Hu in Hrec.
  - pose proof ex_specs_one as Hone. destruct (allSpecs (fz_doc ex_delta)) as [|sp [|]]; try discriminate Hone.
    intros a b ->%list_elem_of_singleton ->%list_elem_of_singleton _. reflexivity.
Defined.
