(* ===== verification/GoText.v ===== *)
(** * Text handling of Go's standard library: runes, [strings], [time.Parse]

    A Go string is read as a sequence of runes ([for _, r := range s]); an
    invalid byte yields [utf8.RuneError].  [strings.TrimSpace] trims Unicode
    white space.  [time.Parse] is modelled for the fixed layout
    [2006-01-02T15:04:05Z] on texts of its length. *)

From stdpp Require Import prelude strings.
From Stdlib Require Import ZArith Lia Ascii.
From S2P Require Import Prelude GoStd GoTime Model Json.
Local Open Scope Z_scope.

(** ** Runes *)

(** The runes of [b] with the bytes each was read from; [fuel] is the number of
    bytes, since every step consumes at least one. *)
Fixpoint runes_loop (fuel : nat) (b : bytes) : list (option Z * bytes) :=
  match fuel, b with
  | S fuel, c :: rest =>
    match utf8_decode b with
    | None => (None, [c]) :: runes_loop fuel rest
    | Some (r, n) => (Some r, take n b) :: runes_loop fuel (drop n b)
    end
  | _, _ => []
  end.
Definition runes (b : bytes) : list (option Z * bytes) := runes_loop (length b) b.

Definition RuneError : Z := 65533.
Definition rune_values (s : string) : list Z := default RuneError ∘ fst <$> runes (to_bytes s).

(** [utf8.Valid], [utf8.ValidString] *)
Definition utf8_valid (b : bytes) : bool := forallb (λ '(r, _), match r with Some _ => true | None => false end) (runes b).

(** A string that went through its JSON text: every byte that is not part of a
    UTF-8 sequence became U+FFFD. *)
Definition json_text (s : string) : string :=
  of_bytes (runes (to_bytes s) ≫= λ '(r, b), match r with Some _ => b | None => [byte_of 239; byte_of 191; byte_of 189] end).

(** [unicode.IsSpace] *)
Definition is_space (r : Z) : bool :=
  bool_decide (r ∈ [9; 10; 11; 12; 13; 32; 133; 160; 5760; 8232; 8233; 8239; 8287; 12288])
  || ((8192 <=? r) && (r <=? 8202)).

Fixpoint drop_spaces (l : list (option Z * bytes)) : list (option Z * bytes) :=
  match l with
  | (r, _) :: l' => if is_space (default RuneError r) then drop_spaces l' else l
  | [] => []
  end.

(** [bytes.TrimSpace], [strings.TrimSpace] *)
Definition trim_space (b : bytes) : bytes :=
  reverse (drop_spaces (reverse (drop_spaces (runes b)))) ≫= snd.

(** [strings.Split(s, sep)] for a one-byte separator *)
Fixpoint split_on (c : ascii) (b : bytes) : list bytes :=
  match b with
  | [] => [[]]
  | x :: b => if bool_decide (x = c) then [] :: split_on c b
              else match split_on c b with l :: ls => (x :: l) :: ls | [] => [[x]] end
  end.

(** [strings.HasSuffix(s, "c")] for one byte *)
Definition has_last (c : ascii) (s : string) : bool := bool_decide (last (to_bytes s) = Some c).
(** [strings.Contains(s, "c")] for one byte *)
Definition has_byte (c : ascii) (b : bytes) : bool := existsb (λ x, bool_decide (x = c)) b.

(** [strings.Contains] *)
Fixpoint contains_bytes (needle b : bytes) : bool :=
  bool_decide (take (length needle) b = needle) ||
  match b with [] => false | _ :: b => contains_bytes needle b end.
Definition contains (needle s : string) : bool := contains_bytes (to_bytes needle) (to_bytes s).

(** [strings.Contains(strings.ToLower(s), needle)] for an ASCII needle *)
Definition lower_byte (c : ascii) : ascii :=
  if (65 <=? byte_val c) && (byte_val c <=? 90) then byte_of (byte_val c + 32) else c.
Definition mentions (needle msg : string) : bool :=
  contains_bytes (to_bytes needle) (lower_byte <$> to_bytes msg).

(** [strconv.ParseInt(s, 10, 64)]: [None] on a syntax or range error *)
Definition parse_int64 (s : string) : option Z :=
  let '(neg, digits) := match to_bytes s with
                        | "+"%char :: b => (false, b)
                        | "-"%char :: b => (true, b)
                        | b => (false, b)
                        end in
  if bool_decide (digits = []) then None
  else
    v ← foldl (λ acc c, a ← acc;
                 if (48 <=? byte_val c) && (byte_val c <=? 57) then Some (a * 10 + (byte_val c - 48)) else None)
          (Some 0) digits;
    let v := if neg then - v else v in
    if (- 2 ^ 63 <=? v) && (v <? 2 ^ 63) then Some v else None.

(** ** Calendar dates *)

(** Day number of a proleptic Gregorian date (inverse of [civil_of_days]). *)
Definition days_of_civil (y m d : Z) : Z :=
  let y := if m <=? 2 then y - 1 else y in
  let era := y / 400 in
  let yoe := y - era * 400 in
  let doy := (153 * (if m <=? 2 then m + 9 else m - 3) + 2) / 5 + d - 1 in
  let doe := yoe * 365 + yoe / 4 - yoe / 100 + doy in
  era * 146097 + doe - 719468.

Definition is_leap (y : Z) : bool :=
  bool_decide (y mod 4 = 0) && (negb (bool_decide (y mod 100 = 0)) || bool_decide (y mod 400 = 0)).
Definition days_in (m y : Z) : Z :=
  if bool_decide (m = 2) then (if is_leap y then 29 else 28)
  else if bool_decide (m ∈ [4; 6; 9; 11]) then 30 else 31.

Definition digit_value (c : ascii) : option Z :=
  let v := byte_val c in if (48 <=? v) && (v <=? 57) then Some (v - 48) else None.

(** Unsigned decimal number of the given bytes, all digits. *)
Definition decimal (b : bytes) : option Z :=
  foldl (λ acc c, a ← acc; d ← digit_value c; Some (a * 10 + d)) (Some 0) b.

(** [time.Parse("2006-01-02T15:04:05Z", s)] on a text of twenty bytes: every
    field has its two (or four) digits, since a one-digit hour leaves a text too
    short and a fraction makes it too long. *)
Definition parse_time20 (s : string) : option Z :=
  match to_bytes s with
  | [y1; y2; y3; y4; s1; m1; m2; s2; d1; d2; t; h1; h2; s3; n1; n2; s4; c1; c2; z] =>
    if negb (bool_decide ([s1; s2; t; s3; s4; z] = to_bytes "--T::Z")) then None
    else
      y ← decimal [y1; y2; y3; y4]; m ← decimal [m1; m2]; d ← decimal [d1; d2];
      h ← decimal [h1; h2]; n ← decimal [n1; n2]; c ← decimal [c1; c2];
      if ((1 <=? m) && (m <=? 12) && (1 <=? d) && (d <=? days_in m y)
          && (h <=? 23) && (n <=? 59) && (c <=? 59))
      then Some ((days_of_civil y m d * 86400 + h * 3600 + n * 60 + c) * nanos_per_second)
      else None
  | _ => None
  end.

(** *** Formatting and parsing are inverse *)

Lemma yoe_inverse yoe doy :
  0 <= yoe < 400 → 0 <= doy <= 365 → (doy = 365 → (yoe + 1) mod 4 = 0 ∧ ((yoe + 1) mod 100 <> 0 ∨ (yoe + 1) mod 400 = 0)) →
  let doe := 365 * yoe + yoe / 4 - yoe / 100 + doy in
  (doe - doe / 1460 + doe / 36524 - doe / 146096) / 365 = yoe ∧ 0 <= doe < 146097.
Proof.
  intros Hy Hd Hl doe.
  assert (yoe = 399 ∨ yoe < 399) as Hc by lia.
  subst doe. Z.to_euclidean_division_equations; lia.
Qed.

Lemma civil_of_days_of_civil y m d :
  1 <= m <= 12 → 1 <= d <= days_in m y → civil_of_days (days_of_civil y m d) = (y, m, d).
Proof.
  intros Hm Hd.
  set (y' := if m <=? 2 then y - 1 else y). set (mp := if m <=? 2 then m + 9 else m - 3).
  set (doy := (153 * mp + 2) / 5 + d - 1).
  assert (Hdoy : 0 <= doy <= 365 ∧ (doy = 365 → (y' mod 400 + 1) mod 4 = 0 ∧
                   ((y' mod 400 + 1) mod 100 <> 0 ∨ (y' mod 400 + 1) mod 400 = 0))
                 ∧ (5 * doy + 2) / 153 = mp ∧ doy - (153 * mp + 2) / 5 + 1 = d).
  { subst y' doy mp. unfold days_in, is_leap in Hd.
    assert (m = 1 ∨ m = 2 ∨ m = 3 ∨ m = 4 ∨ m = 5 ∨ m = 6 ∨ m = 7 ∨ m = 8 ∨ m = 9 ∨ m = 10 ∨ m = 11 ∨ m = 12)
      as Hc by lia.
    destruct_or! Hc; subst m; cbn in *;
    repeat match type of Hd with context [bool_decide ?P] =>
      let b := eval vm_compute in (bool_decide P) in
      match b with true => change (bool_decide P) with true in Hd | false => change (bool_decide P) with false in Hd end
    end; cbv iota in Hd;
    repeat (case_bool_decide; cbn in * ); repeat split; try (Z.to_euclidean_division_equations; lia). }
  destruct Hdoy as (Hr & Hleap & Hmp & Hday).
  destruct (yoe_inverse (y' mod 400) doy ltac:(apply Z.mod_pos_bound; lia) Hr Hleap) as [Hyoe Hdoe].
  set (doe := 365 * (y' mod 400) + y' mod 400 / 4 - y' mod 400 / 100 + doy) in *.
  assert (days_of_civil y m d = y' / 400 * 146097 + doe - 719468) as ->.
  { unfold days_of_civil. fold y' mp. fold doy. subst doe.
    replace (y' - y' / 400 * 400) with (y' mod 400) by (rewrite Z.mod_eq; lia). lia. }
  unfold civil_of_days.
  replace (y' / 400 * 146097 + doe - 719468 + 719468) with (y' / 400 * 146097 + doe) by lia.
  rewrite Z.div_add_l, (Z.div_small doe) by lia. rewrite Z.add_0_r.
  replace (y' / 400 * 146097 + doe - y' / 400 * 146097) with doe by lia. rewrite Hyoe.
  replace (doe - (365 * (y' mod 400) + y' mod 400 / 4 - y' mod 400 / 100)) with doy by (subst doe; lia).
  rewrite Hmp, Hday. subst mp y'.
  rewrite (Z.mod_eq _ 400) by lia. destruct (m <=? 2) eqn:Em; go_bool.
  - rewrite (proj2 (Z.ltb_ge (m + 9) 10)) by lia. rewrite (proj2 (Z.leb_le _ 2)) by lia. rewrite !pair_equal_spec; lia.
  - rewrite (proj2 (Z.ltb_lt (m - 3) 10)) by lia. rewrite (proj2 (Z.leb_gt _ 2)) by lia. rewrite !pair_equal_spec; lia.
Qed.

Lemma digits_decimal b v :
  decimal b = Some v → digits (length b) v = of_bytes b ∧ 0 <= v < 10 ^ Z.of_nat (length b).
Proof.
  revert v. induction b as [|c b IH] using rev_ind; intros v; unfold decimal; cbn.
  { intros [= <-]. done. }
  rewrite foldl_app. cbn. change (foldl _ (Some 0) b) with (decimal b).
  destruct (decimal b) as [a|] eqn:Ha; [|done]. cbn. unfold digit_value.
  destruct (_ && _) eqn:Hc; [|done]. go_bool. intros [= <-]. destruct (IH a eq_refl) as [Hd Hr].
  rewrite length_app, Nat.add_comm. cbn.
  replace ((a * 10 + (byte_val c - 48)) / 10) with a by (Z.to_euclidean_division_equations; lia).
  replace ((a * 10 + (byte_val c - 48)) mod 10) with (byte_val c - 48) by (Z.to_euclidean_division_equations; lia).
  split; [|rewrite Nat2Z.inj_succ, Z.pow_succ_r by lia; lia].
  rewrite Hd. replace (48 + (byte_val c - 48)) with (byte_val c) by lia. rewrite byte_of_val.
  apply (inj to_bytes). by rewrite to_bytes_app, !to_bytes_of_bytes.
Qed.

Lemma clock_fields day h n c :
  0 <= h <= 23 → 0 <= n <= 59 → 0 <= c <= 59 →
  let s := day * 86400 + h * 3600 + n * 60 + c in
  s / 86400 = day ∧ s mod 86400 / 3600 = h ∧ s mod 86400 / 60 mod 60 = n ∧ s mod 86400 mod 60 = c.
Proof.
  intros Hh Hn Hc s.
  assert (s / 86400 = day) as Hs by (subst s; Z.to_euclidean_division_equations; lia).
  split; [done|]. rewrite Z.mod_eq, Hs by lia. subst s.
  repeat split; Z.to_euclidean_division_equations; lia.
Qed.

(** Parsing is inverse to formatting: a text that parses is the text of its instant. *)
Lemma format_parse_time20 s t : parse_time20 s = Some t → format_rfc3339 t = s ∧ t mod nanos_per_second = 0.
Proof.
  unfold parse_time20.
  destruct (to_bytes s) as [|y1 [|y2 [|y3 [|y4 [|s1 [|m1 [|m2 [|s2 [|d1 [|d2 [|t' [|h1 [|h2 [|s3 [|n1 [|n2 [|s4
    [|c1 [|c2 [|z [|? ?]]]]]]]]]]]]]]]]]]]]] eqn:Es; try done.
  destruct (negb _) eqn:Esep; [done|]. go_bool. injection Esep as -> -> -> -> -> ->.
  destruct (decimal [y1; y2; y3; y4]) as [y|] eqn:Ey; [cbn [mbind option_bind]|done].
  destruct (decimal [m1; m2]) as [m|] eqn:Em; [cbn [mbind option_bind]|done].
  destruct (decimal [d1; d2]) as [d|] eqn:Ed; [cbn [mbind option_bind]|done].
  destruct (decimal [h1; h2]) as [h|] eqn:Eh; [cbn [mbind option_bind]|done].
  destruct (decimal [n1; n2]) as [n|] eqn:En; [cbn [mbind option_bind]|done].
  destruct (decimal [c1; c2]) as [c|] eqn:Ec; [cbn [mbind option_bind]|done].
  destruct (_ && _) eqn:Hr; [|done]. go_bool. intros [= <-].
  split; [|apply Z.mod_mul; done].
  apply digits_decimal in Ey as [Ey ?], Em as [Em ?], Ed as [Ed ?], Eh as [Eh ?], En as [En ?], Ec as [Ec ?].
  unfold format_rfc3339, format_seconds. rewrite Z.div_mul by done.
  destruct (clock_fields (days_of_civil y m d) h n c ltac:(lia) ltac:(lia) ltac:(lia)) as (-> & -> & -> & ->).
  rewrite civil_of_days_of_civil by lia. cbn [length] in *. rewrite Ey, Em, Ed, Eh, En, Ec.
  apply (inj to_bytes). by rewrite Es.
Qed.

Example parse_leap_day : parse_time20 "2024-02-29T12:34:56Z" = Some (1709210096 * nanos_per_second).
Proof. vm_compute. reflexivity. Qed.
Example parse_no_such_day : parse_time20 "2023-02-29T12:34:56Z" = None.
Proof. vm_compute. reflexivity. Qed.
Example trim_example : trim_space (to_bytes "  a b ") = to_bytes "a b".
Proof. vm_compute. reflexivity. Qed.
Example valid_example : utf8_valid [byte_of 195; byte_of 169] = true ∧ utf8_valid [byte_of 195] = false.
Proof. split; vm_compute; reflexivity. Qed.
