(* ===== verification/Utf8.v ===== *)
(** * UTF-8 sequences

    The runes that a Go string is read as: what a rune was read from does not depend
    on what follows it, the bytes of the runes are the string, and a string that went
    through its JSON text is valid and goes through it unchanged. *)

From stdpp Require Import prelude strings.
From Stdlib Require Import ZArith Lia Ascii.
From S2P Require Import Prelude GoStd GoTime Model Json GoText.
Local Open Scope Z_scope.

(** ** One rune *)

Lemma utf8_decode_size b r n : utf8_decode b = Some (r, n) → (0 < n <= length b)%nat.
Proof.
  destruct b as [|c [|c1 [|c2 [|c3 b]]]]; cbn; repeat case_match; intros [= <- <-]; cbn; lia.
Qed.
Lemma utf8_decode_app b r n rest : utf8_decode b = Some (r, n) → utf8_decode (take n b ++ rest) = Some (r, n).
Proof.
  destruct b as [|c [|c1 [|c2 [|c3 b]]]]; cbn -[in_range cont Z.land]; [done|..];
    repeat (case_match; try discriminate); intros [= <- <-]; cbn -[in_range cont Z.land];
    repeat match goal with H : _ = true |- _ => rewrite H | H : _ = false |- _ => rewrite H end; done.
Qed.

(** ** All of them *)

#[local] Arguments runes : simpl never.

Lemma runes_loop_fuel b : ∀ fuel fuel', (length b <= fuel)%nat → (length b <= fuel')%nat → runes_loop fuel b = runes_loop fuel' b.
Proof.
  induction b as [b IH] using (induction_ltof1 _ length). unfold ltof in IH. intros [|fuel] [|fuel'] H H'.
  1-3: destruct b; [done|cbn in *; lia].
  destruct b as [|c b]; [done|]. cbn -[utf8_decode] in *. destruct (utf8_decode (c :: b)) as [[r n]|] eqn:E.
  - apply utf8_decode_size in E. cbn in E. f_equal. apply IH; rewrite length_drop; cbn; lia.
  - f_equal. apply IH; cbn; lia.
Qed.
Lemma runes_nil : runes [] = [].
Proof. done. Qed.
Lemma runes_Some b r n : utf8_decode b = Some (r, n) → runes b = (Some r, take n b) :: runes (drop n b).
Proof.
  intros H. pose proof (utf8_decode_size b r n H) as Hn. destruct b as [|c b]; [done|]. unfold runes. cbn [length runes_loop].
  rewrite H. f_equal. apply runes_loop_fuel; rewrite length_drop; cbn in *; lia.
Qed.
Lemma runes_None c b : utf8_decode (c :: b) = None → runes (c :: b) = (None, [c]) :: runes b.
Proof. intros H. unfold runes. cbn [length runes_loop]. by rewrite H. Qed.

Lemma runes_ind (P : bytes → Prop) :
  P [] → (∀ b r n, utf8_decode b = Some (r, n) → P (drop n b) → P b) → (∀ c b, utf8_decode (c :: b) = None → P b → P (c :: b)) → ∀ b, P b.
Proof.
  intros H0 HS HN b. induction b as [b IH] using (induction_ltof1 _ length). unfold ltof in IH. destruct b as [|c b]; [done|].
  destruct (utf8_decode (c :: b)) as [[r n]|] eqn:E.
  - eapply HS; [exact E|]. apply IH. apply utf8_decode_size in E. rewrite length_drop. cbn in *. lia.
  - apply HN; [done|]. apply IH. cbn. lia.
Qed.

(** Nothing is lost. *)
Lemma runes_concat b : concat (snd <$> runes b) = b.
Proof.
  induction b as [|b r n E IH|c b E IH] using runes_ind; [done|..].
  - rewrite (runes_Some _ _ _ E). cbn. rewrite IH. apply take_drop.
  - rewrite runes_None by done. cbn. by rewrite IH.
Qed.

(** What a rune is read from: itself a rune of that size, or a byte that starts none. *)
Definition token (x : option Z * bytes) : Prop :=
  match x.1 with Some r => utf8_decode x.2 = Some (r, length x.2) | None => length x.2 = 1%nat end.
Lemma runes_tokens b : Forall token (runes b).
Proof.
  induction b as [|b r n E IH|c b E IH] using runes_ind; [by constructor|..].
  - rewrite (runes_Some _ _ _ E). constructor; [|done]. unfold token. cbn. pose proof (utf8_decode_size _ _ _ E).
    rewrite length_take, Nat.min_l by lia. rewrite <- (app_nil_r (take n b)). by apply utf8_decode_app.
  - rewrite runes_None by done. by constructor.
Qed.
(** Runes that are put together are read again. *)
Lemma runes_of_tokens l : Forall (λ x, token x ∧ is_Some x.1) l → runes (concat (snd <$> l)) = l.
Proof.
  induction l as [|[[r|] b] l IH]; intros H; [done|..]; inversion_clear H as [|? ? [Ht [? Hr]] Hl]; [|done]. cbn in *.
  unfold token in Ht. cbn in Ht. pose proof (utf8_decode_app _ _ _ (concat (snd <$> l)) Ht) as E. rewrite take_ge in E by done.
  rewrite (runes_Some _ _ _ E), take_app_length, drop_app_length. by rewrite IH.
Qed.

(** ** JSON text *)

Definition valid_rune (x : option Z * bytes) : option Z * bytes :=
  match x.1 with Some _ => x | None => (Some RuneError, [byte_of 239; byte_of 191; byte_of 189]) end.
Lemma json_text_runes s : runes (to_bytes (json_text s)) = valid_rune <$> runes (to_bytes s).
Proof.
  assert (to_bytes (json_text s) = concat (snd <$> (valid_rune <$> runes (to_bytes s)))) as ->.
  { unfold json_text. rewrite to_bytes_of_bytes. induction (runes (to_bytes s)) as [|[[r|] b] l IH]; cbn; [done|..]; by rewrite IH. }
  apply runes_of_tokens. rewrite Forall_fmap. eapply Forall_impl; [apply runes_tokens|]. intros [[r|] b] H; cbn; [by eauto|].
  split; [by vm_compute|by eexists].
Qed.
Lemma json_text_idem s : json_text (json_text s) = json_text s.
Proof.
  unfold json_text at 1. rewrite json_text_runes. unfold json_text. f_equal.
  induction (runes (to_bytes s)) as [|[[r|] b] l IH]; cbn; [done|..]; by rewrite IH.
Qed.
Lemma json_text_valid s : utf8_valid (to_bytes (json_text s)) = true.
Proof.
  unfold utf8_valid. rewrite json_text_runes. apply forallb_forall. intros x Hx%list_elem_of_In.
  apply list_elem_of_fmap in Hx as ([[r|] b] & -> & _); done.
Qed.
(** A valid string is unchanged. *)
Lemma json_text_id s : utf8_valid (to_bytes s) = true → json_text s = s.
Proof.
  intros H. unfold json_text. apply (inj to_bytes). rewrite to_bytes_of_bytes. rewrite <- (runes_concat (to_bytes s)) at 2.
  unfold utf8_valid in H. induction (runes (to_bytes s)) as [|[[r|] b] l IH]; cbn in *; [done|by rewrite IH|done].
Qed.

(** ** The values *)

Lemma land_low v k lo : 0 <= k → lo mod 2 ^ k = 0 → lo <= v < lo + 2 ^ k → Z.land v (Z.ones k) = v - lo.
Proof.
  intros Hk Hlo Hv. rewrite Z.land_ones by done. pose proof (Z.pow_pos_nonneg 2 k ltac:(lia) Hk).
  apply Z.mod_divide in Hlo as [q ->]; [|lia]. replace v with (v - q * 2 ^ k + q * 2 ^ k) at 1 by lia.
  rewrite Z.mod_add by lia. apply Z.mod_small. lia.
Qed.
Lemma cont_value c : cont c = true → Z.land (byte_val c) 63 = byte_val c - 128.
Proof. unfold cont. intros H. go_bool. apply (land_low _ 6 128); [done|done|]. change (2 ^ 6) with 64. lia. Qed.
Lemma land_63 v : 128 <= v <= 191 → Z.land v 63 = v - 128.
Proof. intros H. apply (land_low _ 6 128); [done|done|]. change (2 ^ 6) with 64. lia. Qed.
Lemma land_31 v : 192 <= v <= 223 → Z.land v 31 = v - 192.
Proof. intros H. apply (land_low _ 5 192); [done|done|]. change (2 ^ 5) with 32. lia. Qed.
Lemma land_15 v : 224 <= v <= 239 → Z.land v 15 = v - 224.
Proof. intros H. apply (land_low _ 4 224); [done|done|]. change (2 ^ 4) with 16. lia. Qed.
Lemma land_7 v : 240 <= v <= 247 → Z.land v 7 = v - 240.
Proof. intros H. apply (land_low _ 3 240); [done|done|]. change (2 ^ 3) with 8. lia. Qed.

(** What the bytes of a rune say. *)
Lemma utf8_decode_values b r n :
  utf8_decode b = Some (r, n) →
  (∃ c, take n b = [c] ∧ n = 1%nat ∧ r = byte_val c ∧ r < 128) ∨
  (∃ c c1, take n b = [c; c1] ∧ n = 2%nat ∧ 194 <= byte_val c <= 223 ∧ 128 <= byte_val c1 <= 191
     ∧ r = (byte_val c - 192) * 64 + (byte_val c1 - 128)) ∨
  (∃ c c1 c2, take n b = [c; c1; c2] ∧ n = 3%nat ∧ 224 <= byte_val c <= 239 ∧ 128 <= byte_val c1 <= 191 ∧ 128 <= byte_val c2 <= 191
     ∧ (byte_val c = 224 → 160 <= byte_val c1) ∧ r = (byte_val c - 224) * 4096 + (byte_val c1 - 128) * 64 + (byte_val c2 - 128)) ∨
  (∃ c c1 c2 c3, take n b = [c; c1; c2; c3] ∧ n = 4%nat ∧ 240 <= byte_val c <= 244 ∧ 128 <= byte_val c1 <= 191 ∧ 128 <= byte_val c2 <= 191
     ∧ 128 <= byte_val c3 <= 191 ∧ (byte_val c = 240 → 144 <= byte_val c1) ∧ (byte_val c = 244 → byte_val c1 <= 143)
     ∧ r = (byte_val c - 240) * 262144 + (byte_val c1 - 128) * 4096 + (byte_val c2 - 128) * 64 + (byte_val c3 - 128)).
Proof.
  destruct b as [|c b]; [done|]. cbn [utf8_decode]. pose proof (byte_val_range c) as Hc.
  destruct (byte_val c <? 128) eqn:E1; [intros [= <- <-]; left; exists c; go_bool; by cbn|].
  destruct (in_range 194 223 c) eqn:E2.
  { destruct b as [|c1 b]; [done|]. destruct (cont c1) eqn:K1; [|done]. intros [= <- <-]. right; left. exists c, c1.
    rewrite cont_value by done. unfold in_range, cont in *. go_bool. rewrite (land_31 (byte_val c)) by lia. split_and!; try done; lia. }
  destruct (in_range 224 239 c) eqn:E3.
  { destruct b as [|c1 [|c2 b]]; [done..|].
    destruct (in_range _ _ c1 && cont c2) eqn:K; [|done]. intros [= <- <-]. right; right; left. exists c, c1, c2.
    apply andb_true_iff in K as [K1 K2]. rewrite (cont_value c2) by done. unfold in_range, cont in *. go_bool.
    rewrite (land_15 (byte_val c)) by lia.
    assert (128 <= byte_val c1 <= 191) by (repeat case_bool_decide; lia). rewrite (land_63 (byte_val c1)) by lia.
    split_and!; try done; try lia. intros Hv. rewrite bool_decide_true in * by done. lia. }
  destruct (in_range 240 244 c) eqn:E4; [|done].
  destruct b as [|c1 [|c2 [|c3 b]]]; [done..|].
  destruct (in_range _ _ c1 && cont c2 && cont c3) eqn:K; [|done]. intros [= <- <-]. right; right; right. exists c, c1, c2, c3.
  apply andb_true_iff in K as [[K1 K2]%andb_true_iff K3]. rewrite (cont_value c2), (cont_value c3) by done. unfold in_range, cont in *. go_bool.
  rewrite (land_7 (byte_val c)) by lia.
  assert (128 <= byte_val c1 <= 191) by (repeat case_bool_decide; lia). rewrite (land_63 (byte_val c1)) by lia.
  split_and!; try done; try lia; intros Hv; [rewrite (bool_decide_true (byte_val c = 240)) in * by done|rewrite (bool_decide_true (byte_val c = 244)) in * by done]; lia.
Qed.

(** A rune has one encoding. *)
Lemma bytes_by_value (l l' : bytes) : byte_val <$> l = byte_val <$> l' → l = l'.
Proof. apply (inj (fmap byte_val)). Qed.
Lemma token_inj r b b' : token (Some r, b) → token (Some r, b') → b = b'.
Proof.
  unfold token. cbn. intros H H'. apply utf8_decode_values in H, H'. rewrite !take_ge in H, H' by done.
  destruct H as [(?&->&_&?)|[(?&?&->&_&?)|[(?&?&?&->&_&?)|(?&?&?&?&->&_&?)]]],
    H' as [(?&->&_&?)|[(?&?&->&_&?)|[(?&?&?&->&_&?)|(?&?&?&?&->&_&?)]]]; try lia;
    apply bytes_by_value; cbn; repeat (apply f_equal2; [lia|]); done.
Qed.
Lemma token_ascii r b : token (Some r, b) → r < 128 → b = [byte_of r] ∧ 0 <= r.
Proof.
  unfold token. cbn. intros H Hr. apply utf8_decode_values in H. rewrite !take_ge in H by done.
  destruct H as [(c&->&_&->&_)|[(?&?&->&_&?)|[(?&?&?&->&_&?)|(?&?&?&?&->&_&?)]]]; try lia.
  rewrite byte_of_val. split; [done|apply byte_val_range].
Qed.
(** Bytes below 128 stand for themselves only. *)
Lemma token_high r b c : token (Some r, b) → 128 <= r → c ∈ b → 128 <= byte_val c.
Proof.
  unfold token. cbn. intros H Hr. apply utf8_decode_values in H. rewrite !take_ge in H by done.
  destruct H as [(?&->&_&?)|[(?&?&->&_&?)|[(?&?&?&->&_&?)|(?&?&?&?&->&_&?)]]]; [lia|..];
    rewrite ?elem_of_cons; set_unfold; intros Hc; destruct_or! Hc; subst; try done; lia.
Qed.
Lemma token_bad_byte (b : bytes) : token (None, b) → ∃ c, b = [c].
Proof. unfold token. cbn. destruct b as [|c [|]]; [done| |done]. by exists c. Qed.
Lemma runes_bad_byte s c : (None, [c]) ∈ runes s → 128 <= byte_val c.
Proof.
  induction s as [|b r n E IH|d b E IH] using runes_ind; [by intros ?%not_elem_of_nil|..].
  - rewrite (runes_Some _ _ _ E). by intros [?|?]%elem_of_cons; [done|apply IH].
  - rewrite runes_None by done. intros [[= ->]|?]%elem_of_cons; [|by apply IH].
    cbn [utf8_decode] in E. destruct (byte_val d <? 128) eqn:Ed; [done|]. by apply Z.ltb_ge in Ed.
Qed.
Lemma ascii_token c : byte_val c < 128 → token (Some (byte_val c), [c]).
Proof. intros H. unfold token. cbn [fst snd length utf8_decode]. by rewrite (proj2 (Z.ltb_lt _ _) H). Qed.
