(* ===== verification/JsonCopy.v ===== *)
(** * Copies through JSON

    Several stages hand out a document as a copy that went through its JSON text
    ([json.Marshal] and [json.Unmarshal]).  Such a copy has the same shape; in every
    string the bytes that are not part of a UTF-8 sequence became U+FFFD.  To copy
    a copy changes nothing. *)

From stdpp Require Import prelude strings.
From Stdlib Require Import ZArith.
From S2P Require Import Prelude GoStd GoTime Model Json GoText Utf8.
Local Open Scope Z_scope.

Class JsonCopy (A : Type) := json_copy : A → A.
#[global] Hint Mode JsonCopy ! : typeclass_instances.
(** A second copy is the first. *)
Class CopyOnce (A : Type) `{JsonCopy A} := json_copy_idem : ∀ x : A, json_copy (json_copy x) = json_copy x.

#[global] Instance copy_string : JsonCopy string := json_text.
#[global] Instance copied_string : CopyOnce string := json_text_idem.
#[global] Instance copy_Z : JsonCopy Z := λ x, x.
#[global] Instance copied_Z : CopyOnce Z := λ x, eq_refl.
#[global] Instance copy_list `{JsonCopy A} : JsonCopy (list A) := fmap json_copy.
#[global] Instance copied_list `{CopyOnce A} : CopyOnce (list A).
Proof. intros l. unfold json_copy, copy_list. rewrite <- list_fmap_compose. apply list_fmap_ext. intros i x _. apply json_copy_idem. Qed.
#[global] Instance copy_option `{JsonCopy A} : JsonCopy (option A) := fmap json_copy.
#[global] Instance copied_option `{CopyOnce A} : CopyOnce (option A).
Proof. intros [x|]; [|done]. unfold json_copy, copy_option. cbn. f_equal. apply json_copy_idem. Qed.

(** A record is copied field by field. *)
#[global] Arguments json_copy : simpl never.
Ltac copies I := intros []; unfold json_copy at 1 2 3, I; cbn; f_equal; apply json_copy_idem.

#[global] Instance copy_Limitation : JsonCopy Limitation := λ x,
  mkLimitation (json_copy (lim_ID x)) (json_copy (lim_Summary x)) (json_copy (lim_Details x)).
#[global] Instance copied_Limitation : CopyOnce Limitation.
Proof. copies copy_Limitation. Qed.
#[global] Instance copy_EnvEntry : JsonCopy EnvEntry := λ x,
  mkEnvEntry (json_copy (env_Name x)) (json_copy (env_Value x)).
#[global] Instance copied_EnvEntry : CopyOnce EnvEntry.
Proof. copies copy_EnvEntry. Qed.
#[global] Instance copy_CommitRef : JsonCopy CommitRef := λ x,
  mkCommitRef (json_copy (cr_Kind x)) (json_copy (cr_Repository x)) (json_copy (cr_Ref x)) (json_copy (cr_CommitID x))
    (json_copy (cr_ObjectFormat x)) (json_copy (cr_TreeID x)) (json_copy (cr_TreeDigest x)).
#[global] Instance copied_CommitRef : CopyOnce CommitRef.
Proof. copies copy_CommitRef. Qed.
#[global] Instance copy_EvidenceRef : JsonCopy EvidenceRef := λ x,
  mkEvidenceRef (json_copy (er_Digest x)) (json_copy (er_EventIDs x)) (json_copy (er_BundlePath x)) (json_copy (er_EventStreamDigest x))
    (json_copy (er_EventStreamPath x)) (er_EventSequence x) (json_copy (er_Revision x)) (json_copy (er_ScenarioID x)) (er_Repetition x).
#[global] Instance copied_EvidenceRef : CopyOnce EvidenceRef.
Proof. copies copy_EvidenceRef. Qed.
#[global] Instance copy_ComparisonProfile : JsonCopy ComparisonProfile := λ x,
  mkComparisonProfile (json_copy (cp_Version x)) (json_copy (cp_RequiredNormalizationProfile x))
    (json_copy (cp_ExactSemanticMatchAlgorithm x)) (json_copy (cp_TypedAnchorAlgorithm x))
    (json_copy (cp_RepetitionAssessmentAlgorithm x)) (json_copy (cp_OrderAssessmentAlgorithm x)) (json_copy (cp_AbsencePolicy x))
    (json_copy (cp_IncludedFactKinds x)).
#[global] Instance copied_ComparisonProfile : CopyOnce ComparisonProfile.
Proof. copies copy_ComparisonProfile. Qed.
#[global] Instance copy_RepetitionOccurrence : JsonCopy RepetitionOccurrence := λ x,
  mkRepetitionOccurrence (ro_Repetition x) (json_copy (ro_Coverage x)) (ro_CountKnown x) (ro_Count x).
#[global] Instance copied_RepetitionOccurrence : CopyOnce RepetitionOccurrence.
Proof. copies copy_RepetitionOccurrence. Qed.
#[global] Instance copy_OccurrenceProfile : JsonCopy OccurrenceProfile := λ x,
  mkOccurrenceProfile (op_PlannedRepetitionCount x) (json_copy (op_Repetitions x)) (op_CompleteRepetitionCount x)
    (op_IncompleteRepetitionCount x) (op_MinimumKnownCount x) (op_MaximumKnownCount x) (op_TotalKnownCount x)
    (json_copy (op_Coverage x)) (json_copy (op_Repeatability x)).
#[global] Instance copied_OccurrenceProfile : CopyOnce OccurrenceProfile.
Proof. copies copy_OccurrenceProfile. Qed.
#[global] Instance copy_AttemptCoverage : JsonCopy AttemptCoverage := λ x,
  mkAttemptCoverage (json_copy (ac_AttemptID x)) (json_copy (ac_Revision x)) (ac_Repetition x) (json_copy (ac_Coverage x)).
#[global] Instance copied_AttemptCoverage : CopyOnce AttemptCoverage.
Proof. copies copy_AttemptCoverage. Qed.
#[global] Instance copy_ScenarioComparison : JsonCopy ScenarioComparison := λ x,
  mkScenarioComparison (json_copy (sc_ScenarioID x)) (json_copy (sc_BaseRepetitions x)) (json_copy (sc_HeadRepetitions x))
    (json_copy (sc_Coverage x)) (json_copy (sc_RepeatabilityNotes x)) (json_copy (sc_Limitations x)).
#[global] Instance copied_ScenarioComparison : CopyOnce ScenarioComparison.
Proof. copies copy_ScenarioComparison. Qed.
#[global] Instance copy_DeltaNormalizedPath : JsonCopy DeltaNormalizedPath := λ x,
  mkDeltaNormalizedPath (json_copy (dnp_Namespace x)) (dnp_RootIndex x) (json_copy (dnp_Relative x)) (json_copy (dnp_Literal x))
    (json_copy (dnp_Display x)).
#[global] Instance copied_DeltaNormalizedPath : CopyOnce DeltaNormalizedPath.
Proof. copies copy_DeltaNormalizedPath. Qed.
#[global] Instance copy_DeltaProcessFact : JsonCopy DeltaProcessFact := λ x,
  mkDeltaProcessFact (json_copy (dpf_Operation x)) (json_copy (dpf_StableID x)) (json_copy (dpf_ParentStableID x))
    (json_copy (dpf_ParentRelation x)) (json_copy (dpf_Executable x)) (json_copy (dpf_Arguments x)) (json_copy (dpf_Environment x))
    (json_copy (dpf_ExitCode x)) (dpf_DurationMillis x).
#[global] Instance copied_DeltaProcessFact : CopyOnce DeltaProcessFact.
Proof. copies copy_DeltaProcessFact. Qed.
#[global] Instance copy_DeltaFilesystemFact : JsonCopy DeltaFilesystemFact := λ x,
  mkDeltaFilesystemFact (json_copy (dff_Operation x)) (json_copy (dff_Path x)) (json_copy (dff_OldPath x)) (json_copy (dff_Mode x))
    (json_copy (dff_Digest x)) (dff_SizeBytes x) (dff_Executable x) (dff_Truncated x).
#[global] Instance copied_DeltaFilesystemFact : CopyOnce DeltaFilesystemFact.
Proof. copies copy_DeltaFilesystemFact. Qed.
#[global] Instance copy_DeltaNetworkFact : JsonCopy DeltaNetworkFact := λ x,
  mkDeltaNetworkFact (json_copy (dnf_Operation x)) (json_copy (dnf_Protocol x)) (json_copy (dnf_QueryName x))
    (json_copy (dnf_DestinationHost x)) (dnf_DestinationPort x) (json_copy (dnf_ResolvedAddresses x)) (json_copy (dnf_Result x))
    (dnf_DurationMillis x).
#[global] Instance copied_DeltaNetworkFact : CopyOnce DeltaNetworkFact.
Proof. copies copy_DeltaNetworkFact. Qed.
#[global] Instance copy_DeltaArtifactFact : JsonCopy DeltaArtifactFact := λ x,
  mkDeltaArtifactFact (json_copy (daf_Operation x)) (json_copy (daf_ArtifactID x)) (json_copy (daf_Path x)) (json_copy (daf_Digest x))
    (daf_SizeBytes x) (daf_Executable x) (json_copy (daf_SourceEventIDs x)).
#[global] Instance copied_DeltaArtifactFact : CopyOnce DeltaArtifactFact.
Proof. copies copy_DeltaArtifactFact. Qed.
#[global] Instance copy_DeltaScenarioFact : JsonCopy DeltaScenarioFact := λ x,
  mkDeltaScenarioFact (json_copy (dsf_Status x)) (json_copy (dsf_Message x)) (dsf_DurationMillis x).
#[global] Instance copied_DeltaScenarioFact : CopyOnce DeltaScenarioFact.
Proof. copies copy_DeltaScenarioFact. Qed.
#[global] Instance copy_DeltaWarningFact : JsonCopy DeltaWarningFact := λ x,
  mkDeltaWarningFact (json_copy (dwf_Code x)) (json_copy (dwf_Message x)) (dwf_Unsupported x) (json_copy (dwf_Limitations x)).
#[global] Instance copied_DeltaWarningFact : CopyOnce DeltaWarningFact.
Proof. copies copy_DeltaWarningFact. Qed.
#[global] Instance copy_DeltaResourceFact : JsonCopy DeltaResourceFact := λ x,
  mkDeltaResourceFact (json_copy (drf_LimitKind x)) (drf_LimitValue x) (json_copy (drf_Unit x)) (drf_ObservedValue x) (drf_Exceeded x).
#[global] Instance copied_DeltaResourceFact : CopyOnce DeltaResourceFact.
Proof. copies copy_DeltaResourceFact. Qed.
#[global] Instance copy_DeltaFactSnapshot : JsonCopy DeltaFactSnapshot := λ x,
  mkDeltaFactSnapshot (json_copy (dfs_ID x)) (json_copy (dfs_SemanticDigest x)) (json_copy (dfs_Kind x)) (json_copy (dfs_Source x))
    (json_copy (dfs_Process x)) (json_copy (dfs_Filesystem x)) (json_copy (dfs_Network x)) (json_copy (dfs_Artifact x))
    (json_copy (dfs_Scenario x)) (json_copy (dfs_Warning x)) (json_copy (dfs_Resource x)) (json_copy (dfs_Evidence x))
    (json_copy (dfs_Limitations x)).
#[global] Instance copied_DeltaFactSnapshot : CopyOnce DeltaFactSnapshot.
Proof. copies copy_DeltaFactSnapshot. Qed.
#[global] Instance copy_DeltaRecord : JsonCopy DeltaRecord := λ x,
  mkDeltaRecord (json_copy (dr_ID x)) (json_copy (dr_Kind x)) (json_copy (dr_Summary x)) (dr_BaseObserved x) (dr_HeadObserved x)
    (json_copy (dr_Evidence x)) (json_copy (dr_ScenarioIDs x)) (json_copy (dr_Limitations x)) (json_copy (dr_FactKind x))
    (json_copy (dr_Source x)) (json_copy (dr_AnchorDigest x)) (json_copy (dr_Basis x)) (json_copy (dr_ChangedFields x))
    (json_copy (dr_BaseOccurrence x)) (json_copy (dr_HeadOccurrence x)) (json_copy (dr_BaseFacts x)) (json_copy (dr_HeadFacts x))
    (json_copy (dr_BaseEvidence x)) (json_copy (dr_HeadEvidence x)) (json_copy (dr_BaseSemanticDigests x))
    (json_copy (dr_HeadSemanticDigests x)).
#[global] Instance copied_DeltaRecord : CopyOnce DeltaRecord.
Proof. copies copy_DeltaRecord. Qed.
#[global] Instance copy_ModelWaiver : JsonCopy ModelWaiver := λ x,
  mkModelWaiver (json_copy (mw_ID x)) (json_copy (mw_RuleID x)) (json_copy (mw_Scope x)) (json_copy (mw_Reason x))
    (json_copy (mw_Owner x)) (json_copy (mw_ExpiresAt x)) (json_copy (mw_Evidence x)).
#[global] Instance copied_ModelWaiver : CopyOnce ModelWaiver.
Proof. copies copy_ModelWaiver. Qed.
#[global] Instance copy_Finding : JsonCopy Finding := λ x,
  mkFinding (json_copy (fd_SchemaVersion x)) (json_copy (fd_ID x)) (json_copy (fd_RuleID x)) (json_copy (fd_RuleVersion x))
    (json_copy (fd_Title x)) (json_copy (fd_Severity x)) (json_copy (fd_Confidence x)) (json_copy (fd_Disposition x))
    (json_copy (fd_Summary x)) (json_copy (fd_DeltaRecordIDs x)) (json_copy (fd_Evidence x)) (json_copy (fd_ScenarioIDs x))
    (fd_BaseObserved x) (fd_HeadObserved x) (fd_Waived x) (json_copy (fd_Waivers x)) (json_copy (fd_Limitations x)).
#[global] Instance copied_Finding : CopyOnce Finding.
Proof. copies copy_Finding. Qed.
(** Numbers only. *)
#[global] Instance copy_DeltaSummary : JsonCopy DeltaSummary := λ x, x.
#[global] Instance copied_DeltaSummary : CopyOnce DeltaSummary := λ x, eq_refl.
