(* ===== verification/GoPath.v ===== *)
(** * Paths of Go's standard library: [path.Clean], [path.Match]

    [Clean] rewrites a slash-separated path to its shortest lexical equivalent;
    [Match] is shell pattern matching on one path.  Patterns and names are byte
    strings; [?] and character classes read runes. *)

From stdpp Require Import prelude strings.
From Stdlib Require Import ZArith Lia Ascii.
From S2P Require Import Prelude GoStd GoTime Model Json GoText.
Local Open Scope Z_scope.

Definition slash : ascii := byte_of 47.

(** ** [path.Clean] *)

(** The stack of kept components, innermost first. *)
Definition clean_step (rooted : bool) (stack : list bytes) (seg : bytes) : list bytes :=
  if bool_decide (seg = [] ∨ seg = to_bytes ".") then stack
  else if bool_decide (seg = to_bytes "..") then
    match stack with
    | top :: below => if bool_decide (top = to_bytes "..") then seg :: stack else below
    | [] => if rooted then [] else [seg]
    end
  else seg :: stack.

Fixpoint join_slash (segs : list bytes) : bytes :=
  match segs with
  | [] => []
  | [s] => s
  | s :: segs => s ++ slash :: join_slash segs
  end.

Definition is_rooted (p : bytes) : bool := match p with c :: _ => bool_decide (c = slash) | [] => false end.

Definition path_clean (p : bytes) : bytes :=
  let rooted := is_rooted p in
  let body := join_slash (reverse (foldl (clean_step rooted) [] (split_on slash p))) in
  if rooted then slash :: body
  else if bool_decide (body = []) then to_bytes "." else body.

(** ** [path.Match] *)

(** [path.ErrBadPattern] is the only error. *)
Inductive BadPattern := ErrBadPattern.

Definition c_star : ascii := byte_of 42.
Definition c_backslash : ascii := byte_of 92.
Definition c_lbracket : ascii := byte_of 91.
Definition c_rbracket : ascii := byte_of 93.
Definition c_caret : ascii := byte_of 94.
Definition c_dash : ascii := byte_of 45.
Definition c_question : ascii := byte_of 63.

(** [utf8.DecodeRuneInString] on a non-empty string: the rune and its width. *)
Definition decode_rune (s : bytes) : Z * nat :=
  match utf8_decode s with Some (r, n) => (r, n) | None => (RuneError, 1%nat) end.

(** The chunk up to the next star outside a class, and what follows it. *)
Fixpoint scan_loop (inrange : bool) (p : bytes) : bytes * bytes :=
  match p with
  | [] => ([], [])
  | c :: p' =>
    if bool_decide (c = c_backslash) then
      match p' with
      | d :: p'' => let '(chunk, rest) := scan_loop inrange p'' in (c :: d :: chunk, rest)
      | [] => ([c], [])
      end
    else if bool_decide (c = c_star) && negb inrange then ([], p)
    else
      let inrange := if bool_decide (c = c_lbracket) then true
                     else if bool_decide (c = c_rbracket) then false else inrange in
      let '(chunk, rest) := scan_loop inrange p' in (c :: chunk, rest)
  end.

Fixpoint drop_stars (p : bytes) : bytes :=
  match p with c :: p' => if bool_decide (c = c_star) then drop_stars p' else p | [] => [] end.

Definition scanChunk (pattern : bytes) : bool * bytes * bytes :=
  let body := drop_stars pattern in
  let '(chunk, rest) := scan_loop false body in
  (negb (bool_decide (body = pattern)), chunk, rest).

Definition getEsc (chunk : bytes) : result BadPattern (Z * bytes) :=
  match chunk with
  | [] => Err ErrBadPattern
  | c :: rest =>
    if bool_decide (c = c_dash ∨ c = c_rbracket) then Err ErrBadPattern
    else
      let chunk := if bool_decide (c = c_backslash) then rest else chunk in
      if bool_decide (chunk = []) then Err ErrBadPattern
      else
        let '(r, n) := decode_rune chunk in
        if bool_decide (r = RuneError ∧ n = 1%nat) then Err ErrBadPattern
        else if bool_decide (drop n chunk = []) then Err ErrBadPattern
        else Ok (r, drop n chunk)
  end.

(** The ranges of a character class, up to its closing bracket; [fuel] is the
    length of the chunk, which every range shortens. *)
Fixpoint class_loop (fuel : nat) (r : Z) (nrange : nat) (matched : bool) (chunk : bytes) :
    result BadPattern (bool * bytes) :=
  match fuel with
  | O => Err ErrBadPattern
  | S fuel =>
    match chunk, nrange with
    | c :: rest, S _ =>
      if bool_decide (c = c_rbracket) then Ok (matched, rest) else class_range fuel r nrange matched chunk
    | _, _ => class_range fuel r nrange matched chunk
    end
  end
with class_range (fuel : nat) (r : Z) (nrange : nat) (matched : bool) (chunk : bytes) :
    result BadPattern (bool * bytes) :=
  match fuel with
  | O => Err ErrBadPattern
  | S fuel =>
    lo ← getEsc chunk;
    hi ← match lo.2 with
         | c :: rest => if bool_decide (c = c_dash) then getEsc rest else Ok lo
         | [] => Ok lo
         end;
    class_loop fuel r (S nrange) (matched || ((lo.1 <=? r) && (r <=? hi.1))) hi.2
  end.

(** [matchChunk]: what is left of [s], or [None] when the chunk does not match;
    [failed] only keeps checking the syntax of the chunk. *)
Fixpoint matchChunk_loop (fuel : nat) (failed : bool) (chunk s : bytes) : result BadPattern (option bytes) :=
  match fuel with
  | O => Ok (if failed then None else Some s)
  | S fuel =>
    match chunk with
    | [] => Ok (if failed then None else Some s)
    | c :: rest =>
      let failed := failed || bool_decide (s = []) in
      let literal (d : ascii) (rest : bytes) :=
        if failed then matchChunk_loop fuel true rest s
        else matchChunk_loop fuel (negb (bool_decide (head s = Some d))) rest (tail s) in
      if bool_decide (c = c_lbracket) then
        let '(r, n) := if failed then (0, 0%nat) else decode_rune s in
        let negated := bool_decide (head rest = Some c_caret) in
        let body := if negated then tail rest else rest in
        m ← class_loop (2 * length body + 2) r 0 false body;
        matchChunk_loop fuel (failed || bool_decide (m.1 = negated)) m.2 (drop n s)
      else if bool_decide (c = c_question) then
        if failed then matchChunk_loop fuel true rest s
        else matchChunk_loop fuel (bool_decide (head s = Some slash)) rest (drop (decode_rune s).2 s)
      else if bool_decide (c = c_backslash) then
        match rest with [] => Err ErrBadPattern | d :: rest => literal d rest end
      else literal c rest
    end
  end.
Definition matchChunk (chunk s : bytes) : result BadPattern (option bytes) :=
  matchChunk_loop (length chunk) false chunk s.

(** The rest of the pattern, checked for its syntax only. *)
Fixpoint check_rest (fuel : nat) (pattern : bytes) : result BadPattern bool :=
  match fuel, pattern with
  | S fuel, _ :: _ =>
    let '(_, chunk, rest) := scanChunk pattern in
    matchChunk chunk [] ;; check_rest fuel rest
  | _, _ => Ok false
  end.

(** Positions after a star: skip one more byte, never a slash. *)
Fixpoint star_loop (chunk : bytes) (last : bool) (name : bytes) : result BadPattern (option bytes) :=
  match name with
  | [] => Ok None
  | c :: name' =>
    if bool_decide (c = slash) then Ok None
    else
      t ← matchChunk chunk name';
      match t with
      | Some t => if last && negb (bool_decide (t = [])) then star_loop chunk last name' else Ok (Some t)
      | None => star_loop chunk last name'
      end
  end.

Fixpoint match_loop (fuel : nat) (pattern name : bytes) : result BadPattern bool :=
  match fuel, pattern with
  | S fuel, _ :: _ =>
    let '(star, chunk, rest) := scanChunk pattern in
    if star && bool_decide (chunk = []) then Ok (negb (has_byte slash name))
    else
      let last := bool_decide (rest = []) in
      t ← matchChunk chunk name;
      match t with
      | Some t' =>
        if bool_decide (t' = []) || negb last then match_loop fuel rest t'
        else if star then
          u ← star_loop chunk last name;
          match u with Some u => match_loop fuel rest u | None => check_rest fuel rest end
        else check_rest fuel rest
      | None =>
        if star then
          u ← star_loop chunk last name;
          match u with Some u => match_loop fuel rest u | None => check_rest fuel rest end
        else check_rest fuel rest
      end
  | _, _ => Ok (bool_decide (name = []))
  end.

(** [path.Match]; every chunk consumes at least one byte of the pattern. *)
Definition path_match (pattern name : bytes) : result BadPattern bool :=
  match_loop (length pattern) pattern name.

Example clean_examples :
  (λ p, of_bytes (path_clean (to_bytes p))) <$> ["/a//b/./c"; "/a/../.."; "a/../b"; ""; "/"; "../x"]%string
  = ["/a/b/c"; "/"; "b"; "."; "/"; "../x"]%string.
Proof. vm_compute. reflexivity. Qed.

Example match_examples :
  (λ '(p, n), path_match (to_bytes p) (to_bytes n))
    <$> [("*.txt", "a.txt"); ("*.txt", "a/b.txt"); ("a[0-9]?", "a7x"); ("a[^0-9]", "a7"); ("[", "a"); ("a*b*c", "axbyc"); ("a*[", "b")]%string
  = [Ok true; Ok false; Ok true; Ok false; Err ErrBadPattern; Ok true; Err ErrBadPattern].
Proof. vm_compute. reflexivity. Qed.
