(* ===== verification/Yaml.v ===== *)
(** * The interface of the YAML library ([go.yaml.in/yaml/v4])

    The library itself is third-party code: the parsers of this development take
    its loader as a parameter.  A loaded document is a tree of nodes; the loader
    is given the limits its plugin enforces ([CheckDepth], [CheckAlias]) and
    returns the documents of a stream or the text of an error. *)

From stdpp Require Import prelude strings.
From Stdlib Require Import ZArith.
From S2P Require Import Prelude GoStd.

Inductive NodeKind := DocumentNode | SequenceNode | MappingNode | ScalarNode | AliasNode.
#[global] Instance NodeKind_eq_dec : EqDecision NodeKind.
Proof. solve_decision. Defined.

(** [n_Tagged] is [n.Style & yaml.TaggedStyle != 0]. *)
#[warnings="-register-all"]
Inductive Node := mkNode {
  n_Kind : NodeKind;
  n_Tagged : bool;
  n_Tag : string;
  n_Value : string;
  n_Anchor : string;
  n_Line : Z;
  n_Column : Z;
  n_Content : list Node
}.

(** [yaml.Load(data, &docs, ...)] with a plugin's depth and alias checks. *)
Abbreviation YamlLoad := ((Z → bool) → (Z → bool) → bytes → result string (list Node)).
