(* ===== verification/Config.v ===== *)
(** * Pipeline configuration: its types and the comparison of two of them ([internal/config])

    The validated pipeline and the files it is read from ([types.go],
    [source.go], [trusted.go]), the bounded rendering of untrusted text
    ([errors.go]) and the comparison of the base and head pipelines
    ([change.go]), which tells what the head would change and how. *)

From stdpp Require Import prelude gmap strings.
From Stdlib Require Import ZArith Lia Ascii.
From S2P Require Import Prelude GoStd Sha256 Model Json GoText.
Local Open Scope Z_scope.

(** ** [source.go] *)

Definition PipelinePath : string := ".glassroot/pipeline.yaml".

Abbreviation EntryKind := string.
Definition EntryKindRegularFile : EntryKind := "regular-file".
Definition EntryKindSymlink : EntryKind := "symlink".
Definition EntryKindGitlink : EntryKind := "gitlink".
Definition EntryKindDirectory : EntryKind := "directory".
Definition EntryKindOther : EntryKind := "other".

Record RevisionFile := mkRevisionFile {
  rfl_Kind : EntryKind;
  rfl_Data : option bytes;
  rfl_Executable : bool;
  rfl_ObjectID : string
}.

(** The errors of [ReadFile] the loaders tell apart ([errors.Is]); [ErrContext] is
    a cancelled or expired context. *)
Inductive ReadError := ErrNotExist | ErrRevisionFileTooLarge | ErrContext | ErrOther.

(** [RevisionFileSource.ReadFile] on an immutable revision: revision, path, byte limit. *)
Abbreviation RevisionFileSource := (CommitRef → string → Z → result ReadError RevisionFile).

(** ** [types.go]: the validated pipeline *)

Definition NetworkModeDeny : string := "deny".
Definition FilesystemContentsMetadata : string := "metadata-and-digests".
Definition PolicyProfileStrict : string := "strict".

Record ValidatedResources := mkValidatedResources {
  vr_CPU : Z;
  vr_MemoryBytes : Z;
  vr_DiskBytes : Z;
  vr_ProcessCount : Z;
  vr_TimeoutMillis : Z
}.
Record ValidatedNetwork := mkValidatedNetwork { vn_Mode : string; vn_Allow : list string }.
Record ValidatedScenario := mkValidatedScenario {
  vs_ID : string;
  vs_Name : string;
  vs_Shell : string;
  vs_Run : string;
  vs_TimeoutMillis : Z
}.
Record ValidatedArtifact := mkValidatedArtifact { va_Path : string; va_MaxBytes : Z }.
Record ValidatedCollect := mkValidatedCollect {
  vc_FilesystemRoots : list string;
  vc_FilesystemContents : string;
  vc_Artifacts : list ValidatedArtifact;
  vc_LogMaxBytesPerStream : Z
}.
Record ValidatedCompare := mkValidatedCompare { vcm_IgnoreFields : list string; vcm_Repetitions : Z }.
Record ValidatedPolicy := mkValidatedPolicy { vp_Profile : string }.
Record ValidatedPipeline := mkValidatedPipeline {
  vpl_Name : string;
  vpl_Image : string;
  vpl_ImageDigest : string;
  vpl_Workdir : string;
  vpl_Resources : ValidatedResources;
  vpl_Network : ValidatedNetwork;
  vpl_Scenarios : list ValidatedScenario;
  vpl_Collect : ValidatedCollect;
  vpl_Compare : ValidatedCompare;
  vpl_Policy : ValidatedPolicy
}.

(** ** [errors.go]: text of untrusted origin, bounded and printable *)

Definition hex2 (v : Z) : bytes := [hex_digit (v / 16); hex_digit (v mod 16)].

(** The loop of [sanitizeForDiagnostic]: the text written and the runes left.  A
    rune that does not fit has already been taken off the input when the loop
    breaks, an invalid byte has not. *)
Fixpoint sanitize_loop (maxBytes : Z) (b : bytes) (s : list (option Z * bytes)) :
    bytes * list (option Z * bytes) :=
  match s with
  | [] => (b, [])
  | (r, raw) :: s' =>
    if negb (Z.of_nat (length b) <? maxBytes) then (b, s)
    else
      let n := Z.of_nat (length b) in
      match r with
      | None =>
        if maxBytes <? n + 6 then (b, s)
        else sanitize_loop maxBytes
               (b ++ to_bytes "\x" ++ hex2 (match raw with c :: _ => byte_val c | [] => 0 end)) s'
      | Some r =>
        if (r <? 32) || (r == 127) then
          if maxBytes <? n + 6 then (b, s')
          else sanitize_loop maxBytes (b ++ to_bytes "\u00" ++ hex2 r) s'
        else if maxBytes <? n + Z.of_nat (length raw) then (b, s')
        else sanitize_loop maxBytes (b ++ raw) s'
      end
  end.

(** U+2026 in UTF-8 *)
Definition ellipsis : bytes := byte_of <$> [226; 128; 166].

Definition sanitizeForDiagnostic (s : string) (maxBytes : Z) : string :=
  let maxBytes := if maxBytes <=? 0 then 512 else maxBytes in
  let '(b, rest) := sanitize_loop maxBytes [] (runes (to_bytes s)) in
  of_bytes (if negb (ze_list rest) && (Z.of_nat (length b) + 1 <=? maxBytes) then b ++ ellipsis else b).

(** *** Diagnostics *)

Definition MaxDiagnostics : nat := 100.
Record Diagnostic := mkDiagnostic {
  dg_Code : string;
  dg_Path : string;
  dg_Line : Z;
  dg_Column : Z;
  dg_Message : string
}.
Abbreviation Diagnostics := (list Diagnostic).
Definition capDiagnostics (diags : Diagnostics) : Diagnostics := take MaxDiagnostics diags.
Definition newDiagnostic (code path : string) (line column : Z) (msg : string) : Diagnostic :=
  mkDiagnostic code path line column (sanitizeForDiagnostic msg 512).

(** ** [change.go] *)

Abbreviation ChangeKind := string.
Definition ChangeKindAdded : ChangeKind := "added".
Definition ChangeKindRemoved : ChangeKind := "removed".
Definition ChangeKindModified : ChangeKind := "modified".
Definition ChangeKindReordered : ChangeKind := "reordered".

Abbreviation SecurityEffect := string.
Definition SecurityEffectPrivilegeIncrease : SecurityEffect := "privilege-increase".
Definition SecurityEffectPrivilegeDecrease : SecurityEffect := "privilege-decrease".
Definition SecurityEffectExecutionDefinitionChange : SecurityEffect := "execution-definition-change".
Definition SecurityEffectObservationWeakened : SecurityEffect := "observation-weakened".
Definition SecurityEffectObservationStrengthened : SecurityEffect := "observation-strengthened".
Definition SecurityEffectPolicyChange : SecurityEffect := "policy-change".
Definition SecurityEffectInformational : SecurityEffect := "informational".
Definition SecurityEffectUnknown : SecurityEffect := "unknown".

Record ConfigChange := mkConfigChange {
  cc_Path : string;
  cc_Kind : ChangeKind;
  cc_Effect : SecurityEffect;
  cc_Before : string;
  cc_After : string;
  cc_BeforeDigest : string;
  cc_AfterDigest : string;
  cc_BeforeBytes : Z;
  cc_AfterBytes : Z
}.

Definition digestBytes (data : bytes) : Digest := "sha256:" +:+ sha256_hex data.

Definition boundValue (s : string) : string := sanitizeForDiagnostic s 160.
Definition boundPathToken (s : string) : string := sanitizeForDiagnostic s 160.
Definition scenarioPath (id : string) : string := "spec.scenarios[id=" +:+ boundPathToken id +:+ "]".
Definition artifactPath (path : string) : string := "spec.collect.artifacts[path=" +:+ boundPathToken path +:+ "]".
Definition ignorePath (field : string) : string := "spec.compare.ignore[field=" +:+ boundPathToken field +:+ "]".

(** [ConfigChange{Path: ..., Kind: ..., Effect: ...}] *)
Definition plainChange (path : string) (kind : ChangeKind) (effect : SecurityEffect) : ConfigChange :=
  mkConfigChange path kind effect "" "" "" "" 0 0.

(** The Go functions append to a shared slice; here each returns what it appends. *)
Definition addStringChange (path before after : string) (effect : SecurityEffect) : list ConfigChange :=
  if before == after then []
  else [mkConfigChange path ChangeKindModified effect (boundValue before) (boundValue after) "" "" 0 0].

Definition addIntDirectional (path : string) (before after : Z) (increaseEffect decreaseEffect : SecurityEffect) :
    list ConfigChange :=
  if before == after then []
  else [mkConfigChange path ChangeKindModified (if before <? after then increaseEffect else decreaseEffect)
          (fmt_d before) (fmt_d after) "" "" 0 0].

Definition addRunChange (path before after : string) : list ConfigChange :=
  if before == after then []
  else [mkConfigChange path ChangeKindModified SecurityEffectExecutionDefinitionChange "" ""
          (digestBytes (to_bytes before)) (digestBytes (to_bytes after)) (str_len before) (str_len after)].

Definition networkEffect (before after : string) : SecurityEffect :=
  if before == after then SecurityEffectInformational
  else if (before == NetworkModeDeny) && (after != NetworkModeDeny) then SecurityEffectPrivilegeIncrease
  else if (before != NetworkModeDeny) && (after == NetworkModeDeny) then SecurityEffectPrivilegeDecrease
  else SecurityEffectUnknown.

Definition observationModeEffect (before after : string) : SecurityEffect :=
  if before == after then SecurityEffectInformational
  else if (before == FilesystemContentsMetadata) && (after != FilesystemContentsMetadata)
  then SecurityEffectObservationWeakened
  else if (before != FilesystemContentsMetadata) && (after == FilesystemContentsMetadata)
  then SecurityEffectObservationStrengthened
  else SecurityEffectUnknown.

Definition sameStringSlice (a b : list string) : bool := a == b.

Definition countStrings (a : list string) : gmap string Z :=
  foldl (λ m v, <[v := default 0 (m !! v) + 1]> m) ∅ a.

Definition sameStringSet (a b : list string) : bool :=
  if negb (Z.of_nat (length a) == Z.of_nat (length b)) then false
  else match foldR (λ (m : gmap string Z) v,
           let c := default 0 (m !! v) - 1 in
           if c <? 0 then Err () else Ok (<[v := c]> m)) (countStrings a) b with
       | Ok _ => true
       | Err _ => false
       end.

(** [path[i]] for the elements from position [i] on. *)
Fixpoint indexedChanges (path : string) (i : Z) (kind : ChangeKind) (effect : SecurityEffect) (l : list string) :
    list ConfigChange :=
  match l with
  | [] => []
  | _ :: l => plainChange (path +:+ "[" +:+ fmt_d i +:+ "]") kind effect :: indexedChanges path (i + 1) kind effect l
  end.

(** The three loops of [compareStringList], from position [i] on. *)
Fixpoint compareElements (path : string) (i : Z) (base head : list string)
    (addedEffect removedEffect : SecurityEffect) : list ConfigChange :=
  match base, head with
  | b :: base, h :: head =>
    (if b == h then [] else [plainChange (path +:+ "[" +:+ fmt_d i +:+ "]") ChangeKindModified SecurityEffectUnknown])
    ++ compareElements path (i + 1) base head addedEffect removedEffect
  | base, [] => indexedChanges path i ChangeKindRemoved removedEffect base
  | [], head => indexedChanges path i ChangeKindAdded addedEffect head
  end.

Definition compareStringList (path : string) (base head : list string)
    (addedEffect removedEffect : SecurityEffect) : list ConfigChange :=
  if sameStringSet base head && negb (sameStringSlice base head)
  then [plainChange path ChangeKindReordered SecurityEffectInformational]
  else compareElements path 0 base head addedEffect removedEffect.

Definition reordered (path : string) (base head : list string) : list ConfigChange :=
  if sameStringSet base head && negb (sameStringSlice base head)
  then [plainChange path ChangeKindReordered SecurityEffectInformational] else [].

(** Elements by key; a later one replaces an earlier one. *)
Definition indexBy {A} (key : A → string) (l : list A) : gmap string A := foldl (λ m x, <[key x := x]> m) ∅ l.

(** The keys of [l] that are not in [other], each with a change. *)
Definition missingIn {A} (key : A → string) (other : gmap string A) (l : list A) (f : string → ConfigChange) :
    list ConfigChange :=
  (λ x, f (key x)) <$> filter (λ x, other !! key x = None) l.

(** The keys of [order] that [m] has, in order. *)
Definition commonKeysInBaseOrder {A} (order : list string) (m : gmap string A) : list string :=
  filter (λ k, is_Some (m !! k)) order.

Definition compareScenario (b h : ValidatedScenario) : list ConfigChange :=
  let prefix := scenarioPath (vs_ID b) in
  addStringChange (prefix +:+ ".name") (vs_Name b) (vs_Name h) SecurityEffectInformational ++
  addStringChange (prefix +:+ ".shell") (vs_Shell b) (vs_Shell h) SecurityEffectExecutionDefinitionChange ++
  addRunChange (prefix +:+ ".run") (vs_Run b) (vs_Run h) ++
  addIntDirectional (prefix +:+ ".timeoutMillis") (vs_TimeoutMillis b) (vs_TimeoutMillis h)
    SecurityEffectPrivilegeIncrease SecurityEffectPrivilegeDecrease.

Definition compareScenarios (base head : list ValidatedScenario) : list ConfigChange :=
  let baseByID := indexBy vs_ID base in
  let headByID := indexBy vs_ID head in
  missingIn vs_ID headByID base
    (λ id, plainChange (scenarioPath id) ChangeKindRemoved SecurityEffectExecutionDefinitionChange) ++
  missingIn vs_ID baseByID head
    (λ id, plainChange (scenarioPath id) ChangeKindAdded SecurityEffectExecutionDefinitionChange) ++
  reordered "spec.scenarios" (vs_ID <$> base) (vs_ID <$> head) ++
  (commonKeysInBaseOrder (vs_ID <$> base) headByID ≫= λ id,
     match baseByID !! id, headByID !! id with
     | Some b, Some h => compareScenario b h
     | _, _ => []
     end).

Definition compareArtifact (b h : ValidatedArtifact) : list ConfigChange :=
  addIntDirectional (artifactPath (va_Path b) +:+ ".maxBytes") (va_MaxBytes b) (va_MaxBytes h)
    SecurityEffectObservationStrengthened SecurityEffectObservationWeakened.

Definition compareArtifacts (base head : list ValidatedArtifact) : list ConfigChange :=
  let baseByPath := indexBy va_Path base in
  let headByPath := indexBy va_Path head in
  missingIn va_Path headByPath base
    (λ p, plainChange (artifactPath p) ChangeKindRemoved SecurityEffectObservationWeakened) ++
  missingIn va_Path baseByPath head
    (λ p, plainChange (artifactPath p) ChangeKindAdded SecurityEffectObservationStrengthened) ++
  reordered "spec.collect.artifacts" (va_Path <$> base) (va_Path <$> head) ++
  (commonKeysInBaseOrder (va_Path <$> base) headByPath ≫= λ p,
     match baseByPath !! p, headByPath !! p with
     | Some b, Some h => compareArtifact b h
     | _, _ => []
     end).

Definition compareIgnoreFields (base head : list string) : list ConfigChange :=
  ((λ f, plainChange (ignorePath f) ChangeKindRemoved SecurityEffectObservationStrengthened)
     <$> filter (λ f, f ∉ head) base) ++
  ((λ f, plainChange (ignorePath f) ChangeKindAdded SecurityEffectObservationWeakened)
     <$> filter (λ f, f ∉ base) head) ++
  reordered "spec.compare.ignore" base head.

Definition configChange_less : ConfigChange → ConfigChange → bool :=
  by_key cc_Path str_lt (by_key cc_Kind str_lt (by_last cc_Effect str_lt)).
Definition sortConfigChanges (l : list ConfigChange) : list ConfigChange := stable_sort configChange_less l.

(** What [ComparePipelines] appends, before it sorts. *)
Definition pipelineChanges (base head : ValidatedPipeline) : list ConfigChange :=
  let privilege p f := addIntDirectional p (f (vpl_Resources base)) (f (vpl_Resources head))
                         SecurityEffectPrivilegeIncrease SecurityEffectPrivilegeDecrease in
  let bc := vpl_Collect base in
  let hc := vpl_Collect head in
  addStringChange "metadata.name" (vpl_Name base) (vpl_Name head) SecurityEffectInformational ++
  addStringChange "spec.environment.image" (vpl_Image base) (vpl_Image head) SecurityEffectExecutionDefinitionChange ++
  addStringChange "spec.environment.imageDigest" (vpl_ImageDigest base) (vpl_ImageDigest head)
    SecurityEffectExecutionDefinitionChange ++
  addStringChange "spec.environment.workdir" (vpl_Workdir base) (vpl_Workdir head)
    SecurityEffectExecutionDefinitionChange ++
  privilege "spec.resources.cpu"%string vr_CPU ++
  privilege "spec.resources.memoryBytes"%string vr_MemoryBytes ++
  privilege "spec.resources.diskBytes"%string vr_DiskBytes ++
  privilege "spec.resources.processCount"%string vr_ProcessCount ++
  privilege "spec.resources.timeoutMillis"%string vr_TimeoutMillis ++
  addStringChange "spec.network.mode" (vn_Mode (vpl_Network base)) (vn_Mode (vpl_Network head))
    (networkEffect (vn_Mode (vpl_Network base)) (vn_Mode (vpl_Network head))) ++
  compareStringList "spec.network.allow" (vn_Allow (vpl_Network base)) (vn_Allow (vpl_Network head))
    SecurityEffectPrivilegeIncrease SecurityEffectPrivilegeDecrease ++
  compareScenarios (vpl_Scenarios base) (vpl_Scenarios head) ++
  compareStringList "spec.collect.filesystem.roots" (vc_FilesystemRoots bc) (vc_FilesystemRoots hc)
    SecurityEffectObservationStrengthened SecurityEffectObservationWeakened ++
  addStringChange "spec.collect.filesystem.contents" (vc_FilesystemContents bc) (vc_FilesystemContents hc)
    (observationModeEffect (vc_FilesystemContents bc) (vc_FilesystemContents hc)) ++
  compareArtifacts (vc_Artifacts bc) (vc_Artifacts hc) ++
  addIntDirectional "spec.collect.logs.maxBytesPerStream" (vc_LogMaxBytesPerStream bc) (vc_LogMaxBytesPerStream hc)
    SecurityEffectObservationStrengthened SecurityEffectObservationWeakened ++
  compareIgnoreFields (vcm_IgnoreFields (vpl_Compare base)) (vcm_IgnoreFields (vpl_Compare head)) ++
  addIntDirectional "spec.compare.repetitions" (vcm_Repetitions (vpl_Compare base)) (vcm_Repetitions (vpl_Compare head))
    SecurityEffectObservationStrengthened SecurityEffectObservationWeakened ++
  addStringChange "spec.policy.profile" (vp_Profile (vpl_Policy base)) (vp_Profile (vpl_Policy head))
    SecurityEffectPolicyChange.

Definition ComparePipelines (base head : ValidatedPipeline) : list ConfigChange :=
  sortConfigChanges (pipelineChanges base head).

(** ** [trusted.go]: the result of a trusted load *)

Record ConfigFileMetadata := mkConfigFileMetadata {
  cfm_Revision : CommitRef;
  cfm_Path : string;
  cfm_Kind : EntryKind;
  cfm_Digest : Digest;
  cfm_SizeBytes : Z;
  cfm_Executable : bool;
  cfm_ObjectID : string
}.

Abbreviation EffectiveSource := string.
Definition EffectiveSourceBase : EffectiveSource := "base".
Record EffectiveConfigSource := mkEffectiveConfigSource {
  ecs_Source : EffectiveSource;
  ecs_Path : string;
  ecs_File : ConfigFileMetadata
}.

Abbreviation HeadAssessmentState := string.
Definition HeadStateUnchanged : HeadAssessmentState := "unchanged".
Definition HeadStateContentChangedSemanticallyEquivalent : HeadAssessmentState :=
  "content-changed-but-semantically-equivalent".
Definition HeadStateModifiedValid : HeadAssessmentState := "modified-valid".
Definition HeadStateModifiedInvalid : HeadAssessmentState := "modified-invalid".
Definition HeadStateRemoved : HeadAssessmentState := "removed".
Definition HeadStateUnsupportedEntryKind : HeadAssessmentState := "unsupported-entry-kind".

Record HeadAssessment := mkHeadAssessment {
  ha_State : HeadAssessmentState;
  ha_BaseFile : ConfigFileMetadata;
  ha_HeadFile : ConfigFileMetadata;
  ha_Diagnostics : Diagnostics;
  ha_Changes : list ConfigChange
}.

Record TrustedLoadResult := mkTrustedLoadResult {
  tl_Base : CommitRef;
  tl_Head : CommitRef;
  tl_EffectivePipeline : ValidatedPipeline;
  tl_EffectiveSource : EffectiveConfigSource;
  tl_BaseFile : ConfigFileMetadata;
  tl_HeadAssessment : HeadAssessment
}.
