(* ===== verification/ConfigParse.v ===== *)
(** * The pipeline document parser ([internal/config/parser.go])

    From bytes to a [Document]: the checks before the YAML library, the library
    itself (a parameter), the inspection of its nodes, the known-field check and
    the decoding.  A decoded document keeps, for every field, whether it was
    present or null and where it stood, so that validation can report it. *)

From stdpp Require Import prelude gmap strings.
From Stdlib Require Import ZArith Lia Ascii.
From S2P Require Import Prelude GoStd GoTime Model Json GoText Yaml Config.
Local Open Scope Z_scope.

(** ** [types.go]: limits and the decoded document *)

Definition MaxPipelineBytes : Z := 2 ^ 20.
Definition MaxYAMLDepth : Z := 32.
Definition MaxYAMLNodes : Z := 20000.
Definition MaxGeneralStringBytes : Z := 4 * 2 ^ 10.
Definition MaxRunBytes : Z := 64 * 2 ^ 10.

Record StringValue := mkStringValue {
  sv_Present : bool; sv_Null : bool; sv_Value : string; sv_Line : Z; sv_Column : Z }.
Record IntValue := mkIntValue {
  iv_Present : bool; iv_Null : bool; iv_Value : Z; iv_Line : Z; iv_Column : Z }.
(** [SequencePresence], and the four presence fields every mapping carries. *)
Record Presence := mkPresence { pr_Present : bool; pr_Null : bool; pr_Line : Z; pr_Column : Z }.

Record Metadata := mkMetadata { md_Presence : Presence; md_Name : StringValue }.
Record Environment := mkEnvironment { en_Presence : Presence; en_Image : StringValue; en_Workdir : StringValue }.
Record Resources := mkResources {
  rs_Presence : Presence; rs_CPU : IntValue; rs_Memory : StringValue; rs_Disk : StringValue;
  rs_Processes : IntValue; rs_Timeout : StringValue }.
Record Network := mkNetwork { nw_Presence : Presence; nw_Mode : StringValue; nw_Allow : Presence; nw_AllowLen : Z }.
Record Scenario := mkScenario {
  sc_Line : Z; sc_Column : Z; sc_Null : bool;
  sc_ID : StringValue; sc_Name : StringValue; sc_Shell : StringValue; sc_Run : StringValue; sc_Timeout : StringValue }.
Record FilesystemCollect := mkFilesystemCollect {
  fc_Presence : Presence; fc_RootsPresence : Presence; fc_Roots : list StringValue; fc_Contents : StringValue }.
Record ArtifactCollect := mkArtifactCollect {
  ac_Line : Z; ac_Column : Z; ac_Null : bool; ac_Path : StringValue; ac_MaxBytes : StringValue }.
Record LogsCollect := mkLogsCollect { lc_Presence : Presence; lc_MaxBytesPerStream : StringValue }.
Record Collect := mkCollect {
  co_Presence : Presence; co_Filesystem : FilesystemCollect;
  co_ArtifactsPresence : Presence; co_Artifacts : list ArtifactCollect; co_Logs : LogsCollect }.
Record IgnoreField := mkIgnoreField { ig_Line : Z; ig_Column : Z; ig_Null : bool; ig_Field : StringValue }.
Record CompareConfig := mkCompareConfig {
  cf_Presence : Presence; cf_IgnorePresence : Presence; cf_Ignore : list IgnoreField; cf_Repetitions : IntValue }.
Record PolicyConfig := mkPolicyConfig { pc_Presence : Presence; pc_Profile : StringValue }.
Record Spec := mkSpec {
  sp_Presence : Presence;
  sp_Environment : Environment;
  sp_Resources : Resources;
  sp_Network : Network;
  sp_ScenariosPresence : Presence;
  sp_Scenarios : list Scenario;
  sp_Collect : Collect;
  sp_Compare : CompareConfig;
  sp_Policy : PolicyConfig }.
Record Document := mkDocument {
  dc_APIVersion : StringValue; dc_Kind : StringValue; dc_Metadata : Metadata; dc_Spec : Spec }.

(** ** Before the YAML library *)

Definition syntaxDiag (code : string) (line column : Z) (msg : string) : Diagnostics :=
  [newDiagnostic code "" line column msg].

Definition byteLineColumn (before : bytes) : Z * Z :=
  foldl (λ '(line, col) c, if bool_decide (c = byte_of 10) then (line + 1, 1) else (line, col + 1)) (1, 1) before.

(** The bytes before the first occurrence of [c]. *)
Fixpoint before_byte (c : ascii) (b : bytes) : option bytes :=
  match b with
  | [] => None
  | x :: b => if bool_decide (x = c) then Some [] else (x ::.) <$> before_byte c b
  end.

(** [strings.TrimLeft(row, " \t")] *)
Fixpoint trim_blank (b : bytes) : bytes :=
  match b with c :: b' => if bool_decide (c = byte_of 32 ∨ c = byte_of 9) then trim_blank b' else b | [] => [] end.

Fixpoint firstDirective (line : Z) (rows : list bytes) : Z * Z :=
  match rows with
  | [] => (0, 0)
  | row :: rows =>
    let trim := trim_blank row in
    let col := Z.of_nat (length row) - Z.of_nat (length trim) + 1 in
    if has_prefix "%YAML" (of_bytes trim) || has_prefix "%TAG" (of_bytes trim) then (line, col)
    else firstDirective (line + 1) rows
  end.

Definition preflightInput (data : bytes) : Diagnostics :=
  capDiagnostics (
    (if MaxPipelineBytes <? Z.of_nat (length data)
     then syntaxDiag "input-too-large" 0 0 ("pipeline input exceeds " +:+ fmt_d MaxPipelineBytes +:+ " bytes") else []) ++
    (if bool_decide (trim_space data = [])
     then syntaxDiag "yaml-syntax" 0 0 "input must contain one non-empty YAML document" else []) ++
    (if negb (utf8_valid data) then syntaxDiag "invalid-utf8" 0 0 "input must be valid UTF-8" else []) ++
    (match before_byte (byte_of 0) data with
     | Some b => let '(line, col) := byteLineColumn b in syntaxDiag "nul-byte" line col "input must not contain NUL bytes"
     | None => []
     end) ++
    (let '(line, col) := firstDirective 1 (split_on (byte_of 10) data) in
     if 0 <? line then syntaxDiag "unsupported-yaml-feature" line col "YAML directives are not supported" else [])).

(** ** The YAML library *)

(** [strictYAMLLimit]: the checks of the loader's plugin ([true] refuses). *)
Definition CheckDepth (depth : Z) : bool := MaxYAMLDepth <? depth.
Definition CheckAlias (aliasCount : Z) : bool := 0 <? aliasCount.

(** The text of an error that wraps a sentinel contains the sentinel's text, so
    the [errors.Is] tests are covered by the tests on the text. *)
Definition classifyYAMLError (msg : string) : Diagnostics :=
  if contains "depth" msg then syntaxDiag "out-of-range" 0 0 "YAML nesting depth exceeds limit"
  else if mentions "alias" msg then syntaxDiag "unsupported-yaml-feature" 0 0 "YAML aliases are not supported"
  else if mentions "duplicate" msg then syntaxDiag "duplicate-key" 0 0 "duplicate mapping keys are not supported"
  else syntaxDiag "yaml-syntax" 0 0 msg.

(** The root node, [None] for an empty document; several documents are an error. *)
Definition loadSingleDocumentNode (yaml_load : YamlLoad) (data : bytes) : result Diagnostics (option Node) :=
  match yaml_load CheckDepth CheckAlias data with
  | Err msg => Err (classifyYAMLError msg)
  | Ok docs =>
    match docs with
    | [root] => Ok (if n_Kind root == DocumentNode then head (n_Content root) else Some root)
    | _ => Err (syntaxDiag "multiple-documents" 0 0 "input must contain exactly one non-empty YAML document")
    end
  end.

(** ** Inspection of the nodes *)

Definition childPath (parent child : string) : string := if parent == ""%string then child else parent +:+ "." +:+ child.
Definition indexedPath (parent : string) (idx : Z) : string := parent +:+ "[" +:+ fmt_d idx +:+ "]".

Definition isCustomTag (tag : string) : bool :=
  if bool_decide (tag ∈ [""; "!!map"; "!!seq"; "!!str"; "!!int"; "!!null"; "!!bool"]%string) then false
  else has_prefix "!" tag.

Definition nodeDiag (code path : string) (n : Node) (msg : string) : Diagnostics :=
  [newDiagnostic code path (n_Line n) (n_Column n) msg].
Definition unsupportedNode (path : string) (n : Node) (msg : string) : Diagnostics :=
  nodeDiag "unsupported-yaml-feature" path n msg.

(** The checks on one node before its children. *)
Definition inspectFeatures (n : Node) (path : string) : Diagnostics :=
  (if n_Kind n == AliasNode then unsupportedNode path n "YAML aliases are not supported" else []) ++
  (if n_Anchor n != ""%string then unsupportedNode path n "YAML anchors are not supported" else []) ++
  (if n_Tagged n || isCustomTag (n_Tag n)
   then unsupportedNode path n "explicit or custom YAML tags are not supported" else []).

Definition isStringKey (k : Node) : bool := (n_Kind k == ScalarNode) && (n_Tag k == "!!str"%string).

(** The checks on a string key, before its value is inspected. *)
Definition inspectMappingKey (path : string) (seen : gset string) (k : Node) : Diagnostics :=
  let child := childPath path (n_Value k) in
  (if n_Value k == "<<"%string then unsupportedNode child k "YAML merge keys are not supported" else []) ++
  (if bool_decide (n_Value k ∈ seen) then nodeDiag "duplicate-key" child k "duplicate mapping key" else []).

Definition scalarLimit (path : string) : Z := if contains ".run" path then MaxRunBytes else MaxGeneralStringBytes.

Definition full (diags : Diagnostics) : bool := bool_decide (MaxDiagnostics <= length diags)%nat.

(** [budget.count] is threaded: the second result is the count after the subtree. *)
Fixpoint inspectYAMLNode (n : Node) (path : string) (depth count : Z) {struct n} : Diagnostics * Z :=
  let count := count + 1 in
  let pairs := fix pairs (seen : gset string) (diags : Diagnostics) (count : Z) (items : list Node) {struct items} :
      Diagnostics * Z :=
    match items with
    | k :: v :: items =>
      if negb (isStringKey k) then
        pairs seen (diags ++ unsupportedNode path k "mapping keys must be scalar strings") count items
      else
        let '(d, count) := inspectYAMLNode v (childPath path (n_Value k)) (depth + 1) count in
        let diags := diags ++ inspectMappingKey path seen k ++ d in
        if full diags then (capDiagnostics diags, count) else pairs ({[ n_Value k ]} ∪ seen) diags count items
    | _ => (capDiagnostics diags, count)
    end in
  let children := fix children (i : Z) (diags : Diagnostics) (count : Z) (items : list Node) {struct items} :
      Diagnostics * Z :=
    match items with
    | c :: items =>
      let '(d, count) := inspectYAMLNode c (indexedPath path i) (depth + 1) count in
      let diags := diags ++ d in
      if full diags then (capDiagnostics diags, count) else children (i + 1) diags count items
    | [] => (capDiagnostics diags, count)
    end in
  if MaxYAMLNodes <? count then (nodeDiag "out-of-range" path n "YAML node count exceeds limit", count)
  else if MaxYAMLDepth <? depth then (nodeDiag "out-of-range" path n "YAML nesting depth exceeds limit", count)
  else
    let diags := inspectFeatures n path in
    match n_Kind n with
    | MappingNode => pairs ∅ diags count (n_Content n)
    | SequenceNode => children 0 diags count (n_Content n)
    | ScalarNode =>
      let limit := scalarLimit path in
      (capDiagnostics (diags ++ if limit <? str_len (n_Value n)
         then nodeDiag "out-of-range" path n ("scalar exceeds " +:+ fmt_d limit +:+ " bytes") else []), count)
    | _ => (capDiagnostics diags, count)
    end.

(** *** Known fields *)

Definition allowedFieldsForPath (path : string) : option (list string) :=
  list_to_map (M := gmap string (list string)) [
    ("", ["apiVersion"; "kind"; "metadata"; "spec"]);
    ("metadata", ["name"]);
    ("spec", ["environment"; "resources"; "network"; "scenarios"; "collect"; "compare"; "policy"]);
    ("spec.environment", ["image"; "workdir"]);
    ("spec.resources", ["cpu"; "memory"; "disk"; "processes"; "timeout"]);
    ("spec.network", ["mode"; "allow"]);
    ("spec.scenarios[]", ["id"; "name"; "shell"; "run"; "timeout"]);
    ("spec.collect", ["filesystem"; "artifacts"; "logs"]);
    ("spec.collect.filesystem", ["roots"; "contents"]);
    ("spec.collect.artifacts[]", ["path"; "maxBytes"]);
    ("spec.collect.logs", ["maxBytesPerStream"]);
    ("spec.compare", ["ignore"; "repetitions"]);
    ("spec.compare.ignore[]", ["field"]);
    ("spec.policy", ["profile"]) ]%string !! path.

Definition sequenceItemPath (path : string) : option string :=
  if bool_decide (path ∈ ["spec.scenarios"; "spec.collect.artifacts"; "spec.compare.ignore"]%string)
  then Some (path +:+ "[]") else None.

Fixpoint inspectKnownFields (n : Node) (path : string) {struct n} : Diagnostics :=
  let pairs := fix pairs (allowed : list string) (diags : Diagnostics) (items : list Node) {struct items} : Diagnostics :=
    match items with
    | k :: v :: items =>
      if negb (isStringKey k) then pairs allowed diags items
      else
        let child := childPath path (n_Value k) in
        if negb (bool_decide (n_Value k ∈ allowed)) then
          pairs allowed (diags ++ nodeDiag "unknown-field" child k "unknown field") items
        else
          let diags := diags ++ inspectKnownFields v child in
          if full diags then capDiagnostics diags else pairs allowed diags items
    | _ => capDiagnostics diags
    end in
  let children := fix children (itemPath : string) (diags : Diagnostics) (items : list Node) {struct items} : Diagnostics :=
    match items with
    | c :: items =>
      let diags := diags ++ inspectKnownFields c itemPath in
      if full diags then capDiagnostics diags else children itemPath diags items
    | [] => capDiagnostics diags
    end in
  match n_Kind n with
  | MappingNode => match allowedFieldsForPath path with Some allowed => pairs allowed [] (n_Content n) | None => [] end
  | SequenceNode => match sequenceItemPath path with Some item => children item [] (n_Content n) | None => [] end
  | _ => []
  end.

(** ** Decoding *)

Definition isNullNode (n : option Node) : bool :=
  match n with Some n => (n_Kind n == ScalarNode) && (n_Tag n == "!!null"%string) | None => false end.

Fixpoint mappingPairs (path : string) (allowed : list string) (out : gmap string Node) (diags : Diagnostics)
    (items : list Node) : gmap string Node * Diagnostics :=
  match items with
  | k :: v :: items =>
    if negb (isStringKey k) then
      mappingPairs path allowed out (diags ++ unsupportedNode path k "mapping keys must be scalar strings") items
    else if negb (bool_decide (n_Value k ∈ allowed)) then
      mappingPairs path allowed out (diags ++ nodeDiag "unknown-field" (childPath path (n_Value k)) k "unknown field") items
    else mappingPairs path allowed (<[n_Value k := v]> out) diags items
  | _ => (out, capDiagnostics diags)
  end.
Definition mappingFields (n : Node) (path : string) (allowed : list string) : gmap string Node * Diagnostics :=
  if n_Kind n == MappingNode then mappingPairs path allowed ∅ [] (n_Content n) else (∅, []).

Definition presence (n : option Node) : Presence :=
  match n with
  | None => mkPresence false false 0 0
  | Some m => mkPresence true (isNullNode n) (n_Line m) (n_Column m)
  end.

Definition stringField (n : option Node) : StringValue :=
  match n with
  | None => mkStringValue false false "" 0 0
  | Some m =>
    mkStringValue true (isNullNode n) (if negb (isNullNode n) && (n_Kind m == ScalarNode) then n_Value m else "")
      (n_Line m) (n_Column m)
  end.

Definition intField (n : option Node) : IntValue :=
  match n with
  | None => mkIntValue false false 0 0 0
  | Some m =>
    mkIntValue true (isNullNode n)
      (if negb (isNullNode n) && (n_Kind m == ScalarNode) then default 0 (parse_int64 (n_Value m)) else 0)
      (n_Line m) (n_Column m)
  end.

Definition sequencePresence : option Node → Presence := presence.

(** The fields of a mapping; a missing, null or other node has none. *)
Definition fieldsOf (n : option Node) (path : string) (allowed : list string) (key : string) : option Node :=
  match n with
  | Some m => if isNullNode n then None else (mappingFields m path allowed).1 !! key
  | None => None
  end.

(** [for _, item := range n.Content] when [n] is a sequence. *)
Definition sequenceItems (n : option Node) : list Node :=
  match n with Some m => if n_Kind m == SequenceNode then n_Content m else [] | None => [] end.

Definition decodeMetadata (n : option Node) : Metadata :=
  mkMetadata (presence n) (stringField (fieldsOf n "metadata" ["name"%string] "name")).

Definition decodeEnvironment (n : option Node) : Environment :=
  let f := fieldsOf n "spec.environment" ["image"; "workdir"]%string in
  mkEnvironment (presence n) (stringField (f "image"%string)) (stringField (f "workdir"%string)).

Definition decodeResources (n : option Node) : Resources :=
  let f := fieldsOf n "spec.resources" ["cpu"; "memory"; "disk"; "processes"; "timeout"]%string in
  mkResources (presence n) (intField (f "cpu"%string)) (stringField (f "memory"%string)) (stringField (f "disk"%string))
    (intField (f "processes"%string)) (stringField (f "timeout"%string)).

Definition decodeNetwork (n : option Node) : Network :=
  let f := fieldsOf n "spec.network" ["mode"; "allow"]%string in
  let allow := f "allow"%string in
  mkNetwork (presence n) (stringField (f "mode"%string)) (sequencePresence allow)
    (Z.of_nat (length (sequenceItems allow))).

Definition decodeScenario (n : Node) : Scenario :=
  let f := fieldsOf (Some n) "spec.scenarios[]" ["id"; "name"; "shell"; "run"; "timeout"]%string in
  mkScenario (n_Line n) (n_Column n) (isNullNode (Some n)) (stringField (f "id"%string)) (stringField (f "name"%string))
    (stringField (f "shell"%string)) (stringField (f "run"%string)) (stringField (f "timeout"%string)).

Definition decodeFilesystem (n : option Node) : FilesystemCollect :=
  let f := fieldsOf n "spec.collect.filesystem" ["roots"; "contents"]%string in
  let roots := f "roots"%string in
  mkFilesystemCollect (presence n) (presence roots) (stringField ∘ Some <$> sequenceItems roots)
    (stringField (f "contents"%string)).

Definition decodeArtifact (n : Node) : ArtifactCollect :=
  let f := fieldsOf (Some n) "spec.collect.artifacts[]" ["path"; "maxBytes"]%string in
  mkArtifactCollect (n_Line n) (n_Column n) (isNullNode (Some n)) (stringField (f "path"%string))
    (stringField (f "maxBytes"%string)).

Definition decodeLogs (n : option Node) : LogsCollect :=
  mkLogsCollect (presence n)
    (stringField (fieldsOf n "spec.collect.logs" ["maxBytesPerStream"%string] "maxBytesPerStream")).

Definition decodeCollect (n : option Node) : Collect :=
  let f := fieldsOf n "spec.collect" ["filesystem"; "artifacts"; "logs"]%string in
  let artifacts := f "artifacts"%string in
  mkCollect (presence n) (decodeFilesystem (f "filesystem"%string)) (presence artifacts)
    (decodeArtifact <$> sequenceItems artifacts) (decodeLogs (f "logs"%string)).

Definition decodeIgnoreField (n : Node) : IgnoreField :=
  mkIgnoreField (n_Line n) (n_Column n) (isNullNode (Some n))
    (stringField (fieldsOf (Some n) "spec.compare.ignore[]" ["field"%string] "field")).

Definition decodeCompare (n : option Node) : CompareConfig :=
  let f := fieldsOf n "spec.compare" ["ignore"; "repetitions"]%string in
  let ignore := f "ignore"%string in
  mkCompareConfig (presence n) (presence ignore) (decodeIgnoreField <$> sequenceItems ignore)
    (intField (f "repetitions"%string)).

Definition decodePolicy (n : option Node) : PolicyConfig :=
  mkPolicyConfig (presence n) (stringField (fieldsOf n "spec.policy" ["profile"%string] "profile")).

Definition decodeSpec (n : option Node) : Spec :=
  let f := fieldsOf n "spec" ["environment"; "resources"; "network"; "scenarios"; "collect"; "compare"; "policy"]%string in
  let scenarios := f "scenarios"%string in
  mkSpec (presence n) (decodeEnvironment (f "environment"%string)) (decodeResources (f "resources"%string))
    (decodeNetwork (f "network"%string)) (presence scenarios) (decodeScenario <$> sequenceItems scenarios)
    (decodeCollect (f "collect"%string)) (decodeCompare (f "compare"%string)) (decodePolicy (f "policy"%string)).

Definition decodeDocument (n : Node) : result Diagnostics Document :=
  let '(fields, diags) := mappingFields n "" ["apiVersion"; "kind"; "metadata"; "spec"]%string in
  match diags with
  | [] => Ok (mkDocument (stringField (fields !! "apiVersion"%string)) (stringField (fields !! "kind"%string))
                (decodeMetadata (fields !! "metadata"%string)) (decodeSpec (fields !! "spec"%string)))
  | _ => Err diags
  end.

(** [if len(diags) > 0 { return Document{}, capDiagnostics(diags) }] *)
Definition reject_diags (diags : Diagnostics) : result Diagnostics unit :=
  match diags with [] => Ok () | _ => Err (capDiagnostics diags) end.

Definition Parse (yaml_load : YamlLoad) (data : bytes) : result Diagnostics Document :=
  reject_diags (preflightInput data) ;;
  n ← loadSingleDocumentNode yaml_load data;
  match n with
  | None => Err (syntaxDiag "yaml-syntax" 0 0 "input must contain one non-empty YAML document")
  | Some n =>
    reject_diags (inspectYAMLNode n "" 1 0).1 ;;
    reject_diags (inspectKnownFields n "") ;;
    match decodeDocument n with Ok doc => Ok doc | Err diags => Err (capDiagnostics diags) end
  end.
