(* ===== verification/ConfigValidate.v ===== *)
(** * Validation of a pipeline document ([internal/config/validate.go], [units.go], [path.go])

    Every check appends its diagnostic and goes on; what a check accepts enters
    the validated pipeline.  A [validateX] here returns the diagnostics and the
    part of the pipeline the Go function writes. *)

From stdpp Require Import prelude gmap strings.
From Stdlib Require Import ZArith Lia Ascii.
From S2P Require Import Prelude GoStd GoTime Model Json GoText GoPath Yaml Config ConfigParse.
Local Open Scope Z_scope.

Definition APIVersionV1Alpha1 : string := "glassroot.dev/v1alpha1".
Definition KindPipeline : string := "Pipeline".

Definition MaxPathBytes : Z := 4096.
Definition MaxImageBytes : Z := 512.
Definition MaxIdentifierBytes : Z := 64.
Definition MaxScenarioNameBytes : Z := 256.
Definition MinCPU : Z := 1.
Definition MaxCPU : Z := 64.
Definition MinMemoryBytes : Z := 16 * 1024 * 1024.
Definition MaxMemoryBytes : Z := 1 * 1024 * 1024 * 1024 * 1024.
Definition MinDiskBytes : Z := 16 * 1024 * 1024.
Definition MaxDiskBytes : Z := 16 * 1024 * 1024 * 1024 * 1024.
Definition MinProcessCount : Z := 1.
Definition MaxProcessCount : Z := 65535.
Definition MinTimeoutMillis : Z := 100.
Definition MaxTimeoutMillis : Z := 24 * 60 * 60 * 1000.
Definition MinArtifactBytes : Z := 1.
Definition MaxArtifactBytes : Z := 1 * 1024 * 1024 * 1024.
Definition MinLogBytesPerStream : Z := 1.
Definition MaxLogBytesPerStream : Z := 100 * 1024 * 1024.
Definition MinRepetitions : Z := 1.
Definition MaxRepetitions : Z := 10.
Definition MinScenarioCount : Z := 1.
Definition MaxScenarioCount : Z := 64.
Definition MaxFilesystemRootCount : Z := 16.
Definition MaxArtifactCount : Z := 64.
Definition MaxCompareIgnoreCount : Z := 32.

Definition CompareIgnoreEventTimestamp : string := "event.timestamp".
Definition CompareIgnoreProcessPID : string := "process.pid".
Definition ShellBinSH : string := "/bin/sh".
Definition ShellBinBash : string := "/bin/bash".
Definition ShellUsrBinBash : string := "/usr/bin/bash".

(** ** [units.go] *)

Definition MaxInt64 : Z := 2 ^ 63 - 1.

(** [strings.CutSuffix] *)
Definition cut_suffix (suffix s : bytes) : option bytes :=
  let n := (length s - length suffix)%nat in
  if bool_decide (drop n s = suffix ∧ length suffix <= length s)%nat then Some (take n s) else None.

(** [strconv.ParseUint(num, 10, 63)] on decimal digits *)
Definition parse_uint63 (num : bytes) : option Z := v ← decimal num; if v <? 2 ^ 63 then Some v else None.

Definition parsePositiveUnitNumber (num : bytes) (multiplier : Z) : option Z :=
  if bool_decide (num = []) then None
  else
    v ← parse_uint63 num;
    if v == 0 then None
    else if MaxInt64 / multiplier <? v then None
    else Some (v * multiplier).

Fixpoint parseUnit (units : list (string * Z)) (s : bytes) : option Z :=
  match units with
  | [] => None
  | (suffix, mult) :: units =>
    match cut_suffix (to_bytes suffix) s with
    | Some num => parsePositiveUnitNumber num mult
    | None => parseUnit units s
    end
  end.

Definition sizeUnits : list (string * Z) :=
  [("TiB", 1024 * 1024 * 1024 * 1024); ("GiB", 1024 * 1024 * 1024); ("MiB", 1024 * 1024); ("KiB", 1024); ("B", 1)]%string.
Definition durationUnits : list (string * Z) :=
  [("ms", 1); ("s", 1000); ("m", 60 * 1000); ("h", 60 * 60 * 1000)]%string.

Definition ParseSizeBytes (s : string) : option Z := parseUnit sizeUnits (to_bytes s).
Definition ParseDurationMillis (s : string) : option Z := parseUnit durationUnits (to_bytes s).

(** ** [path.go] ([true] is a valid path) *)

Definition validatePathString (p : string) : bool :=
  negb ((p == ""%string) || (MaxPathBytes <? str_len p) || negb (utf8_valid (to_bytes p)))
  && forallb (λ r, negb (is_control r)) (rune_values p).

Definition validateAbsoluteLexicalPath (p : string) : bool :=
  validatePathString p && has_prefix "/" p && negb (contains "\" p)
  && bool_decide (path_clean (to_bytes p) = to_bytes p)
  && forallb (λ seg, negb (bool_decide (seg = to_bytes "." ∨ seg = to_bytes ".."))) (split_on slash (to_bytes p)).

Definition validateArtifactGlob (p : string) : bool :=
  validatePathString p && has_prefix "/" p && negb (contains "\" p)
  && forallb (λ seg, negb (bool_decide (seg = to_bytes ".."))) (split_on slash (to_bytes p))
  && match path_match (to_bytes p) [slash] with Ok _ => true | Err _ => false end.

(** ** [validate.go]: values *)

Definition missingString (v : StringValue) : bool := negb (sv_Present v) || sv_Null v || (sv_Value v == ""%string).
Definition missingInt (v : IntValue) : bool := negb (iv_Present v) || iv_Null v.
Definition absent (p : Presence) : bool := negb (pr_Present p) || pr_Null p.

Definition diagForString (code path : string) (v : StringValue) (msg : string) : Diagnostics :=
  [newDiagnostic code path (sv_Line v) (sv_Column v) msg].
Definition missingDiag (path : string) (v : StringValue) (msg : string) : Diagnostics :=
  diagForString "missing-required-field" path v msg.
Definition diagForInt (code path : string) (v : IntValue) (msg : string) : Diagnostics :=
  [newDiagnostic code path (iv_Line v) (iv_Column v) msg].
Definition missingIntDiag (path : string) (v : IntValue) (msg : string) : Diagnostics :=
  diagForInt "missing-required-field" path v msg.
Definition diagForPresence (code path : string) (p : Presence) (msg : string) : Diagnostics :=
  [newDiagnostic code path (pr_Line p) (pr_Column p) msg].
Definition missingPresence (path : string) (p : Presence) (msg : string) : Diagnostics :=
  diagForPresence "missing-required-field" path p msg.

(** [^[a-z][a-z0-9._-]{0,63}$] *)
Definition validateIdentifier (s : string) : bool :=
  match to_bytes s with
  | [] => false
  | c :: b => (str_len s <=? MaxIdentifierBytes) && (97 <=? byte_val c) && (byte_val c <=? 122)
              && forallb (λ c, let v := byte_val c in
                   ((97 <=? v) && (v <=? 122)) || ((48 <=? v) && (v <=? 57)) || bool_decide (v ∈ [46; 95; 45])) b
  end.

(** [None] when the name is valid, else the message. *)
Definition validateScenarioName (s : string) : option string :=
  if (s == ""%string) || (MaxScenarioNameBytes <? str_len s) || negb (utf8_valid (to_bytes s))
  then Some "scenario name length is invalid"%string
  else if existsb is_control (rune_values s) then Some "scenario name must not contain control characters"%string
  else None.

(** What follows the last occurrence of [sep] ([strings.LastIndex]). *)
Fixpoint after_last (sep s : bytes) : option bytes :=
  match s with
  | [] => None
  | _ :: rest =>
    match after_last sep rest with
    | Some t => Some t
    | None => if bool_decide (take (length sep) s = sep) then Some (drop (length sep) s) else None
    end
  end.

Definition validateImmutableImage (image : string) : result string string :=
  let bad_digest := "sha256 digest must contain exactly 64 lowercase hex characters"%string in
  reject_if ((image == ""%string) || (MaxImageBytes <? str_len image) || contains "://" image
             || contains "REPLACE_WITH_REAL_DIGEST" image)
    "image must be a non-empty immutable reference with @sha256 digest"%string ;;
  reject_if (existsb (λ r, (r <=? 32) || bool_decide (r = 127)) (rune_values image))
    "image must not contain whitespace or control characters"%string ;;
  match after_last (to_bytes "@sha256:") (to_bytes image) with
  | None => Err "image must include @sha256 digest"%string
  | Some d =>
    reject_if (negb (bool_decide (length d = 64%nat))) bad_digest ;;
    reject_if (negb (forallb (λ c, is_lower_hex_digit (byte_val c)) d)) bad_digest ;;
    mret (of_bytes d)
  end.

Definition isAllowedShell (shell : string) : bool := bool_decide (shell ∈ [ShellBinSH; ShellBinBash; ShellUsrBinBash]).

Definition validateRun (run : string) : option string :=
  if run == ""%string then Some "run must be non-empty"%string
  else if MaxRunBytes <? str_len run then Some ("run must not exceed " +:+ fmt_d MaxRunBytes +:+ " bytes")
  else if has_byte (byte_of 0) (to_bytes run) then Some "run must not contain NUL bytes"%string
  else None.

Definition validateSizeField (path : string) (field : StringValue) (min max : Z) : Diagnostics * Z :=
  if missingString field then (missingDiag path field (path +:+ " is required"), 0)
  else match ParseSizeBytes (sv_Value field) with
       | None => (diagForString "invalid-unit" path field
                    "size must use a positive integer and one of B, KiB, MiB, GiB, TiB", 0)
       | Some v => if (v <? min) || (max <? v)
                   then (diagForString "out-of-range" path field
                           ("size must be between " +:+ fmt_d min +:+ " and " +:+ fmt_d max +:+ " bytes"), v)
                   else ([], v)
       end.

Definition validateDurationField (path : string) (field : StringValue) (min max : Z) : Diagnostics * Z :=
  if missingString field then (missingDiag path field (path +:+ " is required"), 0)
  else match ParseDurationMillis (sv_Value field) with
       | None => (diagForString "invalid-unit" path field
                    "duration must use a positive integer and one of ms, s, m, h", 0)
       | Some v => if (v <? min) || (max <? v)
                   then (diagForString "out-of-range" path field
                           ("duration must be between " +:+ fmt_d min +:+ " and " +:+ fmt_d max +:+ " milliseconds"), v)
                   else ([], v)
       end.

(** A required integer within a range. *)
Definition validateIntField (path required name : string) (field : IntValue) (min max : Z) : Diagnostics * Z :=
  if missingInt field then (missingIntDiag path field (required +:+ " is required"), 0)
  else if (iv_Value field <? min) || (max <? iv_Value field)
  then (diagForInt "out-of-range" path field (name +:+ " must be between " +:+ fmt_d min +:+ " and " +:+ fmt_d max), 0)
  else ([], iv_Value field).

(** ** [validate.go]: sections *)

(** A required string that must pass a test: its diagnostics, and the value it contributes. *)
Definition checkString (path required : string) (v : StringValue) (code msg : string) (ok : bool) : Diagnostics * string :=
  if missingString v then (missingDiag path v required, ""%string)
  else if negb ok then (diagForString code path v msg, ""%string)
  else ([], sv_Value v).

(** A required string tested by a function that returns an error text. *)
Definition checkText (path required : string) (v : StringValue) (test : string → option string) : Diagnostics * string :=
  if missingString v then (missingDiag path v required, ""%string)
  else match test (sv_Value v) with
       | Some msg => (diagForString "invalid-value" path v msg, ""%string)
       | None => ([], sv_Value v)
       end.

(** The image, its digest and the working directory. *)
Definition validateEnvironment (env : Environment) : Diagnostics * (string * string * string) :=
  if absent (en_Presence env) then
    (missingPresence "spec.environment" (en_Presence env) "spec.environment is required", ("", "", ""))%string
  else
    let image := en_Image env in
    let '(d1, img, dig) :=
      if missingString image then (missingDiag "spec.environment.image" image "environment image is required", "", "")%string
      else match validateImmutableImage (sv_Value image) with
           | Err msg => (diagForString "invalid-value" "spec.environment.image" image msg, "", "")%string
           | Ok digest => ([], sv_Value image, digest)
           end in
    let '(d2, workdir) := checkString "spec.environment.workdir" "workdir is required" (en_Workdir env) "invalid-path"
                            "workdir must be an absolute clean POSIX path"
                            (validateAbsoluteLexicalPath (sv_Value (en_Workdir env))) in
    (d1 ++ d2, (img, dig, workdir)).

Definition validateResources (res : Resources) : Diagnostics * ValidatedResources :=
  if absent (rs_Presence res) then
    (missingPresence "spec.resources" (rs_Presence res) "spec.resources is required", mkValidatedResources 0 0 0 0 0)
  else
    let '(d1, cpu) := validateIntField "spec.resources.cpu" "cpu" "cpu" (rs_CPU res) MinCPU MaxCPU in
    let '(d2, memory) := validateSizeField "spec.resources.memory" (rs_Memory res) MinMemoryBytes MaxMemoryBytes in
    let '(d3, disk) := validateSizeField "spec.resources.disk" (rs_Disk res) MinDiskBytes MaxDiskBytes in
    let '(d4, processes) := validateIntField "spec.resources.processes" "processes" "processes" (rs_Processes res)
                              MinProcessCount MaxProcessCount in
    let '(d5, timeout) := validateDurationField "spec.resources.timeout" (rs_Timeout res) MinTimeoutMillis MaxTimeoutMillis in
    (d1 ++ d2 ++ d3 ++ d4 ++ d5, mkValidatedResources cpu memory disk processes timeout).

Definition validateNetwork (network : Network) : Diagnostics * ValidatedNetwork :=
  if absent (nw_Presence network) then
    (missingPresence "spec.network" (nw_Presence network) "spec.network is required", mkValidatedNetwork "" [])
  else
    let '(d1, mode) := checkString "spec.network.mode" "network.mode is required" (nw_Mode network) "invalid-value"
                         "only deny networking is supported in v1alpha1" (sv_Value (nw_Mode network) == NetworkModeDeny) in
    let d2 := if absent (nw_Allow network) then
                missingPresence "spec.network.allow" (nw_Allow network) "network.allow must be an explicit empty array"
              else if nw_AllowLen network != 0 then
                diagForPresence "invalid-value" "spec.network.allow" (nw_Allow network) "network.allow must be empty for deny mode"
              else [] in
    (d1 ++ d2, mkValidatedNetwork mode []).

(** Loop state: the position, the ids seen, the diagnostics and the accepted items. *)
Record vstate (A : Type) := mkVstate { vt_index : Z; vt_seen : gset string; vt_diags : Diagnostics; vt_items : list A }.
Arguments mkVstate {A}. Arguments vt_index {A}. Arguments vt_seen {A}. Arguments vt_diags {A}. Arguments vt_items {A}.
Definition vinit {A} : vstate A := mkVstate 0 ∅ [] [].
Definition vskip {A} (s : vstate A) (diags : Diagnostics) : vstate A :=
  mkVstate (vt_index s + 1) (vt_seen s) (vt_diags s ++ diags) (vt_items s).
Definition vkeep {A} (s : vstate A) (seen : gset string) (diags : Diagnostics) (item : A) : vstate A :=
  mkVstate (vt_index s + 1) seen (vt_diags s ++ diags) (vt_items s ++ [item]).
Definition itemPath (path : string) (i : Z) : string := path +:+ "[" +:+ fmt_d i +:+ "]".

Definition validateScenario (globalTimeout : Z) (s : vstate ValidatedScenario) (sc : Scenario) : vstate ValidatedScenario :=
  let path := itemPath "spec.scenarios" (vt_index s) in
  if sc_Null sc then
    vskip s [newDiagnostic "missing-required-field" path (sc_Line sc) (sc_Column sc) "scenario must be an object"]
  else
    let id := sc_ID sc in
    let '(d1, vid, seen) :=
      if missingString id then (missingDiag (path +:+ ".id") id "scenario id is required", ""%string, vt_seen s)
      else if negb (validateIdentifier (sv_Value id)) then
        (diagForString "invalid-value" (path +:+ ".id") id "scenario id must match ^[a-z][a-z0-9._-]{0,63}$", ""%string, vt_seen s)
      else if bool_decide (sv_Value id ∈ vt_seen s) then
        (diagForString "duplicate-scenario-id" (path +:+ ".id") id "scenario ids must be unique", ""%string, vt_seen s)
      else ([], sv_Value id, {[ sv_Value id ]} ∪ vt_seen s) in
    let '(d2, name) := checkText (path +:+ ".name") "scenario name is required" (sc_Name sc) validateScenarioName in
    let '(d3, shell) := checkString (path +:+ ".shell") "scenario shell is required" (sc_Shell sc) "invalid-value"
                          "shell must be /bin/sh, /bin/bash, or /usr/bin/bash without arguments"
                          (isAllowedShell (sv_Value (sc_Shell sc))) in
    let run := sc_Run sc in
    let '(d4, vrun) :=
      if negb (sv_Present run) || sv_Null run then (missingDiag (path +:+ ".run") run "scenario run is required", ""%string)
      else match validateRun (sv_Value run) with
           | Some msg =>
             (diagForString (if MaxRunBytes <? str_len (sv_Value run) then "out-of-range" else "invalid-value")
                (path +:+ ".run") run msg, ""%string)
           | None => ([], sv_Value run)
           end in
    let '(d5, timeout) := validateDurationField (path +:+ ".timeout") (sc_Timeout sc) MinTimeoutMillis MaxTimeoutMillis in
    let d6 := if bool_decide (d5 = []) && (0 <? globalTimeout) && (globalTimeout <? timeout) then
                diagForString "cross-field-constraint" (path +:+ ".timeout") (sc_Timeout sc)
                  "scenario timeout must not exceed global timeout" else [] in
    vkeep s seen (d1 ++ d2 ++ d3 ++ d4 ++ d5 ++ d6) (mkValidatedScenario vid name shell vrun timeout).

Definition validateScenarios (spec : Spec) (globalTimeout : Z) : Diagnostics * list ValidatedScenario :=
  let p := sp_ScenariosPresence spec in
  if absent p then (missingPresence "spec.scenarios" p "spec.scenarios is required", [])
  else
    let n := Z.of_nat (length (sp_Scenarios spec)) in
    let d1 := if n <? MinScenarioCount then diagForPresence "out-of-range" "spec.scenarios" p "at least one scenario is required" else [] in
    let d2 := if MaxScenarioCount <? n then
                diagForPresence "out-of-range" "spec.scenarios" p ("scenarios must not exceed " +:+ fmt_d MaxScenarioCount) else [] in
    let s := foldl (validateScenario globalTimeout) vinit (sp_Scenarios spec) in
    (d1 ++ d2 ++ vt_diags s, vt_items s).

Definition validateRoot (s : vstate string) (root : StringValue) : vstate string :=
  let p := itemPath "spec.collect.filesystem.roots" (vt_index s) in
  if missingString root then vskip s (missingDiag p root "filesystem root must be a path")
  else if negb (validateAbsoluteLexicalPath (sv_Value root)) then
    vskip s (diagForString "invalid-path" p root "filesystem root must be an absolute clean POSIX path")
  else if bool_decide (sv_Value root ∈ vt_seen s) then
    vskip s (diagForString "invalid-path" p root "filesystem roots must not contain duplicates")
  else vkeep s ({[ sv_Value root ]} ∪ vt_seen s) [] (sv_Value root).

Definition validateFilesystem (fs : FilesystemCollect) : Diagnostics * (list string * string) :=
  if absent (fc_Presence fs) then
    (missingPresence "spec.collect.filesystem" (fc_Presence fs) "collect.filesystem is required", ([], ""%string))
  else
    let p := fc_RootsPresence fs in
    let '(d1, roots) :=
      if absent p then (missingPresence "spec.collect.filesystem.roots" p "filesystem roots are required", [])
      else
        let s := foldl validateRoot vinit (fc_Roots fs) in
        ((if MaxFilesystemRootCount <? Z.of_nat (length (fc_Roots fs)) then
            diagForPresence "out-of-range" "spec.collect.filesystem.roots" p
              ("filesystem roots must not exceed " +:+ fmt_d MaxFilesystemRootCount) else []) ++ vt_diags s, vt_items s) in
    let '(d2, contents) := checkString "spec.collect.filesystem.contents" "filesystem contents mode is required"
                             (fc_Contents fs) "invalid-value" "only metadata-and-digests is supported"
                             (sv_Value (fc_Contents fs) == FilesystemContentsMetadata) in
    (d1 ++ d2, (roots, contents)).

Definition validateArtifact (s : vstate ValidatedArtifact) (a : ArtifactCollect) : vstate ValidatedArtifact :=
  let p := itemPath "spec.collect.artifacts" (vt_index s) in
  if ac_Null a then vskip s [newDiagnostic "missing-required-field" p (ac_Line a) (ac_Column a) "artifact entry must be an object"]
  else
    let path := ac_Path a in
    let '(d1, seen) :=
      if missingString path then (missingDiag (p +:+ ".path") path "artifact path is required", vt_seen s)
      else if negb (validateArtifactGlob (sv_Value path)) then
        (diagForString "invalid-path" (p +:+ ".path") path "artifact path must be an absolute supported POSIX glob", vt_seen s)
      else if bool_decide (sv_Value path ∈ vt_seen s) then
        (diagForString "invalid-path" (p +:+ ".path") path "artifact paths must not contain duplicates", vt_seen s)
      else ([], {[ sv_Value path ]} ∪ vt_seen s) in
    let '(d2, maxBytes) := validateSizeField (p +:+ ".maxBytes") (ac_MaxBytes a) MinArtifactBytes MaxArtifactBytes in
    vkeep s seen (d1 ++ d2) (mkValidatedArtifact (sv_Value path) maxBytes).

Definition validateCollect (collect : Collect) : Diagnostics * ValidatedCollect :=
  if absent (co_Presence collect) then
    (missingPresence "spec.collect" (co_Presence collect) "spec.collect is required", mkValidatedCollect [] "" [] 0)
  else
    let '(d1, (roots, contents)) := validateFilesystem (co_Filesystem collect) in
    let p := co_ArtifactsPresence collect in
    let '(d2, artifacts) :=
      if absent p then (missingPresence "spec.collect.artifacts" p "collect.artifacts is required", [])
      else
        let s := foldl validateArtifact vinit (co_Artifacts collect) in
        ((if MaxArtifactCount <? Z.of_nat (length (co_Artifacts collect)) then
            diagForPresence "out-of-range" "spec.collect.artifacts" p
              ("artifacts must not exceed " +:+ fmt_d MaxArtifactCount) else []) ++ vt_diags s, vt_items s) in
    let logs := co_Logs collect in
    let '(d3, maxBytes) :=
      if absent (lc_Presence logs) then
        (missingPresence "spec.collect.logs" (lc_Presence logs) "collect.logs is required", 0)
      else validateSizeField "spec.collect.logs.maxBytesPerStream" (lc_MaxBytesPerStream logs)
             MinLogBytesPerStream MaxLogBytesPerStream in
    (d1 ++ d2 ++ d3, mkValidatedCollect roots contents artifacts maxBytes).

Definition validateIgnore (s : vstate string) (ig : IgnoreField) : vstate string :=
  let p := itemPath "spec.compare.ignore" (vt_index s) +:+ ".field" in
  let field := ig_Field ig in
  if ig_Null ig || missingString field then
    vskip s [newDiagnostic "missing-required-field" p (ig_Line ig) (ig_Column ig) "ignore field is required"]
  else if (sv_Value field != CompareIgnoreEventTimestamp) && (sv_Value field != CompareIgnoreProcessPID) then
    vskip s (diagForString "invalid-value" p field "unsupported compare ignore field")
  else if bool_decide (sv_Value field ∈ vt_seen s) then
    vskip s (diagForString "invalid-value" p field "compare ignore fields must not contain duplicates")
  else vkeep s ({[ sv_Value field ]} ∪ vt_seen s) [] (sv_Value field).

Definition validateCompare (compare : CompareConfig) : Diagnostics * ValidatedCompare :=
  if absent (cf_Presence compare) then
    (missingPresence "spec.compare" (cf_Presence compare) "spec.compare is required", mkValidatedCompare [] 0)
  else
    let p := cf_IgnorePresence compare in
    let '(d1, ignore) :=
      if absent p then (missingPresence "spec.compare.ignore" p "compare.ignore is required", [])
      else
        let s := foldl validateIgnore vinit (cf_Ignore compare) in
        ((if MaxCompareIgnoreCount <? Z.of_nat (length (cf_Ignore compare)) then
            diagForPresence "out-of-range" "spec.compare.ignore" p
              ("compare ignore entries must not exceed " +:+ fmt_d MaxCompareIgnoreCount) else []) ++ vt_diags s, vt_items s) in
    let '(d2, repetitions) := validateIntField "spec.compare.repetitions" "compare.repetitions" "repetitions"
                                (cf_Repetitions compare) MinRepetitions MaxRepetitions in
    (d1 ++ d2, mkValidatedCompare ignore repetitions).

Definition validatePolicy (policy : PolicyConfig) : Diagnostics * ValidatedPolicy :=
  if absent (pc_Presence policy) then
    (missingPresence "spec.policy" (pc_Presence policy) "spec.policy is required", mkValidatedPolicy "")
  else
    let '(d, profile) := checkString "spec.policy.profile" "policy.profile is required" (pc_Profile policy) "invalid-value"
                           "only strict policy profile is supported" (sv_Value (pc_Profile policy) == PolicyProfileStrict) in
    (d, mkValidatedPolicy profile).

(** The diagnostics of the document's own fields, and the pipeline's name. *)
Definition validateHeader (doc : Document) : Diagnostics * string :=
  let '(d1, _) := checkString "apiVersion" "apiVersion is required" (dc_APIVersion doc) "invalid-api-version"
                    ("apiVersion must be " +:+ APIVersionV1Alpha1) (sv_Value (dc_APIVersion doc) == APIVersionV1Alpha1) in
  let '(d2, _) := checkString "kind" "kind is required" (dc_Kind doc) "invalid-kind" "kind must be Pipeline"
                    (sv_Value (dc_Kind doc) == KindPipeline) in
  let md := dc_Metadata doc in
  let '(d3, name) :=
    if absent (md_Presence md) then (missingPresence "metadata" (md_Presence md) "metadata is required", ""%string)
    else checkString "metadata.name" "metadata.name is required" (md_Name md) "invalid-value"
           "metadata.name must match ^[a-z][a-z0-9._-]{0,63}$" (validateIdentifier (sv_Value (md_Name md))) in
  (d1 ++ d2 ++ d3, name).

Definition Validate (doc : Document) : result Diagnostics ValidatedPipeline :=
  let '(d0, name) := validateHeader doc in
  let spec := dc_Spec doc in
  if absent (sp_Presence spec) then
    Err (capDiagnostics (d0 ++ missingPresence "spec" (sp_Presence spec) "spec is required"))
  else
    let '(d1, (image, digest, workdir)) := validateEnvironment (sp_Environment spec) in
    let '(d2, resources) := validateResources (sp_Resources spec) in
    let '(d3, network) := validateNetwork (sp_Network spec) in
    let '(d4, scenarios) := validateScenarios spec (vr_TimeoutMillis resources) in
    let '(d5, collect) := validateCollect (sp_Collect spec) in
    let '(d6, compare) := validateCompare (sp_Compare spec) in
    let '(d7, policy) := validatePolicy (sp_Policy spec) in
    reject_diags (d0 ++ d1 ++ d2 ++ d3 ++ d4 ++ d5 ++ d6 ++ d7) ;;
    mret (mkValidatedPipeline name image digest workdir resources network scenarios collect compare policy).

Definition ParseAndValidate (yaml_load : YamlLoad) (data : bytes) : result Diagnostics ValidatedPipeline :=
  doc ← Parse yaml_load data; Validate doc.
