(* ===== verification/ConfigTrusted.v ===== *)
(** * The trusted load of a pipeline ([internal/config/trusted.go])

    The effective pipeline is the base revision's; the head's file is only
    assessed.  A base that cannot be used is an error; a head that cannot is a
    state of the assessment. *)

From stdpp Require Import prelude gmap strings.
From Stdlib Require Import ZArith Lia Ascii.
From S2P Require Import Prelude GoStd Sha256 GoTime Model Json GoText Yaml Compare Config ConfigParse ConfigValidate.
Local Open Scope Z_scope.

(** The wrapped cause is dropped. *)
Record TrustedConfigError := mkTrustedConfigError {
  te_Code : string;
  te_Role : string;
  te_Path : string;
  te_EntryKind : EntryKind;
  te_Diagnostics : Diagnostics
}.
Definition TrustedErrorBaseConfigMissing : string := "base-config-missing".
Definition TrustedErrorBaseConfigInvalid : string := "base-config-invalid".
Definition TrustedErrorUnsupportedBaseEntry : string := "unsupported-base-entry".
Definition TrustedErrorBaseReadFailed : string := "base-read-failed".
Definition TrustedErrorHeadInspectionFailed : string := "head-inspection-failed".
Definition TrustedErrorContextCancelled : string := "context-cancelled".

Definition trustedErr (code role : string) : TrustedConfigError := mkTrustedConfigError code role PipelinePath "" [].
Definition invalidBase (diags : Diagnostics) : TrustedConfigError :=
  mkTrustedConfigError TrustedErrorBaseConfigInvalid "base" PipelinePath "" diags.

Definition poll (ctx : Context) (n : nat) (role : string) : result TrustedConfigError unit :=
  match ctx n with None => Ok () | Some _ => Err (trustedErr TrustedErrorContextCancelled role) end.

Definition classifyBaseReadError (e : ReadError) : TrustedConfigError :=
  match e with
  | ErrContext => trustedErr TrustedErrorContextCancelled "base"
  | ErrNotExist => trustedErr TrustedErrorBaseConfigMissing "base"
  | ErrRevisionFileTooLarge => invalidBase (syntaxDiag "input-too-large" 0 0 "base pipeline exceeds byte limit")
  | ErrOther => trustedErr TrustedErrorBaseReadFailed "base"
  end.

Definition zeroCommitRef : CommitRef := mkCommitRef "" "" "" "" "" "" "".
Definition zeroConfigFile : ConfigFileMetadata := mkConfigFileMetadata zeroCommitRef "" "" "" 0 false "".

Definition metadataForFile (revision : CommitRef) (f : RevisionFile) : ConfigFileMetadata :=
  mkConfigFileMetadata revision PipelinePath (rfl_Kind f)
    (match rfl_Data f with Some d => digestBytes d | None => ""%string end)
    (match rfl_Data f with Some d => Z.of_nat (length d) | None => 0 end)
    (rfl_Executable f) (rfl_ObjectID f).

Definition fileData (f : RevisionFile) : bytes := default [] (rfl_Data f).

(** [diagnosticsFromError]: [ParseAndValidate] only returns diagnostics. *)
Definition diagnosticsFromError (diags : Diagnostics) : Diagnostics := capDiagnostics diags.

Section trusted_load.
Context (yaml_load : YamlLoad) (ctx : Context) (ReadFile : RevisionFileSource).

Definition assessHeadFile (baseMeta : ConfigFileMetadata) (baseRaw : bytes) (basePipeline : ValidatedPipeline)
    (head : CommitRef) (f : RevisionFile) : HeadAssessment :=
  let assessed st diags changes := mkHeadAssessment st baseMeta (metadataForFile head f) diags changes in
  if rfl_Kind f != EntryKindRegularFile then assessed HeadStateUnsupportedEntryKind [] []
  else if MaxPipelineBytes <? Z.of_nat (length (fileData f)) then
    assessed HeadStateModifiedInvalid (syntaxDiag "input-too-large" 0 0 "head pipeline exceeds byte limit") []
  else if bool_decide (baseRaw = fileData f) then assessed HeadStateUnchanged [] []
  else match ParseAndValidate yaml_load (fileData f) with
       | Err diags => assessed HeadStateModifiedInvalid (diagnosticsFromError diags) []
       | Ok headPipeline =>
         match ComparePipelines basePipeline headPipeline with
         | [] => assessed HeadStateContentChangedSemanticallyEquivalent [] []
         | changes => assessed HeadStateModifiedValid [] changes
         end
       end.

Definition assessHead (head : CommitRef) (baseMeta : ConfigFileMetadata) (baseRaw : bytes)
    (basePipeline : ValidatedPipeline) : result TrustedConfigError HeadAssessment :=
  poll ctx 2 "head" ;;
  match ReadFile head PipelinePath MaxPipelineBytes with
  | Err ErrNotExist => Ok (mkHeadAssessment HeadStateRemoved baseMeta zeroConfigFile [] [])
  | Err ErrRevisionFileTooLarge =>
      Ok (mkHeadAssessment HeadStateModifiedInvalid baseMeta zeroConfigFile
            (syntaxDiag "input-too-large" 0 0 "head pipeline exceeds byte limit") [])
  | Err ErrContext => Err (trustedErr TrustedErrorContextCancelled "head")
  | Err ErrOther => Err (trustedErr TrustedErrorHeadInspectionFailed "head")
  | Ok f =>
    poll ctx 3 "head" ;;
    mret (assessHeadFile baseMeta baseRaw basePipeline head f)
  end.

(** The base file as far as its pipeline. *)
Definition loadBase (base : CommitRef) : result TrustedConfigError (RevisionFile * ValidatedPipeline) :=
  match ReadFile base PipelinePath MaxPipelineBytes with
  | Err e => Err (classifyBaseReadError e)
  | Ok f =>
    poll ctx 1 "base" ;;
    if rfl_Kind f != EntryKindRegularFile then
      Err (mkTrustedConfigError TrustedErrorUnsupportedBaseEntry "base" PipelinePath (rfl_Kind f) [])
    else if MaxPipelineBytes <? Z.of_nat (length (fileData f)) then
      Err (invalidBase (syntaxDiag "input-too-large" 0 0 "base pipeline exceeds byte limit"))
    else match ParseAndValidate yaml_load (fileData f) with
         | Err diags => Err (invalidBase (diagnosticsFromError diags))
         | Ok p => Ok (f, p)
         end
  end.
End trusted_load.

(** A nil source is [None]. *)
Definition LoadTrusted (yaml_load : YamlLoad) (ctx : Context) (source : option RevisionFileSource) (base head : CommitRef) :
    result TrustedConfigError TrustedLoadResult :=
  poll ctx 0 "base" ;;
  match source with
  | None => Err (trustedErr TrustedErrorBaseReadFailed "base")
  | Some ReadFile =>
    b ← loadBase yaml_load ctx ReadFile base;
    let meta := metadataForFile base b.1 in
    assessment ← assessHead yaml_load ctx ReadFile head meta (fileData b.1) b.2;
    mret (mkTrustedLoadResult base head b.2 (mkEffectiveConfigSource EffectiveSourceBase PipelinePath meta) meta assessment)
  end.
