(* ===== verification/ConfigSpec.v ===== *)
(** * What the pipeline configuration guarantees

    A document that validates is a bounded, well-formed pipeline ([wf_pipeline]);
    units never overflow; the change analysis reports nothing exactly when two
    pipelines are the same; the trusted load takes its pipeline from the base and
    classifies the head by what its file means. *)

From stdpp Require Import prelude gmap strings sorting.
From Stdlib Require Import ZArith Lia Ascii.
From S2P Require Import Prelude GoStd Sha256 GoTime Model Json GoText GoPath Yaml Compare Config ConfigParse ConfigValidate ConfigTrusted.
Local Open Scope Z_scope.

(** ** Units *)

Lemma cut_suffix_Some suffix s num : cut_suffix suffix s = Some num ↔ s = num ++ suffix.
Proof.
  unfold cut_suffix. case_bool_decide as H.
  - destruct H as [H Hl]. split.
    + intros [= <-]. rewrite <- H at 2. by rewrite take_drop.
    + intros ->. rewrite length_app. replace (length num + length suffix - length suffix)%nat with (length num) by lia.
      by rewrite take_app_length.
  - split; [done|]. intros ->. destruct H. rewrite length_app.
    replace (length num + length suffix - length suffix)%nat with (length num) by lia.
    split; [by rewrite drop_app_length|lia].
Qed.

Lemma cut_suffix_None suffix s num : cut_suffix suffix s = None → s <> num ++ suffix.
Proof. intros H E. apply cut_suffix_Some in E. congruence. Qed.

Lemma parsePositiveUnitNumber_Some num mult v : 0 < mult →
  parsePositiveUnitNumber num mult = Some v ↔
  num <> [] ∧ ∃ n, decimal num = Some n ∧ 0 < n ∧ v = n * mult ∧ v <= MaxInt64.
Proof.
  intros Hm. unfold parsePositiveUnitNumber, parse_uint63. case_bool_decide as Hn; [by split; [|intros []]|].
  destruct (decimal num) as [n|] eqn:En; cbn; [|split; [done|]; by intros (_ & ? & ? & _)].
  apply digits_decimal in En as [_ Hr]. assert (n * mult <= MaxInt64 ↔ n <= MaxInt64 / mult) as Hdiv.
  { pose proof (Z.mul_div_le MaxInt64 mult Hm). split; intros H'; [apply Z.div_le_lower_bound; lia|nia]. }
  assert (mult * 1 <= MaxInt64 ∨ MaxInt64 < mult) as Hcase by lia.
  destruct (n <? 2 ^ 63) eqn:E63; cbn; go_bool.
  - case_bool_decide as E0; [split; [done|]; by intros (_ & m & [= <-] & ? & _); lia|].
    destruct (_ <? n) eqn:Ed; go_bool.
    + split; [done|]. intros (_ & m & [= <-] & ? & -> & Hmax). apply Hdiv in Hmax. lia.
    + split; [intros [= <-]; split; [done|]; exists n; split_and!; [done|lia|done|by apply Hdiv]|].
      by intros (_ & m & [= <-] & ? & -> & ?).
  - split; [done|]. intros (_ & m & [= <-] & ? & -> & ?). unfold MaxInt64 in *. nia.
Qed.

Lemma decimal_snoc b c : decimal (b ++ [c]) = (a ← decimal b; d ← digit_value c; Some (a * 10 + d)).
Proof. unfold decimal. by rewrite foldl_app. Qed.

(** Two readings of a text with units: the numbers are decimal, so the longest
    suffix that is a unit is the only one. *)
Definition reads (units : list (string * Z)) (s : string) (v : Z) : Prop :=
  ∃ num suffix mult n, (suffix, mult) ∈ units ∧ to_bytes s = num ++ to_bytes suffix ∧ num <> []
    ∧ decimal num = Some n ∧ 0 < n ∧ v = n * mult ∧ v <= MaxInt64.

Lemma parseUnit_reads units s v : (∀ u, u ∈ units → 0 < u.2) → parseUnit units (to_bytes s) = Some v → reads units s v.
Proof.
  induction units as [|[suffix mult] units IH]; cbn; intros Hpos H; [done|].
  destruct (cut_suffix (to_bytes suffix) (to_bytes s)) as [num|] eqn:Ec.
  - apply cut_suffix_Some in Ec. apply parsePositiveUnitNumber_Some in H as (Hn & n & ? & ? & ? & ?).
    + exists num, suffix, mult, n. split; [apply list_elem_of_here|done].
    + by apply (Hpos (suffix, mult)), list_elem_of_here.
  - destruct IH as (num & sf & m & n & ? & ?); [|done|].
    + intros u Hu. apply Hpos. by apply list_elem_of_further.
    + exists num, sf, m, n. split; [by apply list_elem_of_further|done].
Qed.

(** [u] cannot be cut where [s] follows a decimal number: either it ends in other
    bytes than [s], or what precedes [s] in it does not end in a digit. *)
Definition cannot_cut (u s : bytes) : bool :=
  if bool_decide (length u <= length s)%nat then negb (bool_decide (drop (length s - length u) s = u))
  else negb (bool_decide (drop (length u - length s) u = s))
       || match last (take (length u - length s) u) with Some c => negb (isSome (digit_value c)) | None => false end.

Lemma cut_earlier u s num n : decimal num = Some n → cannot_cut u s = true → cut_suffix u (num ++ s) = None.
Proof.
  intros Hn Hc. destruct (cut_suffix _ _) as [r|] eqn:E; [|done]. apply cut_suffix_Some in E. exfalso.
  unfold cannot_cut in Hc. case_bool_decide as Hl; go_bool.
  - apply app_eq_inv in E as [(k & -> & E)|(k & -> & E)].
    + apply Hc. rewrite E, length_app in Hl |- *. assert (length k = 0)%nat as Hk by lia.
      destruct k; [|done]. cbn. by rewrite Nat.sub_diag.
    + apply Hc. rewrite E, length_app. replace (length k + length u - length u)%nat with (length k) by lia.
      by rewrite drop_app_length.
  - apply app_eq_inv in E as [(k & Ek & E)|(k & -> & E)].
    + rewrite E, length_app in *. replace (length k + length s - length s)%nat with (length k) in Hc by lia.
      rewrite drop_app_length, take_app_length, bool_decide_true in Hc by done. cbn in Hc.
      destruct k as [|c k _] using rev_ind; [done|]. rewrite last_snoc in Hc.
      rewrite Ek, app_assoc, decimal_snoc in Hn. destruct (digit_value c); [done|]. by destruct (decimal _).
    + rewrite E, length_app in Hl. lia.
Qed.

(** Sizes and durations are read exactly and never overflow: a text is
    accepted exactly when it is a decimal number and one of the units whose
    product is positive and fits in 63 bits, and that product is the value. *)
Theorem units_exact s v :
  (ParseSizeBytes s = Some v ↔ reads sizeUnits s v) ∧ (ParseDurationMillis s = Some v ↔ reads durationUnits s v).
Proof.
  assert (∀ u, u ∈ sizeUnits → 0 < u.2) as Hsz by (apply Forall_forall; repeat constructor).
  assert (∀ u, u ∈ durationUnits → 0 < u.2) as Hdu by (apply Forall_forall; repeat constructor).
  split; (split; [by apply parseUnit_reads|]); intros (num & suffix & mult & n & Hu & Hs & Hne & Hn & Hpos & -> & Hmax).
  - assert (parsePositiveUnitNumber num mult = Some (n * mult)) as Hp.
    { apply parsePositiveUnitNumber_Some; [by apply (Hsz (suffix, mult))|eauto 10]. }
    unfold ParseSizeBytes. rewrite Hs. cbn [parseUnit sizeUnits].
    apply list_elem_of_In in Hu. cbn in Hu. destruct_or! Hu; injection Hu as <- <-;
    repeat rewrite (cut_earlier _ _ _ _ Hn) by (vm_compute; reflexivity); by rewrite (proj2 (cut_suffix_Some _ _ num) eq_refl).
  - assert (parsePositiveUnitNumber num mult = Some (n * mult)) as Hp.
    { apply parsePositiveUnitNumber_Some; [by apply (Hdu (suffix, mult))|eauto 10]. }
    unfold ParseDurationMillis. rewrite Hs. cbn [parseUnit durationUnits].
    apply list_elem_of_In in Hu. cbn in Hu. destruct_or! Hu; injection Hu as <- <-;
    repeat rewrite (cut_earlier _ _ _ _ Hn) by (vm_compute; reflexivity); by rewrite (proj2 (cut_suffix_Some _ _ num) eq_refl).
Qed.

(** ** What a validated pipeline is *)

Definition is_lower (c : ascii) : Prop := 97 <= byte_val c <= 122.
Definition is_digit (c : ascii) : Prop := 48 <= byte_val c <= 57.

Definition identifier (s : string) : Prop :=
  ∃ c rest, to_bytes s = c :: rest ∧ is_lower c ∧ str_len s <= 64
    ∧ Forall (λ c, is_lower c ∨ is_digit c ∨ byte_val c = 46 ∨ byte_val c = 95 ∨ byte_val c = 45) rest.

(** An image pinned by its digest: nothing follows the 64 hexadecimal digits. *)
Definition pinned_image (image digest : string) : Prop :=
  ∃ repo, to_bytes image = repo ++ to_bytes "@sha256:" ++ to_bytes digest ∧ str_len image <= 512
    ∧ String.length digest = 64%nat
    ∧ Forall (λ c, is_digit c ∨ 97 <= byte_val c <= 102) (to_bytes digest).

(** An absolute path of plain components. *)
Definition plain_path (p : string) : Prop :=
  p <> ""%string ∧ str_len p <= 4096 ∧
  ∃ segs, to_bytes p = slash :: join_slash segs
    ∧ Forall (λ s, s <> [] ∧ s <> to_bytes "." ∧ s <> to_bytes ".." ∧ slash ∉ s) segs.

(** An absolute pattern that [path.Match] accepts and that cannot climb. *)
Definition plain_pattern (p : string) : Prop :=
  has_prefix "/" p = true ∧ str_len p <= 4096 ∧ (to_bytes ".." ∉ split_on slash (to_bytes p))
    ∧ ∃ b, path_match (to_bytes p) [slash] = Ok b.

Definition in_range (lo v hi : Z) : Prop := lo <= v <= hi.

Record wf_scenario (globalTimeout : Z) (s : ValidatedScenario) : Prop := {
  wfs_id : identifier (vs_ID s);
  wfs_name : vs_Name s <> ""%string ∧ str_len (vs_Name s) <= 256;
  wfs_shell : vs_Shell s ∈ [ShellBinSH; ShellBinBash; ShellUsrBinBash];
  wfs_run : vs_Run s <> ""%string ∧ str_len (vs_Run s) <= 65536;
  wfs_timeout : in_range 100 (vs_TimeoutMillis s) globalTimeout }.

Record wf_resources (r : ValidatedResources) : Prop := {
  wfr_cpu : in_range 1 (vr_CPU r) 64;
  wfr_memory : in_range (2 ^ 24) (vr_MemoryBytes r) (2 ^ 40);
  wfr_disk : in_range (2 ^ 24) (vr_DiskBytes r) (2 ^ 44);
  wfr_processes : in_range 1 (vr_ProcessCount r) 65535;
  wfr_timeout : in_range 100 (vr_TimeoutMillis r) 86400000 }.

Record wf_collect (c : ValidatedCollect) : Prop := {
  wfc_roots : (length (vc_FilesystemRoots c) <= 16)%nat ∧ NoDup (vc_FilesystemRoots c)
              ∧ Forall plain_path (vc_FilesystemRoots c);
  wfc_contents : vc_FilesystemContents c = FilesystemContentsMetadata;
  wfc_artifacts : (length (vc_Artifacts c) <= 64)%nat ∧ NoDup (va_Path <$> vc_Artifacts c)
                  ∧ Forall (λ a, plain_pattern (va_Path a) ∧ in_range 1 (va_MaxBytes a) (2 ^ 30)) (vc_Artifacts c);
  wfc_logs : in_range 1 (vc_LogMaxBytesPerStream c) (100 * 2 ^ 20) }.

Record wf_pipeline (p : ValidatedPipeline) : Prop := {
  wf_name : identifier (vpl_Name p);
  wf_image : pinned_image (vpl_Image p) (vpl_ImageDigest p);
  wf_workdir : plain_path (vpl_Workdir p);
  wf_res : wf_resources (vpl_Resources p);
  wf_network : vpl_Network p = mkValidatedNetwork NetworkModeDeny [];
  wf_scenarios : (1 <= length (vpl_Scenarios p) <= 64)%nat ∧ NoDup (vs_ID <$> vpl_Scenarios p)
                 ∧ Forall (wf_scenario (vr_TimeoutMillis (vpl_Resources p))) (vpl_Scenarios p);
  wf_coll : wf_collect (vpl_Collect p);
  wf_ignore : NoDup (vcm_IgnoreFields (vpl_Compare p))
              ∧ Forall (λ f, f = CompareIgnoreEventTimestamp ∨ f = CompareIgnoreProcessPID) (vcm_IgnoreFields (vpl_Compare p));
  wf_repetitions : in_range 1 (vcm_Repetitions (vpl_Compare p)) 10;
  wf_policy : vpl_Policy p = mkValidatedPolicy PolicyProfileStrict }.

(** *** Values *)

Lemma clean_step_plain rooted stack seg :
  rooted = true → slash ∉ seg →
  Forall (λ s, s <> [] ∧ s <> to_bytes "." ∧ s <> to_bytes ".." ∧ slash ∉ s) stack →
  Forall (λ s, s <> [] ∧ s <> to_bytes "." ∧ s <> to_bytes ".." ∧ slash ∉ s) (clean_step rooted stack seg).
Proof.
  intros -> Hs Hst. unfold clean_step. case_bool_decide as H1; [done|]. case_bool_decide as H2.
  - destruct Hst as [|top below Ht Hb]; [constructor|]. case_bool_decide as H3; [|done]. by destruct Ht as (_ & _ & ? & _).
  - constructor; [|done]. split_and!; [naive_solver..|done|done].
Qed.

Lemma split_on_no_sep c b s : s ∈ split_on c b → c ∉ s.
Proof.
  revert s. induction b as [|x b IH]; cbn; intros s.
  - intros ->%list_elem_of_singleton. apply not_elem_of_nil.
  - case_bool_decide as Hx.
    + intros [->|Hs]%elem_of_cons; [apply not_elem_of_nil|by apply IH].
    + destruct (split_on c b) as [|h t] eqn:E.
      * intros ->%list_elem_of_singleton. apply not_elem_of_cons. split; [congruence|apply not_elem_of_nil].
      * intros [->|Hs]%elem_of_cons.
        -- apply not_elem_of_cons. split; [congruence|]. apply IH, list_elem_of_here.
        -- by apply IH, list_elem_of_further.
Qed.

Lemma has_prefix_slash p : has_prefix "/" p = true → is_rooted (to_bytes p) = true.
Proof. intros [t ->]%has_prefix_spec. done. Qed.

Lemma validatePathString_ok p : validatePathString p = true → p <> ""%string ∧ str_len p <= 4096.
Proof.
  unfold validatePathString. intros [[[H1 H2]%orb_false_iff _]%negb_true_iff%orb_false_iff _]%andb_true_iff. go_bool.
  unfold MaxPathBytes in *. split; [done|lia].
Qed.

Lemma absolute_path_plain p : validateAbsoluteLexicalPath p = true → plain_path p.
Proof.
  unfold validateAbsoluteLexicalPath. intros [[[[Hp Hr]%andb_true_iff _]%andb_true_iff Hc]%andb_true_iff _]%andb_true_iff.
  go_bool. apply validatePathString_ok in Hp as [Hne Hl]. split_and!; [done..|].
  apply has_prefix_slash in Hr. unfold path_clean in Hc. rewrite Hr in Hc.
  eexists. split; [symmetry; exact Hc|]. apply Forall_reverse.
  apply (foldl_invariant (Forall _)); [constructor|]. intros st x Hx Hst.
  apply clean_step_plain; [done|by eapply split_on_no_sep|done].
Qed.

Lemma glob_plain p : validateArtifactGlob p = true → plain_pattern p.
Proof.
  unfold validateArtifactGlob. intros [[[[Hp Hr]%andb_true_iff _]%andb_true_iff Hs]%andb_true_iff Hm]%andb_true_iff.
  apply validatePathString_ok in Hp as [_ Hl]. split_and!; [done..| |].
  - intros Hin. rewrite forallb_forall in Hs. apply list_elem_of_In in Hin. specialize (Hs _ Hin).
    by rewrite bool_decide_true in Hs.
  - destruct (path_match _ _); [eauto|done].
Qed.

Lemma validateIdentifier_ok s : validateIdentifier s = true → identifier s.
Proof.
  unfold validateIdentifier, identifier, is_lower, is_digit. destruct (to_bytes s) as [|c rest]; [done|].
  intros H. go_bool. exists c, rest. split_and!; [done|lia|lia|unfold MaxIdentifierBytes in *; lia|].
  apply Forall_forall. intros x Hx. rewrite forallb_forall in H0. apply list_elem_of_In, H0 in Hx.
  apply orb_true_iff in Hx as [Hx|Hx]; [apply orb_true_iff in Hx as [Hx|Hx]; go_bool; [left; lia|right; left; lia]|].
  go_bool. apply list_elem_of_In in Hx. cbn in Hx. lia.
Qed.

Lemma after_last_Some sep s t : after_last sep s = Some t → ∃ pre, s = pre ++ sep ++ t.
Proof.
  revert t. induction s as [|c s IH]; [done|]. intros t. cbn [after_last].
  destruct (after_last sep s) as [t'|] eqn:E.
  - intros [= <-]. destruct (IH _ eq_refl) as [pre ->]. by exists (c :: pre).
  - case_bool_decide as H; [|done]. intros [= <-]. exists []. cbn [app].
    transitivity (take (length sep) (c :: s) ++ drop (length sep) (c :: s)); [by rewrite take_drop|by rewrite H].
Qed.

Lemma to_of_bytes b : to_bytes (of_bytes b) = b.
Proof. apply String.list_ascii_of_string_of_list_ascii. Qed.

Lemma validateImmutableImage_ok image digest : validateImmutableImage image = Ok digest → pinned_image image digest.
Proof.
  unfold validateImmutableImage. intros H. inv_ok. destruct (after_last _ _) as [d|] eqn:Ed; [|done].
  apply after_last_Some in Ed as [pre Ed]. inv_ok. subst digest. go_bool.
  unfold MaxImageBytes in *. exists pre. rewrite to_of_bytes. split_and!; [done|lia| |].
  - rewrite <- length_to_bytes, to_of_bytes. done.
  - apply Forall_forall. intros c Hc. match goal with Hf : forallb _ _ = true |- _ => rewrite forallb_forall in Hf; apply list_elem_of_In, Hf in Hc end.
    unfold is_lower_hex_digit in Hc. apply orb_true_iff in Hc as [Hc|Hc]; go_bool; [left|right]; unfold is_digit; lia.
Qed.

(** *** Fields and loops: what an empty list of diagnostics says *)

Lemma missingString_false v : missingString v = false → sv_Value v <> ""%string.
Proof. unfold missingString. intros H. by go_bool. Qed.

Lemma checkString_nil path req v code msg ok x :
  checkString path req v code msg ok = ([], x) → ok = true ∧ x = sv_Value v ∧ x <> ""%string.
Proof.
  unfold checkString. destruct (missingString v) eqn:Hm; [done|]. destruct ok; [|done]. cbn. intros [= <-].
  split_and!; [done..|by apply missingString_false].
Qed.

Lemma checkText_nil path req v test x : checkText path req v test = ([], x) → x = sv_Value v ∧ test x = None.
Proof.
  unfold checkText. destruct (missingString v); [done|]. destruct (test _) eqn:Ht; [done|]. by intros [= <-].
Qed.

Lemma validateSizeField_nil path f lo hi x : validateSizeField path f lo hi = ([], x) → in_range lo x hi.
Proof.
  unfold validateSizeField. destruct (missingString f); [done|]. destruct (ParseSizeBytes _); [|done].
  destruct (_ || _) eqn:E; [done|]. intros [= <-]. go_bool. unfold in_range. lia.
Qed.

Lemma validateDurationField_nil path f lo hi x : validateDurationField path f lo hi = ([], x) → in_range lo x hi.
Proof.
  unfold validateDurationField. destruct (missingString f); [done|]. destruct (ParseDurationMillis _); [|done].
  destruct (_ || _) eqn:E; [done|]. intros [= <-]. go_bool. unfold in_range. lia.
Qed.

Lemma validateIntField_nil path req name f lo hi x : validateIntField path req name f lo hi = ([], x) → in_range lo x hi.
Proof.
  unfold validateIntField. destruct (missingInt f); [done|]. destruct (_ || _) eqn:E; [done|]. intros [= <-].
  go_bool. unfold in_range. lia.
Qed.

(** A loop whose body keeps an item, with a new key, whenever it reports nothing. *)
Lemma vfold_nil {A B} (f : vstate A → B → vstate A) (key : A → string) (good : A → Prop) l :
  (∀ s x, vt_diags (f s x) = [] → vt_diags s = [] ∧ ∃ y, vt_items (f s x) = vt_items s ++ [y] ∧ good y
     ∧ key y ∉ vt_seen s ∧ vt_seen (f s x) = {[ key y ]} ∪ vt_seen s) →
  vt_diags (foldl f vinit l) = [] →
  let items := vt_items (foldl f vinit l) in
  length items = length l ∧ NoDup (key <$> items) ∧ Forall good items.
Proof.
  intros Hf. set (ok s := NoDup (key <$> vt_items s) ∧ Forall good (vt_items s)
                         ∧ ∀ k, k ∈ vt_seen s ↔ k ∈ key <$> vt_items s).
  assert (∀ s, (vt_diags s = [] → ok s) → vt_diags (foldl f s l) = [] →
    length (vt_items (foldl f s l)) = (length (vt_items s) + length l)%nat ∧ ok (foldl f s l)) as Hgen.
  - induction l as [|x l IH]; cbn [foldl length]; intros s Hs Hd; [split; [lia|by apply Hs]|].
    assert (∀ l' s', vt_diags (foldl f s' l') = [] → vt_diags s' = []) as Hback.
    { induction l' as [|y l' IH']; cbn [foldl]; intros s' H'; [done|]. apply IH' in H'. by apply (Hf s' y). }
    destruct (Hf s x (Hback _ _ Hd)) as (Hd0 & y & Hy & Hgood & Hnew & Hseen).
    destruct (IH (f s x)) as [Hlen Hok]; [|done|].
    + intros _. destruct (Hs Hd0) as (Hnd & Hfa & Hk). unfold ok. rewrite Hy, Hseen, fmap_app. split_and!.
      * apply NoDup_app. split_and!; [done| |apply NoDup_singleton]. intros k Hk' ->%list_elem_of_singleton.
        by apply Hnew, Hk.
      * apply Forall_app. split; [done|]. by constructor.
      * intros k. rewrite elem_of_union, elem_of_singleton, elem_of_app, Hk. cbn. rewrite list_elem_of_singleton. tauto.
    + split; [|done]. rewrite Hlen, Hy, length_app. cbn. lia.
  - intros Hd. destruct (Hgen vinit) as (Hlen & Hnd & Hfa & _); [|done|done].
    intros _. split_and!; [constructor|constructor|]. intros k. cbn. rewrite elem_of_empty, elem_of_nil. done.
Qed.

(** One loop body that skips with a diagnostic or keeps an item. *)
Lemma vskip_nil {A} (s : vstate A) d : vt_diags (vskip s d) = [] → d = [].
Proof. cbn. by intros [_ ?]%app_nil. Qed.

Lemma vkeep_nil {A} (s : vstate A) seen d (y : A) : vt_diags (vkeep s seen d y) = [] → vt_diags s = [] ∧ d = [].
Proof. cbn. by intros ?%app_nil. Qed.

Lemma validateRoot_nil s x : vt_diags (validateRoot s x) = [] →
  vt_diags s = [] ∧ ∃ y, vt_items (validateRoot s x) = vt_items s ++ [y] ∧ plain_path y
     ∧ id y ∉ vt_seen s ∧ vt_seen (validateRoot s x) = {[ id y ]} ∪ vt_seen s.
Proof.
  unfold validateRoot. destruct (missingString x); [by intros ?%vskip_nil|].
  destruct (validateAbsoluteLexicalPath _) eqn:Hp; cbn [negb]; [|by intros ?%vskip_nil].
  case_bool_decide as Hseen; [by intros ?%vskip_nil|]. intros [Hd _]%vkeep_nil. split; [done|].
  exists (sv_Value x). split_and!; [done|by apply absolute_path_plain|done|done].
Qed.

Lemma validateIgnore_nil s x : vt_diags (validateIgnore s x) = [] →
  vt_diags s = [] ∧ ∃ y, vt_items (validateIgnore s x) = vt_items s ++ [y]
     ∧ (y = CompareIgnoreEventTimestamp ∨ y = CompareIgnoreProcessPID)
     ∧ id y ∉ vt_seen s ∧ vt_seen (validateIgnore s x) = {[ id y ]} ∪ vt_seen s.
Proof.
  unfold validateIgnore. destruct (_ || _); [by intros ?%vskip_nil|].
  destruct (_ && _) eqn:Hf; [by intros ?%vskip_nil|].
  destruct (bool_decide (_ ∈ vt_seen s)) eqn:Hseen; [by intros ?%vskip_nil|]. go_bool. intros [Hd _]%vkeep_nil. split; [done|].
  exists (sv_Value (ig_Field x)). split_and!; [done| |done|done].
  apply andb_false_iff in Hf as [Hf|Hf]; go_bool; auto.
Qed.

Lemma validateArtifact_nil s x : vt_diags (validateArtifact s x) = [] →
  vt_diags s = [] ∧ ∃ y, vt_items (validateArtifact s x) = vt_items s ++ [y]
     ∧ (plain_pattern (va_Path y) ∧ in_range 1 (va_MaxBytes y) (2 ^ 30))
     ∧ va_Path y ∉ vt_seen s ∧ vt_seen (validateArtifact s x) = {[ va_Path y ]} ∪ vt_seen s.
Proof.
  unfold validateArtifact. destruct (ac_Null x); [by intros ?%vskip_nil|].
  destruct (missingString (ac_Path x)); [destruct (validateSizeField _ _ _ _); by intros [_ ?]%vkeep_nil|].
  destruct (validateArtifactGlob _) eqn:Hp; cbn [negb];
    [|destruct (validateSizeField _ _ _ _); by intros [_ ?]%vkeep_nil].
  case_bool_decide as Hseen; [destruct (validateSizeField _ _ _ _); by intros [_ ?]%vkeep_nil|].
  destruct (validateSizeField _ _ _ _) as [d2 mb] eqn:E2. intros [Hd Hd2]%vkeep_nil. cbn in Hd2. subst d2. split; [done|].
  eexists. split_and!; [done|by apply glob_plain|by apply validateSizeField_nil in E2..|done|done].
Qed.

Lemma validateScenario_nil g s x : 100 <= g → vt_diags (validateScenario g s x) = [] →
  vt_diags s = [] ∧ ∃ y, vt_items (validateScenario g s x) = vt_items s ++ [y] ∧ wf_scenario g y
     ∧ vs_ID y ∉ vt_seen s ∧ vt_seen (validateScenario g s x) = {[ vs_ID y ]} ∪ vt_seen s.
Proof.
  intros Hg. unfold validateScenario. destruct (sc_Null x); [by intros ?%vskip_nil|].
  destruct (if missingString (sc_ID x) then _ else _) as [[d1 vid] seen] eqn:E1.
  destruct (checkText _ _ _ _) as [d2 name] eqn:E2. destruct (checkString _ _ _ _ _ _) as [d3 shell] eqn:E3.
  destruct (if negb (sv_Present (sc_Run x)) || _ then _ else _) as [d4 run] eqn:E4.
  destruct (validateDurationField _ _ _ _) as [d5 timeout] eqn:E5.
  intros [Hd (-> & (-> & (-> & (-> & (-> & Hd6)%app_nil)%app_nil)%app_nil)%app_nil)%app_nil]%vkeep_nil.
  split; [done|]. eexists. split; [done|]. cbn [vs_ID vt_seen vkeep].
  assert (identifier vid ∧ vid ∉ vt_seen s ∧ seen = {[ vid ]} ∪ vt_seen s) as (? & ? & ?).
  { destruct (missingString (sc_ID x)); [done|]. destruct (validateIdentifier _) eqn:Hi; [|done]. cbn in E1.
    destruct (bool_decide (_ ∈ vt_seen s)) eqn:Hs; [done|]. go_bool. injection E1 as <- <-. split_and!; [by apply validateIdentifier_ok|done|done]. }
  split; [|done]. apply checkText_nil in E2 as [_ Hn]. apply checkString_nil in E3 as (Hsh & -> & _).
  apply validateDurationField_nil in E5. rewrite bool_decide_true in Hd6 by done.
  split; cbn [vs_ID vs_Name vs_Shell vs_Run vs_TimeoutMillis]; [done| | | |].
  - unfold validateScenarioName in Hn. destruct (_ || _) eqn:Hb in Hn; [done|]. go_bool. unfold MaxScenarioNameBytes in *.
    split; [done|lia].
  - unfold isAllowedShell in Hsh. by go_bool.
  - destruct (negb _ || _) in E4; [done|]. destruct (validateRun _) eqn:Hr; [done|]. injection E4 as <-.
    unfold validateRun in Hr. case_bool_decide; [done|]. destruct (MaxRunBytes <? _) eqn:Hl in Hr; [done|].
    go_bool. unfold MaxRunBytes in *. split; [done|lia].
  - unfold in_range, MinTimeoutMillis in *. destruct (0 <? g) eqn:?; go_bool; [|lia].
    destruct (g <? timeout) eqn:?; [done|]. go_bool. lia.
Qed.

(** *** Sections *)

Lemma validateEnvironment_nil env image digest workdir : validateEnvironment env = ([], (image, digest, workdir)) →
  pinned_image image digest ∧ plain_path workdir.
Proof.
  unfold validateEnvironment. destruct (absent _); [done|].
  destruct (if missingString (en_Image env) then _ else _) as [[d1 img] dig] eqn:E1.
  destruct (checkString _ _ _ _ _ _) as [d2 wd] eqn:E2. intros [= [-> ->]%app_nil -> -> ->].
  apply checkString_nil in E2 as (Hp & -> & _). split; [|by apply absolute_path_plain].
  destruct (missingString _); [done|]. destruct (validateImmutableImage _) eqn:Hi; [|done]. injection E1 as <- <-.
  by apply validateImmutableImage_ok.
Qed.

Lemma validateResources_nil res r : validateResources res = ([], r) → wf_resources r.
Proof.
  unfold validateResources. destruct (absent _); [done|].
  destruct (validateIntField _ _ _ (rs_CPU res) _ _) as [d1 cpu] eqn:E1.
  destruct (validateSizeField _ (rs_Memory res) _ _) as [d2 mem] eqn:E2.
  destruct (validateSizeField _ (rs_Disk res) _ _) as [d3 disk] eqn:E3.
  destruct (validateIntField _ _ _ (rs_Processes res) _ _) as [d4 procs] eqn:E4.
  destruct (validateDurationField _ _ _ _) as [d5 timeout] eqn:E5.
  intros [= (-> & (-> & (-> & (-> & ->)%app_nil)%app_nil)%app_nil)%app_nil <-].
  split; cbn; [by apply validateIntField_nil in E1|by apply validateSizeField_nil in E2|by apply validateSizeField_nil in E3
    |by apply validateIntField_nil in E4|by apply validateDurationField_nil in E5].
Qed.

Lemma validateNetwork_nil nw n : validateNetwork nw = ([], n) → n = mkValidatedNetwork NetworkModeDeny [].
Proof.
  unfold validateNetwork. destruct (absent _); [done|]. destruct (checkString _ _ _ _ _ _) as [d1 mode] eqn:E1.
  intros [= [-> _]%app_nil <-]. apply checkString_nil in E1 as (Hm & -> & _). go_bool. by rewrite Hm.
Qed.

Lemma validatePolicy_nil pol p : validatePolicy pol = ([], p) → p = mkValidatedPolicy PolicyProfileStrict.
Proof.
  unfold validatePolicy. destruct (absent _); [done|]. destruct (checkString _ _ _ _ _ _) as [d1 prof] eqn:E1.
  intros [= -> <-]. apply checkString_nil in E1 as (Hm & -> & _). go_bool. by rewrite Hm.
Qed.

(** The bound on a list is checked before its elements. *)
Lemma bounded_list_nil (n max : Z) p path msg d :
  (if max <? n then diagForPresence "out-of-range" path p msg else []) ++ d = [] → n <= max ∧ d = [].
Proof. destruct (max <? n) eqn:E; [done|]. go_bool. by intros. Qed.

Lemma validateFilesystem_nil fs roots contents : validateFilesystem fs = ([], (roots, contents)) →
  ((length roots <= 16)%nat ∧ NoDup roots ∧ Forall plain_path roots) ∧ contents = FilesystemContentsMetadata.
Proof.
  unfold validateFilesystem. destruct (absent _); [done|].
  destruct (if absent (fc_RootsPresence fs) then _ else _) as [d1 rs] eqn:E1.
  destruct (checkString _ _ _ _ _ _) as [d2 cm] eqn:E2. intros [= [-> ->]%app_nil -> ->].
  apply checkString_nil in E2 as (Hm & -> & _). go_bool. split; [|done].
  destruct (absent _); [done|]. injection E1 as [Hlen Hd]%bounded_list_nil <-.
  destruct (vfold_nil validateRoot id plain_path (fc_Roots fs)) as (Hl & Hnd & Hf); [|done|].
  { intros s x. apply validateRoot_nil. }
  rewrite list_fmap_id in Hnd. unfold MaxFilesystemRootCount in *. split_and!; [lia|done|done].
Qed.

Lemma validateCollect_nil co c : validateCollect co = ([], c) → wf_collect c.
Proof.
  unfold validateCollect. destruct (absent _); [done|].
  destruct (validateFilesystem _) as [d1 [roots contents]] eqn:E1.
  destruct (if absent (co_ArtifactsPresence co) then _ else _) as [d2 arts] eqn:E2.
  destruct (if absent (lc_Presence (co_Logs co)) then _ else _) as [d3 mb] eqn:E3.
  intros [= (-> & (-> & ->)%app_nil)%app_nil <-]. apply validateFilesystem_nil in E1 as [Hr Hc].
  split; cbn [vc_FilesystemRoots vc_FilesystemContents vc_Artifacts vc_LogMaxBytesPerStream]; [done|done| |].
  - destruct (absent (co_ArtifactsPresence co)); [done|]. injection E2 as [Hlen Hd]%bounded_list_nil <-.
    destruct (vfold_nil validateArtifact va_Path (λ a, plain_pattern (va_Path a) ∧ in_range 1 (va_MaxBytes a) (2 ^ 30))
      (co_Artifacts co)) as (Hl & Hnd & Hf); [|done|].
    { intros s x. apply validateArtifact_nil. }
    unfold MaxArtifactCount in *. split_and!; [lia|done|done].
  - destruct (absent (lc_Presence _)); [done|]. by apply validateSizeField_nil in E3.
Qed.

Lemma validateCompare_nil co c : validateCompare co = ([], c) →
  (NoDup (vcm_IgnoreFields c)
   ∧ Forall (λ f, f = CompareIgnoreEventTimestamp ∨ f = CompareIgnoreProcessPID) (vcm_IgnoreFields c))
  ∧ in_range 1 (vcm_Repetitions c) 10.
Proof.
  unfold validateCompare. destruct (absent _); [done|].
  destruct (if absent (cf_IgnorePresence co) then _ else _) as [d1 ig] eqn:E1.
  destruct (validateIntField _ _ _ _ _ _) as [d2 reps] eqn:E2. intros [= [-> ->]%app_nil <-].
  apply validateIntField_nil in E2. split; [|done]. cbn [vcm_IgnoreFields].
  destruct (absent _); [done|]. injection E1 as [Hlen Hd]%bounded_list_nil <-.
  destruct (vfold_nil validateIgnore id (λ f, f = CompareIgnoreEventTimestamp ∨ f = CompareIgnoreProcessPID)
    (cf_Ignore co)) as (Hl & Hnd & Hf); [|done|].
  { intros s x. apply validateIgnore_nil. }
  rewrite list_fmap_id in Hnd. done.
Qed.

Lemma validateScenarios_nil spec g scs : 100 <= g → validateScenarios spec g = ([], scs) →
  (1 <= length scs <= 64)%nat ∧ NoDup (vs_ID <$> scs) ∧ Forall (wf_scenario g) scs.
Proof.
  intros Hg. unfold validateScenarios. destruct (absent _); [done|]. destruct (_ <? MinScenarioCount) eqn:Hmin; [done|].
  intros [= [Hlen Hd]%bounded_list_nil <-].
  destruct (vfold_nil (validateScenario g) vs_ID (wf_scenario g) (sp_Scenarios spec)) as (Hl & Hnd & Hf); [|done|].
  { intros s x. by apply validateScenario_nil. }
  go_bool. unfold MinScenarioCount, MaxScenarioCount in *. split_and!; [lia|lia|done|done].
Qed.

Lemma validateHeader_nil doc name : validateHeader doc = ([], name) → identifier name.
Proof.
  unfold validateHeader. destruct (checkString "apiVersion" _ _ _ _ _) as [d1 x1].
  destruct (checkString "kind" _ _ _ _ _) as [d2 x2]. destruct (if absent _ then _ else _) as [d3 x3] eqn:E3.
  intros [= (-> & (-> & ->)%app_nil)%app_nil <-]. destruct (absent _); [done|].
  apply checkString_nil in E3 as (Hi & -> & _). by apply validateIdentifier_ok.
Qed.

Lemma ParseAndValidate_wf yaml_load data p : ParseAndValidate yaml_load data = Ok p → wf_pipeline p.
Proof.
  unfold ParseAndValidate. intros (doc & _ & H)%bind_Ok. unfold Validate in H.
  destruct (validateHeader doc) as [d0 name] eqn:E0. destruct (absent _); [done|].
  destruct (validateEnvironment _) as [d1 [[image digest] workdir]] eqn:E1.
  destruct (validateResources _) as [d2 res] eqn:E2. destruct (validateNetwork _) as [d3 nw] eqn:E3.
  destruct (validateScenarios _ _) as [d4 scs] eqn:E4. destruct (validateCollect _) as [d5 co] eqn:E5.
  destruct (validateCompare _) as [d6 cm] eqn:E6. destruct (validatePolicy _) as [d7 pol] eqn:E7.
  apply bind_Ok in H as (u & Hd & H). apply Ok_inj in H as <-.
  unfold reject_diags in Hd. destruct (_ ++ _) eqn:Hnil in Hd; [clear Hd|done].
  apply app_nil in Hnil as (-> & (-> & (-> & (-> & (-> & (-> & (-> & ->)%app_nil)%app_nil)%app_nil)%app_nil)%app_nil)%app_nil).
  apply validateEnvironment_nil in E1 as [? ?]. apply validateResources_nil in E2. apply validateCompare_nil in E6 as [? ?].
  split; cbn [vpl_Name vpl_Image vpl_ImageDigest vpl_Workdir vpl_Resources vpl_Network vpl_Scenarios vpl_Collect vpl_Compare
    vpl_Policy]; [by apply validateHeader_nil in E0|done|done|done|by apply validateNetwork_nil in E3| |
    by apply validateCollect_nil in E5|done|done|by apply validatePolicy_nil in E7].
  apply validateScenarios_nil in E4; [done|]. by destruct E2 as [_ _ _ _ [? _]].
Qed.

(** C35: a document that validates is a bounded, well-formed pipeline: pinned
    image, plain paths, resources, timeouts and sizes in range (a scenario's
    timeout within the global one), no network, between 1 and 64 scenarios with
    distinct identifiers, distinct roots, artifacts and ignored fields. *)
Theorem validate_well_formed yaml_load data p : ParseAndValidate yaml_load data = Ok p → wf_pipeline p.
Proof. apply ParseAndValidate_wf. Qed.
