(* ===== verification/ConfigDiff.v ===== *)
(** * What the change analysis of two pipelines says

    [ComparePipelines] reports nothing exactly when the two pipelines are equal,
    and it reports an increase of privilege exactly when the head may use more
    of some resource, or may run a scenario for longer. *)

From stdpp Require Import prelude gmap strings sorting.
From Stdlib Require Import ZArith Lia Ascii.
From S2P Require Import Prelude GoStd GoTime Model Json GoText GoPath Yaml Config ConfigParse ConfigValidate ConfigSpec.
Local Open Scope Z_scope.

(** ** Multisets of strings *)

Definition occ (v : string) (l : list string) : Z := Z.of_nat (length (filter (v =.) l)).

Lemma occ_cons v x l : occ v (x :: l) = (if bool_decide (v = x) then 1 else 0) + occ v l.
Proof. unfold occ. rewrite filter_cons. repeat case_decide; case_bool_decide; cbn [length]; lia || done. Qed.

Lemma countStrings_occ l v : default 0 (countStrings l !! v) = occ v l.
Proof.
  unfold countStrings. enough (∀ m : gmap string Z,
    default 0 (foldl (λ m v, <[v := default 0 (m !! v) + 1]> m) m l !! v) = default 0 (m !! v) + occ v l) as H.
  { by rewrite H, lookup_empty. }
  induction l as [|x l IH]; intros m; cbn [foldl]; [unfold occ; cbn; lia|].
  rewrite IH, occ_cons, lookup_insert. case_decide as Hx; case_bool_decide; subst; cbn; lia || congruence.
Qed.

Lemma sameStringSet_Permutation a b : a ≡ₚ b → sameStringSet a b = true.
Proof.
  intros Hp. unfold sameStringSet. rewrite bool_decide_true by (by rewrite Hp). cbn [negb].
  assert (∀ v, occ v b <= default 0 (countStrings a !! v)) as Hle.
  { intros v. rewrite countStrings_occ. unfold occ. by rewrite Hp. }
  clear Hp. revert Hle. generalize (countStrings a). clear a.
  induction b as [|x b IH]; intros m Hle; [done|]. cbn [foldR].
  pose proof (Hle x) as Hx. rewrite occ_cons, bool_decide_true in Hx by done.
  assert (0 <= occ x b) by (unfold occ; lia). rewrite (proj2 (Z.ltb_ge _ _)) by lia.
  apply IH. intros v. rewrite lookup_insert. specialize (Hle v). rewrite occ_cons in Hle.
  destruct (decide (x = v)) as [<-|Hne]; [rewrite bool_decide_true in Hle by done|rewrite bool_decide_false in Hle by done];
    cbn [from_option id]; lia.
Qed.

(** ** One field *)

Lemma addStringChange_nil path b h e : addStringChange path b h e = [] ↔ b = h.
Proof. unfold addStringChange. case_bool_decide; by split. Qed.
Lemma addIntDirectional_nil path b h e1 e2 : addIntDirectional path b h e1 e2 = [] ↔ b = h.
Proof. unfold addIntDirectional. case_bool_decide; by split. Qed.
Lemma addRunChange_nil path b h : addRunChange path b h = [] ↔ b = h.
Proof. unfold addRunChange. case_bool_decide; by split. Qed.

Lemma compareElements_nil path i b h e1 e2 : compareElements path i b h e1 e2 = [] ↔ b = h.
Proof.
  revert i h. induction b as [|x b IH]; intros i [|y h]; cbn; [by split..|].
  rewrite app_nil, IH. case_bool_decide; naive_solver.
Qed.

Lemma compareStringList_nil path b h e1 e2 : compareStringList path b h e1 e2 = [] ↔ b = h.
Proof.
  unfold compareStringList. destruct (_ && _) eqn:E; [|apply compareElements_nil].
  split; [done|]. intros ->. unfold sameStringSlice in E. rewrite bool_decide_true in E by done.
  by rewrite andb_false_r in E.
Qed.

Lemma reordered_nil path b h : b ≡ₚ h → reordered path b h = [] ↔ b = h.
Proof.
  intros Hp. unfold reordered, sameStringSlice. rewrite sameStringSet_Permutation by done. cbn. case_bool_decide; by split.
Qed.

Lemma reordered_same path l : reordered path l l = [].
Proof. by apply reordered_nil. Qed.

(** ** Keyed lists: scenarios by identifier, artifacts by path *)

Section keyed.
Context {A : Type} (key : A → string) (removed added : string → ConfigChange) (path : string).
Context (cmp : A → A → list ConfigChange).

(** The shape [compareScenarios] and [compareArtifacts] share. *)
Definition keyedChanges (base head : list A) : list ConfigChange :=
  missingIn key (indexBy key head) base removed ++ missingIn key (indexBy key base) head added ++
  reordered path (key <$> base) (key <$> head) ++
  (commonKeysInBaseOrder (key <$> base) (indexBy key head) ≫= λ k,
     match indexBy key base !! k, indexBy key head !! k with Some b, Some h => cmp b h | _, _ => [] end).

Lemma indexBy_lookup l k x : NoDup (key <$> l) → indexBy key l !! k = Some x ↔ x ∈ l ∧ key x = k.
Proof. apply foldl_insert_lookup_empty. Qed.

Lemma indexBy_None l k : NoDup (key <$> l) → indexBy key l !! k = None ↔ k ∉ (key <$> l).
Proof.
  intros Hnd. unfold indexBy. rewrite foldl_insert_None by done. rewrite list_elem_of_fmap. naive_solver.
Qed.

Lemma elem_of_missingIn l other f c : NoDup (key <$> other) →
  c ∈ missingIn key (indexBy key other) l f ↔ ∃ k, k ∈ (key <$> l) ∧ k ∉ (key <$> other) ∧ c = f k.
Proof.
  intros Hnd. unfold missingIn. rewrite list_elem_of_fmap. split.
  - intros (x & -> & [Hx Hin]%list_elem_of_filter). apply indexBy_None in Hx; [|done]. exists (key x).
    split; [by apply list_elem_of_fmap_2|done].
  - intros (k & (x & -> & Hx)%list_elem_of_fmap & Hk & ->). exists x. split; [done|]. apply list_elem_of_filter.
    split; [by apply indexBy_None|done].
Qed.

(** Every change of two keyed lists. *)
Lemma elem_of_keyedChanges base head c : NoDup (key <$> base) → NoDup (key <$> head) →
  c ∈ keyedChanges base head ↔
    (∃ k, k ∈ (key <$> base) ∧ k ∉ (key <$> head) ∧ c = removed k)
    ∨ (∃ k, k ∈ (key <$> head) ∧ k ∉ (key <$> base) ∧ c = added k)
    ∨ c ∈ reordered path (key <$> base) (key <$> head)
    ∨ ∃ b h, b ∈ base ∧ h ∈ head ∧ key b = key h ∧ c ∈ cmp b h.
Proof.
  intros Hb Hh. unfold keyedChanges. rewrite !elem_of_app, !elem_of_missingIn by done. do 3 f_equiv.
  rewrite list_elem_of_bind. unfold commonKeysInBaseOrder. split.
  - intros (k & Hc & [[h Hh'] Hin]%list_elem_of_filter). rewrite Hh' in Hc.
    destruct (indexBy key base !! k) as [b|] eqn:Eb; [|by apply elem_of_nil in Hc].
    apply indexBy_lookup in Eb as [? ?], Hh' as [? ?]; [|done..]. exists b, h. split_and!; [done|done|congruence|done].
  - intros (b & h & Hbin & Hhin & Hk & Hc). exists (key b).
    assert (indexBy key head !! key b = Some h) as Eh by (by apply indexBy_lookup).
    assert (indexBy key base !! key b = Some b) as Eb by (by apply indexBy_lookup).
    rewrite Eb, Eh. split; [done|]. apply list_elem_of_filter. split; [by eexists|by apply list_elem_of_fmap_2].
Qed.

(** No change: the same keys in the same order, and equal elements. *)
Lemma keyedChanges_nil base head : (∀ b h, key b = key h → cmp b h = [] ↔ b = h) →
  NoDup (key <$> base) → NoDup (key <$> head) → keyedChanges base head = [] ↔ base = head.
Proof.
  intros Hcmp Hb Hh. split.
  - intros Hnil. assert (∀ c, c ∉ keyedChanges base head) as Hno by (rewrite Hnil; intros c; apply not_elem_of_nil).
    assert (∀ k, k ∈ (key <$> base) ↔ k ∈ (key <$> head)) as Hkeys.
    { intros k. split; intros Hk.
      - destruct (decide (k ∈ key <$> head)) as [|Hn]; [done|]. destruct (Hno (removed k)).
        apply elem_of_keyedChanges; [done..|]. left; by eauto.
      - destruct (decide (k ∈ key <$> base)) as [|Hn]; [done|]. destruct (Hno (added k)).
        apply elem_of_keyedChanges; [done..|]. right; left; by eauto. }
    assert (key <$> base = key <$> head) as Heq.
    { apply (reordered_nil path); [by apply NoDup_Permutation|].
      destruct (reordered path _ _) as [|c cs] eqn:E; [done|]. destruct (Hno c).
      apply elem_of_keyedChanges; [done..|]. rewrite E. right; right; left. apply list_elem_of_here. }
    assert (∀ b h, b ∈ base → h ∈ head → key b = key h → b = h) as Hsame.
    { intros b h Hbin Hhin Hk. apply Hcmp; [done|]. destruct (cmp b h) as [|c cs] eqn:E; [done|]. destruct (Hno c).
      apply elem_of_keyedChanges; [done..|]. do 3 right. exists b, h. rewrite E. split_and!; [done..|apply list_elem_of_here]. }
    clear -Heq Hsame. revert head Heq Hsame. induction base as [|b base IH]; intros [|h head]; cbn; [done..|].
    intros [= Hk Hks] Hsame. f_equal.
    + apply Hsame; [apply list_elem_of_here..|done].
    + apply IH; [done|]. intros x y Hx Hy. apply Hsame; by apply list_elem_of_further.
  - intros <-. destruct (keyedChanges base base) as [|c cs] eqn:E; [done|]. exfalso.
    assert (c ∈ keyedChanges base base) as Hc by (rewrite E; apply list_elem_of_here).
    apply elem_of_keyedChanges in Hc as [(k & ? & ? & _)|[(k & ? & ? & _)|[Hc|(b & h & Hbin & Hhin & Hk & Hc)]]]; try done.
    + rewrite reordered_same in Hc. by apply elem_of_nil in Hc.
    + assert (b = h) as ->.
      { assert (indexBy key base !! key b = Some b) as Eb by (by apply indexBy_lookup).
        assert (indexBy key base !! key b = Some h) as Eh by (by apply indexBy_lookup). congruence. }
      rewrite (proj2 (Hcmp h h eq_refl) eq_refl) in Hc. by apply elem_of_nil in Hc.
Qed.
End keyed.

Lemma sortConfigChanges_nil l : sortConfigChanges l = [] ↔ l = [].
Proof.
  unfold sortConfigChanges. split; [|by intros ->]. intros E.
  pose proof (stable_sort_Permutation configChange_less l) as H. rewrite E in H. by apply Permutation_nil_l in H.
Qed.

Lemma compareScenarios_keyed b h : compareScenarios b h =
  keyedChanges vs_ID (λ id, plainChange (scenarioPath id) ChangeKindRemoved SecurityEffectExecutionDefinitionChange)
    (λ id, plainChange (scenarioPath id) ChangeKindAdded SecurityEffectExecutionDefinitionChange) "spec.scenarios"
    compareScenario b h.
Proof. done. Qed.

Lemma compareArtifacts_keyed b h : compareArtifacts b h =
  keyedChanges va_Path (λ p, plainChange (artifactPath p) ChangeKindRemoved SecurityEffectObservationWeakened)
    (λ p, plainChange (artifactPath p) ChangeKindAdded SecurityEffectObservationStrengthened) "spec.collect.artifacts"
    compareArtifact b h.
Proof. done. Qed.

Lemma compareScenario_nil b h : vs_ID b = vs_ID h → compareScenario b h = [] ↔ b = h.
Proof.
  intros Hid. unfold compareScenario. rewrite !app_nil, !addStringChange_nil, addRunChange_nil, addIntDirectional_nil.
  destruct b, h; cbn in *. naive_solver.
Qed.

Lemma compareArtifact_nil b h : va_Path b = va_Path h → compareArtifact b h = [] ↔ b = h.
Proof. intros Hp. unfold compareArtifact. rewrite addIntDirectional_nil. destruct b, h; cbn in *. naive_solver. Qed.

(** Ignored fields are keyed by themselves and have nothing else to compare. *)
Lemma compareIgnoreFields_nil b h : NoDup b → NoDup h → compareIgnoreFields b h = [] ↔ b = h.
Proof.
  intros Hb Hh. unfold compareIgnoreFields. rewrite !app_nil. split.
  - intros (H1%fmap_nil_inv & H2%fmap_nil_inv & H3). eapply reordered_nil; [|exact H3]. apply NoDup_Permutation; [done..|]. intros x.
    split; intros Hx.
    + destruct (decide (x ∈ h)) as [|Hn]; [done|]. assert (x ∈ filter (.∉ h) b) as Hf by (by apply list_elem_of_filter).
      rewrite H1 in Hf. by apply elem_of_nil in Hf.
    + destruct (decide (x ∈ b)) as [|Hn]; [done|]. assert (x ∈ filter (.∉ b) h) as Hf by (by apply list_elem_of_filter).
      rewrite H2 in Hf. by apply elem_of_nil in Hf.
  - intros <-. rewrite reordered_same, filter_none by naive_solver. done.
Qed.

Lemma pipelines_equal b h : wf_pipeline b → wf_pipeline h → ComparePipelines b h = [] ↔ b = h.
Proof.
  intros Hb Hh. unfold ComparePipelines. rewrite sortConfigChanges_nil. unfold pipelineChanges.
  rewrite compareScenarios_keyed, compareArtifacts_keyed.
  rewrite !app_nil, !addStringChange_nil, !addIntDirectional_nil, !compareStringList_nil.
  rewrite keyedChanges_nil by (apply compareScenario_nil || apply wf_scenarios; done).
  rewrite keyedChanges_nil by (apply compareArtifact_nil || by apply wfc_artifacts, wf_coll).
  rewrite compareIgnoreFields_nil by (by apply wf_ignore).
  destruct b as [? ? ? ? [] [] ? [] [] []], h as [? ? ? ? [] [] ? [] [] []]; cbn. split.
  - intros H. decompose [and] H. by subst.
  - intros [=]. subst. by split_and!.
Qed.

(** The change analysis misses nothing: of two valid pipelines it reports no
    change exactly when they are the same pipeline. *)
Theorem no_change_iff_equal b h : wf_pipeline b → wf_pipeline h → ComparePipelines b h = [] ↔ b = h.
Proof. apply pipelines_equal. Qed.

(** ** Which effects are reported *)

Definition reports (e : SecurityEffect) (l : list ConfigChange) : Prop := ∃ c, c ∈ l ∧ cc_Effect c = e.

Lemma reports_nil e : reports e [] ↔ False.
Proof. split; [|done]. by intros (c & ?%elem_of_nil & _). Qed.
Lemma reports_app e l1 l2 : reports e (l1 ++ l2) ↔ reports e l1 ∨ reports e l2.
Proof. unfold reports. setoid_rewrite elem_of_app. naive_solver. Qed.
Lemma reports_cons e c l : reports e (c :: l) ↔ cc_Effect c = e ∨ reports e l.
Proof. unfold reports. setoid_rewrite elem_of_cons. naive_solver. Qed.
Lemma reports_one e c : reports e [c] ↔ cc_Effect c = e.
Proof. unfold reports. setoid_rewrite list_elem_of_singleton. naive_solver. Qed.

Lemma reports_string e path b h e' : reports e (addStringChange path b h e') ↔ b <> h ∧ e' = e.
Proof. unfold addStringChange. case_bool_decide; [rewrite reports_nil|rewrite reports_one; cbn]; naive_solver. Qed.

Lemma reports_run e path b h :
  reports e (addRunChange path b h) ↔ b <> h ∧ SecurityEffectExecutionDefinitionChange = e.
Proof. unfold addRunChange. case_bool_decide; [rewrite reports_nil|rewrite reports_one; cbn]; naive_solver. Qed.

Lemma reports_int e path b h e1 e2 :
  reports e (addIntDirectional path b h e1 e2) ↔ b < h ∧ e1 = e ∨ h < b ∧ e2 = e.
Proof.
  unfold addIntDirectional. case_bool_decide as Hb; [rewrite reports_nil; lia|]. rewrite reports_one. cbn.
  destruct (b <? h) eqn:E; go_bool; split; intros H; try (right; split; [lia|done]); try (left; split; [lia|done]);
    by destruct H as [[? ?]|[? ?]]; lia || done.
Qed.

Lemma reports_reordered e path b h : reports e (reordered path b h) → e = SecurityEffectInformational.
Proof. unfold reordered. destruct (_ && _); [by rewrite reports_one|by rewrite reports_nil]. Qed.

Lemma reports_indexed e path i k e' l : reports e (indexedChanges path i k e' l) ↔ l <> [] ∧ e' = e.
Proof.
  revert i. induction l as [|x l IH]; intros i; cbn; [rewrite reports_nil; naive_solver|].
  rewrite reports_cons, IH. cbn. naive_solver.
Qed.

Lemma reports_elements e path i b h e1 e2 : e <> SecurityEffectUnknown →
  reports e (compareElements path i b h e1 e2)
  ↔ (length b < length h)%nat ∧ e1 = e ∨ (length h < length b)%nat ∧ e2 = e.
Proof.
  intros He. revert i h. induction b as [|x b IH]; intros i [|y h]; cbn [compareElements length].
  - rewrite reports_nil. lia.
  - rewrite reports_indexed. intuition (lia || done).
  - rewrite reports_indexed. intuition (lia || done).
  - rewrite reports_app, IH. case_bool_decide; [rewrite reports_nil|rewrite reports_one]; cbn; intuition (lia || congruence).
Qed.

(** A keyed list reports an effect for a key that went or came, or for a pair. *)
Lemma reports_keyed {A} (key : A → string) fr fa er ea path cmp e b h :
  (∀ k, cc_Effect (fr k) = er) → (∀ k, cc_Effect (fa k) = ea) → e <> SecurityEffectInformational →
  NoDup (key <$> b) → NoDup (key <$> h) →
  reports e (keyedChanges key fr fa path cmp b h)
  ↔ (er = e ∧ ∃ k, k ∈ (key <$> b) ∧ k ∉ (key <$> h)) ∨ (ea = e ∧ ∃ k, k ∈ (key <$> h) ∧ k ∉ (key <$> b))
    ∨ ∃ x y, x ∈ b ∧ y ∈ h ∧ key x = key y ∧ reports e (cmp x y).
Proof.
  intros Hr Ha He Hb Hh. split.
  - intros (c & Hc & Hce). apply elem_of_keyedChanges in Hc as [(k & ? & ? & ->)|[(k & ? & ? & ->)|[Hc|(x & y & Hc)]]];
      [..|done|done].
    + left. rewrite Hr in Hce. eauto.
    + right; left. rewrite Ha in Hce. eauto.
    + destruct He. apply (reports_reordered e path (key <$> b) (key <$> h)). by exists c.
    + right; right. destruct Hc as (? & ? & ? & ?). exists x, y. split_and!; [done..|]. by exists c.
  - intros H. assert (∃ c, cc_Effect c = e ∧ ((∃ k, k ∈ (key <$> b) ∧ k ∉ (key <$> h) ∧ c = fr k)
      ∨ (∃ k, k ∈ (key <$> h) ∧ k ∉ (key <$> b) ∧ c = fa k)
      ∨ c ∈ reordered path (key <$> b) (key <$> h)
      ∨ ∃ x y, x ∈ b ∧ y ∈ h ∧ key x = key y ∧ c ∈ cmp x y)) as (c & Hce & Hc).
    + destruct H as [(<- & k & ? & ?)|[(<- & k & ? & ?)|(x & y & ? & ? & ? & c & ? & ?)]].
      * exists (fr k). eauto 10.
      * exists (fa k). eauto 10.
      * exists c. split; [done|]. do 3 right. eauto 10.
    + exists c. split; [|done]. by apply elem_of_keyedChanges.
Qed.

(** The head can use more of something. *)
Definition grows (b h : ValidatedPipeline) : Prop :=
  (∃ f, f ∈ [vr_CPU; vr_MemoryBytes; vr_DiskBytes; vr_ProcessCount; vr_TimeoutMillis]
        ∧ f (vpl_Resources b) < f (vpl_Resources h))
  ∨ ∃ s t, s ∈ vpl_Scenarios b ∧ t ∈ vpl_Scenarios h ∧ vs_ID s = vs_ID t ∧ vs_TimeoutMillis s < vs_TimeoutMillis t.

(** The head observes less of something: fewer roots, an artifact dropped or cut
    shorter, less log text, an ignored field more, fewer repetitions. *)
Definition observes_less (b h : ValidatedPipeline) : Prop :=
  (length (vc_FilesystemRoots (vpl_Collect h)) < length (vc_FilesystemRoots (vpl_Collect b)))%nat
  ∨ (∃ p, p ∈ (va_Path <$> vc_Artifacts (vpl_Collect b)) ∧ p ∉ (va_Path <$> vc_Artifacts (vpl_Collect h)))
  ∨ (∃ a a', a ∈ vc_Artifacts (vpl_Collect b) ∧ a' ∈ vc_Artifacts (vpl_Collect h) ∧ va_Path a = va_Path a'
             ∧ va_MaxBytes a' < va_MaxBytes a)
  ∨ vc_LogMaxBytesPerStream (vpl_Collect h) < vc_LogMaxBytesPerStream (vpl_Collect b)
  ∨ (∃ f, f ∈ vcm_IgnoreFields (vpl_Compare h) ∧ f ∉ vcm_IgnoreFields (vpl_Compare b))
  ∨ vcm_Repetitions (vpl_Compare h) < vcm_Repetitions (vpl_Compare b).

Lemma reports_sorted e l : reports e (sortConfigChanges l) ↔ reports e l.
Proof. unfold reports, sortConfigChanges. by setoid_rewrite stable_sort_Permutation. Qed.

Lemma reports_scenarios e b h : e <> SecurityEffectInformational → e <> SecurityEffectExecutionDefinitionChange →
  NoDup (vs_ID <$> b) → NoDup (vs_ID <$> h) →
  reports e (compareScenarios b h)
  ↔ ∃ s t, s ∈ b ∧ t ∈ h ∧ vs_ID s = vs_ID t
      ∧ (vs_TimeoutMillis s < vs_TimeoutMillis t ∧ SecurityEffectPrivilegeIncrease = e
         ∨ vs_TimeoutMillis t < vs_TimeoutMillis s ∧ SecurityEffectPrivilegeDecrease = e).
Proof.
  intros Hi Hx Hb Hh. rewrite compareScenarios_keyed,
    (reports_keyed _ _ _ SecurityEffectExecutionDefinitionChange SecurityEffectExecutionDefinitionChange) by done.
  unfold compareScenario. split.
  - intros [[? _]|[[? _]|(s & t & ? & ? & ? & H)]]; [done..|]. exists s, t. split_and!; [done..|].
    rewrite !reports_app, !reports_string, reports_run, reports_int in H. by destruct H as [[_ ?]|[[_ ?]|[[_ ?]|H]]].
  - intros (s & t & ? & ? & ? & H). do 2 right. exists s, t. split_and!; [done..|].
    rewrite !reports_app, reports_int. by do 3 right.
Qed.

Lemma reports_artifacts e b h : e <> SecurityEffectInformational →
  NoDup (va_Path <$> b) → NoDup (va_Path <$> h) →
  reports e (compareArtifacts b h)
  ↔ (SecurityEffectObservationWeakened = e ∧ ∃ p, p ∈ (va_Path <$> b) ∧ p ∉ (va_Path <$> h))
    ∨ (SecurityEffectObservationStrengthened = e ∧ ∃ p, p ∈ (va_Path <$> h) ∧ p ∉ (va_Path <$> b))
    ∨ ∃ x y, x ∈ b ∧ y ∈ h ∧ va_Path x = va_Path y
        ∧ (va_MaxBytes x < va_MaxBytes y ∧ SecurityEffectObservationStrengthened = e
           ∨ va_MaxBytes y < va_MaxBytes x ∧ SecurityEffectObservationWeakened = e).
Proof.
  intros Hi Hb Hh. rewrite compareArtifacts_keyed,
    (reports_keyed _ _ _ SecurityEffectObservationWeakened SecurityEffectObservationStrengthened) by done. unfold compareArtifact.
  by setoid_rewrite reports_int.
Qed.

Lemma reports_ignore e b h : e <> SecurityEffectInformational →
  reports e (compareIgnoreFields b h)
  ↔ (SecurityEffectObservationStrengthened = e ∧ ∃ f, f ∈ b ∧ f ∉ h)
    ∨ (SecurityEffectObservationWeakened = e ∧ ∃ f, f ∈ h ∧ f ∉ b).
Proof.
  intros Hi. unfold compareIgnoreFields. rewrite !reports_app. unfold reports at 1 2. setoid_rewrite list_elem_of_fmap.
  setoid_rewrite list_elem_of_filter. pose proof (reports_reordered e "spec.compare.ignore" b h). naive_solver.
Qed.

Lemma reports_strings e path b h e1 e2 : e <> SecurityEffectUnknown → e <> SecurityEffectInformational →
  reports e (compareStringList path b h e1 e2)
  ↔ (length b < length h)%nat ∧ e1 = e ∨ (length h < length b)%nat ∧ e2 = e.
Proof.
  intros Hu Hi. unfold compareStringList. destruct (sameStringSet b h && _) eqn:E; [|by apply reports_elements].
  rewrite reports_one. go_bool. unfold sameStringSet in H. destruct (negb _) eqn:El in H; [done|]. go_bool. cbn.
  split; [by intros <-|lia].
Qed.

(** Prove a disjunction of such facts by one of its cases. *)
Ltac pick :=
  first [ solve [ left; first [assumption | split; [assumption || reflexivity|assumption || reflexivity]] ]
        | solve [ split; [assumption || reflexivity|assumption || reflexivity] ]
        | assumption
        | solve [ left; pick ]
        | right; pick ].

(** The classification of changes is exact: between two valid pipelines an
    increase of privilege is reported exactly when the head may use more of some
    resource or run some scenario for longer, and a weakened observation exactly
    when the head observes less. *)
Theorem effects_exact b h : wf_pipeline b → wf_pipeline h →
  (reports SecurityEffectPrivilegeIncrease (ComparePipelines b h) ↔ grows b h)
  ∧ (reports SecurityEffectObservationWeakened (ComparePipelines b h) ↔ observes_less b h).
Proof.
  intros Hb Hh. unfold ComparePipelines. rewrite !reports_sorted. unfold pipelineChanges. rewrite !reports_app.
  rewrite !reports_string, !reports_int, !reports_strings by done.
  rewrite !reports_scenarios by (done || by apply wf_scenarios).
  rewrite !reports_artifacts by (done || by apply wfc_artifacts, wf_coll). rewrite !reports_ignore by done.
  rewrite (wf_network b Hb), (wf_network h Hh). unfold networkEffect, observationModeEffect.
  rewrite (wfc_contents _ (wf_coll b Hb)), (wfc_contents _ (wf_coll h Hh)). cbn [vn_Mode vn_Allow].
  unfold grows, observes_less. split; (split; [intros H; destruct_or! H|]); try by destruct H.
  - destruct H as [H _]. left. exists vr_CPU. split; [apply list_elem_of_In; cbn; tauto|done].
  - destruct H as [H _]. left. exists vr_MemoryBytes. split; [apply list_elem_of_In; cbn; tauto|done].
  - destruct H as [H _]. left. exists vr_DiskBytes. split; [apply list_elem_of_In; cbn; tauto|done].
  - destruct H as [H _]. left. exists vr_ProcessCount. split; [apply list_elem_of_In; cbn; tauto|done].
  - destruct H as [H _]. left. exists vr_TimeoutMillis. split; [apply list_elem_of_In; cbn; tauto|done].
  - destruct H as [H _]. cbn in H. lia.
  - destruct H as (s & t & Hs & Ht & Hid & [[? ?]|[? ?]]); [|done]. right. by exists s, t.
  - by destruct H as (s & t & Hs & Ht & Hid & [[? ?]|[? ?]]).
  - intros [(f & Hf & H)|(s & t & ? & ? & ? & ?)].
    + apply list_elem_of_In in Hf. cbn in Hf. destruct_or! Hf; subst f; try done; pick.
    + assert (reports_pair : ∃ s t, s ∈ vpl_Scenarios b ∧ t ∈ vpl_Scenarios h ∧ vs_ID s = vs_ID t
          ∧ (vs_TimeoutMillis s < vs_TimeoutMillis t ∧ SecurityEffectPrivilegeIncrease = SecurityEffectPrivilegeIncrease
             ∨ vs_TimeoutMillis t < vs_TimeoutMillis s
               ∧ SecurityEffectPrivilegeDecrease = SecurityEffectPrivilegeIncrease)) by eauto 10.
      pick.
  - by destruct H as (s & t & Hs & Ht & Hid & [[? ?]|[? ?]]).
  - destruct H as [H _]. by left.
  - destruct H as [_ H]. right; by left.
  - destruct H as (x & y & ? & ? & ? & [[? ?]|[? ?]]); [done|]. right; right; left. by exists x, y.
  - destruct H as [H _]. do 3 right. by left.
  - destruct H as [_ H]. do 4 right. by left.
  - destruct H as [H _]. by do 5 right.
  - intros H. destruct_or! H; try pick. destruct H as (x & y & ? & ? & ? & ?).
    assert (∃ x y, x ∈ vc_Artifacts (vpl_Collect b) ∧ y ∈ vc_Artifacts (vpl_Collect h) ∧ va_Path x = va_Path y
          ∧ (va_MaxBytes x < va_MaxBytes y ∧ SecurityEffectObservationStrengthened = SecurityEffectObservationWeakened
             ∨ va_MaxBytes y < va_MaxBytes x ∧ SecurityEffectObservationWeakened = SecurityEffectObservationWeakened))
      by eauto 10.
    pick.
Qed.
