(* ===== verification/Waiver.v ===== *)
(** * Waivers ([internal/waiver])

    A waiver file names findings that a maintainer accepts until a date.  This
    file models the whole package: the strict parser ([parser.go], above the YAML
    library), the semantic digest ([digest.go]) and the trusted load of the base
    and head files with the assessment of the head's changes ([source.go]). *)

From stdpp Require Import prelude gmap strings.
From Stdlib Require Import ZArith Lia Ascii.
From S2P Require Import Prelude GoStd Sha256 Framing GoTime Model Json GoText Yaml Compare Config.
Local Open Scope Z_scope.

(** ** [errors.go]

    The stage and the message of an error; a wrapped cause is dropped. *)
Record WaiverError := mkWaiverError {
  we_Code : string;
  we_Stage : string;
  we_Msg : string
}.
Definition errCode (code stage msg : string) : WaiverError := mkWaiverError code stage msg.
Definition contextErr (c : CtxCause) : WaiverError :=
  errCode "context-cancelled" "context" "context cancelled".
Definition poll (ctx : Context) (n : nat) : result WaiverError unit :=
  match ctx n with None => Ok () | Some c => Err (contextErr c) end.

(** ** [limits.go] *)

Record Limits := mkLimits {
  l_MaxWaiverFileBytes : Z;
  l_MaxYAMLDepth : Z;
  l_MaxYAMLNodes : Z;
  l_MaxDiagnostics : Z;
  l_MaxScalarBytes : Z;
  l_MaxWaivers : Z;
  l_MaxOwnerBytes : Z;
  l_MaxReasonBytes : Z;
  l_MaxLifetimeDays : Z
}.
#[global] Instance Limits_eq_dec : EqDecision Limits.
Proof. solve_decision. Defined.

Definition DefaultLimits : Limits := mkLimits (256 * 2 ^ 10) 24 10000 100 (4 * 2 ^ 10) 1000 256 1024 90.

Definition out_of_range (v max : Z) : bool := (v <=? 0) || (max <? v).

Definition validateLimits (l : Limits) : result WaiverError Limits :=
  reject_if (l == mkLimits 0 0 0 0 0 0 0 0 0) (errCode "invalid-value" "limits" "zero limits") ;;
  let abs := DefaultLimits in
  reject_if (out_of_range (l_MaxWaiverFileBytes l) (l_MaxWaiverFileBytes abs)
             || out_of_range (l_MaxYAMLDepth l) (l_MaxYAMLDepth abs)
             || out_of_range (l_MaxYAMLNodes l) (l_MaxYAMLNodes abs)
             || out_of_range (l_MaxDiagnostics l) (l_MaxDiagnostics abs)
             || out_of_range (l_MaxScalarBytes l) (l_MaxScalarBytes abs)
             || out_of_range (l_MaxWaivers l) (l_MaxWaivers abs)
             || out_of_range (l_MaxOwnerBytes l) (l_MaxOwnerBytes abs)
             || out_of_range (l_MaxReasonBytes l) (l_MaxReasonBytes abs)
             || out_of_range (l_MaxLifetimeDays l) (l_MaxLifetimeDays abs))
    (errCode "invalid-value" "limits" "invalid limits") ;;
  mret l.

(** ** [types.go] *)

Definition WaiverPath : string := ".glassroot/waivers.yaml".
Definition APIVersionV1Alpha1 : string := "glassroot.dev/v1alpha1".
Definition KindWaiverSet : string := "WaiverSet".
Definition semanticDigestDomain : string := "glassroot.dev/waiver-set-semantic/v1" +:+ NUL.

Record Target := mkTarget { t_FindingID : string; t_RuleID : string }.
#[global] Instance Target_eq_dec : EqDecision Target.
Proof. solve_decision. Defined.

Record Waiver := mkWaiver {
  w_ID : string;
  w_Target : Target;
  w_Owner : string;
  w_Reason : string;
  w_IssuedAt : Z;
  w_ExpiresAt : Z
}.
#[global] Instance Waiver_eq_dec : EqDecision Waiver.
Proof. solve_decision. Defined.

Record WaiverSet := mkWaiverSet {
  ws_APIVersion : string;
  ws_Kind : string;
  ws_MetadataName : string;
  ws_Waivers : list Waiver;
  ws_RawDigest : Digest;
  ws_SemanticDigest : Digest;
  ws_RawSizeBytes : Z
}.
Definition zeroSet : WaiverSet := mkWaiverSet "" "" "" [] "" "" 0.

Abbreviation BaseState := string.
Definition BaseStateAbsent : BaseState := "absent".
Definition BaseStateValid : BaseState := "valid".
Definition BaseStateInvalid : BaseState := "invalid".
Definition BaseStateUnsupportedEntryKind : BaseState := "unsupported-entry-kind".

Abbreviation HeadState := string.
Definition HeadStateAbsentOnBoth : HeadState := "absent-on-both".
Definition HeadStateUnchanged : HeadState := "unchanged".
Definition HeadStateAdded : HeadState := "added".
Definition HeadStateRemoved : HeadState := "removed".
Definition HeadStateContentChangedSemanticallyEquivalent : HeadState :=
  "content-changed-but-semantically-equivalent".
Definition HeadStateModifiedValid : HeadState := "modified-valid".
Definition HeadStateModifiedInvalid : HeadState := "modified-invalid".
Definition HeadStateUnsupportedEntryKind : HeadState := "unsupported-entry-kind".

Abbreviation ChangeKind := string.
Definition ChangeWaiverAdded : ChangeKind := "waiver-added".
Definition ChangeWaiverRemoved : ChangeKind := "waiver-removed".
Definition ChangeWaiverTargetChanged : ChangeKind := "waiver-target-changed".
Definition ChangeWaiverOwnerChanged : ChangeKind := "waiver-owner-changed".
Definition ChangeWaiverReasonChanged : ChangeKind := "waiver-reason-changed".
Definition ChangeWaiverIssuedAtChanged : ChangeKind := "waiver-issued-at-changed".
Definition ChangeWaiverExpiryChanged : ChangeKind := "waiver-expiry-changed".

Record Change := mkChange { ch_WaiverID : string; ch_Kind : ChangeKind }.

Record FileMetadata := mkFileMetadata {
  fm_Revision : CommitRef;
  fm_Path : string;
  fm_Kind : EntryKind;
  fm_Digest : Digest;
  fm_SizeBytes : Z;
  fm_Executable : bool;
  fm_ObjectID : string
}.

Record BaseAssessment := mkBaseAssessment {
  ba_State : BaseState;
  ba_File : FileMetadata;
  ba_Waivers : list Waiver;
  ba_SemanticDigest : Digest;
  ba_ErrorCode : string
}.

Record HeadAssessment := mkHeadAssessment {
  ha_State : HeadState;
  ha_File : FileMetadata;
  ha_Waivers : list Waiver;
  ha_SemanticDigest : Digest;
  ha_Changes : list Change;
  ha_ErrorCode : string
}.

Record TrustedLoadResult := mkTrustedLoadResult {
  tl_BaseRevision : CommitRef;
  tl_HeadRevision : CommitRef;
  tl_Base : BaseAssessment;
  tl_Head : HeadAssessment
}.

(** ** [digest.go] *)

Definition rawDigest (data : bytes) : Digest := "sha256:" +:+ sha256_hex data.

Definition writeTime (t : Z) : bytes := writeString (format_rfc3339 t).

Definition writeWaiver (w : Waiver) : bytes :=
  writeString (w_ID w) ++ writeString (t_FindingID (w_Target w)) ++ writeString (t_RuleID (w_Target w)) ++
  writeString (w_Owner w) ++ writeString (w_Reason w) ++ writeTime (w_IssuedAt w) ++ writeTime (w_ExpiresAt w).

Definition waiver_less : Waiver → Waiver → bool := by_last w_ID str_lt.

Definition semanticPreimage (set : WaiverSet) : bytes :=
  let waivers := stable_sort waiver_less (ws_Waivers set) in
  writeString (ws_APIVersion set) ++ writeString (ws_Kind set) ++ writeString (ws_MetadataName set) ++
  writeU64 (Z.of_nat (length waivers)) ++ (waivers ≫= writeWaiver).

Definition semanticDigest (set : WaiverSet) : Digest :=
  "sha256:" +:+ sha256_hex (to_bytes semanticDigestDomain ++ semanticPreimage set).

(** ** [parser.go] *)

Record parsedWaiver := mkParsedWaiver {
  pw_id : string;
  pw_findingID : string;
  pw_ruleID : string;
  pw_owner : string;
  pw_reason : string;
  pw_issuedAt : string;
  pw_expiresAt : string
}.
Record parsedDoc := mkParsedDoc {
  pd_apiVersion : string;
  pd_kind : string;
  pd_metadataName : string;
  pd_waivers : list parsedWaiver
}.

Definition preflight (data : bytes) (l : Limits) : result WaiverError unit :=
  reject_if (l_MaxWaiverFileBytes l <? Z.of_nat (length data))
    (errCode "input-too-large" "preflight" "waiver file exceeds byte limit") ;;
  reject_if (negb (utf8_valid data)) (errCode "invalid-utf8" "preflight" "input must be valid UTF-8") ;;
  reject_if (has_byte (byte_of 0) data) (errCode "nul-byte" "preflight" "input must not contain NUL") ;;
  reject_if (Z.of_nat (length (trim_space data)) == 0)
    (errCode "yaml-syntax" "preflight" "input must contain one YAML document") ;;
  foldR (λ _ line,
      let trimmed := of_bytes (trim_space line) in
      reject_if (has_prefix "%YAML" trimmed || has_prefix "%TAG" trimmed)
        (errCode "unsupported-yaml-feature" "preflight" "YAML directives are not supported"))
    () (split_on (byte_of 10) data).

Definition classifyYAMLError (msg : string) : WaiverError :=
  if mentions "duplicate" msg then errCode "duplicate-key" "parse" "duplicate mapping key"
  else if mentions "alias" msg || mentions "anchor" msg then
    errCode "unsupported-yaml-feature" "parse" "aliases and anchors are not supported"
  else if mentions "depth" msg then errCode "unsupported-yaml-feature" "parse" "YAML depth exceeded"
  else errCode "yaml-syntax" "parse" "YAML syntax error".

(** [strictLimit]: the checks the loader's plugin makes ([true] refuses). *)
Definition CheckDepth (l : Limits) (depth : Z) : bool := l_MaxYAMLDepth l <? depth.
Definition CheckAlias (aliasCount : Z) : bool := 0 <? aliasCount.

(** The root node, or [None] for an empty document. *)
Definition loadNode (yaml_load : YamlLoad) (data : bytes) (l : Limits) : result WaiverError (option Node) :=
  match yaml_load (CheckDepth l) CheckAlias data with
  | Err msg => Err (classifyYAMLError msg)
  | Ok docs =>
    match docs with
    | [root] => Ok (if n_Kind root == DocumentNode then head (n_Content root) else Some root)
    | _ => Err (errCode "multiple-documents" "parse"
             ("expected one document, got " +:+ fmt_d (Z.of_nat (length docs))))
    end
  end.

Definition isCustomTag (tag : string) : bool :=
  if bool_decide (tag ∈ [""; "!!map"; "!!seq"; "!!str"; "!!int"; "!!null"; "!!bool"]%string) then false
  else has_prefix "!" tag || (tag == "!!timestamp"%string).

Definition unsupported (msg : string) : WaiverError := errCode "unsupported-yaml-feature" "parse" msg.

(** The checks on one node, after it has been counted as number [count].  The
    path the Go function builds for its children is never read. *)
Definition inspectOne (n : Node) (depth : Z) (l : Limits) (count : Z) : result WaiverError unit :=
  reject_if (l_MaxYAMLNodes l <? count) (unsupported "YAML node limit exceeded") ;;
  reject_if (l_MaxYAMLDepth l <? depth) (unsupported "YAML depth exceeded") ;;
  reject_if ((n_Kind n == AliasNode) || (n_Anchor n != ""%string))
    (unsupported "aliases and anchors are not supported") ;;
  reject_if (n_Tagged n || isCustomTag (n_Tag n)) (unsupported "YAML tags are not supported") ;;
  reject_if ((n_Kind n == ScalarNode) && (l_MaxScalarBytes l <? str_len (n_Value n)))
    (errCode "invalid-value" "parse" "scalar exceeds byte limit").

Definition inspectKey (seen : gset string) (k : Node) : result WaiverError unit :=
  reject_if ((n_Kind k != ScalarNode) || (n_Tag k != "!!str"%string)) (unsupported "mapping keys must be strings") ;;
  reject_if (n_Value k == "<<"%string) (unsupported "merge keys are not supported") ;;
  reject_if (bool_decide (n_Value k ∈ seen)) (errCode "duplicate-key" "parse" "duplicate mapping key").

(** [*count] is threaded: the result is the count after the node's subtree. *)
Fixpoint inspectNode (n : Node) (depth : Z) (l : Limits) (count : Z) {struct n} : result WaiverError Z :=
  let count := count + 1 in
  inspectOne n depth l count ;;
  let pairs := fix pairs (seen : gset string) (count : Z) (items : list Node) {struct items} : result WaiverError Z :=
    match items with
    | k :: v :: items =>
      inspectKey seen k ;;
      count ← inspectNode v (depth + 1) l count;
      pairs ({[ n_Value k ]} ∪ seen) count items
    | _ => Ok count
    end in
  let children := fix children (count : Z) (items : list Node) {struct items} : result WaiverError Z :=
    match items with
    | c :: items => count ← inspectNode c (depth + 1) l count; children count items
    | [] => Ok count
    end in
  match n_Kind n with
  | MappingNode => pairs ∅ count (n_Content n)
  | SequenceNode => children count (n_Content n)
  | _ => Ok count
  end.

Definition isNull (n : Node) : bool := (n_Kind n == ScalarNode) && (n_Tag n == "!!null"%string).

Fixpoint mappingFields (allowed : list string) (out : gmap string Node) (items : list Node) :
    result WaiverError (gmap string Node) :=
  match items with
  | k :: v :: items =>
    reject_if (negb (bool_decide (n_Value k ∈ allowed))) (errCode "unknown-field" "decode" "unknown field") ;;
    mappingFields allowed (<[n_Value k := v]> out) items
  | _ => Ok out
  end.

Definition mapping (n : option Node) (path : string) (allowed : list string) :
    result WaiverError (gmap string Node) :=
  let missing := errCode "missing-required-field" "decode" (path +:+ " mapping is required") in
  match n with
  | None => Err missing
  | Some n =>
    reject_if (isNull n || (n_Kind n != MappingNode)) missing ;;
    mappingFields allowed ∅ (n_Content n)
  end.

Definition reqString (fields : gmap string Node) (key path : string) : result WaiverError string :=
  let missing := errCode "missing-required-field" "decode" (path +:+ " is required") in
  match fields !! key with
  | None => Err missing
  | Some n =>
    reject_if (isNull n) missing ;;
    reject_if ((n_Kind n != ScalarNode) || (n_Tag n != "!!str"%string))
      (errCode "invalid-value" "decode" (path +:+ " must be string")) ;;
    mret (n_Value n)
  end.

(** One item of [spec.waivers]. *)
Definition decodeWaiver (item : Node) : result WaiverError parsedWaiver :=
  wf ← mapping (Some item) "spec.waivers[]" ["id"; "target"; "owner"; "reason"; "issuedAt"; "expiresAt"]%string;
  tf ← mapping (wf !! "target"%string) "target" ["findingId"; "ruleId"]%string;
  id ← reqString wf "id" "waiver.id";
  fid ← reqString tf "findingId" "target.findingId";
  rid ← reqString tf "ruleId" "target.ruleId";
  owner ← reqString wf "owner" "owner";
  reason ← reqString wf "reason" "reason";
  issued ← reqString wf "issuedAt" "issuedAt";
  expires ← reqString wf "expiresAt" "expiresAt";
  mret (mkParsedWaiver id fid rid owner reason issued expires).

Definition decodeDoc (n : Node) : result WaiverError parsedDoc :=
  fields ← mapping (Some n) "" ["apiVersion"; "kind"; "metadata"; "spec"]%string;
  api ← reqString fields "apiVersion" "apiVersion";
  kind ← reqString fields "kind" "kind";
  mf ← mapping (fields !! "metadata"%string) "metadata" ["name"%string];
  name ← reqString mf "name" "metadata.name";
  sf ← mapping (fields !! "spec"%string) "spec" ["waivers"%string];
  let missing := errCode "missing-required-field" "decode" "spec.waivers is required" in
  match sf !! "waivers"%string with
  | None => Err missing
  | Some w =>
    reject_if (isNull w || (n_Kind w != SequenceNode)) missing ;;
    waivers ← mapR decodeWaiver (n_Content w);
    mret (mkParsedDoc api kind name waivers)
  end.

(** *** Validation *)

Definition is_waiver_id_byte (c : Z) : bool :=
  ((97 <=? c) && (c <=? 122)) || ((48 <=? c) && (c <=? 57)) || bool_decide (c ∈ [46; 95; 45]).

Definition validWaiverID (s : string) : bool :=
  match to_bytes s with
  | [] => false
  | c :: _ => negb ((64 <? str_len s) || (byte_val c <? 97) || (122 <? byte_val c))
              && str_forallb is_waiver_id_byte s
  end.

Definition validFindingID (s : string) : bool :=
  negb ((str_len s != 72) || negb (has_prefix "finding-" s)) && str_forallb is_lower_hex_digit (str_drop 8 s).

Definition eligibleRuleSyntax (rule : string) : bool :=
  bool_decide (rule ∈ ["GR-PROC-001"; "GR-FS-001"; "GR-FS-002"; "GR-NET-001"; "GR-ART-001"; "GR-DET-001";
                       "GR-LIMIT-001"]%string).

(** [true] when [validateText] returns no error. *)
Definition validText (s : string) (min max : Z) : bool :=
  negb ((str_len s <? min) || (max <? str_len s) || negb (utf8_valid (to_bytes s)))
  && forallb (λ r, negb (is_control r)) (rune_values s).

Definition parseWaiverTime (s : string) : option Z :=
  if (str_len s != 20) || negb (has_last "Z" s) || has_byte "." (to_bytes s) then None
  else parse_time20 s.

Definition day_nanos : Z := 24 * 3600 * nanos_per_second.

Definition validateWaiver (l : Limits) (p : parsedWaiver) : result WaiverError Waiver :=
  let id := pw_id p in
  reject_if (negb (validWaiverID id)) (errCode "invalid-waiver-id" "validate" id) ;;
  reject_if (negb (validFindingID (pw_findingID p))) (errCode "invalid-finding-id" "validate" id) ;;
  reject_if (negb (eligibleRuleSyntax (pw_ruleID p))) (errCode "invalid-rule-id" "validate" id) ;;
  reject_if (negb (validText (pw_owner p) 1 (l_MaxOwnerBytes l))) (errCode "invalid-owner" "validate" id) ;;
  reject_if (negb (validText (pw_reason p) 1 (l_MaxReasonBytes l))) (errCode "invalid-reason" "validate" id) ;;
  match parseWaiverTime (pw_issuedAt p), parseWaiverTime (pw_expiresAt p) with
  | Some issued, Some expires =>
    reject_if (negb (issued <? expires)) (errCode "invalid-lifetime" "validate" id) ;;
    reject_if (l_MaxLifetimeDays l * day_nanos <? expires - issued) (errCode "invalid-lifetime" "validate" id) ;;
    mret (mkWaiver id (mkTarget (pw_findingID p) (pw_ruleID p)) (pw_owner p) (pw_reason p) issued expires)
  | _, _ => Err (errCode "invalid-time" "validate" id)
  end.

(** Loop state of [validateParsed]. *)
Record vpState := mkVpState {
  vp_waivers : list Waiver;
  vp_ids : gset string;
  vp_targets : gset string
}.

Definition validateParsedStep (l : Limits) (s : vpState) (p : parsedWaiver) : result WaiverError vpState :=
  w ← validateWaiver l p;
  reject_if (bool_decide (w_ID w ∈ vp_ids s)) (errCode "duplicate-waiver-id" "validate" (w_ID w)) ;;
  let fid := t_FindingID (w_Target w) in
  let tk := fid +:+ NUL +:+ t_RuleID (w_Target w) in
  let dup := errCode "duplicate-waiver-target" "validate" fid in
  reject_if (bool_decide (tk ∈ vp_targets s)) dup ;;
  reject_if (existsb (has_prefix (fid +:+ NUL)) (elements (vp_targets s))) dup ;;
  mret (mkVpState (vp_waivers s ++ [w]) ({[ w_ID w ]} ∪ vp_ids s) ({[ tk ]} ∪ vp_targets s)).

Definition validateParsed (l : Limits) (p : parsedDoc) : result WaiverError WaiverSet :=
  reject_if (pd_apiVersion p != APIVersionV1Alpha1) (errCode "invalid-api-version" "validate" "invalid apiVersion") ;;
  reject_if (pd_kind p != KindWaiverSet) (errCode "invalid-kind" "validate" "invalid kind") ;;
  reject_if (pd_metadataName p != "default"%string)
    (errCode "invalid-value" "validate" "metadata.name must be default") ;;
  reject_if (l_MaxWaivers l <? Z.of_nat (length (pd_waivers p)))
    (errCode "input-too-large" "validate" "too many waivers") ;;
  s ← foldR (validateParsedStep l) (mkVpState [] ∅ ∅) (pd_waivers p);
  mret (mkWaiverSet (pd_apiVersion p) (pd_kind p) (pd_metadataName p)
          (stable_sort waiver_less (vp_waivers s)) "" "" 0).

Definition Parse (yaml_load : YamlLoad) (data : bytes) (limits : Limits) : result WaiverError WaiverSet :=
  l ← validateLimits limits;
  preflight data l ;;
  n ← loadNode yaml_load data l;
  match n with
  | None => Err (errCode "yaml-syntax" "parse" "empty document")
  | Some n =>
    inspectNode n 1 l 0 ;;
    p ← decodeDoc n;
    set ← validateParsed l p;
    mret (mkWaiverSet (ws_APIVersion set) (ws_Kind set) (ws_MetadataName set) (ws_Waivers set)
            (rawDigest data) (semanticDigest set) (Z.of_nat (length data)))
  end.

(** ** [source.go] *)

Definition fileMeta (rev : CommitRef) (f : RevisionFile) : FileMetadata :=
  mkFileMetadata rev WaiverPath (rfl_Kind f)
    (match rfl_Data f with Some d => rawDigest d | None => ""%string end)
    (match rfl_Data f with Some d => Z.of_nat (length d) | None => 0 end)
    (rfl_Executable f) (rfl_ObjectID f).

Definition zeroFile : FileMetadata := mkFileMetadata (mkCommitRef "" "" "" "" "" "" "") "" "" "" 0 false "".
Definition zeroBase : BaseAssessment := mkBaseAssessment "" zeroFile [] "" "".
Definition zeroHead : HeadAssessment := mkHeadAssessment "" zeroFile [] "" [] "".

Definition change_less : Change → Change → bool := by_key ch_WaiverID str_lt (by_last ch_Kind str_lt).
Definition sortChanges (l : list Change) : list Change := stable_sort change_less l.

Definition addedChanges (ws : list Waiver) : list Change :=
  sortChanges ((λ w, mkChange (w_ID w) ChangeWaiverAdded) <$> ws).

Definition byID (ws : list Waiver) : gmap string Waiver := foldl (λ m w, <[w_ID w := w]> m) ∅ ws.

(** The changes between two waivers with one id. *)
Definition waiverChanges (id : string) (b h : Waiver) : list Change :=
  (if bool_decide (w_Target b = w_Target h) then [] else [mkChange id ChangeWaiverTargetChanged]) ++
  (if w_Owner b == w_Owner h then [] else [mkChange id ChangeWaiverOwnerChanged]) ++
  (if w_Reason b == w_Reason h then [] else [mkChange id ChangeWaiverReasonChanged]) ++
  (if w_IssuedAt b == w_IssuedAt h then [] else [mkChange id ChangeWaiverIssuedAtChanged]) ++
  (if w_ExpiresAt b == w_ExpiresAt h then [] else [mkChange id ChangeWaiverExpiryChanged]).

(** Go visits the two maps in an unspecified order; the changes are sorted
    afterwards, and no two of them are equal. *)
Definition compareSets (base head : list Waiver) : list Change :=
  let b := byID base in
  let h := byID head in
  sortChanges (
    (sorted_keys b ≫= λ id,
       match b !! id, h !! id with
       | Some bw, Some hw => waiverChanges id bw hw
       | _, _ => [mkChange id ChangeWaiverRemoved]
       end) ++
    ((λ id, mkChange id ChangeWaiverAdded) <$> filter (λ id, b !! id = None) (sorted_keys h))).

(** [append([]byte(nil), f.Data...)] read back as bytes *)
Definition dataOf (f : RevisionFile) : bytes := default [] (rfl_Data f).

Definition unsupportedEntry (f : RevisionFile) : bool :=
  (rfl_Kind f != EntryKindRegularFile) || rfl_Executable f.

(** What the base file contributes: its assessment, raw bytes, parsed set and
    whether it is present. *)
Record baseLoad := mkBaseLoad {
  bl_assessment : BaseAssessment;
  bl_raw : bytes;
  bl_set : WaiverSet;
  bl_present : bool
}.

Section trusted_load.
Context (yaml_load : YamlLoad) (l : Limits).

Definition assessBase (rev : CommitRef) (file : result ReadError RevisionFile) : result WaiverError baseLoad :=
match file with
| Err ErrNotExist => Ok (mkBaseLoad (mkBaseAssessment BaseStateAbsent zeroFile [] "" "") [] zeroSet false)
| Err ErrRevisionFileTooLarge =>
    Ok (mkBaseLoad (mkBaseAssessment BaseStateInvalid zeroFile [] "" "input-too-large") [] zeroSet true)
| Err (ErrContext | ErrOther) => Err (errCode "base-read-failed" "base" "base waiver read failed")
| Ok f =>
  let meta := fileMeta rev f in
  if unsupportedEntry f then
    Ok (mkBaseLoad (mkBaseAssessment BaseStateUnsupportedEntryKind meta [] "" "unsupported-entry-kind") [] zeroSet true)
  else if l_MaxWaiverFileBytes l <? Z.of_nat (length (dataOf f)) then
    Ok (mkBaseLoad (mkBaseAssessment BaseStateInvalid meta [] "" "input-too-large") [] zeroSet true)
  else
    Ok match Parse yaml_load (dataOf f) l with
       | Err e => mkBaseLoad (mkBaseAssessment BaseStateInvalid meta [] "" (we_Code e)) (dataOf f) zeroSet true
       | Ok set => mkBaseLoad (mkBaseAssessment BaseStateValid meta (ws_Waivers set) (ws_SemanticDigest set) "")
                     (dataOf f) set true
       end
end.

Definition headInvalid (meta : FileMetadata) (code : string) : HeadAssessment :=
mkHeadAssessment HeadStateModifiedInvalid meta [] "" [] code.
Definition headParsed (st : HeadState) (meta : FileMetadata) (set : WaiverSet) (changes : list Change) : HeadAssessment :=
mkHeadAssessment st meta (ws_Waivers set) (ws_SemanticDigest set) changes "".

Definition assessHead (rev : CommitRef) (b : baseLoad) (file : result ReadError RevisionFile) :
  result WaiverError HeadAssessment :=
match file with
| Err ErrNotExist =>
    Ok (mkHeadAssessment (if bl_present b then HeadStateRemoved else HeadStateAbsentOnBoth) zeroFile [] "" [] "")
| Err ErrRevisionFileTooLarge => Ok (headInvalid zeroFile "input-too-large")
| Err (ErrContext | ErrOther) => Err (errCode "head-inspection-failed" "head" "head waiver inspection failed")
| Ok f =>
  let meta := fileMeta rev f in
  let set := bl_set b in
  if unsupportedEntry f then
    Ok (mkHeadAssessment HeadStateUnsupportedEntryKind meta [] "" [] "unsupported-entry-kind")
  else if negb (bl_present b) then
    Ok match Parse yaml_load (dataOf f) l with
       | Err e => headInvalid meta (we_Code e)
       | Ok h => headParsed HeadStateAdded meta h (addedChanges (ws_Waivers h))
       end
  else if bool_decide (bl_raw b = dataOf f) then
    Ok (if ws_SemanticDigest set != ""%string then headParsed HeadStateUnchanged meta set []
        else mkHeadAssessment HeadStateUnchanged meta [] "" [] "")
  else
    Ok match Parse yaml_load (dataOf f) l with
       | Err e => headInvalid meta (we_Code e)
       | Ok h =>
         let valid := ba_State (bl_assessment b) == BaseStateValid in
         if valid && (ws_SemanticDigest set == ws_SemanticDigest h) then
           headParsed HeadStateContentChangedSemanticallyEquivalent meta h []
         else if valid then headParsed HeadStateModifiedValid meta h (compareSets (ws_Waivers set) (ws_Waivers h))
         else headParsed HeadStateAdded meta h (addedChanges (ws_Waivers h))
       end
end.
End trusted_load.

(** A nil source is [None]. *)
Definition LoadTrusted (yaml_load : YamlLoad) (ctx : Context) (source : option RevisionFileSource)
    (base head : CommitRef) (limits : Limits) : result WaiverError TrustedLoadResult :=
  l ← validateLimits limits;
  poll ctx 0 ;;
  match source with
  | None => Err (errCode "base-read-failed" "base" "nil revision file source")
  | Some ReadFile =>
    let baseFile := ReadFile base WaiverPath (l_MaxWaiverFileBytes l) in
    poll ctx 1 ;;
    b ← assessBase yaml_load l base baseFile;
    let headFile := ReadFile head WaiverPath (l_MaxWaiverFileBytes l) in
    poll ctx 2 ;;
    h ← assessHead yaml_load l head b headFile;
    mret (mkTrustedLoadResult base head (bl_assessment b) h)
  end.
