(* ===== verification/WaiverSpec.v ===== *)
(** * What the waiver package guarantees

    A parsed waiver set is well formed ([wf_set]); its semantic digest binds the
    set; the trusted load takes its authority from the base file alone; the
    changes it reports are exactly the differences between the two sets. *)

From stdpp Require Import prelude gmap strings sorting.
From Stdlib Require Import ZArith Lia Ascii.
From S2P Require Import Prelude GoStd Sha256 Framing GoTime Model Json GoText Yaml Compare Config Waiver.
Local Open Scope Z_scope.

(** ** Well-formed waivers *)

(** The built-in rules whose findings may be waived. *)
Definition waivableRules : list string :=
  ["GR-PROC-001"; "GR-FS-001"; "GR-FS-002"; "GR-NET-001"; "GR-ART-001"; "GR-DET-001"; "GR-LIMIT-001"]%string.

(** Text a reviewer can read: valid UTF-8 without control characters. *)
Definition readable (s : string) (max : Z) : Prop :=
  1 <= str_len s <= max ∧ utf8_valid (to_bytes s) = true ∧ ∀ r, r ∈ rune_values s → 32 <= r ∧ r <> 127.

(** At most 64 bytes: a lower-case letter, then lower-case letters, digits, dots,
    underscores and hyphens. *)
Definition waiver_id (s : string) : Prop :=
  str_len s <= 64 ∧
  ∃ c rest, to_bytes s = c :: rest ∧ 97 <= byte_val c <= 122 ∧
    Forall (λ b, 97 <= byte_val b <= 122 ∨ 48 <= byte_val b <= 57 ∨ byte_val b = 46 ∨ byte_val b = 95 ∨ byte_val b = 45) rest.

Record wf_waiver (l : Limits) (w : Waiver) : Prop := {
  wf_id : waiver_id (w_ID w);
  wf_target : ∃ h, t_FindingID (w_Target w) = "finding-" +:+ h ∧ str_len h = 64
                   ∧ ∀ c, c ∈ to_bytes h → is_lower_hex_digit (byte_val c) = true;
  wf_rule : t_RuleID (w_Target w) ∈ waivableRules;
  wf_owner : readable (w_Owner w) (l_MaxOwnerBytes l);
  wf_reason : readable (w_Reason w) (l_MaxReasonBytes l);
  wf_lifetime : 0 < w_ExpiresAt w - w_IssuedAt w <= l_MaxLifetimeDays l * day_nanos;
  wf_times : ∃ issued expires, parse_time20 issued = Some (w_IssuedAt w) ∧ parse_time20 expires = Some (w_ExpiresAt w)
}.

Record wf_waivers (l : Limits) (ws : list Waiver) : Prop := {
  wf_count : Z.of_nat (length ws) <= l_MaxWaivers l;
  wf_all : Forall (wf_waiver l) ws;
  wf_ids : NoDup (w_ID <$> ws);
  wf_targets : NoDup (t_FindingID ∘ w_Target <$> ws);
  wf_sorted : StronglySorted (not_after waiver_less) ws
}.

Record wf_set (l : Limits) (data : bytes) (s : WaiverSet) : Prop := {
  wf_version : ws_APIVersion s = APIVersionV1Alpha1 ∧ ws_Kind s = KindWaiverSet ∧ ws_MetadataName s = "default"%string;
  wf_list : wf_waivers l (ws_Waivers s);
  wf_size : ws_RawSizeBytes s = Z.of_nat (length data) ∧ 0 < ws_RawSizeBytes s <= l_MaxWaiverFileBytes l;
  wf_digests : ws_RawDigest s = rawDigest data ∧ ws_SemanticDigest s = semanticDigest s
}.

Lemma validateLimits_Ok l l' : validateLimits l = Ok l' →
  l' = l ∧ l_MaxWaiverFileBytes l <= 262144 ∧ l_MaxWaivers l <= 1000 ∧ l_MaxOwnerBytes l <= 256
  ∧ l_MaxReasonBytes l <= 1024 ∧ 0 < l_MaxLifetimeDays l <= 90.
Proof.
  unfold validateLimits, out_of_range. intros H. inv_ok. go_bool. subst l'.
  cbn in *. split_and!; done || lia.
Qed.

(** ** Validation *)

Lemma validText_readable s max : validText s 1 max = true → readable s max.
Proof.
  unfold validText, readable. intros H. go_bool. split_and!; try lia; [done|].
  intros r Hr. match goal with H : forallb _ _ = true |- _ => rewrite forallb_forall in H;
    specialize (H r (proj1 (list_elem_of_In _ _) Hr)) end.
  unfold is_control in *. go_bool. lia.
Qed.

Lemma validFindingID_shape s : validFindingID s = true →
  ∃ h, s = "finding-" +:+ h ∧ str_len h = 64 ∧ ∀ c, c ∈ to_bytes h → is_lower_hex_digit (byte_val c) = true.
Proof.
  unfold validFindingID. intros H. go_bool.
  match goal with H : has_prefix _ _ = true |- _ => apply has_prefix_spec in H as [h ->] end.
  exists h. split; [done|]. rewrite !str_len_bytes, to_bytes_app, length_app in *. cbn [length to_bytes] in *.
  split; [cbn in *; lia|]. intros c Hc.
  match goal with H : str_forallb _ _ = true |- _ => unfold str_forallb in H;
    change 8%nat with (String.length "finding-") in H; rewrite str_drop_app in H; rewrite forallb_forall in H; apply H end.
  by apply list_elem_of_In.
Qed.

Lemma validWaiverID_shape s : validWaiverID s = true → waiver_id s.
Proof.
  unfold validWaiverID. destruct (to_bytes s) as [|c rest] eqn:Eb; [done|]. intros H. go_bool. split; [done|].
  exists c, rest. split; [done|]. split; [lia|]. apply Forall_forall. intros b Hb.
  match goal with H : str_forallb _ _ = true |- _ => unfold str_forallb in H; rewrite Eb, forallb_forall in H;
    specialize (H b (proj1 (list_elem_of_In _ _) (list_elem_of_further _ _ _ Hb))); rename H into Hc end.
  unfold is_waiver_id_byte in Hc. apply orb_true_iff in Hc as [Hc|Hc]; [apply orb_true_iff in Hc as [Hc|Hc]; go_bool; lia|].
  apply bool_decide_eq_true in Hc. rewrite !elem_of_cons, elem_of_nil in Hc. lia.
Qed.

Lemma parseWaiverTime_Some s t : parseWaiverTime s = Some t → parse_time20 s = Some t.
Proof. unfold parseWaiverTime. by destruct (_ || _). Qed.

Lemma validateWaiver_wf l p w : validateWaiver l p = Ok w → wf_waiver l w.
Proof.
  unfold validateWaiver. intros H. inv_ok. go_bool.
  destruct (parseWaiverTime (pw_issuedAt p)) as [i|] eqn:Ei; [|done].
  destruct (parseWaiverTime (pw_expiresAt p)) as [e|] eqn:Ee; [|done].
  inv_ok. go_bool. subst w. split; cbn.
  - by apply validWaiverID_shape.
  - by apply validFindingID_shape.
  - match goal with H : eligibleRuleSyntax _ = true |- _ => unfold eligibleRuleSyntax in H end. by go_bool.
  - by apply validText_readable.
  - by apply validText_readable.
  - lia.
  - eexists _, _. split; by apply parseWaiverTime_Some.
Qed.

Definition targetKey (w : Waiver) : string := t_FindingID (w_Target w) +:+ NUL +:+ t_RuleID (w_Target w).

(** What the loop of [validateParsed] has established. *)
Record vp_inv (l : Limits) (s : vpState) : Prop := {
  vp_wf : Forall (wf_waiver l) (vp_waivers s);
  vp_seen w : w ∈ vp_waivers s → w_ID w ∈ vp_ids s ∧ targetKey w ∈ vp_targets s;
  vp_nodup_ids : NoDup (w_ID <$> vp_waivers s);
  vp_nodup_targets : NoDup (t_FindingID ∘ w_Target <$> vp_waivers s)
}.

Lemma string_app_assoc (a b c : string) : (a +:+ b) +:+ c = a +:+ (b +:+ c).
Proof. apply (inj to_bytes). by rewrite !to_bytes_app, app_assoc. Qed.

Lemma NoDup_fmap_snoc {A B} (f : A → B) l x :
  NoDup (f <$> l) → (∀ y, y ∈ l → f y <> f x) → NoDup (f <$> l ++ [x]).
Proof.
  intros Hl Hx. rewrite fmap_app. apply NoDup_app. split_and!; [done| |apply NoDup_singleton].
  intros b (y & -> & Hy)%list_elem_of_fmap. cbn. rewrite list_elem_of_singleton. by apply Hx.
Qed.

Lemma validateParsedStep_inv l s p s' :
  vp_inv l s → validateParsedStep l s p = Ok s' → vp_inv l s' ∧ length (vp_waivers s') = S (length (vp_waivers s)).
Proof.
  intros [Hwf Hseen Hids Htg] H. unfold validateParsedStep in H.
  apply bind_Ok in H as (w & Hw & H). cbv zeta in H. inv_ok. go_bool. subst s'. cbn.
  rewrite length_app, Nat.add_comm. split; [|done]. split; cbn.
  - apply Forall_app_2; [done|]. constructor; [by eapply validateWaiver_wf|constructor].
  - intros v. rewrite elem_of_app, list_elem_of_singleton. intros [Hv| ->]; [|unfold targetKey; set_solver].
    destruct (Hseen v Hv). set_solver.
  - apply NoDup_fmap_snoc; [done|]. intros v Hv E. destruct (Hseen v Hv). congruence.
  - apply NoDup_fmap_snoc; [done|]. intros v Hv E. cbn in E. destruct (Hseen v Hv) as [_ Hk].
    match goal with H : existsb _ _ = false |- _ => apply not_true_iff_false in H; apply H, existsb_exists end.
    exists (targetKey v). split; [by apply list_elem_of_In, elem_of_elements|].
    apply has_prefix_spec. exists (t_RuleID (w_Target v)). unfold targetKey. by rewrite E, string_app_assoc.
Qed.

Lemma validateParsed_wf l p set : validateParsed l p = Ok set →
  wf_waivers l (ws_Waivers set) ∧ ws_APIVersion set = APIVersionV1Alpha1 ∧ ws_Kind set = KindWaiverSet
  ∧ ws_MetadataName set = "default"%string.
Proof.
  unfold validateParsed. intros H. inv_ok. go_bool. subst set. cbn.
  match goal with H : foldR _ _ _ = Ok ?s |- _ => rename H into Hf; rename s into st end.
  assert (vp_inv l st ∧ length (vp_waivers st) = length (pd_waivers p)) as [[Hwf _ Hids Htg] Hlen].
  { clear -Hf. revert Hf.
    assert (∀ ps s, vp_inv l s → foldR (validateParsedStep l) s ps = Ok st →
              vp_inv l st ∧ length (vp_waivers st) = (length (vp_waivers s) + length ps)%nat) as Hgen.
    { induction ps as [|q ps IH]; cbn; intros s Hs Hf; [inv_ok; subst; split; [done|lia]|].
      destruct (validateParsedStep l s q) as [s1|] eqn:E; [|done].
      destruct (validateParsedStep_inv _ _ _ _ Hs E) as [Hs1 Hl]. destruct (IH _ Hs1 Hf) as [? ->].
      split; [done|]. rewrite Hl. lia. }
    intros Hf. apply (Hgen _ _) in Hf; [done|]. split; cbn; [constructor|by intros ? ?%not_elem_of_nil|constructor..]. }
  split_and!; try done.
  split; cbn; rewrite ?(stable_sort_Permutation waiver_less); try done; [lia|].
  apply stable_sort_StronglySorted, by_last_StrictWeak. apply st_weak.
Qed.

Lemma Parse_wf yaml_load data l set :
  Parse yaml_load data l = Ok set → wf_set l data set.
Proof.
  unfold Parse. intros H. apply bind_Ok in H as (l' & Hl & H).
  apply validateLimits_Ok in Hl as (-> & Hmax & _).
  apply bind_Ok in H as (u & Hp & H). apply bind_Ok in H as (n & Hn & H). destruct n as [n|]; [|done].
  apply bind_Ok in H as (? & Hins & H). apply bind_Ok in H as (p & Hdec & H). apply bind_Ok in H as (s & Hs & H).
  apply Ok_inj in H as <-. apply validateParsed_wf in Hs as (Hw & Hv & Hk & Hname).
  unfold preflight in Hp. apply reject_bind_Ok in Hp as [Hsz Hp]. do 2 apply reject_bind_Ok in Hp as [_ Hp].
  apply reject_bind_Ok in Hp as [Hne _]. go_bool.
  split; cbn; [done|done| |split; [done|]; by unfold semanticDigest].
  split; [done|]. destruct data as [|c data]; [done|]. cbn [length] in *. lia.
Qed.

(** C36: a document that parses is a well-formed waiver set: the fixed version,
    kind and name, at most the allowed number of waivers, each with a valid
    identity, a syntactically valid target finding of a waivable rule, readable
    owner and reason and a lifetime of at most the allowed days; no two with the
    same identity or the same target finding; sorted by identity; with the digest
    and the size of its bytes.  This holds whatever the YAML loader returns. *)
Theorem parse_well_formed yaml_load data l set :
  Parse yaml_load data l = Ok set → wf_set l data set.
Proof. apply Parse_wf. Qed.

(** ** The semantic digest *)

Definition time_ok (t : Z) : Prop := ∃ s, parse_time20 s = Some t.

#[global] Instance writeTime_prefix_free : PrefixFree time_ok writeTime.
Proof.
  assert (∀ s t, parse_time20 s = Some t → is_str s) as Hstr.
  { intros s t. unfold parse_time20, is_str. rewrite str_len_bytes.
    generalize (to_bytes s). intros l H.
    do 20 (destruct l as [|? l]; [done|]). destruct l; [done|done]. }
  intros x y r s [sx Hx] [sy Hy] H. unfold writeTime in H.
  pose proof (format_parse_time20 _ _ Hx) as [Ex _]. pose proof (format_parse_time20 _ _ Hy) as [Ey _].
  rewrite Ex, Ey in H. apply (prefix_free (ok := is_str)) in H as [E ?]; [|by eapply Hstr..].
  split; [congruence|done].
Qed.

Record waiver_ok (w : Waiver) : Prop := {
  wo_strings : Forall is_str [w_ID w; t_FindingID (w_Target w); t_RuleID (w_Target w); w_Owner w; w_Reason w];
  wo_times : time_ok (w_IssuedAt w) ∧ time_ok (w_ExpiresAt w)
}.

#[global] Instance writeWaiver_prefix_free : PrefixFree waiver_ok writeWaiver.
Proof.
  intros [? [? ?] ? ? ? ?] [? [? ?] ? ? ? ?] r s [Hx [Hi He]] [Hy [Hi' He']] H. cbn in *.
  repeat setoid_rewrite Forall_cons in Hx. repeat setoid_rewrite Forall_cons in Hy. destruct_and!.
  unfold writeWaiver in H. cbn in H. rewrite <- !app_assoc in H. peel_frames.
  apply (prefix_free (ok := time_ok)) in H as [? H]; [|done..].
  apply (prefix_free (ok := time_ok)) in H as [? H]; [|done..].
  split; [|done]. by subst.
Qed.

Lemma wf_waiver_ok l w :
  l_MaxOwnerBytes l <= 256 → l_MaxReasonBytes l <= 1024 → wf_waiver l w → waiver_ok w.
Proof.
  intros Ho Hr [[Hid _] (h & Ht & Hh & _) Hrule [Hown _] [Hreas _] _ (i & e & Hi & He)]. split; [|split; by eexists].
  repeat constructor; unfold is_str; try lia.
  - rewrite Ht, !str_len_bytes, to_bytes_app, length_app in *. cbn [length to_bytes] in *. cbn in *. lia.
  - set_unfold in Hrule. destruct_or! Hrule; subst; rewrite Hrule; done.
Qed.

Lemma wf_semantic_list l ws : l_MaxWaivers l <= 1000 → l_MaxOwnerBytes l <= 256 → l_MaxReasonBytes l <= 1024 →
  wf_waivers l ws → is_list waiver_ok ws ∧ stable_sort waiver_less ws = ws.
Proof.
  intros Hm Ho Hr [Hc Ha _ _ Hs]. split; [split; [lia|]|].
  - eapply Forall_impl; [done|]. intros w. by apply wf_waiver_ok.
  - by apply stable_sort_id.
Qed.

(** The semantic digest of a parsed file is a digest of its waivers and of
    nothing else: two files hash the same bytes exactly when they state the same
    waivers, whatever their layout, their order and the limits they were read
    under. *)
Theorem semantic_digest_binds yaml_load data l set yaml_load' data' l' set' :
  Parse yaml_load data l = Ok set → Parse yaml_load' data' l' = Ok set' →
  semanticPreimage set = semanticPreimage set' ↔ ws_Waivers set = ws_Waivers set'.
Proof.
  intros H H'. pose proof (Parse_wf _ _ _ _ H) as [(? & ? & ?) Hw _ _].
  pose proof (Parse_wf _ _ _ _ H') as [(? & ? & ?) Hw' _ _].
  unfold Parse in H, H'. apply bind_Ok in H as (l1 & Hl & _), H' as (l2 & Hl' & _).
  apply validateLimits_Ok in Hl as (-> & _ & ? & ? & ? & _), Hl' as (-> & _ & ? & ? & ? & _).
  apply wf_semantic_list in Hw as [Hok Hs], Hw' as [Hok' Hs']; [|done..].
  unfold semanticPreimage. rewrite Hs, Hs'. split; [|congruence].
  replace (ws_APIVersion set') with (ws_APIVersion set) by congruence.
  replace (ws_Kind set') with (ws_Kind set) by congruence.
  replace (ws_MetadataName set') with (ws_MetadataName set) by congruence.
  intros E. do 3 apply app_inv_head in E.
  by apply (prefix_free_inj (is_list waiver_ok) (framed_list writeWaiver)) in E.
Qed.

(** ** Differences between two sets *)

(** The fields of a waiver that a change of its kind is about. *)
Inductive field_differs (b h : Waiver) : ChangeKind → Prop :=
| target_differs : w_Target b <> w_Target h → field_differs b h ChangeWaiverTargetChanged
| owner_differs : w_Owner b <> w_Owner h → field_differs b h ChangeWaiverOwnerChanged
| reason_differs : w_Reason b <> w_Reason h → field_differs b h ChangeWaiverReasonChanged
| issued_differs : w_IssuedAt b <> w_IssuedAt h → field_differs b h ChangeWaiverIssuedAtChanged
| expiry_differs : w_ExpiresAt b <> w_ExpiresAt h → field_differs b h ChangeWaiverExpiryChanged.
#[local] Hint Constructors field_differs : core.

(** What a change says about the base and the head waivers. *)
Inductive differs (base head : list Waiver) : Change → Prop :=
| differs_added w : w ∈ head → (∀ b, b ∈ base → w_ID b <> w_ID w) → differs base head (mkChange (w_ID w) ChangeWaiverAdded)
| differs_removed w : w ∈ base → (∀ h, h ∈ head → w_ID h <> w_ID w) → differs base head (mkChange (w_ID w) ChangeWaiverRemoved)
| differs_field b h kind :
    b ∈ base → h ∈ head → w_ID b = w_ID h → field_differs b h kind →
    differs base head (mkChange (w_ID b) kind).

Lemma elem_of_unless (P : Prop) `{!Decision P} (c x : Change) :
  c ∈ (if bool_decide P then [] else [x]) ↔ ¬ P ∧ c = x.
Proof.
  case_bool_decide; [split; [by intros ?%not_elem_of_nil|tauto]|]. rewrite list_elem_of_singleton. tauto.
Qed.

Lemma elem_of_waiverChanges id b h c : c ∈ waiverChanges id b h ↔
  ∃ kind, c = mkChange id kind ∧ field_differs b h kind.
Proof.
  unfold waiverChanges. rewrite !elem_of_app, !elem_of_unless. split.
  - intros H. destruct_or! H; destruct H as [Hne ->]; eauto.
  - intros (kind & -> & []); tauto.
Qed.

Lemma byID_Some ws id w : NoDup (w_ID <$> ws) → byID ws !! id = Some w ↔ w ∈ ws ∧ w_ID w = id.
Proof. apply (foldl_insert_lookup_empty w_ID). Qed.
Lemma byID_None ws id : NoDup (w_ID <$> ws) → byID ws !! id = None ↔ ∀ w, w ∈ ws → w_ID w <> id.
Proof. apply (foldl_insert_None w_ID). Qed.

Lemma compareSets_differs base head c :
  NoDup (w_ID <$> base) → NoDup (w_ID <$> head) → c ∈ compareSets base head ↔ differs base head c.
Proof.
  intros Hb Hh. unfold compareSets, sortChanges. rewrite stable_sort_Permutation, elem_of_app, list_elem_of_bind, list_elem_of_fmap.
  setoid_rewrite elem_of_sorted_keys. setoid_rewrite list_elem_of_filter. setoid_rewrite elem_of_sorted_keys.
  split.
  - intros [(id & Hc & bw & Hbw)|(id & -> & Hn & hw & Hhw)].
    + rewrite Hbw in Hc. apply byID_Some in Hbw as [Hin <-]; [|done].
      destruct (byID head !! w_ID bw) as [hw|] eqn:Hhw.
      * apply byID_Some in Hhw as [Hhin E]; [|done]. apply elem_of_waiverChanges in Hc as (kind & -> & Hk).
        by eapply differs_field.
      * apply list_elem_of_singleton in Hc as ->. apply differs_removed; [done|]. by apply byID_None.
    + apply byID_Some in Hhw as [Hin <-]; [|done]. apply differs_added; [done|]. by apply byID_None.
  - intros [w Hw Hn|w Hw Hn|b h kind Hbin Hhin E Hk].
    + right. exists (w_ID w). split; [done|]. split; [by apply byID_None|]. exists w. by apply byID_Some.
    + left. exists (w_ID w). assert (byID base !! w_ID w = Some w) as -> by by apply byID_Some.
      rewrite (proj2 (byID_None head (w_ID w) Hh) Hn). split; [by apply list_elem_of_singleton|by eexists].
    + left. exists (w_ID b). assert (byID base !! w_ID b = Some b) as -> by by apply byID_Some.
      assert (byID head !! w_ID b = Some h) as -> by by apply byID_Some.
      split; [apply elem_of_waiverChanges; by eexists|by eexists].
Qed.

Lemma waiver_fields b h :
  w_ID b = w_ID h → w_Target b = w_Target h → w_Owner b = w_Owner h → w_Reason b = w_Reason h →
  w_IssuedAt b = w_IssuedAt h → w_ExpiresAt b = w_ExpiresAt h → b = h.
Proof. destruct b, h. cbn. congruence. Qed.

Lemma no_difference base head : NoDup (w_ID <$> base) → NoDup (w_ID <$> head) →
  (∀ c, ¬ differs base head c) → ∀ w, w ∈ base ↔ w ∈ head.
Proof.
  intros Hb Hh Hn.
  assert (∀ b h, b ∈ base → h ∈ head → w_ID b = w_ID h → b = h) as Heq.
  { intros b h Hbin Hhin E.
    assert (∀ kind, ¬ field_differs b h kind) as Hk by
      (intros kind Hk; exact (Hn _ (differs_field _ _ b h kind Hbin Hhin E Hk))).
    apply waiver_fields; [done|..]; apply dec_stable; intros Hne; eapply Hk; eauto. }
  intros w. split; intros Hw.
  - destruct (byID head !! w_ID w) as [h|] eqn:E.
    + apply byID_Some in E as [Hin E]; [|done]. by rewrite (Heq w h).
    + destruct (Hn _ (differs_removed _ _ w Hw (proj1 (byID_None _ _ Hh) E))).
  - destruct (byID base !! w_ID w) as [b|] eqn:E.
    + apply byID_Some in E as [Hin E]; [|done]. by rewrite <- (Heq b w).
    + destruct (Hn _ (differs_added _ _ w Hw (proj1 (byID_None _ _ Hb) E))).
Qed.

(** The changes reported between the waivers of two parsed files are exactly
    their differences: a waiver added or removed by identity, or a waiver kept
    whose target, owner, reason, issue time or expiry differs; nothing is
    reported exactly when the two files state the same waivers. *)
Theorem compare_sets_exact l l' base head :
  wf_waivers l base → wf_waivers l' head →
  (∀ c, c ∈ compareSets base head ↔ differs base head c) ∧ (compareSets base head = [] ↔ base = head).
Proof.
  intros [_ _ Hb _ Hsb] [_ _ Hh _ Hsh].
  assert (∀ c, c ∈ compareSets base head ↔ differs base head c) as Hc by (intros c; by apply compareSets_differs).
  split; [done|]. split.
  - intros E. rewrite E in Hc.
    apply (sorted_unique waiver_less); [|done..|].
    + intros x y Hx Hy Hxy Hyx. assert (w_ID x = w_ID y) as Eid by by apply st_total.
      assert (byID base !! w_ID x = Some x) as E1 by by apply byID_Some.
      assert (byID base !! w_ID x = Some y) as E2 by by apply byID_Some. congruence.
    + apply NoDup_Permutation; [by eapply NoDup_fmap_1|by eapply NoDup_fmap_1|].
      apply no_difference; [done..|]. intros c Hd. apply Hc in Hd. by apply not_elem_of_nil in Hd.
  - intros <-. apply elem_of_nil_inv. intros c Hd. apply Hc in Hd as [w Hw Hn|w Hw Hn|b h kind Hbin Hhin E Hk].
    + by eapply Hn.
    + by eapply Hn.
    + assert (byID base !! w_ID b = Some b) as E1 by by apply byID_Some.
      assert (byID base !! w_ID b = Some h) as E2 by by apply byID_Some.
      assert (b = h) as <- by congruence. by destruct Hk.
Qed.

(** ** The trusted load

    An abstract description: what a revision holds at the waiver path, and the
    assessment of a pair of them. *)
Inductive content :=
| Missing
| Oversized
| Unsupported (f : RevisionFile)
| Malformed (f : RevisionFile) (code : string)
| WellFormed (f : RevisionFile) (set : WaiverSet).

Section content.
Context (yaml_load : YamlLoad) (l : Limits).

(** [None]: the source failed to read the revision. *)
Definition content_of (file : result ReadError RevisionFile) : option content :=
  match file with
  | Err ErrNotExist => Some Missing
  | Err ErrRevisionFileTooLarge => Some Oversized
  | Err (ErrContext | ErrOther) => None
  | Ok f => Some (if unsupportedEntry f then Unsupported f
                  else match Parse yaml_load (dataOf f) l with
                       | Ok set => WellFormed f set
                       | Err e => Malformed f (we_Code e)
                       end)
  end.

Definition metadata (rev : CommitRef) (c : content) : FileMetadata :=
  match c with Missing | Oversized => zeroFile | Unsupported f | Malformed f _ | WellFormed f _ => fileMeta rev f end.

(** Authority: only a well-formed file has waivers. *)
Definition base_of (rev : CommitRef) (c : content) : BaseAssessment :=
  let meta := metadata rev c in
  match c with
  | Missing => mkBaseAssessment BaseStateAbsent meta [] "" ""
  | Oversized => mkBaseAssessment BaseStateInvalid meta [] "" "input-too-large"
  | Unsupported _ => mkBaseAssessment BaseStateUnsupportedEntryKind meta [] "" "unsupported-entry-kind"
  | Malformed _ code => mkBaseAssessment BaseStateInvalid meta [] "" code
  | WellFormed _ set => mkBaseAssessment BaseStateValid meta (ws_Waivers set) (ws_SemanticDigest set) ""
  end.

(** The bytes the head is compared with. *)
Definition base_bytes (c : content) : bytes :=
  match c with
  | WellFormed f _ => dataOf f
  | Malformed f _ => if l_MaxWaiverFileBytes l <? Z.of_nat (length (dataOf f)) then [] else dataOf f
  | _ => []
  end.

(** What the head did to the waivers: its state and its changes. *)
Definition head_change (base head : content) : HeadState * list Change :=
  match base, head with
  | Missing, Missing => (HeadStateAbsentOnBoth, [])
  | _, Missing => (HeadStateRemoved, [])
  | _, Oversized => (HeadStateModifiedInvalid, [])
  | _, Unsupported _ => (HeadStateUnsupportedEntryKind, [])
  | Missing, Malformed _ _ => (HeadStateModifiedInvalid, [])
  | Missing, WellFormed _ h => (HeadStateAdded, addedChanges (ws_Waivers h))
  | _, Malformed f _ =>
      (if bool_decide (base_bytes base = dataOf f) then HeadStateUnchanged else HeadStateModifiedInvalid, [])
  | WellFormed _ b, WellFormed f h =>
      if bool_decide (base_bytes base = dataOf f) then (HeadStateUnchanged, [])
      else if bool_decide (ws_SemanticDigest b = ws_SemanticDigest h)
      then (HeadStateContentChangedSemanticallyEquivalent, [])
      else (HeadStateModifiedValid, compareSets (ws_Waivers b) (ws_Waivers h))
  | _, WellFormed _ h => (HeadStateAdded, addedChanges (ws_Waivers h))
  end.

Definition head_of (rev : CommitRef) (base head : content) : HeadAssessment :=
  let '(st, changes) := head_change base head in
  let meta := metadata rev head in
  match head with
  | Missing => mkHeadAssessment st meta [] "" changes ""
  | Oversized => mkHeadAssessment st meta [] "" changes "input-too-large"
  | Unsupported _ => mkHeadAssessment st meta [] "" changes "unsupported-entry-kind"
  | Malformed _ code => mkHeadAssessment st meta [] "" changes (if bool_decide (st = HeadStateUnchanged) then "" else code)
  | WellFormed _ h => mkHeadAssessment st meta (ws_Waivers h) (ws_SemanticDigest h) changes ""
  end.
End content.

(** The assessment of two revisions, when neither read fails. *)
Definition assessment (yaml_load : YamlLoad) (l : Limits) (ReadFile : RevisionFileSource) (base head : CommitRef) :
    option TrustedLoadResult :=
  cb ← content_of yaml_load l (ReadFile base WaiverPath (l_MaxWaiverFileBytes l));
  ch ← content_of yaml_load l (ReadFile head WaiverPath (l_MaxWaiverFileBytes l));
  Some (mkTrustedLoadResult base head (base_of base cb) (head_of l head cb ch)).

Section refinement.
Context (yaml_load : YamlLoad) (l : Limits) (Hl : validateLimits l = Ok l).

Lemma Parse_oversized data : l_MaxWaiverFileBytes l < Z.of_nat (length data) →
  Parse yaml_load data l = Err (errCode "input-too-large" "preflight" "waiver file exceeds byte limit").
Proof. intros H. unfold Parse. rewrite Hl. cbn. unfold preflight. by rewrite (proj2 (Z.ltb_lt _ _) H). Qed.

Lemma Parse_semantic data set : Parse yaml_load data l = Ok set → ws_SemanticDigest set <> ""%string.
Proof.
  intros H. apply Parse_wf in H as [_ _ _ [_ ->]]. unfold semanticDigest. by intros [=].
Qed.

Lemma assessBase_content rev file :
  match content_of yaml_load l file with
  | None => ∃ e, assessBase yaml_load l rev file = Err e
  | Some c => ∃ set, assessBase yaml_load l rev file
      = Ok (mkBaseLoad (base_of rev c) (base_bytes l c) set (match c with Missing => false | _ => true end))
      ∧ set = match c with WellFormed _ s => s | _ => zeroSet end
  end.
Proof.
  destruct file as [f|[]]; cbn; [|by eexists..].
  destruct (unsupportedEntry f); [by eexists|].
  destruct (_ <? _) eqn:E; go_bool.
  - rewrite Parse_oversized by done. eexists. split; [|done]. cbn.
    by rewrite (proj2 (Z.ltb_lt _ _) E).
  - destruct (Parse _ _ _); eexists; (split; [|done]); cbn; [done|].
    by rewrite (proj2 (Z.ltb_ge _ _) E).
Qed.
Lemma Parse_nonempty data set : Parse yaml_load data l = Ok set → data <> [].
Proof. intros H ->. apply Parse_wf in H as [_ _ [? ?] _]. cbn in *. lia. Qed.

(** The bytes of a base that is not well formed do not parse. *)
Lemma base_bytes_malformed file c : content_of yaml_load l file = Some c →
  (∀ f s, c <> WellFormed f s) → ∀ set, Parse yaml_load (base_bytes l c) l <> Ok set.
Proof.
  intros Hc Hn set Hp. pose proof (Parse_nonempty _ _ Hp) as Hne.
  destruct c as [| |f|f code|f s]; cbn in Hp, Hne; try done; [|by eapply Hn].
  destruct (_ <? _); [done|].
  destruct file as [g|[]]; cbn in Hc; try done. destruct (unsupportedEntry g); [done|].
  destruct (Parse yaml_load (dataOf g) l) eqn:E; simplify_eq. congruence.
Qed.

(** The load's record of a base file and its content. *)
Definition base_load (rev : CommitRef) (c : content) : baseLoad :=
  mkBaseLoad (base_of rev c) (base_bytes l c) (match c with WellFormed _ s => s | _ => zeroSet end)
    (match c with Missing => false | _ => true end).

Lemma assessHead_content brev bfile cb rev file :
  content_of yaml_load l bfile = Some cb →
  assessHead yaml_load l rev (base_load brev cb) file
  = match content_of yaml_load l file with
    | None => Err (errCode "head-inspection-failed" "head" "head waiver inspection failed")
    | Some ch => Ok (head_of l rev cb ch)
    end.
Proof.
  intros Hb. destruct file as [f|[]]; cbn; [|by destruct cb..|done|done].
  destruct (unsupportedEntry f); [by destruct cb|].
  assert (cb = Missing ∨ cb <> Missing) as [-> |Hne] by (destruct cb; auto); [cbn; by destruct (Parse _ _ _)|].
  assert (negb (match cb with Missing => false | _ => true end) = false) as -> by by destruct cb.
  destruct (bool_decide (base_bytes l cb = dataOf f)) eqn:Eb.
  - apply bool_decide_eq_true in Eb. destruct cb as [| |b|b code|b set]; try done.
    4:{ cbn in Hb. destruct bfile as [g|[]]; cbn in Hb; try done. destruct (unsupportedEntry g); [done|].
        destruct (Parse yaml_load (dataOf g) l) as [set'|] eqn:Eg; simplify_eq. cbn in Eb.
        rewrite <- Eb, Eg. cbn. rewrite bool_decide_false by by eapply Parse_semantic.
        cbn. unfold head_of. cbn. by rewrite bool_decide_true. }
    all: destruct (Parse yaml_load (dataOf f) l) as [h|e] eqn:Ef;
      [rewrite <- Eb in Ef; exfalso; by eapply base_bytes_malformed|];
      unfold head_of; cbn [head_change]; by rewrite (bool_decide_true _ Eb).
  - apply bool_decide_eq_false in Eb. unfold headParsed, headInvalid.
    destruct (Parse yaml_load (dataOf f) l) as [h|e] eqn:Ef; unfold head_of;
      destruct cb as [| |b|b code|b set]; try done; cbn [head_change]; rewrite ?(bool_decide_false _ Eb);
      try done. cbn [base_of ba_State]. rewrite (bool_decide_true (BaseStateValid = BaseStateValid)) by done.
    cbn [andb]. by destruct (bool_decide _).
Qed.

End refinement.

(** The trusted load refines the abstract assessment: it succeeds exactly
    when the limits are valid, the context is never cancelled and neither
    revision fails to be read, and then returns what each revision holds at the
    waiver path, the base's authority and the head's change.  A waiver file that
    is missing, oversized, of another kind or malformed is an assessed state,
    never an error. *)
Theorem load_trusted_refines yaml_load ctx ReadFile base head l r :
  LoadTrusted yaml_load ctx (Some ReadFile) base head l = Ok r ↔
  validateLimits l = Ok l ∧ ctx 0%nat = None ∧ ctx 1%nat = None ∧ ctx 2%nat = None
  ∧ assessment yaml_load l ReadFile base head = Some r.
Proof.
  unfold LoadTrusted, assessment, poll. destruct (validateLimits l) as [l'|] eqn:Hl; cbn; [|by split; [|intros (? & _)]].
  pose proof Hl as Hl'. apply validateLimits_Ok in Hl' as (-> & _).
  destruct (ctx 0%nat); cbn; [by split; [|intros (_ & ? & _)]|].
  destruct (ctx 1%nat); cbn; [by split; [|intros (_ & _ & ? & _)]|].
  pose proof (assessBase_content yaml_load l Hl base (ReadFile base WaiverPath (l_MaxWaiverFileBytes l))) as Hb.
  destruct (content_of yaml_load l (ReadFile base _ _)) as [cb|] eqn:Ecb; cbn in *.
  2:{ destruct Hb as [e ->]. cbn. by split; [|intros (_ & _ & _ & _ & ?)]. }
  destruct Hb as (set & -> & ->). cbn. change (mkBaseLoad _ _ _ _) with (base_load l base cb).
  destruct (ctx 2%nat); cbn; [by split; [|intros (_ & _ & _ & ? & _)]|].
  rewrite (assessHead_content yaml_load l base _ _ _ _ Ecb).
  destruct (content_of yaml_load l (ReadFile head _ _)) as [ch|]; cbn; [|by split; [|intros (_ & _ & _ & _ & ?)]].
  split; [intros ->%Ok_inj; done|]. intros (_ & _ & _ & _ & [= <-]). done.
Qed.
