(* ===== verification/WaiverEx.v ===== *)
(** * A worked waiver file

    Two documents as a YAML loader returns them, their parses, and the trusted
    load of a base and a head that hold them.  The theorems of [WaiverSpec] are
    instantiated here. *)

From stdpp Require Import prelude gmap strings sorting.
From Stdlib Require Import ZArith Lia Ascii.
From S2P Require Import Prelude GoStd Sha256 Framing GoTime Model Json GoText Yaml Compare Config Waiver WaiverSpec.
Local Open Scope Z_scope.

(** ** Documents *)

Definition y_str (s : string) : Node := mkNode ScalarNode false "!!str" s "" 0 0 [].
Definition y_map (fields : list (string * Node)) : Node :=
  mkNode MappingNode false "!!map" "" "" 0 0 (fields ≫= λ '(k, v), [y_str k; v]).
Definition y_seq (items : list Node) : Node := mkNode SequenceNode false "!!seq" "" "" 0 0 items.
Definition y_doc (n : Node) : Node := mkNode DocumentNode false "" "" "" 0 0 [n].

Definition y_waiver (id fid rule owner reason issued expires : string) : Node :=
  y_map [("id", y_str id); ("target", y_map [("findingId", y_str fid); ("ruleId", y_str rule)]);
         ("owner", y_str owner); ("reason", y_str reason); ("issuedAt", y_str issued); ("expiresAt", y_str expires)]%string.
Definition y_waivers (ws : list Node) : Node :=
  y_doc (y_map [("apiVersion", y_str APIVersionV1Alpha1); ("kind", y_str KindWaiverSet);
                ("metadata", y_map [("name", y_str "default")]); ("spec", y_map [("waivers", y_seq ws)])]%string).

(** A finding to waive. *)
Definition ex_fid : string := "finding-" +:+ String.concat "" (replicate 64 "a"%string).

Definition ex_base_doc : Node := y_waivers
  [y_waiver "connect" ex_fid "GR-NET-001" "ops" "known mirror" "2024-01-01T00:00:00Z" "2024-02-01T00:00:00Z"].
Definition ex_head_doc : Node := y_waivers
  [y_waiver "connect" ex_fid "GR-NET-001" "ops" "known mirror" "2024-01-01T00:00:00Z" "2024-03-01T00:00:00Z"].

Definition ex_base_bytes : bytes := to_bytes "base: waivers".
Definition ex_head_bytes : bytes := to_bytes "head: waivers".

(** A loader for the two documents; any other text is a syntax error. *)
Definition ex_load : YamlLoad := λ _ _ data,
  if bool_decide (data = ex_base_bytes) then Ok [ex_base_doc]
  else if bool_decide (data = ex_head_bytes) then Ok [ex_head_doc]
  else Err "did not find expected node content"%string.

Definition okSet (r : result WaiverError WaiverSet) : WaiverSet := match r with Ok s => s | Err _ => zeroSet end.
Definition ex_base_set : WaiverSet := Eval vm_compute in okSet (Parse ex_load ex_base_bytes DefaultLimits).
Definition ex_head_set : WaiverSet := Eval vm_compute in okSet (Parse ex_load ex_head_bytes DefaultLimits).

Lemma ex_base_parse : Parse ex_load ex_base_bytes DefaultLimits = Ok ex_base_set.
Proof. vm_compute. reflexivity. Qed.
Lemma ex_head_parse : Parse ex_load ex_head_bytes DefaultLimits = Ok ex_head_set.
Proof. vm_compute. reflexivity. Qed.

Definition ex_waiver : Waiver := Eval vm_compute in match ws_Waivers ex_base_set with w :: _ => w | [] => mkWaiver "" (mkTarget "" "") "" "" 0 0 end.
Definition ex_waiver' : Waiver := Eval vm_compute in match ws_Waivers ex_head_set with w :: _ => w | [] => ex_waiver end.

(** A waiver that would outlive the limit is refused. *)
Example ex_long_lifetime :
  let doc := y_waivers [y_waiver "w" ex_fid "GR-NET-001" "ops" "r" "2024-01-01T00:00:00Z" "2024-06-01T00:00:00Z"] in
  Parse (λ _ _ _, Ok [doc]) ex_base_bytes DefaultLimits = Err (errCode "invalid-lifetime" "validate" "w").
Proof. vm_compute. reflexivity. Qed.

(** ** Witnesses *)

Lemma parse_well_formed_witness : wf_set DefaultLimits ex_base_bytes ex_base_set.
Proof. exact (parse_well_formed ex_load ex_base_bytes DefaultLimits ex_base_set ex_base_parse). Defined.

Lemma semantic_digest_binds_witness :
  semanticPreimage ex_base_set = semanticPreimage ex_head_set ↔ ws_Waivers ex_base_set = ws_Waivers ex_head_set.
Proof.
  exact (semantic_digest_binds ex_load ex_base_bytes DefaultLimits ex_base_set ex_load ex_head_bytes DefaultLimits
    ex_head_set ex_base_parse ex_head_parse).
Defined.

Lemma compare_sets_exact_witness :
  mkChange "connect" ChangeWaiverExpiryChanged ∈ compareSets (ws_Waivers ex_base_set) (ws_Waivers ex_head_set)
  ∧ ¬ compareSets (ws_Waivers ex_base_set) (ws_Waivers ex_head_set) = [].
Proof.
  pose proof (Parse_wf ex_load ex_base_bytes DefaultLimits ex_base_set ex_base_parse) as [_ Hb _ _].
  pose proof (Parse_wf ex_load ex_head_bytes DefaultLimits ex_head_set ex_head_parse) as [_ Hh _ _].
  pose proof (compare_sets_exact DefaultLimits DefaultLimits (ws_Waivers ex_base_set) (ws_Waivers ex_head_set) Hb Hh) as [H1 H2].
  split.
  - apply H1. apply (differs_field _ _ ex_waiver ex_waiver').
    + apply list_elem_of_here.
    + apply list_elem_of_here.
    + reflexivity.
    + apply expiry_differs. vm_compute. discriminate.
  - rewrite H2. vm_compute. discriminate.
Defined.

(** ** A repository with a base and a head revision *)

Definition ex_base_rev : CommitRef := mkCommitRef "base" "repo" "main" "c1" "sha1" "t1" "".
Definition ex_head_rev : CommitRef := mkCommitRef "head" "repo" "topic" "c2" "sha1" "t2" "".

Definition ex_file (data : bytes) : RevisionFile := mkRevisionFile EntryKindRegularFile (Some data) false "blob".

(** A source that holds the given files at the two revisions. *)
Definition ex_source (base head : result ReadError RevisionFile) : RevisionFileSource :=
  λ rev _ _, if bool_decide (cr_CommitID rev = "c1"%string) then base else head.

Definition ex_load_trusted (base head : result ReadError RevisionFile) : result WaiverError TrustedLoadResult :=
  LoadTrusted ex_load (λ _, None) (Some (ex_source base head)) ex_base_rev ex_head_rev DefaultLimits.

Example ex_trusted_modified :
  match ex_load_trusted (Ok (ex_file ex_base_bytes)) (Ok (ex_file ex_head_bytes)) with
  | Ok r => (ba_State (tl_Base r), ha_State (tl_Head r), ha_Changes (tl_Head r))
            = (BaseStateValid, HeadStateModifiedValid, [mkChange "connect" ChangeWaiverExpiryChanged])
  | Err _ => False
  end.
Proof. vm_compute. reflexivity. Qed.

(** When the base is no regular file, an empty head file is reported as
    unchanged: the comparison of the two is made with the bytes of a base that
    was never read. *)
Example empty_head_reported_unchanged :
  match ex_load_trusted (Ok (mkRevisionFile EntryKindSymlink None false "blob")) (Ok (ex_file [])) with
  | Ok r => (ba_State (tl_Base r), ha_State (tl_Head r)) = (BaseStateUnsupportedEntryKind, HeadStateUnchanged)
  | Err _ => False
  end.
Proof. vm_compute. reflexivity. Qed.
