(* ===== verification/ConfigEx.v ===== *)
(** * A worked pipeline file

    Documents as a YAML loader returns them, the pipelines they say, and the
    trusted load of a base and a head that hold them.  The theorems of
    [ConfigSpec] and [ConfigDiff] are instantiated here. *)

From stdpp Require Import prelude gmap strings sorting.
From Stdlib Require Import ZArith Lia Ascii.
From S2P Require Import Prelude GoStd GoTime Model Json GoText Yaml Compare CompareEx Waiver WaiverEx Config ConfigParse ConfigValidate ConfigTrusted ConfigSpec ConfigDiff.
Local Open Scope Z_scope.

(** ** Documents *)

Definition y_int (s : string) : Node := mkNode ScalarNode false "!!int" s "" 0 0 [].

Definition ex_image : string := "registry.example/app@sha256:" +:+ String.concat "" (replicate 64 "a"%string).

(** A pipeline of one scenario, up to its processors, its timeout and its roots. *)
Definition y_pipeline (cpu timeout : string) (roots : Node) : Node :=
  y_doc (y_map [("apiVersion", y_str ConfigValidate.APIVersionV1Alpha1); ("kind", y_str KindPipeline);
    ("metadata", y_map [("name", y_str "demo")]);
    ("spec", y_map [
      ("environment", y_map [("image", y_str ex_image); ("workdir", y_str "/workspace")]);
      ("resources", y_map [("cpu", y_int cpu); ("memory", y_str "2GiB"); ("disk", y_str "4GiB");
                           ("processes", y_int "64"); ("timeout", y_str "5m")]);
      ("network", y_map [("mode", y_str "deny"); ("allow", y_seq [])]);
      ("scenarios", y_seq [y_map [("id", y_str "unit"); ("name", y_str "Unit tests"); ("shell", y_str "/bin/sh");
                                  ("run", y_str "make test"); ("timeout", y_str timeout)]]);
      ("collect", y_map [("filesystem", y_map [("roots", roots); ("contents", y_str "metadata-and-digests")]);
                         ("artifacts", y_seq [y_map [("path", y_str "/workspace/out/*.log"); ("maxBytes", y_str "1MiB")]]);
                         ("logs", y_map [("maxBytesPerStream", y_str "64KiB")])]);
      ("compare", y_map [("ignore", y_seq [y_map [("field", y_str "event.timestamp")]]); ("repetitions", y_int "3")]);
      ("policy", y_map [("profile", y_str "strict")])])])%string.

Definition ex_roots : Node := y_seq [y_str "/workspace"].
Definition ex_config_bytes : bytes := to_bytes "base: pipeline".
Definition ex_spaced_bytes : bytes := to_bytes "base:  pipeline".
Definition ex_bigger_bytes : bytes := to_bytes "head: pipeline".

(** A loader for three texts; the first two differ in their layout only. *)
Definition ex_pipeline_load : YamlLoad := λ _ _ data,
  if bool_decide (data = ex_config_bytes ∨ data = ex_spaced_bytes) then Ok [y_pipeline "2" "90s" ex_roots]
  else if bool_decide (data = ex_bigger_bytes) then Ok [y_pipeline "4" "120s" ex_roots]
  else Err "did not find expected node content"%string.

Definition zeroPipeline : ValidatedPipeline :=
  mkValidatedPipeline "" "" "" "" (mkValidatedResources 0 0 0 0 0) (mkValidatedNetwork "" []) []
    (mkValidatedCollect [] "" [] 0) (mkValidatedCompare [] 0) (mkValidatedPolicy "").
Definition okPipeline (r : result Diagnostics ValidatedPipeline) : ValidatedPipeline :=
  match r with Ok p => p | Err _ => zeroPipeline end.
Definition ex_pipeline : ValidatedPipeline := Eval vm_compute in okPipeline (ParseAndValidate ex_pipeline_load ex_config_bytes).
Definition ex_bigger : ValidatedPipeline := Eval vm_compute in okPipeline (ParseAndValidate ex_pipeline_load ex_bigger_bytes).

Lemma ex_pipeline_ok : ParseAndValidate ex_pipeline_load ex_config_bytes = Ok ex_pipeline.
Proof. vm_compute. reflexivity. Qed.
Lemma ex_bigger_ok : ParseAndValidate ex_pipeline_load ex_bigger_bytes = Ok ex_bigger.
Proof. vm_compute. reflexivity. Qed.

Example ex_pipeline_values :
  (vpl_ImageDigest ex_pipeline, vr_MemoryBytes (vpl_Resources ex_pipeline), vr_TimeoutMillis (vpl_Resources ex_pipeline),
   vs_TimeoutMillis <$> vpl_Scenarios ex_pipeline, vc_FilesystemRoots (vpl_Collect ex_pipeline))
  = (String.concat "" (replicate 64 "a"), 2 ^ 31, 300000, [90000], ["/workspace"])%string.
Proof. reflexivity. Qed.

(** A scenario may not outlive the run. *)
Example ex_cross_field :
  match ParseAndValidate (λ _ _ _, Ok [y_pipeline "2" "6m" ex_roots]) ex_config_bytes with
  | Err ds => dg_Code <$> ds | Ok _ => []
  end = ["cross-field-constraint"%string].
Proof. vm_compute. reflexivity. Qed.

(** The roots must be given, but they need not be a list: a text is taken for no
    roots at all, and the pipeline observes nothing. *)
Example scalar_roots_accepted :
  (λ p, vc_FilesystemRoots (vpl_Collect p))
    (okPipeline (ParseAndValidate (λ _ _ _, Ok [y_pipeline "2" "90s" (y_str "/workspace")]) ex_config_bytes)) = []
  ∧ ∃ p, ParseAndValidate (λ _ _ _, Ok [y_pipeline "2" "90s" (y_str "/workspace")]) ex_config_bytes = Ok p.
Proof. split; [vm_compute; reflexivity|]. eexists. vm_compute. reflexivity. Qed.

(** ** Witnesses *)

Lemma validate_well_formed_witness : wf_pipeline ex_pipeline.
Proof. exact (validate_well_formed ex_pipeline_load ex_config_bytes ex_pipeline ex_pipeline_ok). Defined.

Lemma no_change_iff_equal_witness : ComparePipelines ex_pipeline ex_bigger <> [].
Proof.
  intros H. pose proof (ParseAndValidate_wf _ _ _ ex_pipeline_ok) as Hb. pose proof (ParseAndValidate_wf _ _ _ ex_bigger_ok) as Hh.
  apply (no_change_iff_equal ex_pipeline ex_bigger Hb Hh) in H. discriminate H.
Defined.

(** Two more processors are an increase of privilege. *)
Lemma effects_exact_witness :
  reports SecurityEffectPrivilegeIncrease (ComparePipelines ex_pipeline ex_bigger)
  ∧ ¬ reports SecurityEffectPrivilegeIncrease (ComparePipelines ex_pipeline ex_pipeline).
Proof.
  pose proof (ParseAndValidate_wf _ _ _ ex_pipeline_ok) as Hb. pose proof (ParseAndValidate_wf _ _ _ ex_bigger_ok) as Hh.
  split.
  - apply (effects_exact ex_pipeline ex_bigger Hb Hh). left. exists vr_CPU. split; [apply list_elem_of_here|reflexivity].
  - intros H. apply (effects_exact ex_pipeline ex_pipeline Hb Hb) in H as [(f & _ & H)|(s & t & Hs & Ht & _ & H)]; [lia|].
    apply list_elem_of_singleton in Hs as ->. apply list_elem_of_singleton in Ht as ->. cbn in H. lia.
Defined.

(** ** A trusted load *)

(** The head rewrites the file without changing the pipeline. *)
Definition ex_config_source : RevisionFileSource := ex_source (Ok (ex_file ex_config_bytes)) (Ok (ex_file ex_spaced_bytes)).
Definition zeroTrusted : Config.TrustedLoadResult :=
  Config.mkTrustedLoadResult zeroCommitRef zeroCommitRef zeroPipeline (mkEffectiveConfigSource "" "" zeroConfigFile)
    zeroConfigFile (Config.mkHeadAssessment "" zeroConfigFile zeroConfigFile [] []).
Definition ex_trusted : Config.TrustedLoadResult := Eval vm_compute in
  match ConfigTrusted.LoadTrusted ex_pipeline_load (λ _, None) (Some ex_config_source) ex_base_rev ex_head_rev with
  | Ok r => r | Err _ => zeroTrusted
  end.
Lemma ex_trusted_ok :
  ConfigTrusted.LoadTrusted ex_pipeline_load (λ _, None) (Some ex_config_source) ex_base_rev ex_head_rev = Ok ex_trusted.
Proof. vm_compute. reflexivity. Qed.

Example ex_trusted_state :
  Config.ha_State (tl_HeadAssessment ex_trusted) = HeadStateContentChangedSemanticallyEquivalent.
Proof. reflexivity. Qed.
