(* ===== verification/Plan.v ===== *)
(** * The run plan ([internal/pipeline])

    From the trusted configuration, the snapshots of the two revisions and the
    constraints of the platform to the frozen run plan: its document, the exact
    bytes of its JSON and their digest.  Slices that the code keeps non-nil are
    lists; clones that only copy are left out, and so is the text of errors. *)

From stdpp Require Import prelude gmap strings.
From Stdlib Require Import ZArith Lia.
From S2P Require Import Prelude GoStd Sha256 Framing GoTime Model Json GoText GoPath Config ConfigParse ConfigValidate.
Local Open Scope Z_scope.

(** ** [types.go], [errors.go] *)

Definition MaxPlanJSONBytes : Z := 16 * 2 ^ 20.
Definition MaxSourceLimitations : Z := 1000.
Definition MaxLimitationCodeBytes : Z := 128.
Definition MaxLimitationPathBytes : Z := 4096.

Abbreviation ObjectFormat := string.
Definition ObjectFormatSHA1 : ObjectFormat := "sha1".
Definition ObjectFormatSHA256 : ObjectFormat := "sha256".

(** The summary and the limitations of a source have the fields of the plan's. *)
Record SourceSnapshot := mkSourceSnapshot {
  sn_RevisionKind : RevisionKind;
  sn_CommitID : string;
  sn_TreeID : string;
  sn_ObjectFormat : ObjectFormat;
  sn_MaterializedTreeDigest : Digest;
  sn_MaterializationManifestDigest : Digest;
  sn_Summary : SourceSummary;
  sn_Limitations : list SourceLimitation
}.
Record PlatformConstraints := mkPlatformConstraints {
  pc_MaxCPU : Z;
  pc_MaxMemoryBytes : Z;
  pc_MaxDiskBytes : Z;
  pc_MaxProcessCount : Z;
  pc_MaxGlobalTimeoutMillis : Z;
  pc_MaxScenarioTimeoutMillis : Z;
  pc_MaxScenarioCount : Z;
  pc_MaxRepetitions : Z;
  pc_MaxFilesystemRootCount : Z;
  pc_MaxArtifactCount : Z;
  pc_MaxArtifactBytes : Z;
  pc_MaxLogBytesPerStream : Z;
  pc_MaxPlanJSONBytes : Z;
  pc_RequiredNetworkMode : NetworkMode
}.
Record BuildRequest := mkBuildRequest {
  br_RunID : string;
  br_CreatedAt : GoTimeValue;
  br_Trusted : TrustedLoadResult;
  br_BaseSource : SourceSnapshot;
  br_HeadSource : SourceSnapshot;
  br_Platform : PlatformConstraints
}.
Record FrozenPlan := mkFrozenPlan {
  fp_doc : RunPlan;
  fp_json : bytes;
  fp_digest : Digest
}.
Record PlanError := mkPlanError { ple_Code : string; ple_Stage : string; ple_Path : string }.
Definition planErr (code stage path : string) : PlanError := mkPlanError code stage path.

(** ** [digest.go] *)

Definition runPlanJSONDigestDomain : string := "glassroot.dev/run-plan-json/v1" +:+ NUL.
Definition DigestRunPlanJSON (data : bytes) : Digest := Framing.digestBytes runPlanJSONDigestDomain data.

(** ** [validate.go] *)

Definition contextError (ctx : option CtxCause) : result PlanError unit :=
  match ctx with None => Ok () | Some _ => Err (planErr "context-cancelled" "request" "context") end.

Definition containsControlOrSpace (s : string) : bool := existsb (λ r, (r <=? 32) || (r == 127)) (rune_values s).
Definition containsControl (s : string) : bool := existsb (λ r, (r <? 32) || (r == 127)) (rune_values s).
Definition is_lower_alnum (v : Z) : bool := ((97 <=? v) && (v <=? 122)) || ((48 <=? v) && (v <=? 57)).
(** [^[a-z0-9][a-z0-9._-]{0,127}$] *)
Definition matchesRunID (id : string) : bool :=
  match byte_val <$> to_bytes id with
  | c :: rest => is_lower_alnum c && forallb (λ v, is_lower_alnum v || bool_decide (v ∈ [46; 95; 45])) rest && (Z.of_nat (length rest) <=? 127)
  | [] => false
  end.
Definition validateRunID (id : string) : result PlanError unit :=
  reject_if ((id == ""%string) || (128 <? str_len id) || negb (utf8_valid (to_bytes id)) || negb (matchesRunID id) || containsControlOrSpace id)
    (planErr "invalid-run-id" "request" "runId").

(** The format of the plan and the width of its object identities. *)
Definition modelFormatAndWidth (format : ObjectFormat) : result PlanError (GitObjectFormat * Z) :=
  if format == ObjectFormatSHA1 then Ok (GitObjectFormatSHA1, 40)
  else if format == ObjectFormatSHA256 then Ok (GitObjectFormatSHA256, 64)
  else Err (planErr "invalid-object-format" "source" "objectFormat").
Definition validObjectID (id : string) (width : Z) : bool :=
  (str_len id == width) && utf8_valid (to_bytes id) && str_forallb is_lower_hex_digit id.
Definition validDigest (d : Digest) : bool :=
  has_prefix "sha256:" d && (str_len d == 71) && utf8_valid (to_bytes d) && str_forallb is_lower_hex_digit (str_drop 7 d).

(** [strings.EqualFold(part, ".git")]: no letter of it folds with one beyond ASCII. *)
Definition is_dot_git (part : bytes) : bool := bool_decide ((lower_byte <$> part) = to_bytes ".git").
Definition validRepositoryPath (p : string) : bool :=
  negb ((p == ""%string) || has_prefix "/" p || contains NUL p || contains "\" p || negb (utf8_valid (to_bytes p)) || containsControl p
        || (MaxLimitationPathBytes <? str_len p))
  && bool_decide (path_clean (to_bytes p) = to_bytes p)
  && forallb (λ part, negb (bool_decide (part ∈ [[]; to_bytes "."; to_bytes ".."]) || is_dot_git part)) (split_on slash (to_bytes p)).

Definition summaryCounts (s : SourceSummary) : list (string * Z) :=
  [("directoryCount"%string, ss_DirectoryCount s); ("regularFileCount"%string, ss_RegularFileCount s);
   ("executableFileCount"%string, ss_ExecutableFileCount s); ("symlinkCount"%string, ss_SymlinkCount s);
   ("gitlinkCount"%string, ss_GitlinkCount s); ("lfsPointerCount"%string, ss_LFSPointerCount s);
   ("totalMaterializedFileBytes"%string, ss_TotalMaterializedFileBytes s); ("skippedEntryCount"%string, ss_SkippedEntryCount s)].
Definition validateSourceSummary (s : SourceSummary) : result PlanError unit :=
  foldR (λ _ x, reject_if (x.2 <? 0) (planErr "invalid-source-summary" "source" x.1)) () (summaryCounts s) ;;
  reject_if (wrap64 (ss_RegularFileCount s + ss_ExecutableFileCount s) <? ss_LFSPointerCount s)
    (planErr "invalid-source-summary" "source" "lfsPointerCount") ;;
  reject_if (ss_SkippedEntryCount s <? ss_GitlinkCount s) (planErr "invalid-source-summary" "source" "skippedEntryCount").

Definition limitationKey (l : SourceLimitation) : string := sl_Code l +:+ NUL +:+ sl_Path l +:+ NUL +:+ sl_Summary l.
Definition validateSourceLimitation (seen : gset string) (x : nat * SourceLimitation) : result PlanError (gset string) :=
  let '(i, lim) := x in
  let p := ("limitations[" +:+ fmt_d (Z.of_nat i) +:+ "]")%string in
  let bad field := planErr "invalid-source-snapshot" "source" (p +:+ field) in
  reject_if ((sl_Code lim == ""%string) || (MaxLimitationCodeBytes <? str_len (sl_Code lim)) || negb (utf8_valid (to_bytes (sl_Code lim)))
             || containsControlOrSpace (sl_Code lim)) (bad ".code"%string) ;;
  reject_if ((sl_Path lim != ""%string) && ((MaxLimitationPathBytes <? str_len (sl_Path lim)) || negb (validRepositoryPath (sl_Path lim))))
    (bad ".path"%string) ;;
  reject_if (negb (utf8_valid (to_bytes (sl_Summary lim))) || containsControl (sl_Summary lim) || (MaxGeneralStringBytes <? str_len (sl_Summary lim)))
    (bad ".summary"%string) ;;
  reject_if (bool_decide (limitationKey lim ∈ seen)) (bad ""%string) ;;
  mret ({[limitationKey lim]} ∪ seen).

Definition validateSourceSnapshot (s : SourceSnapshot) (want : RevisionKind) : result PlanError SourceSnapshot :=
  reject_if (sn_RevisionKind s != want) (planErr "revision-mismatch" "source" "revisionKind") ;;
  fw ← modelFormatAndWidth (sn_ObjectFormat s);
  reject_if (negb (validObjectID (sn_CommitID s) fw.2)) (planErr "invalid-object-id" "source" "commitId") ;;
  reject_if (negb (validObjectID (sn_TreeID s) fw.2)) (planErr "invalid-object-id" "source" "treeId") ;;
  reject_if (negb (validDigest (sn_MaterializedTreeDigest s))) (planErr "invalid-source-digest" "source" "materializedTreeDigest") ;;
  reject_if (negb (validDigest (sn_MaterializationManifestDigest s))) (planErr "invalid-source-digest" "source" "materializationManifestDigest") ;;
  validateSourceSummary (sn_Summary s) ;;
  reject_if (MaxSourceLimitations <? Z.of_nat (length (sn_Limitations s))) (planErr "invalid-source-snapshot" "source" "limitations") ;;
  foldR validateSourceLimitation ∅ (imap pair (sn_Limitations s)) ;;
  mret (mkSourceSnapshot (sn_RevisionKind s) (sn_CommitID s) (sn_TreeID s) fw.1 (sn_MaterializedTreeDigest s)
    (sn_MaterializationManifestDigest s) (sn_Summary s) (sn_Limitations s)).

Definition platformChecks (p : PlatformConstraints) : list (string * Z * Z) :=
  [("maxCpu"%string, pc_MaxCPU p, MaxCPU);
   ("maxMemoryBytes"%string, pc_MaxMemoryBytes p, MaxMemoryBytes);
   ("maxDiskBytes"%string, pc_MaxDiskBytes p, MaxDiskBytes);
   ("maxProcessCount"%string, pc_MaxProcessCount p, MaxProcessCount);
   ("maxGlobalTimeoutMillis"%string, pc_MaxGlobalTimeoutMillis p, MaxTimeoutMillis);
   ("maxScenarioTimeoutMillis"%string, pc_MaxScenarioTimeoutMillis p, MaxTimeoutMillis);
   ("maxScenarioCount"%string, pc_MaxScenarioCount p, MaxScenarioCount);
   ("maxRepetitions"%string, pc_MaxRepetitions p, MaxRepetitions);
   ("maxFilesystemRootCount"%string, pc_MaxFilesystemRootCount p, MaxFilesystemRootCount);
   ("maxArtifactCount"%string, pc_MaxArtifactCount p, MaxArtifactCount);
   ("maxArtifactBytes"%string, pc_MaxArtifactBytes p, MaxArtifactBytes);
   ("maxLogBytesPerStream"%string, pc_MaxLogBytesPerStream p, MaxLogBytesPerStream);
   ("maxPlanJsonBytes"%string, pc_MaxPlanJSONBytes p, MaxPlanJSONBytes)].
Definition validatePlatformConstraints (p : PlatformConstraints) : result PlanError unit :=
  reject_if (pc_RequiredNetworkMode p != NetworkModeDeny) (planErr "unsupported-network-policy" "platform" "requiredNetworkMode") ;;
  foldR (λ _ x, reject_if ((x.1.2 <=? 0) || (x.2 <? x.1.2)) (planErr "invalid-platform-constraints" "platform" x.1.1)) () (platformChecks p).

Definition validateTrustedConsistency (t : TrustedLoadResult) (base head : SourceSnapshot) : result PlanError unit :=
  let invalid path := planErr "invalid-trusted-config" "trusted" path in
  let mismatch path := planErr "trusted-config-mismatch" "trusted" path in
  let file := ecs_File (tl_EffectiveSource t) in
  reject_if ((ecs_Source (tl_EffectiveSource t) != EffectiveSourceBase) || (ecs_Path (tl_EffectiveSource t) != PipelinePath)
             || (cfm_Path (tl_BaseFile t) != PipelinePath) || (cfm_Path file != PipelinePath)) (invalid "effectiveSource"%string) ;;
  reject_if ((cr_CommitID (tl_Base t) == ""%string) || (cr_CommitID (tl_Head t) == ""%string)) (invalid "commitId"%string) ;;
  reject_if ((cr_CommitID (tl_Base t) != sn_CommitID base) || (cr_CommitID (tl_Head t) != sn_CommitID head)) (mismatch "commitId"%string) ;;
  reject_if ((vpl_Name (tl_EffectivePipeline t) == ""%string) || ze_list (vpl_Scenarios (tl_EffectivePipeline t))) (invalid "effectivePipeline"%string) ;;
  reject_if ((cr_CommitID (cfm_Revision file) != cr_CommitID (tl_Base t)) || (cr_CommitID (cfm_Revision (tl_BaseFile t)) != cr_CommitID (tl_Base t)))
    (mismatch "baseFile.revision"%string) ;;
  reject_if ((cfm_Digest (tl_BaseFile t) == ""%string) || (cfm_Digest file == ""%string) || (cfm_Digest (tl_BaseFile t) != cfm_Digest file))
    (invalid "baseFile.digest"%string) ;;
  reject_if (negb (validDigest (cfm_Digest (tl_BaseFile t)))) (invalid "baseFile.digest"%string) ;;
  reject_if ((cfm_SizeBytes (tl_BaseFile t) <=? 0) || (cfm_SizeBytes file != cfm_SizeBytes (tl_BaseFile t))) (invalid "baseFile.sizeBytes"%string).

(** What the pipeline asks for against what the platform allows. *)
Definition ceilingChecks (v : ValidatedPipeline) (p : PlatformConstraints) : list (string * Z * Z) :=
  [("spec.resources.cpu"%string, vr_CPU (vpl_Resources v), pc_MaxCPU p);
   ("spec.resources.memoryBytes"%string, vr_MemoryBytes (vpl_Resources v), pc_MaxMemoryBytes p);
   ("spec.resources.diskBytes"%string, vr_DiskBytes (vpl_Resources v), pc_MaxDiskBytes p);
   ("spec.resources.processCount"%string, vr_ProcessCount (vpl_Resources v), pc_MaxProcessCount p);
   ("spec.resources.timeoutMillis"%string, vr_TimeoutMillis (vpl_Resources v), pc_MaxGlobalTimeoutMillis p);
   ("spec.scenarios"%string, Z.of_nat (length (vpl_Scenarios v)), pc_MaxScenarioCount p);
   ("spec.compare.repetitions"%string, vcm_Repetitions (vpl_Compare v), pc_MaxRepetitions p);
   ("spec.collect.filesystem.roots"%string, Z.of_nat (length (vc_FilesystemRoots (vpl_Collect v))), pc_MaxFilesystemRootCount p);
   ("spec.collect.artifacts"%string, Z.of_nat (length (vc_Artifacts (vpl_Collect v))), pc_MaxArtifactCount p);
   ("spec.collect.logs.maxBytesPerStream"%string, vc_LogMaxBytesPerStream (vpl_Collect v), pc_MaxLogBytesPerStream p)]
  ++ imap (λ i s, ("spec.scenarios[" +:+ fmt_d (Z.of_nat i) +:+ "].timeoutMillis", vs_TimeoutMillis s, pc_MaxScenarioTimeoutMillis p)%string) (vpl_Scenarios v)
  ++ imap (λ i a, ("spec.collect.artifacts[" +:+ fmt_d (Z.of_nat i) +:+ "].maxBytes", va_MaxBytes a, pc_MaxArtifactBytes p)%string) (vc_Artifacts (vpl_Collect v)).
Definition enforcePlatform (v : ValidatedPipeline) (p : PlatformConstraints) : result PlanError unit :=
  foldR (λ _ x, reject_if (x.2 <? x.1.2) (planErr "platform-limit-exceeded" "platform" x.1.1)) () (ceilingChecks v p) ;;
  reject_if (vn_Mode (vpl_Network v) != pc_RequiredNetworkMode p) (planErr "unsupported-network-policy" "platform" "spec.network.mode").

(** ** [planner.go] *)

(** Midnight of January 1st, 2020 and 2100. *)
Definition minCreatedAt : Z := 1577836800 * nanos_per_second.
Definition maxCreatedAt : Z := 4102444800 * nanos_per_second.
Definition normalizeCreatedAt (t : GoTimeValue) : result PlanError Time :=
  let bad := planErr "invalid-created-at" "request" "createdAt" in
  reject_if (is_zero_time t) bad ;;
  reject_if (gt_offset t != 0) bad ;;
  reject_if ((gt_instant t <? minCreatedAt) || negb (gt_instant t <? maxCreatedAt)) bad ;;
  mret (gt_instant t).

(** The format that a validated snapshot stands for. *)
Definition planFormat (format : ObjectFormat) : GitObjectFormat := match modelFormatAndWidth format with Ok fw => fw.1 | Err _ => ""%string end.
Definition commitRefForPlan (ref : CommitRef) (s : SourceSnapshot) : CommitRef :=
  mkCommitRef (sn_RevisionKind s) (cr_Repository ref) (cr_Ref ref) (sn_CommitID s) (planFormat (sn_ObjectFormat s)) (sn_TreeID s) "".
Definition revisionPlan (s : SourceSnapshot) (commit : CommitRef) (ids : list string) : RevisionPlan :=
  mkRevisionPlan (sn_RevisionKind s) commit (planFormat (sn_ObjectFormat s)) (sn_TreeID s) (sn_MaterializedTreeDigest s)
    (sn_MaterializationManifestDigest s) (Some (sn_Summary s)) (sn_Limitations s) ids.
Definition planLimits (v : ValidatedPipeline) : ResourceLimits :=
  let r := vpl_Resources v in
  mkResourceLimits (vr_CPU r) (vr_TimeoutMillis r) (vr_MemoryBytes r) (vr_DiskBytes r) (wrap64 (vr_CPU r * 1000)) (vr_ProcessCount r).
Definition planNetwork (v : ValidatedPipeline) : NetworkPolicy := mkNetworkPolicy (vn_Mode (vpl_Network v)) [].
Definition collectionArtifacts (v : ValidatedPipeline) : list ExpectedArtifactSpec :=
  (λ a, mkExpectedArtifactSpec (va_Path a) false (va_MaxBytes a)) <$> vc_Artifacts (vpl_Collect v).
Definition with_timeout (t : Z) (l : ResourceLimits) : ResourceLimits :=
  mkResourceLimits (rl_CPU l) t (rl_MemoryBytes l) (rl_DiskBytes l) (rl_CPUMillis l) (rl_ProcessCount l).
Definition scenarioPlan (v : ValidatedPipeline) (s : ValidatedScenario) : ScenarioPlan :=
  mkScenarioPlan (vs_ID s) (vs_Name s) (vs_Shell s) (vs_Run s) (vcm_Repetitions (vpl_Compare v))
    (mkCommand [] (vpl_Workdir v) [] (vs_TimeoutMillis s)) (with_timeout (vs_TimeoutMillis s) (planLimits v)) (planNetwork v) (collectionArtifacts v).
Definition platformForModel (p : PlatformConstraints) : RunPlanPlatform :=
  mkRunPlanPlatform (pc_MaxCPU p) (pc_MaxMemoryBytes p) (pc_MaxDiskBytes p) (pc_MaxProcessCount p) (pc_MaxGlobalTimeoutMillis p)
    (pc_MaxScenarioTimeoutMillis p) (pc_MaxScenarioCount p) (pc_MaxRepetitions p) (pc_MaxFilesystemRootCount p) (pc_MaxArtifactCount p)
    (pc_MaxArtifactBytes p) (pc_MaxLogBytesPerStream p) (pc_MaxPlanJSONBytes p) (pc_RequiredNetworkMode p).
Definition zeroRunner : RunnerCapabilities := mkRunnerCapabilities "" "" "" false false false false false false false false false false.

Definition buildDocument (runID : string) (createdAt : Time) (t : TrustedLoadResult) (v : ValidatedPipeline) (base head : SourceSnapshot)
    (p : PlatformConstraints) : RunPlan :=
  let baseCommit := commitRefForPlan (tl_Base t) base in
  let headCommit := commitRefForPlan (tl_Head t) head in
  let ids := vs_ID <$> vpl_Scenarios v in
  mkRunPlan SchemaVersionRunPlanV1Alpha1 (runID +:+ "-plan") runID createdAt (vpl_Name v)
    (Some (mkRunPlanConfig RevisionKindBase PipelinePath (cfm_Digest (tl_BaseFile t)) (cfm_SizeBytes (tl_BaseFile t)) (cfm_ObjectID (tl_BaseFile t))))
    (Some (mkRunPlanEnvironment (vpl_Image v) (vpl_ImageDigest v) (vpl_Workdir v)))
    baseCommit headCommit [revisionPlan base baseCommit ids; revisionPlan head headCommit ids] (scenarioPlan v <$> vpl_Scenarios v) zeroRunner
    (planLimits v) (planNetwork v) []
    (Some (mkCollectionPlan (vc_FilesystemRoots (vpl_Collect v)) (vc_FilesystemContents (vpl_Collect v)) (collectionArtifacts v)
             (vc_LogMaxBytesPerStream (vpl_Collect v))))
    (Some (mkComparisonPlan (vcm_IgnoreFields (vpl_Compare v)) (vcm_Repetitions (vpl_Compare v))))
    (Some (mkPolicyPlan (vp_Profile (vpl_Policy v)))) (Some (platformForModel p)) [].

Definition source_limitation_less (a b : SourceLimitation) : bool :=
  if sl_Code a != sl_Code b then String.ltb (sl_Code a) (sl_Code b)
  else if sl_Path a != sl_Path b then String.ltb (sl_Path a) (sl_Path b)
  else String.ltb (sl_Summary a) (sl_Summary b).
Definition normalizeRevision (r : RevisionPlan) : RevisionPlan :=
  mkRevisionPlan (rvp_Kind r) (rvp_Commit r) (rvp_ObjectFormat r) (rvp_TreeID r) (rvp_MaterializedTreeDigest r)
    (rvp_MaterializationManifestDigest r) (rvp_SourceSummary r) (stable_sort source_limitation_less (rvp_SourceLimitations r)) (rvp_ScenarioIDs r).
Definition with_revisions (l : list RevisionPlan) (d : RunPlan) : RunPlan :=
  mkRunPlan (rp_SchemaVersion d) (rp_ID d) (rp_RunID d) (rp_CreatedAt d) (rp_PipelineName d) (rp_Configuration d) (rp_ExecutionEnvironment d)
    (rp_Base d) (rp_Head d) l (rp_Scenarios d) (rp_Runner d) (rp_ResourceLimits d) (rp_NetworkPolicy d) (rp_Environment d) (rp_Collection d)
    (rp_Comparison d) (rp_Policy d) (rp_Platform d) (rp_Limitations d).
(** The scenario IDs of a revision are nil when there are none. *)
Definition normalizeRunPlan (d : RunPlan) : result PlanError RunPlan :=
  let bad path := planErr "model-invariant" "normalize" path in
  reject_if (rp_SchemaVersion d != SchemaVersionRunPlanV1Alpha1) (bad "schemaVersion"%string) ;;
  reject_if (negb (match rp_Revisions d with [b; h] => (rvp_Kind b == RevisionKindBase) && (rvp_Kind h == RevisionKindHead) | _ => false end))
    (bad "revisions"%string) ;;
  foldR (λ _ '(i, r), reject_if (ze_list (rvp_ScenarioIDs r)) (bad ("revisions[" +:+ fmt_d (Z.of_nat i) +:+ "]")%string)) () (imap pair (rp_Revisions d)) ;;
  mret (with_revisions (normalizeRevision <$> rp_Revisions d) d).

(** ** The encoder of the plan ([internal/model/run.go], [scenario.go]) *)

Definition json_of_ExpectedArtifactSpec (x : ExpectedArtifactSpec) : json := JObj (j_fields [
  (false, "logicalPath"%string, JStr (eas_LogicalPath x));
  (false, "required"%string, JBool (eas_Required x));
  (false, "maxSizeBytes"%string, JNum (eas_MaxSizeBytes x))]).

Definition json_of_NetworkAllowRule (x : NetworkAllowRule) : json := JObj (j_fields [
  (false, "protocol"%string, JStr (nar_Protocol x));
  (false, "host"%string, JStr (nar_Host x));
  (false, "port"%string, JNum (nar_Port x))]).

Definition json_of_NetworkPolicy (x : NetworkPolicy) : json := JObj (j_fields [
  (false, "mode"%string, JStr (np_Mode x));
  (false, "allowed"%string, JArr (json_of_NetworkAllowRule <$> np_Allowed x))]).

Definition json_of_ResourceLimits (x : ResourceLimits) : json := JObj (j_fields [
  (ze_num (rl_CPU x), "cpu"%string, JNum (rl_CPU x));
  (false, "timeoutMillis"%string, JNum (rl_TimeoutMillis x));
  (false, "memoryBytes"%string, JNum (rl_MemoryBytes x));
  (false, "diskBytes"%string, JNum (rl_DiskBytes x));
  (false, "cpuMillis"%string, JNum (rl_CPUMillis x));
  (false, "processCount"%string, JNum (rl_ProcessCount x))]).

Definition json_of_RunnerCapabilities (x : RunnerCapabilities) : json := JObj (j_fields [
  (false, "name"%string, JStr (rc_Name x));
  (false, "version"%string, JStr (rc_Version x));
  (false, "isolationTier"%string, JStr (rc_IsolationTier x));
  (false, "freshKernel"%string, JBool (rc_FreshKernel x));
  (false, "brokeredNetwork"%string, JBool (rc_BrokeredNetwork x));
  (negb (rc_ExecutesTargetCode x), "executesTargetCode"%string, JBool (rc_ExecutesTargetCode x));
  (negb (rc_SyntheticEvidence x), "syntheticEvidence"%string, JBool (rc_SyntheticEvidence x));
  (negb (rc_EnforcesNetworkDeny x), "enforcesNetworkDeny"%string, JBool (rc_EnforcesNetworkDeny x));
  (false, "processEventCollection"%string, JBool (rc_ProcessEventCollection x));
  (false, "filesystemEventCollection"%string, JBool (rc_FilesystemEventCollection x));
  (false, "syscallEventCollection"%string, JBool (rc_SyscallEventCollection x));
  (false, "artifactHashing"%string, JBool (rc_ArtifactHashing x));
  (false, "snapshotSupport"%string, JBool (rc_SnapshotSupport x))]).

Definition json_of_Command (x : Command) : json := JObj (j_fields [
  (false, "argv"%string, JArr (JStr <$> cmd_Argv x));
  (false, "workingDirectory"%string, JStr (cmd_WorkingDirectory x));
  (false, "environment"%string, JArr (json_of_EnvEntry <$> cmd_Environment x));
  (false, "timeoutMillis"%string, JNum (cmd_TimeoutMillis x))]).

Definition json_of_ScenarioPlan (x : ScenarioPlan) : json := JObj (j_fields [
  (false, "id"%string, JStr (sp_ID x));
  (false, "name"%string, JStr (sp_Name x));
  (ze_str (sp_Shell x), "shell"%string, JStr (sp_Shell x));
  (ze_str (sp_Run x), "run"%string, JStr (sp_Run x));
  (ze_num (sp_Repetitions x), "repetitions"%string, JNum (sp_Repetitions x));
  (false, "command"%string, json_of_Command (sp_Command x));
  (false, "resourceLimits"%string, json_of_ResourceLimits (sp_ResourceLimits x));
  (false, "networkPolicy"%string, json_of_NetworkPolicy (sp_NetworkPolicy x));
  (false, "expectedArtifacts"%string, JArr (json_of_ExpectedArtifactSpec <$> sp_ExpectedArtifacts x))]).

Definition json_of_SourceSummary (x : SourceSummary) : json := JObj (j_fields [
  (false, "directoryCount"%string, JNum (ss_DirectoryCount x));
  (false, "regularFileCount"%string, JNum (ss_RegularFileCount x));
  (false, "executableFileCount"%string, JNum (ss_ExecutableFileCount x));
  (false, "symlinkCount"%string, JNum (ss_SymlinkCount x));
  (false, "gitlinkCount"%string, JNum (ss_GitlinkCount x));
  (false, "lfsPointerCount"%string, JNum (ss_LFSPointerCount x));
  (false, "totalMaterializedFileBytes"%string, JNum (ss_TotalMaterializedFileBytes x));
  (false, "skippedEntryCount"%string, JNum (ss_SkippedEntryCount x))]).

Definition json_of_SourceLimitation (x : SourceLimitation) : json := JObj (j_fields [
  (false, "code"%string, JStr (sl_Code x));
  (ze_str (sl_Path x), "path"%string, JStr (sl_Path x));
  (false, "summary"%string, JStr (sl_Summary x))]).

Definition json_of_RunPlanPlatform (x : RunPlanPlatform) : json := JObj (j_fields [
  (false, "maxCpu"%string, JNum (rpp_MaxCPU x));
  (false, "maxMemoryBytes"%string, JNum (rpp_MaxMemoryBytes x));
  (false, "maxDiskBytes"%string, JNum (rpp_MaxDiskBytes x));
  (false, "maxProcessCount"%string, JNum (rpp_MaxProcessCount x));
  (false, "maxGlobalTimeoutMillis"%string, JNum (rpp_MaxGlobalTimeoutMillis x));
  (false, "maxScenarioTimeoutMillis"%string, JNum (rpp_MaxScenarioTimeoutMillis x));
  (false, "maxScenarioCount"%string, JNum (rpp_MaxScenarioCount x));
  (false, "maxRepetitions"%string, JNum (rpp_MaxRepetitions x));
  (false, "maxFilesystemRootCount"%string, JNum (rpp_MaxFilesystemRootCount x));
  (false, "maxArtifactCount"%string, JNum (rpp_MaxArtifactCount x));
  (false, "maxArtifactBytes"%string, JNum (rpp_MaxArtifactBytes x));
  (false, "maxLogBytesPerStream"%string, JNum (rpp_MaxLogBytesPerStream x));
  (false, "maxPlanJsonBytes"%string, JNum (rpp_MaxPlanJSONBytes x));
  (false, "requiredNetworkMode"%string, JStr (rpp_RequiredNetworkMode x))]).

Definition json_of_PolicyPlan (x : PolicyPlan) : json := JObj (j_fields [
  (false, "profile"%string, JStr (pp_Profile x))]).

Definition json_of_ComparisonPlan (x : ComparisonPlan) : json := JObj (j_fields [
  (false, "ignoreFields"%string, JArr (JStr <$> cmp_IgnoreFields x));
  (false, "repetitions"%string, JNum (cmp_Repetitions x))]).

Definition json_of_CollectionPlan (x : CollectionPlan) : json := JObj (j_fields [
  (false, "filesystemRoots"%string, JArr (JStr <$> clp_FilesystemRoots x));
  (false, "filesystemContents"%string, JStr (clp_FilesystemContents x));
  (false, "artifacts"%string, JArr (json_of_ExpectedArtifactSpec <$> clp_Artifacts x));
  (false, "logMaxBytesPerStream"%string, JNum (clp_LogMaxBytesPerStream x))]).

Definition json_of_RunPlanEnvironment (x : RunPlanEnvironment) : json := JObj (j_fields [
  (false, "image"%string, JStr (rpe_Image x));
  (false, "imageDigest"%string, JStr (rpe_ImageDigest x));
  (false, "workdir"%string, JStr (rpe_Workdir x))]).

Definition json_of_RunPlanConfig (x : RunPlanConfig) : json := JObj (j_fields [
  (false, "source"%string, JStr (rpc_Source x));
  (false, "path"%string, JStr (rpc_Path x));
  (false, "digest"%string, JStr (rpc_Digest x));
  (false, "sizeBytes"%string, JNum (rpc_SizeBytes x));
  (ze_str (rpc_ObjectID x), "objectId"%string, JStr (rpc_ObjectID x))]).

Definition json_of_RevisionPlan (x : RevisionPlan) : json := JObj (j_fields [
  (false, "kind"%string, JStr (rvp_Kind x));
  (false, "commit"%string, json_of_CommitRef (rvp_Commit x));
  (ze_str (rvp_ObjectFormat x), "objectFormat"%string, JStr (rvp_ObjectFormat x));
  (ze_str (rvp_TreeID x), "treeId"%string, JStr (rvp_TreeID x));
  (ze_str (rvp_MaterializedTreeDigest x), "materializedTreeDigest"%string, JStr (rvp_MaterializedTreeDigest x));
  (ze_str (rvp_MaterializationManifestDigest x), "materializationManifestDigest"%string, JStr (rvp_MaterializationManifestDigest x));
  (ze_ptr (rvp_SourceSummary x), "sourceSummary"%string, j_ptr json_of_SourceSummary (rvp_SourceSummary x));
  (ze_list (rvp_SourceLimitations x), "sourceLimitations"%string, JArr (json_of_SourceLimitation <$> rvp_SourceLimitations x));
  (false, "scenarioIds"%string, JArr (JStr <$> rvp_ScenarioIDs x))]).

Definition json_of_RunPlan (x : RunPlan) : json := JObj (j_fields [
  (false, "schemaVersion"%string, JStr (rp_SchemaVersion x));
  (false, "id"%string, JStr (rp_ID x));
  (false, "runId"%string, JStr (rp_RunID x));
  (false, "createdAt"%string, JStr (format_rfc3339nano (rp_CreatedAt x)));
  (ze_str (rp_PipelineName x), "pipelineName"%string, JStr (rp_PipelineName x));
  (ze_ptr (rp_Configuration x), "configuration"%string, j_ptr json_of_RunPlanConfig (rp_Configuration x));
  (ze_ptr (rp_ExecutionEnvironment x), "executionEnvironment"%string, j_ptr json_of_RunPlanEnvironment (rp_ExecutionEnvironment x));
  (false, "base"%string, json_of_CommitRef (rp_Base x));
  (false, "head"%string, json_of_CommitRef (rp_Head x));
  (false, "revisions"%string, JArr (json_of_RevisionPlan <$> rp_Revisions x));
  (false, "scenarios"%string, JArr (json_of_ScenarioPlan <$> rp_Scenarios x));
  (false, "runner"%string, json_of_RunnerCapabilities (rp_Runner x));
  (false, "resourceLimits"%string, json_of_ResourceLimits (rp_ResourceLimits x));
  (false, "networkPolicy"%string, json_of_NetworkPolicy (rp_NetworkPolicy x));
  (false, "environment"%string, JArr (json_of_EnvEntry <$> rp_Environment x));
  (ze_ptr (rp_Collection x), "collection"%string, j_ptr json_of_CollectionPlan (rp_Collection x));
  (ze_ptr (rp_Comparison x), "comparison"%string, j_ptr json_of_ComparisonPlan (rp_Comparison x));
  (ze_ptr (rp_Policy x), "policy"%string, j_ptr json_of_PolicyPlan (rp_Policy x));
  (ze_ptr (rp_Platform x), "platform"%string, j_ptr json_of_RunPlanPlatform (rp_Platform x));
  (false, "limitations"%string, JArr (json_of_Limitation <$> rp_Limitations x))]).

(** ** [Build] *)

Definition Build (ctx : option CtxCause) (r : BuildRequest) : result PlanError FrozenPlan :=
  contextError ctx ;;
  validateRunID (br_RunID r) ;;
  createdAt ← normalizeCreatedAt (br_CreatedAt r);
  validatePlatformConstraints (br_Platform r) ;;
  base ← validateSourceSnapshot (br_BaseSource r) RevisionKindBase;
  head ← validateSourceSnapshot (br_HeadSource r) RevisionKindHead;
  validateTrustedConsistency (br_Trusted r) base head ;;
  let pipeline := tl_EffectivePipeline (br_Trusted r) in
  enforcePlatform pipeline (br_Platform r) ;;
  doc ← normalizeRunPlan (buildDocument (br_RunID r) createdAt (br_Trusted r) pipeline base head (br_Platform r));
  let data := render (json_of_RunPlan doc) in
  reject_if ((pc_MaxPlanJSONBytes (br_Platform r) <? Z.of_nat (length data)) || (MaxPlanJSONBytes <? Z.of_nat (length data)))
    (planErr "plan-too-large" "freeze" "json") ;;
  mret (mkFrozenPlan doc data (DigestRunPlanJSON data)).
