(* ===== verification/Application.v ===== *)
(** * Waiver application and governance ([internal/policy]: application)

    From a frozen evaluation, the frozen plan, the trusted configuration and the
    trusted waivers to the final policy application: waivers of the base revision
    change the effective disposition of eligible findings, never the findings;
    changes of the configuration and of the waivers in the head become
    governance findings.  The definitions follow [application.go],
    [application_types.go] and [application_limits.go]. *)

From stdpp Require Import prelude gmap strings.
From Stdlib Require Import ZArith Lia.
From S2P Require Import Prelude GoStd Sha256 Framing GoTime Model Json Yaml Compare Config Plan Waiver Policy.
Local Open Scope Z_scope.

(** ** [application_limits.go] *)

Record ApplicationLimits := mkApplicationLimits {
  al_MaxWaivers : Z;
  al_MaxWaiverFileBytes : Z;
  al_MaxWaiverLifetimeDays : Z;
  al_MaxOwnerBytes : Z;
  al_MaxReasonBytes : Z;
  al_MaxWaiverChanges : Z;
  al_MaxOriginalFindings : Z;
  al_MaxGovernanceFindings : Z;
  al_MaxAppliedFindings : Z;
  al_MaxAppliedWaiverMetadata : Z;
  al_MaxGovernanceReferences : Z;
  al_MaxLimitationsTotal : Z;
  al_MaxApplicationJSONBytes : Z
}.
#[global] Instance ApplicationLimits_eq_dec : EqDecision ApplicationLimits.
Proof. solve_decision. Defined.

Definition DefaultApplicationLimits : ApplicationLimits :=
  mkApplicationLimits 1000 (256 * 2 ^ 10) 90 256 1024 10000 100000 20000 120000 1000 20000 20000 (64 * 2 ^ 20).

Definition validateApplicationLimits (l : ApplicationLimits) : result PolicyError ApplicationLimits :=
  reject_if (l == mkApplicationLimits 0 0 0 0 0 0 0 0 0 0 0 0 0)
    (errCode "invalid-limits" "application-limits" "" "" "zero") ;;
  let d := DefaultApplicationLimits in
  foldR (λ _ '(f, name),
           reject_if ((f l <=? 0) || (f d <? f l)) (errCode "invalid-limits" "application-limits" "" "" name))
    () [ (al_MaxWaivers, "maxWaivers"%string);
         (al_MaxWaiverFileBytes, "maxWaiverFileBytes"%string);
         (al_MaxWaiverLifetimeDays, "maxWaiverLifetimeDays"%string);
         (al_MaxOwnerBytes, "maxOwnerBytes"%string);
         (al_MaxReasonBytes, "maxReasonBytes"%string);
         (al_MaxWaiverChanges, "maxWaiverChanges"%string);
         (al_MaxOriginalFindings, "maxOriginalFindings"%string);
         (al_MaxGovernanceFindings, "maxGovernanceFindings"%string);
         (al_MaxAppliedFindings, "maxAppliedFindings"%string);
         (al_MaxAppliedWaiverMetadata, "maxAppliedWaiverMetadata"%string);
         (al_MaxGovernanceReferences, "maxGovernanceReferences"%string);
         (al_MaxLimitationsTotal, "maxLimitationsTotal"%string);
         (al_MaxApplicationJSONBytes, "maxApplicationJSONBytes"%string) ] ;;
  mret l.

(** ** [application_types.go] *)

Definition SchemaVersionPolicyApplicationV1Alpha1 : string := "glassroot.dev/policy-application/v1alpha1".
Definition GovernanceRuleSetVersionStrictV1Alpha1 : string := "glassroot.dev/governance-rules/strict/v1alpha1".
Definition applicationJSONDomain : string := "glassroot.dev/policy-application-json/v1" +:+ NUL.

Abbreviation FindingOrigin := string.
Definition FindingOriginBuiltinPolicy : FindingOrigin := "builtin-policy".
Definition FindingOriginTrustedConfiguration : FindingOrigin := "trusted-configuration".
Definition FindingOriginWaiverGovernance : FindingOrigin := "waiver-governance".

Record AppliedWaiver := mkAppliedWaiver {
  aw_ID : string;
  aw_TargetFindingID : string;
  aw_RuleID : string;
  aw_Owner : string;
  aw_Reason : string;
  aw_IssuedAt : Z;
  aw_ExpiresAt : Z;
  aw_BaseRawDigest : Digest;
  aw_SemanticWaiverSetDigest : Digest
}.

Record GovernanceReference := mkGovernanceReference {
  gr_Kind : string;
  gr_Path : string;
  gr_ChangeKind : string;
  gr_SecurityEffect : string;
  gr_WaiverID : string;
  gr_State : string;
  gr_RawDigest : Digest;
  gr_SemanticDigest : Digest
}.

Record AppliedFinding := mkAppliedFinding {
  af_Origin : FindingOrigin;
  af_Original : Finding;
  af_EffectiveDisposition : Disposition;
  af_AppliedWaiver : option AppliedWaiver;
  af_GovernanceReference : option GovernanceReference
}.

Record ConfigChangeReference := mkConfigChangeReference {
  ccr_Path : string;
  ccr_Kind : string;
  ccr_SecurityEffect : string
}.

Record ConfigAuthority := mkConfigAuthority {
  ca_Path : string;
  ca_BaseRevision : CommitRef;
  ca_HeadRevision : CommitRef;
  ca_BaseRawDigest : Digest;
  ca_BaseSizeBytes : Z;
  ca_HeadState : string;
  ca_HeadRawDigest : Digest;
  ca_Changes : list ConfigChangeReference
}.

Record WaiverChangeRecord := mkWaiverChangeRecord { wcr_WaiverID : string; wcr_Kind : string }.

Record WaiverAuthority := mkWaiverAuthority {
  wa_Path : string;
  wa_BaseRevision : CommitRef;
  wa_HeadRevision : CommitRef;
  wa_BaseState : string;
  wa_BaseRawDigest : Digest;
  wa_BaseSemanticDigest : Digest;
  wa_BaseSizeBytes : Z;
  wa_HeadState : string;
  wa_HeadRawDigest : Digest;
  wa_HeadSemanticDigest : Digest;
  wa_HeadSizeBytes : Z;
  wa_Changes : list WaiverChangeRecord
}.

Abbreviation WaiverStatus := string.
Definition WaiverStatusApplied : WaiverStatus := "applied".
Definition WaiverStatusExpired : WaiverStatus := "expired".
Definition WaiverStatusNotYetValid : WaiverStatus := "not-yet-valid".
Definition WaiverStatusUnused : WaiverStatus := "unused".
Definition WaiverStatusTargetRuleMismatch : WaiverStatus := "target-rule-mismatch".
Definition WaiverStatusTargetIneligible : WaiverStatus := "target-ineligible".
Definition WaiverStatusInvalid : WaiverStatus := "invalid".

Record WaiverStatusRecord := mkWaiverStatusRecord {
  wsr_WaiverID : string;
  wsr_FindingID : string;
  wsr_RuleID : string;
  wsr_Status : WaiverStatus
}.

Record ApplicationSummary := mkApplicationSummary {
  as_TotalFindings : Z;
  as_BuiltinFindings : Z;
  as_ConfigurationFindings : Z;
  as_WaiverGovernanceFindings : Z;
  as_EffectivePassed : Z;
  as_EffectiveRequiresReview : Z;
  as_EffectiveFailed : Z;
  as_EffectiveWaived : Z;
  as_Info : Z;
  as_Low : Z;
  as_Medium : Z;
  as_High : Z;
  as_Critical : Z;
  as_AppliedWaivers : Z;
  as_ExpiredWaivers : Z;
  as_UnusedWaivers : Z;
  as_InvalidWaivers : Z
}.

Record ApplicationDocument := mkApplicationDocument {
  ad_SchemaVersion : string;
  ad_EvaluatedAt : Z;
  ad_RunID : string;
  ad_PlanDigest : Digest;
  ad_BehavioralDeltaDigest : Digest;
  ad_BasePolicyEvaluationDigest : Digest;
  ad_PolicyProfileName : string;
  ad_PolicyProfileVersion : string;
  ad_BuiltinRuleSetVersion : string;
  ad_GovernanceRuleSetVersion : string;
  ad_Base : CommitRef;
  ad_Head : CommitRef;
  ad_TrustedConfigAuthority : ConfigAuthority;
  ad_TrustedWaiverAuthority : WaiverAuthority;
  ad_OverallEffectiveDisposition : Disposition;
  ad_AppliedFindings : list AppliedFinding;
  ad_WaiverStatuses : list WaiverStatusRecord;
  ad_Summary : ApplicationSummary;
  ad_Limitations : list Limitation
}.

Record FrozenApplication := mkFrozenApplication {
  fa_doc : ApplicationDocument;
  fa_json : bytes;
  fa_digest : Digest
}.

Record ApplicationRequest := mkApplicationRequest {
  ar_Evaluation : option FrozenEvaluation;
  ar_Plan : option FrozenPlan;
  ar_TrustedConfig : Config.TrustedLoadResult;
  ar_WaiverSource : option RevisionFileSource;
  ar_EvaluatedAt : GoTimeValue
}.

(** ** [application.go]: checks *)

Definition applicationWaiverLimits (l : ApplicationLimits) : Waiver.Limits :=
  let wl := Waiver.DefaultLimits in
  Waiver.mkLimits (al_MaxWaiverFileBytes l) (l_MaxYAMLDepth wl) (l_MaxYAMLNodes wl) (l_MaxDiagnostics wl)
    (l_MaxScalarBytes wl) (al_MaxWaivers l) (al_MaxOwnerBytes l) (al_MaxReasonBytes l) (al_MaxWaiverLifetimeDays l).

(** Midnight of January 1st, 2020 and 2100. *)
Definition year2020 : Z := 1577836800 * nanos_per_second.
Definition year2100 : Z := 4102444800 * nanos_per_second.

(** [t.UTC().Round(0) != t] compares the representations: they differ when the
    location of [t] is not UTC itself or [t] has a monotonic reading. *)
Definition validateEvaluatedAt (t : GoTimeValue) : result PolicyError unit :=
  let bad := errCode "invalid-evaluated-at" "application" "" "" "evaluatedAt" in
  reject_if (gt_instant t == zero_time) bad ;;
  reject_if ((gt_offset t != 0) || (negb (gt_utc t) || gt_monotonic t)) bad ;;
  reject_if ((gt_instant t <? year2020) || negb (gt_instant t <? year2100)) bad.

#[global] Instance RunnerCapabilities_eq_dec : EqDecision RunnerCapabilities.
Proof. solve_decision. Defined.

Definition checkOriginal (seen : gset string) (f : Finding) : result PolicyError (gset string) :=
  reject_if ((fd_ID f == ""%string) || (fd_RuleID f == ""%string) || fd_Waived f
             || (fd_Disposition f == DispositionWaived))
    (errCode "invalid-original-finding" "application" (fd_RuleID f) (fd_ID f) "finding") ;;
  reject_if (bool_decide (fd_ID f ∈ seen))
    (errCode "duplicate-finding-id" "application" (fd_RuleID f) (fd_ID f) "finding") ;;
  mret ({[ fd_ID f ]} ∪ seen).

Definition zeroRunner : RunnerCapabilities :=
  mkRunnerCapabilities "" "" "" false false false false false false false false false false.

Definition validateApplicationBinding (eval : EvaluationDocument) (plan : RunPlan) (planDigest : Digest)
    (trusted : Config.TrustedLoadResult) : result PolicyError unit :=
  reject_if ((ed_SchemaVersion eval != SchemaVersionPolicyEvaluationV1Alpha1)
             || (ed_PolicyProfileName eval != PolicyProfileNameStrict)
             || (ed_PolicyProfileVersion eval != PolicyProfileVersionStrictV1Alpha1)
             || (ed_BuiltinRuleSetVersion eval != BuiltinRuleSetVersionStrictV1Alpha1))
    (errCode "invalid-evaluation" "application" "" "" "profile") ;;
  reject_if (negb (validDigest (ed_PlanDigest eval)) || negb (validDigest (ed_BehavioralDeltaDigest eval)))
    (errCode "invalid-evaluation" "application" "" "" "digest") ;;
  reject_if ((rp_RunID plan == ""%string) || (rp_RunID plan != ed_RunID eval) || (planDigest == ""%string)
             || (ed_PlanDigest eval != planDigest))
    (errCode "evaluation-plan-mismatch" "application" "" "" "planDigest") ;;
  reject_if (rp_Runner plan != zeroRunner) (errCode "invalid-plan" "application" "" "" "runner") ;;
  reject_if (match rp_Policy plan with None => true | Some p => pp_Profile p != PolicyProfileNameStrict end)
    (errCode "invalid-plan" "application" "" "" "policy.profile") ;;
  reject_if ((cr_CommitID (Config.tl_Base trusted) != cr_CommitID (rp_Base plan))
             || (cr_CommitID (Config.tl_Head trusted) != cr_CommitID (rp_Head plan))
             || (cr_Kind (Config.tl_Base trusted) != cr_Kind (rp_Base plan))
             || (cr_Kind (Config.tl_Head trusted) != cr_Kind (rp_Head plan)))
    (errCode "trusted-config-mismatch" "application" "" "" "revision") ;;
  reject_if ((ecs_Source (tl_EffectiveSource trusted) != EffectiveSourceBase)
             || (ecs_Path (tl_EffectiveSource trusted) != PipelinePath)
             || (cfm_Path (tl_BaseFile trusted) != PipelinePath)
             || (vp_Profile (vpl_Policy (tl_EffectivePipeline trusted)) != PolicyProfileNameStrict))
    (errCode "trusted-config-mismatch" "application" "" "" "source") ;;
  foldR checkOriginal ∅ (ed_Findings eval) ;;
  mret ().

(** ** [application.go]: waivers *)

Definition waiverEligibleFinding (f : Finding) : bool :=
  if fd_Disposition f != DispositionRequiresReview then false
  else bool_decide (fd_RuleID f ∈ ["GR-PROC-001"; "GR-FS-001"; "GR-FS-002"; "GR-NET-001"; "GR-ART-001";
                                   "GR-DET-001"; "GR-LIMIT-001"]%string).

(** A finding as it enters the application. *)
Definition unapplied (f : Finding) : AppliedFinding :=
  mkAppliedFinding FindingOriginBuiltinPolicy f (fd_Disposition f) None None.

(** [byID[f.ID] = idx]: the position of a finding, the last one of a repeated id. *)
Definition findingIndex (findings : list Finding) : gmap string nat :=
  (foldl (λ '(m, i) f, (<[fd_ID f := i]> m, S i)) (∅, 0%nat) findings).1.

Definition waivedBy (trusted : BaseAssessment) (w : Waiver) (a : AppliedFinding) : AppliedFinding :=
  mkAppliedFinding (af_Origin a) (af_Original a) DispositionWaived
    (Some (mkAppliedWaiver (w_ID w) (t_FindingID (w_Target w)) (t_RuleID (w_Target w)) (w_Owner w) (w_Reason w)
             (w_IssuedAt w) (w_ExpiresAt w) (fm_Digest (ba_File trusted)) (ba_SemanticDigest trusted)))
    (af_GovernanceReference a).

(** The status of a waiver, and the position of the finding it waives. *)
Definition waiverStatus (byID : gmap string nat) (applied : list AppliedFinding) (at_ : Z) (w : Waiver) :
    WaiverStatus * option nat :=
  if at_ <? w_IssuedAt w then (WaiverStatusNotYetValid, None)
  else if negb (at_ <? w_ExpiresAt w) then (WaiverStatusExpired, None)
  else match byID !! t_FindingID (w_Target w) with
       | None => (WaiverStatusUnused, None)
       | Some idx =>
         match applied !! idx with
         | None => (WaiverStatusUnused, None) (* byID only holds positions of [applied] *)
         | Some a =>
           if fd_RuleID (af_Original a) != t_RuleID (w_Target w) then (WaiverStatusTargetRuleMismatch, None)
           else if negb (waiverEligibleFinding (af_Original a)) then (WaiverStatusTargetIneligible, None)
           else (WaiverStatusApplied, Some idx)
         end
       end.

Definition applyWaiver (trusted : BaseAssessment) (byID : gmap string nat) (at_ : Z)
    (s : list AppliedFinding * list WaiverStatusRecord) (w : Waiver) :
    list AppliedFinding * list WaiverStatusRecord :=
  let '(applied, statuses) := s in
  let '(status, target) := waiverStatus byID applied at_ w in
  (match target with Some idx => alter (waivedBy trusted w) idx applied | None => applied end,
   statuses ++ [mkWaiverStatusRecord (w_ID w) (t_FindingID (w_Target w)) (t_RuleID (w_Target w)) status]).

Definition applyBaseWaivers (findings : list Finding) (trusted : BaseAssessment) (at_ : Z) :
    list AppliedFinding * list WaiverStatusRecord :=
  let applied := unapplied <$> findings in
  if ba_State trusted != BaseStateValid then (applied, [])
  else foldl (applyWaiver trusted (findingIndex findings) at_) (applied, []) (ba_Waivers trusted).

(** ** [application.go]: governance *)

Record governanceSpec := mkGovernanceSpec {
  gs_severity : Severity;
  gs_confidence : Confidence;
  gs_disposition : Disposition;
  gs_scope : string;
  gs_ref : GovernanceReference
}.

Definition severityForConfigEffect (e : SecurityEffect) : Severity :=
  if bool_decide (e ∈ [SecurityEffectPrivilegeDecrease; SecurityEffectObservationStrengthened]) then SeverityMedium
  else if e == SecurityEffectInformational then SeverityLow
  else SeverityHigh.

Definition configGovernanceSpecs (trusted : Config.TrustedLoadResult) : list governanceSpec :=
  let a := tl_HeadAssessment trusted in
  let st := Config.ha_State a in
  let raw := cfm_Digest (ha_HeadFile a) in
  if bool_decide (st ∈ [Config.HeadStateUnchanged; Config.HeadStateContentChangedSemanticallyEquivalent; ""%string])
  then []
  else if st == Config.HeadStateModifiedValid then
    (λ ch, mkGovernanceSpec (severityForConfigEffect (cc_Effect ch)) ConfidenceHigh DispositionRequiresReview
       ("config:" +:+ cc_Path ch +:+ ":" +:+ cc_Kind ch +:+ ":" +:+ cc_Effect ch)
       (mkGovernanceReference "config-change" (cc_Path ch) (cc_Kind ch) (cc_Effect ch) "" "" raw ""))
      <$> Config.ha_Changes a
  else [mkGovernanceSpec SeverityHigh ConfidenceHigh DispositionRequiresReview ("config-state:" +:+ st)
          (mkGovernanceReference "config-file-state" "" "" "" "" st raw "")].

Definition waiverStatusSpec (base : BaseAssessment) (st : WaiverStatusRecord) : list governanceSpec :=
  if bool_decide (wsr_Status st ∈ [WaiverStatusExpired; WaiverStatusNotYetValid; WaiverStatusUnused;
                                   WaiverStatusTargetRuleMismatch; WaiverStatusTargetIneligible]) then
    [mkGovernanceSpec SeverityMedium ConfidenceHigh DispositionRequiresReview
       ("waiver-status:" +:+ wsr_WaiverID st +:+ ":" +:+ wsr_Status st)
       (mkGovernanceReference "waiver-status" "" "" "" (wsr_WaiverID st) (wsr_Status st) "" (ba_SemanticDigest base))]
  else [].

Definition waiverChangeSeverity (k : Waiver.ChangeKind) : Severity :=
  if bool_decide (k ∈ [ChangeWaiverTargetChanged; ChangeWaiverExpiryChanged; ChangeWaiverAdded; ChangeWaiverRemoved])
  then SeverityHigh else SeverityMedium.

Definition waiverHeadSpecs (h : HeadAssessment) : list governanceSpec :=
  let st := ha_State h in
  let raw := fm_Digest (ha_File h) in
  let sem := ha_SemanticDigest h in
  if bool_decide (st ∈ [HeadStateAdded; HeadStateRemoved; HeadStateModifiedInvalid; HeadStateUnsupportedEntryKind]) then
    [mkGovernanceSpec SeverityHigh ConfidenceHigh DispositionRequiresReview ("head-state:" +:+ st)
       (mkGovernanceReference "waiver-head-state" "" "" "" "" st raw sem)]
  else if st == HeadStateModifiedValid then
    (λ ch, mkGovernanceSpec (waiverChangeSeverity (ch_Kind ch)) ConfidenceHigh DispositionRequiresReview
       ("head-change:" +:+ ch_WaiverID ch +:+ ":" +:+ ch_Kind ch)
       (mkGovernanceReference "waiver-head-change" "" "" "" (ch_WaiverID ch) (ch_Kind ch) raw sem)) <$> ha_Changes h
  else [].

Definition waiverGovernanceSpecs (result : TrustedLoadResult) (statuses : list WaiverStatusRecord) :
    list governanceSpec :=
  let base := tl_Base result in
  let st := ba_State base in
  (if bool_decide (st ∈ [BaseStateInvalid; BaseStateUnsupportedEntryKind]) then
     [mkGovernanceSpec SeverityHigh ConfidenceHigh DispositionFailed ("base-state:" +:+ st)
        (mkGovernanceReference "waiver-base-state" "" "" "" "" st (fm_Digest (ba_File base)) "")] else []) ++
  (statuses ≫= waiverStatusSpec base) ++ waiverHeadSpecs (tl_Head result).

Definition governanceRuleCatalog : list ruleMeta := [
  mkRuleMeta "GR-CONFIG-001" "v1" "Trusted security configuration changed in head" "" "" false;
  mkRuleMeta "GR-WAIVER-001" "v1" "Waiver governance issue" "" "" false ].
Definition governanceRuleByID (id : string) : ruleMeta :=
  default zeroRule (list_find (λ r, rm_ID r = id) governanceRuleCatalog ≫= λ p, Some p.2).

Definition governanceSummary (ruleID : string) : string :=
  if ruleID == "GR-CONFIG-001"%string then
    "Trusted head configuration differs from the effective base configuration; review is required before adopting it."
  else if ruleID == "GR-WAIVER-001"%string then
    "Trusted waiver metadata or head waiver proposal requires governance review."
  else "Governance metadata requires review.".

Definition makeGovernanceFinding (ruleID : string) (sp : governanceSpec) : result PolicyError Finding :=
  let meta := governanceRuleByID ruleID in
  reject_if (rm_ID meta == ""%string) (errCode "invalid-rule-catalog" "governance" ruleID "" "rule") ;;
  mret {|
    fd_SchemaVersion := SchemaVersionFindingV1Alpha1;
    fd_ID := findingID PolicyProfileVersionStrictV1Alpha1 GovernanceRuleSetVersionStrictV1Alpha1
               (rm_ID meta) (rm_Version meta) [] (gs_scope sp) [];
    fd_RuleID := rm_ID meta;
    fd_RuleVersion := rm_Version meta;
    fd_Title := rm_Title meta;
    fd_Severity := gs_severity sp;
    fd_Confidence := gs_confidence sp;
    fd_Disposition := gs_disposition sp;
    fd_Summary := governanceSummary (rm_ID meta);
    fd_DeltaRecordIDs := [];
    fd_Evidence := [];
    fd_ScenarioIDs := [];
    fd_BaseObserved := false;
    fd_HeadObserved := true;
    fd_Waived := false;
    fd_Waivers := [];
    fd_Limitations := [] |}.

(** One iteration of the two loops of [governanceFindings], with its [add]. *)
Definition addGovernance (limits : ApplicationLimits) (ruleID : string) (origin : FindingOrigin)
    (out : list AppliedFinding) (sp : governanceSpec) : result PolicyError (list AppliedFinding) :=
  f ← makeGovernanceFinding ruleID sp;
  reject_if (al_MaxGovernanceFindings limits <? Z.of_nat (length out) + 1)
    (errCode "governance-finding-limit" "governance" (fd_RuleID f) (fd_ID f) "count") ;;
  mret (out ++ [mkAppliedFinding origin f (fd_Disposition f) None (Some (gs_ref sp))]).

(** The first loop passes constants where the second passes the spec's own
    confidence and disposition. *)
Definition configSpec (sp : governanceSpec) : governanceSpec :=
  mkGovernanceSpec (gs_severity sp) ConfidenceHigh DispositionRequiresReview (gs_scope sp) (gs_ref sp).

Definition governanceFindings (limits : ApplicationLimits) (trusted : Config.TrustedLoadResult)
    (waivers : TrustedLoadResult) (statuses : list WaiverStatusRecord) : result PolicyError (list AppliedFinding) :=
  out ← foldR (addGovernance limits "GR-CONFIG-001" FindingOriginTrustedConfiguration) []
          (configSpec <$> configGovernanceSpecs trusted);
  foldR (addGovernance limits "GR-WAIVER-001" FindingOriginWaiverGovernance) out
    (waiverGovernanceSpecs waivers statuses).

(** ** [application.go]: order, summary, disposition *)

Definition rankDisposition (d : Disposition) : string :=
  if d == DispositionFailed then "0"%string
  else if d == DispositionRequiresReview then "1"%string
  else if d == DispositionWaived then "2"%string
  else if d == DispositionPassed then "3"%string
  else "9"%string.
Definition rankSeverity (s : Severity) : string :=
  if s == SeverityCritical then "0"%string
  else if s == SeverityHigh then "1"%string
  else if s == SeverityMedium then "2"%string
  else if s == SeverityLow then "3"%string
  else if s == SeverityInfo then "4"%string
  else "9"%string.

Definition appliedKey (a : AppliedFinding) : string :=
  joinNUL [rankDisposition (af_EffectiveDisposition a); rankSeverity (fd_Severity (af_Original a)); af_Origin a;
           fd_RuleID (af_Original a); first (fd_ScenarioIDs (af_Original a));
           first (fd_DeltaRecordIDs (af_Original a)); fd_ID (af_Original a)].
Definition applied_less : AppliedFinding → AppliedFinding → bool := by_last appliedKey str_lt.
Definition sortAppliedFindings (l : list AppliedFinding) : list AppliedFinding := stable_sort applied_less l.

(** [sort.Slice] need not be stable; statuses that tie agree on the key, and
    waiver ids are distinct. *)
Definition status_less : WaiverStatusRecord → WaiverStatusRecord → bool :=
  by_last (λ s, wsr_WaiverID s +:+ wsr_Status s) str_lt.
Definition sortWaiverStatuses (l : list WaiverStatusRecord) : list WaiverStatusRecord := stable_sort status_less l.

Definition summarizeAppliedFinding (s : ApplicationSummary) (a : AppliedFinding) : ApplicationSummary :=
  let o := af_Origin a in
  let d := af_EffectiveDisposition a in
  let v := fd_Severity (af_Original a) in
  mkApplicationSummary (as_TotalFindings s)
    (bump (o == FindingOriginBuiltinPolicy) (as_BuiltinFindings s))
    (bump (o == FindingOriginTrustedConfiguration) (as_ConfigurationFindings s))
    (bump (o == FindingOriginWaiverGovernance) (as_WaiverGovernanceFindings s))
    (bump (d == DispositionPassed) (as_EffectivePassed s))
    (bump (d == DispositionRequiresReview) (as_EffectiveRequiresReview s))
    (bump (d == DispositionFailed) (as_EffectiveFailed s))
    (bump (d == DispositionWaived) (as_EffectiveWaived s))
    (bump (v == SeverityInfo) (as_Info s)) (bump (v == SeverityLow) (as_Low s))
    (bump (v == SeverityMedium) (as_Medium s)) (bump (v == SeverityHigh) (as_High s))
    (bump (v == SeverityCritical) (as_Critical s))
    (as_AppliedWaivers s) (as_ExpiredWaivers s) (as_UnusedWaivers s) (as_InvalidWaivers s).

Definition bumpWaivers (applied expired unused invalid : bool) (s : ApplicationSummary) : ApplicationSummary :=
  mkApplicationSummary (as_TotalFindings s) (as_BuiltinFindings s) (as_ConfigurationFindings s)
    (as_WaiverGovernanceFindings s) (as_EffectivePassed s) (as_EffectiveRequiresReview s) (as_EffectiveFailed s)
    (as_EffectiveWaived s) (as_Info s) (as_Low s) (as_Medium s) (as_High s) (as_Critical s)
    (bump applied (as_AppliedWaivers s)) (bump expired (as_ExpiredWaivers s))
    (bump unused (as_UnusedWaivers s)) (bump invalid (as_InvalidWaivers s)).

Definition summarizeStatus (s : ApplicationSummary) (st : WaiverStatusRecord) : ApplicationSummary :=
  let k := wsr_Status st in
  bumpWaivers (k == WaiverStatusApplied) (k == WaiverStatusExpired)
    (bool_decide (k ∈ [WaiverStatusUnused; WaiverStatusTargetRuleMismatch; WaiverStatusTargetIneligible;
                       WaiverStatusNotYetValid]))
    (k == WaiverStatusInvalid) s.

Definition summarizeFailedGovernance (s : ApplicationSummary) (a : AppliedFinding) : ApplicationSummary :=
  bumpWaivers false false false
    ((af_Origin a == FindingOriginWaiverGovernance) && (af_EffectiveDisposition a == DispositionFailed)) s.

Definition summarizeApplication (findings : list AppliedFinding) (statuses : list WaiverStatusRecord) :
    ApplicationSummary :=
  let s := mkApplicationSummary (Z.of_nat (length findings)) 0 0 0 0 0 0 0 0 0 0 0 0 0 0 0 0 in
  let s := foldl summarizeAppliedFinding s findings in
  let s := foldl summarizeStatus s statuses in
  foldl summarizeFailedGovernance s findings.

Definition overallEffectiveDisposition (findings : list AppliedFinding) : Disposition :=
  if existsb (λ a, af_EffectiveDisposition a == DispositionFailed) findings then DispositionFailed
  else if existsb (λ a, af_EffectiveDisposition a == DispositionRequiresReview) findings
  then DispositionRequiresReview
  else DispositionPassed.

(** ** [application.go]: authorities *)

Definition configReference_less : ConfigChangeReference → ConfigChangeReference → bool :=
  by_last (λ c, ccr_Path c +:+ ccr_Kind c +:+ ccr_SecurityEffect c) str_lt.

(** Go's [sort.Slice] is not stable; here and below changes that tie on the
    concatenated key are sorted stably. *)
Definition configAuthority (t : Config.TrustedLoadResult) : ConfigAuthority :=
  let a := tl_HeadAssessment t in
  mkConfigAuthority PipelinePath (Config.tl_Base t) (Config.tl_Head t) (cfm_Digest (tl_BaseFile t)) (cfm_SizeBytes (tl_BaseFile t))
    (Config.ha_State a) (cfm_Digest (ha_HeadFile a))
    (stable_sort configReference_less
       ((λ ch, mkConfigChangeReference (cc_Path ch) (cc_Kind ch) (cc_Effect ch)) <$> Config.ha_Changes a)).

Definition waiverReference_less : WaiverChangeRecord → WaiverChangeRecord → bool :=
  by_last (λ c, wcr_WaiverID c +:+ wcr_Kind c) str_lt.

Definition waiverAuthority (t : TrustedLoadResult) : WaiverAuthority :=
  let b := tl_Base t in
  let h := tl_Head t in
  mkWaiverAuthority WaiverPath (tl_BaseRevision t) (tl_HeadRevision t) (ba_State b) (fm_Digest (ba_File b))
    (ba_SemanticDigest b) (fm_SizeBytes (ba_File b)) (ha_State h) (fm_Digest (ha_File h)) (ha_SemanticDigest h)
    (fm_SizeBytes (ha_File h))
    (stable_sort waiverReference_less ((λ ch, mkWaiverChangeRecord (ch_WaiverID ch) (ch_Kind ch)) <$> ha_Changes h)).

(** ** Serialisation *)

Definition json_of_time (t : Z) : json := JStr (format_rfc3339nano t).

Definition json_of_AppliedWaiver (x : AppliedWaiver) : json := JObj (j_fields [
  (false, "id"%string, JStr (aw_ID x));
  (false, "targetFindingId"%string, JStr (aw_TargetFindingID x));
  (false, "ruleId"%string, JStr (aw_RuleID x));
  (false, "owner"%string, JStr (aw_Owner x));
  (false, "reason"%string, JStr (aw_Reason x));
  (false, "issuedAt"%string, json_of_time (aw_IssuedAt x));
  (false, "expiresAt"%string, json_of_time (aw_ExpiresAt x));
  (false, "baseRawDigest"%string, JStr (aw_BaseRawDigest x));
  (false, "semanticWaiverSetDigest"%string, JStr (aw_SemanticWaiverSetDigest x))]).

Definition json_of_GovernanceReference (x : GovernanceReference) : json := JObj (j_fields [
  (false, "kind"%string, JStr (gr_Kind x));
  (ze_str (gr_Path x), "path"%string, JStr (gr_Path x));
  (ze_str (gr_ChangeKind x), "changeKind"%string, JStr (gr_ChangeKind x));
  (ze_str (gr_SecurityEffect x), "securityEffect"%string, JStr (gr_SecurityEffect x));
  (ze_str (gr_WaiverID x), "waiverId"%string, JStr (gr_WaiverID x));
  (ze_str (gr_State x), "state"%string, JStr (gr_State x));
  (ze_str (gr_RawDigest x), "rawDigest"%string, JStr (gr_RawDigest x));
  (ze_str (gr_SemanticDigest x), "semanticDigest"%string, JStr (gr_SemanticDigest x))]).

Definition json_of_AppliedFinding (x : AppliedFinding) : json := JObj (j_fields [
  (false, "origin"%string, JStr (af_Origin x));
  (false, "original"%string, json_of_Finding (af_Original x));
  (false, "effectiveDisposition"%string, JStr (af_EffectiveDisposition x));
  (ze_ptr (af_AppliedWaiver x), "appliedWaiver"%string, j_ptr json_of_AppliedWaiver (af_AppliedWaiver x));
  (ze_ptr (af_GovernanceReference x), "governanceReference"%string,
     j_ptr json_of_GovernanceReference (af_GovernanceReference x))]).

Definition json_of_ConfigAuthority (x : ConfigAuthority) : json := JObj (j_fields [
  (false, "path"%string, JStr (ca_Path x));
  (false, "baseRevision"%string, json_of_CommitRef (ca_BaseRevision x));
  (false, "headRevision"%string, json_of_CommitRef (ca_HeadRevision x));
  (ze_str (ca_BaseRawDigest x), "baseRawDigest"%string, JStr (ca_BaseRawDigest x));
  (false, "baseSizeBytes"%string, JNum (ca_BaseSizeBytes x));
  (false, "headState"%string, JStr (ca_HeadState x));
  (ze_str (ca_HeadRawDigest x), "headRawDigest"%string, JStr (ca_HeadRawDigest x));
  (false, "changes"%string, JArr ((λ c, JObj [("path"%string, JStr (ccr_Path c)); ("kind"%string, JStr (ccr_Kind c));
     ("securityEffect"%string, JStr (ccr_SecurityEffect c))]) <$> ca_Changes x))]).

Definition json_of_WaiverAuthority (x : WaiverAuthority) : json := JObj (j_fields [
  (false, "path"%string, JStr (wa_Path x));
  (false, "baseRevision"%string, json_of_CommitRef (wa_BaseRevision x));
  (false, "headRevision"%string, json_of_CommitRef (wa_HeadRevision x));
  (false, "baseState"%string, JStr (wa_BaseState x));
  (ze_str (wa_BaseRawDigest x), "baseRawDigest"%string, JStr (wa_BaseRawDigest x));
  (ze_str (wa_BaseSemanticDigest x), "baseSemanticDigest"%string, JStr (wa_BaseSemanticDigest x));
  (ze_num (wa_BaseSizeBytes x), "baseSizeBytes"%string, JNum (wa_BaseSizeBytes x));
  (false, "headState"%string, JStr (wa_HeadState x));
  (ze_str (wa_HeadRawDigest x), "headRawDigest"%string, JStr (wa_HeadRawDigest x));
  (ze_str (wa_HeadSemanticDigest x), "headSemanticDigest"%string, JStr (wa_HeadSemanticDigest x));
  (ze_num (wa_HeadSizeBytes x), "headSizeBytes"%string, JNum (wa_HeadSizeBytes x));
  (false, "changes"%string, JArr ((λ c, JObj (j_fields [
     (ze_str (wcr_WaiverID c), "waiverId"%string, JStr (wcr_WaiverID c));
     (false, "kind"%string, JStr (wcr_Kind c))])) <$> wa_Changes x))]).

Definition json_of_WaiverStatusRecord (x : WaiverStatusRecord) : json := JObj (j_fields [
  (false, "waiverId"%string, JStr (wsr_WaiverID x));
  (ze_str (wsr_FindingID x), "findingId"%string, JStr (wsr_FindingID x));
  (ze_str (wsr_RuleID x), "ruleId"%string, JStr (wsr_RuleID x));
  (false, "status"%string, JStr (wsr_Status x))]).

Definition json_of_ApplicationSummary (x : ApplicationSummary) : json := JObj [
  ("totalFindings"%string, JNum (as_TotalFindings x));
  ("builtinFindings"%string, JNum (as_BuiltinFindings x));
  ("configurationFindings"%string, JNum (as_ConfigurationFindings x));
  ("waiverGovernanceFindings"%string, JNum (as_WaiverGovernanceFindings x));
  ("effectivePassed"%string, JNum (as_EffectivePassed x));
  ("effectiveRequiresReview"%string, JNum (as_EffectiveRequiresReview x));
  ("effectiveFailed"%string, JNum (as_EffectiveFailed x));
  ("effectiveWaived"%string, JNum (as_EffectiveWaived x));
  ("info"%string, JNum (as_Info x));
  ("low"%string, JNum (as_Low x));
  ("medium"%string, JNum (as_Medium x));
  ("high"%string, JNum (as_High x));
  ("critical"%string, JNum (as_Critical x));
  ("appliedWaivers"%string, JNum (as_AppliedWaivers x));
  ("expiredWaivers"%string, JNum (as_ExpiredWaivers x));
  ("unusedWaivers"%string, JNum (as_UnusedWaivers x));
  ("invalidWaivers"%string, JNum (as_InvalidWaivers x))].

(** [normalizeApplication] makes the nil slices empty, so all lists are arrays. *)
Definition json_of_ApplicationDocument (x : ApplicationDocument) : json := JObj [
  ("schemaVersion"%string, JStr (ad_SchemaVersion x));
  ("evaluatedAt"%string, json_of_time (ad_EvaluatedAt x));
  ("runId"%string, JStr (ad_RunID x));
  ("planDigest"%string, JStr (ad_PlanDigest x));
  ("behavioralDeltaDigest"%string, JStr (ad_BehavioralDeltaDigest x));
  ("basePolicyEvaluationDigest"%string, JStr (ad_BasePolicyEvaluationDigest x));
  ("policyProfileName"%string, JStr (ad_PolicyProfileName x));
  ("policyProfileVersion"%string, JStr (ad_PolicyProfileVersion x));
  ("builtinRuleSetVersion"%string, JStr (ad_BuiltinRuleSetVersion x));
  ("governanceRuleSetVersion"%string, JStr (ad_GovernanceRuleSetVersion x));
  ("base"%string, json_of_CommitRef (ad_Base x));
  ("head"%string, json_of_CommitRef (ad_Head x));
  ("trustedConfigAuthority"%string, json_of_ConfigAuthority (ad_TrustedConfigAuthority x));
  ("trustedWaiverAuthority"%string, json_of_WaiverAuthority (ad_TrustedWaiverAuthority x));
  ("overallEffectiveDisposition"%string, JStr (ad_OverallEffectiveDisposition x));
  ("appliedFindings"%string, JArr (json_of_AppliedFinding <$> ad_AppliedFindings x));
  ("waiverStatuses"%string, JArr (json_of_WaiverStatusRecord <$> ad_WaiverStatuses x));
  ("summary"%string, json_of_ApplicationSummary (ad_Summary x));
  ("limitations"%string, JArr (json_of_Limitation <$> ad_Limitations x))].

(** ** [Apply] *)

(** [NewApplier] followed by [Apply].  The YAML loader and the source of the
    waiver files are the code outside this repository. *)
Definition Apply (yaml_load : YamlLoad) (limits : ApplicationLimits) (ctx : Context) (req : ApplicationRequest) :
    result PolicyError FrozenApplication :=
  l ← validateApplicationLimits limits;
  poll ctx 0 ;;
  validateEvaluatedAt (ar_EvaluatedAt req) ;;
  match ar_Evaluation req with
  | None => Err (errCode "nil-evaluation" "application" "" "" "evaluation")
  | Some evaluation =>
  match ar_Plan req with
  | None => Err (errCode "nil-plan" "application" "" "" "plan")
  | Some plan =>
    reject_if (Framing.digestBytes evaluationJSONDomain (fe_json evaluation) != fe_digest evaluation)
      (errCode "invalid-evaluation" "application" "" "" "digest") ;;
    let evalDoc := fe_doc evaluation in
    reject_if (DigestRunPlanJSON (fp_json plan) != fp_digest plan)
      (errCode "invalid-plan" "application" "" "" "digest") ;;
    let planDoc := fp_doc plan in
    let trusted := ar_TrustedConfig req in
    validateApplicationBinding evalDoc planDoc (fp_digest plan) trusted ;;
    reject_if (al_MaxOriginalFindings l <? Z.of_nat (length (ed_Findings evalDoc)))
      (errCode "application-limit" "application" "" "" "findings") ;;
    waivers ← match LoadTrusted yaml_load (λ n, ctx (S n)) (ar_WaiverSource req) (Config.tl_Base trusted) (Config.tl_Head trusted)
                      (applicationWaiverLimits l) with
              | Ok w => Ok w
              | Err _ => Err (errCode "waiver-load-failed" "waivers" "" "" "source")
              end;
    reject_if ((cr_CommitID (tl_BaseRevision waivers) != cr_CommitID (Config.tl_Base trusted))
               || (cr_CommitID (tl_HeadRevision waivers) != cr_CommitID (Config.tl_Head trusted)))
      (errCode "invalid-waiver-state" "waivers" "" "" "revision") ;;
    let at_ := gt_instant (ar_EvaluatedAt req) in
    let '(applied, statuses) := applyBaseWaivers (ed_Findings evalDoc) (Waiver.tl_Base waivers) at_ in
    gov ← governanceFindings l trusted waivers statuses;
    let applied := applied ++ gov in
    reject_if (al_MaxAppliedFindings l <? Z.of_nat (length applied))
      (errCode "application-limit" "application" "" "" "appliedFindings") ;;
    let applied := sortAppliedFindings applied in
    let statuses := sortWaiverStatuses statuses in
    let doc := {|
      ad_SchemaVersion := SchemaVersionPolicyApplicationV1Alpha1;
      ad_EvaluatedAt := at_;
      ad_RunID := ed_RunID evalDoc;
      ad_PlanDigest := ed_PlanDigest evalDoc;
      ad_BehavioralDeltaDigest := ed_BehavioralDeltaDigest evalDoc;
      ad_BasePolicyEvaluationDigest := fe_digest evaluation;
      ad_PolicyProfileName := ed_PolicyProfileName evalDoc;
      ad_PolicyProfileVersion := ed_PolicyProfileVersion evalDoc;
      ad_BuiltinRuleSetVersion := ed_BuiltinRuleSetVersion evalDoc;
      ad_GovernanceRuleSetVersion := GovernanceRuleSetVersionStrictV1Alpha1;
      ad_Base := rp_Base planDoc;
      ad_Head := rp_Head planDoc;
      ad_TrustedConfigAuthority := configAuthority trusted;
      ad_TrustedWaiverAuthority := waiverAuthority waivers;
      ad_OverallEffectiveDisposition := overallEffectiveDisposition applied;
      ad_AppliedFindings := applied;
      ad_WaiverStatuses := statuses;
      ad_Summary := summarizeApplication applied statuses;
      ad_Limitations := sortLimitations (ed_Limitations evalDoc) |} in
    let data := render (json_of_ApplicationDocument doc) in
    reject_if (al_MaxApplicationJSONBytes l <? Z.of_nat (length data))
      (errCode "application-too-large" "application" "" "" "json") ;;
    mret (mkFrozenApplication doc data (Framing.digestBytes applicationJSONDomain data))
  end
  end.
