(* ===== verification/ApplicationSpec.v ===== *)
(** * What applying waivers and governance guarantees

    Which findings a waiver may change ([waives]) and what each waiver's status
    means ([outcome]), without reference to the loops that compute them; then the
    theorems about [Apply]: waivers never touch what they may not, the head has
    no say in them, every governance event is a finding, and the overall
    disposition is the strongest effective one. *)

From stdpp Require Import prelude gmap strings sorting.
From Stdlib Require Import ZArith Lia Ascii.
From S2P Require Import Prelude GoStd Sha256 Framing GoTime Model Json GoText Yaml Observe Compare Policy PolicySpec Config Plan Waiver WaiverSpec Application.
Local Open Scope Z_scope.

(** ** Vocabulary *)

(** A built-in finding that a waiver may accept: one that asks for review, of a
    waivable rule.  Failed findings and the coverage rules are never waivable. *)
Definition waivable (f : Finding) : Prop :=
  fd_Disposition f = DispositionRequiresReview ∧ fd_RuleID f ∈ waivableRules.

(** The waiver's window contains the time of the evaluation: [issued, expires). *)
Definition in_force (at_ : Z) (w : Waiver) : Prop := w_IssuedAt w <= at_ < w_ExpiresAt w.

Definition targets (w : Waiver) (f : Finding) : Prop :=
  fd_ID f = t_FindingID (w_Target w) ∧ fd_RuleID f = t_RuleID (w_Target w).

Definition waives (at_ : Z) (w : Waiver) (f : Finding) : Prop := in_force at_ w ∧ targets w f ∧ waivable f.

(** The status of a waiver against the findings of an evaluation. *)
Inductive outcome (findings : list Finding) (at_ : Z) (w : Waiver) : WaiverStatus → Prop :=
| outcome_early : at_ < w_IssuedAt w → outcome findings at_ w WaiverStatusNotYetValid
| outcome_late : w_IssuedAt w <= at_ → w_ExpiresAt w <= at_ → outcome findings at_ w WaiverStatusExpired
| outcome_unused :
    in_force at_ w → (∀ f, f ∈ findings → fd_ID f <> t_FindingID (w_Target w)) → outcome findings at_ w WaiverStatusUnused
| outcome_mismatch f :
    in_force at_ w → f ∈ findings → fd_ID f = t_FindingID (w_Target w) → fd_RuleID f <> t_RuleID (w_Target w) →
    outcome findings at_ w WaiverStatusTargetRuleMismatch
| outcome_ineligible f :
    in_force at_ w → f ∈ findings → targets w f → ¬ waivable f → outcome findings at_ w WaiverStatusTargetIneligible
| outcome_applied f : f ∈ findings → waives at_ w f → outcome findings at_ w WaiverStatusApplied.

Lemma waiverEligible_iff f : waiverEligibleFinding f = true ↔ waivable f.
Proof.
  unfold waiverEligibleFinding, waivable. change ["GR-PROC-001"%string; _; _; _; _; _; _] with waivableRules.
  destruct (decide (fd_Disposition f = DispositionRequiresReview)) as [E|E].
  - rewrite (bool_decide_true _ E). cbn. rewrite bool_decide_eq_true. tauto.
  - rewrite (bool_decide_false _ E). cbn. split; [done|tauto].
Qed.

(** ** The loop over the waivers *)

Section waivers.
Context (findings : list Finding) (Hids : NoDup (fd_ID <$> findings)) (trusted : BaseAssessment) (at_ : Z).

Lemma findingIndex_spec id i :
  findingIndex findings !! id = Some i ↔ ∃ f, findings !! i = Some f ∧ fd_ID f = id.
Proof.
  unfold findingIndex.
  set (step := λ '(m, i) f, (<[fd_ID f := i]> m, S i)).
  assert (∀ fs m n, NoDup (fd_ID <$> fs) → (foldl step (m, n) fs).1 !! id = Some i ↔
     (∃ j f, (fs !! j = Some f) ∧ fd_ID f = id ∧ i = (n + j)%nat) ∨ (id ∉ (fd_ID <$> fs) ∧ ((m : gmap string nat) !! id = Some i))) as H.
  { clear Hids. induction fs as [|f fs IH]; intros m n Hnd; cbn.
    { split; [intros H; right; split; [apply not_elem_of_nil|done]|].
      intros [(j & f & [=] & _)|[_ H]]; done. }
    apply NoDup_cons in Hnd as [Hf Hnd]. rewrite IH by done. rewrite not_elem_of_cons, lookup_insert_Some. split.
    - intros [(j & g & Hg & Hid & ->)|(Hn & [[Hid ->]|[Hid Hm]])].
      + left. exists (S j), g. split_and!; [done..|lia].
      + left. exists 0%nat, f. split_and!; [done..|lia].
      + right. split; [split; [congruence|done]|done].
    - intros [(j & g & Hg & Hid & ->)|([Hne Hn] & Hm)].
      + destruct j as [|j]; cbn in Hg.
        * injection Hg as ->. right. rewrite <- Hid. split; [done|]. left. split; [done|lia].
        * left. exists j, g. split_and!; [done..|lia].
      + right. split; [done|]. right. split; [congruence|done]. }
  rewrite H by done. rewrite lookup_empty. split.
  - intros [(j & f & ? & ? & ->)|[_ [=]]]. eauto.
  - intros (f & ? & ?). left. by exists i, f.
Qed.

(** What the applied findings look like after some waivers. *)
Definition applied_by (ws : list Waiver) (f : Finding) (a : AppliedFinding) : Prop :=
  (∃ w, w ∈ ws ∧ waives at_ w f ∧ a = waivedBy trusted w (unapplied f))
  ∨ (∀ w, w ∈ ws → ¬ waives at_ w f) ∧ a = unapplied f.

Lemma applied_by_original ws f a : applied_by ws f a → af_Original a = f.
Proof. by intros [(w & _ & _ & ->)|[_ ->]]. Qed.

Lemma waiverStatus_spec ws applied w st tgt :
  Forall2 (applied_by ws) findings applied →
  waiverStatus (findingIndex findings) applied at_ w = (st, tgt) →
  outcome findings at_ w st ∧
  match tgt with
  | Some i => ∃ f, findings !! i = Some f ∧ waives at_ w f ∧ st = WaiverStatusApplied
  | None => ∀ f, f ∈ findings → ¬ waives at_ w f
  end.
Proof.
  intros Happ. unfold waiverStatus.
  destruct (at_ <? w_IssuedAt w) eqn:Ei; go_bool.
  { intros [= <- <-]. split; [by apply outcome_early|]. intros f _ [[? _] _]. lia. }
  destruct (negb (at_ <? w_ExpiresAt w)) eqn:Ee; go_bool.
  { intros [= <- <-]. split; [by apply outcome_late|]. intros f _ [[_ ?] _]. lia. }
  assert (in_force at_ w) as Hin by done.
  destruct (findingIndex findings !! _) as [i|] eqn:Ef.
  2:{ intros [= <- <-]. assert (∀ f, f ∈ findings → fd_ID f <> t_FindingID (w_Target w)) as Hn.
      { intros f [j Hj]%list_elem_of_lookup E. assert (findingIndex findings !! t_FindingID (w_Target w) = Some j)
          as Hs by (apply findingIndex_spec; eauto). congruence. }
      split; [by apply outcome_unused|]. intros f Hf (_ & [? _] & _). by eapply Hn. }
  apply findingIndex_spec in Ef as (f & Hf & Hid).
  destruct (Forall2_lookup_l _ _ _ _ _ Happ Hf) as (a & -> & Ha). apply applied_by_original in Ha. rewrite Ha.
  assert (f ∈ findings) as Hfin by by eapply list_elem_of_lookup_2.
  assert (∀ g, g ∈ findings → fd_ID g = fd_ID f → g = f) as Hu.
  { intros g [j Hj]%list_elem_of_lookup E. assert (j = i) as ->; [|congruence].
    eapply (NoDup_lookup (fd_ID <$> findings)); [done|..]; rewrite list_lookup_fmap; [by rewrite Hj; cbn; rewrite E|by rewrite Hf]. }
  destruct (fd_RuleID f != _) eqn:Er; go_bool.
  { intros [= <- <-]. split; [by eapply outcome_mismatch|]. intros g Hg (_ & [? ?] & _).
    apply Er. rewrite <- (Hu g); [done|done|congruence]. }
  destruct (negb (waiverEligibleFinding f)) eqn:Ew; go_bool.
  - apply not_true_iff_false in Ew. rewrite waiverEligible_iff in Ew. intros [= <- <-].
    split; [by eapply outcome_ineligible|]. intros g Hg (_ & [? ?] & ?).
    apply Ew. rewrite <- (Hu g); [done|done|congruence].
  - apply waiverEligible_iff in Ew. intros [= <- <-].
    assert (waives at_ w f) as Hw by done.
    split; [by eapply outcome_applied|]. by exists f.
Qed.

Lemma applied_by_skip ws w f a :
  applied_by ws f a → ¬ waives at_ w f → applied_by (ws ++ [w]) f a.
Proof.
  intros [(v & Hv & ? & ->)|[Hn ->]] Hw.
  - left. exists v. rewrite elem_of_app. by split_and!; [left|..].
  - right. split; [|done]. intros v. rewrite elem_of_app, list_elem_of_singleton. intros [?| ->]; [by apply Hn|done].
Qed.

Lemma applied_by_waive ws w f a :
  applied_by ws f a → waives at_ w f → applied_by (ws ++ [w]) f (waivedBy trusted w a).
Proof.
  intros Ha Hw. left. exists w. rewrite elem_of_app, list_elem_of_singleton. split_and!; [by right|done|].
  by destruct Ha as [(v & _ & _ & ->)|[_ ->]].
Qed.

(** The status record of a waiver. *)
Definition status_of (w : Waiver) (st : WaiverStatusRecord) : Prop :=
  wsr_WaiverID st = w_ID w ∧ wsr_FindingID st = t_FindingID (w_Target w) ∧ wsr_RuleID st = t_RuleID (w_Target w)
  ∧ outcome findings at_ w (wsr_Status st).

Lemma applyWaiver_inv ws applied statuses w applied' statuses' :
  Forall2 (applied_by ws) findings applied → Forall2 status_of ws statuses →
  applyWaiver trusted (findingIndex findings) at_ (applied, statuses) w = (applied', statuses') →
  Forall2 (applied_by (ws ++ [w])) findings applied' ∧ Forall2 status_of (ws ++ [w]) statuses'.
Proof.
  intros Ha Hs. unfold applyWaiver. destruct (waiverStatus _ _ _ _) as [st tgt] eqn:E.
  destruct (waiverStatus_spec _ _ _ _ _ Ha E) as [Ho Ht]. intros [= <- <-]. split.
  2:{ apply Forall2_app; [done|]. constructor; [|constructor]. done. }
  destruct tgt as [i|].
  - destruct Ht as (f & Hf & Hw & ->). apply Forall2_same_length_lookup_2.
    { rewrite length_alter. by eapply Forall2_length. }
    intros j g a Hg Haj. destruct (decide (i = j)) as [<-|Hne].
    + rewrite list_lookup_alter_eq in Haj. assert (g = f) as -> by congruence.
      destruct (Forall2_lookup_l _ _ _ _ _ Ha Hf) as (b & Hb & Hfb). assert (a = waivedBy trusted w b) as -> by (rewrite Hb in Haj; cbn in Haj; congruence).
      by apply applied_by_waive.
    + rewrite list_lookup_alter_ne in Haj by done.
      pose proof (Forall2_lookup_lr _ _ _ _ _ _ Ha Hg Haj) as Hga. apply applied_by_skip; [done|].
      intros (_ & [Hgid _] & _). destruct Hw as (_ & [Hfid _] & _).
      apply Hne. eapply (NoDup_lookup (fd_ID <$> findings)); [done|..];
        rewrite list_lookup_fmap; [by rewrite Hf|]. rewrite Hg. cbn. congruence.
  - apply Forall2_same_length_lookup_2; [by eapply Forall2_length|].
    intros j g a Hg Haj. apply applied_by_skip; [by eapply Forall2_lookup_lr|].
    apply Ht. by eapply list_elem_of_lookup_2.
Qed.

Lemma applyBaseWaivers_spec applied statuses :
  applyBaseWaivers findings trusted at_ = (applied, statuses) →
  let ws := if bool_decide (ba_State trusted = BaseStateValid) then ba_Waivers trusted else [] in
  Forall2 (applied_by ws) findings applied ∧ Forall2 status_of ws statuses.
Proof.
  assert (Forall2 (applied_by []) findings (unapplied <$> findings)) as H0.
  { apply Forall2_fmap_r, Forall_Forall2_diag, Forall_true. intros f. right. by split; [intros ? ?%not_elem_of_nil|]. }
  unfold applyBaseWaivers. case_bool_decide; cbn; [|intros [= <- <-]; by split; [|constructor]].
  assert (∀ l ws applied0 statuses0,
      Forall2 (applied_by ws) findings applied0 → Forall2 status_of ws statuses0 →
      foldl (applyWaiver trusted (findingIndex findings) at_) (applied0, statuses0) l = (applied, statuses) →
      Forall2 (applied_by (ws ++ l)) findings applied ∧ Forall2 status_of (ws ++ l) statuses) as Hgen.
  { induction l as [|w l IH]; cbn [foldl]; intros ws a0 s0 Ha Hs.
    - intros [= <- <-]. by rewrite app_nil_r.
    - destruct (applyWaiver _ _ _ (a0, s0) w) as [a1 s1] eqn:E.
      destruct (applyWaiver_inv _ _ _ _ _ _ Ha Hs E) as [Ha1 Hs1]. intros Hf.
      destruct (IH (ws ++ [w]) a1 s1 Ha1 Hs1 Hf) as [? ?]. by rewrite <- !app_assoc in *. }
  intros Hf. by apply (Hgen (ba_Waivers trusted) [] _ [] H0).
Qed.
End waivers.

(** ** The steps of a successful application *)

(** What the source holds at the base and the head, as the load reports it. *)
Record applied_run (yaml_load : YamlLoad) (limits : ApplicationLimits) (ctx : Context) (req : ApplicationRequest)
    (doc : ApplicationDocument) (eval : EvaluationDocument) (waivers : TrustedLoadResult)
    (applied : list AppliedFinding) (statuses : list WaiverStatusRecord) (gov : list AppliedFinding) : Prop := {
  run_evaluation : ∃ fe, ar_Evaluation req = Some fe ∧ fe_doc fe = eval;
  run_ids : NoDup (fd_ID <$> ed_Findings eval);
  run_original f : f ∈ ed_Findings eval → fd_Disposition f <> DispositionWaived ∧ fd_Waived f = false;
  run_waivers : ∃ ReadFile, ar_WaiverSource req = Some ReadFile ∧
    assessment yaml_load (applicationWaiverLimits limits) ReadFile
      (Config.tl_Base (ar_TrustedConfig req)) (Config.tl_Head (ar_TrustedConfig req)) = Some waivers;
  run_limits : validateLimits (applicationWaiverLimits limits) = Ok (applicationWaiverLimits limits);
  run_applied : applyBaseWaivers (ed_Findings eval) (Waiver.tl_Base waivers) (ad_EvaluatedAt doc) = (applied, statuses);
  run_governance : governanceFindings limits (ar_TrustedConfig req) waivers statuses = Ok gov;
  run_time : ad_EvaluatedAt doc = gt_instant (ar_EvaluatedAt req);
  run_findings : ad_AppliedFindings doc = sortAppliedFindings (applied ++ gov);
  run_statuses : ad_WaiverStatuses doc = sortWaiverStatuses statuses;
  run_overall : ad_OverallEffectiveDisposition doc = overallEffectiveDisposition (ad_AppliedFindings doc);
  run_authorities : ad_TrustedWaiverAuthority doc = waiverAuthority waivers;
  run_summary : ad_Summary doc = summarizeApplication (ad_AppliedFindings doc) (ad_WaiverStatuses doc)
}.

Lemma checkOriginal_inv fs seen seen' : foldR checkOriginal seen fs = Ok seen' →
  NoDup (fd_ID <$> fs) ∧ (∀ f, f ∈ fs → fd_ID f ∉ seen ∧ fd_Disposition f <> DispositionWaived ∧ fd_Waived f = false).
Proof.
  revert seen. induction fs as [|f fs IH]; cbn; intros seen H.
  { split; [constructor|by intros f ?%not_elem_of_nil]. }
  destruct (checkOriginal seen f) as [s|] eqn:E; [|done]. unfold checkOriginal in E. inv_ok. go_bool. subst s.
  destruct (IH _ H) as [Hnd Hf]. split.
  - constructor; [|done]. intros (g & E & Hg)%list_elem_of_fmap. destruct (Hf g Hg) as [Hn _]. rewrite <- E in Hn. set_solver.
  - intros g [->|Hg]%elem_of_cons; [done|]. destruct (Hf g Hg) as (Hn & ? & ?). split; [set_solver|done].
Qed.

Lemma validateApplicationBinding_findings eval plan digest trusted u :
  validateApplicationBinding eval plan digest trusted = Ok u →
  NoDup (fd_ID <$> ed_Findings eval)
  ∧ (∀ f, f ∈ ed_Findings eval → fd_Disposition f <> DispositionWaived ∧ fd_Waived f = false).
Proof.
  unfold validateApplicationBinding. intros H. do 7 apply reject_bind_Ok in H as [_ H].
  apply bind_Ok in H as (seen & H & _). apply checkOriginal_inv in H as [Hnd Hf].
  split; [done|]. intros f ?. by apply Hf.
Qed.

Lemma validateApplicationLimits_Ok l l' : validateApplicationLimits l = Ok l' → l' = l.
Proof. unfold validateApplicationLimits. intros H. inv_ok. by subst. Qed.

Lemma Apply_Ok yaml_load limits ctx req fa :
  Apply yaml_load limits ctx req = Ok fa →
  ∃ eval waivers applied statuses gov,
    applied_run yaml_load limits ctx req (fa_doc fa) eval waivers applied statuses gov.
Proof.
  unfold Apply. intros H. apply bind_Ok in H as (l & Hl & H). apply validateApplicationLimits_Ok in Hl as ->.
  apply bind_Ok in H as (u1 & _ & H). apply bind_Ok in H as (u2 & _ & H).
  destruct (ar_Evaluation req) as [fe|] eqn:Ee; [|done]. destruct (ar_Plan req) as [plan|] eqn:Ep; [|done].
  apply reject_bind_Ok in H as [_ H]. apply reject_bind_Ok in H as [_ H]. cbv zeta in H.
  apply bind_Ok in H as (u3 & Hb & H). apply validateApplicationBinding_findings in Hb as [Hids Horig].
  apply reject_bind_Ok in H as [_ H]. apply bind_Ok in H as (waivers & Hw & H).
  destruct (LoadTrusted _ _ _ _ _ _) as [w|] eqn:Hload; [|done]. apply Ok_inj in Hw as <-.
  destruct (ar_WaiverSource req) as [ReadFile|] eqn:Es.
  2:{ unfold LoadTrusted in Hload. apply bind_Ok in Hload as (? & _ & Hload). by apply bind_Ok in Hload as (? & _ & Hload). }
  apply load_trusted_refines in Hload as (Hlim & _ & _ & _ & Has).
  apply reject_bind_Ok in H as [_ H].
  destruct (applyBaseWaivers _ _ _) as [applied statuses] eqn:Ea.
  apply bind_Ok in H as (gov & Hg & H). apply reject_bind_Ok in H as [_ H].
  apply reject_bind_Ok in H as [_ H]. apply Ok_inj in H as <-.
  exists (fe_doc fe), w, applied, statuses, gov. split; cbn; eauto.
Qed.

(** ** Governance *)

Definition isBuiltin (a : AppliedFinding) : Prop := af_Origin a = FindingOriginBuiltinPolicy.
#[global] Instance isBuiltin_dec a : Decision (isBuiltin a).
Proof. apply _. Defined.

(** The events that call for a governance finding: a change the head proposes to
    the security configuration or to the waivers, a waiver that does not apply,
    and a base waiver file that cannot be trusted. *)
Inductive event (trusted : Config.TrustedLoadResult) (waivers : TrustedLoadResult) (findings : list Finding) (at_ : Z) :
    string → Disposition → GovernanceReference → Prop :=
| config_change ch :
    Config.ha_State (tl_HeadAssessment trusted) = Config.HeadStateModifiedValid →
    ch ∈ Config.ha_Changes (tl_HeadAssessment trusted) →
    event trusted waivers findings at_ "GR-CONFIG-001" DispositionRequiresReview
      (mkGovernanceReference "config-change" (cc_Path ch) (cc_Kind ch) (cc_Effect ch) "" ""
         (cfm_Digest (ha_HeadFile (tl_HeadAssessment trusted))) "")
| config_state :
    Config.ha_State (tl_HeadAssessment trusted) ∉ [Config.HeadStateUnchanged;
      Config.HeadStateContentChangedSemanticallyEquivalent; ""; Config.HeadStateModifiedValid]%string →
    event trusted waivers findings at_ "GR-CONFIG-001" DispositionRequiresReview
      (mkGovernanceReference "config-file-state" "" "" "" "" (Config.ha_State (tl_HeadAssessment trusted))
         (cfm_Digest (ha_HeadFile (tl_HeadAssessment trusted))) "")
| waiver_base :
    ba_State (tl_Base waivers) ∈ [BaseStateInvalid; BaseStateUnsupportedEntryKind] →
    event trusted waivers findings at_ "GR-WAIVER-001" DispositionFailed
      (mkGovernanceReference "waiver-base-state" "" "" "" "" (ba_State (tl_Base waivers))
         (fm_Digest (ba_File (tl_Base waivers))) "")
| waiver_status w st :
    ba_State (tl_Base waivers) = BaseStateValid → w ∈ ba_Waivers (tl_Base waivers) →
    outcome findings at_ w st → st <> WaiverStatusApplied →
    event trusted waivers findings at_ "GR-WAIVER-001" DispositionRequiresReview
      (mkGovernanceReference "waiver-status" "" "" "" (w_ID w) st "" (ba_SemanticDigest (tl_Base waivers)))
| waiver_head_state :
    ha_State (tl_Head waivers) ∈ [HeadStateAdded; HeadStateRemoved; HeadStateModifiedInvalid; HeadStateUnsupportedEntryKind] →
    event trusted waivers findings at_ "GR-WAIVER-001" DispositionRequiresReview
      (mkGovernanceReference "waiver-head-state" "" "" "" "" (ha_State (tl_Head waivers))
         (fm_Digest (ha_File (tl_Head waivers))) (ha_SemanticDigest (tl_Head waivers)))
| waiver_head_change ch :
    ha_State (tl_Head waivers) = HeadStateModifiedValid → ch ∈ ha_Changes (tl_Head waivers) →
    event trusted waivers findings at_ "GR-WAIVER-001" DispositionRequiresReview
      (mkGovernanceReference "waiver-head-change" "" "" "" (ch_WaiverID ch) (ch_Kind ch)
         (fm_Digest (ha_File (tl_Head waivers))) (ha_SemanticDigest (tl_Head waivers))).

(** The finding of a governance spec. *)
Definition governs (ruleID : string) (origin : FindingOrigin) (sp : governanceSpec) (a : AppliedFinding) : Prop :=
  af_Origin a = origin ∧ fd_RuleID (af_Original a) = ruleID ∧ fd_Disposition (af_Original a) = gs_disposition sp
  ∧ af_EffectiveDisposition a = gs_disposition sp ∧ af_AppliedWaiver a = None ∧ af_GovernanceReference a = Some (gs_ref sp).

Lemma addGovernance_loop limits ruleID origin out specs out' :
  rm_ID (governanceRuleByID ruleID) = ruleID →
  foldR (addGovernance limits ruleID origin) out specs = Ok out' →
  ∃ new, out' = out ++ new ∧ Forall2 (governs ruleID origin) specs new.
Proof.
  intros Hid. revert out. induction specs as [|sp specs IH]; cbn; intros out H.
  { apply Ok_inj in H as <-. exists []. rewrite app_nil_r. split; [done|constructor]. }
  destruct (addGovernance limits ruleID origin out sp) as [o1|] eqn:E; [|done].
  destruct (IH _ H) as (new & -> & Hnew). unfold addGovernance, makeGovernanceFinding in E. rewrite Hid in E.
  apply bind_Ok in E as (f & Hf & E). apply reject_bind_Ok in Hf as [_ Hf]. apply Ok_inj in Hf as <-.
  apply reject_bind_Ok in E as [_ E]. apply Ok_inj in E as <-.
  eexists (_ :: new). rewrite <- app_assoc. split; [done|]. constructor; [|done]. done.
Qed.

Lemma governanceFindings_specs limits trusted waivers statuses gov :
  governanceFindings limits trusted waivers statuses = Ok gov →
  ∃ g1 g2, gov = g1 ++ g2
    ∧ Forall2 (governs "GR-CONFIG-001" FindingOriginTrustedConfiguration) (configSpec <$> configGovernanceSpecs trusted) g1
    ∧ Forall2 (governs "GR-WAIVER-001" FindingOriginWaiverGovernance) (waiverGovernanceSpecs waivers statuses) g2.
Proof.
  unfold governanceFindings. intros H. apply bind_Ok in H as (o & H1 & H2).
  apply addGovernance_loop in H1 as (g1 & -> & Hg1); [|done]. apply addGovernance_loop in H2 as (g2 & -> & Hg2); [|done].
  by exists g1, g2.
Qed.

(** The specs name exactly the events. *)
Lemma configSpecs_events trusted waivers findings at_ d ref :
  (∃ sp, sp ∈ configSpec <$> configGovernanceSpecs trusted ∧ gs_disposition sp = d ∧ gs_ref sp = ref)
  ↔ event trusted waivers findings at_ "GR-CONFIG-001" d ref.
Proof.
  unfold configGovernanceSpecs. set (st := Config.ha_State _). split.
  - intros (sp & (sp0 & -> & Hsp)%list_elem_of_fmap & <- & <-). cbn.
    destruct (bool_decide (st ∈ _)) eqn:E1; go_bool; [by apply not_elem_of_nil in Hsp|].
    destruct (st == _) eqn:E2; go_bool.
    + apply list_elem_of_fmap in Hsp as (ch & -> & Hch). by apply config_change.
    + apply list_elem_of_singleton in Hsp as ->. apply config_state. fold st. set_solver.
  - inversion 1 as [ch Hst Hch| Hst | | | | ]; subst; fold st in Hst.
    + rewrite Hst. rewrite (bool_decide_false (_ ∈ _)) by (by apply (bool_decide_unpack _)).
      rewrite (bool_decide_true (_ = _)) by done. eexists.
      split; [apply list_elem_of_fmap; eexists; split; [done|]; apply list_elem_of_fmap; by eexists|done].
    + rewrite bool_decide_false by set_solver. rewrite (bool_decide_false (st = _)) by set_solver.
      eexists. split; [by left|done].
Qed.

Lemma id_determines findings f g : NoDup (fd_ID <$> findings) → f ∈ findings → g ∈ findings → fd_ID f = fd_ID g → f = g.
Proof.
  intros Hnd [i Hi]%list_elem_of_lookup [j Hj]%list_elem_of_lookup E.
  assert (i = j) as ->; [|congruence].
  eapply (NoDup_lookup (fd_ID <$> findings)); [done|..]; rewrite list_lookup_fmap; [by rewrite Hi|by rewrite Hj; cbn; rewrite E].
Qed.

(** A waiver has one status. *)
Lemma outcome_fun findings at_ w st st' :
  NoDup (fd_ID <$> findings) → outcome findings at_ w st → outcome findings at_ w st' → st = st'.
Proof.
  intros Hnd. pose proof (λ f g, id_determines findings f g Hnd) as Hu.
  unfold waives, targets, in_force in *.
  destruct 1 as [?|??|?|f ??|f ?? [??]|f ? (? & [??] & ?)], 1 as [?|??|?|g ??|g ?? [??]|g ? (? & [??] & ?)];
    unfold in_force in *; try done; try lia; exfalso;
    try match goal with H : ∀ f, f ∈ findings → _ <> _ |- _ => by eapply H end;
    assert (f = g) as -> by (apply Hu; congruence); tauto.
Qed.

Lemma waiverSpecs_events trusted waivers findings at_ statuses d ref :
  NoDup (fd_ID <$> findings) →
  Forall2 (status_of findings at_)
    (if bool_decide (ba_State (tl_Base waivers) = BaseStateValid) then ba_Waivers (tl_Base waivers) else []) statuses →
  (∃ sp, sp ∈ waiverGovernanceSpecs waivers statuses ∧ gs_disposition sp = d ∧ gs_ref sp = ref)
  ↔ event trusted waivers findings at_ "GR-WAIVER-001" d ref.
Proof.
  intros Hnd Hst. unfold waiverGovernanceSpecs. set (ws := if bool_decide _ then _ else _) in Hst.
  setoid_rewrite elem_of_app. setoid_rewrite elem_of_app. split.
  - intros (sp & [Hsp|[Hsp|Hsp]] & <- & <-).
    + destruct (bool_decide (ba_State _ ∈ _)) eqn:E; go_bool; [|by apply not_elem_of_nil in Hsp].
      apply list_elem_of_singleton in Hsp as ->. by apply waiver_base.
    + apply list_elem_of_bind in Hsp as (st & Hsp & Hin). unfold waiverStatusSpec in Hsp.
      destruct (bool_decide (wsr_Status st ∈ _)) eqn:E; go_bool; [|by apply not_elem_of_nil in Hsp].
      apply list_elem_of_singleton in Hsp as ->. cbn.
      apply list_elem_of_lookup in Hin as [i Hi]. destruct (Forall2_lookup_r _ _ _ _ _ Hst Hi) as (w & Hw & Hid & _ & _ & Ho).
      rewrite Hid. apply list_elem_of_lookup_2 in Hw. unfold ws in Hw. case_bool_decide as Hv; [|by apply not_elem_of_nil in Hw].
      apply waiver_status; [done..|]. intros Ea. rewrite Ea in E. revert E. by apply (bool_decide_unpack _).
    + unfold waiverHeadSpecs in Hsp. destruct (bool_decide (ha_State _ ∈ _)) eqn:E1; go_bool.
      { apply list_elem_of_singleton in Hsp as ->. by apply waiver_head_state. }
      destruct (ha_State _ == _) eqn:E2; go_bool; [|by apply not_elem_of_nil in Hsp].
      apply list_elem_of_fmap in Hsp as (ch & -> & Hch). by apply waiver_head_change.
  - inversion 1 as [| |Hb|w st Hv Hw Ho Hna|Hh|ch Hh Hch]; subst.
    + eexists. split; [left; rewrite bool_decide_true by done; by left|done].
    + unfold ws in Hst. rewrite bool_decide_true in Hst by done.
      apply list_elem_of_lookup in Hw as [i Hi]. destruct (Forall2_lookup_l _ _ _ _ _ Hst Hi) as (r & Hr & Hid & _ & _ & Ho').
      rewrite (outcome_fun _ _ _ _ _ Hnd Ho Ho') in *. rewrite <- Hid.
      eexists. split; [right; left; apply list_elem_of_bind; exists r; split; [|by eapply list_elem_of_lookup_2]|].
      { unfold waiverStatusSpec. rewrite bool_decide_true; [by left|].
        destruct Ho'; try done; by apply (bool_decide_unpack _). }
      done.
    + eexists. split; [right; right; unfold waiverHeadSpecs; rewrite bool_decide_true by done; by left|done].
    + eexists. split; [right; right; unfold waiverHeadSpecs; rewrite Hh|].
      { rewrite bool_decide_false by (by apply (bool_decide_unpack _)). rewrite bool_decide_true by done.
        apply list_elem_of_fmap. by exists ch. }
      done.
Qed.

(** ** The theorems *)

(** The waivers with authority: those of a well-formed waiver file of the base revision. *)
Definition authority (yaml_load : YamlLoad) (limits : ApplicationLimits) (req : ApplicationRequest) : list Waiver :=
  let l := applicationWaiverLimits limits in
  match ar_WaiverSource req with
  | None => []
  | Some ReadFile =>
    match content_of yaml_load l (ReadFile (Config.tl_Base (ar_TrustedConfig req)) WaiverPath (l_MaxWaiverFileBytes l)) with
    | Some (WellFormed _ set) => ws_Waivers set
    | _ => []
    end
  end.

(** The waiver recorded on a finding: its own fields and the digests of the base file. *)
Definition records_waiver (doc : ApplicationDocument) (w : Waiver) (a : AppliedFinding) : Prop :=
  af_AppliedWaiver a = Some (mkAppliedWaiver (w_ID w) (t_FindingID (w_Target w)) (t_RuleID (w_Target w)) (w_Owner w)
    (w_Reason w) (w_IssuedAt w) (w_ExpiresAt w) (wa_BaseRawDigest (ad_TrustedWaiverAuthority doc))
    (wa_BaseSemanticDigest (ad_TrustedWaiverAuthority doc))).

(** How a built-in finding is treated under the given waivers. *)
Inductive treated (doc : ApplicationDocument) (ws : list Waiver) (a : AppliedFinding) : Prop :=
| treated_waived w :
    w ∈ ws → waives (ad_EvaluatedAt doc) w (af_Original a) →
    af_EffectiveDisposition a = DispositionWaived → records_waiver doc w a → treated doc ws a
| treated_kept :
    (∀ w, w ∈ ws → ¬ waives (ad_EvaluatedAt doc) w (af_Original a)) →
    af_EffectiveDisposition a = fd_Disposition (af_Original a) → af_AppliedWaiver a = None → treated doc ws a.

Section run.
Context {yaml_load : YamlLoad} {limits : ApplicationLimits} {ctx : Context} {req : ApplicationRequest}
  {doc : ApplicationDocument} {eval : EvaluationDocument} {waivers : TrustedLoadResult}
  {applied : list AppliedFinding} {statuses : list WaiverStatusRecord} {gov : list AppliedFinding}
  (R : applied_run yaml_load limits ctx req doc eval waivers applied statuses gov).

Lemma run_authority :
  (if bool_decide (ba_State (tl_Base waivers) = BaseStateValid) then ba_Waivers (tl_Base waivers) else [])
  = authority yaml_load limits req.
Proof.
  destruct (run_waivers _ _ _ _ _ _ _ _ _ _ R) as (ReadFile & Hs & Has). unfold authority. rewrite Hs.
  unfold assessment in Has. apply bind_Some in Has as (cb & -> & Has). apply bind_Some in Has as (ch & _ & [= <-]).
  by destruct cb.
Qed.

Lemma run_forall2 :
  Forall2 (applied_by (tl_Base waivers) (ad_EvaluatedAt doc) (authority yaml_load limits req)) (ed_Findings eval) applied
  ∧ Forall2 (status_of (ed_Findings eval) (ad_EvaluatedAt doc)) (authority yaml_load limits req) statuses.
Proof. rewrite <- run_authority. apply applyBaseWaivers_spec; [apply R|apply (run_applied _ _ _ _ _ _ _ _ _ _ R)]. Qed.

Lemma run_elem a : a ∈ ad_AppliedFindings doc ↔ a ∈ applied ∨ a ∈ gov.
Proof. rewrite (run_findings _ _ _ _ _ _ _ _ _ _ R). unfold sortAppliedFindings. by rewrite stable_sort_Permutation, elem_of_app. Qed.

Lemma run_gov a : a ∈ gov ↔ a ∈ ad_AppliedFindings doc ∧ ¬ isBuiltin a.
Proof.
  destruct run_forall2 as [Happ _].
  destruct (governanceFindings_specs _ _ _ _ _ (run_governance _ _ _ _ _ _ _ _ _ _ R)) as (g1 & g2 & Hg & H1 & H2).
  rewrite run_elem. assert (a ∈ gov ↔ a ∈ g1 ∨ a ∈ g2) as Hgov by by rewrite Hg, elem_of_app.
  split.
  - intros H. split; [by right|]. unfold isBuiltin. apply Hgov in H.
    destruct H as [H|H]; apply list_elem_of_lookup in H as [i Hi];
      [destruct (Forall2_lookup_r _ _ _ _ _ H1 Hi) as (? & _ & -> & _)|destruct (Forall2_lookup_r _ _ _ _ _ H2 Hi) as (? & _ & -> & _)];
      by apply (bool_decide_unpack _).
  - intros [[H|H] Hn]; [|done]. apply list_elem_of_lookup in H as [i Hi].
    destruct (Forall2_lookup_r _ _ _ _ _ Happ Hi) as (f & _ & Ha). destruct Hn.
    by destruct Ha as [(w & _ & _ & ->)|[_ ->]].
Qed.

Lemma run_builtin : filter isBuiltin (ad_AppliedFindings doc) ≡ₚ applied.
Proof.
  rewrite (run_findings _ _ _ _ _ _ _ _ _ _ R). unfold sortAppliedFindings.
  rewrite stable_sort_Permutation, filter_app.
  rewrite (filter_none _ gov) by (intros a Ha; by apply run_gov in Ha as [_ ?]).
  rewrite app_nil_r, filter_all; [done|]. intros a Ha. destruct run_forall2 as [Happ _].
  apply list_elem_of_lookup in Ha as [i Hi]. destruct (Forall2_lookup_r _ _ _ _ _ Happ Hi) as (f & _ & Hfa).
  by destruct Hfa as [(w & _ & _ & ->)|[_ ->]].
Qed.
Lemma run_originals : af_Original <$> filter isBuiltin (ad_AppliedFindings doc) ≡ₚ ed_Findings eval.
Proof.
  rewrite run_builtin. destruct run_forall2 as [Happ _]. clear -Happ.
  induction Happ as [|f a fs l Hfa _ IH]; cbn; [done|]. rewrite (applied_by_original _ _ _ _ _ Hfa). by f_equiv.
Qed.

Lemma run_treated a : a ∈ ad_AppliedFindings doc → isBuiltin a →
  af_Original a ∈ ed_Findings eval ∧ treated doc (authority yaml_load limits req) a.
Proof.
  intros Ha Hbu. assert (a ∈ filter isBuiltin (ad_AppliedFindings doc)) as Hin by by apply list_elem_of_filter.
  rewrite run_builtin in Hin. apply list_elem_of_lookup in Hin as [i Hi]. destruct run_forall2 as [Happ _].
  destruct (Forall2_lookup_r _ _ _ _ _ Happ Hi) as (f & Hf & Hfa).
  rewrite (applied_by_original _ _ _ _ _ Hfa). split; [by eapply list_elem_of_lookup_2|].
  destruct Hfa as [(w & Hw & Hwv & ->)|[Hn ->]].
  - apply (treated_waived _ _ _ w); try done. unfold records_waiver.
    by rewrite (run_authorities _ _ _ _ _ _ _ _ _ _ R).
  - by apply treated_kept.
Qed.

Lemma run_original_treated f : f ∈ ed_Findings eval → ∃ a, a ∈ ad_AppliedFindings doc ∧ isBuiltin a ∧ af_Original a = f.
Proof.
  rewrite <- run_originals. intros (a & -> & Ha)%list_elem_of_fmap. apply list_elem_of_filter in Ha as [? ?]. by exists a.
Qed.

Lemma run_events rule d ref :
  event (ar_TrustedConfig req) waivers (ed_Findings eval) (ad_EvaluatedAt doc) rule d ref
  ↔ ∃ a, a ∈ gov ∧ fd_RuleID (af_Original a) = rule ∧ af_EffectiveDisposition a = d ∧ af_GovernanceReference a = Some ref.
Proof.
  destruct (governanceFindings_specs _ _ _ _ _ (run_governance _ _ _ _ _ _ _ _ _ _ R)) as (g1 & g2 & Hg & H1 & H2).
  destruct run_forall2 as [_ Hst]. rewrite <- run_authority in Hst.
  pose proof (configSpecs_events (ar_TrustedConfig req) waivers (ed_Findings eval) (ad_EvaluatedAt doc) d ref) as Hc.
  pose proof (waiverSpecs_events (ar_TrustedConfig req) _ _ _ _ d ref (run_ids _ _ _ _ _ _ _ _ _ _ R) Hst) as Hw.
  rewrite Hg. setoid_rewrite elem_of_app. split.
  - intros He. assert (rule = "GR-CONFIG-001"%string ∨ rule = "GR-WAIVER-001"%string) as [-> | ->] by (destruct He; auto).
    + apply Hc in He as (sp & Hsp & <- & <-). apply list_elem_of_lookup in Hsp as [i Hi].
      destruct (Forall2_lookup_l _ _ _ _ _ H1 Hi) as (a & Ha & (_ & ? & _ & ? & _ & ?)).
      exists a. split; [left; by eapply list_elem_of_lookup_2|done].
    + apply Hw in He as (sp & Hsp & <- & <-). apply list_elem_of_lookup in Hsp as [i Hi].
      destruct (Forall2_lookup_l _ _ _ _ _ H2 Hi) as (a & Ha & (_ & ? & _ & ? & _ & ?)).
      exists a. split; [right; by eapply list_elem_of_lookup_2|done].
  - intros (a & [Ha|Ha] & <- & Hd & Hr); apply list_elem_of_lookup in Ha as [i Hi].
    + destruct (Forall2_lookup_r _ _ _ _ _ H1 Hi) as (sp & Hsp & (_ & -> & _ & ? & _ & ?)).
      apply Hc. exists sp. split; [by eapply list_elem_of_lookup_2|]. split; congruence.
    + destruct (Forall2_lookup_r _ _ _ _ _ H2 Hi) as (sp & Hsp & (_ & -> & _ & ? & _ & ?)).
      apply Hw. exists sp. split; [by eapply list_elem_of_lookup_2|]. split; congruence.
Qed.

Lemma run_gov_event a : a ∈ gov → ∃ ref, af_GovernanceReference a = Some ref ∧
  event (ar_TrustedConfig req) waivers (ed_Findings eval) (ad_EvaluatedAt doc) (fd_RuleID (af_Original a)) (af_EffectiveDisposition a) ref.
Proof.
  intros Ha. assert (is_Some (af_GovernanceReference a)) as [ref Href].
  { destruct (governanceFindings_specs _ _ _ _ _ (run_governance _ _ _ _ _ _ _ _ _ _ R)) as (g1 & g2 & Hg & H1 & H2).
    rewrite Hg, elem_of_app in Ha. destruct Ha as [Ha|Ha]; apply list_elem_of_lookup in Ha as [i Hi];
      [destruct (Forall2_lookup_r _ _ _ _ _ H1 Hi) as (? & _ & (_ & _ & _ & _ & _ & ->))
      |destruct (Forall2_lookup_r _ _ _ _ _ H2 Hi) as (? & _ & (_ & _ & _ & _ & _ & ->))]; by eexists. }
  exists ref. split; [done|]. apply run_events. by exists a.
Qed.
End run.

Lemma event_disposition trusted waivers findings at_ rule d ref :
  event trusted waivers findings at_ rule d ref → d = DispositionRequiresReview ∨ d = DispositionFailed.
Proof. destruct 1; auto. Qed.

(** C8: waivers change what they may and nothing else.  The built-in findings of
    an application are the findings of the evaluation, unchanged; each is waived,
    and records the waiver, exactly when a waiver of a well-formed waiver file of
    the base revision is in force, names it and its rule, and it asks for review
    under a waivable rule; every other built-in finding keeps its disposition.
    No governance finding and no failed finding is ever waived. *)
Theorem waivers_exact yaml_load limits ctx req fa fe :
  Apply yaml_load limits ctx req = Ok fa → ar_Evaluation req = Some fe →
  let doc := fa_doc fa in
  af_Original <$> filter isBuiltin (ad_AppliedFindings doc) ≡ₚ ed_Findings (fe_doc fe) ∧
  (∀ a, a ∈ ad_AppliedFindings doc → isBuiltin a → treated doc (authority yaml_load limits req) a) ∧
  (∀ a, a ∈ ad_AppliedFindings doc → af_EffectiveDisposition a = DispositionWaived →
     isBuiltin a ∧ waivable (af_Original a)).
Proof.
  intros H He. apply Apply_Ok in H as (eval & waivers & applied & statuses & gov & R). cbv zeta.
  destruct (run_evaluation _ _ _ _ _ _ _ _ _ _ R) as (fe' & He' & Hev).
  assert (fe' = fe) as -> by congruence. rewrite Hev. split_and!; [apply (run_originals R)|intros; by apply (run_treated R)|].
  intros a Ha Hd. destruct (decide (isBuiltin a)) as [Hbu|Hbu].
  - split; [done|]. destruct (run_treated R a Ha Hbu) as [Ho [w _ (_ & _ & ?) _ _|_ E _]]; [done|].
    apply (run_original _ _ _ _ _ _ _ _ _ _ R) in Ho as [Ho _]. congruence.
  - assert (a ∈ gov) as Hg by by apply (run_gov R). destruct (run_gov_event R a Hg) as (ref & _ & Hev').
    apply event_disposition in Hev'. rewrite Hd in Hev'. by destruct Hev'.
Qed.

(** Every waiver of the base is accounted for: an application has one status
    per waiver with authority, which says how the waiver stands: not yet valid,
    expired (from the very instant of its expiry), without its finding, aimed at
    another rule, aimed at a finding that may not be waived, or applied. *)
Theorem waiver_statuses_exact yaml_load limits ctx req fa fe :
  Apply yaml_load limits ctx req = Ok fa → ar_Evaluation req = Some fe →
  ∃ statuses, ad_WaiverStatuses (fa_doc fa) ≡ₚ statuses ∧
    Forall2 (status_of (ed_Findings (fe_doc fe)) (gt_instant (ar_EvaluatedAt req)))
      (authority yaml_load limits req) statuses.
Proof.
  intros H He. apply Apply_Ok in H as (eval & waivers & applied & statuses & gov & R).
  destruct (run_evaluation _ _ _ _ _ _ _ _ _ _ R) as (fe' & He' & Hev). assert (fe' = fe) as -> by congruence.
  exists statuses. rewrite (run_statuses _ _ _ _ _ _ _ _ _ _ R), <- (run_time _ _ _ _ _ _ _ _ _ _ R), Hev.
  split; [apply stable_sort_Permutation|apply (run_forall2 R)].
Qed.

(** C5: a head has no say in what is waived.  Two applications of one evaluation
    at one time under the same base, whose sources agree on the waiver file of
    the base, treat the built-in findings alike and report the same statuses,
    whatever the two head revisions hold. *)
Theorem head_cannot_waive yaml_load limits ctx ctx' req req' fa fa' ReadFile ReadFile' :
  Apply yaml_load limits ctx req = Ok fa → Apply yaml_load limits ctx' req' = Ok fa' →
  ar_Evaluation req = ar_Evaluation req' → ar_EvaluatedAt req = ar_EvaluatedAt req' →
  ar_WaiverSource req = Some ReadFile → ar_WaiverSource req' = Some ReadFile' →
  Config.tl_Base (ar_TrustedConfig req) = Config.tl_Base (ar_TrustedConfig req') →
  (∀ max, ReadFile (Config.tl_Base (ar_TrustedConfig req)) WaiverPath max
          = ReadFile' (Config.tl_Base (ar_TrustedConfig req)) WaiverPath max) →
  filter isBuiltin (ad_AppliedFindings (fa_doc fa)) ≡ₚ filter isBuiltin (ad_AppliedFindings (fa_doc fa'))
  ∧ ad_WaiverStatuses (fa_doc fa) = ad_WaiverStatuses (fa_doc fa').
Proof.
  intros H H' Hev Hat Hs Hs' Hbase Hread.
  apply Apply_Ok in H as (eval & waivers & applied & statuses & gov & R).
  apply Apply_Ok in H' as (eval' & waivers' & applied' & statuses' & gov' & R').
  destruct (run_evaluation _ _ _ _ _ _ _ _ _ _ R) as (fe & He & <-).
  destruct (run_evaluation _ _ _ _ _ _ _ _ _ _ R') as (fe' & He' & <-). assert (fe' = fe) as -> by congruence.
  destruct (run_waivers _ _ _ _ _ _ _ _ _ _ R) as (RF & E & Has). assert (RF = ReadFile) as -> by congruence.
  destruct (run_waivers _ _ _ _ _ _ _ _ _ _ R') as (RF' & E' & Has'). assert (RF' = ReadFile') as -> by congruence.
  assert (tl_Base waivers = tl_Base waivers') as Hb.
  { unfold assessment in Has, Has'. rewrite <- Hbase, <- Hread in Has'.
    apply bind_Some in Has as (cb & Hcb & Has). apply bind_Some in Has as (ch & _ & [= <-]).
    apply bind_Some in Has' as (cb' & Hcb' & Has'). apply bind_Some in Has' as (ch' & _ & [= <-]). cbn. congruence. }
  pose proof (run_applied _ _ _ _ _ _ _ _ _ _ R) as Ha. pose proof (run_applied _ _ _ _ _ _ _ _ _ _ R') as Ha'.
  rewrite (run_time _ _ _ _ _ _ _ _ _ _ R) in Ha.
  rewrite (run_time _ _ _ _ _ _ _ _ _ _ R'), <- Hat, <- Hb, Ha in Ha'. injection Ha' as <- <-.
  rewrite (run_builtin R), (run_builtin R'). split; [done|].
  by rewrite (run_statuses _ _ _ _ _ _ _ _ _ _ R), (run_statuses _ _ _ _ _ _ _ _ _ _ R').
Qed.

(** C34: every governance event is a finding, and nothing else is.  The findings
    of an application that are not built-in are exactly those the events call
    for: a change the head makes to the security configuration or to the
    waivers, a waiver that does not apply, and an untrustworthy base waiver file
    (which fails the run); each asks for review or fails with the reference of
    its event. *)
Theorem governance_exact yaml_load limits ctx req fa fe ReadFile waivers :
  Apply yaml_load limits ctx req = Ok fa → ar_Evaluation req = Some fe → ar_WaiverSource req = Some ReadFile →
  assessment yaml_load (applicationWaiverLimits limits) ReadFile
    (Config.tl_Base (ar_TrustedConfig req)) (Config.tl_Head (ar_TrustedConfig req)) = Some waivers →
  ∀ rule d ref,
  event (ar_TrustedConfig req) waivers (ed_Findings (fe_doc fe)) (gt_instant (ar_EvaluatedAt req)) rule d ref ↔
  ∃ a, a ∈ ad_AppliedFindings (fa_doc fa) ∧ ¬ isBuiltin a ∧ fd_RuleID (af_Original a) = rule
    ∧ af_EffectiveDisposition a = d ∧ af_GovernanceReference a = Some ref.
Proof.
  intros H He Hs Has rule d ref. apply Apply_Ok in H as (eval & waivers' & applied & statuses & gov & R).
  destruct (run_evaluation _ _ _ _ _ _ _ _ _ _ R) as (fe' & He' & <-). assert (fe' = fe) as -> by congruence.
  destruct (run_waivers _ _ _ _ _ _ _ _ _ _ R) as (RF & E & Has'). assert (RF = ReadFile) as -> by congruence.
  assert (waivers' = waivers) as -> by congruence.
  rewrite <- (run_time _ _ _ _ _ _ _ _ _ _ R), (run_events R). setoid_rewrite (run_gov R). naive_solver.
Qed.

Lemma overall_cases findings : let d := overallEffectiveDisposition findings in
  (d = DispositionFailed ↔ ∃ a, a ∈ findings ∧ af_EffectiveDisposition a = DispositionFailed) ∧
  (d = DispositionPassed ↔ ∀ a, a ∈ findings →
     af_EffectiveDisposition a <> DispositionFailed ∧ af_EffectiveDisposition a <> DispositionRequiresReview).
Proof.
  assert (∀ x, existsb (λ a, af_EffectiveDisposition a == x) findings = true
               ↔ ∃ a, a ∈ findings ∧ af_EffectiveDisposition a = x) as Hex.
  { intros x. rewrite existsb_exists. by setoid_rewrite bool_decide_eq_true; setoid_rewrite <- list_elem_of_In. }
  cbv zeta. unfold overallEffectiveDisposition. pose proof (Hex DispositionFailed) as Hf. pose proof (Hex DispositionRequiresReview) as Hr.
  destruct (existsb _ findings) eqn:E1; [apply proj1 in Hf; specialize (Hf eq_refl)|].
  { split; [by split|]. split; [done|]. intros Hall. destruct Hf as (a & Ha & Hd). by destruct (Hall a Ha). }
  assert (∀ a, a ∈ findings → af_EffectiveDisposition a <> DispositionFailed) as Hnf.
  { intros a Ha Hd. assert (false = true) by (apply Hf; eauto). done. }
  destruct (existsb (λ a, af_EffectiveDisposition a == DispositionRequiresReview) findings) eqn:E2.
  - apply proj1 in Hr. destruct (Hr eq_refl) as (a & Ha & Hd).
    split; [split; [done|intros (b & Hb & E); by destruct (Hnf b Hb)]|]. split; [done|]. intros Hall. by destruct (Hall a Ha).
  - split; [split; [done|intros (b & Hb & E); by destruct (Hnf b Hb)]|]. split; [|done]. intros _ a Ha.
    split; [by apply Hnf|]. intros Hd. assert (false = true) by (apply Hr; eauto). done.
Qed.

(** C2: the overall disposition is the strongest effective one, and waivers
    cannot soften a failure.  An application fails exactly when a finding of the
    evaluation failed or the base waiver file cannot be trusted; it passes exactly
    when no finding of the evaluation failed, each that asks for review is waived
    with authority, and no governance event occurred. *)
Theorem overall_exact yaml_load limits ctx req fa fe ReadFile waivers :
  Apply yaml_load limits ctx req = Ok fa → ar_Evaluation req = Some fe → ar_WaiverSource req = Some ReadFile →
  assessment yaml_load (applicationWaiverLimits limits) ReadFile
    (Config.tl_Base (ar_TrustedConfig req)) (Config.tl_Head (ar_TrustedConfig req)) = Some waivers →
  let findings := ed_Findings (fe_doc fe) in
  let at_ := gt_instant (ar_EvaluatedAt req) in
  let d := ad_OverallEffectiveDisposition (fa_doc fa) in
  (d = DispositionFailed ↔
     (∃ f, f ∈ findings ∧ fd_Disposition f = DispositionFailed)
     ∨ ba_State (tl_Base waivers) ∈ [BaseStateInvalid; BaseStateUnsupportedEntryKind]) ∧
  (d = DispositionPassed ↔
     (∀ f, f ∈ findings → fd_Disposition f <> DispositionFailed ∧
        (fd_Disposition f = DispositionRequiresReview → ∃ w, w ∈ authority yaml_load limits req ∧ waives at_ w f))
     ∧ (∀ rule d ref, ¬ event (ar_TrustedConfig req) waivers findings at_ rule d ref)).
Proof.
  intros H He Hs Has. apply Apply_Ok in H as (eval & waivers' & applied & statuses & gov & R).
  destruct (run_evaluation _ _ _ _ _ _ _ _ _ _ R) as (fe' & He' & <-). assert (fe' = fe) as -> by congruence.
  destruct (run_waivers _ _ _ _ _ _ _ _ _ _ R) as (RF & E & Has'). assert (RF = ReadFile) as -> by congruence.
  assert (waivers' = waivers) as -> by congruence. cbv zeta.
  rewrite (run_overall _ _ _ _ _ _ _ _ _ _ R), <- (run_time _ _ _ _ _ _ _ _ _ _ R).
  destruct (overall_cases (ad_AppliedFindings (fa_doc fa))) as [-> ->].
  pose proof (run_original_treated R) as Hf.
  pose proof (λ a, run_treated R a) as Ht.
  split; split.
  - intros (a & Ha & Hd). destruct (decide (isBuiltin a)) as [Hbu|Hbu].
    + left. destruct (Ht a Ha Hbu) as [Ho [w _ _ Hw _|_ Ed _]]; [by rewrite Hd in Hw|]. exists (af_Original a). split; [done|congruence].
    + right. destruct (run_gov_event R a) as (ref & _ & Hev); [by apply (run_gov R)|]. rewrite Hd in Hev. by inversion Hev.
  - intros [(f & Hin & Hd)|Hb].
    + destruct (Hf f Hin) as (a & Ha & Hbu & Ho). exists a. split; [done|].
      destruct (Ht a Ha Hbu) as [_ [w _ (_ & _ & [Hr _]) _ _|_ Ed _]]; [|congruence]. rewrite Ho, Hd in Hr. done.
    + destruct (proj1 (run_events R _ _ _) (waiver_base (ar_TrustedConfig req) waivers (ed_Findings (fe_doc fe)) (ad_EvaluatedAt (fa_doc fa)) Hb))
        as (a & Ha & _ & Hd & _). exists a. split; [by apply (run_gov R)|done].
  - intros Hall. split.
    + intros f Hin. destruct (Hf f Hin) as (a & Ha & Hbu & <-). destruct (Hall a Ha) as [Hnf Hnr].
      destruct (Ht a Ha Hbu) as [_ [w Hw Hwv Hd _|_ Ed _]].
      * split; [|by exists w]. destruct Hwv as (_ & _ & [-> _]). done.
      * rewrite Ed in Hnf, Hnr. split; [done|]. tauto.
    + intros rule d ref Hev. pose proof (event_disposition _ _ _ _ _ _ _ Hev) as Hd.
      apply (run_events R) in Hev as (a & Ha & _ & <- & _). destruct (Hall a) as [? ?]; [by apply (run_gov R)|tauto].
  - intros [Hfs Hne] a Ha. destruct (decide (isBuiltin a)) as [Hbu|Hbu].
    + destruct (Ht a Ha Hbu) as [Ho [w Hw Hwv Hd _|Hn Ed _]]; [rewrite Hd; by split|].
      destruct (Hfs _ Ho) as [? Hr]. rewrite Ed. split; [done|]. intros Hd. destruct (Hr Hd) as (w & ? & ?). by eapply Hn.
    + destruct (run_gov_event R a) as (ref & _ & Hev); [by apply (run_gov R)|]. by apply Hne in Hev.
Qed.
