(* ===== verification/TrustedSpec.v ===== *)
(** * What the trusted load decides, and what a passing run ran under

    The load as a relation: the base's file is the pipeline, the head's file is
    only classified, by what it means, and recorded.  Composed with the application of policy:
    a run that passes ran under exactly the pipeline its head proposes. *)

From stdpp Require Import prelude gmap strings sorting.
From Stdlib Require Import ZArith Lia Ascii.
From S2P Require Import Prelude GoStd Sha256 GoTime Model Json GoText Yaml Compare Config Plan ConfigParse ConfigValidate ConfigTrusted ConfigSpec ConfigDiff Policy Application ApplicationSpec.
Local Open Scope Z_scope.

(** A regular file within the byte limit. *)
Definition readable (f : RevisionFile) : Prop :=
  rfl_Kind f = EntryKindRegularFile ∧ Z.of_nat (length (fileData f)) <= MaxPipelineBytes.

(** A file that says a pipeline. *)
Definition says (yaml_load : YamlLoad) (f : RevisionFile) (p : ValidatedPipeline) : Prop :=
  readable f ∧ ParseAndValidate yaml_load (fileData f) = Ok p.

(** How the head's read stands to a base file [b] that says [p]; a read that
    fails otherwise has no assessment. *)
Inductive assessed (yaml_load : YamlLoad) (b : RevisionFile) (p : ValidatedPipeline) :
    result ReadError RevisionFile → HeadAssessmentState → list ConfigChange → Prop :=
| head_removed : assessed yaml_load b p (Err ErrNotExist) HeadStateRemoved []
| head_too_large : assessed yaml_load b p (Err ErrRevisionFileTooLarge) HeadStateModifiedInvalid []
| head_other_kind f :
    rfl_Kind f <> EntryKindRegularFile → assessed yaml_load b p (Ok f) HeadStateUnsupportedEntryKind []
| head_unchanged f : readable f → fileData f = fileData b → assessed yaml_load b p (Ok f) HeadStateUnchanged []
| head_invalid f :
    rfl_Kind f = EntryKindRegularFile → (∀ q, ¬ says yaml_load f q) →
    assessed yaml_load b p (Ok f) HeadStateModifiedInvalid []
| head_equivalent f :
    fileData f <> fileData b → says yaml_load f p →
    assessed yaml_load b p (Ok f) HeadStateContentChangedSemanticallyEquivalent []
| head_modified f q :
    says yaml_load f q → q <> p → assessed yaml_load b p (Ok f) HeadStateModifiedValid (ComparePipelines p q).

Section load.
Context (yaml_load : YamlLoad) (b : RevisionFile) (p : ValidatedPipeline) (Hb : says yaml_load b p).

Lemma says_wf f q : says yaml_load f q → wf_pipeline q.
Proof. intros [_ H]. by eapply ParseAndValidate_wf. Qed.

Lemma says_fun f q q' : says yaml_load f q → says yaml_load f q' → q = q'.
Proof. intros [_ H] [_ H']. congruence. Qed.

Lemma same_bytes_says f : readable f → fileData f = fileData b → says yaml_load f p.
Proof. intros Hf E. split; [done|]. rewrite E. apply Hb. Qed.

Lemma unsaid f q : (∀ q, ¬ says yaml_load f q) → says yaml_load f q → False.
Proof. intros H Hq. by apply (H q). Qed.

(** At most one classification applies. *)
Lemma assessed_fun r st cs st' cs' : assessed yaml_load b p r st cs → assessed yaml_load b p r st' cs' → st = st' ∧ cs = cs'.
Proof.
  intros H H'. destruct H as [| |f Hk|f Hr E|f Hk Hn|f E Hs|f q Hs Hq]; inversion H'; subst; try done;
    repeat match goal with
    | Hr : readable ?f, E : fileData ?f = fileData b |- _ =>
      pose proof (same_bytes_says f Hr E); clear Hr
    end;
    try (exfalso; eapply unsaid; eassumption); try (by match goal with H : says _ _ _ |- _ => destruct H as [[]] end);
    repeat match goal with
    | Hs : says _ ?f ?q, Hs' : says _ ?f ?q' |- _ => pose proof (says_fun f q q' Hs Hs'); clear Hs'; subst
    end; try done; by match goal with H : _ <> _ |- _ => destruct H end.
Qed.

(** The classification the code computes is the relation. *)
Lemma assessHeadFile_assessed meta rev f :
  assessed yaml_load b p (Ok f) (ha_State (assessHeadFile yaml_load meta (fileData b) p rev f))
    (ha_Changes (assessHeadFile yaml_load meta (fileData b) p rev f)).
Proof.
  pose proof Hb as [[Hk Hl] Hp]. pose proof (says_wf b p Hb) as Hwf. unfold assessHeadFile.
  destruct (decide (rfl_Kind f = EntryKindRegularFile)) as [Ek|Ek].
  2:{ rewrite (bool_decide_false _ Ek). by apply head_other_kind. }
  rewrite (bool_decide_true _ Ek). cbn [negb].
  destruct (MaxPipelineBytes <? _) eqn:El; go_bool.
  { apply head_invalid; [done|]. intros q [[_ ?] _]. lia. }
  destruct (decide (fileData b = fileData f)) as [Eb|Eb].
  { rewrite (bool_decide_true _ Eb). by apply head_unchanged. }
  rewrite (bool_decide_false _ Eb). destruct (ParseAndValidate yaml_load (fileData f)) as [q|ds] eqn:Eq.
  - assert (says yaml_load f q) as Hf by done. pose proof (pipelines_equal p q Hwf (says_wf f q Hf)) as Heq.
    destruct (ComparePipelines p q) as [|c cs'] eqn:Ec.
    + assert (p = q) as -> by (by apply Heq). by apply head_equivalent.
    + rewrite <- Ec. apply head_modified; [done|]. intros ->. discriminate (proj2 Heq eq_refl).
  - apply head_invalid; [done|]. intros q [_ ?]. congruence.
Qed.
End load.

(** What the result records of a file that was read at a revision. *)
Record described (revision : CommitRef) (f : RevisionFile) (m : ConfigFileMetadata) : Prop := {
  de_place : cfm_Revision m = revision ∧ cfm_Path m = PipelinePath;
  de_entry : cfm_Kind m = rfl_Kind f ∧ cfm_Executable m = rfl_Executable f ∧ cfm_ObjectID m = rfl_ObjectID f;
  de_content : match rfl_Data f with
               | Some d => cfm_Digest m = ("sha256:" +:+ sha256_hex d)%string ∧ cfm_SizeBytes m = Z.of_nat (length d)
               | None => cfm_Digest m = ""%string ∧ cfm_SizeBytes m = 0
               end
}.

(** The diagnostics of the head: those of a file that does not say a pipeline,
    and none otherwise. *)
Inductive diagnosed (yaml_load : YamlLoad) :
    result ReadError RevisionFile → HeadAssessmentState → Diagnostics → Prop :=
| diagnosed_unread :
    diagnosed yaml_load (Err ErrRevisionFileTooLarge) HeadStateModifiedInvalid
      (syntaxDiag "input-too-large" 0 0 "head pipeline exceeds byte limit")
| diagnosed_long f :
    MaxPipelineBytes < Z.of_nat (length (fileData f)) →
    diagnosed yaml_load (Ok f) HeadStateModifiedInvalid
      (syntaxDiag "input-too-large" 0 0 "head pipeline exceeds byte limit")
| diagnosed_rejected f ds :
    Z.of_nat (length (fileData f)) <= MaxPipelineBytes → ParseAndValidate yaml_load (fileData f) = Err ds →
    diagnosed yaml_load (Ok f) HeadStateModifiedInvalid (take MaxDiagnostics ds)
| diagnosed_none r st : st <> HeadStateModifiedInvalid → diagnosed yaml_load r st [].

(** The result of a trusted load of [base] and [head]: the pipeline and the
    source in effect are those of the base's file; of the head there is its file's
    description, its classification and its diagnostics. *)
Record trusted_result (yaml_load : YamlLoad) (ReadFile : RevisionFileSource) (base head : CommitRef)
    (r : TrustedLoadResult) : Prop := {
  tr_refs : tl_Base r = base ∧ tl_Head r = head;
  tr_source : tl_EffectiveSource r = mkEffectiveConfigSource EffectiveSourceBase PipelinePath (tl_BaseFile r)
              ∧ ha_BaseFile (tl_HeadAssessment r) = tl_BaseFile r;
  tr_base : ∃ b, ReadFile base PipelinePath MaxPipelineBytes = Ok b
              ∧ says yaml_load b (tl_EffectivePipeline r) ∧ described base b (tl_BaseFile r)
              ∧ assessed yaml_load b (tl_EffectivePipeline r) (ReadFile head PipelinePath MaxPipelineBytes)
                  (ha_State (tl_HeadAssessment r)) (ha_Changes (tl_HeadAssessment r));
  tr_head : match ReadFile head PipelinePath MaxPipelineBytes with
            | Ok f => described head f (ha_HeadFile (tl_HeadAssessment r))
            | Err _ => ha_HeadFile (tl_HeadAssessment r) = zeroConfigFile
            end;
  tr_diagnostics : diagnosed yaml_load (ReadFile head PipelinePath MaxPipelineBytes)
                     (ha_State (tl_HeadAssessment r)) (ha_Diagnostics (tl_HeadAssessment r))
}.

Lemma described_metadata revision f : described revision f (metadataForFile revision f).
Proof. split; [done..|]. cbn. by destruct (rfl_Data f). Qed.

Lemma described_fun revision f m m' : described revision f m → described revision f m' → m = m'.
Proof.
  intros [[] (? & ? & ?) Hc] [[] (? & ? & ?) Hc']. destruct m, m'. cbn in *.
  destruct (rfl_Data f); destruct Hc, Hc'; congruence.
Qed.

Lemma diagnosed_fun yaml_load r st ds ds' : diagnosed yaml_load r st ds → diagnosed yaml_load r st ds' → ds = ds'.
Proof. intros H H'. destruct H; inversion H'; subst; done || lia || congruence. Qed.

Lemma assessHeadFile_diagnosed yaml_load meta raw p rev f :
  diagnosed yaml_load (Ok f) (ha_State (assessHeadFile yaml_load meta raw p rev f))
    (ha_Diagnostics (assessHeadFile yaml_load meta raw p rev f)).
Proof.
  unfold assessHeadFile. destruct (_ != _); [by apply diagnosed_none|].
  destruct (MaxPipelineBytes <? _) eqn:El; go_bool; [by apply diagnosed_long|].
  case_bool_decide; [by apply diagnosed_none|]. destruct (ParseAndValidate _ _) as [q|ds] eqn:Eq.
  - destruct (ComparePipelines p q); by apply diagnosed_none.
  - by apply diagnosed_rejected.
Qed.

Lemma assessHeadFile_files yaml_load meta raw p rev f :
  ha_BaseFile (assessHeadFile yaml_load meta raw p rev f) = meta
  ∧ ha_HeadFile (assessHeadFile yaml_load meta raw p rev f) = metadataForFile rev f.
Proof.
  unfold assessHeadFile. repeat case_match; done.
Qed.

Lemma loadBase_Ok yaml_load ctx ReadFile base b p : loadBase yaml_load ctx ReadFile base = Ok (b, p) →
  ReadFile base PipelinePath MaxPipelineBytes = Ok b ∧ says yaml_load b p.
Proof.
  unfold loadBase. intros H. destruct (ReadFile base _ _) as [f|e]; [|done]. apply bind_Ok in H as (u1 & _ & H).
  destruct (bool_decide (rfl_Kind f = _)) eqn:Ek; [|done]. destruct (MaxPipelineBytes <? _) eqn:El; [done|].
  destruct (ParseAndValidate _ _) as [q|] eqn:Ep; [|done]. cbn in H. injection H as -> ->. by go_bool.
Qed.

Lemma LoadTrusted_result yaml_load ctx ReadFile base head r :
  LoadTrusted yaml_load ctx (Some ReadFile) base head = Ok r → trusted_result yaml_load ReadFile base head r.
Proof.
  unfold LoadTrusted. intros (u0 & _ & H)%bind_Ok. apply bind_Ok in H as ([b p] & [Hb Hs]%loadBase_Ok & H).
  apply bind_Ok in H as (a & Ha & H). apply Ok_inj in H as <-. cbn in Ha. unfold assessHead in Ha.
  apply bind_Ok in Ha as (u2 & _ & Ha).
  assert (∀ a', assessed yaml_load b p (ReadFile head PipelinePath MaxPipelineBytes) (ha_State a') (ha_Changes a') →
    ∃ b0, ReadFile base PipelinePath MaxPipelineBytes = Ok b0 ∧ says yaml_load b0 p
      ∧ described base b0 (metadataForFile base b)
      ∧ assessed yaml_load b0 p (ReadFile head PipelinePath MaxPipelineBytes) (ha_State a') (ha_Changes a')) as Hbase.
  { intros a' Ha'. exists b. split_and!; [done..|apply described_metadata|done]. }
  destruct (ReadFile head PipelinePath MaxPipelineBytes) as [f|[]] eqn:Ef; cbn in Ha; try done.
  - apply bind_Ok in Ha as (u3 & _ & Ha). apply Ok_inj in Ha as <-.
    destruct (assessHeadFile_files yaml_load (metadataForFile base b) (fileData b) p head f) as [E1 E2].
    split; cbn; rewrite ?Ef; [done|done| | |].
    + apply Hbase. by apply assessHeadFile_assessed.
    + rewrite E2. apply described_metadata.
    + apply assessHeadFile_diagnosed.
  - apply Ok_inj in Ha as <-. split; cbn; rewrite ?Ef; [done|done|apply (Hbase (mkHeadAssessment HeadStateRemoved zeroConfigFile zeroConfigFile [] [])); apply head_removed|done|by apply diagnosed_none].
  - apply Ok_inj in Ha as <-. split; cbn; rewrite ?Ef; [done|done|apply (Hbase (mkHeadAssessment HeadStateModifiedInvalid zeroConfigFile zeroConfigFile [] [])); apply head_too_large|done|apply diagnosed_unread].
Qed.

Lemma LoadTrusted_assessed yaml_load ctx ReadFile base head r :
  LoadTrusted yaml_load ctx (Some ReadFile) base head = Ok r →
  ∃ b, ReadFile base PipelinePath MaxPipelineBytes = Ok b ∧ says yaml_load b (tl_EffectivePipeline r)
     ∧ assessed yaml_load b (tl_EffectivePipeline r) (ReadFile head PipelinePath MaxPipelineBytes)
         (ha_State (tl_HeadAssessment r)) (ha_Changes (tl_HeadAssessment r)).
Proof. intros [_ _ (b & ? & ? & _ & ?) _ _]%LoadTrusted_result. by exists b. Qed.

(** A load that is not cancelled succeeds whenever some result is right. *)
Lemma LoadTrusted_succeeds yaml_load ReadFile base head r : trusted_result yaml_load ReadFile base head r →
  ∃ r', LoadTrusted yaml_load (λ _, None) (Some ReadFile) base head = Ok r'.
Proof.
  intros [_ _ (b & Hb & Hs & _ & Ha) _ _]. unfold LoadTrusted, loadBase, poll. cbn. rewrite Hb.
  pose proof Hs as [[Hk Hl] Hp]. rewrite (bool_decide_true _ Hk). cbn [negb].
  rewrite (proj2 (Z.ltb_ge _ _) Hl), Hp. cbn. unfold assessHead, poll. cbn.
  destruct (ReadFile head PipelinePath MaxPipelineBytes) as [f|e]; cbn; [by eexists|]. inversion Ha; subst; by eexists.
Qed.

Lemma trusted_result_fun yaml_load ReadFile base head r r' :
  trusted_result yaml_load ReadFile base head r → trusted_result yaml_load ReadFile base head r' → r = r'.
Proof.
  intros [[<- <-] [Hs Hf] (b & Hb & Hsay & Hd & Ha) Hh Hg] [[E1 E2] [Hs' Hf'] (b' & Hb' & Hsay' & Hd' & Ha') Hh' Hg'].
  rewrite Hb in Hb'. injection Hb' as <-. pose proof (says_fun _ _ _ _ Hsay Hsay') as Ep.
  pose proof (described_fun _ _ _ _ Hd Hd') as Em. rewrite <- Ep in Ha'.
  destruct (assessed_fun _ _ _ Hsay _ _ _ _ _ Ha Ha') as [Est Ecs]. rewrite <- Est in Hg'.
  pose proof (diagnosed_fun _ _ _ _ _ Hg Hg') as Eds.
  assert (ha_HeadFile (tl_HeadAssessment r) = ha_HeadFile (tl_HeadAssessment r')) as Eh.
  { destruct (ReadFile (tl_Head r) _ _); [by eapply described_fun|congruence]. }
  destruct r as [? ? ? ? ? []], r' as [? ? ? ? ? []]. cbn in *. congruence.
Qed.

(** C37: the trusted load refines its specification: some uncancelled load
    succeeds with a result exactly when the base's file says the result's
    pipeline, the source in effect and the description of the base are those of
    that file, and the assessment of the head is the description of its file, its
    classification against the base, and the diagnostics of a file that says no
    pipeline.  So the pipeline and the source in effect are functions of the base
    alone, whatever the head holds. *)
Theorem trusted_load_exact yaml_load ReadFile base head r :
  (∃ ctx, LoadTrusted yaml_load ctx (Some ReadFile) base head = Ok r) ↔ trusted_result yaml_load ReadFile base head r.
Proof.
  split; [intros (ctx & H); by eapply LoadTrusted_result|].
  intros H. exists (λ _, None). destruct (LoadTrusted_succeeds _ _ _ _ _ H) as (r' & Hr').
  rewrite Hr'. f_equal. symmetry. eapply trusted_result_fun; [done|]. by eapply LoadTrusted_result.
Qed.

(** ** Composition with the application of policy *)

Lemma run_passed_no_event yaml_load limits ctx req doc eval waivers applied statuses gov
    (R : applied_run yaml_load limits ctx req doc eval waivers applied statuses gov) rule d ref :
  ad_OverallEffectiveDisposition doc = DispositionPassed →
  ¬ event (ar_TrustedConfig req) waivers (ed_Findings eval) (ad_EvaluatedAt doc) rule d ref.
Proof.
  rewrite (run_overall _ _ _ _ _ _ _ _ _ _ R). intros Hp Hev.
  pose proof (event_disposition _ _ _ _ _ _ _ Hev) as Hd.
  apply (run_events R) in Hev as (a & Ha & _ & <- & _). apply (run_gov R) in Ha as [Ha _].
  destruct (proj1 (proj2 (overall_cases (ad_AppliedFindings doc))) Hp a Ha) as [? ?]. tauto.
Qed.

(** C9: a run that passes ran under exactly the pipeline its head proposes: when
    the application of policy to a trusted load passes overall, the head has a
    regular pipeline file within the limit, and the pipeline it says is the one of
    the base that was in effect.  Any other proposal of the head, however small,
    and a file that is missing or cannot be read, keeps the run from passing. *)
Theorem passed_ran_head_config yaml_load ctx ReadFile base head waiver_load limits ctx' req fa :
  LoadTrusted yaml_load ctx (Some ReadFile) base head = Ok (ar_TrustedConfig req) →
  Apply waiver_load limits ctx' req = Ok fa →
  ad_OverallEffectiveDisposition (fa_doc fa) = DispositionPassed →
  ∃ b f, ReadFile base PipelinePath MaxPipelineBytes = Ok b ∧ says yaml_load b (tl_EffectivePipeline (ar_TrustedConfig req))
    ∧ ReadFile head PipelinePath MaxPipelineBytes = Ok f ∧ says yaml_load f (tl_EffectivePipeline (ar_TrustedConfig req)).
Proof.
  intros Hload Happly Hpass. apply LoadTrusted_assessed in Hload as (b & Hb & Hs & Ha).
  apply Apply_Ok in Happly as (eval & waivers & applied & statuses & gov & R).
  pose proof (λ rule d ref, run_passed_no_event _ _ _ _ _ _ _ _ _ _ R rule d ref Hpass) as Hno.
  assert (ha_State (tl_HeadAssessment (ar_TrustedConfig req)) ∈ [HeadStateUnchanged;
    HeadStateContentChangedSemanticallyEquivalent; ""; HeadStateModifiedValid]%string) as Hst.
  { match goal with |- ?P => destruct (decide P) as [|Hn]; [done|] end. destruct (Hno _ _ _ (config_state _ _ _ _ Hn)). }
  exists b. remember (ha_State _) as st eqn:Est. remember (ha_Changes _) as cs eqn:Ecs.
  remember (ReadFile head _ _) as rh eqn:Erh.
  destruct Ha as [| |f Hk|f Hr E|f Hk Hn|f E Hf|f q Hf Hq]; try by (exfalso; revert Hst; apply (bool_decide_unpack _)).
  - exists f. split_and!; [done..|]. by eapply same_bytes_says.
  - exists f. by split_and!.
  - destruct (ComparePipelines (tl_EffectivePipeline (ar_TrustedConfig req)) q) as [|c cs] eqn:Ec.
    + apply pipelines_equal in Ec; [|by eapply says_wf..]. congruence.
    + destruct (Hno _ _ _ (config_change _ _ _ _ c (eq_sym Est) ltac:(rewrite <- Ecs; apply list_elem_of_here))).
Qed.
