(* ===== verification/ApplicationEx.v ===== *)
(** * A worked application

    The evaluation of [PolicyEx], which asks for the review of a new connection,
    under a base waiver that accepts it: once with a head that leaves the waiver
    alone, once with a head that extends it.  The theorems of [ApplicationSpec]
    are instantiated here. *)

From stdpp Require Import prelude gmap strings sorting.
From Stdlib Require Import ZArith Lia Ascii.
From S2P Require Import Prelude GoStd Sha256 Framing GoTime Model Json GoText Yaml Observe Compare CompareEx Policy PolicySpec PolicyEx Waiver WaiverSpec WaiverEx Config Plan ConfigParse ConfigValidate ConfigTrusted ConfigEx Application ApplicationSpec TrustedSpec.
Local Open Scope Z_scope.

Definition ex_plan : FrozenPlan := {|
  fp_doc := mkRunPlan "" "" "run-1" 0 "" None None ex_base_rev ex_head_rev [] [] zeroRunner (mkResourceLimits 0 0 0 0 0 0)
              (mkNetworkPolicy "deny" []) [] None None (Some (mkPolicyPlan PolicyProfileNameStrict)) None [];
  fp_json := ex_plan_json;
  fp_digest := ex_plan_digest |}.

(** The base waiver accepts the finding until February 2024, the head's until March. *)
Definition ex_waiver_doc (expires : string) : Node :=
  y_waivers [y_waiver "connect" (fd_ID ex_finding) "GR-NET-001" "ops" "known mirror" "2024-01-01T00:00:00Z" expires].
Definition ex_waiver_load : YamlLoad := λ _ _ data,
  if bool_decide (data = ex_base_bytes) then Ok [ex_waiver_doc "2024-02-01T00:00:00Z"]
  else if bool_decide (data = ex_head_bytes) then Ok [ex_waiver_doc "2024-03-01T00:00:00Z"]
  else Err "did not find expected node content"%string.

(** Noon of January 15th, 2024, in UTC. *)
Definition ex_now : GoTimeValue := mkGoTimeValue (1705320000 * nanos_per_second) 0 true false.

Definition ex_sources (head : bytes) : RevisionFileSource := ex_source (Ok (ex_file ex_base_bytes)) (Ok (ex_file head)).
Definition ex_request (head : bytes) : ApplicationRequest :=
  mkApplicationRequest (Some ex_evaluation) (Some ex_plan) ex_trusted (Some (ex_sources head)) ex_now.
Definition ex_apply (head : bytes) : result PolicyError FrozenApplication :=
  Apply ex_waiver_load DefaultApplicationLimits (λ _, None) (ex_request head).

Definition zeroApplication : ApplicationDocument :=
  mkApplicationDocument "" 0 "" "" "" "" "" "" "" "" ex_base_rev ex_head_rev (configAuthority ex_trusted)
    (waiverAuthority (Waiver.mkTrustedLoadResult ex_base_rev ex_head_rev zeroBase zeroHead)) "" [] []
    (summarizeApplication [] []) [].
Definition okApplication (r : result PolicyError FrozenApplication) : FrozenApplication :=
  match r with Ok fa => fa | Err _ => mkFrozenApplication zeroApplication [] "" end.

(** The two applications, evaluated once. *)
Definition ex_same_head : FrozenApplication := Eval vm_compute in okApplication (ex_apply ex_base_bytes).
Definition ex_new_head : FrozenApplication := Eval vm_compute in okApplication (ex_apply ex_head_bytes).

Lemma ex_same_head_ok : ex_apply ex_base_bytes = Ok ex_same_head.
Proof. vm_compute. reflexivity. Qed.
Lemma ex_new_head_ok : ex_apply ex_head_bytes = Ok ex_new_head.
Proof. vm_compute. reflexivity. Qed.

(** The waiver applies in both; only the second asks for a review of its extension. *)
Example ex_applications :
  (λ fa, (ad_OverallEffectiveDisposition (fa_doc fa),
          (λ a, (fd_RuleID (af_Original a), af_EffectiveDisposition a)) <$> ad_AppliedFindings (fa_doc fa)))
    <$> [ex_same_head; ex_new_head]
  = [(DispositionPassed, [("GR-NET-001"%string, DispositionWaived)]);
     (DispositionRequiresReview, [("GR-WAIVER-001"%string, DispositionRequiresReview);
                                  ("GR-NET-001"%string, DispositionWaived)])].
Proof. vm_compute. reflexivity. Qed.

(** ** Witnesses *)

Definition ex_limits : Waiver.Limits := applicationWaiverLimits DefaultApplicationLimits.
Definition ex_assessment (head : bytes) : option Waiver.TrustedLoadResult :=
  assessment ex_waiver_load ex_limits (ex_sources head) ex_base_rev ex_head_rev.
Definition ex_waivers : Waiver.TrustedLoadResult := Eval vm_compute in
  default (Waiver.mkTrustedLoadResult ex_base_rev ex_head_rev zeroBase zeroHead) (ex_assessment ex_head_bytes).
Lemma ex_assessment_ok : ex_assessment ex_head_bytes = Some ex_waivers.
Proof. vm_compute. reflexivity. Qed.

Lemma waivers_exact_witness :
  af_Original <$> filter isBuiltin (ad_AppliedFindings (fa_doc ex_new_head)) ≡ₚ ed_Findings (fe_doc ex_evaluation).
Proof.
  pose proof (waivers_exact ex_waiver_load DefaultApplicationLimits (λ _, None) (ex_request ex_head_bytes) ex_new_head
    ex_evaluation ex_new_head_ok eq_refl) as H.
  exact (proj1 H).
Defined.

Lemma waiver_statuses_exact_witness :
  ∃ statuses, ad_WaiverStatuses (fa_doc ex_new_head) ≡ₚ statuses ∧
    Forall2 (status_of (ed_Findings (fe_doc ex_evaluation)) (gt_instant ex_now))
      (authority ex_waiver_load DefaultApplicationLimits (ex_request ex_head_bytes)) statuses.
Proof.
  exact (waiver_statuses_exact ex_waiver_load DefaultApplicationLimits (λ _, None) (ex_request ex_head_bytes) ex_new_head
    ex_evaluation ex_new_head_ok eq_refl).
Defined.

Lemma head_cannot_waive_witness :
  filter isBuiltin (ad_AppliedFindings (fa_doc ex_same_head)) ≡ₚ filter isBuiltin (ad_AppliedFindings (fa_doc ex_new_head))
  ∧ ad_WaiverStatuses (fa_doc ex_same_head) = ad_WaiverStatuses (fa_doc ex_new_head).
Proof.
  apply (head_cannot_waive ex_waiver_load DefaultApplicationLimits (λ _, None) (λ _, None)
    (ex_request ex_base_bytes) (ex_request ex_head_bytes) ex_same_head ex_new_head
    (ex_sources ex_base_bytes) (ex_sources ex_head_bytes) ex_same_head_ok ex_new_head_ok);
    reflexivity.
Defined.

(** The head's extension of the waiver is a finding to review. *)
Lemma governance_exact_witness :
  ∃ a, a ∈ ad_AppliedFindings (fa_doc ex_new_head) ∧ ¬ isBuiltin a ∧ fd_RuleID (af_Original a) = "GR-WAIVER-001"%string
    ∧ af_EffectiveDisposition a = DispositionRequiresReview
    ∧ af_GovernanceReference a = Some (mkGovernanceReference "waiver-head-change" "" "" "" "connect" ChangeWaiverExpiryChanged
        (fm_Digest (ha_File (Waiver.tl_Head ex_waivers))) (ha_SemanticDigest (Waiver.tl_Head ex_waivers))).
Proof.
  pose proof (governance_exact ex_waiver_load DefaultApplicationLimits (λ _, None) (ex_request ex_head_bytes) ex_new_head
    ex_evaluation (ex_sources ex_head_bytes) ex_waivers ex_new_head_ok eq_refl eq_refl ex_assessment_ok) as H.
  apply H. apply (waiver_head_change _ _ _ _ (mkChange "connect" ChangeWaiverExpiryChanged)).
  - reflexivity.
  - apply list_elem_of_here.
Defined.

(** Hence the run does not pass: its evaluation's finding is waived, but the
    head's proposal is not settled. *)
Lemma overall_exact_witness :
  ad_OverallEffectiveDisposition (fa_doc ex_new_head) <> DispositionPassed
  ∧ ad_OverallEffectiveDisposition (fa_doc ex_new_head) <> DispositionFailed.
Proof.
  pose proof (overall_exact ex_waiver_load DefaultApplicationLimits (λ _, None) (ex_request ex_head_bytes) ex_new_head
    ex_evaluation (ex_sources ex_head_bytes) ex_waivers ex_new_head_ok eq_refl eq_refl ex_assessment_ok) as [Hf Hp].
  split.
  - intros [_ H]%Hp. eapply H. apply (waiver_head_change _ _ _ _ (mkChange "connect" ChangeWaiverExpiryChanged)).
    + reflexivity.
    + apply list_elem_of_here.
  - intros [(f & Hin & Hd)|Hb]%Hf.
    + apply list_elem_of_singleton in Hin as ->. discriminate Hd.
    + revert Hb. apply (bool_decide_unpack _). vm_compute. exact I.
Defined.

(** The run that passes did so under the pipeline that the rewritten head file says. *)
Lemma passed_ran_head_config_witness :
  ∃ b f, ex_config_source ex_base_rev PipelinePath MaxPipelineBytes = Ok b ∧ says ex_pipeline_load b ex_pipeline
    ∧ ex_config_source ex_head_rev PipelinePath MaxPipelineBytes = Ok f ∧ says ex_pipeline_load f ex_pipeline.
Proof.
  exact (passed_ran_head_config ex_pipeline_load (λ _, None) ex_config_source ex_base_rev ex_head_rev ex_waiver_load
    DefaultApplicationLimits (λ _, None) (ex_request ex_base_bytes) ex_same_head ex_trusted_ok ex_same_head_ok eq_refl).
Defined.
