(* ===== verification/GoCalendar.v ===== *)
(** * Texts of instants read back

    Every day has a date, so the text of an instant of the years 0 to 9999 parses,
    to the instant without its fraction of a second. *)

From stdpp Require Import prelude strings.
From Stdlib Require Import ZArith Lia Ascii.
From S2P Require Import Prelude GoStd GoTime Model Json GoText.
Local Open Scope Z_scope.

(** ** Every day is a date *)

(** Years start in March here: a year of an era and a day of that year. *)
Lemma era_day_exists doe :
  0 <= doe < 146097 →
  ∃ yoe doy, 0 <= yoe < 400 ∧ 0 <= doy <= 365 ∧
    (doy = 365 → (yoe + 1) mod 4 = 0 ∧ ((yoe + 1) mod 100 <> 0 ∨ (yoe + 1) mod 400 = 0)) ∧
    doe = 365 * yoe + yoe / 4 - yoe / 100 + doy.
Proof.
  intros H. set (c := Z.min (doe / 36524) 3). set (r := doe - 36524 * c). set (q := r / 1461).
  set (t := r - 1461 * q). set (y := Z.min (t / 365) 3).
  assert (0 <= c <= 3 ∧ 0 <= r <= 36524 ∧ (r = 36524 → c = 3)) as (Hc & Hr & Hr').
  { subst c r. Z.to_euclidean_division_equations; lia. }
  assert (0 <= q <= 24 ∧ 0 <= t <= 1460) as [Hq Ht] by (subst q t; Z.to_euclidean_division_equations; lia).
  assert (0 <= y <= 3 ∧ 0 <= t - 365 * y <= 365 ∧ (t - 365 * y = 365 → y = 3)) as (Hy & Hd & Hd').
  { subst y. Z.to_euclidean_division_equations; lia. }
  assert ((100 * c + 4 * q + y) / 4 = 25 * c + q) as E4 by (Z.to_euclidean_division_equations; lia).
  assert ((100 * c + 4 * q + y) / 100 = c) as E100 by (Z.to_euclidean_division_equations; lia).
  exists (100 * c + 4 * q + y), (t - 365 * y). rewrite E4, E100. split_and!; try lia.
  intros E. specialize (Hd' E). assert (q = 24 → c = 3) as Hqc by lia.
  clearbody c q y. subst y. Z.to_euclidean_division_equations; lia.
Qed.

Lemma year_day_exists doy :
  0 <= doy <= 365 →
  let mp := (5 * doy + 2) / 153 in let d := doy - (153 * mp + 2) / 5 + 1 in
  0 <= mp <= 11 ∧ 1 <= d ∧ (mp <> 11 → d <= if bool_decide (mp ∈ [1; 3; 6; 8]) then 30 else 31) ∧ (mp = 11 → d <= 29 ∧ (d = 29 → doy = 365)).
Proof.
  intros H mp d. assert (0 <= mp <= 11) as Hmp by (subst mp; Z.to_euclidean_division_equations; lia).
  split; [done|]. assert (5 * doy + 2 = 153 * mp + (5 * doy + 2) mod 153) as E by (subst mp; apply Z.div_mod; lia).
  pose proof (Z.mod_pos_bound (5 * doy + 2) 153 ltac:(lia)) as Hb. set (e := (5 * doy + 2) mod 153) in *. clearbody e.
  assert (mp = 0 ∨ mp = 1 ∨ mp = 2 ∨ mp = 3 ∨ mp = 4 ∨ mp = 5 ∨ mp = 6 ∨ mp = 7 ∨ mp = 8 ∨ mp = 9 ∨ mp = 10 ∨ mp = 11) as Hcase by lia.
  subst d. clearbody mp. destruct_or! Hcase; subst mp; cbn -[Z.div Z.mul];
  repeat match goal with |- context [bool_decide ?P] =>
    let b := eval vm_compute in (bool_decide P) in
    match b with true => change (bool_decide P) with true | false => change (bool_decide P) with false end end;
  cbv iota; repeat match goal with |- context [?a / 5] => let v := eval vm_compute in (a / 5) in change (a / 5) with v end;
  split_and!; lia.
Qed.

Lemma civil_exists n : ∃ y m d, 1 <= m <= 12 ∧ 1 <= d <= days_in m y ∧ days_of_civil y m d = n.
Proof.
  set (z := n + 719468). set (era := z / 146097). set (doe := z mod 146097).
  assert (z = era * 146097 + doe) as Hz by (subst era doe; rewrite (Z.div_mod z 146097) at 1; lia).
  destruct (era_day_exists doe) as (yoe & doy & Hyoe & Hdoy & Hleap & Hdoe); [subst doe; apply Z.mod_pos_bound; lia|].
  destruct (year_day_exists doy Hdoy) as (Hmp & Hd & Hlen & Hfeb).
  set (mp := (5 * doy + 2) / 153) in *. set (d := doy - (153 * mp + 2) / 5 + 1) in *.
  assert ((yoe + era * 400) / 400 = era) as Ee by (rewrite Z.div_add, Z.div_small by lia; lia).
  destruct (decide (mp < 10)) as [Hlt|Hge].
  - exists (yoe + era * 400), (mp + 3), d. split; [lia|]. assert (bool_decide (mp + 3 = 2) = false) as E2 by (apply bool_decide_false; lia).
    split.
    + split; [done|]. unfold days_in. rewrite E2. specialize (Hlen ltac:(lia)). by rewrite (bool_decide_ext (mp + 3 ∈ [4; 6; 9; 11]) (mp ∈ [1; 3; 6; 8])) by (rewrite !elem_of_cons, !elem_of_nil; lia).
    + unfold days_of_civil. rewrite (proj2 (Z.leb_gt (mp + 3) 2)) by lia. cbv zeta. rewrite Ee.
      replace (mp + 3 - 3) with mp by lia. subst d. replace (yoe + era * 400 - era * 400) with yoe by lia. subst z. lia.
  - exists (yoe + era * 400 + 1), (mp - 9), d. split; [lia|]. split.
    + split; [done|]. unfold days_in, is_leap. destruct (decide (mp = 11)) as [E|E].
      * rewrite bool_decide_true by lia. destruct (Hfeb E) as [H29 H365].
        assert ((yoe + era * 400 + 1) mod 4 = (yoe + 1) mod 4) as E4 by (Z.to_euclidean_division_equations; lia).
        assert ((yoe + era * 400 + 1) mod 100 = (yoe + 1) mod 100) as E100 by (Z.to_euclidean_division_equations; lia).
        assert ((yoe + era * 400 + 1) mod 400 = (yoe + 1) mod 400) as E400 by (Z.to_euclidean_division_equations; lia).
        rewrite E4, E100, E400. destruct (decide (d = 29)) as [Ed|Ed]; [|destruct (_ && _); lia].
        destruct (Hleap (H365 Ed)) as [H4 H100]. rewrite (bool_decide_true _ H4). cbn.
        destruct H100 as [H100|H400]; [rewrite (bool_decide_false _ H100)|rewrite (bool_decide_true _ H400), orb_true_r]; cbn; lia.
      * rewrite (bool_decide_false (mp - 9 = 2)) by lia. assert (mp = 10) as -> by lia. specialize (Hlen ltac:(lia)). done.
    + unfold days_of_civil. rewrite (proj2 (Z.leb_le (mp - 9) 2)) by lia. cbv zeta.
      replace (yoe + era * 400 + 1 - 1) with (yoe + era * 400) by lia. rewrite Ee.
      replace (mp - 9 + 9) with mp by lia. subst d. replace (yoe + era * 400 - era * 400) with yoe by lia. subst z. lia.
Qed.

(** ** Digits read back *)

Lemma decimal_digits w v : decimal (to_bytes (digits w v)) = Some (v mod 10 ^ Z.of_nat w).
Proof.
  revert v. induction w as [|w IH]; intros v; [by rewrite Z.mod_1_r|]. cbn [digits].
  rewrite to_bytes_app. unfold decimal. rewrite foldl_app.
  change (foldl _ (Some 0) (to_bytes (digits w (v / 10)))) with (decimal (to_bytes (digits w (v / 10)))). rewrite IH. cbn.
  pose proof (Z.mod_pos_bound v 10 ltac:(lia)) as Hb. unfold digit_value. rewrite byte_val_of, (Z.mod_small (48 + _)) by lia.
  rewrite (proj2 (Z.leb_le 48 _)), (proj2 (Z.leb_le _ 57)) by lia. cbn. f_equal.
  rewrite Nat2Z.inj_succ, Z.pow_succ_r, Z.rem_mul_r by lia. lia.
Qed.

Lemma length_digits w v : length (to_bytes (digits w v)) = w.
Proof. revert v. induction w as [|w IH]; intros v; [done|]. cbn [digits]. rewrite to_bytes_app, length_app, IH. cbn. lia. Qed.

Lemma digits2 v : ∃ a b, to_bytes (digits 2 v) = [a; b].
Proof. pose proof (length_digits 2 v) as H. destruct (to_bytes _) as [|a [|b [|? ?]]]; try done. eauto. Qed.
Lemma digits4 v : ∃ a b c d, to_bytes (digits 4 v) = [a; b; c; d].
Proof. pose proof (length_digits 4 v) as H. destruct (to_bytes _) as [|a [|b [|c [|d [|? ?]]]]]; try done. eauto. Qed.

Definition year_of (t : Z) : Z := (civil_of_days (t / nanos_per_second / 86400)).1.1.
(** The years that a timestamp text has room for. *)
Definition in_calendar (t : Z) : Prop := 0 <= year_of t <= 9999.

(** Formatting is inverse to parsing, to the second. *)
Lemma parse_format_time20 t : in_calendar t → parse_time20 (format_rfc3339 t) = Some (t / nanos_per_second * nanos_per_second).
Proof.
  unfold in_calendar, year_of, format_rfc3339, format_seconds, parse_time20. set (s := t / nanos_per_second).
  destruct (civil_exists (s / 86400)) as (y & m & d & Hm & Hd & Hday). rewrite <-Hday, civil_of_days_of_civil by done. cbn [fst snd]. intros Hy.
  set (r := s mod 86400). assert (0 <= r < 86400) as Hr by (apply Z.mod_pos_bound; lia).
  rewrite !to_bytes_app.
  pose proof (decimal_digits 4 y) as Ey. pose proof (decimal_digits 2 m) as Em. pose proof (decimal_digits 2 d) as Ed.
  pose proof (decimal_digits 2 (r / 3600)) as Eh. pose proof (decimal_digits 2 (r / 60 mod 60)) as En. pose proof (decimal_digits 2 (r mod 60)) as Ec.
  destruct (digits4 y) as (? & ? & ? & ? & E1), (digits2 m) as (? & ? & E2), (digits2 d) as (? & ? & E3),
    (digits2 (r / 3600)) as (? & ? & E4), (digits2 (r / 60 mod 60)) as (? & ? & E5), (digits2 (r mod 60)) as (? & ? & E6).
  rewrite E1 in *. rewrite E2 in *. rewrite E3 in *. rewrite E4 in *. rewrite E5 in *. rewrite E6 in *.
  assert (d <= 31) as Hd31 by (unfold days_in in Hd; repeat case_bool_decide; try destruct (is_leap y); lia).
  change (10 ^ Z.of_nat 4) with 10000 in *. change (10 ^ Z.of_nat 2) with 100 in *.
  assert (0 <= r / 3600 <= 23 ∧ 0 <= r / 60 mod 60 <= 59 ∧ 0 <= r mod 60 <= 59) as (? & ? & ?)
    by (clear -Hr; Z.to_euclidean_division_equations; lia).
  rewrite (Z.mod_small y) in Ey by lia. rewrite (Z.mod_small m) in Em by lia. rewrite (Z.mod_small d) in Ed by lia.
  rewrite (Z.mod_small (_ / 3600)) in Eh by lia. rewrite (Z.mod_small (_ mod 60)) in En by lia. rewrite (Z.mod_small (_ mod 60)) in Ec by lia.
  cbn [app to_bytes String.list_ascii_of_string]. rewrite bool_decide_true by done. cbn [negb].
  rewrite Ey, Em, Ed, Eh, En, Ec. cbn [mbind option_bind].
  assert ((1 <=? m) && (m <=? 12) && (1 <=? d) && (d <=? days_in m y) && (r / 3600 <=? 23) && (r / 60 mod 60 <=? 59)
    && (r mod 60 <=? 59) = true) as -> by (rewrite !andb_true_iff, !Z.leb_le; lia).
  rewrite Hday. do 2 f_equal. subst r. clearbody s. clear. Z.to_euclidean_division_equations; lia.
Qed.
