(* ===== verification/Sql.v ===== *)
(** * Transactions on the tables of a store ([database/sql])

    A store's operation runs one transaction: it reads and writes tables, any of
    its database calls may fail, and an error rolls everything back.  [Tx] is
    that: a state and error monad over the tables, with the database's failures
    as an oracle ([faults n] is the failure of the [n]-th call).  A store holds
    its mutex for a whole operation, and SQLite serialises transactions, so an
    operation is atomic. *)

From stdpp Require Import prelude gmap strings.
From Stdlib Require Import ZArith Lia.
From S2P Require Import Prelude GoStd.
Local Open Scope Z_scope.

Abbreviation Faults := (nat → bool).

Definition Tx (D E A : Type) : Type := Faults → nat → D → result E (A * nat * D).

#[global] Instance tx_ret {D E} : MRet (Tx D E) := λ A a _ n d, Ok (a, n, d).
#[global] Instance tx_bind {D E} : MBind (Tx D E) := λ A B k m faults n d,
  match m faults n d with Ok (a, n', d') => k a faults n' d' | Err e => Err e end.

Section ops.
Context {D E : Type}.

(** A database call that fails with [e]. *)
Definition call (e : E) : Tx D E unit := λ faults n d, if faults n then Err e else Ok ((), S n, d).
Definition fail {A} (e : E) : Tx D E A := λ _ _ _, Err e.
Definition gets {A} (q : D → A) : Tx D E A := λ _ n d, Ok (q d, n, d).
Definition puts (f : D → D) : Tx D E unit := λ _ n d, Ok ((), n, f d).
(** [if bad { return err }] *)
Definition guard (bad : bool) (e : E) : Tx D E unit := if bad then fail e else mret ().
(** A result computed outside the database. *)
Definition lift {A} (r : result E A) : Tx D E A := match r with Ok a => mret a | Err e => fail e end.

(** A query, and a statement that cannot violate a constraint. *)
Definition query {A} (e : E) (q : D → A) : Tx D E A := call e ;; gets q.
Definition exec (e : E) (f : D → D) : Tx D E unit := call e ;; puts f.
(** An insertion that fails when it would violate a constraint. *)
Definition insert_if (e : E) (free : D → bool) (f : D → D) : Tx D E unit :=
  call e ;; ok ← gets free; guard (negb ok) e ;; puts f.

(** A statement whose error is ignored. *)
Definition exec_ignored (f : D → D) : Tx D E unit := λ faults n d, Ok ((), S n, if faults n then d else f d).

(** The transaction of an operation: begin, body, and a commit unless the body
    returns without one (having written nothing). *)
Definition transaction {A} (begin_err : E) (body : Tx D E (A * option E)) : Tx D E A :=
  call begin_err ;; r ← body; (if r.2 is Some e then call e else mret ()) ;; mret r.1.

(** An operation's result and the tables after it; an error leaves them as they were. *)
Definition run {A} (m : Tx D E A) (faults : Faults) (d : D) : result E A * D :=
  match m faults 0%nat d with Ok (a, _, d') => (Ok a, d') | Err e => (Err e, d) end.
End ops.

Section facts.
Context {D E : Type}.

Lemma run_err {A} (m : Tx D E A) faults d e d' : run m faults d = (Err e, d') → d' = d.
Proof. unfold run. destruct (m _ _ _) as [[[? ?] ?]|]; [done|]. by intros [= _ <-]. Qed.

Lemma run_ok {A} (m : Tx D E A) faults d a d' :
  run m faults d = (Ok a, d') → ∃ n, m faults 0%nat d = Ok (a, n, d').
Proof. unfold run. destruct (m _ _ _) as [[[b n] d1]|]; [|done]. intros [= <- <-]. eauto. Qed.

Lemma tx_bind_Ok {A B} (m : Tx D E A) (k : A → Tx D E B) faults n d b n' d' :
  (m ≫= k) faults n d = Ok (b, n', d') ↔ ∃ a n1 d1, m faults n d = Ok (a, n1, d1) ∧ k a faults n1 d1 = Ok (b, n', d').
Proof.
  unfold mbind, tx_bind. destruct (m faults n d) as [[[a n1] d1]|]; split.
  - eauto.
  - by intros (? & ? & ? & [= <- <- <-] & ?).
  - done.
  - by intros (? & ? & ? & ? & _).
Qed.

Lemma tx_ret_Ok {A} (a : A) faults n d b n' d' :
  (mret a : Tx D E A) faults n d = Ok (b, n', d') ↔ b = a ∧ n' = n ∧ d' = d.
Proof. split; [by intros [= -> -> ->]|by intros (-> & -> & ->)]. Qed.

Lemma call_Ok (e : E) faults n (d : D) u n' d' : call e faults n d = Ok (u, n', d') ↔ faults n = false ∧ n' = S n ∧ d' = d.
Proof.
  unfold call. destruct u, (faults n); split; try done; [by intros (? & _)|by intros [= <- <-]|by intros (_ & -> & ->)].
Qed.

Lemma query_Ok {A} (e : E) (q : D → A) faults n d a n' d' :
  query e q faults n d = Ok (a, n', d') ↔ faults n = false ∧ n' = S n ∧ d' = d ∧ a = q d.
Proof.
  unfold query. rewrite tx_bind_Ok. split.
  - intros (u & n1 & d1 & H & [= <- <- <-]). by apply call_Ok in H as (? & -> & ->).
  - intros (? & -> & -> & ->). exists (), (S n), d. split; [by apply call_Ok|done].
Qed.

Lemma exec_Ok (e : E) (f : D → D) faults n d u n' d' :
  exec e f faults n d = Ok (u, n', d') ↔ faults n = false ∧ n' = S n ∧ d' = f d.
Proof.
  unfold exec. rewrite tx_bind_Ok. destruct u. split.
  - intros (u & n1 & d1 & H & [= <- <-]). by apply call_Ok in H as (? & -> & ->).
  - intros (? & -> & ->). exists (), (S n), d. split; [by apply call_Ok|done].
Qed.

Lemma exec_ignored_Ok (f : D → D) faults n (d : D) u n' d' :
  @exec_ignored D E f faults n d = Ok (u, n', d') ↔ n' = S n ∧ d' = (if faults n then d else f d).
Proof. destruct u. split; [by intros [= -> ->]|by intros (-> & ->)]. Qed.

Lemma guard_Ok bad (e : E) faults n (d : D) u n' d' :
  guard bad e faults n d = Ok (u, n', d') ↔ bad = false ∧ n' = n ∧ d' = d.
Proof. destruct u, bad; cbn; split; try done; [by intros [? _]|by intros [= -> ->]|by intros (_ & -> & ->)]. Qed.

Lemma gets_Ok {A} (q : D → A) faults n (d : D) a n' d' :
  @gets D E A q faults n d = Ok (a, n', d') ↔ a = q d ∧ n' = n ∧ d' = d.
Proof. split; [by intros [= -> -> ->]|by intros (-> & -> & ->)]. Qed.

Lemma puts_Ok (f : D → D) faults n (d : D) u n' d' :
  @puts D E f faults n d = Ok (u, n', d') ↔ n' = n ∧ d' = f d.
Proof. destruct u. split; [by intros [= -> ->]|by intros (-> & ->)]. Qed.

Lemma lift_Ok {A} (r : result E A) faults n (d : D) a n' d' :
  lift r faults n d = Ok (a, n', d') ↔ r = Ok a ∧ n' = n ∧ d' = d.
Proof. destruct r; cbn; split; try done; [by intros [= -> -> ->]|by intros ([= ->] & -> & ->)|by intros [? _]]. Qed.

Lemma insert_if_Ok (e : E) (free : D → bool) (f : D → D) faults n d u n' d' :
  insert_if e free f faults n d = Ok (u, n', d') ↔ faults n = false ∧ n' = S n ∧ free d = true ∧ d' = f d.
Proof.
  unfold insert_if. rewrite tx_bind_Ok. destruct u. split.
  - intros (u & n1 & d1 & H & H'). apply call_Ok in H as (? & -> & ->).
    apply tx_bind_Ok in H' as (ok & n2 & d2 & [= <- <- <-] & H'). apply tx_bind_Ok in H' as (u' & n3 & d3 & H' & [= <- <-]).
    apply guard_Ok in H' as (?%negb_false_iff & -> & ->). done.
  - intros (? & -> & Hf & ->). exists (), (S n), d. split; [by apply call_Ok|].
    unfold mbind, tx_bind, gets, guard. by rewrite Hf.
Qed.

(** A transaction that succeeds is its body. *)
Lemma transaction_Ok {A} (e : E) (body : Tx D E (A * option E)) faults n d a n' d' :
  transaction e body faults n d = Ok (a, n', d') → ∃ c n2, body faults (S n) d = Ok ((a, c), n2, d').
Proof.
  unfold transaction. intros H. apply tx_bind_Ok in H as (u & n1 & d1 & H1 & H). apply call_Ok in H1 as (_ & -> & ->).
  apply tx_bind_Ok in H as ([a' c] & n2 & d2 & Hb & H). apply tx_bind_Ok in H as (u' & n3 & d3 & Hc & [= <- <- <-]).
  exists c, n2. cbn in Hc. destruct c; [apply call_Ok in Hc as (_ & _ & ->)|apply tx_ret_Ok in Hc as (_ & _ & ->)]; done.
Qed.
End facts.

(** ** Runs of a database that works *)

Definition calm : Faults := λ _, false.

Section calm.
Context {D E : Type}.

(** Whatever was called before, [m] succeeds. *)
Definition yields {A} (m : Tx D E A) (d : D) (a : A) (d' : D) : Prop := ∀ n, ∃ n', m calm n d = Ok (a, n', d').

Lemma yields_bind {A B} (m : Tx D E A) (k : A → Tx D E B) d a d1 b d2 :
  yields m d a d1 → yields (k a) d1 b d2 → yields (m ≫= k) d b d2.
Proof.
  intros Hm Hk n. destruct (Hm n) as [n1 H1], (Hk n1) as [n2 H2]. exists n2. unfold mbind, tx_bind. by rewrite H1.
Qed.
Lemma yields_ret {A} (a : A) (d : D) : yields (mret a : Tx D E A) d a d.
Proof. intros n. by exists n. Qed.
Lemma yields_call (e : E) (d : D) : yields (call e) d () d.
Proof. intros n. by exists (S n). Qed.
Lemma yields_query {A} (e : E) (q : D → A) d : yields (query e q) d (q d) d.
Proof. intros n. by exists (S n). Qed.
Lemma yields_gets {A} (q : D → A) d : yields (@gets D E A q) d (q d) d.
Proof. intros n. by exists n. Qed.
Lemma yields_puts (f : D → D) d : yields (@puts D E f) d () (f d).
Proof. intros n. by exists n. Qed.
Lemma yields_exec (e : E) (f : D → D) d : yields (exec e f) d () (f d).
Proof. intros n. by exists (S n). Qed.
Lemma yields_guard bad (e : E) (d : D) : bad = false → yields (guard bad e) d () d.
Proof. intros -> n. by exists n. Qed.
Lemma yields_lift {A} (r : result E A) a (d : D) : r = Ok a → yields (lift r) d a d.
Proof. intros -> n. by exists n. Qed.
Lemma yields_insert_if (e : E) (free : D → bool) f d : free d = true → yields (insert_if e free f) d () (f d).
Proof. intros H n. exists (S n). unfold insert_if, mbind, tx_bind, call, gets, guard, calm. by rewrite H. Qed.
Lemma yields_transaction {A} (e : E) (body : Tx D E (A * option E)) d a c d' :
  yields body d (a, c) d' → yields (transaction e body) d a d'.
Proof.
  intros H. unfold transaction. eapply yields_bind; [apply yields_call|]. eapply yields_bind; [exact H|].
  cbn. eapply yields_bind; [|apply yields_ret]. destruct c; [apply yields_call|apply yields_ret].
Qed.
Lemma yields_run {A} (m : Tx D E A) d a d' : yields m d a d' → run m calm d = (Ok a, d').
Proof. intros H. destruct (H 0%nat) as [n Hn]. unfold run. by rewrite Hn. Qed.
End calm.

(** Invert a transaction known to have succeeded, one step at a time; a store
    extends [inv_op] with what its own operations mean when they succeed. *)
Ltac inv_op H := idtac.
Ltac inv_tx H :=
  match type of H with
  | (_ ≫= _) _ _ _ = Ok _ =>
    let a := fresh "a" in let n := fresh "n" in let d := fresh "d" in let H1 := fresh "Hs" in
    apply tx_bind_Ok in H as (a & n & d & H1 & H); inv_tx H1; cbn beta in H; inv_tx H
  | call _ _ _ _ = Ok _ => apply call_Ok in H as (? & ? & ?); subst
  | query _ _ _ _ _ = Ok _ => apply query_Ok in H as (? & ? & ? & ?); subst
  | exec _ _ _ _ _ = Ok _ => apply exec_Ok in H as (? & ? & ?); subst
  | exec_ignored _ _ _ _ = Ok _ => apply exec_ignored_Ok in H as (? & ?); subst
  | guard _ _ _ _ _ = Ok _ => apply guard_Ok in H as (? & ? & ?); subst
  | lift _ _ _ _ = Ok _ => apply lift_Ok in H as (? & ? & ?); subst
  | insert_if _ _ _ _ _ _ = Ok _ => apply insert_if_Ok in H as (? & ? & ? & ?); subst
  | mret _ _ _ _ = Ok _ => apply tx_ret_Ok in H as (? & ? & ?); subst
  | gets _ _ _ _ = Ok _ => apply gets_Ok in H as (? & ? & ?); subst
  | puts _ _ _ _ = Ok _ => apply puts_Ok in H as (? & ?); subst
  | fail _ _ _ _ = Ok _ => discriminate H
  | _ => inv_op H
  end.

(** Turn the boolean conditions of the context into propositions. *)
Ltac unbool :=
  repeat match goal with
  | H : _ || _ = false |- _ => apply orb_false_iff in H as [? ?]
  | H : _ && _ = true |- _ => apply andb_true_iff in H as [? ?]
  | H : negb _ = false |- _ => apply negb_false_iff in H
  | H : negb _ = true |- _ => apply negb_true_iff in H
  | H : bool_decide _ = true |- _ => apply bool_decide_eq_true in H
  | H : bool_decide _ = false |- _ => apply bool_decide_eq_false in H
  | H : Z.leb _ _ = true |- _ => apply Z.leb_le in H
  | H : Z.leb _ _ = false |- _ => apply Z.leb_gt in H
  | H : Z.ltb _ _ = true |- _ => apply Z.ltb_lt in H
  | H : Z.ltb _ _ = false |- _ => apply Z.ltb_ge in H
  end.

(** ** Tables over time

    [R] says what may happen to a row; rows are never deleted. *)

Definition after {K A} `{Countable K} (R : A → A → Prop) (m m' : gmap K A) : Prop :=
  ∀ k a, m !! k = Some a → ∃ a', m' !! k = Some a' ∧ R a a'.
Definition after_list {A} (R : A → A → Prop) (l l' : list A) : Prop :=
  ∀ (n : nat) a, l !! n = Some a → ∃ a', l' !! n = Some a' ∧ R a a'.

#[global] Instance after_preorder {K A} `{Countable K} (R : A → A → Prop) `{!PreOrder R} : PreOrder (after (K := K) R).
Proof.
  split; [intros m k a ?; by exists a|]. intros m1 m2 m3 H1 H2 k a Ha. destruct (H1 k a Ha) as (b & Hb & Rab).
  destruct (H2 k b Hb) as (c & Hc & Rbc). exists c. split; [done|by etrans].
Qed.
#[global] Instance after_list_preorder {A} (R : A → A → Prop) `{!PreOrder R} : PreOrder (after_list R).
Proof.
  split; [intros m k a ?; by exists a|]. intros m1 m2 m3 H1 H2 k a Ha. destruct (H1 k a Ha) as (b & Hb & Rab).
  destruct (H2 k b Hb) as (c & Hc & Rbc). exists c. split; [done|by etrans].
Qed.
Lemma after_insert {K A} `{Countable K} (R : A → A → Prop) `{!PreOrder R} (m : gmap K A) k a :
  (∀ b, m !! k = Some b → R b a) → after R m (<[k := a]> m).
Proof.
  intros Hb k' b' Hk. destruct (decide (k = k')) as [<-|Hne]; [exists a; split; [apply lookup_insert_eq|by apply Hb]|].
  exists b'. by rewrite lookup_insert_ne.
Qed.
Lemma after_fmap {K A} `{Countable K} (R : A → A → Prop) (f : A → A) (m : gmap K A) :
  (∀ a, R a (f a)) → after R m (f <$> m).
Proof. intros Hf k a Ha. exists (f a). by rewrite lookup_fmap, Ha. Qed.
Lemma after_alter {K A} `{Countable K} (R : A → A → Prop) `{!PreOrder R} (f : A → A) k (m : gmap K A) :
  (∀ a, m !! k = Some a → R a (f a)) → after R m (alter f k m).
Proof.
  intros Hf k' a Ha. destruct (decide (k = k')) as [<-|Hne].
  - exists (f a). rewrite lookup_alter_eq, Ha. by split; [|apply Hf].
  - exists a. by rewrite lookup_alter_ne.
Qed.
Lemma after_list_fmap {A} (R : A → A → Prop) (f : A → A) l : (∀ a, a ∈ l → R a (f a)) → after_list R l (f <$> l).
Proof. intros Hf n a Ha. exists (f a). rewrite list_lookup_fmap, Ha. split; [done|]. apply Hf. by eapply list_elem_of_lookup_2. Qed.
Lemma after_list_app {A} (R : A → A → Prop) `{!PreOrder R} l l' : after_list R l (l ++ l').
Proof. intros n a Ha. exists a. split; [by apply lookup_app_l_Some|done]. Qed.
Lemma Forall2_alter {A} (R : A → A → Prop) `{!Reflexive R} f (n : nat) l : (∀ a, R a (f a)) → Forall2 R l (alter f n l).
Proof.
  intros Hf. revert n. induction l as [|x l IH]; intros [|n]; [apply Forall2_nil_2..| |]; cbn; apply Forall2_cons_2; [by apply Hf| |done|apply IH].
  apply Forall_Forall2_diag, Forall_true. intros; reflexivity.
Qed.
Lemma after_list_of_Forall2 {A} (R : A → A → Prop) l l' : Forall2 R l l' → after_list R l l'.
Proof. intros H n a Ha. destruct (Forall2_lookup_l _ _ _ _ _ H Ha) as (b & Hb & ?). eauto. Qed.
Lemma Forall2_fmap_self {A} (R : A → A → Prop) f (l : list A) : (∀ a, R a (f a)) → Forall2 R l (f <$> l).
Proof. intros Hf. apply Forall2_fmap_r, Forall_Forall2_diag, Forall_true, Hf. Qed.
