(* ===== verification/GithubApp.v ===== *)
(** * The GitHub application protocol ([internal/githubapp])

    The types and decisions the webhook receiver, the controller and the
    publisher share: identities of targets, jobs and attempts, the state machines
    of deliveries, jobs, attempts and publications, webhook signatures and
    actions, the projections of payloads, the generation of a pull request, the
    rerequest of a check and the advisory check itself. *)

From stdpp Require Import prelude gmap strings.
From Stdlib Require Import ZArith Lia Ascii.
From S2P Require Import Prelude GoStd Sha256 Framing GoTime Model Json GoText.
Local Open Scope Z_scope.

(** ** [errors.go] *)

Record AppError := mkAppError { ae_Code : string; ae_Stage : string; ae_Message : string }.
Definition errCode (code stage msg : string) : AppError := mkAppError code stage msg.

(** ** [permissions.go], [limits.go]: constants *)

Definition SchemaGitHubWebhookReceiptV1Alpha1 : string := "glassroot.dev/github-webhook-receipt/v1alpha1".
Definition SchemaGitHubAnalysisTargetV1Alpha1 : string := "glassroot.dev/github-analysis-target/v1alpha1".
Definition SchemaGitHubAnalysisJobV1Alpha1 : string := "glassroot.dev/github-analysis-job/v1alpha1".
Definition SchemaGitHubAnalysisAttemptV1Alpha1 : string := "glassroot.dev/github-analysis-attempt/v1alpha1".
Definition SchemaGitHubWorkerAssignmentV1Alpha1 : string := "glassroot.dev/github-worker-assignment/v1alpha1".
Definition SchemaGitHubPublishCommandV1Alpha1 : string := "glassroot.dev/github-publish-command/v1alpha1".
Definition SchemaGitHubCheckProjectionV1Alpha1 : string := "glassroot.dev/github-check-projection/v1alpha1".
Definition CheckProfileAdvisoryV1Alpha1 : string := "glassroot.dev/github-check-profile/advisory/v1alpha1".

Definition MaxInt64 : Z := 2 ^ 63 - 1.
Definition AbsoluteMaxAttemptsPerTarget : Z := 32.
Definition AbsoluteMaxControllerGeneration : Z := MaxInt64.
Definition AbsoluteMaxCheckTitleBytes : Z := 255.
Definition AbsoluteMaxCheckSummaryBytes : Z := 32 * 2 ^ 10.
Definition AbsoluteMaxCheckTextBytes : Z := 32 * 2 ^ 10.
(** [x++] on an [int64] *)
Definition inc64 (x : Z) : Z := if bool_decide (x = MaxInt64) then - 2 ^ 63 else x + 1.

(** ** [limits.go] *)

Record Limits := mkLimits {
  l_MaxWebhookBodyBytes : Z;
  l_MinWebhookSecretBytes : Z;
  l_MaxWebhookSecretBytes : Z;
  l_MaxSignatureHeaderBytes : Z;
  l_MaxHeaderValueBytes : Z;
  l_MaxDeliveryIDBytes : Z;
  l_MaxEventNameBytes : Z;
  l_MaxExternalIDBytes : Z;
  l_MaxRepositoryNameBytes : Z;
  l_MaxProjectionStringBytes : Z;
  l_MaxJSONDepth : Z;
  l_MaxJSONTokens : Z;
  l_MaxMembersPerObject : Z;
  l_MaxArrayElements : Z;
  l_MaxJSONStringBytes : Z;
  l_MaxJSONNumberBytes : Z;
  l_MaxJobLimitations : Z;
  l_MaxCheckTitleBytes : Z;
  l_MaxCheckSummaryBytes : Z;
  l_MaxCheckTextBytes : Z;
  l_MaxStateTransitions : Z;
  l_MaxAttemptsPerTarget : Z;
  l_MaxProtocolDocumentBytes : Z;
  l_MaxControllerGeneration : Z
}.
Definition DefaultLimits : Limits := {|
  l_MaxWebhookBodyBytes := 4 * 2 ^ 20;
  l_MinWebhookSecretBytes := 32;
  l_MaxWebhookSecretBytes := 256;
  l_MaxSignatureHeaderBytes := 128;
  l_MaxHeaderValueBytes := 1024;
  l_MaxDeliveryIDBytes := 128;
  l_MaxEventNameBytes := 64;
  l_MaxExternalIDBytes := 128;
  l_MaxRepositoryNameBytes := 256;
  l_MaxProjectionStringBytes := 4 * 2 ^ 10;
  l_MaxJSONDepth := 64;
  l_MaxJSONTokens := 250000;
  l_MaxMembersPerObject := 25000;
  l_MaxArrayElements := 100000;
  l_MaxJSONStringBytes := 2 ^ 20;
  l_MaxJSONNumberBytes := 128;
  l_MaxJobLimitations := 1000;
  l_MaxCheckTitleBytes := AbsoluteMaxCheckTitleBytes;
  l_MaxCheckSummaryBytes := AbsoluteMaxCheckSummaryBytes;
  l_MaxCheckTextBytes := AbsoluteMaxCheckTextBytes;
  l_MaxStateTransitions := 1000;
  l_MaxAttemptsPerTarget := AbsoluteMaxAttemptsPerTarget;
  l_MaxProtocolDocumentBytes := 4 * 2 ^ 20;
  l_MaxControllerGeneration := AbsoluteMaxControllerGeneration
|}.
(** Each limit with its absolute ceiling, in the order of the checks. *)
Definition limitChecks (l : Limits) : list (Z * Z) := [
  (l_MaxWebhookBodyBytes l, 4 * 2 ^ 20);
  (l_MaxWebhookSecretBytes l, 256);
  (l_MaxSignatureHeaderBytes l, 128);
  (l_MaxHeaderValueBytes l, 1024);
  (l_MaxDeliveryIDBytes l, 128);
  (l_MaxEventNameBytes l, 64);
  (l_MaxExternalIDBytes l, 128);
  (l_MaxRepositoryNameBytes l, 256);
  (l_MaxProjectionStringBytes l, 4 * 2 ^ 10);
  (l_MaxJSONDepth l, 64);
  (l_MaxJSONTokens l, 250000);
  (l_MaxMembersPerObject l, 25000);
  (l_MaxArrayElements l, 100000);
  (l_MaxJSONStringBytes l, 2 ^ 20);
  (l_MaxJSONNumberBytes l, 128);
  (l_MaxJobLimitations l, 1000);
  (l_MaxCheckTitleBytes l, AbsoluteMaxCheckTitleBytes);
  (l_MaxCheckSummaryBytes l, AbsoluteMaxCheckSummaryBytes);
  (l_MaxCheckTextBytes l, AbsoluteMaxCheckTextBytes);
  (l_MaxStateTransitions l, 1000);
  (l_MaxAttemptsPerTarget l, AbsoluteMaxAttemptsPerTarget);
  (l_MaxProtocolDocumentBytes l, 4 * 2 ^ 20)
].
Definition validateLimits (l : Limits) : result AppError unit :=
  let bad := errCode "invalid-limits" "limits" "invalid-limits rejected" in
  reject_if (existsb (λ '(got, max), (got <=? 0) || (max <? got)) (limitChecks l)) bad ;;
  reject_if ((l_MinWebhookSecretBytes l <? 1) || (l_MaxWebhookSecretBytes l <? l_MinWebhookSecretBytes l)) bad ;;
  reject_if ((l_MaxControllerGeneration l <=? 0) || (AbsoluteMaxControllerGeneration <? l_MaxControllerGeneration l)) bad.

(** ** [digest.go] *)

Definition hasControl (s : string) : bool := str_existsb is_control s.
Definition isLowerHex (s : string) (n : Z) : bool := bool_decide (str_len s = n) && str_forallb is_lower_hex_digit s.
Definition DigestRawBody (body : bytes) : string := "sha256:" +:+ sha256_hex body.
Definition domainPreimage (domain : string) (fields : list string) : bytes := to_bytes domain ++ (fields ≫= writeString).
Definition domainHash (domain : string) (fields : list string) : string := sha256_hex (domainPreimage domain fields).
Definition prefixedID (prefix domain : string) (fields : list string) : string := prefix +:+ "-" +:+ domainHash domain fields.

(** [len(s) == len(prefix)+64 && s[:len(prefix)] == prefix && isLowerHex(s[len(prefix):], 64)] *)
Definition prefixed_hex (prefix s : string) : bool :=
  bool_decide (str_len s = str_len prefix + 64) && has_prefix prefix s && isLowerHex (str_drop (String.length prefix) s) 64.
Definition validateDigest (s : string) : bool := prefixed_hex "sha256:" s.
Definition validateTargetID (id : string) : bool := prefixed_hex "target-" id.
Definition validateJobID (id : string) : bool := prefixed_hex "job-" id.
Definition validateAttemptID (id : string) : bool := prefixed_hex "attempt-" id.
Definition validGitObjectID (s : string) : bool := isLowerHex s 40 || isLowerHex s 64.

(** ** [target.go] *)

Definition DomainAnalysisTargetID : string := "glassroot.dev/github-analysis-target-id/v1" +:+ NUL.
Definition DomainAnalysisJobID : string := "glassroot.dev/github-analysis-job-id/v1" +:+ NUL.
Definition DomainAnalysisAttemptID : string := "glassroot.dev/github-analysis-attempt-id/v1" +:+ NUL.
Definition DomainCheckExternalID : string := "glassroot.dev/github-check-external-id/v1" +:+ NUL.

Record AnalysisTarget := mkAnalysisTarget {
  at_SchemaVersion : string;
  at_InstallationID : Z;
  at_BaseRepositoryID : Z;
  at_HeadRepositoryID : Z;
  at_PullRequestNumber : Z;
  at_BaseCommitID : string;
  at_HeadCommitID : string;
  at_AnalysisProfileVersion : string
}.

Definition validateTarget (t : AnalysisTarget) : result AppError unit :=
  reject_if (at_SchemaVersion t != SchemaGitHubAnalysisTargetV1Alpha1) (errCode "invalid-target" "target" "schema version invalid") ;;
  reject_if ((at_InstallationID t <=? 0) || (at_BaseRepositoryID t <=? 0) || (at_HeadRepositoryID t <=? 0)
             || (at_PullRequestNumber t <=? 0))
    (errCode "invalid-target" "target" "numeric identities must be positive") ;;
  reject_if (negb (validGitObjectID (at_BaseCommitID t)) || negb (validGitObjectID (at_HeadCommitID t)))
    (errCode "invalid-object-id" "target" "commit ids must be full lowercase object ids") ;;
  reject_if ((at_AnalysisProfileVersion t == ""%string) || hasControl (at_AnalysisProfileVersion t))
    (errCode "invalid-target" "target" "analysis profile version invalid").

Definition targetFields (t : AnalysisTarget) : list string :=
  [fmt_d (at_InstallationID t); fmt_d (at_BaseRepositoryID t); fmt_d (at_HeadRepositoryID t); fmt_d (at_PullRequestNumber t);
   at_BaseCommitID t; at_HeadCommitID t; at_AnalysisProfileVersion t].

Definition targetID (t : AnalysisTarget) : result AppError string :=
  validateTarget t ;; mret (prefixedID "target" DomainAnalysisTargetID (targetFields t)).

(** ** [job.go] *)

Abbreviation RunnerTier := string.
Definition RunnerTierHardenedContainer : RunnerTier := "hardened-container".
Definition RunnerTierMicroVM : RunnerTier := "microvm".

Abbreviation AttemptReason := string.
Definition AttemptReasonInitial : AttemptReason := "initial".
Definition AttemptReasonInfrastructureRetry : AttemptReason := "infrastructure-retry".
Definition AttemptReasonCheckRerequest : AttemptReason := "check-rerequest".

Record AnalysisJob := mkAnalysisJob {
  aj_SchemaVersion : string;
  aj_ID : string;
  aj_TargetID : string;
  aj_Target : AnalysisTarget;
  aj_Generation : Z;
  aj_AnalysisProfileVersion : string;
  aj_RequiredRunnerTier : RunnerTier
}.
Record AnalysisAttempt := mkAnalysisAttempt {
  aa_SchemaVersion : string;
  aa_ID : string;
  aa_JobID : string;
  aa_TargetID : string;
  aa_Generation : Z;
  aa_AttemptNumber : Z;
  aa_Reason : AttemptReason
}.

Definition jobFields (target_id : string) (generation : Z) (profile : string) (tier : RunnerTier) : list string :=
  [target_id; fmt_d generation; profile; tier].

Definition NewAnalysisJob (target : AnalysisTarget) (generation : Z) (profile : string) (tier : RunnerTier) :
    result AppError AnalysisJob :=
  reject_if ((tier != RunnerTierHardenedContainer) && (tier != RunnerTierMicroVM))
    (errCode "invalid-job" "job" "public PR jobs require hardened-container or stronger") ;;
  reject_if ((generation <=? 0) || (AbsoluteMaxControllerGeneration <? generation) || (profile == ""%string) || hasControl profile)
    (errCode "invalid-job" "job" "generation or profile invalid") ;;
  target_id ← targetID target;
  mret (mkAnalysisJob SchemaGitHubAnalysisJobV1Alpha1
          (prefixedID "job" DomainAnalysisJobID (jobFields target_id generation profile tier))
          target_id target generation profile tier).

Definition attemptFields (job : AnalysisJob) (number : Z) (reason : AttemptReason) : list string :=
  [aj_ID job; aj_TargetID job; fmt_d (aj_Generation job); fmt_d number; reason].

Definition NewAnalysisAttempt (job : AnalysisJob) (number : Z) (reason : AttemptReason) : result AppError AnalysisAttempt :=
  reject_if (negb (validateJobID (aj_ID job)) || negb (validateTargetID (aj_TargetID job)) || (aj_Generation job <=? 0)
             || (number <=? 0) || (AbsoluteMaxAttemptsPerTarget <? number))
    (errCode "invalid-attempt" "attempt" "job or attempt identity invalid") ;;
  reject_if ((reason != AttemptReasonInitial) && (reason != AttemptReasonInfrastructureRetry)
             && (reason != AttemptReasonCheckRerequest))
    (errCode "invalid-attempt" "attempt" "attempt reason invalid") ;;
  mret (mkAnalysisAttempt SchemaGitHubAnalysisAttemptV1Alpha1
          (prefixedID "attempt" DomainAnalysisAttemptID (attemptFields job number reason))
          (aj_ID job) (aj_TargetID job) (aj_Generation job) number reason).

Definition CheckExternalID (appIdentity : string) (repositoryID : Z) (attemptID profile : string) : result AppError string :=
  reject_if ((appIdentity == ""%string) || hasControl appIdentity || (repositoryID <=? 0) || negb (validateAttemptID attemptID)
             || (profile == ""%string) || hasControl profile)
    (errCode "publish-invariant" "publisher" "external id inputs invalid") ;;
  mret ("gr-" +:+ domainHash DomainCheckExternalID [appIdentity; fmt_d repositoryID; attemptID; profile]).

(** ** [state.go]: the state machines *)

(** A machine: its terminal states and the states each other state may move to. *)
Record Machine := mkMachine { mc_name : string; mc_terminal : list string; mc_allowed : list (string * list string) }.
Definition allowedFrom (m : Machine) (from : string) : list string :=
  default [] ((list_to_map (mc_allowed m) : gmap string (list string)) !! from).
Definition transition (m : Machine) (from to : string) : result AppError string :=
  if from == to then Ok from
  else if bool_decide (from ∈ mc_terminal m) then
    Err (errCode "invalid-state-transition" (mc_name m) ("terminal " +:+ mc_name m +:+ " state cannot transition"))
  else if bool_decide (to ∈ allowedFrom m from) then Ok to
  else Err (errCode "invalid-state-transition" (mc_name m) (mc_name m +:+ " transition rejected")).

Definition deliveryMachine : Machine := mkMachine "delivery" ["enqueued"; "ignored"; "rejected"] [
  ("received", ["verified"; "rejected"]);
  ("verified", ["persisted"; "ignored"; "rejected"]);
  ("persisted", ["enqueued"; "ignored"; "rejected"])]%string.
Definition TransitionDelivery : string → string → result AppError string := transition deliveryMachine.

Abbreviation JobState := string.
Definition JobStateQueued : JobState := "queued".
Definition JobStateImportingSource : JobState := "importing-source".
Definition JobStatePlanning : JobState := "planning".
Definition JobStateAwaitingRunner : JobState := "awaiting-runner".
Definition JobStateRunning : JobState := "running".
Definition JobStateValidatingReport : JobState := "validating-report".
Definition JobStateReadyToPublish : JobState := "ready-to-publish".
Definition JobStateCompleted : JobState := "completed".
Definition JobStateFailed : JobState := "failed".
Definition JobStateSuperseded : JobState := "superseded".
Definition JobStateCancelled : JobState := "cancelled".
Definition jobTerminalStates : list JobState := [JobStateCompleted; JobStateFailed; JobStateSuperseded; JobStateCancelled].
Definition abandoned : list JobState := [JobStateSuperseded; JobStateCancelled; JobStateFailed].

Definition jobMachine : Machine := mkMachine "job" jobTerminalStates [
  (JobStateQueued, JobStateImportingSource :: abandoned);
  (JobStateImportingSource, JobStatePlanning :: abandoned);
  (JobStatePlanning, JobStateAwaitingRunner :: abandoned);
  (JobStateAwaitingRunner, JobStateRunning :: abandoned);
  (JobStateRunning, JobStateValidatingReport :: abandoned);
  (JobStateValidatingReport, JobStateReadyToPublish :: abandoned);
  (JobStateReadyToPublish, JobStateCompleted :: abandoned)].
Definition TransitionJob : JobState → JobState → result AppError JobState := transition jobMachine.

Abbreviation AttemptState := string.
Definition AttemptStateQueued : AttemptState := "queued".
Definition AttemptStateLeased : AttemptState := "leased".
Definition AttemptStateRunning : AttemptState := "running".
Definition AttemptStateCompleted : AttemptState := "completed".
Definition AttemptStateFailed : AttemptState := "failed".
Definition AttemptStateCancelled : AttemptState := "cancelled".
Definition AttemptStateLeaseExpired : AttemptState := "lease-expired".
Definition attemptTerminalStates : list AttemptState := [AttemptStateCompleted; AttemptStateFailed; AttemptStateCancelled].

Definition attemptMachine : Machine := mkMachine "attempt" attemptTerminalStates [
  (AttemptStateQueued, [AttemptStateLeased; AttemptStateCancelled]);
  (AttemptStateLeased, [AttemptStateRunning; AttemptStateLeaseExpired; AttemptStateCancelled; AttemptStateFailed]);
  (AttemptStateRunning, [AttemptStateCompleted; AttemptStateFailed; AttemptStateCancelled; AttemptStateLeaseExpired]);
  (AttemptStateLeaseExpired, [AttemptStateQueued; AttemptStateCancelled; AttemptStateFailed])].
Definition TransitionAttempt : AttemptState → AttemptState → result AppError AttemptState := transition attemptMachine.

Definition publicationMachine : Machine := mkMachine "publication" ["completed"; "cancelled"; "failed"] [
  ("absent", ["create-pending"; "cancelled"; "failed"]);
  ("create-pending", ["queued"; "ambiguous"; "failed"; "cancelled"]);
  ("queued", ["in-progress"; "completion-pending"; "cancelled"; "failed"]);
  ("in-progress", ["completion-pending"; "cancelled"; "failed"]);
  ("completion-pending", ["completed"; "ambiguous"; "failed"; "cancelled"]);
  ("ambiguous", ["queued"; "failed"])]%string.
Definition TransitionPublication : string → string → result AppError string := transition publicationMachine.

(** ** [subscriptions.go] *)

Abbreviation WebhookActionDecision := string.
Definition WebhookActionSchedule : WebhookActionDecision := "schedule".
Definition WebhookActionCancel : WebhookActionDecision := "cancel".
Definition WebhookActionNoop : WebhookActionDecision := "noop".
Definition WebhookActionRerequest : WebhookActionDecision := "rerequest".

Definition ClassifyWebhookAction (event action : string) : result AppError WebhookActionDecision :=
  if event == "pull_request"%string then
    Ok (if bool_decide (action ∈ ["opened"; "reopened"; "synchronize"; "ready_for_review"]%string) then WebhookActionSchedule
        else if bool_decide (action ∈ ["converted_to_draft"; "closed"]%string) then WebhookActionCancel
        else WebhookActionNoop)
  else if event == "check_run"%string then
    Ok (if action == "rerequested"%string then WebhookActionRerequest else WebhookActionNoop)
  else if bool_decide (event ∈ ["check_suite"; "installation"; "installation_repositories"; "ping"]%string) then
    Ok WebhookActionNoop
  else Err (errCode "unsupported-event" "webhook" "event does not schedule work").

(** ** [payload.go]: projections *)

Abbreviation ProjectionKind := string.
Definition ProjectionPullRequest : ProjectionKind := "pull_request".
Definition ProjectionCheckRun : ProjectionKind := "check_run".
Definition ProjectionCheckSuite : ProjectionKind := "check_suite".
Definition ProjectionInstallation : ProjectionKind := "installation".
Definition ProjectionInstallationRepositories : ProjectionKind := "installation_repositories".
Definition ProjectionPing : ProjectionKind := "ping".
Definition ProjectionIgnored : ProjectionKind := "ignored".

Record PullRequestProjection := mkPullRequestProjection {
  pp_Action : string;
  pp_InstallationID : Z;
  pp_RepositoryID : Z;
  pp_RepositoryOwnerID : Z;
  pp_BaseRepositoryOwner : string;
  pp_BaseRepositoryName : string;
  pp_PullRequestNumber : Z;
  pp_BaseSHA : string;
  pp_HeadSHA : string;
  pp_HeadRepositoryID : Z;
  pp_Draft : bool;
  pp_Closed : bool;
  pp_Merged : bool
}.
Record CheckRunProjection := mkCheckRunProjection {
  cp_Action : string;
  cp_InstallationID : Z;
  cp_RepositoryID : Z;
  cp_CheckRunID : Z;
  cp_HeadSHA : string;
  cp_AppID : Z;
  cp_ExternalID : string
}.
Record InstallationProjection := mkInstallationProjection {
  ip_Action : string;
  ip_InstallationID : Z;
  ip_RepositoryIDs : list Z
}.
Record WebhookProjection := mkWebhookProjection {
  wp_Kind : ProjectionKind;
  wp_PullRequest : option PullRequestProjection;
  wp_CheckRun : option CheckRunProjection;
  wp_Installation : option InstallationProjection
}.

(** The payloads as the decoder fills them; a member that is missing is zero. *)
Record RepoPayload := mkRepoPayload { rp_ID : Z; rp_Name : string; rp_OwnerLogin : string }.
Record PullRequestPayload := mkPullRequestPayload {
  prp_Action : string;
  prp_InstallationID : Z;
  prp_Repository : RepoPayload;
  prp_RepositoryOwnerID : Z;
  prp_Number : Z;
  prp_Draft : bool;
  prp_Merged : bool;
  prp_State : string;
  prp_BaseSHA : string;
  prp_BaseRepo : RepoPayload;
  prp_HeadSHA : string;
  prp_HeadRepo : RepoPayload
}.
Record CheckRunPayload := mkCheckRunPayload {
  crp_Action : string;
  crp_InstallationID : Z;
  crp_RepositoryID : Z;
  crp_ID : Z;
  crp_HeadSHA : string;
  crp_ExternalID : string;
  crp_AppID : Z
}.
Record InstallationPayload := mkInstallationPayload {
  ilp_Action : string;
  ilp_InstallationID : Z;
  ilp_Repositories : list Z
}.

Definition validRouteHint (s : string) : bool :=
  negb ((s == ""%string) || (256 <? str_len s) || (s == "."%string) || (s == ".."%string))
  && str_forallb (λ r, negb (is_control r || bool_decide (r ∈ [47; 63; 35; 92]))) s.

Definition projectPullRequest (l : Limits) (p : PullRequestPayload) : result AppError PullRequestProjection :=
  reject_if (prp_InstallationID p <=? 0) (errCode "invalid-installation-id" "projection" "installation id must be positive") ;;
  reject_if (rp_ID (prp_Repository p) <=? 0) (errCode "invalid-repository-id" "projection" "repository id must be positive") ;;
  reject_if (prp_Number p <=? 0) (errCode "invalid-pull-request-number" "projection" "pull request number must be positive") ;;
  reject_if (negb (validGitObjectID (prp_BaseSHA p)) || negb (validGitObjectID (prp_HeadSHA p)))
    (errCode "invalid-object-id" "projection" "base/head SHA must be full lowercase object id") ;;
  ClassifyWebhookAction "pull_request" (prp_Action p) ;;
  reject_if (l_MaxProjectionStringBytes l <? str_len (prp_Action p)) (errCode "projection-invalid" "projection" "action too large") ;;
  let owner := if rp_OwnerLogin (prp_BaseRepo p) == ""%string then rp_OwnerLogin (prp_Repository p) else rp_OwnerLogin (prp_BaseRepo p) in
  let name := if rp_Name (prp_BaseRepo p) == ""%string then rp_Name (prp_Repository p) else rp_Name (prp_BaseRepo p) in
  reject_if (negb (validRouteHint owner) || negb (validRouteHint name))
    (errCode "projection-invalid" "projection" "repository route hint rejected") ;;
  mret (mkPullRequestProjection (prp_Action p) (prp_InstallationID p) (rp_ID (prp_Repository p)) (prp_RepositoryOwnerID p)
          owner name (prp_Number p) (prp_BaseSHA p) (prp_HeadSHA p) (rp_ID (prp_HeadRepo p)) (prp_Draft p)
          (prp_State p == "closed"%string) (prp_Merged p)).

Definition projectCheckRun (l : Limits) (p : CheckRunPayload) : result AppError CheckRunProjection :=
  reject_if (crp_InstallationID p <=? 0) (errCode "invalid-installation-id" "projection" "installation id must be positive") ;;
  reject_if (crp_RepositoryID p <=? 0) (errCode "invalid-repository-id" "projection" "repository id must be positive") ;;
  reject_if ((crp_ID p <=? 0) || (crp_AppID p <=? 0)) (errCode "projection-invalid" "projection" "check run/app id must be positive") ;;
  reject_if (negb (validGitObjectID (crp_HeadSHA p))) (errCode "invalid-object-id" "projection" "head SHA must be full lowercase object id") ;;
  reject_if ((l_MaxExternalIDBytes l <? str_len (crp_ExternalID p)) || hasControl (crp_ExternalID p))
    (errCode "projection-invalid" "projection" "external id rejected") ;;
  mret (mkCheckRunProjection (crp_Action p) (crp_InstallationID p) (crp_RepositoryID p) (crp_ID p) (crp_HeadSHA p)
          (crp_AppID p) (crp_ExternalID p)).

Definition projectInstallation (p : InstallationPayload) : result AppError InstallationProjection :=
  reject_if (ilp_InstallationID p <=? 0) (errCode "invalid-installation-id" "projection" "installation id must be positive") ;;
  ids ← mapR (λ id, if id <=? 0 then Err (errCode "invalid-repository-id" "projection" "repository id must be positive") else Ok id)
          (ilp_Repositories p);
  mret (mkInstallationProjection (ilp_Action p) (ilp_InstallationID p) ids).

(** ** [signature.go] *)

Definition hex_value (c : ascii) : Z := if byte_val c <=? 57 then byte_val c - 48 else byte_val c - 87.
(** [hex.DecodeString] on lower-case hexadecimal digits *)
Fixpoint hex_decode (b : bytes) : bytes :=
  match b with h :: l :: b => byte_of (hex_value h * 16 + hex_value l) :: hex_decode b | _ => [] end.

Definition ParseGitHubSignatureHeader (header : string) (l : Limits) : result AppError bytes :=
  validateLimits l ;;
  reject_if (header == ""%string) (errCode "missing-signature" "signature" "signature header is required") ;;
  reject_if (l_MaxSignatureHeaderBytes l <? str_len header)
    (errCode "invalid-signature-format" "signature" "signature header is too large") ;;
  let digits := str_drop 7 header in
  reject_if (negb (bool_decide (str_len header = 7 + 64)) || negb (has_prefix "sha256=" header))
    (errCode "invalid-signature-format" "signature" "signature must be sha256 lowercase hex") ;;
  reject_if (negb (str_forallb is_lower_hex_digit digits))
    (errCode "invalid-signature-format" "signature" "signature must be lowercase hex") ;;
  mret (hex_decode (to_bytes digits)).

(** [crypto/hmac] over SHA-256, whose block is 64 bytes. *)
Definition hmacSHA256 (body secret : bytes) : bytes :=
  let key := if bool_decide (length secret <= 64)%nat then secret else sha256 secret in
  let key := key ++ replicate (64 - length key) (byte_of 0) in
  let pad v := (λ c, byte_of (Z.lxor (byte_val c) v)) <$> key in
  sha256 (pad 92 ++ sha256 (pad 54 ++ body)).

Record WebhookSecrets := mkWebhookSecrets { ws_Current : bytes; ws_Previous : bytes }.
Abbreviation SecretGeneration := string.
Definition SecretGenerationCurrent : SecretGeneration := "current".
Definition SecretGenerationPrevious : SecretGeneration := "previous".

Definition validateSecret (secret : bytes) (l : Limits) : result AppError unit :=
  let n := Z.of_nat (length secret) in
  reject_if ((n <? l_MinWebhookSecretBytes l) || (l_MaxWebhookSecretBytes l <? n))
    (errCode "invalid-secret-set" "signature" "webhook secret length is outside configured bounds").

Definition VerifyWebhookSignature (body : bytes) (signatureHeader : string) (secrets : WebhookSecrets) (l : Limits) :
    result AppError SecretGeneration :=
  validateLimits l ;;
  reject_if (l_MaxWebhookBodyBytes l <? Z.of_nat (length body))
    (errCode "body-too-large" "signature" "webhook body exceeds Glassroot intake bound") ;;
  validateSecret (ws_Current secrets) l ;;
  let previous := negb (bool_decide (ws_Previous secrets = [])) in
  (if previous then validateSecret (ws_Previous secrets) l else mret ()) ;;
  want ← ParseGitHubSignatureHeader signatureHeader l;
  let prev := if previous then hmacSHA256 body (ws_Previous secrets) else replicate 32 (byte_of 0) in
  if bool_decide (hmacSHA256 body (ws_Current secrets) = want) then Ok SecretGenerationCurrent
  else if previous && bool_decide (prev = want) then Ok SecretGenerationPrevious
  else Err (errCode "signature-mismatch" "signature" "signature did not match configured secret generations").

(** RFC 4231, test case 2 *)
Example hmac_jefe : hex_encode (hmacSHA256 (to_bytes "what do ya want for nothing?") (to_bytes "Jefe"))
  = "5bdcc146bf60754e6a042426089575c75a003f089d2739839dec58b964ec3843"%string.
Proof. vm_compute. reflexivity. Qed.

(** ** [delivery.go] *)

Record DeliveryReceipt := mkDeliveryReceipt {
  dr_SchemaVersion : string;
  dr_ReceiverID : string;
  dr_DeliveryID : string;
  dr_Event : string;
  dr_BodyDigest : string;
  dr_MatchedSecret : SecretGeneration;
  dr_ReceivedAt : Time;
  dr_InstallationTargetIdentity : string;
  dr_ProjectionKind : ProjectionKind;
  dr_Disposition : string
}.
Definition DeliveryDispositionEnqueued : string := "enqueued".
Definition DeliveryDispositionIgnored : string := "ignored".

Record DeliveryInboxRecord := mkDeliveryInboxRecord {
  di_ReceiverID : string; di_DeliveryID : string; di_BodyDigest : string; di_State : string }.

Inductive ReplayDecision := ReplayNew | ReplayDuplicateSameBody | ReplayDeliveryConflict.

(** The decision, the record and whether an error goes with them. *)
Definition DecideWebhookReplay (existing : option DeliveryInboxRecord) (incoming : DeliveryReceipt) :
    result AppError (ReplayDecision * DeliveryInboxRecord * option AppError) :=
  reject_if ((dr_ReceiverID incoming == ""%string) || (dr_DeliveryID incoming == ""%string) || negb (validateDigest (dr_BodyDigest incoming)))
    (errCode "projection-invalid" "replay" "receipt identity invalid") ;;
  match existing with
  | None => Ok (ReplayNew, mkDeliveryInboxRecord (dr_ReceiverID incoming) (dr_DeliveryID incoming) (dr_BodyDigest incoming) "persisted", None)
  | Some e =>
    reject_if ((di_ReceiverID e != dr_ReceiverID incoming) || (di_DeliveryID e != dr_DeliveryID incoming))
      (errCode "delivery-conflict" "replay" "replay key mismatch") ;;
    if di_BodyDigest e == dr_BodyDigest incoming then Ok (ReplayDuplicateSameBody, e, None)
    else Ok (ReplayDeliveryConflict, e,
             Some (errCode "delivery-conflict" "replay" "same delivery id had different body digest"))
  end.

(** ** [controller.go] *)

Inductive PRDecisionAction := PRDecisionSchedule | PRDecisionCancel | PRDecisionNoop | PRDecisionUnavailable.

Record PRGenerationState := mkPRGenerationState {
  pg_InstallationID : Z; pg_RepositoryID : Z; pg_PullRequestNumber : Z;
  pg_Generation : Z; pg_CurrentTargetID : string; pg_Cancelled : bool }.
Record CurrentPullRequestState := mkCurrentPullRequestState {
  cpr_InstallationID : Z; cpr_RepositoryID : Z; cpr_PullRequestNumber : Z; cpr_BaseRepositoryID : Z; cpr_HeadRepositoryID : Z;
  cpr_BaseSHA : string; cpr_HeadSHA : string; cpr_Draft : bool; cpr_Closed : bool; cpr_HeadInaccessible : bool }.
Record PRDecision := mkPRDecision {
  pd_Action : PRDecisionAction; pd_Generation : Z; pd_TargetID : string; pd_SupersededTargetID : string; pd_Reason : string }.

(** The error results return the state they were given. *)
Definition ReconcilePullRequestGeneration (existing : PRGenerationState) (projection : PullRequestProjection)
    (current : CurrentPullRequestState) (profile : string) : result AppError (PRDecision * PRGenerationState) :=
  reject_if ((pp_InstallationID projection <=? 0) || (cpr_InstallationID current != pp_InstallationID projection))
    (errCode "invalid-installation-id" "controller" "installation mismatch") ;;
  reject_if ((pp_RepositoryID projection <=? 0) || (cpr_RepositoryID current != pp_RepositoryID projection))
    (errCode "invalid-repository-id" "controller" "repository mismatch") ;;
  reject_if ((pp_PullRequestNumber projection <=? 0) || (cpr_PullRequestNumber current != pp_PullRequestNumber projection))
    (errCode "invalid-pull-request-number" "controller" "pull request mismatch") ;;
  reject_if ((0 <? pg_Generation existing)
             && ((pg_InstallationID existing != pp_InstallationID projection) || (pg_RepositoryID existing != pp_RepositoryID projection)
                 || (pg_PullRequestNumber existing != pp_PullRequestNumber projection)))
    (errCode "invalid-target" "controller" "generation key mismatch") ;;
  let keyed gen tid cancelled := mkPRGenerationState (pp_InstallationID projection) (pp_RepositoryID projection)
                                   (pp_PullRequestNumber projection) gen tid cancelled in
  let gen := pg_Generation existing in
  let tid := pg_CurrentTargetID existing in
  if cpr_Closed current || cpr_Draft current || (pp_Action projection == "closed"%string)
     || (pp_Action projection == "converted_to_draft"%string) then
    mret (mkPRDecision PRDecisionCancel gen tid "" "pull request closed or draft", keyed gen tid true)
  else if cpr_HeadInaccessible current then
    mret (mkPRDecision PRDecisionUnavailable gen "" "" "head commit inaccessible", keyed gen tid (pg_Cancelled existing))
  else
    target_id ← targetID (mkAnalysisTarget SchemaGitHubAnalysisTargetV1Alpha1 (cpr_InstallationID current)
                   (cpr_BaseRepositoryID current) (cpr_HeadRepositoryID current) (cpr_PullRequestNumber current)
                   (cpr_BaseSHA current) (cpr_HeadSHA current) profile);
    if (tid == target_id) && negb (pg_Cancelled existing) then
      mret (mkPRDecision PRDecisionNoop gen target_id "" "target already current", keyed gen tid (pg_Cancelled existing))
    else
      mret (mkPRDecision PRDecisionSchedule (inc64 gen) target_id tid "current PR state selected immutable target",
            keyed (inc64 gen) target_id false).

Record CheckRunMapping := mkCheckRunMapping {
  cm_CheckRunID : Z; cm_GitHubAppID : Z; cm_InstallationID : Z; cm_RepositoryID : Z; cm_ExternalID : string;
  cm_TargetID : string; cm_Generation : Z }.
Record RerequestDecision := mkRerequestDecision {
  rd_Accepted : bool; rd_Historical : bool; rd_TargetID : string; rd_Generation : Z; rd_AttemptReason : AttemptReason }.

Definition DecideCheckRunRerequest (projection : CheckRunProjection) (mapping : CheckRunMapping)
    (configuredAppID currentGeneration : Z) : result AppError RerequestDecision :=
  reject_if (cp_Action projection != "rerequested"%string)
    (errCode "unsupported-action" "rerequest" "only check_run rerequested is supported") ;;
  reject_if ((cm_CheckRunID mapping <=? 0) || (cm_CheckRunID mapping != cp_CheckRunID projection)
             || (cm_GitHubAppID mapping != configuredAppID) || (cp_AppID projection != configuredAppID)
             || (cm_InstallationID mapping != cp_InstallationID projection)
             || (cm_RepositoryID mapping != cp_RepositoryID projection) || (cm_ExternalID mapping == ""%string)
             || (cm_ExternalID mapping != cp_ExternalID projection) || negb (validateTargetID (cm_TargetID mapping)))
    (errCode "foreign-check-run" "rerequest" "check run mapping is unknown or foreign") ;;
  mret (mkRerequestDecision true (cm_Generation mapping <? currentGeneration) (cm_TargetID mapping) (cm_Generation mapping)
          AttemptReasonCheckRerequest).

(** ** [check.go] *)

Abbreviation CheckStatus := string.
Definition CheckStatusQueued : CheckStatus := "queued".
Definition CheckStatusInProgress : CheckStatus := "in_progress".
Definition CheckStatusCompleted : CheckStatus := "completed".
Abbreviation CheckConclusion := string.
Definition CheckConclusionNeutral : CheckConclusion := "neutral".
Definition CheckConclusionCancelled : CheckConclusion := "cancelled".

Record FindingCounts := mkFindingCounts { fc_Total : Z; fc_Passed : Z; fc_RequiresReview : Z; fc_Failed : Z }.
Record CheckOutput := mkCheckOutput { ck_Title : string; ck_Summary : string; ck_Text : string }.
Record CheckProjection := mkCheckProjection {
  ck_SchemaVersion : string;
  ck_Name : string;
  ck_Status : CheckStatus;
  ck_Conclusion : CheckConclusion;
  ck_HeadSHA : string;
  ck_ExternalID : string;
  ck_Output : CheckOutput;
  ck_DetailsURL : string;
  ck_Annotations : list string;
  ck_RequestedActions : list string
}.
Record CheckProjectionInput := mkCheckProjectionInput {
  ci_RepositoryID : Z;
  ci_HeadSHA : string;
  ci_AttemptID : string;
  ci_TargetID : string;
  ci_Generation : Z;
  ci_PolicyDisposition : Disposition;
  ci_EvidenceComplete : bool;
  ci_RunnerTier : RunnerTier;
  ci_FindingCounts : FindingCounts;
  ci_Status : CheckStatus;
  ci_SupersededOrCancelled : bool;
  ci_Limitations : list string
}.

Definition newline : string := String (byte_of 10) EmptyString.
Definition fmt_t (b : bool) : string := if b then "true" else "false".

Definition safeCheckSummary (i : CheckProjectionInput) : string :=
  "policy_disposition=" +:+ ci_PolicyDisposition i +:+ newline +:+
  "evidence_complete=" +:+ fmt_t (ci_EvidenceComplete i) +:+ newline +:+
  "runner_tier=" +:+ ci_RunnerTier i +:+ newline +:+
  "finding_total=" +:+ fmt_d (fc_Total (ci_FindingCounts i)) +:+ newline +:+
  "finding_failed=" +:+ fmt_d (fc_Failed (ci_FindingCounts i)) +:+ newline +:+
  "limitations=" +:+ fmt_d (Z.of_nat (length (ci_Limitations i))) +:+ newline +:+
  "neutral conclusion is advisory and not a safety proof".

Definition advisoryText : string :=
  "Glassroot advisory Check Runs are non-blocking. A neutral conclusion preserves the Glassroot policy disposition separately and is not a safety proof or merge approval. Public PR execution remains gated on a reviewed hardened runner.".

Definition ProjectAdvisoryCheck (i : CheckProjectionInput) : result AppError CheckProjection :=
  let bad msg := errCode "invalid-check-projection" "check" msg in
  reject_if ((ci_RepositoryID i <=? 0) || negb (validGitObjectID (ci_HeadSHA i)) || negb (validateAttemptID (ci_AttemptID i))
             || negb (validateTargetID (ci_TargetID i)) || (ci_Generation i <=? 0)) (bad "check projection identity invalid"%string) ;;
  reject_if ((ci_RunnerTier i == ""%string) || hasControl (ci_RunnerTier i)) (bad "runner tier invalid"%string) ;;
  reject_if ((ci_Status i != CheckStatusQueued) && (ci_Status i != CheckStatusInProgress) && (ci_Status i != CheckStatusCompleted))
    (bad "status invalid"%string) ;;
  let conclusion := if ci_Status i == CheckStatusCompleted then
                      if ci_SupersededOrCancelled i then CheckConclusionCancelled else CheckConclusionNeutral
                    else ""%string in
  let summary := safeCheckSummary i in
  let projection := mkCheckProjection SchemaGitHubCheckProjectionV1Alpha1 "Glassroot advisory" (ci_Status i) conclusion (ci_HeadSHA i)
      ("gr-" +:+ domainHash DomainCheckExternalID [fmt_d (ci_RepositoryID i); ci_AttemptID i; CheckProfileAdvisoryV1Alpha1])
      (mkCheckOutput "Glassroot advisory result" summary advisoryText) "" [] [] in
  let out := ck_Output projection in
  reject_if ((AbsoluteMaxCheckSummaryBytes <? str_len (ck_Summary out)) || (AbsoluteMaxCheckTextBytes <? str_len (ck_Text out))
             || (AbsoluteMaxCheckTitleBytes <? str_len (ck_Title out))) (bad "check output exceeds bounds"%string) ;;
  mret projection.

Record PublishCommand := mkPublishCommand {
  pc_SchemaVersion : string;
  pc_RepositoryID : Z;
  pc_HeadSHA : string;
  pc_AttemptID : string;
  pc_TargetID : string;
  pc_Generation : Z;
  pc_Projection : CheckProjection
}.

Definition ValidatePublishCommand (cmd : PublishCommand) (currentGeneration : Z) : result AppError unit :=
  let p := pc_Projection cmd in
  reject_if ((pc_SchemaVersion cmd != SchemaGitHubPublishCommandV1Alpha1) || (pc_RepositoryID cmd <=? 0)
             || negb (validGitObjectID (pc_HeadSHA cmd)) || negb (validateAttemptID (pc_AttemptID cmd))
             || negb (validateTargetID (pc_TargetID cmd)) || (pc_Generation cmd <=? 0))
    (errCode "publish-invariant" "publisher" "publish command identity invalid") ;;
  reject_if (pc_Generation cmd <? currentGeneration) (errCode "stale-generation" "publisher" "stale generation cannot publish") ;;
  reject_if ((ck_SchemaVersion p != SchemaGitHubCheckProjectionV1Alpha1) || (ck_Name p != "Glassroot advisory"%string)
             || negb (bool_decide (length (ck_Annotations p) = 0%nat)) || negb (bool_decide (length (ck_RequestedActions p) = 0%nat))
             || (ck_DetailsURL p != ""%string))
    (errCode "invalid-check-projection" "publisher" "projection features invalid") ;;
  reject_if ((ck_Conclusion p != ""%string) && (ck_Conclusion p != CheckConclusionNeutral)
             && (ck_Conclusion p != CheckConclusionCancelled))
    (errCode "invalid-check-conclusion" "publisher" "unsupported conclusion").

(** ** [worker.go] *)

Record WorkerAssignment := mkWorkerAssignment {
  wa_SchemaVersion : string;
  wa_AttemptID : string;
  wa_TargetID : string;
  wa_SourceStoreID : string;
  wa_BaseCommitID : string;
  wa_HeadCommitID : string;
  wa_PlanDigest : string;
  wa_RequiredRunnerTier : RunnerTier;
  wa_EvidenceOutputCapabilityID : string;
  wa_ControllerGeneration : Z;
  wa_Limitations : option (list string)
}.
Record WorkerResult := mkWorkerResult {
  wr_SchemaVersion : string;
  wr_AttemptID : string;
  wr_JobID : string;
  wr_TargetID : string;
  wr_Generation : Z;
  wr_CompletionState : string;
  wr_ReportDigest : string;
  wr_ManifestDigest : string;
  wr_PolicyApplicationDigest : string;
  wr_EffectiveDisposition : string;
  wr_RunnerTier : RunnerTier;
  wr_Limitations : list string
}.

(** [unicode.ToLower] as far as ASCII text can come out of it: besides the ASCII
    capitals, the Kelvin sign and the dotted capital I have ASCII lower cases. *)
Definition lower_rune (r : Z) : Z :=
  if (65 <=? r) && (r <=? 90) then r + 32
  else if bool_decide (r = 8490) then 107
  else if bool_decide (r = 304) then 105
  else r.
Fixpoint contains_runes (needle l : list Z) : bool :=
  bool_decide (take (length needle) l = needle) || match l with [] => false | _ :: l => contains_runes needle l end.
(** [strings.Contains(strings.ToLower(s), marker)] for an ASCII marker *)
Definition lower_contains (marker s : string) : bool := contains_runes (rune_values marker) (lower_rune <$> rune_values s).

Definition credentialMarkers : list string :=
  ["token"; "secret"; "private"; "ghs_"; "github.com"; "https://"; "http://"]%string.
Definition invalidCredentialLike (s : string) : bool :=
  (s == ""%string) || hasControl s || existsb (λ marker, lower_contains marker s) credentialMarkers.

Definition ValidateWorkerAssignment (a : WorkerAssignment) : result AppError unit :=
  let bad msg := errCode "invalid-worker-assignment" "worker" msg in
  reject_if ((wa_SchemaVersion a != SchemaGitHubWorkerAssignmentV1Alpha1) || negb (validateAttemptID (wa_AttemptID a))
             || negb (validateTargetID (wa_TargetID a)) || (wa_ControllerGeneration a <=? 0)) (bad "assignment identity invalid"%string) ;;
  reject_if ((wa_RequiredRunnerTier a != RunnerTierHardenedContainer) && (wa_RequiredRunnerTier a != RunnerTierMicroVM))
    (bad "public PR worker assignment requires hardened-container or microvm"%string) ;;
  reject_if (negb (validGitObjectID (wa_BaseCommitID a)) || negb (validGitObjectID (wa_HeadCommitID a))
             || negb (validateDigest (wa_PlanDigest a))) (bad "assignment source or plan invalid"%string) ;;
  reject_if (invalidCredentialLike (wa_SourceStoreID a) || invalidCredentialLike (wa_EvidenceOutputCapabilityID a))
    (errCode "credential-boundary-violation" "worker" "credential-like field rejected") ;;
  match wa_Limitations a with None => Err (bad "limitations must be non-null"%string) | Some _ => Ok () end.
