(* ===== verification/ControllerStore.v ===== *)
(** * The controller's store ([internal/githubcontrollerstore])

    What the controller knows, as tables: the deliveries it has processed, the
    leases on pull requests, the state and generation of every pull request, the
    jobs, attempts and source requests of its generations, and the checks it has
    published.  Each operation is one transaction ([Sql.Tx]); columns hold what
    the statements put there, timestamps as their RFC 3339 text. *)

From stdpp Require Import prelude gmap strings.
From Stdlib Require Import ZArith Lia Ascii.
From S2P Require Import Prelude GoStd Sha256 Framing GoTime Model Json GoText Sql GithubApp.
Local Open Scope Z_scope.

(** ** [errors.go] *)

Record StoreError := mkStoreError { se_Code : string; se_Stage : string; se_Msg : string }.
Definition errCode (code stage msg : string) : StoreError := mkStoreError code stage msg.
Definition txErr (stage msg : string) : StoreError := errCode "transaction-failed" stage msg.

(** ** [types.go] *)

Definition ControllerProfileAdvisoryV1Alpha1 : string := "glassroot.dev/github-controller-profile/advisory/v1alpha1".
Definition SchemaSourceImportRequestV1Alpha1 : string := "glassroot.dev/github-source-import-request/v1alpha1".
Definition DomainSourceImportRequestID : string := "glassroot.dev/github-source-import-request-id/v1" +:+ NUL.
Definition SourceImportProfileSmartHTTPShallowV1Alpha1 : string := "glassroot.dev/github-source-import/smart-http-shallow/v1alpha1".
Definition PullRequestSnapshotSchemaV1Alpha1 : string := "glassroot.dev/github-pull-request-snapshot/v1alpha1".

(** The limits the operations read; durations in nanoseconds. *)
Record Limits := mkLimits {
  l_MaxAttemptsPerJob : Z; l_ReconcileLeaseDuration : Z; l_SourceLeaseDuration : Z }.
Definition DefaultLimits : Limits := mkLimits 32 (30 * second) (5 * 60 * second).

(** The configuration of an open store. *)
Record Store := mkStore { st_receiverID : string; st_appID : Z; st_limits : Limits }.

Record PRKey := mkPRKey { k_InstallationID : Z; k_BaseRepositoryID : Z; k_PullRequestNumber : Z }.
#[global] Instance PRKey_eq_dec : EqDecision PRKey.
Proof. solve_decision. Defined.
#[global] Instance PRKey_countable : Countable PRKey.
Proof.
  apply (inj_countable' (λ k, (k_InstallationID k, k_BaseRepositoryID k, k_PullRequestNumber k))
           (λ '(i, b, n), mkPRKey i b n)).
  by intros [].
Defined.

Record ReconcileLease := mkReconcileLease {
  rl_Key : PRKey; rl_Owner : string; rl_Generation : Z; rl_AcquiredAt : GoTimeValue; rl_ExpiresAt : Time }.
Record ProcessedDelivery := mkProcessedDelivery {
  pd_ReceiverID : string; pd_OutboxID : string; pd_DeliveryID : string; pd_ProjectionKind : ProjectionKind;
  pd_ProjectionDigest : string; pd_ProcessedAt : GoTimeValue }.

Abbreviation PREligibility := string.
Definition PREligibilityEligible : PREligibility := "eligible".
Definition PREligibilityDraft : PREligibility := "draft".
Definition PREligibilityClosed : PREligibility := "closed".
Definition PREligibilitySourceUnavailable : PREligibility := "source-unavailable".
Definition PREligibilityInstallationBlocked : PREligibility := "installation-blocked".

Abbreviation ProcessingDecision := string.
Definition DecisionScheduledNewTarget : ProcessingDecision := "scheduled-new-target".
Definition DecisionNoChangeCurrentTarget : ProcessingDecision := "no-change-current-target".
Definition DecisionMarkedDraft : ProcessingDecision := "marked-draft".
Definition DecisionMarkedClosed : ProcessingDecision := "marked-closed".
Definition DecisionSourceUnavailable : ProcessingDecision := "source-unavailable".
Definition DecisionInstallationBlocked : ProcessingDecision := "installation-blocked".
Definition DecisionRerequestCreated : ProcessingDecision := "rerequest-created".
Definition DecisionRerequestIgnored : ProcessingDecision := "rerequest-ignored".
Definition DecisionInstallationHintRecorded : ProcessingDecision := "installation-hint-recorded".
Definition DecisionDuplicateProcessed : ProcessingDecision := "duplicate-processed".
Definition DecisionLegacyProjectionUnreconcilable : ProcessingDecision := "legacy-projection-unreconcilable".

Record ReconcileResult := mkReconcileResult {
  rr_Decision : ProcessingDecision; rr_Generation : Z; rr_TargetID : string; rr_JobID : string; rr_AttemptID : string;
  rr_SourceRequestID : string; rr_Eligibility : PREligibility }.
Definition decided (d : ProcessingDecision) : ReconcileResult := mkReconcileResult d 0 "" "" "" "" "".

Record CurrentPRState := mkCurrentPRState {
  cs_Key : PRKey; cs_Generation : Z; cs_Eligibility : PREligibility; cs_CurrentTargetID : string; cs_CurrentJobID : string;
  cs_BaseCommitID : string; cs_HeadCommitID : string; cs_HeadRepositoryID : Z; cs_BaseOwner : string; cs_BaseName : string }.
Record RouteHint := mkRouteHint { rh_RepositoryID : Z; rh_Owner : string; rh_Name : string; rh_CommitID : string }.

Abbreviation SourceRequestState := string.
Definition SourceStatePending : SourceRequestState := "pending".
Definition SourceStateLeased : SourceRequestState := "leased".
Definition SourceStateCompleted : SourceRequestState := "completed".
Definition SourceStateFailed : SourceRequestState := "failed".
Definition SourceStateSuperseded : SourceRequestState := "superseded".
Definition SourceStateCancelled : SourceRequestState := "cancelled".

Record SourceImportRequest := mkSourceImportRequest {
  sr_ID : string; sr_TargetID : string; sr_JobID : string; sr_Generation : Z; sr_InstallationID : Z;
  sr_PullRequestNumber : Z; sr_Base : RouteHint; sr_Head : RouteHint; sr_ControllerProfileVersion : string;
  sr_State : SourceRequestState; sr_CreatedAt : Time; sr_LeaseOwner : string; sr_LeaseGeneration : Z }.
Record SourceImportResult := mkSourceImportResult {
  si_RequestID : string; si_TargetID : string; si_JobID : string; si_Generation : Z; si_BaseRepositoryID : Z;
  si_HeadRepositoryID : Z; si_BaseCommitID : string; si_HeadCommitID : string; si_SourceStoreID : string;
  si_MetadataDigest : string; si_ImportProfileVersion : string; si_ObjectFormat : string; si_BaseTreeID : string;
  si_HeadTreeID : string; si_Limitations : list string; si_Failed : bool }.
Record CheckBinding := mkCheckBinding {
  cb_AppID : Z; cb_InstallationID : Z; cb_RepositoryID : Z; cb_PullRequestNumber : Z; cb_CheckRunID : Z;
  cb_ControllerGeneration : Z; cb_PublicationGeneration : Z; cb_ExternalID : string; cb_TargetID : string; cb_JobID : string }.
#[global] Instance CheckBinding_eq_dec : EqDecision CheckBinding.
Proof. solve_decision. Defined.

Inductive WorkerFreshness := FreshnessCurrentEligible | FreshnessStaleGeneration | FreshnessSupersededJob
  | FreshnessCancelledAttempt | FreshnessUnknownAttempt | FreshnessUnexpectedResult | FreshnessInvalidRunnerTier.

(** *** [internal/githubapi]: what is read of a pull request *)

Definition PullRequestStateOpen : string := "open".
Definition PullRequestStateClosed : string := "closed".
Record PullRequestEndpoint := mkPullRequestEndpoint {
  ep_RepositoryID : Z; ep_Owner : string; ep_Name : string; ep_CommitID : string; ep_Available : bool }.
Record PullRequestSnapshot := mkPullRequestSnapshot {
  ps_SchemaVersion : string; ps_Number : Z; ps_State : string; ps_Draft : bool; ps_Merged : bool;
  ps_Base : PullRequestEndpoint; ps_Head : PullRequestEndpoint }.

Record PullRequestReconcileInput := mkPullRequestReconcileInput {
  pi_Processed : ProcessedDelivery; pi_Lease : ReconcileLease; pi_Snapshot : PullRequestSnapshot; pi_Now : GoTimeValue }.
Record RerequestInput := mkRerequestInput {
  ri_Processed : ProcessedDelivery; ri_Lease : ReconcileLease; ri_Projection : CheckRunProjection;
  ri_SnapshotEligible : bool; ri_SnapshotTargetID : string; ri_Now : GoTimeValue; ri_ConfiguredAppID : Z }.
Record InstallationHintInput := mkInstallationHintInput {
  ii_Processed : ProcessedDelivery; ii_Projection : InstallationProjection; ii_Now : GoTimeValue }.

(** ** [schema.go]: the tables

    A table with a primary key is a map from it; [sequence] is an autoincremented
    key that orders a table whose rows are never deleted: its rows are a list.  A
    nullable column is an option; a column of JSON is the value it serialises. *)

Record ProcessedRow := mkProcessedRow {
  pw_DeliveryID : string; pw_ProjectionKind : string; pw_ProjectionDigest : string; pw_Decision : string;
  pw_Generation : option Z; pw_TargetID : option string; pw_JobID : option string; pw_ProcessedAt : string; pw_RecordDigest : string }.
Record LeaseRow := mkLeaseRow { lw_Owner : string; lw_Generation : Z; lw_AcquiredAt : string; lw_ExpiresAt : string }.
Record PRRow := mkPRRow {
  pw_Gen : Z; pw_Eligibility : PREligibility; pw_Target : option string; pw_Job : option string;
  pw_BaseOwner : option string; pw_BaseName : option string; pw_BaseCommitID : option string;
  pw_HeadRepositoryID : option Z; pw_HeadCommitID : option string; pw_UpdatedAt : string }.
Record JobRow := mkJobRow {
  jw_TargetID : string; jw_Generation : Z; jw_State : JobState; jw_Tiers : list RunnerTier; jw_Job : AnalysisJob; jw_CreatedAt : string }.
Record AttemptRow := mkAttemptRow {
  aw_JobID : string; aw_TargetID : string; aw_Generation : Z; aw_Number : Z; aw_Reason : AttemptReason;
  aw_State : AttemptState; aw_CreatedAt : string }.
(** The columns an import result fills. *)
Record ResultColumns := mkResultColumns {
  rc_CompletedAt : option string; rc_SourceStoreID : option string; rc_MetadataDigest : option string;
  rc_ImportProfileVersion : option string; rc_ObjectFormat : option string; rc_BaseTreeID : option string;
  rc_HeadTreeID : option string; rc_Limitations : option string }.
Definition noResult : ResultColumns := mkResultColumns None None None None None None None None.
Record SourceRow := mkSourceRow {
  sw_RequestID : string; sw_TargetID : string; sw_JobID : string; sw_Generation : Z; sw_InstallationID : Z;
  sw_PullRequestNumber : Z; sw_Base : RouteHint; sw_Head : RouteHint; sw_State : SourceRequestState;
  sw_LeaseOwner : option string; sw_LeaseGeneration : Z; sw_LeaseExpiresAt : option string; sw_AttemptCount : Z;
  sw_CreatedAt : string; sw_Result : ResultColumns }.

Record DB := mkDB {
  db_processed : gmap (string * string) ProcessedRow;
  db_leases : gmap PRKey LeaseRow;
  db_prs : gmap PRKey PRRow;
  db_targets : gmap string (AnalysisTarget * string);
  db_jobs : gmap string JobRow;
  db_attempts : gmap string AttemptRow;
  db_sources : list SourceRow;
  db_bindings : gmap (Z * Z * Z) CheckBinding
}.
Definition emptyDB : DB := mkDB ∅ ∅ ∅ ∅ ∅ ∅ [] ∅.

Definition set_processed f d := mkDB (f (db_processed d)) (db_leases d) (db_prs d) (db_targets d) (db_jobs d) (db_attempts d) (db_sources d) (db_bindings d).
Definition set_leases f d := mkDB (db_processed d) (f (db_leases d)) (db_prs d) (db_targets d) (db_jobs d) (db_attempts d) (db_sources d) (db_bindings d).
Definition set_prs f d := mkDB (db_processed d) (db_leases d) (f (db_prs d)) (db_targets d) (db_jobs d) (db_attempts d) (db_sources d) (db_bindings d).
Definition set_targets f d := mkDB (db_processed d) (db_leases d) (db_prs d) (f (db_targets d)) (db_jobs d) (db_attempts d) (db_sources d) (db_bindings d).
Definition set_jobs f d := mkDB (db_processed d) (db_leases d) (db_prs d) (db_targets d) (f (db_jobs d)) (db_attempts d) (db_sources d) (db_bindings d).
Definition set_attempts f d := mkDB (db_processed d) (db_leases d) (db_prs d) (db_targets d) (db_jobs d) (f (db_attempts d)) (db_sources d) (db_bindings d).
Definition set_sources f d := mkDB (db_processed d) (db_leases d) (db_prs d) (db_targets d) (db_jobs d) (db_attempts d) (f (db_sources d)) (db_bindings d).
Definition set_bindings f d := mkDB (db_processed d) (db_leases d) (db_prs d) (db_targets d) (db_jobs d) (db_attempts d) (db_sources d) (f (db_bindings d)).

Definition with_job_state (s : JobState) (j : JobRow) : JobRow := 
  mkJobRow (jw_TargetID j) (jw_Generation j) s (jw_Tiers j) (jw_Job j) (jw_CreatedAt j).
Definition with_attempt_state (s : AttemptState) (a : AttemptRow) : AttemptRow :=
  mkAttemptRow (aw_JobID a) (aw_TargetID a) (aw_Generation a) (aw_Number a) (aw_Reason a) s (aw_CreatedAt a).
Definition with_source_state (s : SourceRequestState) (r : SourceRow) : SourceRow :=
  mkSourceRow (sw_RequestID r) (sw_TargetID r) (sw_JobID r) (sw_Generation r) (sw_InstallationID r) (sw_PullRequestNumber r)
    (sw_Base r) (sw_Head r) s (sw_LeaseOwner r) (sw_LeaseGeneration r) (sw_LeaseExpiresAt r) (sw_AttemptCount r)
    (sw_CreatedAt r) (sw_Result r).

(** [UPDATE jobs SET state=? WHERE job_id=? AND ...], and the same for the other tables. *)
Definition update_job (job_id : string) (p : JobRow → bool) (s : JobState) (d : DB) : DB :=
  set_jobs (alter (λ j, if p j then with_job_state s j else j) job_id) d.
Definition update_attempts (p : AttemptRow → bool) (s : AttemptState) (d : DB) : DB :=
  set_attempts (fmap (λ a, if p a then with_attempt_state s a else a)) d.
Definition update_sources (p : SourceRow → bool) (f : SourceRow → SourceRow) (d : DB) : DB :=
  set_sources (fmap (λ r, if p r then f r else r)) d.

(** ** [store.go]: helpers *)

(** An empty string and a zero are stored as NULL. *)
Definition nullable (s : string) : option string := if s == ""%string then None else Some s.
Definition nullableInt (i : Z) : option Z := if i == 0 then None else Some i.
Definition formatTime (t : Time) : string := format_rfc3339 t.
(** [time.Parse] fails on nothing [formatTime] wrote; a failure gives the zero time. *)
Definition parseTime (s : string) : Time := default zero_time (parse_time20 s).

Definition validID (s : string) : bool :=
  match to_bytes s with
  | [] => false
  | c :: _ =>
    (str_len s <=? 64) && (97 <=? byte_val c) && (byte_val c <=? 122)
    && str_forallb (λ r, ((97 <=? r) && (r <=? 122)) || ((48 <=? r) && (r <=? 57)) || bool_decide (r ∈ [46; 95; 45])) s
  end.
Definition validDigest (s : string) : bool := validateDigest s.
Definition sourceRequestID (targetID jobID : string) (generation : Z) : string :=
  "source-" +:+ domainHash DomainSourceImportRequestID [targetID; jobID; fmt_d generation].
Definition recordDigest (p : ProcessedDelivery) (r : ReconcileResult) : string :=
  "sha256:" +:+ domainHash ("glassroot.dev/github-controller-processed/v1" +:+ NUL)
    [pd_ReceiverID p; pd_OutboxID p; pd_ProjectionDigest p; rr_Decision r; fmt_d (rr_Generation r); rr_TargetID r; rr_JobID r].

Definition validatePRKey (k : PRKey) : result StoreError unit :=
  reject_if ((k_InstallationID k <=? 0) || (k_BaseRepositoryID k <=? 0) || (k_PullRequestNumber k <=? 0))
    (errCode "record-invalid" "pr-key" "pr key rejected").

Definition eligibilityFor (s : PullRequestSnapshot) : PREligibility :=
  if (ps_State s == PullRequestStateClosed) || ps_Merged s then PREligibilityClosed
  else if ps_Draft s then PREligibilityDraft
  else if negb (ep_Available (ps_Head s)) || (ep_RepositoryID (ps_Head s) <=? 0) || (ep_CommitID (ps_Head s) == ""%string)
  then PREligibilitySourceUnavailable
  else PREligibilityEligible.

(** ** [store.go]: statements *)

Abbreviation StoreTx := (Tx DB StoreError).

(** The result of a delivery that was processed before, if it was. *)
Definition checkProcessed (p : ProcessedDelivery) : StoreTx (option ReconcileResult) :=
  row ← query (txErr "processed" "processed read failed") (λ d, db_processed d !! (pd_ReceiverID p, pd_OutboxID p));
  match row with
  | None => mret None
  | Some w =>
    guard (pw_ProjectionDigest w != pd_ProjectionDigest p)
      (errCode "processed-delivery-conflict" "processed" "processed digest conflict") ;;
    mret (Some (mkReconcileResult DecisionDuplicateProcessed (default 0 (pw_Generation w)) (default ""%string (pw_TargetID w))
                  (default ""%string (pw_JobID w)) "" "" ""))
  end.

Definition insertProcessed (p : ProcessedDelivery) (r : ReconcileResult) : StoreTx unit :=
  insert_if (txErr "processed" "processed insert failed")
    (λ d, bool_decide (db_processed d !! (pd_ReceiverID p, pd_OutboxID p) = None))
    (set_processed (<[(pd_ReceiverID p, pd_OutboxID p) :=
       mkProcessedRow (pd_DeliveryID p) (pd_ProjectionKind p) (pd_ProjectionDigest p) (rr_Decision r)
         (nullableInt (rr_Generation r)) (nullable (rr_TargetID r)) (nullable (rr_JobID r))
         (formatTime (gt_instant (pd_ProcessedAt p))) (recordDigest p r)]>)).

(** Generation 0 stands for a pull request without a row. *)
Definition currentOf (key : PRKey) (row : option PRRow) : CurrentPRState :=
  match row with
  | None => mkCurrentPRState key 0 "" "" "" "" "" 0 "" ""
  | Some w =>
    mkCurrentPRState key (pw_Gen w) (pw_Eligibility w) (default ""%string (pw_Target w)) (default ""%string (pw_Job w))
      (default ""%string (pw_BaseCommitID w)) (default ""%string (pw_HeadCommitID w)) (default 0 (pw_HeadRepositoryID w))
      (default ""%string (pw_BaseOwner w)) (default ""%string (pw_BaseName w))
  end.
Definition readCurrent (key : PRKey) : StoreTx CurrentPRState :=
  query (txErr "state" "current state read failed") (λ d, currentOf key (db_prs d !! key)).

Definition live_job (j : JobRow) : bool := negb (bool_decide (jw_State j ∈ jobTerminalStates)).
Definition live_attempt (a : AttemptRow) : bool := negb (bool_decide (aw_State a ∈ attemptTerminalStates)).
Definition live_source (r : SourceRow) : bool := bool_decide (sw_State r ∈ [SourceStatePending; SourceStateLeased]).

(** [supersedeCurrent] and [cancelCurrentJob] end what is live of a job. *)
Definition endJob (job_err attempt_err source_err : StoreError) (job_id : string) (js : JobState) (ss : SourceRequestState) :
    StoreTx unit :=
  exec job_err (update_job job_id live_job js) ;;
  exec attempt_err (update_attempts (λ a, (aw_JobID a == job_id) && live_attempt a) AttemptStateCancelled) ;;
  exec source_err (update_sources (λ r, (sw_JobID r == job_id) && live_source r) (with_source_state ss)).
Definition supersedeCurrent (cur : CurrentPRState) : StoreTx unit :=
  if cs_CurrentJobID cur != ""%string then
    endJob (txErr "job" "job supersede failed") (txErr "attempt" "attempt cancel failed") (txErr "source" "source supersede failed")
      (cs_CurrentJobID cur) JobStateSuperseded SourceStateSuperseded
  else mret ().
Definition cancelCurrentJob (job_id : string) : StoreTx unit :=
  endJob (txErr "installation" "job cancel failed") (txErr "installation" "attempt cancel failed")
    (txErr "installation" "source cancel failed") job_id JobStateCancelled SourceStateCancelled.

Definition releaseReconcileLease (l : ReconcileLease) : StoreTx unit :=
  call (txErr "lease" "lease release failed") ;;
  row ← gets (λ d, db_leases d !! rl_Key l);
  guard (match row with Some w => (lw_Owner w != rl_Owner l) || (lw_Generation w != rl_Generation l) | None => true end)
    (errCode "reconcile-lease-stale" "lease" "lease release rejected") ;;
  puts (set_leases (delete (rl_Key l))).

Definition sourceStates : list SourceRequestState :=
  [SourceStatePending; SourceStateLeased; SourceStateCompleted; SourceStateFailed; SourceStateSuperseded; SourceStateCancelled].
Definition validRoute (r : RouteHint) : bool := validRouteHint (rh_Owner r) && validRouteHint (rh_Name r).

Definition validateSourceImportRequest (r : SourceImportRequest) : result StoreError unit :=
  reject_if ((sr_ID r == ""%string) || (sr_TargetID r == ""%string) || (sr_JobID r == ""%string) || (sr_Generation r <=? 0)
             || (sr_InstallationID r <=? 0) || (sr_PullRequestNumber r <=? 0)
             || (sr_ControllerProfileVersion r != ControllerProfileAdvisoryV1Alpha1))
    (errCode "record-invalid" "source" "source request rejected") ;;
  reject_if ((rh_RepositoryID (sr_Base r) <=? 0) || (rh_RepositoryID (sr_Head r) <=? 0)
             || negb (validRoute (sr_Base r)) || negb (validRoute (sr_Head r))
             || negb (validGitObjectID (rh_CommitID (sr_Base r))) || negb (validGitObjectID (rh_CommitID (sr_Head r))))
    (errCode "record-invalid" "source" "source request identity rejected") ;;
  reject_if (negb (bool_decide (sr_State r ∈ sourceStates)))
    (errCode "record-invalid" "source" "source request state rejected").

Definition insertSourceRequest (r : SourceImportRequest) : StoreTx unit :=
  lift (validateSourceImportRequest r) ;;
  insert_if (txErr "source" "source insert failed")
    (λ d, forallb (λ w, sw_RequestID w != sr_ID r) (db_sources d))
    (set_sources (λ rows, rows ++ [mkSourceRow (sr_ID r) (sr_TargetID r) (sr_JobID r) (sr_Generation r) (sr_InstallationID r)
       (sr_PullRequestNumber r) (sr_Base r) (sr_Head r) (sr_State r) None 0 None 0 (formatTime (sr_CreatedAt r)) noResult])).

Definition insertAttempt (stage msg : string) (a : AnalysisAttempt) (now : Time) : StoreTx unit :=
  insert_if (txErr stage msg)
    (λ d, bool_decide (db_attempts d !! aa_ID a = None)
          && bool_decide (map_Forall (λ _ w, ¬ (aw_JobID w = aa_JobID a ∧ aw_Number w = aa_AttemptNumber a)) (db_attempts d)))
    (set_attempts (<[aa_ID a := mkAttemptRow (aa_JobID a) (aa_TargetID a) (aa_Generation a) (aa_AttemptNumber a) (aa_Reason a)
       AttemptStateQueued (formatTime now)]>)).

Definition insertTargetJobAttemptSource (target : AnalysisTarget) (job : AnalysisJob) (attempt : AnalysisAttempt)
    (srcID : string) (snap : PullRequestSnapshot) (now : Time) : StoreTx unit :=
  exec (txErr "target" "target insert failed")
    (set_targets (λ m, if m !! aj_TargetID job is Some _ then m else <[aj_TargetID job := (target, formatTime now)]> m)) ;;
  insert_if (txErr "job" "job insert failed") (λ d, bool_decide (db_jobs d !! aj_ID job = None))
    (set_jobs (<[aj_ID job := mkJobRow (aj_TargetID job) (aj_Generation job) JobStateImportingSource
       [RunnerTierHardenedContainer; RunnerTierMicroVM] job (formatTime now)]>)) ;;
  insertAttempt "attempt" "attempt insert failed" attempt now ;;
  let route e := mkRouteHint (ep_RepositoryID e) (ep_Owner e) (ep_Name e) (ep_CommitID e) in
  insertSourceRequest (mkSourceImportRequest srcID (aj_TargetID job) (aj_ID job) (aj_Generation job)
    (at_InstallationID target) (ps_Number snap) (route (ps_Base snap)) (route (ps_Head snap))
    ControllerProfileAdvisoryV1Alpha1 SourceStatePending now "" 0).

(** ** [store.go]: operations *)

Definition lift_err {A} (e : StoreError) (r : result AppError A) : StoreTx A := match r with Ok a => mret a | Err _ => fail e end.

Definition AcquireReconcileLease (s : Store) (key : PRKey) (owner : string) (now : GoTimeValue) (duration : Z) : StoreTx ReconcileLease :=
  lift (validatePRKey key) ;;
  guard (negb (validID owner) || negb (valid_utc now) || (duration <=? 0) || (l_ReconcileLeaseDuration (st_limits s) <? duration))
    (errCode "record-invalid" "lease" "lease inputs rejected") ;;
  let expires := gt_instant now + duration in
  transaction (txErr "lease" "lease transaction failed") (
    row ← query (txErr "lease" "lease read failed") (λ d, db_leases d !! key);
    gen ← match row with
          | None =>
            exec (txErr "lease" "lease insert failed")
              (set_leases (<[key := mkLeaseRow owner 1 (formatTime (gt_instant now)) (formatTime expires)]>)) ;;
            mret 1
          | Some w =>
            guard (gt_instant now <? parseTime (lw_ExpiresAt w)) (errCode "reconcile-lease-busy" "lease" "reconcile lease busy") ;;
            guard (lw_Generation w == MaxInt64) (errCode "generation-overflow" "lease" "lease generation overflow") ;;
            exec (txErr "lease" "lease update failed")
              (set_leases (<[key := mkLeaseRow owner (lw_Generation w + 1) (formatTime (gt_instant now)) (formatTime expires)]>)) ;;
            mret (lw_Generation w + 1)
          end;
    mret (mkReconcileLease key owner gen now expires, Some (txErr "lease" "lease commit failed"))).

Definition validateInput (s : Store) (i : PullRequestReconcileInput) : result StoreError unit :=
  let p := pi_Processed i in
  let l := pi_Lease i in
  let snap := pi_Snapshot i in
  reject_if ((pd_ReceiverID p != st_receiverID s) || (pd_OutboxID p == ""%string) || (pd_DeliveryID p == ""%string)
             || negb (validDigest (pd_ProjectionDigest p)) || (pd_ProjectionKind p != ProjectionPullRequest)
             || negb (valid_utc (pd_ProcessedAt p)))
    (errCode "record-invalid" "processed" "processed delivery rejected") ;;
  validatePRKey (rl_Key l) ;;
  reject_if (negb (validID (rl_Owner l)) || (rl_Generation l <=? 0) || negb (valid_utc (pi_Now i))
             || (rl_ExpiresAt l <? gt_instant (pi_Now i)))
    (errCode "reconcile-lease-stale" "lease" "reconcile lease stale") ;;
  reject_if ((ps_SchemaVersion snap != ""%string) && (ps_SchemaVersion snap != PullRequestSnapshotSchemaV1Alpha1))
    (errCode "record-invalid" "snapshot" "snapshot schema rejected") ;;
  reject_if ((ps_Number snap != k_PullRequestNumber (rl_Key l)) || (ep_RepositoryID (ps_Base snap) != k_BaseRepositoryID (rl_Key l)))
    (errCode "record-invalid" "snapshot" "snapshot identity mismatch").

Definition snapshotTarget (key : PRKey) (snap : PullRequestSnapshot) : AnalysisTarget :=
  mkAnalysisTarget SchemaGitHubAnalysisTargetV1Alpha1 (k_InstallationID key) (ep_RepositoryID (ps_Base snap))
    (ep_RepositoryID (ps_Head snap)) (ps_Number snap) (ep_CommitID (ps_Base snap)) (ep_CommitID (ps_Head snap))
    ControllerProfileAdvisoryV1Alpha1.

(** What a snapshot decides, before the state is written: whether the state stays. *)
Record Plan := mkPlan { pn_same : bool; pn_result : ReconcileResult }.

(** A new generation for an eligible snapshot. *)
Definition scheduleTarget (i : PullRequestReconcileInput) (current : CurrentPRState) (target : AnalysisTarget) (target_id : string) :
    StoreTx Plan :=
  guard (cs_Generation current == MaxInt64) (errCode "generation-overflow" "generation" "generation overflow") ;;
  let gen := cs_Generation current + 1 in
  supersedeCurrent current ;;
  job ← lift_err (errCode "record-invalid" "job" "job invalid")
          (NewAnalysisJob target gen ControllerProfileAdvisoryV1Alpha1 RunnerTierHardenedContainer);
  attempt ← lift_err (errCode "record-invalid" "attempt" "attempt invalid") (NewAnalysisAttempt job 1 AttemptReasonInitial);
  let src := sourceRequestID target_id (aj_ID job) gen in
  insertTargetJobAttemptSource target job attempt src (pi_Snapshot i) (gt_instant (pi_Now i)) ;;
  mret (mkPlan false (mkReconcileResult DecisionScheduledNewTarget gen target_id (aj_ID job) (aa_ID attempt) src
          PREligibilityEligible)).

Definition reconcilePlan (i : PullRequestReconcileInput) (current : CurrentPRState) : StoreTx Plan :=
  let snap := pi_Snapshot i in
  let eligibility := eligibilityFor snap in
  if eligibility == PREligibilityEligible then
    let target := snapshotTarget (rl_Key (pi_Lease i)) snap in
    target_id ← lift_err (errCode "record-invalid" "target" "target invalid") (targetID target);
    if (cs_Eligibility current == PREligibilityEligible) && (cs_CurrentTargetID current == target_id) then
      mret (mkPlan true (mkReconcileResult DecisionNoChangeCurrentTarget (cs_Generation current) target_id
              (cs_CurrentJobID current) "" "" eligibility))
    else scheduleTarget i current target target_id
  else
    gen ← (if (cs_Generation current == 0) || (cs_Eligibility current != eligibility) then
             guard (cs_Generation current == MaxInt64) (errCode "generation-overflow" "generation" "generation overflow") ;;
             supersedeCurrent current ;;
             mret (cs_Generation current + 1)
           else mret (cs_Generation current));
    let decision := if eligibility == PREligibilityDraft then DecisionMarkedDraft
                    else if eligibility == PREligibilityClosed then DecisionMarkedClosed else DecisionSourceUnavailable in
    mret (mkPlan false (mkReconcileResult decision gen "" "" "" "" eligibility)).

Definition upsertPR (i : PullRequestReconcileInput) (r : ReconcileResult) : StoreTx unit :=
  let snap := pi_Snapshot i in
  exec (txErr "reconcile" "state upsert failed")
    (set_prs (<[rl_Key (pi_Lease i) :=
       mkPRRow (rr_Generation r) (rr_Eligibility r) (nullable (rr_TargetID r)) (nullable (rr_JobID r))
         (nullable (ep_Owner (ps_Base snap))) (nullable (ep_Name (ps_Base snap))) (nullable (ep_CommitID (ps_Base snap)))
         (nullableInt (ep_RepositoryID (ps_Head snap))) (nullable (ep_CommitID (ps_Head snap)))
         (formatTime (gt_instant (pi_Now i)))]>)).

(** The body of a transaction: its result, and the error of its commit. *)
Abbreviation Body := (StoreTx (ReconcileResult * option StoreError)).

(** What follows the check of the delivery, in an operation that holds a lease: a
    duplicate only gives the lease back. *)
Definition underLease (stage : string) (p : ProcessedDelivery) (l : ReconcileLease) (fresh : Body) : Body :=
  seen ← checkProcessed p;
  match seen with
  | Some res => releaseReconcileLease l ;; mret (res, Some (txErr stage "duplicate commit failed"))
  | None => fresh
  end.

(** Record the decision and give the lease back. *)
Definition settle (p : ProcessedDelivery) (l : ReconcileLease) (res : ReconcileResult) (commit_err : StoreError) : Body :=
  insertProcessed p res ;; releaseReconcileLease l ;; mret (res, Some commit_err).

Definition ApplyPullRequestSnapshot (s : Store) (i : PullRequestReconcileInput) : StoreTx ReconcileResult :=
  lift (validateInput s i) ;;
  transaction (txErr "reconcile" "reconcile transaction failed") (
    underLease "reconcile" (pi_Processed i) (pi_Lease i) (
      current ← readCurrent (rl_Key (pi_Lease i));
      plan ← reconcilePlan i current;
      (if pn_same plan then mret () else upsertPR i (pn_result plan)) ;;
      settle (pi_Processed i) (pi_Lease i) (pn_result plan) (txErr "reconcile" "reconcile commit failed"))).

(** A delivery without a lease: a duplicate writes nothing. *)
Definition recordOnce (p : ProcessedDelivery) (fresh : Body) : Body :=
  seen ← checkProcessed p;
  match seen with Some res => mret (res, None) | None => fresh end.

Definition RecordProcessingDecision (s : Store) (p : ProcessedDelivery) (decision : ProcessingDecision) (when : GoTimeValue) :
    StoreTx ReconcileResult :=
  guard ((pd_ReceiverID p != st_receiverID s) || (pd_OutboxID p == ""%string) || negb (validDigest (pd_ProjectionDigest p))
         || negb (valid_utc when))
    (errCode "record-invalid" "processed" "processed decision rejected") ;;
  transaction (txErr "processed" "decision tx failed") (recordOnce p (
    insertProcessed (mkProcessedDelivery (pd_ReceiverID p) (pd_OutboxID p) (pd_DeliveryID p) (pd_ProjectionKind p)
                       (pd_ProjectionDigest p) when) (decided decision) ;;
    mret (decided decision, Some (txErr "processed" "decision commit failed")))).

(** [sql.ErrNoRows] when the pull request has no row; a failed commit is ignored. *)
Definition GetCurrentPRState (key : PRKey) : StoreTx CurrentPRState :=
  transaction (txErr "state" "state tx failed") (
    cur ← readCurrent key;
    guard (cs_Generation cur == 0) (errCode "no-rows" "" "") ;;
    mret (cur, None)).

(** ** [installation.go] *)

Definition installationHintInvalidates (p : InstallationProjection) : bool :=
  bool_decide (ip_Action p ∈ ["deleted"; "suspend"; "suspended"; "removed"; "repositories_removed"]%string).
Definition repositoryAffectedByHint (p : InstallationProjection) (repositoryID : Z) : bool :=
  bool_decide (ip_Action p ∈ ["deleted"; "suspend"; "suspended"]%string) || bool_decide (repositoryID ∈ ip_RepositoryIDs p).

(** The eligible pull requests of the installation that the hint affects. *)
Definition rowsToBlock (p : InstallationProjection) (d : DB) : list (PRKey * PRRow) :=
  filter (λ '(k, w), k_InstallationID k = ip_InstallationID p ∧ pw_Eligibility w = PREligibilityEligible
            ∧ repositoryAffectedByHint p (k_BaseRepositoryID k) = true) (map_to_list (db_prs d)).

Definition blockRow (now : Time) (k : PRKey) (w : PRRow) : StoreTx unit :=
  guard (pw_Gen w == MaxInt64) (errCode "generation-overflow" "installation" "generation overflow") ;;
  (if pw_Job w is Some job then cancelCurrentJob job else mret ()) ;;
  exec (txErr "installation" "installation state update failed")
    (set_prs (alter (λ r, if pw_Gen r == pw_Gen w then
       mkPRRow (pw_Gen w + 1) PREligibilityInstallationBlocked None None (pw_BaseOwner r) (pw_BaseName r)
         (pw_BaseCommitID r) (pw_HeadRepositoryID r) (pw_HeadCommitID r) (formatTime now) else r) k)).

Fixpoint blockRows (now : Time) (rows : list (PRKey * PRRow)) : StoreTx unit :=
  match rows with
  | [] => mret ()
  | (k, w) :: rows => blockRow now k w ;; blockRows now rows
  end.

(** The number of pull requests it blocked. *)
Definition invalidateInstallationRows (i : InstallationHintInput) : StoreTx nat :=
  rows ← query (txErr "installation" "installation state scan failed") (rowsToBlock (ii_Projection i));
  blockRows (gt_instant (ii_Now i)) rows ;;
  mret (length rows).

Definition ApplyInstallationHint (s : Store) (i : InstallationHintInput) : StoreTx ReconcileResult :=
  let p := ii_Processed i in
  guard ((pd_ReceiverID p != st_receiverID s) || (pd_OutboxID p == ""%string) || negb (validDigest (pd_ProjectionDigest p))
         || negb (valid_utc (pd_ProcessedAt p)) || negb (valid_utc (ii_Now i)) || (ip_InstallationID (ii_Projection i) <=? 0))
    (errCode "record-invalid" "installation" "installation hint rejected") ;;
  guard ((pd_ProjectionKind p != ProjectionInstallation) && (pd_ProjectionKind p != ProjectionInstallationRepositories))
    (errCode "record-invalid" "installation" "installation projection kind rejected") ;;
  transaction (txErr "installation" "installation tx failed") (recordOnce p (
    affected ← (if installationHintInvalidates (ii_Projection i) then invalidateInstallationRows i else mret 0%nat);
    let res := decided (if bool_decide (0 < affected)%nat then DecisionInstallationBlocked else DecisionInstallationHintRecorded) in
    insertProcessed p res ;;
    mret (res, Some (txErr "installation" "installation commit failed")))).

(** ** [rerequest.go] *)

Definition bindingKey (b : CheckBinding) : Z * Z * Z := (cb_AppID b, cb_RepositoryID b, cb_CheckRunID b).

Definition RegisterCheckBinding (s : Store) (b : CheckBinding) : StoreTx unit :=
  guard ((cb_AppID b != st_appID s) || (cb_InstallationID b <=? 0) || (cb_RepositoryID b <=? 0) || (cb_PullRequestNumber b <=? 0)
         || (cb_CheckRunID b <=? 0) || (cb_ExternalID b == ""%string) || (cb_TargetID b == ""%string) || (cb_JobID b == ""%string)
         || (cb_ControllerGeneration b <=? 0) || (cb_PublicationGeneration b <=? 0))
    (errCode "record-invalid" "check-binding" "check binding rejected") ;;
  before ← gets (λ d, db_bindings d !! bindingKey b);
  exec (txErr "check-binding" "binding insert failed")
    (set_bindings (λ m, if m !! bindingKey b is Some _ then m else <[bindingKey b := b]> m)) ;;
  if before is Some _ then
    existing ← query (txErr "check-binding" "binding read failed") (λ d, db_bindings d !! bindingKey b);
    guard (existing != Some b) (errCode "check-binding-conflict" "check-binding" "check binding conflict")
  else mret ().

Definition LookupCheckBinding (appID repositoryID checkRunID : Z) : StoreTx CheckBinding :=
  b ← query (txErr "check-binding" "check binding read failed") (λ d, db_bindings d !! (appID, repositoryID, checkRunID));
  lift (match b with Some b => Ok b | None => Err (errCode "check-binding-conflict" "check-binding" "check binding not found") end).

Definition attemptsOf (job_id : string) (d : DB) : list AttemptRow :=
  filter (λ a, aw_JobID a = job_id) (map_to_list (db_attempts d)).*2.
(** [SELECT MAX(attempt_number)]: NULL when the job has no attempt. *)
Definition maxAttempt (rows : list AttemptRow) : option Z :=
  foldl (λ acc a, Some (match acc with Some m => Z.max m (aw_Number a) | None => aw_Number a end)) None rows.
Definition CountAttempts (job_id : string) : StoreTx Z :=
  query (txErr "attempt" "attempt count failed") (λ d, Z.of_nat (length (attemptsOf job_id d))).

(** The pull request still runs the target that the check was published for. *)
Definition bindingCurrent (b : CheckBinding) (cur : CurrentPRState) (i : RerequestInput) : bool :=
  (cs_Generation cur == cb_ControllerGeneration b) && (cs_CurrentTargetID cur == cb_TargetID b)
  && (cs_CurrentJobID cur == cb_JobID b) && (cs_Eligibility cur == PREligibilityEligible)
  && ri_SnapshotEligible i && (ri_SnapshotTargetID i == cb_TargetID b).

Definition newAttempt (s : Store) (i : RerequestInput) (b : CheckBinding) : StoreTx AnalysisAttempt :=
  m ← query (txErr "rerequest" "attempt count failed") (λ d, maxAttempt (attemptsOf (cb_JobID b) d));
  let next := match m with Some n => inc64 n | None => 1 end in
  guard (l_MaxAttemptsPerJob (st_limits s) <? next) (errCode "source-state-invalid" "rerequest" "attempt limit reached") ;;
  let zeroTarget := mkAnalysisTarget "" 0 0 0 0 "" "" "" in
  attempt ← lift_err (errCode "record-invalid" "rerequest" "attempt invalid")
    (NewAnalysisAttempt (mkAnalysisJob SchemaGitHubAnalysisJobV1Alpha1 (cb_JobID b) (cb_TargetID b) zeroTarget
       (cb_ControllerGeneration b) ControllerProfileAdvisoryV1Alpha1 RunnerTierHardenedContainer) next AttemptReasonCheckRerequest);
  insertAttempt "rerequest" "attempt insert failed" attempt (gt_instant (ri_Now i)) ;;
  mret attempt.

Definition ApplyCheckRunRerequest (s : Store) (i : RerequestInput) : StoreTx ReconcileResult :=
  let p := ri_Processed i in
  let proj := ri_Projection i in
  let l := ri_Lease i in
  guard ((ri_ConfiguredAppID i != st_appID s) || (cp_Action proj != "rerequested"%string) || (cp_AppID proj != st_appID s)
         || (cp_CheckRunID proj <=? 0) || (pd_ProjectionKind p != ProjectionCheckRun) || (pd_ReceiverID p != st_receiverID s)
         || negb (validDigest (pd_ProjectionDigest p)) || negb (valid_utc (ri_Now i)) || (rl_ExpiresAt l <? gt_instant (ri_Now i)))
    (errCode "record-invalid" "rerequest" "rerequest input rejected") ;;
  transaction (txErr "rerequest" "rerequest tx failed") (
    underLease "rerequest" p l (
      bound ← query (txErr "rerequest" "binding read failed") (λ d, db_bindings d !! (st_appID s, cp_RepositoryID proj, cp_CheckRunID proj));
      match bound with
      | None => settle p l (decided DecisionRerequestIgnored) (txErr "rerequest" "ignored commit failed")
      | Some b =>
        guard ((cb_InstallationID b != cp_InstallationID proj) || (cb_ExternalID b != cp_ExternalID proj)
               || (cb_PullRequestNumber b != k_PullRequestNumber (rl_Key l)))
          (errCode "check-binding-conflict" "rerequest" "foreign check run rejected") ;;
        cur ← readCurrent (rl_Key l);
        if negb (bindingCurrent b cur i) then
          settle p l (mkReconcileResult DecisionRerequestIgnored (cs_Generation cur) (cb_TargetID b) (cb_JobID b) "" "" "")
            (txErr "rerequest" "stale commit failed")
        else
          attempt ← newAttempt s i b;
          settle p l (mkReconcileResult DecisionRerequestCreated (cb_ControllerGeneration b) (cb_TargetID b) (cb_JobID b)
                        (aa_ID attempt) "" "") (txErr "rerequest" "rerequest commit failed")
      end)).
