(* ===== verification/ControllerSource.v ===== *)
(** * The controller's outbox of source imports ([internal/githubcontrollerstore])

    [sourceoutbox.go], [results.go] and the reads of [store.go]: importers lease the
    pending source requests of [ControllerStore.DB], and report how they went; a
    worker's result is classified against the attempt it names. *)

From stdpp Require Import prelude gmap strings.
From Stdlib Require Import ZArith Lia Ascii.
From S2P Require Import Prelude GoStd Sha256 Framing GoTime Model Json GoText Sql GithubApp ControllerStore.
Local Open Scope Z_scope.

(** ** [sourceoutbox.go] *)

(** A row that a claim may take: pending, or under a lease whose expiry, as text, is past. *)
Definition claimable (now : string) (r : SourceRow) : bool :=
  (sw_State r == SourceStatePending)
  || ((sw_State r == SourceStateLeased) && match sw_LeaseExpiresAt r with Some e => String.leb e now | None => false end).

(** The rows of a claim with their sequence numbers, oldest first. *)
Definition claimCandidates (now : string) (limit : nat) (d : DB) : list (nat * SourceRow) :=
  take limit (filter (λ '(_, r), claimable now r = true) (imap pair (db_sources d))).

Definition rowRequest (r : SourceRow) (owner : string) (generation : Z) : SourceImportRequest :=
  mkSourceImportRequest (sw_RequestID r) (sw_TargetID r) (sw_JobID r) (sw_Generation r) (sw_InstallationID r)
    (sw_PullRequestNumber r) (sw_Base r) (sw_Head r) ControllerProfileAdvisoryV1Alpha1 (sw_State r)
    (parseTime (sw_CreatedAt r)) owner generation.

Definition with_lease (owner : string) (generation : Z) (expires : string) (attempts : Z) (r : SourceRow) : SourceRow :=
  mkSourceRow (sw_RequestID r) (sw_TargetID r) (sw_JobID r) (sw_Generation r) (sw_InstallationID r) (sw_PullRequestNumber r)
    (sw_Base r) (sw_Head r) SourceStateLeased (Some owner) generation (Some expires) attempts (sw_CreatedAt r) (sw_Result r).

Definition leaseSource (owner now expires : string) (c : nat * SourceRow) : StoreTx (list SourceImportRequest) :=
  let '(seq, r) := c in
  let hit w := (sw_LeaseGeneration w == sw_LeaseGeneration r) && claimable now w in
  call (txErr "source-lease" "source claim update failed") ;;
  affected ← gets (λ d, match db_sources d !! seq with Some w => hit w | None => false end);
  puts (set_sources (alter (λ w, if hit w then
    with_lease owner (sw_LeaseGeneration r + 1) expires (sw_AttemptCount r + 1) w else w) seq)) ;;
  mret (if affected : bool then [rowRequest r owner (sw_LeaseGeneration r + 1)] else []).

Fixpoint leaseSources (owner now expires : string) (l : list (nat * SourceRow)) : StoreTx (list SourceImportRequest) :=
  match l with
  | [] => mret []
  | c :: l => out ← leaseSource owner now expires c; rest ← leaseSources owner now expires l; mret (out ++ rest)
  end.

Definition ClaimSourceImports (s : Store) (owner : string) (now : GoTimeValue) (duration limit : Z) :
    StoreTx (list SourceImportRequest) :=
  guard (negb (validID owner) || negb (valid_utc now) || (duration <=? 0) || (l_SourceLeaseDuration (st_limits s) <? duration)
         || (limit <=? 0) || (100 <? limit))
    (errCode "source-state-invalid" "source-lease" "source lease inputs rejected") ;;
  let at_ := formatTime (gt_instant now) in
  let expires := formatTime (gt_instant now + duration) in
  transaction (txErr "source-lease" "source lease transaction failed") (
    cands ← query (txErr "source-lease" "source claim failed") (claimCandidates at_ (Z.to_nat limit));
    guard (existsb (λ '(_, r), (sw_LeaseGeneration r == MaxInt64) || (sw_AttemptCount r == MaxInt64)) cands)
      (errCode "source-lease-stale" "source-lease" "source lease overflow") ;;
    out ← leaseSources owner at_ expires cands;
    mret (out, Some (txErr "source-lease" "source claim commit failed"))).

(** The lease of a request that is still [owner]'s, at its generation. *)
Definition heldBy (id owner : string) (generation : Z) (r : SourceRow) : bool :=
  (sw_RequestID r == id) && (sw_LeaseOwner r == Some owner) && (sw_LeaseGeneration r == generation).
Definition heldLeased (id owner : string) (generation : Z) (r : SourceRow) : bool :=
  heldBy id owner generation r && (sw_State r == SourceStateLeased).

Definition with_completed (at_ : option string) (c : ResultColumns) : ResultColumns :=
  mkResultColumns at_ (rc_SourceStoreID c) (rc_MetadataDigest c) (rc_ImportProfileVersion c) (rc_ObjectFormat c)
    (rc_BaseTreeID c) (rc_HeadTreeID c) (rc_Limitations c).
(** Give a row its state and result, and take its expiry away. *)
Definition finished (s : SourceRequestState) (c : ResultColumns → ResultColumns) (r : SourceRow) : SourceRow :=
  mkSourceRow (sw_RequestID r) (sw_TargetID r) (sw_JobID r) (sw_Generation r) (sw_InstallationID r) (sw_PullRequestNumber r)
    (sw_Base r) (sw_Head r) s (sw_LeaseOwner r) (sw_LeaseGeneration r) None (sw_AttemptCount r)
    (sw_CreatedAt r) (c (sw_Result r)).

Definition finishSourceLease (id owner : string) (generation : Z) (when : GoTimeValue) (next : SourceRequestState) : StoreTx unit :=
  guard ((id == ""%string) || negb (validID owner) || (generation <=? 0) || negb (valid_utc when))
    (errCode "source-lease-stale" "source-lease" "source lease identity rejected") ;;
  let completedAt := if next == SourceStateCompleted then Some (formatTime (gt_instant when)) else None in
  call (txErr "source-lease" "source lease finish failed") ;;
  n ← gets (λ d, length (filter (λ r, heldLeased id owner generation r = true) (db_sources d)));
  puts (update_sources (heldLeased id owner generation) (finished next (with_completed completedAt))) ;;
  guard (n != 1%nat) (errCode "source-lease-stale" "source-lease" "stale source lease rejected").

Definition AcknowledgeSourceImport (id owner : string) (generation : Z) (when : GoTimeValue) : StoreTx unit :=
  finishSourceLease id owner generation when SourceStateCompleted.
Definition ReleaseSourceImport (id owner : string) (generation : Z) (when : GoTimeValue) : StoreTx unit :=
  finishSourceLease id owner generation when SourceStatePending.

(** [validateSuccessfulSourceResult] *)
Definition objectFormatLen (r : SourceImportResult) : option Z :=
  let wantLen := if str_len (si_BaseCommitID r) =? 64 then 64 else 40 in
  if si_ObjectFormat r == "sha1"%string then if wantLen =? 40 then Some 40 else None
  else if si_ObjectFormat r == "sha256"%string then if wantLen =? 64 then Some 64 else None
  else None.
Definition badLimitation (lim : string) : bool :=
  (lim == ""%string) || (512 <? str_len lim) || hasControl lim
  || existsb (λ marker, lower_contains marker lim) ["token"; "secret"; "http://"; "https://"]%string
  || contains "/" lim.

Definition validateSuccessfulSourceResult (r : SourceImportResult) : result StoreError string :=
  let bad msg := errCode "record-invalid" "source-result" msg in
  reject_if (negb (prefixed_hex "source-" (si_SourceStoreID r))) (bad "source store id rejected"%string) ;;
  reject_if (negb (prefixed_hex "sha256:" (si_MetadataDigest r))) (bad "metadata digest rejected"%string) ;;
  reject_if (si_ImportProfileVersion r != SourceImportProfileSmartHTTPShallowV1Alpha1) (bad "import profile rejected"%string) ;;
  match objectFormatLen r with
  | None => Err (bad "object format rejected"%string)
  | Some wantLen =>
    reject_if (negb (isLowerHex (si_BaseTreeID r) wantLen) || negb (isLowerHex (si_HeadTreeID r) wantLen))
      (bad "tree identity rejected"%string) ;;
    reject_if ((Z.of_nat (length (si_Limitations r)) =? 0) || (1000 <? Z.of_nat (length (si_Limitations r))))
      (bad "limitations rejected"%string) ;;
    reject_if (existsb badLimitation (si_Limitations r)) (bad "limitations rejected"%string) ;;
    let b := of_bytes (render (JArr (JStr <$> si_Limitations r))) in
    reject_if (65536 <? str_len b) (bad "limitations rejected"%string) ;;
    Ok b
  end.

(** The row that a result reports on is still the request it was leased as. *)
Definition resultMatches (w : SourceRow) (r : SourceImportResult) : bool :=
  (sw_State w == SourceStateLeased) && (sw_TargetID w == si_TargetID r) && (sw_JobID w == si_JobID r)
  && (sw_Generation w == si_Generation r) && (rh_RepositoryID (sw_Base w) == si_BaseRepositoryID r)
  && (rh_RepositoryID (sw_Head w) == si_HeadRepositoryID r) && (rh_CommitID (sw_Base w) == si_BaseCommitID r)
  && (rh_CommitID (sw_Head w) == si_HeadCommitID r).

Definition ApplySourceImportResult (r : SourceImportResult) (owner : string) (leaseGeneration : Z) (when : GoTimeValue) :
    StoreTx unit :=
  guard ((si_RequestID r == ""%string) || (si_TargetID r == ""%string) || (si_JobID r == ""%string) || (si_Generation r <=? 0)
         || (si_BaseRepositoryID r <=? 0) || (si_HeadRepositoryID r <=? 0) || negb (validGitObjectID (si_BaseCommitID r))
         || negb (validGitObjectID (si_HeadCommitID r)) || negb (validID owner) || (leaseGeneration <=? 0) || negb (valid_utc when))
    (errCode "record-invalid" "source-result" "source result rejected") ;;
  limitationsJSON ← lift (if si_Failed r then Ok ""%string else validateSuccessfulSourceResult r);
  transaction (txErr "source-result" "source result tx failed") (
    row ← query (txErr "source-result" "source request read failed")
            (λ d, head (filter (λ w, heldBy (si_RequestID r) owner leaseGeneration w = true) (db_sources d)));
    w ← lift (match row with Some w => Ok w
              | None => Err (errCode "source-lease-stale" "source-result" "source lease missing") end);
    guard (negb (resultMatches w r)) (errCode "record-invalid" "source-result" "source result identity mismatch") ;;
    exec (txErr "source-result" "source request update failed")
      (update_sources (λ w, sw_RequestID w == si_RequestID r)
         (finished (if si_Failed r then SourceStateFailed else SourceStateCompleted) (λ _,
            mkResultColumns (Some (formatTime (gt_instant when))) (nullable (si_SourceStoreID r)) (nullable (si_MetadataDigest r))
              (nullable (si_ImportProfileVersion r)) (nullable (si_ObjectFormat r)) (nullable (si_BaseTreeID r))
              (nullable (si_HeadTreeID r)) (nullable limitationsJSON)))) ;;
    exec (txErr "source-result" "job update failed")
      (update_job (si_JobID r) (λ j, (jw_Generation j == si_Generation r) && (jw_State j == JobStateImportingSource))
         (if si_Failed r then JobStateFailed else JobStateAwaitingRunner)) ;;
    mret ((), Some (txErr "source-result" "source result commit failed"))).

Definition GetJobState (job_id : string) : StoreTx JobState :=
  row ← query (errCode "record-invalid" "job" "job missing") (λ d, db_jobs d !! job_id);
  lift (match row with Some j => Ok (jw_State j) | None => Err (errCode "record-invalid" "job" "job missing") end).

(** [store.go]; a request read back carries no lease. *)
Definition GetSourceImportRequest (id : string) : StoreTx SourceImportRequest :=
  row ← query (errCode "record-invalid" "source" "source request missing")
          (λ d, head (filter (λ w, sw_RequestID w = id) (db_sources d)));
  lift (match row with Some w => Ok (rowRequest w "" 0) | None => Err (errCode "record-invalid" "source" "source request missing") end).

(** ** [results.go] *)

(** [None]: the result is classified against the tables. *)
Definition workerResultBasicFreshness (r : WorkerResult) : result StoreError (option WorkerFreshness) :=
  reject_if ((wr_AttemptID r == ""%string) || (wr_JobID r == ""%string) || (wr_TargetID r == ""%string) || (wr_Generation r <=? 0))
    (errCode "record-invalid" "worker-result" "worker result rejected") ;;
  if (wr_RunnerTier r != RunnerTierHardenedContainer) && (wr_RunnerTier r != RunnerTierMicroVM)
  then Ok (Some FreshnessInvalidRunnerTier) else Ok None.

Definition ClassifyWorkerResult (r : WorkerResult) : StoreTx WorkerFreshness :=
  basic ← lift (workerResultBasicFreshness r);
  match basic with
  | Some f => mret f
  | None =>
    row ← query (txErr "worker-result" "attempt read failed") (λ d, db_attempts d !! wr_AttemptID r);
    match row with
    | None => mret FreshnessUnknownAttempt
    | Some a =>
      if (aw_JobID a != wr_JobID r) || (aw_TargetID a != wr_TargetID r) then mret FreshnessUnexpectedResult
      else if aw_Generation a != wr_Generation r then mret FreshnessStaleGeneration
      else if aw_State a == AttemptStateCancelled then mret FreshnessCancelledAttempt
      else
        job ← query (txErr "worker-result" "job read failed") (λ d, db_jobs d !! wr_JobID r);
        match job with
        | None => fail (txErr "worker-result" "job read failed")
        | Some j => mret (if jw_State j == JobStateSuperseded then FreshnessSupersededJob else FreshnessUnexpectedResult)
        end
    end
  end.
