(* ===== verification/ControllerStoreSpec.v ===== *)
(** * What the controller's store keeps

    Every operation of the store is a step from tables to tables; the tables
    reachable from empty ones are consistent: what is live (a job, an attempt, a
    source request) belongs to the current generation of its pull request, and a
    pull request has a current job exactly when it is eligible. *)

From stdpp Require Import prelude gmap strings.
From Stdlib Require Import ZArith Lia Ascii.
From S2P Require Import Prelude GoStd Sha256 Framing GoTime Model Json GoText Sql GithubApp ControllerStore ControllerSource.
Local Open Scope Z_scope.

(** ** The effects of the operations, as functions on tables *)

Definition ended (job_id : string) (js : JobState) (ss : SourceRequestState) (d : DB) : DB :=
  update_sources (λ r, (sw_JobID r == job_id) && live_source r) (with_source_state ss)
    (update_attempts (λ a, (aw_JobID a == job_id) && live_attempt a) AttemptStateCancelled
       (update_job job_id live_job js d)).
Definition superseded (cur : CurrentPRState) (d : DB) : DB :=
  if cs_CurrentJobID cur != ""%string then ended (cs_CurrentJobID cur) JobStateSuperseded SourceStateSuperseded d else d.
Definition unleased (l : ReconcileLease) (d : DB) : DB := set_leases (delete (rl_Key l)) d.
Definition holds_lease (d : DB) (l : ReconcileLease) : Prop :=
  ∃ w, db_leases d !! rl_Key l = Some w ∧ lw_Owner w = rl_Owner l ∧ lw_Generation w = rl_Generation l.
Definition delivery (p : ProcessedDelivery) : string * string := (pd_ReceiverID p, pd_OutboxID p).
Definition processedRow (p : ProcessedDelivery) (r : ReconcileResult) : ProcessedRow :=
  mkProcessedRow (pd_DeliveryID p) (pd_ProjectionKind p) (pd_ProjectionDigest p) (rr_Decision r)
    (nullableInt (rr_Generation r)) (nullable (rr_TargetID r)) (nullable (rr_JobID r))
    (formatTime (gt_instant (pd_ProcessedAt p))) (recordDigest p r).
Definition recorded (p : ProcessedDelivery) (r : ReconcileResult) : DB → DB := set_processed (<[delivery p := processedRow p r]>).
(** What a duplicate is told. *)
Definition duplicateOf (w : ProcessedRow) : ReconcileResult :=
  mkReconcileResult DecisionDuplicateProcessed (default 0 (pw_Generation w)) (default ""%string (pw_TargetID w))
    (default ""%string (pw_JobID w)) "" "" "".
Definition prRow (i : PullRequestReconcileInput) (r : ReconcileResult) : PRRow :=
  let snap := pi_Snapshot i in
  mkPRRow (rr_Generation r) (rr_Eligibility r) (nullable (rr_TargetID r)) (nullable (rr_JobID r))
    (nullable (ep_Owner (ps_Base snap))) (nullable (ep_Name (ps_Base snap))) (nullable (ep_CommitID (ps_Base snap)))
    (nullableInt (ep_RepositoryID (ps_Head snap))) (nullable (ep_CommitID (ps_Head snap))) (formatTime (gt_instant (pi_Now i))).

Lemma endJob_Ok e1 e2 e3 job js ss faults n d u n' d' :
  endJob e1 e2 e3 job js ss faults n d = Ok (u, n', d') → d' = ended job js ss d.
Proof. unfold endJob. intros H. inv_tx H. done. Qed.

Ltac inv_op H ::=
  match type of H with endJob _ _ _ _ _ _ _ _ _ = Ok _ => apply endJob_Ok in H; subst | _ => idtac end.

Lemma supersedeCurrent_Ok cur faults n d u n' d' :
  supersedeCurrent cur faults n d = Ok (u, n', d') → d' = superseded cur d.
Proof.
  unfold supersedeCurrent, superseded. destruct (_ != _); intros H; inv_tx H; done.
Qed.

Lemma checkProcessed_Ok p faults n d seen n' d' :
  checkProcessed p faults n d = Ok (seen, n', d') → d' = d ∧
    match db_processed d !! delivery p with
    | None => seen = None
    | Some w => pw_ProjectionDigest w = pd_ProjectionDigest p ∧ seen = Some (duplicateOf w)
    end.
Proof.
  unfold checkProcessed. intros H. inv_tx H. unfold delivery. destruct (db_processed _ !! _) as [w|]; inv_tx H; [|done].
  unbool. done.
Qed.

Lemma releaseReconcileLease_Ok l faults n d u n' d' :
  releaseReconcileLease l faults n d = Ok (u, n', d') → holds_lease d l ∧ d' = unleased l d.
Proof.
  unfold releaseReconcileLease, holds_lease. intros H. inv_tx H. unbool.
  destruct (db_leases _ !! _) as [w|]; [|done]. unbool. eauto.
Qed.

Lemma insertProcessed_Ok p r faults n d u n' d' :
  insertProcessed p r faults n d = Ok (u, n', d') → d' = recorded p r d.
Proof. unfold insertProcessed. intros H. inv_tx H. done. Qed.

Ltac inv_op H ::=
  match type of H with
  | endJob _ _ _ _ _ _ _ _ _ = Ok _ => apply endJob_Ok in H; subst
  | supersedeCurrent _ _ _ _ = Ok _ => apply supersedeCurrent_Ok in H; subst
  | insertProcessed _ _ _ _ _ = Ok _ => apply insertProcessed_Ok in H; subst
  | releaseReconcileLease _ _ _ _ = Ok _ => apply releaseReconcileLease_Ok in H as [? ?]; subst
  | _ => idtac
  end.

Lemma settle_Ok p l res e faults n d r n' d' :
  settle p l res e faults n d = Ok (r, n', d') → holds_lease d l ∧ r.1 = res ∧ d' = unleased l (recorded p res d).
Proof.
  unfold settle. intros H. inv_tx H.
  done.
Qed.

Lemma underLease_Ok stage p l fresh faults n d r n' d' :
  underLease stage p l fresh faults n d = Ok (r, n', d') →
  match db_processed d !! delivery p with
  | Some w => pw_ProjectionDigest w = pd_ProjectionDigest p ∧ holds_lease d l ∧ r.1 = duplicateOf w ∧ d' = unleased l d
  | None => ∃ n1, fresh faults n1 d = Ok (r, n', d')
  end.
Proof.
  unfold underLease. intros H. inv_tx H. apply checkProcessed_Ok in Hs as [-> Hseen].
  destruct (db_processed _ !! _) as [w|]; [destruct Hseen as [? ->]|subst; by eauto].
  by inv_tx H.
Qed.

Lemma recordOnce_Ok p fresh faults n d r n' d' :
  recordOnce p fresh faults n d = Ok (r, n', d') →
  match db_processed d !! delivery p with
  | Some w => pw_ProjectionDigest w = pd_ProjectionDigest p ∧ r.1 = duplicateOf w ∧ d' = d
  | None => ∃ n1, fresh faults n1 d = Ok (r, n', d')
  end.
Proof.
  unfold recordOnce. intros H. inv_tx H. apply checkProcessed_Ok in Hs as [-> Hseen].
  destruct (db_processed _ !! _) as [w|]; [destruct Hseen as [? ->]|subst; by eauto]. inv_tx H. done.
Qed.

(** What a new generation adds. *)
Definition newJobRow (job : AnalysisJob) (now : Time) : JobRow :=
  mkJobRow (aj_TargetID job) (aj_Generation job) JobStateImportingSource [RunnerTierHardenedContainer; RunnerTierMicroVM] job
    (formatTime now).
Definition newAttemptRow (a : AnalysisAttempt) (now : Time) : AttemptRow :=
  mkAttemptRow (aa_JobID a) (aa_TargetID a) (aa_Generation a) (aa_AttemptNumber a) (aa_Reason a) AttemptStateQueued (formatTime now).
Definition routeOf (e : PullRequestEndpoint) : RouteHint := mkRouteHint (ep_RepositoryID e) (ep_Owner e) (ep_Name e) (ep_CommitID e).
Definition newSourceRow (target : AnalysisTarget) (job : AnalysisJob) (src : string) (snap : PullRequestSnapshot) (now : Time) : SourceRow :=
  mkSourceRow src (aj_TargetID job) (aj_ID job) (aj_Generation job) (at_InstallationID target) (ps_Number snap)
    (routeOf (ps_Base snap)) (routeOf (ps_Head snap)) SourceStatePending None 0 None 0 (formatTime now) noResult.
Definition newTarget (target : AnalysisTarget) (job : AnalysisJob) (now : Time) : DB → DB :=
  set_targets (λ m, if m !! aj_TargetID job is Some _ then m else <[aj_TargetID job := (target, formatTime now)]> m).
Definition addAttempt (a : AnalysisAttempt) (now : Time) : DB → DB := set_attempts (<[aa_ID a := newAttemptRow a now]>).
Definition inserted (target : AnalysisTarget) (job : AnalysisJob) (a : AnalysisAttempt) (src : string)
    (snap : PullRequestSnapshot) (now : Time) (d : DB) : DB :=
  set_sources (λ rows, rows ++ [newSourceRow target job src snap now])
    (addAttempt a now (set_jobs (<[aj_ID job := newJobRow job now]>) (newTarget target job now d))).

(** The keys that an insertion needs free. *)
Definition attempt_free (a : AnalysisAttempt) (d : DB) : Prop :=
  db_attempts d !! aa_ID a = None ∧
  map_Forall (λ _ w, ¬ (aw_JobID w = aa_JobID a ∧ aw_Number w = aa_AttemptNumber a)) (db_attempts d).
Definition source_free (src : string) (d : DB) : Prop := ∀ w, w ∈ db_sources d → sw_RequestID w <> src.

Lemma insertAttempt_Ok stage msg a now faults n d u n' d' :
  insertAttempt stage msg a now faults n d = Ok (u, n', d') → attempt_free a d ∧ d' = addAttempt a now d.
Proof. unfold insertAttempt, attempt_free. intros H. inv_tx H. unbool. done. Qed.

Lemma lift_err_Ok {A} e (r : result AppError A) faults n d a n' d' :
  lift_err e r faults n d = Ok (a, n', d') → r = Ok a ∧ n' = n ∧ d' = d.
Proof. unfold lift_err. destruct r; intros H; inv_tx H. done. Qed.

Ltac inv_op H ::=
  match type of H with
  | endJob _ _ _ _ _ _ _ _ _ = Ok _ => apply endJob_Ok in H; subst
  | supersedeCurrent _ _ _ _ = Ok _ => apply supersedeCurrent_Ok in H; subst
  | insertProcessed _ _ _ _ _ = Ok _ => apply insertProcessed_Ok in H; subst
  | releaseReconcileLease _ _ _ _ = Ok _ => apply releaseReconcileLease_Ok in H as [? ?]; subst
  | insertAttempt _ _ _ _ _ _ _ = Ok _ => apply insertAttempt_Ok in H as [? ?]; subst
  | lift_err _ _ _ _ _ = Ok _ => apply lift_err_Ok in H as (? & ? & ?); subst
  | _ => idtac
  end.

Lemma forallb_elem {A} (f : A → bool) l x : forallb f l = true → x ∈ l → f x = true.
Proof. intros H Hx. by apply (proj1 (forallb_forall f l) H), list_elem_of_In. Qed.

Lemma insertTargetJobAttemptSource_Ok target job a src snap now faults n d u n' d' :
  insertTargetJobAttemptSource target job a src snap now faults n d = Ok (u, n', d') →
  db_jobs d !! aj_ID job = None ∧ attempt_free a d ∧ source_free src d ∧ d' = inserted target job a src snap now d.
Proof.
  unfold insertTargetJobAttemptSource, insertSourceRequest. intros H. inv_tx H. unbool.
  split_and!; [done..| |done]. intros w Hw Hid.
  match goal with H : forallb _ _ = true |- _ => pose proof (forallb_elem _ _ w H Hw) as Hf end. cbn in Hf. by unbool.
Qed.

Lemma NewAnalysisJob_Ok target gen profile tier job :
  NewAnalysisJob target gen profile tier = Ok job →
  0 < gen ∧ targetID target = Ok (aj_TargetID job) ∧ aj_Target job = target ∧ aj_Generation job = gen
  ∧ aj_ID job = prefixedID "job" DomainAnalysisJobID (jobFields (aj_TargetID job) gen profile tier).
Proof.
  unfold NewAnalysisJob. rewrite !reject_bind_Ok, bind_Ok. intros (_ & H & t & Ht & [= <-]). unbool. done.
Qed.

Lemma NewAnalysisAttempt_Ok job number reason a :
  NewAnalysisAttempt job number reason = Ok a →
  aa_JobID a = aj_ID job ∧ aa_TargetID a = aj_TargetID job ∧ aa_Generation a = aj_Generation job ∧ aa_AttemptNumber a = number
  ∧ aa_ID a = prefixedID "attempt" DomainAnalysisAttemptID (attemptFields job number reason).
Proof. unfold NewAnalysisAttempt. rewrite !reject_bind_Ok. by intros (_ & _ & [= <-]). Qed.

(** What [reconcilePlan] may decide. *)
Inductive planned (i : PullRequestReconcileInput) (cur : CurrentPRState) (d : DB) : Plan → DB → Prop :=
| planned_same target_id :
    eligibilityFor (pi_Snapshot i) = PREligibilityEligible → targetID (snapshotTarget (rl_Key (pi_Lease i)) (pi_Snapshot i)) = Ok target_id →
    cs_Eligibility cur = PREligibilityEligible → cs_CurrentTargetID cur = target_id →
    planned i cur d (mkPlan true (mkReconcileResult DecisionNoChangeCurrentTarget (cs_Generation cur) target_id
      (cs_CurrentJobID cur) "" "" PREligibilityEligible)) d
| planned_new job attempt :
    let target := snapshotTarget (rl_Key (pi_Lease i)) (pi_Snapshot i) in
    let gen := cs_Generation cur + 1 in
    let src := sourceRequestID (aj_TargetID job) (aj_ID job) gen in
    eligibilityFor (pi_Snapshot i) = PREligibilityEligible → cs_Generation cur <> MaxInt64 →
    ¬ (cs_Eligibility cur = PREligibilityEligible ∧ cs_CurrentTargetID cur = aj_TargetID job) →
    NewAnalysisJob target gen ControllerProfileAdvisoryV1Alpha1 RunnerTierHardenedContainer = Ok job →
    NewAnalysisAttempt job 1 AttemptReasonInitial = Ok attempt →
    let d1 := superseded cur d in
    db_jobs d1 !! aj_ID job = None → attempt_free attempt d1 → source_free src d1 →
    planned i cur d (mkPlan false (mkReconcileResult DecisionScheduledNewTarget gen (aj_TargetID job) (aj_ID job) (aa_ID attempt) src
      PREligibilityEligible)) (inserted target job attempt src (pi_Snapshot i) (gt_instant (pi_Now i)) d1)
| planned_block gen d1 :
    let e := eligibilityFor (pi_Snapshot i) in
    e <> PREligibilityEligible →
    (if decide (cs_Generation cur = 0 ∨ cs_Eligibility cur <> e)
     then cs_Generation cur <> MaxInt64 ∧ gen = cs_Generation cur + 1 ∧ d1 = superseded cur d
     else gen = cs_Generation cur ∧ d1 = d) →
    planned i cur d (mkPlan false (mkReconcileResult
      (if e == PREligibilityDraft then DecisionMarkedDraft else if e == PREligibilityClosed then DecisionMarkedClosed
       else DecisionSourceUnavailable) gen "" "" "" "" e)) d1.

Lemma reconcilePlan_Ok i cur faults n d plan n' d' :
  reconcilePlan i cur faults n d = Ok (plan, n', d') → planned i cur d plan d'.
Proof.
  unfold reconcilePlan. destruct (decide (eligibilityFor (pi_Snapshot i) = PREligibilityEligible)) as [He|He].
  - rewrite (bool_decide_true _ He). intros H. inv_tx H.
    match goal with Ht : targetID _ = Ok _ |- _ => rename Ht into Htid end.
    destruct (_ && _) eqn:Es in H; inv_tx H; [rewrite He; unbool; by constructor|].
    unfold scheduleTarget in H. inv_tx H. unbool.
    match goal with Hj : NewAnalysisJob _ _ _ _ = Ok _ |- _ => pose proof (NewAnalysisJob_Ok _ _ _ _ _ Hj) as (_ & Hid & _) end.
    rewrite Htid in Hid. apply Ok_inj in Hid as ->.
    match goal with Hi : insertTargetJobAttemptSource _ _ _ _ _ _ _ _ _ = Ok _ |- _ =>
      apply insertTargetJobAttemptSource_Ok in Hi as (? & ? & ? & ->) end.
    apply planned_new; try done. intros [E1 E2]. by rewrite !bool_decide_true in Es.
  - rewrite (bool_decide_false _ He). intros H. inv_tx H.
    apply planned_block; [done|]. clear He. destruct (decide _) as [Hd|Hd].
    + assert ((bool_decide (cs_Generation cur = 0) || (cs_Eligibility cur != eligibilityFor (pi_Snapshot i))) = true) as Hb
        by (apply orb_true_iff; rewrite negb_true_iff, bool_decide_eq_true, bool_decide_eq_false; done).
      rewrite Hb in Hs. inv_tx Hs. unbool. done.
    + assert ((bool_decide (cs_Generation cur = 0) || (cs_Eligibility cur != eligibilityFor (pi_Snapshot i))) = false) as Hb.
      { apply orb_false_iff. rewrite negb_false_iff, bool_decide_eq_true, bool_decide_eq_false. split; [tauto|].
        destruct (decide (cs_Eligibility cur = eligibilityFor (pi_Snapshot i))); tauto. }
      rewrite Hb in Hs. inv_tx Hs. done.
Qed.

Definition upserted (i : PullRequestReconcileInput) (r : ReconcileResult) : DB → DB := set_prs (<[rl_Key (pi_Lease i) := prRow i r]>).

(** The rest of the tables that a plan does not touch. *)
Lemma superseded_frame cur d :
  db_leases (superseded cur d) = db_leases d ∧ db_processed (superseded cur d) = db_processed d ∧ db_prs (superseded cur d) = db_prs d
  ∧ db_bindings (superseded cur d) = db_bindings d.
Proof. unfold superseded. by destruct (_ != _). Qed.

Lemma planned_frame i cur d plan d1 :
  planned i cur d plan d1 →
  db_leases d1 = db_leases d ∧ db_processed d1 = db_processed d ∧ db_prs d1 = db_prs d ∧ db_bindings d1 = db_bindings d.
Proof.
  destruct 1 as [|job attempt|gen d1 e ? H]; [done|apply superseded_frame|].
  destruct (decide _); [destruct H as (_ & _ & ->); apply superseded_frame|by destruct H as [_ ->]].
Qed.

Lemma holds_lease_eq d d' l : db_leases d' = db_leases d → holds_lease d' l → holds_lease d l.
Proof. unfold holds_lease. by intros ->. Qed.

(** A snapshot that is applied: under the lease it names; a delivery seen before
    is told what was decided, a new one is planned and recorded. *)
Lemma ApplyPullRequestSnapshot_Ok s i faults n d r n' d' :
  ApplyPullRequestSnapshot s i faults n d = Ok (r, n', d') →
  validateInput s i = Ok () ∧ holds_lease d (pi_Lease i) ∧
  match db_processed d !! delivery (pi_Processed i) with
  | Some w => pw_ProjectionDigest w = pd_ProjectionDigest (pi_Processed i) ∧ r = duplicateOf w ∧ d' = unleased (pi_Lease i) d
  | None => ∃ plan d1, planned i (currentOf (rl_Key (pi_Lease i)) (db_prs d !! rl_Key (pi_Lease i))) d plan d1 ∧ r = pn_result plan ∧
      d' = unleased (pi_Lease i) (recorded (pi_Processed i) r (if pn_same plan then d1 else upserted i r d1))
  end.
Proof.
  unfold ApplyPullRequestSnapshot. intros H. inv_tx H. destruct a.
  apply transaction_Ok in H as (c & n2 & H). apply underLease_Ok in H. split; [done|].
  destruct (db_processed _ !! _) as [w|]; [naive_solver|]. destruct H as [n1 H]. unfold readCurrent in H. inv_tx H.
  match goal with Hp : reconcilePlan _ _ _ _ _ = Ok _ |- _ => apply reconcilePlan_Ok in Hp as Hplan end.
  apply settle_Ok in H as (Hl & Hr & ->). cbn in Hr. subst r.
  pose proof (planned_frame _ _ _ _ _ Hplan) as (El & _).
  unfold upsertPR in *. destruct (pn_same _) eqn:Es; inv_tx Hs0; (split; [apply (holds_lease_eq _ _ _ El); exact Hl|]);
    eexists _, _; rewrite Es; done.
Qed.
