(* ===== verification/ControllerInv.v ===== *)
(** * The invariant of the controller's store

    [Consistent]: rows agree with each other, and whatever is live belongs to the
    current job of a pull request.  [evolves]: what a step may do to the rows that
    are there.  This file holds both and the lemmas on the changes that the
    operations are made of; [ControllerSteps] puts them together. *)

From stdpp Require Import prelude gmap strings.
From Stdlib Require Import ZArith Lia Ascii.
From S2P Require Import Prelude GoStd Sha256 Framing GoTime Model Json GoText Sql GithubApp ControllerStore ControllerSource ControllerStoreSpec.
Local Open Scope Z_scope.

(** The pull request of a job. *)
Definition jobKey (r : JobRow) : PRKey :=
  let t := aj_Target (jw_Job r) in mkPRKey (at_InstallationID t) (at_BaseRepositoryID t) (at_PullRequestNumber t).
Definition current_job (d : DB) (j : string) : Prop := ∃ k w, db_prs d !! k = Some w ∧ pw_Job w = Some j.
(** The job of an attempt or a source request, with its generation and target. *)
Definition of_job (d : DB) (j : string) (gen : Z) (target : string) : Prop :=
  ∃ r, db_jobs d !! j = Some r ∧ jw_Generation r = gen ∧ jw_TargetID r = target.
(** A row of the state: the current job is set exactly when the pull request is eligible. *)
Definition pr_row_ok (d : DB) (k : PRKey) (w : PRRow) : Prop :=
  1 <= pw_Gen w <= MaxInt64 ∧
  match pw_Job w with
  | Some j => pw_Eligibility w = PREligibilityEligible ∧ j <> ""%string ∧
      ∃ r, db_jobs d !! j = Some r ∧ jobKey r = k ∧ jw_Generation r = pw_Gen w ∧ pw_Target w = Some (jw_TargetID r)
  | None => pw_Eligibility w <> PREligibilityEligible ∧ pw_Target w = None
  end.

Record Consistent (d : DB) : Prop := mkConsistent {
  c_row : ∀ k w, db_prs d !! k = Some w → pr_row_ok d k w;
  c_jobgen : ∀ j r, db_jobs d !! j = Some r → ∃ w, db_prs d !! jobKey r = Some w ∧ jw_Generation r <= pw_Gen w;
  c_jobuniq : ∀ j1 j2 r1 r2, db_jobs d !! j1 = Some r1 → db_jobs d !! j2 = Some r2 →
    jobKey r1 = jobKey r2 → jw_Generation r1 = jw_Generation r2 → j1 = j2;
  c_attempt : ∀ a r, db_attempts d !! a = Some r → of_job d (aw_JobID r) (aw_Generation r) (aw_TargetID r);
  c_source : ∀ r, r ∈ db_sources d → of_job d (sw_JobID r) (sw_Generation r) (sw_TargetID r);
  c_requests : NoDup (sw_RequestID <$> db_sources d);
  c_live_job : ∀ j r, db_jobs d !! j = Some r → live_job r = true → current_job d j;
  c_live_attempt : ∀ a r, db_attempts d !! a = Some r → live_attempt r = true → current_job d (aw_JobID r);
  c_live_source : ∀ r, r ∈ db_sources d → live_source r = true → current_job d (sw_JobID r)
}.

Lemma Consistent_empty : Consistent emptyDB.
Proof. split; try done; try (intros *; by rewrite ?lookup_empty); try by inversion 1. constructor. Qed.

(** The tables that the invariant reads. *)
Definition core (d : DB) := (db_prs d, db_jobs d, db_attempts d, db_sources d).
Lemma Consistent_core d d' : core d' = core d → Consistent d → Consistent d'.
Proof.
  intros [= E1 E2 E3 E4] [? ? ? ? ? ? ? ? ?].
  unfold pr_row_ok, current_job, of_job in *.
  split; unfold pr_row_ok, current_job, of_job; rewrite ?E1, ?E2, ?E3, ?E4; done.
Qed.

(** ** What may happen to rows *)

Definition same_verdict (w w' : PRRow) : Prop :=
  pw_Eligibility w' = pw_Eligibility w ∧ pw_Target w' = pw_Target w ∧ pw_Job w' = pw_Job w.
Definition pr_after (w w' : PRRow) : Prop := pw_Gen w <= pw_Gen w' ∧ (pw_Gen w' = pw_Gen w → same_verdict w w').
(** A job keeps what it is for, and once it ended it stays as it ended. *)
Definition job_after (r r' : JobRow) : Prop :=
  jw_Job r' = jw_Job r ∧ jw_TargetID r' = jw_TargetID r ∧ jw_Generation r' = jw_Generation r
  ∧ (live_job r = false → jw_State r' = jw_State r).
Definition attempt_after (r r' : AttemptRow) : Prop :=
  aw_JobID r' = aw_JobID r ∧ aw_TargetID r' = aw_TargetID r ∧ aw_Generation r' = aw_Generation r ∧ aw_Number r' = aw_Number r
  ∧ (live_attempt r = false → aw_State r' = aw_State r).
Definition source_after (r r' : SourceRow) : Prop :=
  sw_RequestID r' = sw_RequestID r ∧ sw_JobID r' = sw_JobID r ∧ sw_TargetID r' = sw_TargetID r ∧ sw_Generation r' = sw_Generation r
  ∧ sw_LeaseGeneration r <= sw_LeaseGeneration r' ∧ (live_source r = false → r' = r).

Record evolves (d d' : DB) : Prop := mkEvolves {
  ev_prs : after pr_after (db_prs d) (db_prs d');
  ev_jobs : after job_after (db_jobs d) (db_jobs d');
  ev_attempts : after attempt_after (db_attempts d) (db_attempts d');
  ev_sources : after_list source_after (db_sources d) (db_sources d');
  ev_processed : db_processed d ⊆ db_processed d';
  ev_bindings : db_bindings d ⊆ db_bindings d'
}.

#[global] Instance pr_after_preorder : PreOrder pr_after.
Proof.
  split; [done|]. intros a b c [? Hab] [? Hbc]. split; [lia|]. intros E. destruct Hab as (? & ? & ?); [lia|].
  destruct Hbc as (? & ? & ?); [lia|]. split_and!; congruence.
Qed.
#[global] Instance job_after_preorder : PreOrder job_after.
Proof.
  split; [done|]. intros a b c (? & ? & ? & Hab) (? & ? & ? & Hbc). split_and!; [congruence..|]. intros Hl.
  rewrite Hbc; [by apply Hab|]. unfold live_job in *. by rewrite Hab.
Qed.
#[global] Instance attempt_after_preorder : PreOrder attempt_after.
Proof.
  split; [done|]. intros a b c (? & ? & ? & ? & Hab) (? & ? & ? & ? & Hbc). split_and!; [congruence..|]. intros Hl.
  rewrite Hbc; [by apply Hab|]. unfold live_attempt in *. by rewrite Hab.
Qed.
#[global] Instance source_after_preorder : PreOrder source_after.
Proof.
  split; [done|]. intros a b c (? & ? & ? & ? & ? & Hab) (? & ? & ? & ? & ? & Hbc). split_and!; [congruence..|lia|]. intros Hl.
  rewrite Hbc; [by apply Hab|]. by rewrite Hab.
Qed.
#[global] Instance evolves_preorder : PreOrder evolves.
Proof.
  split; [by intros d; split|]. intros d1 d2 d3 [? ? ? ? ? ?] [? ? ? ? ? ?].
  split; (etrans; [eassumption|eassumption]).
Qed.

(** ** Changes that end work *)

Definition job_tame (r r' : JobRow) : Prop :=
  jw_Job r' = jw_Job r ∧ jw_TargetID r' = jw_TargetID r ∧ jw_Generation r' = jw_Generation r ∧ (live_job r' = true → live_job r = true).
Definition attempt_tame (r r' : AttemptRow) : Prop :=
  aw_JobID r' = aw_JobID r ∧ aw_TargetID r' = aw_TargetID r ∧ aw_Generation r' = aw_Generation r
  ∧ (live_attempt r' = true → live_attempt r = true).
Definition source_tame (r r' : SourceRow) : Prop :=
  sw_RequestID r' = sw_RequestID r ∧ sw_JobID r' = sw_JobID r ∧ sw_TargetID r' = sw_TargetID r ∧ sw_Generation r' = sw_Generation r
  ∧ (live_source r' = true → live_source r = true).
Definition pointwise {A} (R : A → A → Prop) (m m' : gmap string A) : Prop := ∀ k, option_Forall2 R (m !! k) (m' !! k).

#[global] Instance job_tame_refl : Reflexive job_tame. Proof. done. Qed.
#[global] Instance attempt_tame_refl : Reflexive attempt_tame. Proof. done. Qed.
#[global] Instance source_tame_refl : Reflexive source_tame. Proof. done. Qed.
#[global] Instance pointwise_refl {A} (R : A → A → Prop) `{!Reflexive R} : Reflexive (pointwise R).
Proof. intros m k. by destruct (m !! k); constructor. Qed.

Lemma pointwise_back {A} (R : A → A → Prop) m m' k a' : pointwise R m m' → m' !! k = Some a' → ∃ a, m !! k = Some a ∧ R a a'.
Proof. intros Hp E. specialize (Hp k). rewrite E in Hp. inversion Hp. eauto. Qed.
Lemma pointwise_fwd {A} (R : A → A → Prop) m m' k a : pointwise R m m' → m !! k = Some a → ∃ a', m' !! k = Some a' ∧ R a a'.
Proof. intros Hp E. specialize (Hp k). rewrite E in Hp. inversion Hp. eauto. Qed.
Lemma pointwise_alter {A} (R : A → A → Prop) `{!Reflexive R} f k m : (∀ a, R a (f a)) → pointwise R m (alter f k m).
Proof.
  intros Hf k'. destruct (decide (k = k')) as [<-|Hne].
  - rewrite lookup_alter_eq. destruct (m !! k); by constructor.
  - rewrite lookup_alter_ne by done. destruct (m !! k'); by constructor.
Qed.
Lemma pointwise_fmap {A} (R : A → A → Prop) f m : (∀ a, R a (f a)) → pointwise R m (f <$> m).
Proof. intros Hf k. rewrite lookup_fmap. destruct (m !! k); by constructor. Qed.

Lemma Consistent_tame d d' :
  db_prs d' = db_prs d → pointwise job_tame (db_jobs d) (db_jobs d') → pointwise attempt_tame (db_attempts d) (db_attempts d') →
  Forall2 source_tame (db_sources d) (db_sources d') → Consistent d → Consistent d'.
Proof.
  intros Ep Hj Ha Hs [Crow Cgen Cuniq Catt Csrc Creq Clj Cla Cls].
  assert (∀ j gen t, of_job d j gen t → of_job d' j gen t) as Hof.
  { intros j gen t (r & Hr & ? & ?). destruct (pointwise_fwd _ _ _ _ _ Hj Hr) as (r' & Hr' & _ & ? & ? & _).
    exists r'. split_and!; [done|congruence..]. }
  assert (∀ j, current_job d j → current_job d' j) as Hcur by (unfold current_job; by rewrite Ep).
  assert (∀ r', r' ∈ db_sources d' → ∃ r, r ∈ db_sources d ∧ source_tame r r') as Hsrc.
  { intros r' (n & Hn)%list_elem_of_lookup. destruct (Forall2_lookup_r _ _ _ _ _ Hs Hn) as (r & Hr & ?). exists r.
    split; [by eapply list_elem_of_lookup_2|done]. }
  split.
  - intros k w. rewrite Ep. intros Hw. destruct (Crow k w Hw) as [Hg Hrow]. split; [done|].
    destruct (pw_Job w) as [j|]; [|done]. destruct Hrow as (? & ? & r & Hr & <- & ? & Ht).
    destruct (pointwise_fwd _ _ _ _ _ Hj Hr) as (r' & Hr' & E & ? & ? & _). split; [done|]. split; [done|]. exists r'.
    split_and!; [done| |congruence..]. unfold jobKey. by rewrite E.
  - intros j r' Hr'. destruct (pointwise_back _ _ _ _ _ Hj Hr') as (r & Hr & E & _ & Eg & _). unfold jobKey. rewrite E, Ep, Eg.
    by apply (Cgen j).
  - intros j1 j2 r1' r2' H1' H2'. destruct (pointwise_back _ _ _ _ _ Hj H1') as (r1 & H1 & E1 & _ & Eg1 & _).
    destruct (pointwise_back _ _ _ _ _ Hj H2') as (r2 & H2 & E2 & _ & Eg2 & _). unfold jobKey. rewrite E1, E2, Eg1, Eg2. by apply Cuniq.
  - intros a r' Hr'. destruct (pointwise_back _ _ _ _ _ Ha Hr') as (r & Hr & -> & -> & -> & _). by apply Hof, (Catt a).
  - intros r' Hr'. destruct (Hsrc r' Hr') as (r & Hr & _ & -> & -> & -> & _). by apply Hof, Csrc.
  - replace (sw_RequestID <$> db_sources d') with (sw_RequestID <$> db_sources d); [done|]. clear -Hs.
    induction Hs as [|r r' l l' (E & _) ? IH]; [done|]. rewrite !fmap_cons. by f_equal.
  - intros j r' Hr' Hl. destruct (pointwise_back _ _ _ _ _ Hj Hr') as (r & Hr & _ & _ & _ & Ht). by apply Hcur, (Clj j r), Ht.
  - intros a r' Hr' Hl. destruct (pointwise_back _ _ _ _ _ Ha Hr') as (r & Hr & E & _ & _ & Ht). rewrite E. by apply Hcur, (Cla a r), Ht.
  - intros r' Hr' Hl. destruct (Hsrc r' Hr') as (r & Hr & _ & E & _ & _ & Ht). rewrite E. by apply Hcur, (Cls r), Ht.
Qed.

(** Nothing of a job is live. *)
Definition quiet (j : string) (d : DB) : Prop :=
  (∀ r, db_jobs d !! j = Some r → live_job r = false) ∧
  (∀ a r, db_attempts d !! a = Some r → aw_JobID r = j → live_attempt r = false) ∧
  (∀ r, r ∈ db_sources d → sw_JobID r = j → live_source r = false).

Section ended.
Context (job : string) (js : JobState) (ss : SourceRequestState).
Hypothesis (Hjs : js = JobStateSuperseded ∨ js = JobStateCancelled) (Hss : ss = SourceStateSuperseded ∨ ss = SourceStateCancelled).

Lemma live_job_ended r : live_job (with_job_state js r) = false.
Proof using Hjs. unfold live_job. cbn. destruct Hjs as [-> | ->]; vm_compute; done. Qed.
Lemma live_source_ended r : live_source (with_source_state ss r) = false.
Proof using Hss. unfold live_source. cbn. destruct Hss as [-> | ->]; vm_compute; done. Qed.
Lemma live_attempt_ended r : live_attempt (with_attempt_state AttemptStateCancelled r) = false.
Proof. unfold live_attempt. vm_compute. done. Qed.

Lemma ended_Consistent d : Consistent d → Consistent (ended job js ss d).
Proof using Hjs Hss.
  apply Consistent_tame; [done|apply pointwise_alter; [apply _|]|apply pointwise_fmap|].
  - intros r. destruct (live_job r) eqn:E; [|done]. split_and!; try done.
  - intros r. destruct (_ && _) eqn:E; [|done]. split_and!; try done.
  - apply Forall2_fmap_r, Forall_Forall2_diag, Forall_true. intros r. unfold compose. destruct (_ && _); [|done]. split_and!; try done.
    by rewrite live_source_ended.
Qed.

Lemma ended_evolves d : evolves d (ended job js ss d).
Proof.
  split; try done.
  - apply after_alter; [apply _|]. intros r _. destruct (live_job r) eqn:E; [|done]. split_and!; try done. congruence.
  - apply after_fmap. intros r. destruct (_ && _) eqn:E; [|done]. unbool. split_and!; try done. congruence.
  - apply after_list_fmap. intros r _. destruct (_ && _) eqn:E; [|done]. unbool. split_and!; try done. congruence.
Qed.

Lemma ended_quiet d : quiet job (ended job js ss d).
Proof using Hjs Hss.
  split_and!.
  - intros r. cbn. rewrite lookup_alter_eq, fmap_Some. intros (r0 & _ & ->). destruct (live_job r0) eqn:E; [apply live_job_ended|done].
  - intros a r. cbn. rewrite lookup_fmap, fmap_Some. intros (r0 & _ & ->). destruct (_ && _) eqn:E; [intros _; apply live_attempt_ended|].
    intros Ej. by rewrite (bool_decide_true _ Ej) in E.
  - intros r. cbn. rewrite list_elem_of_fmap. intros (r0 & -> & _). destruct (_ && _) eqn:E; [intros _; apply live_source_ended|].
    intros Ej. by rewrite (bool_decide_true _ Ej) in E.
Qed.
End ended.

(** ** A new generation *)

(** What is live of a pull request is gone. *)
Definition retired (k : PRKey) (d : DB) : Prop := ∀ w j, db_prs d !! k = Some w → pw_Job w = Some j → quiet j d.

Lemma current_job_insert d k w' j :
  (∀ w, db_prs d !! k = Some w → pw_Job w = Some j → False) → current_job d j → current_job (set_prs (<[k := w']>) d) j.
Proof.
  intros Hk (k0 & w & Hw & Hj). exists k0, w. split; [|done]. cbn. rewrite lookup_insert_ne; [done|].
  intros <-. by eapply Hk.
Qed.

(** A pull request moves to a generation without a job. *)
Lemma blank_Consistent d k w' :
  Consistent d → retired k d → (∀ w, db_prs d !! k = Some w → pw_Gen w < pw_Gen w') → 1 <= pw_Gen w' <= MaxInt64 →
  pw_Job w' = None → pw_Target w' = None → pw_Eligibility w' <> PREligibilityEligible →
  Consistent (set_prs (<[k := w']>) d).
Proof.
  intros [Crow Cgen Cuniq Catt Csrc Creq Clj Cla Cls] Hret Hgen Hr Hj Ht He. split; try done.
  - intros k0 w. cbn. rewrite lookup_insert_Some. intros [[<- <-]|[Hne Hw]].
    + split; [done|]. by rewrite Hj.
    + destruct (Crow k0 w Hw) as [? Hrow]. done.
  - intros j r Hjr. destruct (Cgen j r Hjr) as (w & Hw & Hle). cbn. destruct (decide (k = jobKey r)) as [->|Hne].
    + exists w'. rewrite lookup_insert_eq. specialize (Hgen w Hw). split; [done|lia].
    + exists w. by rewrite lookup_insert_ne.
  - intros j r Hjr Hl. apply current_job_insert; [|by eapply Clj]. intros w Hw E.
    destruct (Hret w j Hw E) as (Hq & _ & _). by rewrite (Hq r Hjr) in Hl.
  - intros a r Har Hl. apply current_job_insert; [|by eapply Cla]. intros w Hw E.
    destruct (Hret w _ Hw E) as (_ & Hq & _). by rewrite (Hq a r Har eq_refl) in Hl.
  - intros r Hin Hl. apply current_job_insert; [|by eapply Cls]. intros w Hw E.
    destruct (Hret w _ Hw E) as (_ & _ & Hq). by rewrite (Hq r Hin eq_refl) in Hl.
Qed.

(** The job, attempt and source request of a generation without a job. *)
Lemma scheduled_Consistent d k w w' target job a src snap now :
  let r := newJobRow job now in
  Consistent d → db_prs d !! k = Some w → pw_Job w = None → pw_Gen w' = pw_Gen w →
  (∀ j r0, db_jobs d !! j = Some r0 → jobKey r0 = k → jw_Generation r0 < pw_Gen w) →
  pw_Eligibility w' = PREligibilityEligible → pw_Job w' = Some (aj_ID job) → pw_Target w' = Some (aj_TargetID job) →
  aj_ID job <> ""%string → jobKey r = k → aj_Generation job = pw_Gen w →
  aa_JobID a = aj_ID job → aa_TargetID a = aj_TargetID job → aa_Generation a = aj_Generation job →
  db_jobs d !! aj_ID job = None → source_free src d →
  Consistent (set_prs (<[k := w']>) (inserted target job a src snap now d)).
Proof.
  intros r [Crow Cgen Cuniq Catt Csrc Creq Clj Cla Cls] Hw Hnone Eg Hlt He Ej Et Hne Hk Eg' Eaj Eat Eag Hfree Hsrc.
  set (d' := set_prs _ _).
  assert (db_jobs d' !! aj_ID job = Some r) as Hr by apply lookup_insert_eq.
  assert (∀ j r0, db_jobs d !! j = Some r0 → j <> aj_ID job) as Hnew by congruence.
  assert (∀ j r0, db_jobs d !! j = Some r0 → db_jobs d' !! j = Some r0) as Hold.
  { intros j r0 H. cbn. rewrite lookup_insert_ne; [done|]. intros <-. by apply (Hnew _ _ H). }
  assert (∀ j r0, db_jobs d' !! j = Some r0 → j = aj_ID job ∧ r0 = r ∨ db_jobs d !! j = Some r0) as Hcases.
  { intros j r0. cbn. rewrite lookup_insert_Some. intros [[<- <-]|[_ ?]]; [by left|by right]. }
  assert (current_job d' (aj_ID job)) as Hcur by (exists k, w'; split; [apply lookup_insert_eq|done]).
  assert (∀ j, current_job d j → current_job d' j) as Hcurs.
  { intros j Hj. apply (current_job_insert d k w'); [|done]. intros w0 Hw0. rewrite Hw in Hw0. injection Hw0 as <-. by rewrite Hnone. }
  assert (∀ j g t, of_job d j g t → of_job d' j g t) as Hof by (intros j g t (r0 & ? & ?); exists r0; split; [by apply Hold|done]).
  assert (of_job d' (aj_ID job) (aj_Generation job) (aj_TargetID job)) as Hofnew by (by exists r).
  split.
  - intros k0 w0. cbn. rewrite lookup_insert_Some. intros [[<- <-]|[Hn Hw0]].
    + split; [rewrite Eg; by apply (Crow k w Hw)|]. rewrite Ej. split_and!; try done. exists r. split_and!; try done. cbn. by rewrite Eg.
    + destruct (Crow k0 w0 Hw0) as [? Hrow]. split; [done|]. destruct (pw_Job w0); [|done].
      destruct Hrow as (? & ? & r0 & Hr0 & Hrest). split_and!; try done. exists r0. split; [by apply Hold|done].
  - intros j r0 [[-> ->]|Hr0]%Hcases.
    + exists w'. cbn. rewrite Hk, lookup_insert_eq. split; [done|lia].
    + destruct (Cgen j r0 Hr0) as (w0 & Hw0 & Hle). cbn. destruct (decide (k = jobKey r0)) as [->|Hn].
      * exists w'. rewrite lookup_insert_eq. split; [done|]. rewrite Hw in Hw0. injection Hw0 as <-. lia.
      * exists w0. by rewrite lookup_insert_ne.
  - intros j1 j2 r1 r2 [[-> ->]|H1]%Hcases [[-> ->]|H2]%Hcases; [done|..]; intros Ek Egen.
    + exfalso. specialize (Hlt _ _ H2). cbn in Egen. rewrite <-Ek in Hlt. specialize (Hlt Hk). lia.
    + exfalso. specialize (Hlt _ _ H1). cbn in Egen. rewrite Ek in Hlt. specialize (Hlt Hk). lia.
    + by eapply Cuniq.
  - intros x r0. cbn. rewrite lookup_insert_Some. intros [[<- <-]|[_ Hx]]; [cbn; by rewrite Eaj, Eat, Eag|by eapply Hof, Catt].
  - intros r0. cbn. rewrite elem_of_app, list_elem_of_singleton. intros [Hin| ->]; [by apply Hof, Csrc|done].
  - cbn. rewrite fmap_app. apply NoDup_app. split_and!; [done| |by apply NoDup_singleton].
    intros x (r0 & -> & Hin)%list_elem_of_fmap. cbn. rewrite list_elem_of_singleton. by apply Hsrc.
  - intros j r0 [[-> ->]|Hr0]%Hcases Hl; [done|by eapply Hcurs, Clj].
  - intros x r0. cbn. rewrite lookup_insert_Some. intros [[<- <-]|[_ Hx]] Hl; [by cbn; rewrite Eaj|by eapply Hcurs, Cla].
  - intros r0. cbn. rewrite elem_of_app, list_elem_of_singleton. intros [Hin| ->] Hl; [by apply Hcurs, Cls|done].
Qed.

(** A row rewritten with the verdict it had. *)
Lemma rewritten_Consistent d k w w' :
  db_prs d !! k = Some w → pw_Gen w' = pw_Gen w → same_verdict w w' → Consistent d → Consistent (set_prs (<[k := w']>) d).
Proof.
  intros Hw Eg (Ee & Et & Ej) [Crow Cgen Cuniq Catt Csrc Creq Clj Cla Cls].
  assert (∀ j, current_job d j → current_job (set_prs (<[k := w']>) d) j) as Hcur.
  { intros j (k0 & w0 & Hw0 & Hj). unfold current_job. cbn. destruct (decide (k = k0)) as [<-|Hne].
    - exists k, w'. rewrite lookup_insert_eq. split; [done|]. congruence.
    - exists k0, w0. by rewrite lookup_insert_ne. }
  split; try done; try by eauto.
  - intros k0 w0. cbn. rewrite lookup_insert_Some. intros [[<- <-]|[_ Hw0]]; [|by apply (Crow k0 w0)].
    destruct (Crow k w Hw) as [? Hrow]. split; [by rewrite Eg|]. by rewrite Ej, Ee, Et, Eg.
  - intros j r Hr. destruct (Cgen j r Hr) as (w0 & Hw0 & Hle). cbn. destruct (decide (k = jobKey r)) as [->|Hne].
    + exists w'. rewrite lookup_insert_eq. split; [done|]. rewrite Hw in Hw0. injection Hw0 as <-. lia.
    + exists w0. by rewrite lookup_insert_ne.
Qed.
