(* ===== verification/ControllerSteps.v ===== *)
(** * Every operation of the controller's store keeps the invariant

    The operations as steps between tables, one lemma per operation: its success
    leaves consistent tables, and what was there evolves. *)

From stdpp Require Import prelude gmap strings.
From Stdlib Require Import ZArith Lia Ascii.
From S2P Require Import Prelude GoStd Sha256 Framing GoTime Model Json GoText Sql GithubApp ControllerStore ControllerSource ControllerStoreSpec ControllerInv.
Local Open Scope Z_scope.

(** What an operation that succeeded leaves. *)
Definition sound (d d' : DB) : Prop := Consistent d → Consistent d' ∧ evolves d d'.

#[global] Instance sound_preorder : PreOrder sound.
Proof.
  split; [by intros d ?|]. intros d1 d2 d3 H1 H2 Hc. destruct (H1 Hc) as [Hc2 ?]. destruct (H2 Hc2) as [? ?].
  split; [done|by etrans].
Qed.

Lemma frame_sound d d' :
  core d' = core d → db_processed d ⊆ db_processed d' → db_bindings d ⊆ db_bindings d' → sound d d'.
Proof.
  intros Hcore Hp Hb Hc. split; [by eapply Consistent_core|]. injection Hcore as E1 E2 E3 E4.
  split; try done; by rewrite ?E1, ?E2, ?E3, ?E4.
Qed.
Lemma unleased_sound l d : sound d (unleased l d).
Proof. by apply frame_sound. Qed.
Lemma leases_sound f d : sound d (set_leases f d).
Proof. by apply frame_sound. Qed.
Lemma recorded_sound p r d : db_processed d !! delivery p = None → sound d (recorded p r d).
Proof. intros H. apply frame_sound; [done| |done]. by apply insert_subseteq. Qed.

Definition at_key (k : PRKey) (d : DB) : CurrentPRState := currentOf k (db_prs d !! k).

(** What [supersedeCurrent] does to the pull request it was read from. *)
Lemma superseded_sound k d : sound d (superseded (at_key k d) d).
Proof.
  intros Hc. unfold superseded. destruct (_ != _); [|done].
  split; [apply ended_Consistent; auto|apply ended_evolves].
Qed.

Lemma current_job_of d k w : Consistent d → db_prs d !! k = Some w → cs_CurrentJobID (at_key k d) = default ""%string (pw_Job w).
Proof. intros _ Hw. unfold at_key. by rewrite Hw. Qed.

Lemma superseded_retired k d : Consistent d → retired k (superseded (at_key k d) d).
Proof.
  intros Hc w j Hw Hj. destruct (superseded_frame (at_key k d) d) as (_ & _ & Ep & _). rewrite Ep in Hw.
  unfold superseded. rewrite (current_job_of d k w Hc Hw), Hj. cbn [default].
  destruct (c_row _ Hc k w Hw) as [_ Hrow]. rewrite Hj in Hrow. destruct Hrow as (_ & Hne & _).
  rewrite (bool_decide_false _ Hne). cbn. apply ended_quiet; auto.
Qed.

Lemma superseded_jobgen k d j r :
  Consistent d → db_jobs (superseded (at_key k d) d) !! j = Some r → jobKey r = k → jw_Generation r <= cs_Generation (at_key k d).
Proof.
  intros Hc Hr <-. destruct (superseded_sound (jobKey r) d Hc) as [Hc1 _].
  destruct (c_jobgen _ Hc1 j r Hr) as (w & Hw & Hle). destruct (superseded_frame (at_key (jobKey r) d) d) as (_ & _ & Ep & _).
  rewrite Ep in Hw. unfold at_key. by rewrite Hw.
Qed.

(** The columns of a row that was written for a result. *)
Lemma nullable_Some s : s <> ""%string → nullable s = Some s.
Proof. intros H. unfold nullable. by rewrite bool_decide_false. Qed.
Lemma prefixed_not_empty prefix domain fields : prefixedID (String (byte_of 106) prefix) domain fields <> ""%string.
Proof. done. Qed.

Lemma at_key_gen_range k d : Consistent d → 0 <= cs_Generation (at_key k d) <= MaxInt64.
Proof.
  intros Hc. unfold at_key. destruct (db_prs d !! k) as [w|] eqn:Hw; cbn; [|done]. destruct (c_row _ Hc k w Hw) as [? _]. lia.
Qed.
Lemma at_key_lt k d w' : Consistent d → pw_Gen w' = cs_Generation (at_key k d) + 1 → ∀ w, db_prs d !! k = Some w → pw_Gen w < pw_Gen w'.
Proof. intros _ E w Hw. unfold at_key in E. rewrite Hw in E. cbn in E. lia. Qed.

Lemma set_prs_evolves d k w' :
  (∀ w, db_prs d !! k = Some w → pr_after w w') → evolves d (set_prs (<[k := w']>) d).
Proof. intros H. split; try done. by apply after_insert; [apply _|]. Qed.

Lemma inserted_evolves target job a src snap now d :
  db_jobs d !! aj_ID job = None → attempt_free a d → evolves d (inserted target job a src snap now d).
Proof.
  intros Hj [Ha _]. split; try done; cbn.
  - apply after_insert; [apply _|]. by rewrite Hj.
  - apply after_insert; [apply _|]. by rewrite Ha.
  - by apply after_list_app; apply _.
Qed.

(** The plan of a snapshot, with the state it writes. *)
Definition settled (i : PullRequestReconcileInput) (plan : Plan) (d1 : DB) : DB :=
  if pn_same plan then d1 else upserted i (pn_result plan) d1.

Lemma blocked_plan_sound i d gen d1 :
  let k := rl_Key (pi_Lease i) in let cur := at_key k d in let e := eligibilityFor (pi_Snapshot i) in
  e <> PREligibilityEligible →
  (if decide (cs_Generation cur = 0 ∨ cs_Eligibility cur <> e)
   then cs_Generation cur <> MaxInt64 ∧ gen = cs_Generation cur + 1 ∧ d1 = superseded cur d
   else gen = cs_Generation cur ∧ d1 = d) →
  ∀ decision, sound d (upserted i (mkReconcileResult decision gen "" "" "" "" e) d1).
Proof.
  intros k cur e He H decision Hc. pose proof (at_key_gen_range k d Hc) as Hr. fold cur in Hr. destruct (decide _) as [_|Hd].
  - destruct H as (Hmax & -> & ->). destruct (superseded_sound k d Hc) as [Hc1 Hev]. fold cur in Hc1, Hev.
    destruct (superseded_frame cur d) as (_ & _ & Ep & _).
    assert (∀ w, db_prs (superseded cur d) !! k = Some w → pw_Gen w < cs_Generation cur + 1) as Hlt.
    { intros w. rewrite Ep. intros Hw. subst cur. unfold at_key. rewrite Hw. cbn. lia. }
    split; [apply blank_Consistent; try done; [by apply superseded_retired|cbn; lia]|].
    etrans; [exact Hev|]. apply set_prs_evolves. intros w Hw. specialize (Hlt w Hw). split; cbn; lia.
  - destruct H as [-> ->]. subst cur. unfold at_key in *. destruct (db_prs d !! k) as [w|] eqn:Hw; [|cbn in *; tauto]. cbn in Hd, Hr.
    destruct (c_row _ Hc k w Hw) as [_ Hrow].
    assert (pw_Eligibility w = e) as Ee by (destruct (decide (pw_Eligibility w = e)); tauto).
    assert (pw_Job w = None ∧ pw_Target w = None) as [Ej Et] by (destruct (pw_Job w); [destruct Hrow as [Hx _]; by rewrite Ee in Hx|by destruct Hrow]).
    assert (same_verdict w (prRow i (mkReconcileResult decision (pw_Gen w) "" "" "" "" e))) as Hsame by (split_and!; cbn; [done|by rewrite Et|by rewrite Ej]).
    split; [by apply (rewritten_Consistent d k w)|]. apply set_prs_evolves. fold k. rewrite Hw. by intros ? [= <-].
Qed.

Lemma validateInput_key s i :
  validateInput s i = Ok () →
  let k := rl_Key (pi_Lease i) in
  ps_Number (pi_Snapshot i) = k_PullRequestNumber k ∧ ep_RepositoryID (ps_Base (pi_Snapshot i)) = k_BaseRepositoryID k.
Proof.
  unfold validateInput. rewrite reject_bind_Ok, bind_Ok. intros (_ & u & _ & H). rewrite !reject_bind_Ok, reject_if_Ok in H.
  destruct H as (_ & _ & H). by unbool.
Qed.

Lemma prkey_eta k : mkPRKey (k_InstallationID k) (k_BaseRepositoryID k) (k_PullRequestNumber k) = k.
Proof. by destruct k. Qed.

Lemma planned_sound s i d plan d1 :
  validateInput s i = Ok () → planned i (at_key (rl_Key (pi_Lease i)) d) d plan d1 → sound d (settled i plan d1).
Proof.
  intros Hv [target_id|job attempt target gen src He Hmax Hneq Hj Ha d2 Hfj Hfa Hfs|gen d2 e He H]; unfold settled; cbn [pn_same pn_result];
    [done| |by apply blocked_plan_sound].
  set (k := rl_Key (pi_Lease i)) in *. set (cur := at_key k d) in *. intros Hc.
  destruct (superseded_sound k d Hc) as [Hc2 Hev]. fold cur d2 in Hc2, Hev. pose proof (at_key_gen_range k d Hc) as Hr. fold cur in Hr.
  destruct (superseded_frame cur d) as (_ & _ & Ep & _). fold d2 in Ep.
  assert (∀ w, db_prs d2 !! k = Some w → pw_Gen w < gen) as Hlt.
  { intros w. rewrite Ep. intros Hw. subst gen cur. unfold at_key. rewrite Hw. cbn. lia. }
  destruct (NewAnalysisJob_Ok _ _ _ _ _ Hj) as (_ & _ & Etarget & Egen & Eid).
  destruct (NewAnalysisAttempt_Ok _ _ _ _ Ha) as (Eaj & Eat & Eag & _ & _). destruct (validateInput_key _ _ Hv) as [En Eb].
  set (r := mkReconcileResult DecisionScheduledNewTarget _ _ _ _ _ _).
  assert (aj_ID job <> ""%string ∧ aj_TargetID job <> ""%string) as [Hne Hnt].
  { rewrite Eid. split; [done|]. unfold NewAnalysisJob in Hj. rewrite !reject_bind_Ok, bind_Ok in Hj.
    destruct Hj as (_ & _ & t & Ht & [= <-]). unfold targetID in Ht. apply bind_Ok in Ht as (? & _ & [= <-]). done. }
  set (blank := mkPRRow gen "" None None None None None None None "").
  set (snap := pi_Snapshot i) in *. set (now := gt_instant (pi_Now i)) in *.
  assert (upserted i r (inserted target job attempt src snap now d2)
          = set_prs (<[k := prRow i r]>) (inserted target job attempt src snap now (set_prs (<[k := blank]>) d2))) as ->.
  { unfold upserted, inserted, addAttempt, newTarget, set_prs, set_sources, set_attempts, set_jobs, set_targets. cbn.
    fold k. by rewrite insert_insert_eq. }
  split.
  - apply (scheduled_Consistent _ k blank); try done.
    + apply blank_Consistent; try done; [by apply superseded_retired|cbn; subst gen; lia].
    + apply lookup_insert_eq.
    + intros j r0 Hr0 Hk. cbn in *. pose proof (superseded_jobgen k d j r0 Hc Hr0 Hk). fold cur in H. subst gen. lia.
    + cbn. by rewrite nullable_Some.
    + cbn. by rewrite nullable_Some.
    + unfold jobKey. cbn. rewrite Etarget. cbn. fold snap. rewrite En, Eb. apply prkey_eta.
  - etrans; [exact Hev|]. etrans; [apply (inserted_evolves target job attempt src snap now d2); done|].
    etrans; [apply (set_prs_evolves _ k (prRow i r))|].
    + cbn. intros w Hw. specialize (Hlt w Hw). split; cbn; lia.
    + replace (set_prs _ _) with (set_prs (<[k:=prRow i r]>) (inserted target job attempt src snap now (set_prs <[k:=blank]> d2))); [done|].
      unfold inserted, addAttempt, newTarget, set_prs, set_sources, set_attempts, set_jobs, set_targets. cbn. by rewrite insert_insert_eq.
Qed.

(** ** The operations on pull requests *)

Lemma ApplyPullRequestSnapshot_sound s i faults n d r n' d' :
  ApplyPullRequestSnapshot s i faults n d = Ok (r, n', d') → sound d d'.
Proof.
  intros H. apply ApplyPullRequestSnapshot_Ok in H as (Hv & _ & H). destruct (db_processed d !! _) eqn:Hp.
  - destruct H as (_ & _ & ->). apply unleased_sound.
  - destruct H as (plan & d1 & Hplan & -> & ->). pose proof (planned_frame _ _ _ _ _ Hplan) as (_ & Epr & _).
    etrans; [by eapply planned_sound|]. unfold settled. etrans; [|apply unleased_sound]. apply recorded_sound.
    destruct (pn_same plan); cbn; by rewrite Epr.
Qed.

Lemma RecordProcessingDecision_sound s p decision when faults n d r n' d' :
  RecordProcessingDecision s p decision when faults n d = Ok (r, n', d') → sound d d'.
Proof.
  unfold RecordProcessingDecision. intros H. inv_tx H. apply transaction_Ok in H as (c & n2 & H). apply recordOnce_Ok in H.
  destruct (db_processed d !! _) eqn:Hp; [by destruct H as (_ & _ & ->)|]. destruct H as [n3 H]. inv_tx H.
  by apply recorded_sound.
Qed.

Lemma AcquireReconcileLease_sound s key owner now duration faults n d r n' d' :
  AcquireReconcileLease s key owner now duration faults n d = Ok (r, n', d') → sound d d'.
Proof.
  unfold AcquireReconcileLease. intros H. inv_tx H. apply transaction_Ok in H as (c & n2 & H). inv_tx H.
  destruct (db_leases d !! key); inv_tx Hs; apply leases_sound.
Qed.

Lemma RegisterCheckBinding_sound s b faults n d u n' d' :
  RegisterCheckBinding s b faults n d = Ok (u, n', d') → sound d d'.
Proof.
  unfold RegisterCheckBinding. intros H. inv_tx H.
  assert (sound d (set_bindings (λ m, if m !! bindingKey b is Some _ then m else <[bindingKey b := b]> m) d)) as Hsound.
  { apply frame_sound; [done..|]. cbn. destruct (db_bindings d !! bindingKey b) eqn:E; [done|]. by apply insert_subseteq. }
  destruct (db_bindings d !! bindingKey b); inv_tx H; done.
Qed.

(** *** Installations *)

(** Block a pull request that is as [w] describes it. *)
Definition blockedRow (now : Time) (w r : PRRow) : PRRow :=
  mkPRRow (pw_Gen w + 1) PREligibilityInstallationBlocked None None (pw_BaseOwner r) (pw_BaseName r)
    (pw_BaseCommitID r) (pw_HeadRepositoryID r) (pw_HeadCommitID r) (formatTime now).

Lemma blockRow_sound now k w faults n d u n' d' :
  db_prs d !! k = Some w → blockRow now k w faults n d = Ok (u, n', d') →
  sound d d' ∧ db_prs d' = <[k := blockedRow now w w]> (db_prs d) ∧ db_processed d' = db_processed d.
Proof.
  intros Hw. unfold blockRow. intros H. inv_tx H. unbool.
  rename d0 into d1. assert (sound d d1 ∧ db_prs d1 = db_prs d ∧ db_processed d1 = db_processed d ∧
    (Consistent d → retired k d1)) as (H1 & Ep & Epr & Hret).
  { destruct (pw_Job w) as [j|] eqn:Ej.
    - unfold cancelCurrentJob in *. inv_tx Hs. split_and!; try done.
      + intros Hc. split; [apply ended_Consistent; auto|apply ended_evolves].
      + intros _ w0 j0 Hw0. cbn in Hw0. rewrite Hw in Hw0. injection Hw0 as <-. rewrite Ej. intros [= <-].
        apply ended_quiet; auto.
    - inv_tx Hs. split_and!; try done. intros _ w0 j0. rewrite Hw. intros [= <-]. by rewrite Ej. }
  clear Hs.
  assert (alter (λ r, if pw_Gen r == pw_Gen w then blockedRow now w r else r) k (db_prs d1)
          = <[k := blockedRow now w w]> (db_prs d1)) as Ea.
  { apply map_eq. intros k0. destruct (decide (k = k0)) as [<-|Hne].
    - rewrite lookup_alter_eq, lookup_insert_eq, Ep, Hw. cbn. by rewrite bool_decide_true.
    - by rewrite lookup_alter_ne, lookup_insert_ne. }
  unfold blockedRow in Ea. cbn. rewrite Ea, Ep. split; [|done].
  intros Hc. destruct (H1 Hc) as [Hc1 Hev]. destruct (c_row _ Hc k w Hw) as [Hr _].
  assert (∀ w0, db_prs d1 !! k = Some w0 → pw_Gen w0 < pw_Gen w + 1) as Hlt.
  { intros w0. rewrite Ep, Hw. intros [= <-]. lia. }
  assert (set_prs (alter _ k) d1 = set_prs (<[k := blockedRow now w w]>) d1) as -> by (unfold set_prs; by rewrite Ea).
  split; [apply blank_Consistent; try done; [by apply Hret|cbn; lia]|].
  etrans; [exact Hev|]. apply set_prs_evolves. intros w0 Hw0. specialize (Hlt w0 Hw0). split; cbn; lia.
Qed.

Lemma blockRows_sound now rows faults n d u n' d' :
  NoDup rows.*1 → (∀ k w, (k, w) ∈ rows → db_prs d !! k = Some w) → blockRows now rows faults n d = Ok (u, n', d') →
  sound d d' ∧ db_processed d' = db_processed d
  ∧ (∀ k w, (k, w) ∈ rows → db_prs d' !! k = Some (blockedRow now w w))
  ∧ (∀ k, k ∉ rows.*1 → db_prs d' !! k = db_prs d !! k).
Proof.
  revert n d. induction rows as [|[k w] rows IH]; intros n d Hnd Hrows; cbn [blockRows].
  { intros H. inv_tx H. split_and!; try done. intros ? ? [] % not_elem_of_nil. }
  intros H. inv_tx H. rewrite fmap_cons in *. apply NoDup_cons in Hnd as [Hk Hnd]. cbn in Hk.
  match goal with Hb : blockRow _ _ _ _ _ _ = Ok _ |- _ => apply blockRow_sound in Hb as (H1 & Ep & Epr); [|apply Hrows; by left] end.
  apply IH in H as (H2 & Epr2 & Hin & Hout); [|done|].
  - split_and!; [by etrans|congruence| |].
    + intros k0 w0 [[= -> ->]|Hx]%elem_of_cons; [|by apply Hin]. rewrite Hout, Ep by done. apply lookup_insert_eq.
    + intros k0 [Hne Hx]%not_elem_of_cons. rewrite Hout, Ep by done. by rewrite lookup_insert_ne.
  - intros k0 w0 Hx. rewrite Ep, lookup_insert_ne; [by apply Hrows; right|]. intros <-. apply Hk.
    apply list_elem_of_fmap. by exists (k, w0).
Qed.

Lemma elem_of_rowsToBlock p d k w :
  (k, w) ∈ rowsToBlock p d ↔ db_prs d !! k = Some w ∧ k_InstallationID k = ip_InstallationID p
    ∧ pw_Eligibility w = PREligibilityEligible ∧ repositoryAffectedByHint p (k_BaseRepositoryID k) = true.
Proof. unfold rowsToBlock. rewrite list_elem_of_filter, elem_of_map_to_list. tauto. Qed.

Lemma rowsToBlock_NoDup p d : NoDup (rowsToBlock p d).*1.
Proof. unfold rowsToBlock. eapply sublist_NoDup; [|apply fmap_sublist, sublist_filter]. apply NoDup_fst_map_to_list. Qed.

Lemma if_any {A B} (l : list A) (x y : B) :
  (if bool_decide (0 < length l)%nat then x else y) = if decide (l = []) then y else x.
Proof. by destruct l. Qed.

(** An installation hint: the pull requests it blocks, and no other. *)
Lemma ApplyInstallationHint_Ok s i faults n d r n' d' :
  ApplyInstallationHint s i faults n d = Ok (r, n', d') →
  match db_processed d !! delivery (ii_Processed i) with
  | Some w => pw_ProjectionDigest w = pd_ProjectionDigest (ii_Processed i) ∧ r = duplicateOf w ∧ d' = d
  | None =>
    let rows := if installationHintInvalidates (ii_Projection i) then rowsToBlock (ii_Projection i) d else [] in
    ∃ d1, d' = recorded (ii_Processed i) r d1 ∧ sound d d1 ∧ db_processed d1 = db_processed d
      ∧ r = decided (if decide (rows = []) then DecisionInstallationHintRecorded else DecisionInstallationBlocked)
      ∧ (∀ k w, (k, w) ∈ rows → db_prs d1 !! k = Some (blockedRow (gt_instant (ii_Now i)) w w))
      ∧ (∀ k, k ∉ rows.*1 → db_prs d1 !! k = db_prs d !! k)
  end.
Proof.
  unfold ApplyInstallationHint. intros H. inv_tx H. apply transaction_Ok in H as (c & n2 & H). apply recordOnce_Ok in H.
  destruct (db_processed d !! _) eqn:Hp; [done|]. destruct H as [n3 H]. inv_tx H.
  destruct (installationHintInvalidates _).
  - unfold invalidateInstallationRows in Hs. inv_tx Hs.
    match goal with Hb : blockRows _ _ _ _ _ = Ok _ |- _ =>
      apply blockRows_sound in Hb as (Hsound & Epr & Hin & Hout); [|apply rowsToBlock_NoDup|intros k w; rewrite elem_of_rowsToBlock; tauto] end.
    injection H as -> ->. rewrite if_any. exists d1. split; [reflexivity|]. by split_and!.
  - inv_tx Hs. injection H as -> ->. exists d. split; [done|]. split_and!; [done..| |]; [|done]. intros k w []%not_elem_of_nil.
Qed.

Lemma ApplyInstallationHint_sound s i faults n d r n' d' :
  ApplyInstallationHint s i faults n d = Ok (r, n', d') → sound d d'.
Proof.
  intros H. apply ApplyInstallationHint_Ok in H. destruct (db_processed d !! _) eqn:Hp; [by destruct H as (_ & _ & ->)|].
  destruct H as (d1 & -> & Hsound & Epr & _). etrans; [exact Hsound|]. apply recorded_sound. by rewrite Epr.
Qed.

(** *** Rerequests *)

(** The attempt that a rerequest of a bound check adds. *)
Definition rerequested (s : Store) (i : RerequestInput) (b : CheckBinding) (d : DB) (a : AnalysisAttempt) : Prop :=
  let next := match maxAttempt (attemptsOf (cb_JobID b) d) with Some n => inc64 n | None => 1 end in
  next <= l_MaxAttemptsPerJob (st_limits s) ∧
  aa_JobID a = cb_JobID b ∧ aa_TargetID a = cb_TargetID b ∧ aa_Generation a = cb_ControllerGeneration b ∧ aa_AttemptNumber a = next
  ∧ attempt_free a d.

Lemma newAttempt_Ok s i b faults n d a n' d' :
  newAttempt s i b faults n d = Ok (a, n', d') → rerequested s i b d a ∧ d' = addAttempt a (gt_instant (ri_Now i)) d.
Proof.
  unfold newAttempt, rerequested. intros H. inv_tx H. unbool.
  match goal with Ha : NewAnalysisAttempt _ _ _ = Ok _ |- _ => apply NewAnalysisAttempt_Ok in Ha as (-> & -> & -> & -> & _) end.
  done.
Qed.

Lemma ApplyCheckRunRerequest_Ok s i faults n d r n' d' :
  ApplyCheckRunRerequest s i faults n d = Ok (r, n', d') →
  let p := ri_Processed i in let l := ri_Lease i in let k := rl_Key l in let proj := ri_Projection i in
  holds_lease d l ∧
  match db_processed d !! delivery p with
  | Some w => pw_ProjectionDigest w = pd_ProjectionDigest p ∧ r = duplicateOf w ∧ d' = unleased l d
  | None => ∃ d1, d' = unleased l (recorded p r d1) ∧
    match db_bindings d !! (st_appID s, cp_RepositoryID proj, cp_CheckRunID proj) with
    | None => r = decided DecisionRerequestIgnored ∧ d1 = d
    | Some b =>
      cb_InstallationID b = cp_InstallationID proj ∧ cb_ExternalID b = cp_ExternalID proj
      ∧ cb_PullRequestNumber b = k_PullRequestNumber k ∧
      if bindingCurrent b (at_key k d) i
      then ∃ a, rerequested s i b d a ∧ d1 = addAttempt a (gt_instant (ri_Now i)) d
             ∧ r = mkReconcileResult DecisionRerequestCreated (cb_ControllerGeneration b) (cb_TargetID b) (cb_JobID b) (aa_ID a) "" ""
      else r = mkReconcileResult DecisionRerequestIgnored (cs_Generation (at_key k d)) (cb_TargetID b) (cb_JobID b) "" "" "" ∧ d1 = d
    end
  end.
Proof.
  unfold ApplyCheckRunRerequest. intros H. inv_tx H. apply transaction_Ok in H as (c & n2 & H). apply underLease_Ok in H.
  cbn zeta. destruct (db_processed d !! _) eqn:Hp; [naive_solver|]. destruct H as [n3 H]. inv_tx H.
  destruct (db_bindings d !! _) as [b|].
  - unfold readCurrent in H. inv_tx H. change (currentOf _ _) with (at_key (rl_Key (ri_Lease i)) d) in H.
    destruct (bindingCurrent _ _ _); cbn [negb] in H; inv_tx H.
    + match goal with Ha : newAttempt _ _ _ _ _ _ = Ok _ |- _ => apply newAttempt_Ok in Ha as [Ha ->] end.
      apply settle_Ok in H as (Hl & Hr & ->). cbn in Hr. subst r. unbool. split; [done|]. eexists. split; [done|]. split_and!; eauto.
    + apply settle_Ok in H as (Hl & Hr & ->). cbn in Hr. subst r. unbool. split; [done|]. eexists. split; [done|]. done.
  - apply settle_Ok in H as (Hl & Hr & ->). cbn in Hr. subst r. split; [done|]. by eexists.
Qed.

Lemma addAttempt_sound a now d k w j :
  db_prs d !! k = Some w → pw_Job w = Some j → aa_JobID a = j → aa_Generation a = pw_Gen w → pw_Target w = Some (aa_TargetID a) →
  attempt_free a d → sound d (addAttempt a now d).
Proof.
  intros Hw Hj Ej Eg Et [Hfree _] Hc. split.
  - destruct (c_row _ Hc k w Hw) as [_ Hrow]. rewrite Hj in Hrow. destruct Hrow as (_ & _ & r & Hr & _ & Hrg & Hrt).
    destruct Hc as [Crow Cgen Cuniq Catt Csrc Creq Clj Cla Cls]. split; try done; intros x r0; cbn; rewrite lookup_insert_Some.
    + intros [[<- <-]|[_ Hx]]; [|by eapply Catt]. cbn. rewrite Ej. exists r. split_and!; [done|congruence..].
    + intros [[<- <-]|[_ Hx]] Hl; [|by eapply Cla]. cbn. rewrite Ej. by exists k, w.
  - split; try done. cbn. apply after_insert; [apply _|]. by rewrite Hfree.
Qed.

Lemma ApplyCheckRunRerequest_sound s i faults n d r n' d' :
  ApplyCheckRunRerequest s i faults n d = Ok (r, n', d') → sound d d'.
Proof.
  intros H. apply ApplyCheckRunRerequest_Ok in H. cbn zeta in H. destruct H as [_ H]. destruct (db_processed d !! _) eqn:Hp.
  { destruct H as (_ & _ & ->). apply unleased_sound. }
  destruct H as (d1 & -> & H). etrans; [|apply unleased_sound].
  assert (sound d d1 ∧ db_processed d1 = db_processed d) as [Hs Epr].
  { destruct (db_bindings d !! _) as [b|]; [|by destruct H as [_ ->]]. destruct H as (_ & _ & _ & H).
    destruct (bindingCurrent _ _ _) eqn:Hb; [|by destruct H as [_ ->]]. destruct H as (a & Ha & -> & _).
    split; [|done]. unfold bindingCurrent in Hb. unbool. destruct Ha as (_ & Ej & Et & Eg & _ & Hfree).
    intros Hc. unfold at_key in *. destruct (db_prs d !! rl_Key (ri_Lease i)) as [w|] eqn:Hw; [|done]. cbn in *.
    destruct (c_row _ Hc _ w Hw) as [_ Hrow].
    destruct (pw_Job w) as [j|] eqn:Hj; [|destruct Hrow; congruence]. destruct Hrow as (_ & _ & r0 & _ & _ & _ & Htw). cbn in *.
    rewrite Htw in *. cbn in *. eapply addAttempt_sound; try done; congruence. }
  etrans; [exact Hs|]. apply recorded_sound. by rewrite Epr.
Qed.

(** ** The operations on source requests *)

(** A change of the source requests that keeps what they are for. *)
Lemma sources_sound f d :
  Forall2 source_tame (db_sources d) (f (db_sources d)) → after_list source_after (db_sources d) (f (db_sources d)) →
  sound d (set_sources f d).
Proof. intros Ht Ha Hc. split; [by apply (Consistent_tame d)|by split]. Qed.

#[global] Instance source_tame_after_refl : Reflexive (λ r r', source_tame r r' ∧ source_after r r').
Proof. split; reflexivity. Qed.

Lemma claimable_live now r : claimable now r = true → live_source r = true.
Proof.
  unfold claimable, live_source. intros H. apply orb_true_iff in H. apply bool_decide_eq_true.
  destruct H as [H|H]; unbool; rewrite H || rewrite H0; set_solver.
Qed.

Definition claimHit (now : string) (r w : SourceRow) : bool := (sw_LeaseGeneration w == sw_LeaseGeneration r) && claimable now w.
Definition claimRow (owner now expires : string) (r w : SourceRow) : SourceRow :=
  if claimHit now r w then with_lease owner (sw_LeaseGeneration r + 1) expires (sw_AttemptCount r + 1) w else w.

Lemma claimRow_after owner now expires r w : source_tame w (claimRow owner now expires r w) ∧ source_after w (claimRow owner now expires r w).
Proof.
  unfold claimRow, claimHit. destruct (_ && _) eqn:E; [|split; reflexivity]. unbool. apply claimable_live in H0.
  split; split_and!; try done; [cbn; lia|congruence].
Qed.

Lemma leaseSource_Ok owner now expires seq r faults n d out n' d' :
  leaseSource owner now expires (seq, r) faults n d = Ok (out, n', d') →
  d' = set_sources (alter (claimRow owner now expires r) seq) d
  ∧ out = (if match db_sources d !! seq with Some w => claimHit now r w | None => false end
           then [rowRequest r owner (sw_LeaseGeneration r + 1)] else []).
Proof. unfold leaseSource. intros H. inv_tx H. done. Qed.

Lemma leaseSource_sound owner now expires c faults n d out n' d' :
  leaseSource owner now expires c faults n d = Ok (out, n', d') → sound d d'.
Proof.
  destruct c as [seq r]. intros [-> _]%leaseSource_Ok. pose proof (Forall2_alter (λ r r', source_tame r r' ∧ source_after r r') (claimRow owner now expires r) seq (db_sources d) (claimRow_after owner now expires r)) as H.
  apply sources_sound; [|apply after_list_of_Forall2]; (eapply Forall2_impl; [exact H|]); cbn; tauto.
Qed.

Lemma leaseSources_sound owner now expires l faults n d out n' d' :
  leaseSources owner now expires l faults n d = Ok (out, n', d') → sound d d'.
Proof.
  revert n d out. induction l as [|c l IH]; intros n d out; cbn [leaseSources]; intros H; inv_tx H; [done|].
  etrans; [by eapply leaseSource_sound|by eapply IH].
Qed.

Lemma elem_of_claimCandidates now limit d i r :
  (i, r) ∈ claimCandidates now limit d → db_sources d !! i = Some r ∧ claimable now r = true.
Proof.
  unfold claimCandidates. intros H. eapply elem_of_sublist in H; [|apply sublist_take].
  apply list_elem_of_filter in H as [Hc (j & y & [= -> ->] & Hj)%elem_of_lookup_imap]. done.
Qed.
Lemma claimCandidates_NoDup now limit d : NoDup (claimCandidates now limit d).*1.
Proof.
  unfold claimCandidates. eapply sublist_NoDup; [|apply fmap_sublist; etrans; [apply sublist_take|apply sublist_filter]].
  apply NoDup_alt. intros i j x. rewrite !list_lookup_fmap, !list_lookup_imap.
  destruct (db_sources d !! i), (db_sources d !! j); cbn; naive_solver.
Qed.

Lemma ClaimSourceImports_sound s owner now duration limit faults n d out n' d' :
  ClaimSourceImports s owner now duration limit faults n d = Ok (out, n', d') → sound d d'.
Proof.
  unfold ClaimSourceImports. intros H. inv_tx H. apply transaction_Ok in H as (c & n2 & H). inv_tx H. by eapply leaseSources_sound.
Qed.

(** An update of the rows whose lease is held changes live rows only. *)
Lemma finished_sound p next c d :
  (Consistent d → ∀ r, r ∈ db_sources d → p r = true → live_source r = true) → sound d (update_sources p (finished next c) d).
Proof.
  intros Hp Hc. specialize (Hp Hc). assert (Forall2 (λ r r', source_tame r r' ∧ source_after r r') (db_sources d)
    ((λ r, if p r then finished next c r else r) <$> db_sources d)) as H.
  { apply Forall2_fmap_r, Forall_Forall2_diag, Forall_forall. intros r Hr. unfold compose. destruct (p r) eqn:E; [|split; reflexivity].
    specialize (Hp r Hr E). split; split_and!; try done. congruence. }
  revert Hc. apply sources_sound; [|apply after_list_of_Forall2]; (eapply Forall2_impl; [exact H|]); cbn; tauto.
Qed.

Lemma leased_live r : sw_State r = SourceStateLeased → live_source r = true.
Proof. intros H. unfold live_source. rewrite H. vm_compute. done. Qed.

Lemma finishSourceLease_sound id owner generation when next faults n d u n' d' :
  finishSourceLease id owner generation when next faults n d = Ok (u, n', d') → sound d d'.
Proof.
  unfold finishSourceLease. intros H. inv_tx H. apply finished_sound. unfold heldLeased. intros _ r _ Hr. unbool. by apply leased_live.
Qed.

Lemma update_job_sound job p st d :
  (∀ r, p r = true → live_job r = true) → sound d (update_job job p st d).
Proof.
  intros Hp Hc. split.
  - apply (Consistent_tame d); try done. apply pointwise_alter; [apply _|].
    intros r. destruct (p r) eqn:E; [|done]. split_and!; try done. by intros _; apply Hp.
  - split; try done. apply after_alter; [apply _|]. intros r _. destruct (p r) eqn:E; [|done]. apply Hp in E.
    split_and!; try done. congruence.
Qed.

Lemma request_unique d r r' :
  Consistent d → r ∈ db_sources d → r' ∈ db_sources d → sw_RequestID r = sw_RequestID r' → r = r'.
Proof.
  intros Hc (n & Hn)%list_elem_of_lookup (n' & Hn')%list_elem_of_lookup E.
  assert (n = n') as ->; [|congruence].
  eapply (NoDup_lookup (sw_RequestID <$> db_sources d)); [apply Hc|by rewrite list_lookup_fmap, Hn|].
  by rewrite list_lookup_fmap, Hn', E.
Qed.

(** The row that a result reports on, and what is left of it and of its job. *)
Lemma ApplySourceImportResult_Ok r owner gen when faults n d u n' d' :
  ApplySourceImportResult r owner gen when faults n d = Ok (u, n', d') →
  ∃ w c, w ∈ db_sources d ∧ heldBy (si_RequestID r) owner gen w = true ∧ resultMatches w r = true
  ∧ (si_Failed r = false → ∃ b, validateSuccessfulSourceResult r = Ok b)
  ∧ d' = update_job (si_JobID r) (λ j, (jw_Generation j == si_Generation r) && (jw_State j == JobStateImportingSource))
           (if si_Failed r then JobStateFailed else JobStateAwaitingRunner)
           (update_sources (λ w, sw_RequestID w == si_RequestID r)
              (finished (if si_Failed r then SourceStateFailed else SourceStateCompleted) (λ _, c)) d).
Proof.
  unfold ApplySourceImportResult. intros H. inv_tx H. apply transaction_Ok in H as (c & n2 & H). inv_tx H. unbool.
  match goal with H : match head _ with _ => _ end = _ |- _ => rename H into Hh end.
  destruct (head _) as [w|] eqn:Ew; [|done]. apply Ok_inj in Hh as ->. apply head_Some_elem_of, list_elem_of_filter in Ew as [Hheld Hin].
  match goal with H : (if si_Failed r then _ else _) = _ |- _ => rename H into Hf end.
  eexists a1, _. split_and!; try done. intros E. rewrite E in Hf. eauto.
Qed.

Lemma importing_live j : jw_State j = JobStateImportingSource → live_job j = true.
Proof. intros H. unfold live_job. rewrite H. vm_compute. done. Qed.

Lemma ApplySourceImportResult_sound r owner gen when faults n d u n' d' :
  ApplySourceImportResult r owner gen when faults n d = Ok (u, n', d') → sound d d'.
Proof.
  intros H. apply ApplySourceImportResult_Ok in H as (w & c & Hin & Hheld & Hm & _ & ->).
  unfold heldBy, resultMatches in *. unbool. etrans; [apply finished_sound|apply update_job_sound].
  - intros Hc w0 Hw0 Eid. cbn in Eid. unbool. rewrite (request_unique d w0 w Hc Hw0 Hin) by congruence. by apply leased_live.
  - intros j Hj. cbn in Hj. unbool. by apply importing_live.
Qed.

(** ** The store as a transition system *)

(** The operations that write; the others only read. *)
Inductive Op : Type :=
| OpAcquireLease (key : PRKey) (owner : string) (now : GoTimeValue) (duration : Z)
| OpApplySnapshot (i : PullRequestReconcileInput)
| OpRecordDecision (p : ProcessedDelivery) (decision : ProcessingDecision) (when : GoTimeValue)
| OpInstallationHint (i : InstallationHintInput)
| OpRegisterBinding (b : CheckBinding)
| OpRerequest (i : RerequestInput)
| OpClaimSources (owner : string) (now : GoTimeValue) (duration limit : Z)
| OpAcknowledgeSource (id owner : string) (generation : Z) (when : GoTimeValue)
| OpReleaseSource (id owner : string) (generation : Z) (when : GoTimeValue)
| OpSourceResult (r : SourceImportResult) (owner : string) (generation : Z) (when : GoTimeValue).

Definition exec_op (s : Store) (op : Op) (faults : Faults) (d : DB) : DB :=
  match op with
  | OpAcquireLease key owner now duration => (run (AcquireReconcileLease s key owner now duration) faults d).2
  | OpApplySnapshot i => (run (ApplyPullRequestSnapshot s i) faults d).2
  | OpRecordDecision p decision when => (run (RecordProcessingDecision s p decision when) faults d).2
  | OpInstallationHint i => (run (ApplyInstallationHint s i) faults d).2
  | OpRegisterBinding b => (run (RegisterCheckBinding s b) faults d).2
  | OpRerequest i => (run (ApplyCheckRunRerequest s i) faults d).2
  | OpClaimSources owner now duration limit => (run (ClaimSourceImports s owner now duration limit) faults d).2
  | OpAcknowledgeSource id owner generation when => (run (AcknowledgeSourceImport id owner generation when) faults d).2
  | OpReleaseSource id owner generation when => (run (ReleaseSourceImport id owner generation when) faults d).2
  | OpSourceResult r owner generation when => (run (ApplySourceImportResult r owner generation when) faults d).2
  end.

(** One operation, whatever the database does. *)
Definition step (s : Store) (d d' : DB) : Prop := ∃ op faults, exec_op s op faults d = d'.
Definition reachable (s : Store) (d : DB) : Prop := rtc (step s) emptyDB d.

Lemma run_sound {A} (m : StoreTx A) faults d :
  (∀ a n d', m faults 0%nat d = Ok (a, n, d') → sound d d') → sound d (run m faults d).2.
Proof. unfold run. intros H. destruct (m faults 0%nat d) as [[[a n] d']|e]; [by eapply H|reflexivity]. Qed.

Lemma step_sound s d d' : step s d d' → sound d d'.
Proof.
  intros (op & faults & <-). destruct op; cbn [exec_op]; apply run_sound; intros a n d1 H;
    first [by eapply AcquireReconcileLease_sound | by eapply ApplyPullRequestSnapshot_sound | by eapply RecordProcessingDecision_sound
      | by eapply ApplyInstallationHint_sound | by eapply RegisterCheckBinding_sound | by eapply ApplyCheckRunRerequest_sound
      | by eapply ClaimSourceImports_sound | by eapply finishSourceLease_sound | by eapply ApplySourceImportResult_sound].
Qed.

Lemma steps_sound s d d' : rtc (step s) d d' → sound d d'.
Proof. induction 1; [done|]. etrans; [by eapply step_sound|done]. Qed.

Lemma reachable_consistent s d : reachable s d → Consistent d.
Proof. intros H. by apply (steps_sound s emptyDB d H), Consistent_empty. Qed.
