(* ===== verification/ControllerLaws.v ===== *)
(** * The controller's store as a whole

    What holds of every reachable store, and of every history: one live
    generation per pull request, deliveries decided once, leases exclusive. *)

From stdpp Require Import prelude gmap strings.
From Stdlib Require Import ZArith Lia Ascii.
From S2P Require Import Prelude GoStd Sha256 Framing GoTime Model Json GoText GoCalendar Sql GithubApp ControllerStore ControllerSource ControllerStoreSpec ControllerInv ControllerSteps.
Local Open Scope Z_scope.

(** ** Generations *)

(** [j] is the job of the current generation [gen] of the pull request [k], which is eligible. *)
Definition current_generation (d : DB) (k : PRKey) (j : string) (gen : Z) : Prop :=
  ∃ w, db_prs d !! k = Some w ∧ pw_Job w = Some j ∧ pw_Eligibility w = PREligibilityEligible ∧ pw_Gen w = gen.

Lemma current_job_generation d j gen target :
  Consistent d → current_job d j → of_job d j gen target →
  ∃ r, db_jobs d !! j = Some r ∧ current_generation d (jobKey r) j gen.
Proof.
  intros Hc (k & w & Hw & Hj) (r & Hr & <- & _). exists r. split; [done|].
  destruct (c_row _ Hc k w Hw) as [_ Hrow]. rewrite Hj in Hrow. destruct Hrow as (He & _ & r' & Hr' & <- & Hg & _).
  rewrite Hr in Hr'. injection Hr' as <-. by exists w.
Qed.

(** C4: in a reachable store only the current generation of an eligible pull
    request has anything live: a live job, a live attempt or a live source request
    is of the current job, at the current generation, and a pull request has at
    most one live job. *)
Theorem one_live_generation s d :
  reachable s d →
  (∀ j r, db_jobs d !! j = Some r → live_job r = true → current_generation d (jobKey r) j (jw_Generation r)) ∧
  (∀ a r, db_attempts d !! a = Some r → live_attempt r = true →
    ∃ jr, db_jobs d !! aw_JobID r = Some jr ∧ current_generation d (jobKey jr) (aw_JobID r) (aw_Generation r)) ∧
  (∀ r, r ∈ db_sources d → live_source r = true →
    ∃ jr, db_jobs d !! sw_JobID r = Some jr ∧ current_generation d (jobKey jr) (sw_JobID r) (sw_Generation r)) ∧
  (∀ j1 j2 r1 r2, db_jobs d !! j1 = Some r1 → db_jobs d !! j2 = Some r2 → live_job r1 = true → live_job r2 = true →
    jobKey r1 = jobKey r2 → j1 = j2).
Proof.
  intros Hc%reachable_consistent.
  assert (∀ j r, db_jobs d !! j = Some r → live_job r = true → current_generation d (jobKey r) j (jw_Generation r)) as Hjob.
  { intros j r Hr Hl. destruct (current_job_generation d j (jw_Generation r) (jw_TargetID r) Hc) as (r' & Hr' & ?);
      [by eapply c_live_job|by exists r|congruence]. }
  split; [done|]. split_and!.
  - intros a r Hr Hl. eapply current_job_generation; [done|by eapply c_live_attempt|by eapply c_attempt].
  - intros r Hr Hl. eapply current_job_generation; [done|by eapply c_live_source|by eapply c_source].
  - intros j1 j2 r1 r2 H1 H2 Hl1 Hl2 E. destruct (Hjob j1 r1 H1 Hl1) as (w1 & Hw1 & Hj1 & _).
    destruct (Hjob j2 r2 H2 Hl2) as (w2 & Hw2 & Hj2 & _). congruence.
Qed.

(** C38: history is never rewritten: generations of a pull request only grow, and
    within a generation the eligibility, target and job stay; a job, attempt or
    source request keeps its identity, and once it ended it stays as it ended;
    lease generations of source requests only grow; what was decided of a delivery
    and what a check was bound to stay. *)
Theorem history_preserved s d d' : reachable s d → rtc (step s) d d' → evolves d d'.
Proof. intros Hr H. by apply (steps_sound s d d' H), (reachable_consistent s). Qed.

(** ** Deliveries *)

(** A delivery that an operation decided: the tables before, the answer, the tables after. *)
Inductive processes (s : Store) : ProcessedDelivery → DB → ReconcileResult → DB → Prop :=
| processes_snapshot i faults d r d' :
    run (ApplyPullRequestSnapshot s i) faults d = (Ok r, d') → processes s (pi_Processed i) d r d'
| processes_rerequest i faults d r d' :
    run (ApplyCheckRunRerequest s i) faults d = (Ok r, d') → processes s (ri_Processed i) d r d'
| processes_installation i faults d r d' :
    run (ApplyInstallationHint s i) faults d = (Ok r, d') → processes s (ii_Processed i) d r d'
| processes_decision p decision when faults d r d' :
    run (RecordProcessingDecision s p decision when) faults d = (Ok r, d') → processes s p d r d'.

(** What a delivery meets: its record, or none, which leaves one. *)
Lemma processes_cases s p d r d' :
  processes s p d r d' →
  match db_processed d !! delivery p with
  | Some w => pw_ProjectionDigest w = pd_ProjectionDigest p ∧ r = duplicateOf w ∧ core d' = core d
      ∧ db_processed d' = db_processed d ∧ db_bindings d' = db_bindings d
  | None => ∃ w, db_processed d' !! delivery p = Some w ∧ pw_ProjectionDigest w = pd_ProjectionDigest p
      ∧ duplicateOf w = mkReconcileResult DecisionDuplicateProcessed (rr_Generation r) (rr_TargetID r) (rr_JobID r) "" "" ""
  end.
Proof.
  assert (∀ p r d1, duplicateOf (processedRow p r) = mkReconcileResult DecisionDuplicateProcessed (rr_Generation r) (rr_TargetID r) (rr_JobID r) "" "" ""
    ∧ db_processed (recorded p r d1) !! delivery p = Some (processedRow p r)) as Hrow.
  { intros p0 r0 d1. split; [|apply lookup_insert_eq]. unfold duplicateOf, processedRow, nullable, nullableInt. cbn.
    repeat case_bool_decide; cbn; congruence. }
  intros [i faults d0 r0 d1 (n & H)%run_ok|i faults d0 r0 d1 (n & H)%run_ok|i faults d0 r0 d1 (n & H)%run_ok
         |p0 decision when faults d0 r0 d1 (n & H)%run_ok].
  - apply ApplyPullRequestSnapshot_Ok in H as (_ & _ & H). destruct (db_processed d0 !! _); [by destruct H as (? & -> & ->)|].
    destruct H as (plan & d2 & _ & -> & ->). exists (processedRow (pi_Processed i) (pn_result plan)). by split_and!; [apply Hrow|..|apply Hrow].
  - apply ApplyCheckRunRerequest_Ok in H as [_ H]. destruct (db_processed d0 !! _); [by destruct H as (? & -> & ->)|].
    destruct H as (d2 & -> & _). eexists. by split_and!; [apply Hrow|..|apply Hrow].
  - apply ApplyInstallationHint_Ok in H. destruct (db_processed d0 !! _); [by destruct H as (? & -> & ->)|].
    destruct H as (d2 & -> & _). eexists. by split_and!; [apply Hrow|..|apply Hrow].
  - unfold RecordProcessingDecision in H. inv_tx H. apply transaction_Ok in H as (c & n2 & H). apply recordOnce_Ok in H.
    destruct (db_processed d0 !! _) as [w|]; [destruct H as (? & Hr & ->); cbn in Hr; by subst|]. destruct H as [n3 H]. inv_tx H. injection H as -> ->.
    eexists. split; [apply lookup_insert_eq|]. split; [done|]. apply (Hrow (mkProcessedDelivery _ _ _ _ _ _) _ d0).
Qed.

(** C7: a delivery is decided once.  After an operation decided it for the first
    time, whatever happened since, any operation that answers for it again answers
    that it is a duplicate, with the generation, target and job of the first
    decision, requires the same projection, and leaves pull requests, jobs,
    attempts, source requests, records and bindings as they are. *)
Theorem delivered_once s p p' d d1 d2 r r' d' :
  reachable s d → processes s p d r d1 → db_processed d !! delivery p = None → rtc (step s) d1 d2 →
  delivery p' = delivery p → processes s p' d2 r' d' →
  pd_ProjectionDigest p' = pd_ProjectionDigest p ∧
  r' = mkReconcileResult DecisionDuplicateProcessed (rr_Generation r) (rr_TargetID r) (rr_JobID r) "" "" "" ∧
  core d' = core d2 ∧ db_processed d' = db_processed d2 ∧ db_bindings d' = db_bindings d2.
Proof.
  intros Hr Hp Hnone Hsteps Edel Hp'. apply processes_cases in Hp as Hcase. rewrite Hnone in Hcase.
  destruct Hcase as (w & Hw & Edig & Edup).
  assert (Consistent d1) as Hc.
  { apply (reachable_consistent s). eapply rtc_r; [exact Hr|]. destruct Hp as [i faults ? ? ? H|i faults ? ? ? H|i faults ? ? ? H|? dec when faults ? ? ? H].
    - exists (OpApplySnapshot i), faults. cbn. by rewrite H.
    - exists (OpRerequest i), faults. cbn. by rewrite H.
    - exists (OpInstallationHint i), faults. cbn. by rewrite H.
    - exists (OpRecordDecision p dec when), faults. cbn. by rewrite H. }
  destruct (steps_sound s d1 d2 Hsteps Hc) as [_ Hev]. pose proof (lookup_weaken _ _ _ _ Hw (ev_processed _ _ Hev)) as Hw2.
  apply processes_cases in Hp'. rewrite Edel, Hw2 in Hp'. destruct Hp' as (E & -> & ? & ? & ?). split_and!; congruence.
Qed.

(** ** Leases *)

Lemma AcquireReconcileLease_Ok s key owner now duration faults n d l n' d' :
  AcquireReconcileLease s key owner now duration faults n d = Ok (l, n', d') →
  rl_Key l = key ∧ rl_Owner l = owner ∧ rl_ExpiresAt l = gt_instant now + duration ∧ 0 < duration <= l_ReconcileLeaseDuration (st_limits s)
  ∧ d' = set_leases (<[key := mkLeaseRow owner (rl_Generation l) (formatTime (gt_instant now)) (formatTime (gt_instant now + duration))]>) d
  ∧ match db_leases d !! key with
    | None => rl_Generation l = 1
    | Some w => parseTime (lw_ExpiresAt w) <= gt_instant now ∧ rl_Generation l = lw_Generation w + 1
    end.
Proof.
  unfold AcquireReconcileLease. intros H. inv_tx H. apply transaction_Ok in H as (c & n2 & H). inv_tx H. injection H as -> ->. unbool.
  destruct (db_leases d !! key) as [w|]; inv_tx Hs; unbool; cbn; split_and!; done || lia.
Qed.

(** The row of a lease: whose it is, and its expiry to the second. *)
Definition expiry (l : ReconcileLease) : Time := rl_ExpiresAt l / nanos_per_second * nanos_per_second.
Definition lease_row (l : ReconcileLease) (d : DB) : Prop :=
  ∃ w, db_leases d !! rl_Key l = Some w ∧ lw_Owner w = rl_Owner l ∧ lw_Generation w = rl_Generation l
    ∧ parseTime (lw_ExpiresAt w) = expiry l.
Definition names_lease (l l' : ReconcileLease) : Prop :=
  rl_Key l' = rl_Key l ∧ rl_Owner l' = rl_Owner l ∧ rl_Generation l' = rl_Generation l.

(** What is not of the holder of [l]: operations that do not name its lease, and
    acquisitions of it only before it expired. *)
Definition of_others (l : ReconcileLease) (op : Op) : Prop :=
  match op with
  | OpAcquireLease key _ now _ => key = rl_Key l → gt_instant now < expiry l
  | OpApplySnapshot i => ¬ names_lease l (pi_Lease i)
  | OpRerequest i => ¬ names_lease l (ri_Lease i)
  | _ => True
  end.
Definition other_step (s : Store) (l : ReconcileLease) (d d' : DB) : Prop :=
  ∃ op faults, of_others l op ∧ exec_op s op faults d = d'.

Lemma acquired_row s key owner now duration faults n d l n' d' :
  AcquireReconcileLease s key owner now duration faults n d = Ok (l, n', d') → in_calendar (rl_ExpiresAt l) → lease_row l d'.
Proof.
  intros H Hcal. apply AcquireReconcileLease_Ok in H as (<- & <- & Eexp & _ & -> & _). eexists.
  split; [apply lookup_insert_eq|]. cbn. split_and!; [done..|]. unfold parseTime, formatTime, expiry. rewrite <-Eexp.
  by rewrite parse_format_time20.
Qed.
Lemma acquire_expired s key owner now duration faults n d l n' d' l0 :
  AcquireReconcileLease s key owner now duration faults n d = Ok (l, n', d') → lease_row l0 d → key = rl_Key l0 →
  expiry l0 <= gt_instant now.
Proof.
  intros H (w & Hw & _ & _ & He) ->. apply AcquireReconcileLease_Ok in H as (_ & _ & _ & _ & _ & H).
  rewrite Hw in H. destruct H as [H _]. by rewrite He in H.
Qed.
Lemma holder_names l l' d : lease_row l d → holds_lease d l' → rl_Key l' = rl_Key l → names_lease l l'.
Proof. intros (w & Hw & Eo & Eg & _) (w' & Hw' & Eo' & Eg') E. rewrite E, Hw in Hw'. injection Hw' as <-. split_and!; congruence. Qed.

(** *** What leaves the leases alone *)

Lemma ended_leases j js ss d : db_leases (ended j js ss d) = db_leases d.
Proof. done. Qed.
Lemma blockRow_leases now k w faults n d u n' d' : blockRow now k w faults n d = Ok (u, n', d') → db_leases d' = db_leases d.
Proof.
  unfold blockRow. intros H. inv_tx H. cbn. destruct (pw_Job w) as [j|]; [|by inv_tx Hs]. unfold cancelCurrentJob in Hs. by inv_tx Hs.
Qed.
Lemma blockRows_leases now rows faults n d u n' d' : blockRows now rows faults n d = Ok (u, n', d') → db_leases d' = db_leases d.
Proof.
  revert n d. induction rows as [|[k w] rows IH]; intros n d H; cbn [blockRows] in H; inv_tx H; [done|].
  apply IH in H as ->. by eapply blockRow_leases.
Qed.
Lemma ApplyInstallationHint_leases s i faults n d r n' d' :
  ApplyInstallationHint s i faults n d = Ok (r, n', d') → db_leases d' = db_leases d.
Proof.
  unfold ApplyInstallationHint. intros H. inv_tx H. apply transaction_Ok in H as (c & n2 & H). apply recordOnce_Ok in H.
  destruct (db_processed d !! _); [by destruct H as (_ & _ & ->)|]. destruct H as [n3 H]. inv_tx H. cbn.
  destruct (installationHintInvalidates _); [|by inv_tx Hs]. unfold invalidateInstallationRows in Hs. inv_tx Hs.
  by eapply blockRows_leases.
Qed.
Lemma RecordProcessingDecision_leases s p decision when faults n d r n' d' :
  RecordProcessingDecision s p decision when faults n d = Ok (r, n', d') → db_leases d' = db_leases d.
Proof.
  unfold RecordProcessingDecision. intros H. inv_tx H. apply transaction_Ok in H as (c & n2 & H). apply recordOnce_Ok in H.
  destruct (db_processed d !! _); [by destruct H as (_ & _ & ->)|]. destruct H as [n3 H]. by inv_tx H.
Qed.
Lemma RegisterCheckBinding_leases s b faults n d u n' d' :
  RegisterCheckBinding s b faults n d = Ok (u, n', d') → db_leases d' = db_leases d.
Proof. unfold RegisterCheckBinding. intros H. inv_tx H. destruct (db_bindings d !! bindingKey b); by inv_tx H. Qed.
Lemma leaseSources_leases owner now expires l faults n d out n' d' :
  leaseSources owner now expires l faults n d = Ok (out, n', d') → db_leases d' = db_leases d.
Proof.
  revert n d out. induction l as [|[i r] l IH]; intros n d out; cbn [leaseSources]; intros H; inv_tx H; [done|].
  rename Hs into H1, Hs0 into H2. apply leaseSource_Ok in H1 as [-> _]. by rewrite (IH _ _ _ H2).
Qed.
Lemma ClaimSourceImports_leases s owner now duration limit faults n d out n' d' :
  ClaimSourceImports s owner now duration limit faults n d = Ok (out, n', d') → db_leases d' = db_leases d.
Proof.
  unfold ClaimSourceImports. intros H. inv_tx H. apply transaction_Ok in H as (c & n2 & H). inv_tx H. by eapply leaseSources_leases.
Qed.
Lemma finishSourceLease_leases id owner generation when next faults n d u n' d' :
  finishSourceLease id owner generation when next faults n d = Ok (u, n', d') → db_leases d' = db_leases d.
Proof. unfold finishSourceLease. intros H. by inv_tx H. Qed.
Lemma ApplySourceImportResult_leases r owner gen when faults n d u n' d' :
  ApplySourceImportResult r owner gen when faults n d = Ok (u, n', d') → db_leases d' = db_leases d.
Proof. intros H. by apply ApplySourceImportResult_Ok in H as (w & c & _ & _ & _ & _ & ->). Qed.

(** An operation under a lease deletes that lease and no other. *)
Lemma ApplyPullRequestSnapshot_leases s i faults n d r n' d' :
  ApplyPullRequestSnapshot s i faults n d = Ok (r, n', d') →
  holds_lease d (pi_Lease i) ∧ db_leases d' = delete (rl_Key (pi_Lease i)) (db_leases d).
Proof.
  intros H. apply ApplyPullRequestSnapshot_Ok in H as (_ & Hh & H). split; [done|].
  destruct (db_processed d !! _); [by destruct H as (_ & _ & ->)|]. destruct H as (plan & d1 & Hp & _ & ->).
  pose proof (planned_frame _ _ _ _ _ Hp) as (El & _). cbn. destruct (pn_same plan); cbn; by rewrite El.
Qed.
Lemma ApplyCheckRunRerequest_leases s i faults n d r n' d' :
  ApplyCheckRunRerequest s i faults n d = Ok (r, n', d') →
  holds_lease d (ri_Lease i) ∧ db_leases d' = delete (rl_Key (ri_Lease i)) (db_leases d).
Proof.
  intros H. apply ApplyCheckRunRerequest_Ok in H as [Hh H]. split; [done|].
  destruct (db_processed d !! _); [by destruct H as (_ & _ & ->)|]. destruct H as (d1 & -> & H). cbn.
  destruct (db_bindings d !! _); [|by destruct H as [_ ->]]. destruct H as (_ & _ & _ & H).
  destruct (bindingCurrent _ _ _); [by destruct H as (a & _ & -> & _)|by destruct H as [_ ->]].
Qed.

Lemma run_leases {A} (m : StoreTx A) faults d (P : gmap PRKey LeaseRow → Prop) :
  P (db_leases d) → (∀ a n d', m faults 0%nat d = Ok (a, n, d') → P (db_leases d')) → P (db_leases (run m faults d).2).
Proof. unfold run. intros Hd H. destruct (m faults 0%nat d) as [[[a n] d']|e]; [by eapply H|done]. Qed.

(** The row of a lease survives what is not of its holder. *)
Lemma lease_row_kept s l d d' : lease_row l d → other_step s l d d' → lease_row l d'.
Proof.
  intros Hrow (op & faults & Hop & <-).
  assert (∀ l', ¬ names_lease l l' → holds_lease d l' → rl_Key l' <> rl_Key l) as Hne.
  { intros l' Hn Hh E. by apply Hn, (holder_names l l' d). }
  pose proof Hrow as (w & Hw & Hrest). exists w. split; [|exact Hrest]. clear Hrest.
  destruct op; cbn [exec_op of_others] in *; apply (run_leases _ _ _ (λ m, m !! rl_Key l = Some w)); try exact Hw; intros a n d1 H.
  - destruct (decide (key = rl_Key l)) as [E|E].
    + pose proof (acquire_expired _ _ _ _ _ _ _ _ _ _ _ l H Hrow E). specialize (Hop E). lia.
    + apply AcquireReconcileLease_Ok in H as (_ & _ & _ & _ & -> & _). cbn. by rewrite lookup_insert_ne.
  - apply ApplyPullRequestSnapshot_leases in H as [Hh ->]. by rewrite lookup_delete_ne by (by apply Hne).
  - by rewrite (RecordProcessingDecision_leases _ _ _ _ _ _ _ _ _ _ H).
  - by rewrite (ApplyInstallationHint_leases _ _ _ _ _ _ _ _ H).
  - by rewrite (RegisterCheckBinding_leases _ _ _ _ _ _ _ _ H).
  - apply ApplyCheckRunRerequest_leases in H as [Hh ->]. by rewrite lookup_delete_ne by (by apply Hne).
  - by rewrite (ClaimSourceImports_leases _ _ _ _ _ _ _ _ _ _ _ H).
  - by rewrite (finishSourceLease_leases _ _ _ _ _ _ _ _ _ _ _ H).
  - by rewrite (finishSourceLease_leases _ _ _ _ _ _ _ _ _ _ _ H).
  - by rewrite (ApplySourceImportResult_leases _ _ _ _ _ _ _ _ _ _ H).
Qed.

(** C10: a lease excludes.  When [owner] acquired the lease on a pull request, then
    after any history of operations in which the holder did nothing under it and
    nobody tried to acquire it after its expiry, the lease is still the holder's;
    an acquisition then succeeds only from the expiry on (to the second, as it is
    stored), for anybody; and a snapshot or a rerequest for the pull request is
    only applied under that owner and generation. *)
Theorem lease_exclusive s key owner now duration faults d l d1 d2 :
  run (AcquireReconcileLease s key owner now duration) faults d = (Ok l, d1) → in_calendar (rl_ExpiresAt l) →
  rtc (other_step s l) d1 d2 →
  (rl_Key l = key ∧ rl_Owner l = owner ∧ holds_lease d2 l) ∧
  (∀ owner2 now2 duration2 faults2 l2 d3,
     run (AcquireReconcileLease s key owner2 now2 duration2) faults2 d2 = (Ok l2, d3) → expiry l <= gt_instant now2) ∧
  (∀ i faults2 r d3, rl_Key (pi_Lease i) = key → run (ApplyPullRequestSnapshot s i) faults2 d2 = (Ok r, d3) →
     rl_Owner (pi_Lease i) = owner ∧ rl_Generation (pi_Lease i) = rl_Generation l) ∧
  (∀ i faults2 r d3, rl_Key (ri_Lease i) = key → run (ApplyCheckRunRerequest s i) faults2 d2 = (Ok r, d3) →
     rl_Owner (ri_Lease i) = owner ∧ rl_Generation (ri_Lease i) = rl_Generation l).
Proof.
  intros (n & H)%run_ok Hcal Hsteps. assert (lease_row l d2) as Hrow.
  { apply acquired_row in H; [|done]. clear Hcal. induction Hsteps as [|x y z Hxy _ IH]; [done|]. apply IH. by eapply lease_row_kept. }
  apply AcquireReconcileLease_Ok in H as (<- & <- & _). split; [|split_and!].
  - destruct Hrow as (w & ? & ? & ? & _). split_and!; [done..|]. by exists w.
  - intros owner2 now2 duration2 faults2 l2 d3 (n2 & H2)%run_ok. by eapply acquire_expired.
  - intros i faults2 r d3 E (n2 & [H2 _]%ApplyPullRequestSnapshot_leases)%run_ok. by apply (holder_names l _ d2).
  - intros i faults2 r d3 E (n2 & [H2 _]%ApplyCheckRunRerequest_leases)%run_ok. by apply (holder_names l _ d2).
Qed.

(** ** Source requests *)

Lemma leaseSources_other owner now expires l faults n d out n' d' i :
  leaseSources owner now expires l faults n d = Ok (out, n', d') → i ∉ l.*1 → db_sources d' !! i = db_sources d !! i.
Proof.
  revert n d out. induction l as [|[i0 r0] l IH]; intros n d out; cbn [leaseSources]; intros H Hi; inv_tx H; [done|].
  rename Hs into H1, Hs0 into H2. apply leaseSource_Ok in H1 as [-> _]. rewrite fmap_cons in Hi. apply not_elem_of_cons in Hi as [Hne Hi].
  rewrite (IH _ _ _ H2 Hi). cbn. by rewrite list_lookup_alter_ne.
Qed.

Lemma leaseSources_grant owner now expires l faults n d out n' d' q :
  leaseSources owner now expires l faults n d = Ok (out, n', d') → Consistent d →
  (∀ i r, (i, r) ∈ l → db_sources d !! i = Some r) → NoDup l.*1 → q ∈ out →
  ∃ i r w, db_sources d !! i = Some r ∧ db_sources d' !! i = Some w ∧ sr_LeaseGeneration q = sw_LeaseGeneration r + 1
    ∧ sw_RequestID r = sr_ID q ∧ sw_RequestID w = sr_ID q ∧ sw_LeaseGeneration w = sr_LeaseGeneration q
    ∧ sr_LeaseOwner q = owner ∧ sw_LeaseOwner w = Some owner ∧ sw_State w = SourceStateLeased.
Proof.
  revert n d out. induction l as [|[i r] l IH]; intros n d out; cbn [leaseSources]; intros H Hc Hl Hnd Hq; inv_tx H.
  { by apply not_elem_of_nil in Hq. }
  rename Hs into H1, Hs0 into H2. apply leaseSource_Ok in H1 as [-> ->]. 
  assert (sound d (set_sources (alter (claimRow owner now expires r) i) d)) as Hsound.
  { apply (leaseSource_sound owner now expires (i, r) (λ _, false) 0 d _ _ _ eq_refl). }
  destruct (Hsound Hc) as [Hc1 _]. rewrite (Hl i r) in Hq by left.
  rewrite fmap_cons in Hnd. apply NoDup_cons in Hnd as [Hi Hnd]. cbn in Hi.
  assert (∀ i0 r0, (i0, r0) ∈ l → db_sources (set_sources (alter (claimRow owner now expires r) i) d) !! i0 = Some r0) as Hl'.
  { intros i0 r0 Hin. cbn. rewrite list_lookup_alter_ne; [apply Hl; by right|]. intros <-. apply Hi, list_elem_of_fmap. by exists (i, r0). }
  apply elem_of_app in Hq as [Hq|Hq].
  2: { destruct (IH _ _ _ H2 Hc1 Hl' Hnd Hq) as (i1 & r1 & w & Hr1 & Hrest). destruct Hrest as (Hw & Eg & Eid & Hrest).
       cbn in Hr1. destruct (decide (i = i1)) as [<-|Hne].
       - rewrite (leaseSources_other _ _ _ _ _ _ _ _ _ _ _ H2 Hi) in Hw. cbn in Hw. rewrite Hr1 in Hw. injection Hw as <-. destruct Hrest as (_ & Egw & _). lia.
       - rewrite list_lookup_alter_ne in Hr1 by done. by exists i1, r1, w. }
  destruct (claimHit now r r) eqn:Ehit; [|by apply not_elem_of_nil in Hq]. apply list_elem_of_singleton in Hq as ->.
  exists i, r, (claimRow owner now expires r r). rewrite (leaseSources_other _ _ _ _ _ _ _ _ _ _ _ H2 Hi). split; [apply Hl; left|].
  cbn. rewrite list_lookup_alter, decide_True, (Hl i r) by (done || left). unfold claimRow. cbn. rewrite Ehit. by split_and!.
Qed.

Lemma ClaimSourceImports_grant s owner now duration limit faults n d out n' d' q :
  ClaimSourceImports s owner now duration limit faults n d = Ok (out, n', d') → Consistent d → q ∈ out →
  ∃ i r w, db_sources d !! i = Some r ∧ db_sources d' !! i = Some w ∧ sr_LeaseGeneration q = sw_LeaseGeneration r + 1
    ∧ sw_RequestID r = sr_ID q ∧ sw_RequestID w = sr_ID q ∧ sw_LeaseGeneration w = sr_LeaseGeneration q
    ∧ sr_LeaseOwner q = owner ∧ sw_LeaseOwner w = Some owner ∧ sw_State w = SourceStateLeased.
Proof.
  unfold ClaimSourceImports. intros H Hc Hq. inv_tx H. apply transaction_Ok in H as (c & n2 & H). inv_tx H. injection H as -> ->.
  eapply leaseSources_grant; [eassumption|done| |apply claimCandidates_NoDup|done].
  intros i r Hin. by apply elem_of_claimCandidates in Hin as [? _].
Qed.

(** The row of a request, whatever happens to it. *)
Lemma source_row_kept d d' i w :
  evolves d d' → db_sources d !! i = Some w →
  ∃ w', db_sources d' !! i = Some w' ∧ sw_RequestID w' = sw_RequestID w ∧ sw_LeaseGeneration w <= sw_LeaseGeneration w'.
Proof. intros Hev Hw. destruct (ev_sources _ _ Hev i w Hw) as (w' & Hw' & ? & _ & _ & _ & ? & _). eauto. Qed.

Lemma request_index d i j r r' :
  Consistent d → db_sources d !! i = Some r → db_sources d !! j = Some r' → sw_RequestID r = sw_RequestID r' → i = j.
Proof.
  intros Hc Hi Hj E. eapply (NoDup_lookup (sw_RequestID <$> db_sources d)); [apply Hc|by rewrite list_lookup_fmap, Hi|].
  by rewrite list_lookup_fmap, Hj, E.
Qed.

(** No row is held at a generation that its request has left. *)
Lemma not_held d i w id owner gen :
  Consistent d → db_sources d !! i = Some w → sw_RequestID w = id → gen < sw_LeaseGeneration w →
  ∀ r, r ∈ db_sources d → heldBy id owner gen r = false.
Proof.
  intros Hc Hw Hid Hlt r Hr. destruct (heldBy id owner gen r) eqn:E; [|done]. unfold heldBy in E. unbool.
  rewrite (request_unique d r w Hc Hr) in * by (try eapply list_elem_of_lookup_2; congruence || done). lia.
Qed.

(** C25: a lease on a source request is fenced.  When a request was claimed and,
    later, claimed again, the second claim has a higher generation, and from then on
    nothing that is done under the first one succeeds: neither an acknowledgement,
    nor a release, nor a result. *)
Theorem source_lease_fenced s owner1 now1 dur1 lim1 faults1 owner2 now2 dur2 lim2 faults2 d d1 d2 d3 d4 out1 out2 q1 q2 :
  reachable s d →
  run (ClaimSourceImports s owner1 now1 dur1 lim1) faults1 d = (Ok out1, d1) → q1 ∈ out1 → rtc (step s) d1 d2 →
  run (ClaimSourceImports s owner2 now2 dur2 lim2) faults2 d2 = (Ok out2, d3) → q2 ∈ out2 → sr_ID q2 = sr_ID q1 →
  rtc (step s) d3 d4 →
  sr_LeaseGeneration q1 < sr_LeaseGeneration q2 ∧
  ∀ faults owner when,
    (∀ next r d5, run (finishSourceLease (sr_ID q1) owner (sr_LeaseGeneration q1) when next) faults d4 <> (Ok r, d5)) ∧
    (∀ result r d5, si_RequestID result = sr_ID q1 →
       run (ApplySourceImportResult result owner (sr_LeaseGeneration q1) when) faults d4 <> (Ok r, d5)).
Proof.
  intros Hreach (n1 & H1)%run_ok Hq1 H12 (n2 & H2)%run_ok Hq2 Eid H34. pose proof (reachable_consistent s d Hreach) as Hc.
  destruct (ClaimSourceImports_sound _ _ _ _ _ _ _ _ _ _ _ H1 Hc) as [Hc1 _]. destruct (steps_sound s d1 d2 H12 Hc1) as [Hc2 Hev12].
  destruct (ClaimSourceImports_sound _ _ _ _ _ _ _ _ _ _ _ H2 Hc2) as [Hc3 _]. destruct (steps_sound s d3 d4 H34 Hc3) as [Hc4 Hev34].
  destruct (ClaimSourceImports_grant _ _ _ _ _ _ _ _ _ _ _ _ H1 Hc Hq1) as (i & _ & w1 & _ & Hw1 & _ & _ & Ew1 & Eg1 & _).
  destruct (ClaimSourceImports_grant _ _ _ _ _ _ _ _ _ _ _ _ H2 Hc2 Hq2) as (j & r2 & w2 & Hr2 & Hw2 & Eg2 & Er2 & Ew2 & Egw2 & _).
  destruct (source_row_kept _ _ _ _ Hev12 Hw1) as (w1' & Hw1' & E1 & Hle1).
  destruct (source_row_kept _ _ _ _ Hev34 Hw2) as (w2' & Hw2' & E2 & Hle2).
  assert (i = j) as <- by (apply (request_index d2 i j w1' r2 Hc2); congruence). assert (w1' = r2) as -> by congruence.
  split; [lia|]. intros faults owner when. pose proof (not_held d4 i w2' (sr_ID q1) owner (sr_LeaseGeneration q1) Hc4 Hw2') as Hnot.
  split.
  - intros next r d5 (n5 & H)%run_ok. unfold finishSourceLease in H. inv_tx H. unbool.
    match goal with H : length (filter _ _) = 1%nat |- _ => rename H into Hone end.
    destruct (filter _ _) as [|x l] eqn:Ef; [done|]. assert (x ∈ x :: l) as Hx by left. rewrite <-Ef in Hx.
    apply list_elem_of_filter in Hx as [Hh Hin]. unfold heldLeased in Hh. rewrite (Hnot ltac:(congruence) ltac:(lia) x Hin) in Hh. done.
  - intros result r d5 Er (n5 & H)%run_ok. apply ApplySourceImportResult_Ok in H as (w & c & Hin & Hheld & _).
    rewrite Er, (Hnot ltac:(congruence) ltac:(lia) w Hin) in Hheld. done.
Qed.

(** ** Source results *)

(** A result of a source import moves current work only.  When it is accepted,
    the lease it names is held on a request of its identity, that request is of the
    current generation of an eligible pull request, and exactly its row and its job
    change: the request is completed or failed, and the job, when it still imports,
    awaits a runner or failed. *)
Theorem source_result_current s r owner gen when faults d d' :
  reachable s d → run (ApplySourceImportResult r owner gen when) faults d = (Ok (), d') →
  ∃ i w jr c, db_sources d !! i = Some w ∧ heldBy (si_RequestID r) owner gen w = true ∧ resultMatches w r = true
  ∧ db_jobs d !! si_JobID r = Some jr ∧ current_generation d (jobKey jr) (si_JobID r) (si_Generation r)
  ∧ db_sources d' = alter (finished (if si_Failed r then SourceStateFailed else SourceStateCompleted) c) i (db_sources d)
  ∧ db_jobs d' = (if jw_State jr == JobStateImportingSource
                  then <[si_JobID r := with_job_state (if si_Failed r then JobStateFailed else JobStateAwaitingRunner) jr]> (db_jobs d)
                  else db_jobs d)
  ∧ db_prs d' = db_prs d ∧ db_attempts d' = db_attempts d ∧ db_leases d' = db_leases d.
Proof.
  intros Hc%reachable_consistent (n & H)%run_ok. apply ApplySourceImportResult_Ok in H as (w & c & Hin & Hheld & Hm & _ & ->).
  apply list_elem_of_lookup in Hin as Hi. destruct Hi as [i Hi]. pose proof Hheld as Hid. pose proof Hm as Hf.
  unfold heldBy, resultMatches in Hid, Hf. unbool.
  assert (live_source w = true) as Hlive by (by apply leased_live).
  destruct (current_job_generation d (sw_JobID w) (sw_Generation w) (sw_TargetID w) Hc) as (jr & Hjr & Hcur);
    [by eapply c_live_source|by eapply c_source|].
  assert (sw_JobID w = si_JobID r ∧ sw_Generation w = si_Generation r ∧ sw_RequestID w = si_RequestID r) as (Ej & Eg & Er) by done.
  rewrite Ej, Eg in *. destruct (c_source _ Hc w Hin) as (jr' & Hjr' & Egen & _). rewrite Ej, Hjr in Hjr'. injection Hjr' as <-.
  exists i, w, jr, (λ _, c). split_and!; try done; cbn.
  - apply list_eq. intros k. rewrite list_lookup_fmap. destruct (decide (i = k)) as [<-|Hne].
    + rewrite list_lookup_alter, decide_True, Hi by done. cbn. by rewrite bool_decide_true.
    + rewrite list_lookup_alter_ne by done. destruct (db_sources d !! k) as [x|] eqn:Ek; [|done]. cbn.
      rewrite bool_decide_false; [done|]. intros Ex. apply Hne, (request_index d i k w x Hc Hi Ek). congruence.
  - apply map_eq. intros k. destruct (decide (si_JobID r = k)) as [<-|Hne].
    + rewrite lookup_alter_eq, Hjr. cbn. rewrite (bool_decide_true (jw_Generation jr = _)) by congruence. cbn.
      destruct (jw_State jr == _); [by rewrite lookup_insert_eq|by rewrite Hjr].
    + rewrite lookup_alter_ne by done. destruct (jw_State jr == _); [by rewrite lookup_insert_ne|done].
Qed.

(** ** Installations *)

(** An installation hint that takes access away blocks exactly the eligible pull
    requests of that installation it affects: each gets a new generation without a
    job, so that nothing of it stays live; every other pull request, and every one
    under a hint that takes nothing away, stays as it is. *)
Theorem hint_blocks_exactly s i faults d r d' :
  reachable s d → run (ApplyInstallationHint s i) faults d = (Ok r, d') → db_processed d !! delivery (ii_Processed i) = None →
  ∀ k w, db_prs d !! k = Some w →
  if decide (installationHintInvalidates (ii_Projection i) = true ∧ k_InstallationID k = ip_InstallationID (ii_Projection i)
     ∧ pw_Eligibility w = PREligibilityEligible ∧ repositoryAffectedByHint (ii_Projection i) (k_BaseRepositoryID k) = true)
  then (∃ w', db_prs d' !! k = Some w' ∧ pw_Gen w' = pw_Gen w + 1 ∧ pw_Eligibility w' = PREligibilityInstallationBlocked
         ∧ pw_Job w' = None ∧ pw_Target w' = None)
       ∧ (∀ j jr, db_jobs d' !! j = Some jr → jobKey jr = k → live_job jr = false)
       ∧ rr_Decision r = DecisionInstallationBlocked
  else db_prs d' !! k = Some w.
Proof.
  intros Hc%reachable_consistent (n & H)%run_ok Hnone k w Hw. pose proof (ApplyInstallationHint_sound _ _ _ _ _ _ _ _ H Hc) as [Hc' _].
  apply ApplyInstallationHint_Ok in H. rewrite Hnone in H. destruct H as (d1 & -> & _ & _ & -> & Hin & Hout).
  destruct (installationHintInvalidates _) eqn:Einv.
  - destruct (decide (_ ∧ _)) as [(_ & Hi & He & Ha)|Hn].
    + assert ((k, w) ∈ rowsToBlock (ii_Projection i) d) as Hrow by (by apply elem_of_rowsToBlock).
      pose proof (Hin k w Hrow) as Hw'. split_and!.
      * by eexists.
      * intros j jr Hj <-. destruct (live_job jr) eqn:El; [|done]. exfalso.
        destruct (current_job_generation _ j _ _ Hc' (c_live_job _ Hc' j jr Hj El) ltac:(by exists jr)) as (r0 & Hr0 & w0 & Hw0 & Ej & _).
        rewrite Hj in Hr0. injection Hr0 as <-. cbn in Hw0. rewrite Hw' in Hw0. by injection Hw0 as <-.
      * destruct (decide (rowsToBlock _ _ = [])) as [E|]; [|done]. rewrite E in Hrow. by apply not_elem_of_nil in Hrow.
    + cbn. rewrite Hout; [done|]. intros ([k0 w0] & E & Hrow)%list_elem_of_fmap. cbn in E. subst k0.
      apply elem_of_rowsToBlock in Hrow as (Hw0 & ? & ? & ?). rewrite Hw in Hw0. injection Hw0 as <-. by apply Hn.
  - rewrite decide_False by naive_solver. cbn. rewrite Hout; [done|]. apply not_elem_of_nil.
Qed.
