(* ===== verification/ControllerProgress.v ===== *)
(** * The controller's store makes progress

    When the database works, an admissible snapshot under its lease is decided,
    and a pending source request that a claim has room for is claimed. *)

From stdpp Require Import prelude gmap strings.
From Stdlib Require Import ZArith Lia Ascii.
From S2P Require Import Prelude GoStd Sha256 Framing GoTime Model Json GoText GoCalendar Sql GithubApp ControllerStore ControllerSource ControllerStoreSpec ControllerInv ControllerSteps.
Local Open Scope Z_scope.

(** ** The steps of a snapshot *)

Lemma lift_err_yields {A} e (r : result AppError A) a (d : DB) : r = Ok a → yields (lift_err e r) d a d.
Proof. intros -> n. by exists n. Qed.

Lemma supersedeCurrent_yields cur d : yields (supersedeCurrent cur) d () (superseded cur d).
Proof.
  unfold supersedeCurrent, superseded, endJob, ended. destruct (_ != _); [|apply yields_ret].
  do 2 (eapply yields_bind; [apply yields_exec|]). apply yields_exec.
Qed.

Lemma insertAttempt_yields stage msg a now d : attempt_free a d → yields (insertAttempt stage msg a now) d () (addAttempt a now d).
Proof. intros [H1 H2]. apply (yields_insert_if (D := DB)). by rewrite !bool_decide_true. Qed.

Lemma insertProcessed_yields p r d : db_processed d !! delivery p = None → yields (insertProcessed p r) d () (recorded p r d).
Proof. intros H. apply (yields_insert_if (D := DB)). by apply bool_decide_true. Qed.

Lemma releaseReconcileLease_yields l d : holds_lease d l → yields (releaseReconcileLease l) d () (unleased l d).
Proof.
  intros (w & Hw & Ho & Hg). unfold releaseReconcileLease. eapply yields_bind; [apply yields_call|].
  eapply yields_bind; [apply yields_gets|]. eapply yields_bind; [|apply yields_puts]. apply yields_guard.
  by rewrite Hw, !bool_decide_true.
Qed.

Lemma settle_yields p l res e d :
  db_processed d !! delivery p = None → holds_lease d l →
  yields (settle p l res e) d (res, Some e) (unleased l (recorded p res d)).
Proof.
  intros Hp Hl. unfold settle. eapply yields_bind; [by apply insertProcessed_yields|].
  eapply yields_bind; [by apply releaseReconcileLease_yields|]. apply yields_ret.
Qed.

(** What the source request of a snapshot needs: names that fit a route. *)
Definition routable (snap : PullRequestSnapshot) : bool :=
  validRoute (routeOf (ps_Base snap)) && validRoute (routeOf (ps_Head snap)).

Lemma insertTargetJobAttemptSource_yields target job a src snap now d :
  db_jobs d !! aj_ID job = None → attempt_free a d → source_free src d →
  validateSourceImportRequest (mkSourceImportRequest src (aj_TargetID job) (aj_ID job) (aj_Generation job)
    (at_InstallationID target) (ps_Number snap) (routeOf (ps_Base snap)) (routeOf (ps_Head snap))
    ControllerProfileAdvisoryV1Alpha1 SourceStatePending now "" 0) = Ok () →
  yields (insertTargetJobAttemptSource target job a src snap now) d () (inserted target job a src snap now d).
Proof.
  intros Hj Ha Hs Hv. unfold insertTargetJobAttemptSource, inserted. eapply yields_bind; [apply yields_exec|].
  eapply yields_bind; [apply yields_insert_if; by apply bool_decide_true|].
  eapply yields_bind; [by apply insertAttempt_yields|]. unfold insertSourceRequest.
  eapply yields_bind; [apply yields_lift; exact Hv|]. apply yields_insert_if. cbn. apply forallb_forall. intros w Hw.
  rewrite bool_decide_false; [done|]. by apply Hs, list_elem_of_In.
Qed.

(** A snapshot of an open pull request names a target the store accepts. *)
Definition admissible (i : PullRequestReconcileInput) : Prop :=
  eligibilityFor (pi_Snapshot i) = PREligibilityEligible →
  validateTarget (snapshotTarget (rl_Key (pi_Lease i)) (pi_Snapshot i)) = Ok () ∧ routable (pi_Snapshot i) = true.

(** The identities of the new generation are not taken (they are hashes of it). *)
Definition unused (i : PullRequestReconcileInput) (d : DB) : Prop :=
  let cur := at_key (rl_Key (pi_Lease i)) d in
  ∀ job attempt,
    NewAnalysisJob (snapshotTarget (rl_Key (pi_Lease i)) (pi_Snapshot i)) (cs_Generation cur + 1) ControllerProfileAdvisoryV1Alpha1
      RunnerTierHardenedContainer = Ok job →
    NewAnalysisAttempt job 1 AttemptReasonInitial = Ok attempt →
    db_jobs d !! aj_ID job = None ∧ attempt_free attempt d
    ∧ source_free (sourceRequestID (aj_TargetID job) (aj_ID job) (cs_Generation cur + 1)) d.

(** An identity made by the application is one it accepts. *)
Lemma prefixed_hex_ID prefix domain fields : prefixed_hex (prefix +:+ "-") (prefixedID prefix domain fields) = true.
Proof.
  unfold prefixed_hex, prefixedID, domainHash.
  set (h := sha256_hex _).
  assert (str_len h = 64) as Hlen by apply length_sha256_hex. assert (str_forallb is_lower_hex_digit h = true) as Hlow by apply sha256_hex_lower.
  replace (prefix +:+ "-" +:+ h) with ((prefix +:+ "-") +:+ h) by (apply (inj to_bytes); by rewrite !to_bytes_app, (assoc_L (++))).
  rewrite !andb_true_iff. split_and!.
  - apply bool_decide_true. rewrite !str_len_bytes, to_bytes_app, length_app in *. lia.
  - apply has_prefix_spec. by eexists.
  - rewrite str_drop_app. unfold isLowerHex. by rewrite Hlow, bool_decide_true.
Qed.

Lemma NewAnalysisJob_exists target gen :
  validateTarget target = Ok () → 0 < gen <= MaxInt64 →
  ∃ job, NewAnalysisJob target gen ControllerProfileAdvisoryV1Alpha1 RunnerTierHardenedContainer = Ok job
    ∧ validateJobID (aj_ID job) = true ∧ validateTargetID (aj_TargetID job) = true.
Proof.
  intros Hv Hg. unfold NewAnalysisJob, targetID. rewrite Hv. cbn [mbind result_bind].
  eexists. split.
  - unfold reject_if. rewrite (bool_decide_true (RunnerTierHardenedContainer = RunnerTierHardenedContainer)) by done. cbn [negb andb].
    rewrite (proj2 (Z.leb_gt gen 0)), (proj2 (Z.ltb_ge AbsoluteMaxControllerGeneration gen)) by (unfold AbsoluteMaxControllerGeneration; lia).
    change (hasControl ControllerProfileAdvisoryV1Alpha1) with false. cbn. reflexivity.
  - cbn. split; [apply (prefixed_hex_ID "job")|apply (prefixed_hex_ID "target")].
Qed.

(** Superseding takes no identity. *)
Lemma superseded_free cur d job a src :
  db_jobs d !! aj_ID job = None → attempt_free a d → source_free src d →
  db_jobs (superseded cur d) !! aj_ID job = None ∧ attempt_free a (superseded cur d) ∧ source_free src (superseded cur d).
Proof.
  unfold superseded. destruct (_ != _); [|done]. intros Hj [Ha Hn] Hs. split_and!.
  - cbn. destruct (decide (cs_CurrentJobID cur = aj_ID job)) as [->|]; [by rewrite lookup_alter_eq, Hj|by rewrite lookup_alter_ne].
  - split; cbn; [by rewrite lookup_fmap, Ha|]. intros k w. rewrite lookup_fmap, fmap_Some. intros (w0 & Hw & ->).
    pose proof (Hn k w0 Hw) as H. cbn in H. by destruct (_ && _).
  - intros w. cbn. rewrite list_elem_of_fmap. intros (w0 & -> & Hw). specialize (Hs w0 Hw). by destruct (_ && _).
Qed.

Section snapshot.
Context (s : Store) (i : PullRequestReconcileInput).
Local Abbreviation snap := (pi_Snapshot i).
Local Abbreviation key := (rl_Key (pi_Lease i)).
Local Abbreviation target := (snapshotTarget key snap).

Lemma scheduleTarget_yields d target_id :
  Consistent d → validateInput s i = Ok () → validateTarget target = Ok () → routable snap = true →
  targetID target = Ok target_id → cs_Generation (at_key key d) <> MaxInt64 → unused i d →
  ∃ plan d1, pn_same plan = false ∧ yields (scheduleTarget i (at_key key d) target target_id) d plan d1.
Proof.
  intros Hc Hv Ht Hroute Hid Hmax Hfree. pose proof (at_key_gen_range key d Hc) as Hr. set (cur := at_key key d) in *.
  destruct (NewAnalysisJob_exists target (cs_Generation cur + 1) Ht ltac:(lia)) as (job & Hj & Hjid & Htid).
  destruct (NewAnalysisJob_Ok _ _ _ _ _ Hj) as (_ & Etid & Et & Eg & _). rewrite Hid in Etid. apply Ok_inj in Etid as ->.
  assert (∃ a, NewAnalysisAttempt job 1 AttemptReasonInitial = Ok a) as [a Ha].
  { unfold NewAnalysisAttempt. rewrite Hjid, Htid, Eg, (proj2 (Z.leb_gt _ 0)) by lia. eexists. reflexivity. }
  destruct (Hfree job a Hj Ha) as (F1 & F2 & F3). destruct (superseded_free cur d job a _ F1 F2 F3) as (G1 & G2 & G3).
  eexists _, _. split; [|unfold scheduleTarget; eapply yields_bind; [by apply yields_guard, bool_decide_false|];
    eapply yields_bind; [apply supersedeCurrent_yields|]; eapply yields_bind; [by apply lift_err_yields|];
    eapply yields_bind; [by apply lift_err_yields|]; eapply yields_bind; [|apply yields_ret];
    apply insertTargetJobAttemptSource_yields; try done]; [done|].
  unfold validateTarget in Ht. rewrite !reject_bind_Ok, reject_if_Ok in Ht. destruct Ht as (_ & Hpos & Hobj & _). cbn in Hpos, Hobj.
  unfold routable in Hroute. destruct (validateInput_key _ _ Hv) as [En Eb]. unbool.
  assert (aj_ID job <> ""%string) as Hne1 by (intros E; by rewrite E in Hjid).
  assert (aj_TargetID job <> ""%string) as Hne2 by (intros E; by rewrite E in Htid).
  unfold validateSourceImportRequest. rewrite !reject_bind_Ok, reject_if_Ok. cbn -[Z.leb].
  rewrite !(bool_decide_false (_ = ""%string)) by done. rewrite Eg.
  rewrite (proj2 (Z.leb_gt (_ + 1) 0)) by lia. rewrite !(proj2 (Z.leb_gt _ 0)) by lia.
  split_and!; [done| |done]. by repeat match goal with H : _ = true |- _ => rewrite H; clear H end.
Qed.

Lemma reconcilePlan_yields d :
  Consistent d → validateInput s i = Ok () → admissible i → cs_Generation (at_key key d) <> MaxInt64 → unused i d →
  ∃ plan d1, yields (reconcilePlan i (at_key key d)) d plan d1.
Proof.
  intros Hc Hv Hadm Hmax Hfree. unfold reconcilePlan. destruct (decide (eligibilityFor snap = PREligibilityEligible)) as [He|He].
  - rewrite (bool_decide_true _ He). destruct (Hadm He) as [Ht Hroute].
    assert (∃ t, targetID target = Ok t) as [t Hid] by (unfold targetID; rewrite Ht; by eexists).
    destruct ((cs_Eligibility (at_key key d) == PREligibilityEligible) && (cs_CurrentTargetID (at_key key d) == t)) eqn:E.
    + eexists _, _. eapply yields_bind; [by apply lift_err_yields|]. rewrite E. apply yields_ret.
    + destruct (scheduleTarget_yields d t Hc Hv Ht Hroute Hid Hmax Hfree) as (plan & d1 & _ & Hy).
      exists plan, d1. eapply yields_bind; [by apply lift_err_yields|]. by rewrite E.
  - rewrite (bool_decide_false _ He). destruct (_ || _) eqn:E; eexists _, _.
    + eapply yields_bind; [|apply yields_ret]. eapply yields_bind; [by apply yields_guard, bool_decide_false|].
      eapply yields_bind; [apply supersedeCurrent_yields|apply yields_ret].
    + eapply yields_bind; [apply yields_ret|apply yields_ret].
Qed.

(** C32: a snapshot is applied.  When the database works and the snapshot's input is
    valid, its lease is held, its delivery is new, the generation can grow, the
    target of an open pull request is one the store accepts and the identities of
    the new generation are unused, the operation succeeds. *)
Theorem snapshot_applied d :
  reachable s d → validateInput s i = Ok () → holds_lease d (pi_Lease i) → db_processed d !! delivery (pi_Processed i) = None →
  admissible i → cs_Generation (at_key key d) < MaxInt64 → unused i d →
  ∃ r d', run (ApplyPullRequestSnapshot s i) calm d = (Ok r, d').
Proof.
  intros Hc%reachable_consistent Hv Hl Hp Hadm Hmax Hfree.
  destruct (reconcilePlan_yields d Hc Hv Hadm ltac:(lia) Hfree) as (plan & d1 & Hplan).
  assert (planned i (at_key key d) d plan d1) as Hpl by (destruct (Hplan 0%nat) as [n Hn]; by eapply reconcilePlan_Ok).
  destruct (planned_frame _ _ _ _ _ Hpl) as (El & Ep & _).
  exists (pn_result plan), (unleased (pi_Lease i) (recorded (pi_Processed i) (pn_result plan) (settled i plan d1))). apply yields_run. unfold ApplyPullRequestSnapshot.
  eapply yields_bind; [by apply yields_lift|]. apply (yields_transaction _ _ d _ (Some (txErr "reconcile" "reconcile commit failed"))).
  unfold underLease, checkProcessed. eapply yields_bind; [eapply yields_bind; [apply yields_query|]; cbn beta;
    change (pd_ReceiverID (pi_Processed i), pd_OutboxID (pi_Processed i)) with (delivery (pi_Processed i)); rewrite Hp; apply yields_ret|].
  cbv iota. eapply yields_bind; [apply yields_query|]. eapply yields_bind; [exact Hplan|].
  unfold settled. destruct (pn_same plan).
  - eapply yields_bind; [apply yields_ret|]. apply settle_yields; [by rewrite Ep|]. by apply (holds_lease_eq d1 d).
  - eapply yields_bind; [unfold upsertPR, upserted; apply yields_exec|]. apply settle_yields; [by cbn; rewrite Ep|].
    unfold holds_lease in *. cbn. by rewrite El.
Qed.

Lemma at_key_current d :
  Consistent d → cs_Eligibility (at_key key d) = PREligibilityEligible →
  ∃ w, db_prs d !! key = Some w ∧ pw_Eligibility w = PREligibilityEligible ∧ pw_Gen w = cs_Generation (at_key key d)
    ∧ pw_Target w = Some (cs_CurrentTargetID (at_key key d)) ∧ pw_Job w = Some (cs_CurrentJobID (at_key key d)).
Proof.
  intros Hc. unfold at_key. destruct (db_prs d !! key) as [w|] eqn:Hw; [|done]. cbn. intros He. exists w.
  destruct (c_row _ Hc _ w Hw) as [_ Hrow]. destruct (pw_Job w) as [j|]; [|by destruct Hrow].
  destruct Hrow as (_ & _ & r & _ & _ & _ & ->). done.
Qed.

(** What is live of the pull request [k] is of a job that [P] allows. *)
Definition live_only (d : DB) (k : PRKey) (P : string → Prop) : Prop :=
  (∀ j jr, db_jobs d !! j = Some jr → jobKey jr = k → live_job jr = true → P j) ∧
  (∀ a ar jr, db_attempts d !! a = Some ar → live_attempt ar = true → db_jobs d !! aw_JobID ar = Some jr → jobKey jr = k → P (aw_JobID ar)) ∧
  (∀ sr jr, sr ∈ db_sources d → live_source sr = true → db_jobs d !! sw_JobID sr = Some jr → jobKey jr = k → P (sw_JobID sr)).

(** The job [j], its attempts and its source requests: what was live is superseded,
    cancelled and superseded; what had ended is as it was. *)
Definition job_superseded (j : string) (d d' : DB) : Prop :=
  (∀ jr, db_jobs d !! j = Some jr → ∃ jr', db_jobs d' !! j = Some jr' ∧
     jw_State jr' = if live_job jr then JobStateSuperseded else jw_State jr) ∧
  (∀ a ar, db_attempts d !! a = Some ar → aw_JobID ar = j → ∃ ar', db_attempts d' !! a = Some ar' ∧
     aw_State ar' = if live_attempt ar then AttemptStateCancelled else aw_State ar) ∧
  (∀ n sr, db_sources d !! n = Some sr → sw_JobID sr = j → ∃ sr', db_sources d' !! n = Some sr' ∧
     sw_State sr' = if live_source sr then SourceStateSuperseded else sw_State sr).

Lemma current_live_only d k (P : string → Prop) :
  Consistent d → (∀ w j, db_prs d !! k = Some w → pw_Job w = Some j → P j) → live_only d k P.
Proof.
  intros Hc HP.
  assert (∀ j jr, current_job d j → db_jobs d !! j = Some jr → jobKey jr = k → P j) as Hcur.
  { intros j jr (k' & w & Hw & Ej) Hjr <-. destruct (c_row _ Hc k' w Hw) as [_ Hrow]. rewrite Ej in Hrow.
    destruct Hrow as (_ & _ & r0 & Hr0 & Hk0 & _). rewrite Hjr in Hr0. injection Hr0 as <-. subst k'. by eapply HP. }
  split_and!.
  - intros j jr Hjr Hk Hl. eapply Hcur; [by eapply c_live_job|done..].
  - intros a ar jr Har Hl Hjr Hk. eapply Hcur; [by eapply c_live_attempt|done..].
  - intros sr jr Hsr Hl Hjr Hk. eapply Hcur; [by eapply c_live_source|done..].
Qed.

Lemma ended_superseded j d : job_superseded j d (ended j JobStateSuperseded SourceStateSuperseded d).
Proof.
  split_and!.
  - intros jr Hjr. eexists. cbn. rewrite lookup_alter_eq, Hjr. split; [done|]. by destruct (live_job jr).
  - intros a ar Har Hj. eexists. cbn. rewrite lookup_fmap, Har. split; [done|]. rewrite (bool_decide_true _ Hj). by destruct (live_attempt ar).
  - intros n sr Hsr Hj. eexists. cbn. rewrite list_lookup_fmap, Hsr. split; [done|]. rewrite (bool_decide_true _ Hj). by destruct (live_source sr).
Qed.

(** New rows next to those of the job change nothing of it. *)
Lemma job_superseded_weaken j d d1 d2 :
  job_superseded j d d1 → db_jobs d1 ⊆ db_jobs d2 → db_attempts d1 ⊆ db_attempts d2 → db_sources d1 `prefix_of` db_sources d2 →
  job_superseded j d d2.
Proof.
  intros (H1 & H2 & H3) Ej Ea [l El]. split_and!.
  - intros jr Hjr. destruct (H1 jr Hjr) as (jr' & ? & ?). exists jr'. split; [by eapply lookup_weaken|done].
  - intros a ar Har Hj. destruct (H2 a ar Har Hj) as (ar' & ? & ?). exists ar'. split; [by eapply lookup_weaken|done].
  - intros n sr Hsr Hj. destruct (H3 n sr Hsr Hj) as (sr' & ? & ?). exists sr'. split; [|done]. rewrite El. by apply lookup_app_l_Some.
Qed.

(** C31: what an applied snapshot leaves.  A new delivery is recorded with its
    decision and the lease is given back; no other pull request changes; this one
    has the eligibility of the snapshot.  An eligible snapshot of the current target
    changes nothing else.  One of another target schedules the next generation,
    with a job that imports its sources, one queued attempt and a pending source
    request; the job that was current is superseded if it was live, with its live
    source requests, and its live attempts are cancelled; and nothing of the pull
    request is live but of the new job.  One that is not eligible leaves no current
    job and nothing live of the pull request, in a new generation unless it was
    already so. *)
Theorem snapshot_exact faults d r d' :
  reachable s d → run (ApplyPullRequestSnapshot s i) faults d = (Ok r, d') → db_processed d !! delivery (pi_Processed i) = None →
  let cur := at_key key d in
  db_leases d' = delete key (db_leases d) ∧
  db_processed d' = <[delivery (pi_Processed i) := processedRow (pi_Processed i) r]> (db_processed d) ∧
  (∀ k, k <> key → db_prs d' !! k = db_prs d !! k) ∧
  ∃ w, db_prs d' !! key = Some w ∧ pw_Eligibility w = eligibilityFor snap ∧ pw_Gen w = rr_Generation r ∧
  if decide (eligibilityFor snap = PREligibilityEligible) then
    ∃ t, targetID target = Ok t ∧ pw_Target w = Some t ∧ pw_Job w = Some (rr_JobID r) ∧
    if decide (cs_Eligibility cur = PREligibilityEligible ∧ cs_CurrentTargetID cur = t)
    then rr_Decision r = DecisionNoChangeCurrentTarget ∧ rr_Generation r = cs_Generation cur ∧ core d' = core d
    else rr_Decision r = DecisionScheduledNewTarget ∧ rr_Generation r = cs_Generation cur + 1 ∧
      (∃ jr, db_jobs d' !! rr_JobID r = Some jr ∧ jw_State jr = JobStateImportingSource ∧ jw_Generation jr = rr_Generation r) ∧
      (∃ ar, db_attempts d' !! rr_AttemptID r = Some ar ∧ aw_JobID ar = rr_JobID r ∧ aw_State ar = AttemptStateQueued ∧ aw_Number ar = 1) ∧
      (∃ sr, last (db_sources d') = Some sr ∧ sw_RequestID sr = rr_SourceRequestID r ∧ sw_JobID sr = rr_JobID r
         ∧ sw_State sr = SourceStatePending) ∧
      (cs_CurrentJobID cur <> ""%string → job_superseded (cs_CurrentJobID cur) d d') ∧
      live_only d' key (λ j, j = rr_JobID r)
  else
    pw_Target w = None ∧ pw_Job w = None ∧
    rr_Generation r = (if decide (cs_Generation cur = 0 ∨ cs_Eligibility cur <> eligibilityFor snap) then cs_Generation cur + 1 else cs_Generation cur) ∧
    live_only d' key (λ _, False).
Proof.
  intros Hreach (n & H)%run_ok Hnone cur. pose proof (reachable_consistent s d Hreach) as Hc.
  pose proof (ApplyPullRequestSnapshot_sound _ _ _ _ _ _ _ _ H Hc) as [Hc' _].
  apply ApplyPullRequestSnapshot_Ok in H as (Hv & _ & H). rewrite Hnone in H. destruct H as (plan & d1 & Hplan & -> & Hd').
  change (currentOf _ _) with cur in Hplan. pose proof (planned_frame _ _ _ _ _ Hplan) as (El & Ep & Epr & _).
  assert (db_leases d' = delete key (db_leases d) ∧ db_processed d' = <[delivery (pi_Processed i) := processedRow (pi_Processed i) (pn_result plan)]> (db_processed d)
    ∧ (∀ k, k <> key → db_prs d' !! k = db_prs d !! k)) as (? & ? & ?).
  { subst d'. destruct (pn_same plan); cbn; rewrite El, Ep; split_and!; try done; intros k Hk; rewrite ?Epr; [done|].
    by rewrite lookup_insert_ne. }
  split_and!; [done..|]. subst d'. destruct Hplan as [t He Hid Hcur Ht|job attempt tgt gen src He Hmax Hneq Hj Ha d2 Hfj Hfa Hfs|gen d1 e He Hgen].
  - destruct (at_key_current d Hc Hcur) as (w & Hw & Hwe & Hwg & Hwt & Hwj). exists w. cbn. fold cur in Hwg, Hwt, Hwj.
    rewrite He, decide_True by done. split_and!; try done. exists t. rewrite decide_True by done. split_and!; try done. congruence.
  - destruct (NewAnalysisJob_Ok _ _ _ _ _ Hj) as (_ & Etid & _ & Eg & _).
    destruct (NewAnalysisAttempt_Ok _ _ _ _ Ha) as (Eaj & _ & _ & Ean & _).
    assert (aj_ID job <> ""%string ∧ aj_TargetID job <> ""%string) as [Hne Hnt].
    { split; intros E. - unfold NewAnalysisAttempt in Ha. by rewrite E in Ha.
      - unfold NewAnalysisAttempt in Ha. rewrite E in Ha. by rewrite orb_true_r in Ha. }
    eexists. split; [apply lookup_insert_eq|]. cbn [pw_Eligibility pw_Gen pw_Target pw_Job prRow pn_result rr_Eligibility rr_Generation rr_TargetID rr_JobID rr_Decision rr_AttemptID rr_SourceRequestID].
    rewrite He, decide_True by done. split_and!; try done.
    exists (aj_TargetID job). rewrite decide_False by done.
    rewrite !nullable_Some by done. split_and!; try done.
    + eexists. cbn. rewrite lookup_insert_eq. split; [done|]. done.
    + eexists. cbn. rewrite lookup_insert_eq. split; [done|]. done.
    + eexists. cbn. rewrite last_snoc. split; [done|]. done.
    + intros Hcj. eapply (job_superseded_weaken _ d d2); cbn.
      * subst d2. unfold superseded. rewrite (bool_decide_false _ Hcj). apply ended_superseded.
      * by apply insert_subseteq.
      * apply insert_subseteq. by destruct Hfa.
      * by eexists.
    + apply (current_live_only _ _ _ Hc'). cbn. intros w j. rewrite lookup_insert_eq. intros [= <-]. cbn.
      rewrite nullable_Some by done. by intros [= <-].
  - eexists. split; [apply lookup_insert_eq|]. cbn [pw_Eligibility pw_Gen pw_Target pw_Job prRow pn_result rr_Eligibility rr_Generation rr_TargetID rr_JobID].
    rewrite decide_False by done. fold e. split_and!; try done.
    + destruct (decide _); [by destruct Hgen as (_ & -> & _)|by destruct Hgen as [-> _]].
    + apply (current_live_only _ _ _ Hc'). cbn. intros w j. rewrite lookup_insert_eq. by intros [= <-].
Qed.
End snapshot.

(** ** Claims of source requests *)

Lemma leaseSources_yields owner now expires l d :
  (∀ i r, (i, r) ∈ l → db_sources d !! i = Some r ∧ claimable now r = true) → NoDup l.*1 →
  ∃ d', yields (leaseSources owner now expires l) d ((λ c, rowRequest c.2 owner (sw_LeaseGeneration c.2 + 1)) <$> l) d'.
Proof.
  revert d. induction l as [|[i r] l IH]; intros d Hl Hnd; cbn [leaseSources]; [eexists; apply yields_ret|].
  rewrite fmap_cons in Hnd. apply NoDup_cons in Hnd as [Hi Hnd]. cbn in Hi. destruct (Hl i r ltac:(left)) as [Hr Hcl].
  set (d1 := set_sources (alter (claimRow owner now expires r) i) d).
  destruct (IH d1) as [d' Hd']; [|done|].
  { intros j x Hin. destruct (Hl j x ltac:(by right)) as [Hx ?]. split; [|done]. cbn. rewrite list_lookup_alter_ne; [done|].
    intros <-. apply Hi, list_elem_of_fmap. by exists (i, x). }
  exists d'. apply (yields_bind _ _ d [rowRequest r owner (sw_LeaseGeneration r + 1)] d1); [|eapply yields_bind; [exact Hd'|apply yields_ret]].
  unfold leaseSource. eapply yields_bind; [apply yields_call|]. eapply yields_bind; [apply yields_gets|].
  eapply yields_bind; [apply yields_puts|]. rewrite Hr, Hcl, bool_decide_true by done. apply yields_ret.
Qed.

(** A row with fewer claimable rows before it than the limit is a candidate. *)
Lemma claimCandidates_room now limit d i r :
  db_sources d !! i = Some r → claimable now r = true →
  (length (filter (λ r, claimable now r = true) (take i (db_sources d))) < limit)%nat → (i, r) ∈ claimCandidates now limit d.
Proof.
  intros Hi Hr Hlen. unfold claimCandidates. set (P := λ '(_, r), claimable now r = true).
  assert (∀ (l : list SourceRow) k, length (filter P (imap (λ j x, (k + j, x)%nat) l)) = length (filter (λ r, claimable now r = true) l)) as Hcount.
  { induction l as [|x l IH]; intros k; [done|]. cbn [imap]. rewrite !filter_cons. specialize (IH (S k)).
    assert (imap ((λ j x, (k + j, x)%nat) ∘ S) l = imap (λ j x, (S k + j, x)%nat) l) as E
      by (apply imap_ext; intros; cbn; f_equal; lia). rewrite E. repeat case_decide; cbn; try (by f_equal); done. }
  rewrite <-(take_drop_middle _ _ _ Hi) at 1. rewrite imap_app, filter_app. cbn [imap].
  rewrite filter_cons, decide_True by (subst P; done).
  rewrite <-(Hcount _ 0%nat) in Hlen. change (length (filter P (imap pair (take i (db_sources d)))) < limit)%nat in Hlen.
  rewrite take_app_ge by lia.
  apply elem_of_app. right. destruct (limit - _)%nat eqn:E; [lia|]. cbn.
  rewrite length_take_le, Nat.add_0_r by (apply lookup_lt_Some in Hi; lia). left.
Qed.

(** A waiting source request is claimed.  When the database works and the claim
    is valid, every request that is pending, or whose lease expired, with fewer such
    requests before it than the limit, is handed to the claiming owner, at the next
    lease generation (as long as no counter is exhausted). *)
Theorem claim_progress s owner now duration limit d i r :
  validID owner = true → valid_utc now = true → 0 < duration <= l_SourceLeaseDuration (st_limits s) → 0 < limit <= 100 →
  (∀ x, x ∈ db_sources d → sw_LeaseGeneration x < MaxInt64 ∧ sw_AttemptCount x < MaxInt64) →
  db_sources d !! i = Some r → claimable (formatTime (gt_instant now)) r = true →
  (length (filter (λ r, claimable (formatTime (gt_instant now)) r = true) (take i (db_sources d))) < Z.to_nat limit)%nat →
  ∃ out d', run (ClaimSourceImports s owner now duration limit) calm d = (Ok out, d') ∧ rowRequest r owner (sw_LeaseGeneration r + 1) ∈ out.
Proof.
  intros Hid Hnow Hdur Hlim Hroom Hi Hr Hlen. set (text := formatTime (gt_instant now)) in *.
  set (cands := claimCandidates text (Z.to_nat limit) d).
  destruct (leaseSources_yields owner text (formatTime (gt_instant now + duration)) cands d) as [d' Hd'];
    [intros j x; apply elem_of_claimCandidates|apply claimCandidates_NoDup|].
  eexists _, d'. split.
  - apply yields_run. unfold ClaimSourceImports. eapply yields_bind.
    { apply yields_guard. rewrite Hid, Hnow, (proj2 (Z.leb_gt _ _)), (proj2 (Z.ltb_ge _ _)), (proj2 (Z.leb_gt _ _)), (proj2 (Z.ltb_ge _ _)) by lia. done. }
    eapply yields_transaction, yields_bind; [apply yields_query|]. eapply yields_bind; [|eapply yields_bind; [exact Hd'|apply yields_ret]].
    apply yields_guard. apply not_true_is_false. rewrite existsb_exists. intros ([j x] & Hx & Hbad). apply list_elem_of_In in Hx.
    apply elem_of_claimCandidates in Hx as [Hx _]. apply list_elem_of_lookup_2 in Hx. apply Hroom in Hx.
    apply orb_true_iff in Hbad as [Hb|Hb]; unbool; lia.
  - apply list_elem_of_fmap. exists (i, r). split; [done|]. by apply claimCandidates_room.
Qed.
