(* ===== verification/ControllerEx.v ===== *)
(** * A worked history of a controller's store

    A pull request is leased, scheduled, its sources claimed twice, imported, its
    installation suspended; each step is computed, and the laws apply to it. *)

From stdpp Require Import prelude gmap strings.
From Stdlib Require Import ZArith Lia Ascii.
From S2P Require Import Prelude GoStd Sha256 Framing GoTime Model Json GoText GoCalendar Sql GithubApp ControllerStore ControllerSource ControllerStoreSpec ControllerInv ControllerSteps ControllerLaws ControllerProgress.
Local Open Scope Z_scope.

(** The value of a result that is known to be one. *)
Definition ok_or {E A} (a : A) (r : result E A) : A := match r with Ok x => x | Err _ => a end.
Definition succeeds {E A} (r : result E A) : bool := match r with Ok _ => true | Err _ => false end.
(** A run that succeeds is the pair of what it answers and the state it leaves. *)
Lemma run_pair {E A D} (a : A) (x : result E A * D) : succeeds x.1 = true → x = (Ok (ok_or a x.1), x.2).
Proof. by destruct x as [[]]. Qed.

Definition ex_store : Store := mkStore "receiver" 7 ControllerStore.DefaultLimits.
Definition ex_key : PRKey := mkPRKey 1 2 3.
(** Seconds after 2023-11-14T22:13:20Z. *)
Definition ex_at (seconds : Z) : GoTimeValue := mkGoTimeValue ((1700000000 + seconds) * second) 0 true false.
Definition ex_hex (c : ascii) (n : nat) : string := of_bytes (replicate n c).
Definition ex_endpoint (repo : Z) (name commit : string) : PullRequestEndpoint := mkPullRequestEndpoint repo "owner" name commit true.
Definition ex_snapshot (head : ascii) (draft : bool) : PullRequestSnapshot :=
  mkPullRequestSnapshot PullRequestSnapshotSchemaV1Alpha1 3 PullRequestStateOpen draft false
    (ex_endpoint 2 "repo" (ex_hex "a" 40)) (ex_endpoint 2 "repo" (ex_hex head 40)).
Definition ex_delivery (outbox kind : string) : ProcessedDelivery :=
  mkProcessedDelivery "receiver" outbox "delivery" kind ("sha256:" +:+ ex_hex "0" 64) (ex_at 0).
Definition ex_lease (generation : Z) (from : Z) : ReconcileLease :=
  mkReconcileLease ex_key "controller" generation (ex_at from) ((1700000000 + from + 20) * second).
Definition ex_input (outbox : string) (head : ascii) (from : Z) : PullRequestReconcileInput :=
  mkPullRequestReconcileInput (ex_delivery outbox ProjectionPullRequest) (ex_lease 1 from) (ex_snapshot head false) (ex_at from).

Definition ex_acquire (from : Z) : Op := OpAcquireLease ex_key "controller" (ex_at from) (20 * second).
Definition ex_d1 : DB := exec_op ex_store (ex_acquire 0) calm emptyDB.
Definition ex_run2 := run (ApplyPullRequestSnapshot ex_store (ex_input "outbox-1" "b" 0)) calm ex_d1.
Definition ex_d2 : DB := ex_run2.2.
Definition ex_r2 : ReconcileResult := ok_or (decided ""%string) ex_run2.1.
Definition ex_run3 := run (ClaimSourceImports ex_store "importer-a" (ex_at 1) (60 * second) 5) calm ex_d2.
Definition ex_d3 : DB := ex_run3.2.
Definition ex_out3 : list SourceImportRequest := ok_or ([]) ex_run3.1.
Definition ex_run4 := run (ClaimSourceImports ex_store "importer-b" (ex_at 61) (60 * second) 5) calm ex_d3.
Definition ex_d4 : DB := ex_run4.2.
Definition ex_out4 : list SourceImportRequest := ok_or ([]) ex_run4.1.

Example ex_scheduled :
  (rr_Decision ex_r2, rr_Generation ex_r2, length (db_sources ex_d2)) = (DecisionScheduledNewTarget, 1, 1%nat).
Proof. vm_compute. reflexivity. Qed.
Example ex_claimed : (sr_LeaseGeneration <$> ex_out3, sr_LeaseGeneration <$> ex_out4) = ([1], [2]).
Proof. vm_compute. reflexivity. Qed.

(** ** The history is one of the store *)

Lemma ex_run2_ok : run (ApplyPullRequestSnapshot ex_store (ex_input "outbox-1" "b" 0)) calm ex_d1 = (Ok ex_r2, ex_d2).
Proof. exact (run_pair (decided ""%string) ex_run2 (eq_refl true <: succeeds ex_run2.1 = true)). Qed.
Lemma ex_run3_ok : run (ClaimSourceImports ex_store "importer-a" (ex_at 1) (60 * second) 5) calm ex_d2 = (Ok ex_out3, ex_d3).
Proof. exact (run_pair ([]) ex_run3 (eq_refl true <: succeeds ex_run3.1 = true)). Qed.
Lemma ex_run4_ok : run (ClaimSourceImports ex_store "importer-b" (ex_at 61) (60 * second) 5) calm ex_d3 = (Ok ex_out4, ex_d4).
Proof. exact (run_pair ([]) ex_run4 (eq_refl true <: succeeds ex_run4.1 = true)). Qed.

Lemma ex_reach1 : reachable ex_store ex_d1.
Proof. eapply rtc_l; [|reflexivity]. by exists (ex_acquire 0), calm. Qed.
Lemma ex_step2 : step ex_store ex_d1 ex_d2.
Proof. exists (OpApplySnapshot (ex_input "outbox-1" "b" 0)), calm. unfold exec_op. by rewrite ex_run2_ok. Qed.
Lemma ex_reach2 : reachable ex_store ex_d2.
Proof. eapply rtc_r; [apply ex_reach1|apply ex_step2]. Qed.
Lemma ex_step3 : step ex_store ex_d2 ex_d3.
Proof. exists (OpClaimSources "importer-a" (ex_at 1) (60 * second) 5), calm. unfold exec_op. by rewrite ex_run3_ok. Qed.
Lemma ex_reach3 : reachable ex_store ex_d3.
Proof. eapply rtc_r; [apply ex_reach2|apply ex_step3]. Qed.
Lemma ex_step4 : step ex_store ex_d3 ex_d4.
Proof. exists (OpClaimSources "importer-b" (ex_at 61) (60 * second) 5), calm. unfold exec_op. by rewrite ex_run4_ok. Qed.
Lemma ex_reach4 : reachable ex_store ex_d4.
Proof. eapply rtc_r; [apply ex_reach3|apply ex_step4]. Qed.

(** The second importer reports; the installation is suspended. *)
Definition ex_row : SourceRow := default (mkSourceRow "" "" "" 0 0 0 (mkRouteHint 0 "" "" "") (mkRouteHint 0 "" "" "") "" None 0 None 0 "" noResult)
  (head (db_sources ex_d4)).
Definition ex_result : SourceImportResult :=
  mkSourceImportResult (sw_RequestID ex_row) (sw_TargetID ex_row) (sw_JobID ex_row) 1 2 2 (ex_hex "a" 40) (ex_hex "b" 40)
    ("source-" +:+ ex_hex "1" 64) ("sha256:" +:+ ex_hex "2" 64) SourceImportProfileSmartHTTPShallowV1Alpha1 "sha1" (ex_hex "3" 40) (ex_hex "4" 40)
    ["shallow history"%string] false.
Definition ex_run5 := run (ApplySourceImportResult ex_result "importer-b" 2 (ex_at 70)) calm ex_d4.
Definition ex_d5 : DB := ex_run5.2.
Definition ex_hint : InstallationHintInput :=
  mkInstallationHintInput (ex_delivery "outbox-2" ProjectionInstallation) (mkInstallationProjection "suspend" 1 []) (ex_at 80).
Definition ex_run6 := run (ApplyInstallationHint ex_store ex_hint) calm ex_d4.
Definition ex_r6 : ReconcileResult := ok_or (decided ""%string) ex_run6.1.

Lemma ex_run5_ok : run (ApplySourceImportResult ex_result "importer-b" 2 (ex_at 70)) calm ex_d4 = (Ok (), ex_d5).
Proof. vm_cast_no_check (eq_refl ex_run5). Qed.
Lemma ex_run6_ok : run (ApplyInstallationHint ex_store ex_hint) calm ex_d4 = (Ok ex_r6, ex_run6.2).
Proof. exact (run_pair (decided ""%string) ex_run6 (eq_refl true <: succeeds ex_run6.1 = true)). Qed.

(** The result moves the job on to [awaiting-runner] from [importing-source], a move
    that the protocol's machine, with a planning state between them, has not. *)
Example ex_job_moved :
  option_map jw_State (db_jobs ex_d5 !! rr_JobID ex_r2) = Some JobStateAwaitingRunner
  ∧ ∃ e, TransitionJob JobStateImportingSource JobStateAwaitingRunner = Err e.
Proof. split; [vm_compute; reflexivity|eexists; vm_compute; reflexivity]. Qed.

(** ** The laws on the history *)

Lemma one_live_generation_witness : ∃ j r, db_jobs ex_d4 !! j = Some r ∧ live_job r = true ∧ current_generation ex_d4 (jobKey r) j (jw_Generation r).
Proof.
  destruct (db_jobs ex_d4 !! rr_JobID ex_r2) as [r|] eqn:E; [|exfalso; revert E; vm_compute; discriminate].
  exists (rr_JobID ex_r2), r. split; [exact E|]. assert (live_job r = true) as Hl.
  { assert (option_map live_job (Some r) = Some true) as H; [rewrite <-E; vm_compute; reflexivity|injection H as H; exact H]. }
  split; [exact Hl|]. exact (proj1 (one_live_generation ex_store ex_d4 ex_reach4) _ r E Hl).
Defined.

Lemma history_preserved_witness : evolves ex_d2 ex_d4.
Proof. refine (history_preserved ex_store ex_d2 ex_d4 ex_reach2 _). eapply rtc_l; [apply ex_step3|]. eapply rtc_l; [apply ex_step4|reflexivity]. Defined.

(** The delivery of the snapshot again, under a new lease. *)
Definition ex_d4' : DB := exec_op ex_store (ex_acquire 90) calm ex_d4.
Definition ex_run7 := run (ApplyPullRequestSnapshot ex_store (ex_input "outbox-1" "c" 90)) calm ex_d4'.
Definition ex_r7 : ReconcileResult := ok_or (decided ""%string) ex_run7.1.
Lemma ex_run7_ok : run (ApplyPullRequestSnapshot ex_store (ex_input "outbox-1" "c" 90)) calm ex_d4' = (Ok ex_r7, ex_run7.2).
Proof. exact (run_pair (decided ""%string) ex_run7 (eq_refl true <: succeeds ex_run7.1 = true)). Qed.

Lemma delivered_once_witness : rr_Decision ex_r7 = DecisionDuplicateProcessed ∧ core ex_run7.2 = core ex_d4'.
Proof.
  assert (rtc (step ex_store) ex_d2 ex_d4') as Hsteps.
  { eapply rtc_l; [apply ex_step3|]. eapply rtc_l; [apply ex_step4|]. eapply rtc_l; [|reflexivity]. by exists (ex_acquire 90), calm. }
  destruct (delivered_once ex_store (ex_delivery "outbox-1" ProjectionPullRequest) (ex_delivery "outbox-1" ProjectionPullRequest)
    ex_d1 ex_d2 ex_d4' ex_r2 ex_r7 ex_run7.2) as (_ & E & Hcore & _).
  - exact ex_reach1.
  - exact (processes_snapshot _ _ _ _ _ _ ex_run2_ok).
  - reflexivity.
  - exact Hsteps.
  - reflexivity.
  - exact (processes_snapshot _ _ _ _ _ _ ex_run7_ok).
  - split; [rewrite E; reflexivity|exact Hcore].
Defined.

(** Another owner tries in vain before the expiry, and succeeds after it. *)
Definition ex_d1' : DB := exec_op ex_store (OpAcquireLease ex_key "another" (ex_at 10) (20 * second)) calm ex_d1.
Definition ex_run9 := run (AcquireReconcileLease ex_store ex_key "another" (ex_at 30) (20 * second)) calm ex_d1'.
Definition ex_lease9 : ReconcileLease := ok_or (ex_lease 1 0) ex_run9.1.
Lemma ex_run9_ok : run (AcquireReconcileLease ex_store ex_key "another" (ex_at 30) (20 * second)) calm ex_d1' = (Ok ex_lease9, ex_run9.2).
Proof. exact (run_pair (ex_lease 1 0) ex_run9 (eq_refl true <: succeeds ex_run9.1 = true)). Qed.

Lemma lease_exclusive_witness :
  rl_Generation ex_lease9 = 2 ∧ holds_lease ex_d1' (ex_lease 1 0) ∧ expiry (ex_lease 1 0) <= gt_instant (ex_at 30).
Proof.
  split; [vm_compute; reflexivity|].
  destruct (lease_exclusive ex_store ex_key "controller" (ex_at 0) (20 * second) calm emptyDB (ex_lease 1 0) ex_d1 ex_d1') as ((_ & _ & Hh) & Ha & _).
  - vm_compute. reflexivity.
  - unfold in_calendar. vm_compute. split; discriminate.
  - apply rtc_once. exists (OpAcquireLease ex_key "another" (ex_at 10) (20 * second)), calm.
    split; [intros _; vm_compute; reflexivity|reflexivity].
  - split; [exact Hh|]. exact (Ha "another"%string (ex_at 30) (20 * second) calm ex_lease9 ex_run9.2 ex_run9_ok).
Defined.

Lemma source_lease_fenced_witness :
  ∃ q1, head ex_out3 = Some q1 ∧
  ¬ ∃ r d5, run (AcknowledgeSourceImport (sr_ID q1) "importer-a" (sr_LeaseGeneration q1) (ex_at 62)) calm ex_d4 = (Ok r, d5).
Proof.
  destruct (head ex_out3) as [q1|] eqn:H1; [|exfalso; revert H1; vm_compute; discriminate].
  destruct (head ex_out4) as [q2|] eqn:H2; [|exfalso; revert H2; vm_compute; discriminate].
  exists q1. split; [reflexivity|]. intros (r & d5 & Hrun). revert Hrun. apply head_Some_elem_of in H1 as Hq1, H2 as Hq2.
  refine (proj1 (proj2 (source_lease_fenced ex_store "importer-a" (ex_at 1) (60 * second) 5 calm "importer-b" (ex_at 61) (60 * second) 5 calm
    ex_d2 ex_d3 ex_d3 ex_d4 ex_d4 ex_out3 ex_out4 q1 q2 ex_reach2 ex_run3_ok Hq1 (rtc_refl _ _) ex_run4_ok Hq2 _ (rtc_refl _ _))
    calm "importer-a" (ex_at 62)) SourceStateCompleted r d5).
  assert (sr_ID <$> head ex_out4 = sr_ID <$> head ex_out3) as E; [vm_compute; reflexivity|].
  rewrite H1, H2 in E. cbn in E. injection E as E. exact E.
Defined.

Lemma source_result_current_witness : ∃ jr, db_jobs ex_d4 !! si_JobID ex_result = Some jr
  ∧ current_generation ex_d4 (jobKey jr) (si_JobID ex_result) (si_Generation ex_result) ∧ db_prs ex_d5 = db_prs ex_d4.
Proof.
  destruct (source_result_current ex_store ex_result "importer-b" 2 (ex_at 70) calm ex_d4 ex_d5 ex_reach4 ex_run5_ok)
    as (i & w & jr & c & _ & _ & _ & Hjr & Hcur & _ & _ & Hp & _).
  exists jr. split; [exact Hjr|]. split; [exact Hcur|exact Hp].
Defined.

Lemma hint_blocks_exactly_witness : ∃ w', db_prs ex_run6.2 !! ex_key = Some w' ∧ pw_Gen w' = 2 ∧ pw_Job w' = None.
Proof.
  destruct (db_prs ex_d4 !! ex_key) as [w|] eqn:E; [|exfalso; revert E; vm_compute; discriminate].
  assert (pw_Eligibility w = PREligibilityEligible ∧ pw_Gen w = 1) as [He Hg].
  { assert ((λ w, (pw_Eligibility w, pw_Gen w)) <$> Some w = Some (PREligibilityEligible, 1)) as H; [rewrite <-E; vm_compute; reflexivity|].
    injection H as H1 H2. split; assumption. }
  pose proof (hint_blocks_exactly ex_store ex_hint calm ex_d4 ex_r6 ex_run6.2 ex_reach4 ex_run6_ok eq_refl ex_key w E) as H.
  rewrite decide_True in H by (split; [reflexivity|]; split; [reflexivity|]; split; [exact He|reflexivity]).
  destruct H as [(w' & Hw' & Hgen & _ & Hj & _) _]. exists w'. rewrite Hgen, Hg. split; [exact Hw'|]. split; [reflexivity|exact Hj].
Defined.

Lemma ex_admissible : admissible (ex_input "outbox-1" "b" 0).
Proof. intros _. vm_compute. done. Qed.
Lemma ex_unused : unused (ex_input "outbox-1" "b" 0) ex_d1.
Proof.
  intros job attempt _ _. split; [apply lookup_empty|]. split; [split; [apply lookup_empty|apply map_Forall_empty]|].
  intros w Hw. by apply not_elem_of_nil in Hw.
Qed.

Lemma snapshot_applied_witness : ∃ r d', run (ApplyPullRequestSnapshot ex_store (ex_input "outbox-1" "b" 0)) calm ex_d1 = (Ok r, d').
Proof.
  apply (snapshot_applied ex_store (ex_input "outbox-1" "b" 0) ex_d1 ex_reach1).
  - vm_compute. reflexivity.
  - eexists. split; [vm_compute; reflexivity|]. split; reflexivity.
  - reflexivity.
  - exact ex_admissible.
  - vm_compute. reflexivity.
  - exact ex_unused.
Defined.

Lemma snapshot_exact_witness : ∃ w, db_prs ex_d2 !! ex_key = Some w ∧ pw_Eligibility w = PREligibilityEligible ∧ pw_Gen w = rr_Generation ex_r2.
Proof.
  destruct (snapshot_exact ex_store (ex_input "outbox-1" "b" 0) calm ex_d1 ex_r2 ex_d2 ex_reach1 ex_run2_ok eq_refl)
    as (_ & _ & _ & w & Hw & He & Hg & _).
  exists w. split; [exact Hw|]. split; [exact He|exact Hg].
Defined.

Lemma claim_progress_witness : ∃ out d', run (ClaimSourceImports ex_store "importer-b" (ex_at 61) (60 * second) 5) calm ex_d3 = (Ok out, d')
  ∧ Exists (λ q, sr_LeaseGeneration q = 2) out.
Proof.
  destruct (db_sources ex_d3 !! 0%nat) as [r|] eqn:E; [|exfalso; revert E; vm_compute; discriminate].
  assert (claimable (formatTime (gt_instant (ex_at 61))) r = true ∧ sw_LeaseGeneration r = 1) as [Hc Hg].
  { assert ((λ r, (claimable (formatTime (gt_instant (ex_at 61))) r, sw_LeaseGeneration r)) <$> Some r = Some (true, 1)) as H;
      [rewrite <-E; vm_compute; reflexivity|injection H as H1 H2; split; assumption]. }
  destruct (claim_progress ex_store "importer-b" (ex_at 61) (60 * second) 5 ex_d3 0 r) as (out & d' & Hrun & Hin).
  - vm_compute. reflexivity.
  - vm_compute. reflexivity.
  - vm_compute. split; [reflexivity|discriminate].
  - vm_compute. split; [reflexivity|discriminate].
  - intros x Hx. assert (forallb (λ x, (sw_LeaseGeneration x <? MaxInt64) && (sw_AttemptCount x <? MaxInt64)) (db_sources ex_d3) = true) as H;
      [vm_compute; reflexivity|]. apply (forallb_elem _ _ x H), andb_true_iff in Hx as [H1 H2].
    split; [exact (proj1 (Z.ltb_lt _ _) H1)|exact (proj1 (Z.ltb_lt _ _) H2)].
  - exact E.
  - exact Hc.
  - vm_compute. do 4 apply le_S. apply le_n.
  - exists out, d'. split; [exact Hrun|]. apply Exists_exists. exists (rowRequest r "importer-b" (sw_LeaseGeneration r + 1)).
    split; [exact Hin|]. change (sw_LeaseGeneration r + 1 = 2). rewrite Hg. reflexivity.
Defined.
