(* ===== verification/Inbox.v ===== *)
(** * The receiver's inbox and outbox ([internal/githubinbox])

    Verified deliveries are accepted once; an accepted one that asks for work
    leaves a record in the outbox, which controllers claim under a lease and
    acknowledge.  Each operation is one transaction ([Sql.Tx]); timestamps are
    their RFC 3339 text with nanoseconds; a column of JSON is the value it
    serialises (its strings are valid UTF-8, having been decoded from JSON). *)

From stdpp Require Import prelude gmap strings.
From Stdlib Require Import ZArith Lia Ascii.
From S2P Require Import Prelude GoStd Sha256 Framing GoTime Model Json GoText Sql GithubApp.
Local Open Scope Z_scope.

(** ** [errors.go], [limits.go] *)

Record InboxError := mkInboxError { ie_Code : string; ie_Stage : string; ie_Message : string }.
Definition errCode (code stage msg : string) : InboxError := mkInboxError code stage msg.
Definition txErr (stage msg : string) : InboxError := errCode "transaction-failed" stage msg.

(** The limits that the operations read. *)
Record Limits := mkLimits { l_MaxLeaseOwnerBytes : Z; l_MaxClaimLimit : Z; l_MaxLeaseDurationSeconds : Z }.
Definition DefaultLimits : Limits := mkLimits 128 256 (24 * 60 * 60).
(** The configuration of an open store. *)
Record Store := mkStore { st_receiverID : string; st_limits : Limits }.

(** ** [types.go] *)

Record VerifiedDelivery := mkVerifiedDelivery {
  vd_ReceiverID : string; vd_DeliveryID : string; vd_Event : string; vd_Action : string; vd_BodyDigest : string;
  vd_MatchedSecret : SecretGeneration; vd_ReceivedAt : GoTimeValue; vd_Projection : WebhookProjection;
  vd_Receipt : DeliveryReceipt; vd_Disposition : string; vd_IntakeFingerprint : string }.

Inductive AcceptDecision := AcceptNewEnqueued | AcceptNewIgnored | AcceptDuplicateSameDelivery | AcceptDeliveryConflict.
Record AcceptResult := mkAcceptResult { ar_Decision : AcceptDecision; ar_OutboxID : string }.

Abbreviation OutboxState := string.
Definition OutboxStatePending : OutboxState := "pending".
Definition OutboxStateLeased : OutboxState := "leased".
Definition OutboxStateAcknowledged : OutboxState := "acknowledged".

Record LeasedRecord := mkLeasedRecord {
  lr_ID : string; lr_ReceiverID : string; lr_DeliveryID : string; lr_Sequence : Z; lr_ProjectionKind : ProjectionKind;
  lr_Projection : WebhookProjection; lr_ProjectionDigest : string; lr_Receipt : DeliveryReceipt; lr_LeaseOwner : string;
  lr_LeaseGeneration : Z; lr_AttemptCount : Z; lr_CreatedAt : string; lr_LeaseExpiresAt : Time }.

(** ** [schema.go]: the tables *)

Record InboxRow := mkInboxRow {
  in_BodyDigest : string; in_IntakeFingerprint : string; in_EventName : string; in_Action : option string;
  in_ProjectionKind : ProjectionKind; in_Disposition : string; in_MatchedSecret : SecretGeneration; in_ReceivedAt : string;
  in_InstallationID : option Z; in_RepositoryID : option Z; in_PullRequestNumber : option Z; in_CheckRunID : option Z;
  in_BaseSHA : option string; in_HeadSHA : option string; in_Receipt : DeliveryReceipt; in_Projection : WebhookProjection;
  in_RecordDigest : string; in_ConflictCount : Z; in_CreatedAt : string }.
Record OutboxRow := mkOutboxRow {
  ob_ID : string; ob_ReceiverID : string; ob_DeliveryID : string; ob_ProjectionKind : ProjectionKind;
  ob_Projection : WebhookProjection; ob_ProjectionDigest : string; ob_Receipt : DeliveryReceipt; ob_State : OutboxState;
  ob_LeaseOwner : option string; ob_LeaseGeneration : Z; ob_LeaseExpiresAt : option string; ob_AttemptCount : Z;
  ob_CreatedAt : string; ob_AcknowledgedAt : option string; ob_LastFailureCode : option string }.

(** The outbox by its autoincremented sequence, oldest first. *)
Record DB := mkDB { db_inbox : gmap (string * string) InboxRow; db_outbox : list OutboxRow }.
Definition emptyDB : DB := mkDB ∅ [].
Definition set_inbox f d := mkDB (f (db_inbox d)) (db_outbox d).
Definition set_outbox f d := mkDB (db_inbox d) (f (db_outbox d)).
Abbreviation InboxTx := (Tx DB InboxError).

(** ** [digest.go], and the JSON of what is hashed *)

Definition DomainIntakeFingerprint : string := "glassroot.dev/github-webhook-intake/v1" +:+ NUL.
Definition DomainOutboxRecordID : string := "glassroot.dev/github-outbox-record-id/v1" +:+ NUL.
Definition ComputeIntakeFingerprint (receiverID deliveryID eventName bodyDigest projectionKind : string) : string :=
  "sha256:" +:+ domainHash DomainIntakeFingerprint [receiverID; deliveryID; eventName; bodyDigest; projectionKind].
Definition computeOutboxID (receiverID deliveryID intakeFingerprint projectionKind : string) : string :=
  "outbox-" +:+ domainHash DomainOutboxRecordID [receiverID; deliveryID; intakeFingerprint; projectionKind].

Definition json_of_PullRequestProjection (p : PullRequestProjection) : json := JObj (j_fields [
  (false, "action", JStr (pp_Action p)); (false, "installationId", JNum (pp_InstallationID p));
  (false, "repositoryId", JNum (pp_RepositoryID p));
  (ze_num (pp_RepositoryOwnerID p), "repositoryOwnerId", JNum (pp_RepositoryOwnerID p));
  (ze_str (pp_BaseRepositoryOwner p), "baseRepositoryOwner", JStr (pp_BaseRepositoryOwner p));
  (ze_str (pp_BaseRepositoryName p), "baseRepositoryName", JStr (pp_BaseRepositoryName p));
  (false, "pullRequestNumber", JNum (pp_PullRequestNumber p)); (false, "baseSha", JStr (pp_BaseSHA p));
  (false, "headSha", JStr (pp_HeadSHA p)); (ze_num (pp_HeadRepositoryID p), "headRepositoryId", JNum (pp_HeadRepositoryID p));
  (false, "draft", JBool (pp_Draft p)); (false, "closed", JBool (pp_Closed p)); (false, "merged", JBool (pp_Merged p))])%string.
Definition json_of_CheckRunProjection (p : CheckRunProjection) : json := JObj (j_fields [
  (false, "action", JStr (cp_Action p)); (false, "installationId", JNum (cp_InstallationID p));
  (false, "repositoryId", JNum (cp_RepositoryID p)); (false, "checkRunId", JNum (cp_CheckRunID p));
  (false, "headSha", JStr (cp_HeadSHA p)); (false, "appId", JNum (cp_AppID p)); (false, "externalId", JStr (cp_ExternalID p))])%string.
Definition json_of_InstallationProjection (p : InstallationProjection) : json := JObj (j_fields [
  (false, "action", JStr (ip_Action p)); (false, "installationId", JNum (ip_InstallationID p));
  (false, "repositoryIds", JArr (JNum <$> ip_RepositoryIDs p))])%string.
Definition json_of_WebhookProjection (p : WebhookProjection) : json := JObj (j_fields [
  (false, "kind", JStr (wp_Kind p));
  (ze_ptr (wp_PullRequest p), "pullRequest", j_ptr json_of_PullRequestProjection (wp_PullRequest p));
  (ze_ptr (wp_CheckRun p), "checkRun", j_ptr json_of_CheckRunProjection (wp_CheckRun p));
  (ze_ptr (wp_Installation p), "installation", j_ptr json_of_InstallationProjection (wp_Installation p))])%string.
Definition json_of_DeliveryReceipt (r : DeliveryReceipt) : json := JObj (j_fields [
  (false, "schemaVersion", JStr (dr_SchemaVersion r)); (false, "receiverId", JStr (dr_ReceiverID r));
  (false, "deliveryId", JStr (dr_DeliveryID r)); (false, "event", JStr (dr_Event r)); (false, "bodyDigest", JStr (dr_BodyDigest r));
  (false, "matchedSecret", JStr (dr_MatchedSecret r)); (false, "receivedAt", JStr (format_rfc3339nano (dr_ReceivedAt r)));
  (ze_str (dr_InstallationTargetIdentity r), "installationTargetIdentity", JStr (dr_InstallationTargetIdentity r));
  (false, "projectionKind", JStr (dr_ProjectionKind r)); (false, "disposition", JStr (dr_Disposition r))])%string.

Definition projectionDigest (d : VerifiedDelivery) : string :=
  digestBytes ("glassroot.dev/github-projection-json/v1" +:+ NUL) (render (json_of_WebhookProjection (vd_Projection d))).
Definition recordDigest (d : VerifiedDelivery) : string :=
  digestBytes ("glassroot.dev/github-inbox-record/v1" +:+ NUL)
    (to_bytes (String.concat NUL [vd_ReceiverID d; vd_DeliveryID d; vd_IntakeFingerprint d;
       of_bytes (render (json_of_DeliveryReceipt (vd_Receipt d))); of_bytes (render (json_of_WebhookProjection (vd_Projection d)))])).

(** ** [store.go] *)

Definition formatTime (t : Time) : string := format_rfc3339nano t.
Definition nullableAction (a : string) : option string := if a == ""%string then None else Some a.

Definition projectionInstallation (p : WebhookProjection) : option Z :=
  match wp_PullRequest p, wp_CheckRun p, wp_Installation p with
  | Some x, _, _ => Some (pp_InstallationID x)
  | None, Some x, _ => Some (cp_InstallationID x)
  | None, None, Some x => Some (ip_InstallationID x)
  | None, None, None => None
  end.
Definition projectionRepository (p : WebhookProjection) : option Z :=
  match wp_PullRequest p, wp_CheckRun p with
  | Some x, _ => Some (pp_RepositoryID x) | None, Some x => Some (cp_RepositoryID x) | None, None => None end.
Definition projectionBaseSHA (p : WebhookProjection) : option string := pp_BaseSHA <$> wp_PullRequest p.
Definition projectionHeadSHA (p : WebhookProjection) : option string :=
  match wp_PullRequest p with Some x => Some (pp_HeadSHA x) | None => cp_HeadSHA <$> wp_CheckRun p end.

Definition validateDelivery (receiverID : string) (d : VerifiedDelivery) : result InboxError unit :=
  let r := vd_Receipt d in
  reject_if ((vd_ReceiverID d != receiverID) || (vd_DeliveryID d == ""%string) || (vd_Event d == ""%string)
             || negb (validateDigest (vd_BodyDigest d)) || negb (validateDigest (vd_IntakeFingerprint d))
             || (dr_SchemaVersion r != SchemaGitHubWebhookReceiptV1Alpha1) || (dr_DeliveryID r != vd_DeliveryID d)
             || (dr_Event r != vd_Event d) || (dr_BodyDigest r != vd_BodyDigest d) || (dr_ProjectionKind r != wp_Kind (vd_Projection d)))
    (errCode "record-invalid" "delivery" "delivery record rejected") ;;
  reject_if ((vd_MatchedSecret d != SecretGenerationCurrent) && (vd_MatchedSecret d != SecretGenerationPrevious))
    (errCode "record-invalid" "delivery" "secret generation rejected") ;;
  reject_if (negb (valid_utc (vd_ReceivedAt d))) (errCode "record-invalid" "delivery" "received time rejected") ;;
  reject_if ((vd_Disposition d != DeliveryDispositionEnqueued) && (vd_Disposition d != DeliveryDispositionIgnored))
    (errCode "record-invalid" "delivery" "disposition rejected").

Definition inboxKey (d : VerifiedDelivery) : string * string := (vd_ReceiverID d, vd_DeliveryID d).
Definition inboxRow (d : VerifiedDelivery) : InboxRow :=
  let p := vd_Projection d in
  mkInboxRow (vd_BodyDigest d) (vd_IntakeFingerprint d) (vd_Event d) (nullableAction (vd_Action d)) (wp_Kind p) (vd_Disposition d)
    (vd_MatchedSecret d) (formatTime (gt_instant (vd_ReceivedAt d))) (projectionInstallation p) (projectionRepository p)
    (pp_PullRequestNumber <$> wp_PullRequest p) (cp_CheckRunID <$> wp_CheckRun p) (projectionBaseSHA p) (projectionHeadSHA p)
    (vd_Receipt d) p (recordDigest d) 0 (formatTime (gt_instant (vd_ReceivedAt d))).
Definition outboxID (d : VerifiedDelivery) : string :=
  computeOutboxID (vd_ReceiverID d) (vd_DeliveryID d) (vd_IntakeFingerprint d) (wp_Kind (vd_Projection d)).
Definition outboxRow (d : VerifiedDelivery) : OutboxRow :=
  mkOutboxRow (outboxID d) (vd_ReceiverID d) (vd_DeliveryID d) (wp_Kind (vd_Projection d)) (vd_Projection d) (projectionDigest d)
    (vd_Receipt d) OutboxStatePending None 0 None 0 (formatTime (gt_instant (vd_ReceivedAt d))) None None.
Definition with_conflict (r : InboxRow) : InboxRow :=
  mkInboxRow (in_BodyDigest r) (in_IntakeFingerprint r) (in_EventName r) (in_Action r) (in_ProjectionKind r) (in_Disposition r)
    (in_MatchedSecret r) (in_ReceivedAt r) (in_InstallationID r) (in_RepositoryID r) (in_PullRequestNumber r) (in_CheckRunID r)
    (in_BaseSHA r) (in_HeadSHA r) (in_Receipt r) (in_Projection r) (in_RecordDigest r) (in_ConflictCount r + 1) (in_CreatedAt r).

(** [INSERT OR IGNORE]: whether the row was inserted; a delivery or a fingerprint
    of the receiver that is there keeps it out. *)
Definition inboxFree (d : VerifiedDelivery) (db : DB) : bool :=
  bool_decide (db_inbox db !! inboxKey d = None)
  && bool_decide (map_Forall (λ k r, ¬ (k.1 = vd_ReceiverID d ∧ in_IntakeFingerprint r = vd_IntakeFingerprint d)) (db_inbox db)).
Definition insertInbox (d : VerifiedDelivery) : InboxTx bool :=
  call (txErr "accept" "inbox insert failed") ;;
  free ← gets (inboxFree d);
  puts (set_inbox (if free : bool then <[inboxKey d := inboxRow d]> else id)) ;;
  mret free.

(** The result, and the error that goes with a conflict (which is committed). *)
Definition Accept (s : Store) (d : VerifiedDelivery) : InboxTx (AcceptResult * option InboxError) :=
  lift (validateDelivery (st_receiverID s) d) ;;
  transaction (txErr "accept" "accept transaction failed") (
    inserted ← insertInbox d;
    if inserted : bool then
      (if vd_Disposition d == DeliveryDispositionEnqueued then
         insert_if (txErr "accept" "outbox insert failed") (λ db, forallb (λ r, ob_ID r != outboxID d) (db_outbox db))
           (set_outbox (λ rows, rows ++ [outboxRow d]))
       else mret ()) ;;
      mret ((if vd_Disposition d == DeliveryDispositionEnqueued then mkAcceptResult AcceptNewEnqueued (outboxID d)
             else mkAcceptResult AcceptNewIgnored "", None), Some (txErr "accept" "accept commit failed"))
    else
      row ← query (txErr "accept" "existing inbox read failed") (λ db, db_inbox db !! inboxKey d);
      existing ← lift (match row with Some r => Ok r | None => Err (txErr "accept" "existing inbox read failed") end);
      if in_IntakeFingerprint existing == vd_IntakeFingerprint d then
        mret ((mkAcceptResult AcceptDuplicateSameDelivery "", None), Some (txErr "accept" "duplicate commit failed"))
      else
        exec_ignored (set_inbox (alter with_conflict (inboxKey d))) ;;
        mret ((mkAcceptResult AcceptDeliveryConflict "", Some (errCode "delivery-conflict" "accept" "delivery id conflict")),
              Some (txErr "accept" "conflict commit failed"))).

(** ** [lease.go] *)

Definition claimable (now : string) (r : OutboxRow) : bool :=
  (ob_State r == OutboxStatePending)
  || ((ob_State r == OutboxStateLeased) && match ob_LeaseExpiresAt r with Some e => String.leb e now | None => false end).
Definition claimCandidates (now : string) (limit : nat) (d : DB) : list (nat * OutboxRow) :=
  take limit (filter (λ '(_, r), claimable now r = true) (imap pair (db_outbox d))).

Definition leasedRecord (seq : nat) (r : OutboxRow) (owner : string) (expires : Time) : LeasedRecord :=
  mkLeasedRecord (ob_ID r) (ob_ReceiverID r) (ob_DeliveryID r) (Z.of_nat seq) (ob_ProjectionKind r) (ob_Projection r)
    (ob_ProjectionDigest r) (ob_Receipt r) owner (ob_LeaseGeneration r + 1) (ob_AttemptCount r + 1) (ob_CreatedAt r) expires.
Definition with_lease (owner : string) (generation : Z) (expires : string) (attempts : Z) (r : OutboxRow) : OutboxRow :=
  mkOutboxRow (ob_ID r) (ob_ReceiverID r) (ob_DeliveryID r) (ob_ProjectionKind r) (ob_Projection r) (ob_ProjectionDigest r)
    (ob_Receipt r) OutboxStateLeased (Some owner) generation (Some expires) attempts (ob_CreatedAt r) (ob_AcknowledgedAt r)
    (ob_LastFailureCode r).

Definition claimHit (now : string) (r w : OutboxRow) : bool :=
  (ob_ID w == ob_ID r) && (ob_LeaseGeneration w == ob_LeaseGeneration r) && claimable now w.
Definition claimRow (owner : string) (now expires : string) (r w : OutboxRow) : OutboxRow :=
  if claimHit now r w then with_lease owner (ob_LeaseGeneration r + 1) expires (ob_AttemptCount r + 1) w else w.
Definition leaseOne (owner now : string) (expires : Time) (c : nat * OutboxRow) : InboxTx (list LeasedRecord) :=
  let '(seq, r) := c in
  call (txErr "lease" "claim update failed") ;;
  affected ← gets (λ d, match db_outbox d !! seq with Some w => claimHit now r w | None => false end);
  puts (set_outbox (alter (claimRow owner now (formatTime expires) r) seq)) ;;
  mret (if affected : bool then [leasedRecord seq r owner expires] else []).
Fixpoint leaseAll (owner now : string) (expires : Time) (l : list (nat * OutboxRow)) : InboxTx (list LeasedRecord) :=
  match l with
  | [] => mret []
  | c :: l => out ← leaseOne owner now expires c; rest ← leaseAll owner now expires l; mret (out ++ rest)
  end.

Definition validateLeaseInputs (s : Store) (owner : string) (now : GoTimeValue) (duration limit : Z) : result InboxError unit :=
  reject_if ((owner == ""%string) || (l_MaxLeaseOwnerBytes (st_limits s) <? str_len owner) || hasControl owner)
    (errCode "lease-owner-invalid" "lease" "lease owner rejected") ;;
  reject_if (negb (valid_utc now)) (errCode "record-invalid" "lease" "lease time rejected") ;;
  reject_if ((duration <=? 0) || (l_MaxLeaseDurationSeconds (st_limits s) * second <? duration))
    (errCode "lease-duration-invalid" "lease" "lease duration rejected") ;;
  reject_if ((limit <=? 0) || (l_MaxClaimLimit (st_limits s) <? limit))
    (errCode "outbox-state-invalid" "lease" "claim limit rejected").

(** The first candidate with an exhausted counter fails the scan. *)
Definition scanCandidates (l : list (nat * OutboxRow)) : result InboxError unit :=
  foldR (λ _ '(_, r),
    reject_if (ob_LeaseGeneration r == MaxInt64) (errCode "lease-generation-overflow" "lease" "lease generation overflow") ;;
    reject_if (ob_AttemptCount r == MaxInt64) (errCode "attempt-count-overflow" "lease" "attempt count overflow")) () l.

Definition ClaimOutbox (s : Store) (owner : string) (now : GoTimeValue) (duration limit : Z) : InboxTx (list LeasedRecord) :=
  lift (validateLeaseInputs s owner now duration limit) ;;
  transaction (txErr "lease" "lease transaction failed") (
    cands ← query (txErr "lease" "claim query failed") (claimCandidates (formatTime (gt_instant now)) (Z.to_nat limit));
    lift (scanCandidates cands) ;;
    out ← leaseAll owner (formatTime (gt_instant now)) (gt_instant now + duration) cands;
    mret (out, Some (txErr "lease" "claim commit failed"))).

Definition acknowledged (at_ : string) (r : OutboxRow) : OutboxRow :=
  mkOutboxRow (ob_ID r) (ob_ReceiverID r) (ob_DeliveryID r) (ob_ProjectionKind r) (ob_Projection r) (ob_ProjectionDigest r)
    (ob_Receipt r) OutboxStateAcknowledged (ob_LeaseOwner r) (ob_LeaseGeneration r) (ob_LeaseExpiresAt r) (ob_AttemptCount r)
    (ob_CreatedAt r) (Some at_) (ob_LastFailureCode r).
Definition released (failureCode : string) (r : OutboxRow) : OutboxRow :=
  mkOutboxRow (ob_ID r) (ob_ReceiverID r) (ob_DeliveryID r) (ob_ProjectionKind r) (ob_Projection r) (ob_ProjectionDigest r)
    (ob_Receipt r) OutboxStatePending (ob_LeaseOwner r) (ob_LeaseGeneration r) None (ob_AttemptCount r)
    (ob_CreatedAt r) (ob_AcknowledgedAt r) (Some failureCode).
Definition updateOutbox (id : string) (f : OutboxRow → OutboxRow) : DB → DB :=
  set_outbox (fmap (λ r, if ob_ID r == id then f r else r)).

(** A record acknowledged already is acknowledged again without a write, and
    without regard to the commit. *)
Definition finishLease (id owner : string) (generation : Z) (when : GoTimeValue) (ack : bool) (failureCode : string) : InboxTx unit :=
  guard ((id == ""%string) || (owner == ""%string) || (generation == 0) || negb (valid_utc when))
    (errCode "stale-lease" "lease" "lease identity rejected") ;;
  transaction (txErr "lease" "lease finish transaction failed") (
    row ← query (txErr "lease" "lease read failed") (λ d, head (filter (λ r, ob_ID r = id) (db_outbox d)));
    r ← lift (match row with Some r => Ok r | None => Err (errCode "stale-lease" "lease" "lease record missing") end);
    guard ((default ""%string (ob_LeaseOwner r) != owner) || (ob_LeaseGeneration r != generation))
      (errCode "stale-lease" "lease" "stale lease rejected") ;;
    if ack then
      if ob_State r == OutboxStateAcknowledged then mret ((), None)
      else
        guard (ob_State r != OutboxStateLeased) (errCode "outbox-state-invalid" "lease" "ack state rejected") ;;
        exec (txErr "lease" "lease finish update failed") (updateOutbox id (acknowledged (formatTime (gt_instant when)))) ;;
        mret ((), Some (txErr "lease" "lease finish commit failed"))
    else
      guard (ob_State r != OutboxStateLeased) (errCode "outbox-state-invalid" "lease" "release state rejected") ;;
      exec (txErr "lease" "lease finish update failed") (updateOutbox id (released failureCode)) ;;
      mret ((), Some (txErr "lease" "lease finish commit failed"))).

Definition AcknowledgeOutbox (id owner : string) (generation : Z) (acknowledgedAt : GoTimeValue) : InboxTx unit :=
  finishLease id owner generation acknowledgedAt true "".
Definition ReleaseOutbox (id owner : string) (generation : Z) (releasedAt : GoTimeValue) (failureCode : string) : InboxTx unit :=
  guard ((failureCode != ""%string) && ((64 <? str_len failureCode) || hasControl failureCode))
    (errCode "outbox-state-invalid" "lease" "failure code rejected") ;;
  finishLease id owner generation releasedAt false failureCode.
