(* ===== verification/InboxSpec.v ===== *)
(** * What the inbox keeps

    A delivery that asks for work has exactly one outbox record, conflicting
    deliveries change nothing but a counter, leases are fenced and an acknowledged
    record is final. *)

From stdpp Require Import prelude gmap strings.
From Stdlib Require Import ZArith Lia Ascii.
From S2P Require Import Prelude GoStd Sha256 Framing GoTime Model Json GoText Sql GithubApp Inbox.
Local Open Scope Z_scope.

(** ** Accepting a delivery *)

Definition accepted (d : VerifiedDelivery) (db : DB) : DB :=
  let db := set_inbox (<[inboxKey d := inboxRow d]>) db in
  if vd_Disposition d == DeliveryDispositionEnqueued then set_outbox (λ rows, rows ++ [outboxRow d]) db else db.
Definition id_free (d : VerifiedDelivery) (db : DB) : Prop := ∀ r, r ∈ db_outbox db → ob_ID r <> outboxID d.

Lemma elem_of_forallb {A} (f : A → bool) l x : forallb f l = true → x ∈ l → f x = true.
Proof. intros H Hx. by apply (proj1 (forallb_forall f l) H), list_elem_of_In. Qed.

Lemma Accept_Ok s d faults n db r n' db' :
  Accept s d faults n db = Ok (r, n', db') →
  validateDelivery (st_receiverID s) d = Ok () ∧
  if inboxFree d db then
    (vd_Disposition d = DeliveryDispositionEnqueued → id_free d db) ∧ db' = accepted d db ∧
    r = (if vd_Disposition d == DeliveryDispositionEnqueued then mkAcceptResult AcceptNewEnqueued (outboxID d)
         else mkAcceptResult AcceptNewIgnored "", None)
  else ∃ row, db_inbox db !! inboxKey d = Some row ∧
    if in_IntakeFingerprint row == vd_IntakeFingerprint d
    then r = (mkAcceptResult AcceptDuplicateSameDelivery "", None) ∧ db' = db
    else r = (mkAcceptResult AcceptDeliveryConflict "", Some (errCode "delivery-conflict" "accept" "delivery id conflict"))
      ∧ (db' = db ∨ db' = set_inbox (alter with_conflict (inboxKey d)) db).
Proof.
  unfold Accept. intros H. inv_tx H. destruct a. apply transaction_Ok in H as (c & n2 & H). unfold insertInbox in H. inv_tx H.
  split; [done|]. destruct (inboxFree d db).
  - inv_tx H. unfold accepted. destruct (vd_Disposition d == DeliveryDispositionEnqueued) eqn:Ed; inv_tx Hs; unbool.
    + injection H as -> ->. split; [|done]. intros _ r0 Hr0 E. cbn in *.
      match goal with H : forallb _ _ = true |- _ => pose proof (elem_of_forallb _ _ r0 H Hr0) as Hf end. cbn in Hf. by unbool.
    + injection H as -> ->. done.
  - inv_tx H. destruct db as [inb outb]. cbn in *. destruct (inb !! inboxKey d) as [row|] eqn:Erow; [|done]. exists row. split; [done|].
    match goal with H : Ok _ = Ok _ |- _ => apply Ok_inj in H as -> end. destruct (_ == _); inv_tx H.
    + by injection H as -> ->.
    + injection H as -> ->. split; [done|]. destruct (faults (S (S (S n)))); [by left|by right].
Qed.

(** ** The invariant *)

Record Sound (db : DB) : Prop := mkSound {
  sd_ids : NoDup (ob_ID <$> db_outbox db);
  sd_keys : NoDup ((λ r, (ob_ReceiverID r, ob_DeliveryID r)) <$> db_outbox db);
  sd_inbox : ∀ r, r ∈ db_outbox db → ∃ row, db_inbox db !! (ob_ReceiverID r, ob_DeliveryID r) = Some row ∧
    in_Disposition row = DeliveryDispositionEnqueued ∧ in_Projection row = ob_Projection r
    ∧ ob_ID r = computeOutboxID (ob_ReceiverID r) (ob_DeliveryID r) (in_IntakeFingerprint row) (ob_ProjectionKind r);
  sd_outbox : ∀ k row, db_inbox db !! k = Some row → in_Disposition row = DeliveryDispositionEnqueued →
    ∃ r, r ∈ db_outbox db ∧ (ob_ReceiverID r, ob_DeliveryID r) = k
}.

(** A delivery's row keeps everything but its count of conflicts. *)
Definition inbox_after (r r' : InboxRow) : Prop :=
  in_ConflictCount r <= in_ConflictCount r' ∧ r = mkInboxRow (in_BodyDigest r') (in_IntakeFingerprint r') (in_EventName r') (in_Action r')
    (in_ProjectionKind r') (in_Disposition r') (in_MatchedSecret r') (in_ReceivedAt r') (in_InstallationID r') (in_RepositoryID r')
    (in_PullRequestNumber r') (in_CheckRunID r') (in_BaseSHA r') (in_HeadSHA r') (in_Receipt r') (in_Projection r')
    (in_RecordDigest r') (in_ConflictCount r) (in_CreatedAt r').
(** A record keeps what it asks for, and its lease generation never goes back; once
    acknowledged it never changes. *)
Definition same_record (r r' : OutboxRow) : Prop :=
  ob_ID r' = ob_ID r ∧ ob_ReceiverID r' = ob_ReceiverID r ∧ ob_DeliveryID r' = ob_DeliveryID r ∧ ob_ProjectionKind r' = ob_ProjectionKind r
  ∧ ob_Projection r' = ob_Projection r ∧ ob_ProjectionDigest r' = ob_ProjectionDigest r ∧ ob_Receipt r' = ob_Receipt r.
Definition outbox_after (r r' : OutboxRow) : Prop :=
  same_record r r' ∧ ob_LeaseGeneration r <= ob_LeaseGeneration r' ∧ (ob_State r = OutboxStateAcknowledged → r' = r).

#[global] Instance inbox_after_preorder : PreOrder inbox_after.
Proof.
  split; [by intros []; split|]. intros a b c [Hab Eab] [Hbc Ebc]. split; [lia|]. rewrite Eab. rewrite Ebc. done.
Qed.
#[global] Instance outbox_after_preorder : PreOrder outbox_after.
Proof.
  split; [done|]. intros a b c ((? & ? & ? & ? & ? & ? & ?) & ? & Hab) ((? & ? & ? & ? & ? & ? & ?) & ? & Hbc).
  split; [split_and!; congruence|]. split; [lia|]. intros Ha. specialize (Hab Ha). subst b. by apply Hbc.
Qed.

Record evolves (db db' : DB) : Prop := mkEvolves {
  ev_inbox : after inbox_after (db_inbox db) (db_inbox db');
  ev_outbox : after_list outbox_after (db_outbox db) (db_outbox db')
}.
#[global] Instance evolves_preorder : PreOrder evolves.
Proof. split; [by intros d; split|]. intros d1 d2 d3 [? ?] [? ?]. split; etrans; eassumption. Qed.

Definition sound (db db' : DB) : Prop := Sound db → Sound db' ∧ evolves db db'.
#[global] Instance sound_preorder : PreOrder sound.
Proof.
  split; [by intros d ?|]. intros d1 d2 d3 H1 H2 Hc. destruct (H1 Hc) as [Hc2 ?]. destruct (H2 Hc2) as [? ?].
  split; [done|by etrans].
Qed.

Lemma Sound_empty : Sound emptyDB.
Proof. split; [constructor|constructor|by inversion 1|]. intros k row. cbn. by rewrite lookup_empty. Qed.

Lemma accepted_sound d db : inboxFree d db = true → (vd_Disposition d = DeliveryDispositionEnqueued → id_free d db) → sound db (accepted d db).
Proof.
  intros Hfree Hid [Hids Hkeys Hin Hout]. unfold inboxFree in Hfree. unbool.
  assert (∀ r, r ∈ db_outbox db → (ob_ReceiverID r, ob_DeliveryID r) <> inboxKey d) as Hnew.
  { intros r Hr E. destruct (Hin r Hr) as (row & Hrow & _). by rewrite E, H in Hrow. }
  unfold accepted. destruct (decide (vd_Disposition d = DeliveryDispositionEnqueued)) as [Hd|Hd].
  - rewrite (bool_decide_true _ Hd). specialize (Hid Hd). split; split; cbn.
    + rewrite fmap_app. apply NoDup_app. split_and!; [done| |apply NoDup_singleton].
      intros x (r & -> & Hr)%list_elem_of_fmap. cbn. rewrite list_elem_of_singleton. by apply Hid.
    + rewrite fmap_app. apply NoDup_app. split_and!; [done| |apply NoDup_singleton].
      intros x (r & -> & Hr)%list_elem_of_fmap. cbn. rewrite list_elem_of_singleton. by apply Hnew.
    + intros r. rewrite elem_of_app, list_elem_of_singleton. intros [Hr| ->].
      * rewrite lookup_insert_ne by (intros E; by apply (Hnew r Hr)). by apply Hin.
      * exists (inboxRow d). change (ob_ReceiverID (outboxRow d), ob_DeliveryID (outboxRow d)) with (inboxKey d).
        rewrite lookup_insert_eq. done.
    + intros k row. rewrite lookup_insert_Some. intros [[<- <-]|[_ Hk]] Hdisp.
      * exists (outboxRow d). split; [apply elem_of_app; right; by left|done].
      * destruct (Hout k row Hk Hdisp) as (r & Hr & E). exists r. split; [by apply elem_of_app; left|done].
    + apply after_insert; [apply _|]. by rewrite H.
    + apply after_list_app; apply _.
  - rewrite (bool_decide_false _ Hd). split; split; try done; cbn.
    + intros r Hr. rewrite lookup_insert_ne by (intros E; by apply (Hnew r Hr)). by apply Hin.
    + intros k row. rewrite lookup_insert_Some. intros [[<- <-]|[_ Hk]] Hdisp; [done|by eapply Hout].
    + apply after_insert; [apply _|]. by rewrite H.
Qed.

Lemma conflict_sound k db : sound db (set_inbox (alter with_conflict k) db).
Proof.
  intros [Hids Hkeys Hin Hout]. split; split; try done; cbn.
  - intros r Hr. destruct (Hin r Hr) as (row & Hrow & Hrest). destruct (decide (k = (ob_ReceiverID r, ob_DeliveryID r))) as [->|Hne].
    + rewrite lookup_alter_eq, Hrow. by eexists.
    + rewrite lookup_alter_ne by done. eauto.
  - intros k0 row0. destruct (decide (k = k0)) as [->|Hne]; [rewrite lookup_alter_eq|rewrite lookup_alter_ne by done].
    + rewrite fmap_Some. intros (row & Hrow & ->) Hdisp. by apply (Hout k0 row).
    + apply Hout.
  - apply after_alter; [apply _|]. intros [] _. split; cbn; [lia|done].
Qed.

(** A change of the records that keeps what they ask for. *)
Lemma outbox_sound f db : Forall2 outbox_after (db_outbox db) (f (db_outbox db)) → sound db (set_outbox f db).
Proof.
  intros Hf [Hids Hkeys Hin Hout].
  assert (ob_ID <$> f (db_outbox db) = ob_ID <$> db_outbox db ∧
    (λ r, (ob_ReceiverID r, ob_DeliveryID r)) <$> f (db_outbox db) = (λ r, (ob_ReceiverID r, ob_DeliveryID r)) <$> db_outbox db) as [E1 E2].
  { clear -Hf. induction Hf as [|r r' l l' ((Ei & Ea & Eb & _) & _) ? [IH1 IH2]]; [done|]. rewrite !fmap_cons, IH1, IH2. cbn. by rewrite Ei, Ea, Eb. }
  split; split; cbn; rewrite ?E1, ?E2; try done.
  - intros r' (i & Hi)%list_elem_of_lookup. destruct (Forall2_lookup_r _ _ _ _ _ Hf Hi) as (r & Hr & (E3 & E4 & E5 & E6 & E7 & _) & _).
    rewrite E3, E4, E5, E6, E7. apply Hin. by eapply list_elem_of_lookup_2.
  - intros k row Hk Hdisp. destruct (Hout k row Hk Hdisp) as (r & (i & Hi)%list_elem_of_lookup & E).
    destruct (Forall2_lookup_l _ _ _ _ _ Hf Hi) as (r' & Hr' & (_ & Ea & Eb & _) & _). exists r'.
    split; [by eapply list_elem_of_lookup_2|by rewrite Ea, Eb].
  - by apply after_list_of_Forall2.
Qed.

(** ** Leases *)

Lemma claimable_not_final now r : claimable now r = true → ob_State r <> OutboxStateAcknowledged.
Proof. unfold claimable. intros H E. rewrite E in H. vm_compute in H. discriminate. Qed.

Lemma claimedRow_after owner now expires r w : outbox_after w (claimRow owner now expires r w).
Proof.
  unfold claimRow, claimHit. destruct (_ && _) eqn:E; [|reflexivity]. unbool.
  match goal with H : claimable _ _ = true |- _ => apply claimable_not_final in H end.
  split; [split_and!; done|]. split; [cbn; lia|congruence].
Qed.

Lemma leaseOne_Ok owner now expires seq r faults n d out n' d' :
  leaseOne owner now expires (seq, r) faults n d = Ok (out, n', d') →
  d' = set_outbox (alter (claimRow owner now (formatTime expires) r) seq) d
  ∧ out = (if match db_outbox d !! seq with Some w => claimHit now r w | None => false end then [leasedRecord seq r owner expires] else []).
Proof. unfold leaseOne. intros H. inv_tx H. done. Qed.

Lemma claimed_sound owner now expires r seq d : sound d (set_outbox (alter (claimRow owner now expires r) seq) d).
Proof. apply outbox_sound, Forall2_alter; [apply _|]. intros w. apply claimedRow_after. Qed.

Lemma leaseAll_sound owner now expires l faults n d out n' d' :
  leaseAll owner now expires l faults n d = Ok (out, n', d') → sound d d'.
Proof.
  revert n d out. induction l as [|[seq r] l IH]; intros n d out; cbn [leaseAll]; intros H; inv_tx H; [done|].
  apply leaseOne_Ok in Hs as [-> _]. etrans; [apply claimed_sound|by eapply IH].
Qed.

Lemma ClaimOutbox_sound s owner now duration limit faults n d out n' d' :
  ClaimOutbox s owner now duration limit faults n d = Ok (out, n', d') → sound d d'.
Proof.
  unfold ClaimOutbox. intros H. inv_tx H. apply transaction_Ok in H as (c & n2 & H). inv_tx H. by eapply leaseAll_sound.
Qed.

Lemma updateOutbox_sound id f d :
  (∀ r, r ∈ db_outbox d → ob_ID r = id → outbox_after r (f r)) → sound d (updateOutbox id f d).
Proof.
  intros Hf. apply outbox_sound, Forall2_fmap_r, Forall_Forall2_diag, Forall_forall. intros r Hr. unfold compose.
  case_bool_decide; [by apply Hf|reflexivity].
Qed.

Lemma record_unique d r r' : Sound d → r ∈ db_outbox d → r' ∈ db_outbox d → ob_ID r = ob_ID r' → r = r'.
Proof.
  intros Hs (n & Hn)%list_elem_of_lookup (n' & Hn')%list_elem_of_lookup E. assert (n = n') as ->; [|congruence].
  eapply (NoDup_lookup (ob_ID <$> db_outbox d)); [apply Hs|by rewrite list_lookup_fmap, Hn|]. by rewrite list_lookup_fmap, Hn', E.
Qed.

(** What a finished lease was: the record's, under its owner and generation. *)
Lemma finishLease_Ok id owner generation when ack code faults n d u n' d' :
  finishLease id owner generation when ack code faults n d = Ok (u, n', d') →
  ∃ r, r ∈ db_outbox d ∧ ob_ID r = id ∧ ob_LeaseOwner r = Some owner ∧ ob_LeaseGeneration r = generation ∧
  (ack = true ∧ ob_State r = OutboxStateAcknowledged ∧ d' = d
   ∨ ob_State r = OutboxStateLeased ∧ d' = updateOutbox id (if ack then acknowledged (formatTime (gt_instant when)) else released code) d).
Proof.
  unfold finishLease. intros H. inv_tx H. apply transaction_Ok in H as (c & n2 & H). inv_tx H. unbool.
  match goal with H : match head _ with _ => _ end = _ |- _ => rename H into Hh end.
  destruct (head _) as [r|] eqn:Er; [|done]. apply Ok_inj in Hh as ->. apply head_Some_elem_of, list_elem_of_filter in Er as [Hid Hin].
  match goal with H : default _ (ob_LeaseOwner ?x) = owner |- _ => assert (ob_LeaseOwner x = Some owner) as Ho by
    (destruct (ob_LeaseOwner x); cbn in *; congruence); exists x end. split_and!; try done.
  destruct ack; [destruct (_ == _) eqn:Ea|]; inv_tx H; unbool; [left|right|right]; done.
Qed.

Lemma finishLease_sound id owner generation when ack code faults n d u n' d' :
  finishLease id owner generation when ack code faults n d = Ok (u, n', d') → sound d d'.
Proof.
  intros H. apply finishLease_Ok in H as (r & Hin & Hid & _ & _ & [(_ & _ & ->)|[Hst ->]]); [done|]. intros Hs.
  assert (sound d (updateOutbox id (if ack then acknowledged (formatTime (gt_instant when)) else released code) d)) as H; [|by apply H].
  apply updateOutbox_sound. intros r0 Hr0 E. rewrite (record_unique d r0 r Hs Hr0 Hin) by congruence.
  destruct ack; (split; [split_and!; done|]); (split; [cbn; lia|]); rewrite Hst; discriminate.
Qed.

Lemma Accept_sound s d faults n db r n' db' : Accept s d faults n db = Ok (r, n', db') → sound db db'.
Proof.
  intros H. apply Accept_Ok in H as [_ H]. destruct (inboxFree d db) eqn:Hfree.
  - destruct H as (Hid & -> & _). by apply accepted_sound.
  - destruct H as (row & _ & H). destruct (_ == _); [by destruct H as [_ ->]|]. destruct H as [_ [->| ->]]; [done|apply conflict_sound].
Qed.

(** ** The inbox as a transition system *)

Inductive Op : Type :=
| OpAccept (d : VerifiedDelivery)
| OpClaim (owner : string) (now : GoTimeValue) (duration limit : Z)
| OpAcknowledge (id owner : string) (generation : Z) (when : GoTimeValue)
| OpRelease (id owner : string) (generation : Z) (when : GoTimeValue) (failureCode : string).

Definition exec_op (s : Store) (op : Op) (faults : Faults) (d : DB) : DB :=
  match op with
  | OpAccept v => (run (Accept s v) faults d).2
  | OpClaim owner now duration limit => (run (ClaimOutbox s owner now duration limit) faults d).2
  | OpAcknowledge id owner generation when => (run (AcknowledgeOutbox id owner generation when) faults d).2
  | OpRelease id owner generation when code => (run (ReleaseOutbox id owner generation when code) faults d).2
  end.
Definition step (s : Store) (d d' : DB) : Prop := ∃ op faults, exec_op s op faults d = d'.
Definition reachable (s : Store) (d : DB) : Prop := rtc (step s) emptyDB d.

Lemma inbox_run_sound {A} (m : InboxTx A) faults d : (∀ a n d', m faults 0%nat d = Ok (a, n, d') → sound d d') → sound d (run m faults d).2.
Proof. unfold run. intros H. destruct (m faults 0%nat d) as [[[a n] d']|e]; [by eapply H|reflexivity]. Qed.

Lemma ReleaseOutbox_Ok id owner generation when code faults n d u n' d' :
  ReleaseOutbox id owner generation when code faults n d = Ok (u, n', d') →
  ∃ n1, finishLease id owner generation when false code faults n1 d = Ok (u, n', d').
Proof. unfold ReleaseOutbox. intros H. inv_tx H. eauto. Qed.

Lemma inbox_step_sound s d d' : step s d d' → sound d d'.
Proof.
  intros (op & faults & <-). destruct op; cbn [exec_op]; apply inbox_run_sound; intros a n d1 H;
    [by eapply Accept_sound|by eapply ClaimOutbox_sound|by eapply finishLease_sound|].
  apply ReleaseOutbox_Ok in H as [n1 H]. by eapply finishLease_sound.
Qed.
Lemma inbox_steps_sound s d d' : rtc (step s) d d' → sound d d'.
Proof. induction 1; [done|]. etrans; [by eapply inbox_step_sound|done]. Qed.
Lemma reachable_Sound s d : reachable s d → Sound d.
Proof. intros H. by apply (inbox_steps_sound s emptyDB d H), Sound_empty. Qed.

(** *** The phases of a record *)

(** Acknowledged, pending, or leased until a time that is written down. *)
Definition phase (r : OutboxRow) : Prop :=
  ob_State r = OutboxStateAcknowledged ∨ ob_State r = OutboxStatePending
  ∨ ob_State r = OutboxStateLeased ∧ is_Some (ob_LeaseExpiresAt r).
Definition phased (d : DB) : Prop := Forall phase (db_outbox d).

Lemma fmap_phased p f d : phased d → (∀ r, phase (f r)) → phased (set_outbox (fmap (λ r, if (p r : bool) then f r else r)) d).
Proof. intros Hd Hf. unfold phased. cbn. apply Forall_fmap. eapply Forall_impl; [exact Hd|]. intros r Hr. cbn. by destruct (p r). Qed.
Lemma claimRow_phase owner now expires r w : phase w → phase (claimRow owner now expires r w).
Proof. intros Hw. unfold claimRow. destruct (claimHit _ _ _); [|done]. right; right. split; [done|by eexists]. Qed.

Lemma leaseAll_phased owner now expires l faults n d out n' d' :
  leaseAll owner now expires l faults n d = Ok (out, n', d') → phased d → phased d'.
Proof.
  revert n d out. induction l as [|[seq r] l IH]; intros n d out; cbn [leaseAll]; intros H Hd; inv_tx H; [done|].
  apply leaseOne_Ok in Hs as [-> _]. eapply IH; [eassumption|]. unfold phased in *. cbn.
  apply Forall_alter; [done|]. intros w _ Hw. by apply claimRow_phase.
Qed.

Lemma finishLease_phased id owner generation when ack code faults n d u n' d' :
  finishLease id owner generation when ack code faults n d = Ok (u, n', d') → phased d → phased d'.
Proof.
  intros H Hd. apply finishLease_Ok in H as (r & _ & _ & _ & _ & [(_ & _ & ->)|[_ ->]]); [done|].
  apply fmap_phased; [done|]. intros x. destruct ack; [by left|by right; left].
Qed.

Lemma inbox_step_phased s d d' : step s d d' → phased d → phased d'.
Proof.
  intros (op & faults & <-) Hd. destruct op as [v|owner now dur limit|id owner gen when|id owner gen when code]; cbn [exec_op]; unfold run;
    [destruct (Accept _ _ _ _ _) as [[[a n] d1]|] eqn:H|destruct (ClaimOutbox _ _ _ _ _ _ _ _) as [[[a n] d1]|] eqn:H
    |destruct (AcknowledgeOutbox _ _ _ _ _ _ _) as [[[a n] d1]|] eqn:H|destruct (ReleaseOutbox _ _ _ _ _ _ _ _) as [[[a n] d1]|] eqn:H]; try done; cbn.
  - apply Accept_Ok in H as [_ H]. destruct (inboxFree v d).
    + destruct H as (_ & -> & _). unfold accepted. destruct (_ == _); [|done]. unfold phased. cbn.
      apply Forall_app; split; [done|]. apply Forall_singleton. by right; left.
    + destruct H as (row & _ & H). destruct (_ == _); [by destruct H as [_ ->]|]. by destruct H as [_ [->| ->]].
  - unfold ClaimOutbox in H. inv_tx H. apply transaction_Ok in H as (c & n2 & H). inv_tx H. by eapply leaseAll_phased.
  - by eapply finishLease_phased.
  - apply ReleaseOutbox_Ok in H as [n1 H]. by eapply finishLease_phased.
Qed.

(** C27: in a reachable inbox every accepted delivery that asks for work has exactly
    one outbox record and no other delivery has one: records have distinct
    identities and distinct deliveries, each record belongs to an enqueued delivery
    whose projection and fingerprint it carries, and each enqueued delivery has a
    record. *)
Theorem one_record_per_delivery s d :
  reachable s d →
  NoDup (ob_ID <$> db_outbox d) ∧ NoDup ((λ r, (ob_ReceiverID r, ob_DeliveryID r)) <$> db_outbox d) ∧
  (∀ r, r ∈ db_outbox d → ∃ row, db_inbox d !! (ob_ReceiverID r, ob_DeliveryID r) = Some row ∧
     in_Disposition row = DeliveryDispositionEnqueued ∧ in_Projection row = ob_Projection r
     ∧ ob_ID r = computeOutboxID (ob_ReceiverID r) (ob_DeliveryID r) (in_IntakeFingerprint row) (ob_ProjectionKind r)) ∧
  (∀ k row, db_inbox d !! k = Some row → in_Disposition row = DeliveryDispositionEnqueued →
     ∃ r, r ∈ db_outbox d ∧ (ob_ReceiverID r, ob_DeliveryID r) = k).
Proof. intros [? ? ? ?]%reachable_Sound. done. Qed.

(** What a delivery meets when it is accepted.  A delivery
    that is not there yet is recorded with its disposition, and with one pending
    record when it asks for work; the same delivery with the same fingerprint is a
    duplicate and changes nothing; with another fingerprint it is a conflict, which
    is an error and changes nothing but the conflict count of the row that is
    there. *)
Theorem accept_exact s d faults db r db' :
  run (Accept s d) faults db = (Ok r, db') →
  match db_inbox db !! inboxKey d with
  | None =>
    db_inbox db' = <[inboxKey d := inboxRow d]> (db_inbox db) ∧
    if decide (vd_Disposition d = DeliveryDispositionEnqueued)
    then r = (mkAcceptResult AcceptNewEnqueued (outboxID d), None) ∧ db_outbox db' = db_outbox db ++ [outboxRow d]
    else r = (mkAcceptResult AcceptNewIgnored "", None) ∧ db_outbox db' = db_outbox db
  | Some row =>
    if decide (in_IntakeFingerprint row = vd_IntakeFingerprint d)
    then r = (mkAcceptResult AcceptDuplicateSameDelivery "", None) ∧ db' = db
    else r = (mkAcceptResult AcceptDeliveryConflict "", Some (errCode "delivery-conflict" "accept" "delivery id conflict"))
         ∧ db_outbox db' = db_outbox db ∧ (db_inbox db' = db_inbox db ∨ db_inbox db' = alter with_conflict (inboxKey d) (db_inbox db))
  end.
Proof.
  intros (n & H)%run_ok. apply Accept_Ok in H as [_ H]. destruct (inboxFree d db) eqn:Hfree.
  - unfold inboxFree in Hfree. unbool. match goal with H : db_inbox _ !! _ = None |- _ => rewrite H end.
    destruct H as (_ & -> & ->). unfold accepted. destruct (decide _) as [E|E];
      [rewrite (bool_decide_true _ E)|rewrite (bool_decide_false _ E)]; done.
  - destruct H as (row & Hrow & H). rewrite Hrow. destruct (decide _) as [E|E];
      [rewrite (bool_decide_true _ E) in H|rewrite (bool_decide_false _ E) in H]; [done|].
    destruct H as [-> [-> | ->]]; split_and!; try done; [by left|by right].
Qed.

(** C33: leases on the outbox are fenced, and an acknowledgement is final.  When a
    record is acknowledged or released, it is held by that owner at that lease
    generation; along any history lease generations only grow, what a record asks
    for stays, and an acknowledged record never changes again, so that it is never
    claimed again. *)
Theorem acknowledged_is_final s d d' :
  reachable s d → rtc (step s) d d' →
  evolves d d' ∧
  (∀ r owner now duration limit faults out d2, r ∈ db_outbox d → ob_State r = OutboxStateAcknowledged →
     run (ClaimOutbox s owner now duration limit) faults d' = (Ok out, d2) → r ∈ db_outbox d2) ∧
  (∀ id owner generation when ack code faults u d2,
     run (finishLease id owner generation when ack code) faults d' = (Ok u, d2) →
     ∃ r, r ∈ db_outbox d' ∧ ob_ID r = id ∧ ob_LeaseOwner r = Some owner ∧ ob_LeaseGeneration r = generation).
Proof.
  intros Hr Hsteps. destruct (inbox_steps_sound s d d' Hsteps (reachable_Sound s d Hr)) as [Hs' Hev]. split; [done|]. split.
  - intros r owner now duration limit faults out d2 (i & Hi)%list_elem_of_lookup Hack (n & H)%run_ok.
    apply ClaimOutbox_sound in H. destruct (H Hs') as [_ Hev2]. destruct (ev_outbox _ _ Hev i r Hi) as (r' & Hr' & _ & _ & E).
    specialize (E Hack). subst r'. destruct (ev_outbox _ _ Hev2 i r Hr') as (r' & Hr2 & _ & _ & E). specialize (E Hack). subst r'.
    by eapply list_elem_of_lookup_2.
  - intros id owner generation when ack code faults u d2 (n & H)%run_ok. apply finishLease_Ok in H as (r & ? & ? & ? & ? & _). by exists r.
Qed.
