(* ===== verification/Controller.v ===== *)
(** * The controller ([internal/githubcontroller])

    It claims a record of the receiver's outbox, decides it against the controller's
    store, reading the pull request from GitHub where it needs to, and acknowledges
    or releases the record.  Each call of a store is a transaction of its own, so
    the world keeps what a store committed even when the controller fails later.
    The clock, the credential broker, the pull request reader and the failures of
    the databases are the environment. *)

From stdpp Require Import prelude gmap strings.
From Stdlib Require Import ZArith Lia Ascii.
From S2P Require Import Prelude GoStd Sha256 Framing GoTime Model Json GoText Sql GithubApp Inbox ControllerStore.
Local Open Scope Z_scope.

(** ** [errors.go]; an error of the store is passed on as it is *)

Inductive ControllerError :=
| CtlError (code stage msg : string)
| CtlStoreError (e : StoreError).
Definition Diagnostic (e : ControllerError) : string := match e with CtlError code _ _ => code | CtlStoreError _ => "controller-failed" end.

(** ** [controller.go] *)

Record TokenRequest := mkTokenRequest { tr_InstallationID : Z; tr_RepositoryID : Z }.
Record RepositoryRoute := mkRepositoryRoute { rt_Owner : string; rt_Repo : string; rt_RepositoryID : Z }.

(** What happens outside, by the number of the event: a broker's token request, a
    read of a pull request, the clock, the failures of a store's operation. *)
Record Environment := mkEnvironment {
  env_token : nat → TokenRequest → bool;
  env_pr : nat → RepositoryRoute → Z → option PullRequestSnapshot;
  env_clock : nat → Time;
  env_faults : nat → Faults
}.
Record World := mkWorld { w_inbox : Inbox.DB; w_store : ControllerStore.DB; w_events : nat }.

Record Limits := mkLimits { l_InboxLeaseDuration : Z }.
Definition DefaultLimits : Limits := mkLimits (30 * second).
Record Controller := mkController { c_id : string; c_limits : Limits; c_appID : Z }.

Section controller.
Context (env : Environment) (inbox : Inbox.Store) (st : ControllerStore.Store) (c : Controller).

(** A step of the controller: it may fail, and the world stays as it made it. *)
Definition Ctl (A : Type) : Type := World → result ControllerError A * World.
#[local] Instance ctl_ret : MRet Ctl := λ A a w, (Ok a, w).
#[local] Instance ctl_bind : MBind Ctl := λ A B k m w,
  match m w with (Ok a, w') => k a w' | (Err e, w') => (Err e, w') end.

Definition throw {A} (e : ControllerError) : Ctl A := λ w, (Err e, w).
(** The outcome of an operation, for the caller to look at. *)
Definition on_store {A} (m : StoreTx A) : Ctl (result StoreError A) := λ w,
  let '(r, d) := run m (env_faults env (w_events w)) (w_store w) in (Ok r, mkWorld (w_inbox w) d (S (w_events w))).
Definition on_inbox {A} (m : InboxTx A) : Ctl (result InboxError A) := λ w,
  let '(r, d) := run m (env_faults env (w_events w)) (w_inbox w) in (Ok r, mkWorld d (w_store w) (S (w_events w))).
(** [c.clock.Now().UTC().Round(0)] *)
Definition now : Ctl GoTimeValue := λ w,
  (Ok (mkGoTimeValue (env_clock env (w_events w)) 0 true false), mkWorld (w_inbox w) (w_store w) (S (w_events w))).
Definition RequestToken (r : TokenRequest) : Ctl bool := λ w,
  (Ok (env_token env (w_events w) r), mkWorld (w_inbox w) (w_store w) (S (w_events w))).
Definition GetPullRequest (r : RepositoryRoute) (number : Z) : Ctl (option PullRequestSnapshot) := λ w,
  (Ok (env_pr env (w_events w) r number), mkWorld (w_inbox w) (w_store w) (S (w_events w))).
(** [return c.store.Op(...)] *)
Definition return_store {A} (m : StoreTx A) : Ctl A :=
  r ← on_store m; match r with Ok a => mret a | Err e => throw (CtlStoreError e) end.

Definition processedOf (rec : LeasedRecord) (at_ : GoTimeValue) : ProcessedDelivery :=
  mkProcessedDelivery (lr_ReceiverID rec) (lr_ID rec) (lr_DeliveryID rec) (lr_ProjectionKind rec) (lr_ProjectionDigest rec) at_.

Definition recordDecision (rec : LeasedRecord) (decision : ProcessingDecision) : Ctl ReconcileResult :=
  t1 ← now; t2 ← now; return_store (RecordProcessingDecision st (processedOf rec t1) decision t2).

Definition processInstallation (rec : LeasedRecord) : Ctl ReconcileResult :=
  match wp_Installation (lr_Projection rec) with
  | None => throw (CtlError "invalid-projection" "projection" "installation projection missing")
  | Some p => t1 ← now; t2 ← now; return_store (ApplyInstallationHint st (mkInstallationHintInput (processedOf rec t1) p t2))
  end.

(** Acquire the lease of a pull request and read it. *)
Definition leaseAndRead (key : PRKey) (at_ : GoTimeValue) (installation repository : Z) (owner name : string) :
    Ctl (ReconcileLease * PullRequestSnapshot) :=
  r ← on_store (AcquireReconcileLease st key (c_id c) at_ (l_InboxLeaseDuration (c_limits c)));
  match r with
  | Err _ => throw (CtlError "reconcile-lease-busy" "lease" "reconcile lease unavailable")
  | Ok lease =>
    token ← RequestToken (mkTokenRequest installation repository);
    if token : bool then
      snap ← GetPullRequest (mkRepositoryRoute owner name repository) (k_PullRequestNumber key);
      match snap with
      | Some snap => mret (lease, snap)
      | None => throw (CtlError "pull-request-read-failed" "api" "pull request read failed")
      end
    else throw (CtlError "token-request-failed" "broker" "pull-request-read token failed")
  end.

Definition processPullRequest (rec : LeasedRecord) : Ctl ReconcileResult :=
  match wp_PullRequest (lr_Projection rec) with
  | None => throw (CtlError "invalid-projection" "projection" "pull request projection missing")
  | Some p =>
    if (pp_BaseRepositoryOwner p == ""%string) || (pp_BaseRepositoryName p == ""%string)
    then recordDecision rec DecisionLegacyProjectionUnreconcilable
    else
      let key := mkPRKey (pp_InstallationID p) (pp_RepositoryID p) (pp_PullRequestNumber p) in
      t ← now;
      '(lease, snap) ← leaseAndRead key t (pp_InstallationID p) (pp_RepositoryID p) (pp_BaseRepositoryOwner p) (pp_BaseRepositoryName p);
      t1 ← now; t2 ← now;
      return_store (ApplyPullRequestSnapshot st (mkPullRequestReconcileInput (processedOf rec t1) lease snap t2))
  end.

Definition rerequestSnapshotTarget (s : PullRequestSnapshot) (key : PRKey) : option string :=
  if (ps_Number s != k_PullRequestNumber key) || (ep_RepositoryID (ps_Base s) != k_BaseRepositoryID key)
     || (ps_State s != PullRequestStateOpen) || ps_Draft s || negb (ep_Available (ps_Head s)) || (ep_RepositoryID (ps_Head s) <=? 0)
     || (ep_CommitID (ps_Base s) == ""%string) || (ep_CommitID (ps_Head s) == ""%string)
  then None
  else match targetID (snapshotTarget key s) with Ok id => Some id | Err _ => None end.

Definition processRerequest (rec : LeasedRecord) : Ctl ReconcileResult :=
  match wp_CheckRun (lr_Projection rec) with
  | None => throw (CtlError "invalid-projection" "projection" "check_run projection missing")
  | Some p =>
    b ← on_store (LookupCheckBinding (c_appID c) (cp_RepositoryID p) (cp_CheckRunID p));
    match b with
    | Err _ => recordDecision rec DecisionRerequestIgnored
    | Ok b =>
      let key := mkPRKey (cb_InstallationID b) (cb_RepositoryID b) (cb_PullRequestNumber b) in
      cur ← on_store (GetCurrentPRState key);
      match cur with
      | Err _ => recordDecision rec DecisionRerequestIgnored
      | Ok cur =>
        if (cs_BaseOwner cur == ""%string) || (cs_BaseName cur == ""%string) then recordDecision rec DecisionRerequestIgnored
        else
          t ← now;
          '(lease, snap) ← leaseAndRead key t (cb_InstallationID b) (cb_RepositoryID b) (cs_BaseOwner cur) (cs_BaseName cur);
          let target := rerequestSnapshotTarget snap key in
          return_store (ApplyCheckRunRerequest st (mkRerequestInput (processedOf rec t) lease p
            (if target is Some _ then true else false) (default ""%string target) t (c_appID c)))
      end
    end
  end.

Definition ProcessRecord (rec : LeasedRecord) : Ctl ReconcileResult :=
  let kind := lr_ProjectionKind rec in
  if kind == ProjectionPullRequest then processPullRequest rec
  else if kind == ProjectionCheckRun then processRerequest rec
  else if (kind == ProjectionInstallation) || (kind == ProjectionInstallationRepositories) then processInstallation rec
  else recordDecision rec DecisionLegacyProjectionUnreconcilable.

(** Whether a record was processed, its result, and the error that goes with them. *)
Definition NextResult : Type := bool * option ReconcileResult * option ControllerError.

Definition ProcessNext : Ctl NextResult := λ w,
  let m : Ctl (option LeasedRecord) :=
    t ← now;
    r ← on_inbox (ClaimOutbox inbox (c_id c) t (l_InboxLeaseDuration (c_limits c)) 1);
    match r with
    | Err _ => throw (CtlError "inbox-claim-failed" "inbox" "inbox claim failed")
    | Ok recs => mret (head recs)
    end in
  match m w with
  | (Err e, w1) => (Ok (false, None, Some e), w1)
  | (Ok None, w1) => (Ok (false, None, None), w1)
  | (Ok (Some rec), w1) =>
    match ProcessRecord rec w1 with
    | (Err e, w2) =>
      (t ← now; _ ← on_inbox (ReleaseOutbox (lr_ID rec) (c_id c) (lr_LeaseGeneration rec) t (Diagnostic e)); mret (true, None, Some e)) w2
    | (Ok res, w2) =>
      (t ← now; r ← on_inbox (AcknowledgeOutbox (lr_ID rec) (c_id c) (lr_LeaseGeneration rec) t);
       mret (true, Some res, match r with Ok _ => None | Err _ => Some (CtlError "inbox-ack-failed" "inbox" "inbox ack failed") end)) w2
    end
  end.
End controller.
