(* ===== verification/ControllerSpec.v ===== *)
(** * What the controller acknowledges, it decided

    The receiver's inbox, the controller's store and any number of controllers:
    a record is only acknowledged after a decision of its delivery is committed.  That
    decision may be to ignore it, which a failed read of the database also leads to. *)

From stdpp Require Import prelude gmap strings.
From Stdlib Require Import ZArith Lia Ascii.
From S2P Require Import Prelude GoStd Sha256 Framing GoTime Model Json GoText Sql GithubApp Inbox InboxSpec ControllerStore ControllerSource ControllerStoreSpec ControllerInv ControllerSteps ControllerLaws Controller.
Local Open Scope Z_scope.

#[local] Existing Instance ctl_ret.
#[local] Existing Instance ctl_bind.

(** ** The records that a claim hands out *)

Lemma leaseAll_from owner now expires l faults n d out n' d' rec :
  leaseAll owner now expires l faults n d = Ok (out, n', d') → rec ∈ out → ∃ seq r, (seq, r) ∈ l ∧ rec = leasedRecord seq r owner expires.
Proof.
  revert n d out. induction l as [|[seq r] l IH]; intros n d out; cbn [leaseAll]; intros H Hrec; inv_tx H.
  { by apply not_elem_of_nil in Hrec. }
  apply leaseOne_Ok in Hs as [_ ->]. apply elem_of_app in Hrec as [Hrec|Hrec].
  - exists seq, r. split; [by left|]. destruct (match _ with Some _ => _ | None => _ end); [|by apply not_elem_of_nil in Hrec].
    by apply list_elem_of_singleton in Hrec.
  - destruct (IH _ _ _ Hs0 Hrec) as (s0 & r0 & ? & ?). exists s0, r0. split; [by right|done].
Qed.

(** The row of the outbox that a record was claimed from. *)
Definition row_of (rec : LeasedRecord) (d : Inbox.DB) (r : OutboxRow) : Prop :=
  r ∈ db_outbox d ∧ ob_ID r = lr_ID rec ∧ ob_ReceiverID r = lr_ReceiverID rec ∧ ob_ProjectionDigest r = lr_ProjectionDigest rec.

Lemma ClaimOutbox_from s owner now duration limit faults n d out n' d' rec :
  Inbox.ClaimOutbox s owner now duration limit faults n d = Ok (out, n', d') → rec ∈ out → ∃ r, row_of rec d r.
Proof.
  unfold ClaimOutbox. intros H Hrec. inv_tx H. apply transaction_Ok in H as (c & n2 & H). inv_tx H. injection H as -> ->.
  match goal with H : leaseAll _ _ _ _ _ _ _ = Ok _ |- _ => eapply leaseAll_from in H as (seq & r & Hin & ->); [|exact Hrec] end.
  exists r. split; [|done]. unfold claimCandidates in Hin. eapply elem_of_sublist in Hin; [|apply sublist_take].
  apply list_elem_of_filter in Hin as [_ (j & y & [= -> ->] & Hj)%elem_of_lookup_imap]. by eapply list_elem_of_lookup_2.
Qed.

Lemma row_of_evolves rec d d' r : InboxSpec.evolves d d' → row_of rec d r → ∃ r', row_of rec d' r'.
Proof.
  intros Hev ((i & Hi)%list_elem_of_lookup & E1 & E2 & E3). destruct (InboxSpec.ev_outbox _ _ Hev i r Hi) as (r' & Hr' & (F1 & F2 & _ & _ & _ & F3 & _) & _).
  exists r'. split; [by eapply list_elem_of_lookup_2|]. split_and!; congruence.
Qed.

(** ** Deciding a record *)

(** The store holds a decision on a delivery with this projection. *)
Definition decided_in (d : ControllerStore.DB) (receiver id digest : string) : Prop :=
  ∃ row, db_processed d !! (receiver, id) = Some row ∧ pw_ProjectionDigest row = digest.

Section controller.
Context (env : Environment) (inbox : Inbox.Store) (st : ControllerStore.Store) (c : Controller).

(** A part of the controller that leaves the inbox alone and works on the store
    through its operations; and one that, when it succeeds, decided [rec]. *)
Definition inside {A} (m : Ctl A) : Prop := ∀ w r w',
  m w = (r, w') → w_inbox w' = w_inbox w ∧ rtc (ControllerSteps.step st) (w_store w) (w_store w').
Definition deciding (rec : LeasedRecord) (m : Ctl ReconcileResult) : Prop :=
  inside m ∧ ∀ w res w', m w = (Ok res, w') → decided_in (w_store w') (lr_ReceiverID rec) (lr_ID rec) (lr_ProjectionDigest rec).

Lemma inside_ret {A} (a : A) : inside (mret a).
Proof. by intros w r w' [= <- <-]. Qed.
Lemma inside_throw {A} e : inside (@throw A e).
Proof. by intros w r w' [= <- <-]. Qed.
Lemma inside_bind {A B} (m : Ctl A) (k : A → Ctl B) : inside m → (∀ a, inside (k a)) → inside (m ≫= k).
Proof.
  intros Hm Hk w r w'. unfold mbind, ctl_bind. destruct (m w) as [[a|e] w1] eqn:E; destruct (Hm _ _ _ E) as [Ei Es].
  - intros H. destruct (Hk a _ _ _ H) as [Ei2 Es2]. split; [congruence|by etrans].
  - by intros [= <- <-].
Qed.
Lemma inside_now : inside (now env).
Proof. by intros w r w' [= <- <-]. Qed.
Lemma inside_token t : inside (RequestToken env t).
Proof. by intros w r w' [= <- <-]. Qed.
Lemma inside_pr rt n : inside (GetPullRequest env rt n).
Proof. by intros w r w' [= <- <-]. Qed.
(** An operation of the store, as a step or reading only. *)
Lemma inside_store {A} (m : StoreTx A) :
  (∀ faults d, rtc (ControllerSteps.step st) d (run m faults d).2) → inside (on_store env m).
Proof.
  intros Hm w r w'. unfold on_store. specialize (Hm (env_faults env (w_events w)) (w_store w)). destruct (run m _ _) as [x d].
  by intros [= <- <-].
Qed.
Lemma reads {A} (m : StoreTx A) : (∀ faults n d a n' d', m faults n d = Ok (a, n', d') → d' = d) →
  ∀ faults d, rtc (ControllerSteps.step st) d (run m faults d).2.
Proof.
  intros Hm faults d. unfold run. destruct (m faults 0%nat d) as [[[a n] d1]|] eqn:E; [|constructor]. by rewrite (Hm _ _ _ _ _ _ E).
Qed.

Lemma deciding_throw rec e : deciding rec (throw e).
Proof. split; [apply inside_throw|by intros]. Qed.
Lemma deciding_bind {A} rec (m : Ctl A) (k : A → Ctl ReconcileResult) : inside m → (∀ a, deciding rec (k a)) → deciding rec (m ≫= k).
Proof.
  intros Hm Hk. split; [apply inside_bind; [done|apply Hk]|]. intros w res w'. unfold mbind, ctl_bind.
  destruct (m w) as [[a|e] w1] eqn:E; [|done]. apply Hk.
Qed.

Lemma deciding_return rec t (m : StoreTx ReconcileResult) :
  (∀ faults d, rtc (ControllerSteps.step st) d (run m faults d).2) →
  (∀ faults d r d', run m faults d = (Ok r, d') → processes st (processedOf rec t) d r d') → deciding rec (return_store env m).
Proof.
  intros Hstep Hp. split; [apply inside_bind; [by apply inside_store|]; intros [a|e]; [apply inside_ret|apply inside_throw]|].
  intros w res w'. unfold return_store, mbind, ctl_bind, on_store. destruct (run m _ _) as [[r|e] d] eqn:E; [|done].
  intros [= <- <-]. cbn. apply Hp, processes_cases in E. change (delivery (processedOf rec t)) with (lr_ReceiverID rec, lr_ID rec) in E.
  destruct (db_processed (w_store w) !! _) as [row|] eqn:Erow.
  - destruct E as (Edig & _ & _ & Epr & _). exists row. by rewrite Epr.
  - destruct E as (row & Hrow & Edig & _). by exists row.
Qed.
End controller.

Create HintDb ctl.
#[export] Hint Resolve inside_ret inside_throw inside_now inside_token inside_pr : ctl.

Section decisions.
Context (env : Environment) (inbox : Inbox.Store) (st : ControllerStore.Store) (c : Controller).

Lemma one_step {A} (m : StoreTx A) op :
  (∀ faults d, ControllerSteps.exec_op st op faults d = (run m faults d).2) →
  ∀ faults d, rtc (ControllerSteps.step st) d (run m faults d).2.
Proof. intros H faults d. apply rtc_once. exists op, faults. apply H. Qed.

Lemma recordDecision_deciding rec decision : deciding st rec (recordDecision env st rec decision).
Proof.
  unfold recordDecision. apply deciding_bind; [eauto with ctl|]. intros t1. apply deciding_bind; [eauto with ctl|]. intros t2.
  apply (deciding_return _ _ _ t1); [by apply (one_step _ (OpRecordDecision (processedOf rec t1) decision t2))|].
  intros faults d r d' H. by eapply processes_decision.
Qed.

Lemma processInstallation_deciding rec : deciding st rec (processInstallation env st rec).
Proof.
  unfold processInstallation. destruct (wp_Installation _) as [p|]; [|apply deciding_throw].
  apply deciding_bind; [eauto with ctl|]. intros t1. apply deciding_bind; [eauto with ctl|]. intros t2.
  set (i := mkInstallationHintInput (processedOf rec t1) p t2).
  apply (deciding_return _ _ _ t1); [by apply (one_step _ (OpInstallationHint i))|].
  intros faults d r d' H. by apply (processes_installation st i faults).
Qed.

Lemma leaseAndRead_inside key at_ installation repository owner name :
  inside st (leaseAndRead env st c key at_ installation repository owner name).
Proof.
  unfold leaseAndRead. apply inside_bind; [apply inside_store, (one_step _ (OpAcquireLease key (c_id c) at_ (l_InboxLeaseDuration (c_limits c)))); done|].
  intros [lease|e]; [|eauto with ctl]. apply inside_bind; [eauto with ctl|]. intros [|]; [|eauto with ctl].
  apply inside_bind; [eauto with ctl|]. intros [snap|]; eauto with ctl.
Qed.

Lemma processPullRequest_deciding rec : deciding st rec (processPullRequest env st c rec).
Proof.
  unfold processPullRequest. destruct (wp_PullRequest _) as [p|]; [|apply deciding_throw].
  destruct (_ || _); [apply recordDecision_deciding|]. apply deciding_bind; [eauto with ctl|]. intros t.
  apply deciding_bind; [apply leaseAndRead_inside|]. intros [lease snap].
  apply deciding_bind; [eauto with ctl|]. intros t1. apply deciding_bind; [eauto with ctl|]. intros t2.
  set (i := mkPullRequestReconcileInput (processedOf rec t1) lease snap t2).
  apply (deciding_return _ _ _ t1); [by apply (one_step _ (OpApplySnapshot i))|].
  intros faults d r d' H. by apply (processes_snapshot st i faults).
Qed.

Lemma LookupCheckBinding_reads a b k faults n d x n' d' : LookupCheckBinding a b k faults n d = Ok (x, n', d') → d' = d.
Proof. unfold LookupCheckBinding. intros H. by inv_tx H. Qed.
Lemma GetCurrentPRState_reads k faults n d x n' d' : GetCurrentPRState k faults n d = Ok (x, n', d') → d' = d.
Proof. unfold GetCurrentPRState, readCurrent. intros H. apply transaction_Ok in H as (c0 & n2 & H). by inv_tx H. Qed.

Lemma processRerequest_deciding rec : deciding st rec (processRerequest env st c rec).
Proof.
  unfold processRerequest. destruct (wp_CheckRun _) as [p|]; [|apply deciding_throw].
  apply deciding_bind; [apply inside_store, reads; intros *; apply LookupCheckBinding_reads|].
  intros [b|e]; [|apply recordDecision_deciding].
  apply deciding_bind; [apply inside_store, reads; intros *; apply GetCurrentPRState_reads|].
  intros [cur|e]; [|apply recordDecision_deciding]. destruct (_ || _); [apply recordDecision_deciding|].
  apply deciding_bind; [eauto with ctl|]. intros t. apply deciding_bind; [apply leaseAndRead_inside|]. intros [lease snap].
  set (i := mkRerequestInput (processedOf rec t) _ _ _ _ _ _).
  apply (deciding_return _ _ _ t); [by apply (one_step _ (OpRerequest i))|].
  intros faults d r d' H. by apply (processes_rerequest st i faults).
Qed.

Lemma ProcessRecord_deciding rec : deciding st rec (ProcessRecord env st c rec).
Proof.
  unfold ProcessRecord. destruct (_ == _); [apply processPullRequest_deciding|]. destruct (_ == _); [apply processRerequest_deciding|].
  destruct (_ || _); [apply processInstallation_deciding|apply recordDecision_deciding].
Qed.
End decisions.

(** ** The world: a receiver, controllers and importers at work *)

Section world.
Context (inbox : Inbox.Store) (st : ControllerStore.Store).

(** What happens: the receiver accepts, somebody claims or releases, the store is
    used, or a controller, in some environment, processes its next record. *)
Inductive wstep : World → World → Prop :=
| wstep_inbox op faults w :
    (∀ id owner gen when, op <> InboxSpec.OpAcknowledge id owner gen when) →
    wstep w (mkWorld (InboxSpec.exec_op inbox op faults (w_inbox w)) (w_store w) (w_events w))
| wstep_store d w : ControllerSteps.step st (w_store w) d → wstep w (mkWorld (w_inbox w) d (w_events w))
| wstep_next env c r w w' : ProcessNext env inbox st c w = (Ok r, w') → wstep w w'.

Definition init : World := mkWorld Inbox.emptyDB ControllerStore.emptyDB 0.

Record world_ok (w : World) : Prop := mkWorldOk {
  wo_inbox : Sound (w_inbox w);
  wo_store : Consistent (w_store w);
  wo_acked : ∀ r, r ∈ db_outbox (w_inbox w) → ob_State r = OutboxStateAcknowledged →
    decided_in (w_store w) (ob_ReceiverID r) (ob_ID r) (ob_ProjectionDigest r)
}.

Lemma decided_in_mono d d' a b c : db_processed d ⊆ db_processed d' → decided_in d a b c → decided_in d' a b c.
Proof. intros Hsub (row & Hrow & ?). exists row. split; [by eapply lookup_weaken|done]. Qed.

(** The store moved by its operations; the inbox by one that acknowledges nothing. *)
Lemma store_world_ok w d n : rtc (ControllerSteps.step st) (w_store w) d → world_ok w → world_ok (mkWorld (w_inbox w) d n).
Proof.
  intros Hsteps [Hi Hs Ha]. destruct (ControllerSteps.steps_sound st _ _ Hsteps Hs) as [Hs' Hev]. split; [done..|].
  intros r Hr Hack. eapply decided_in_mono; [apply (ControllerInv.ev_processed _ _ Hev)|by apply Ha].
Qed.

(** Records that a change of the inbox did not acknowledge. *)
Definition acks_nothing (d d' : Inbox.DB) : Prop :=
  ∀ r', r' ∈ db_outbox d' → ob_State r' = OutboxStateAcknowledged → r' ∈ db_outbox d.

Lemma inbox_world_ok w d n :
  InboxSpec.sound (w_inbox w) d → acks_nothing (w_inbox w) d → world_ok w → world_ok (mkWorld d (w_store w) n).
Proof. intros Hs Hn [Hi Hst Ha]. destruct (Hs Hi) as [Hi' _]. split; [done..|]. intros r Hr Hack. by apply Ha, Hack; apply Hn. Qed.

Definition unacked (r r' : OutboxRow) : Prop := r' = r ∨ ob_State r' <> OutboxStateAcknowledged.
#[local] Instance unacked_refl : Reflexive unacked.
Proof. by left. Qed.

Lemma set_outbox_acks_nothing f d :
  Forall2 unacked (db_outbox d) (f (db_outbox d)) → acks_nothing d (set_outbox f d).
Proof.
  intros Hf r' (i & Hi)%list_elem_of_lookup Hack. destruct (Forall2_lookup_r _ _ _ _ _ Hf Hi) as (r & Hr & [->|?]); [|done].
  by eapply list_elem_of_lookup_2.
Qed.

#[local] Instance acks_nothing_trans : Transitive acks_nothing.
Proof. intros a b c Hab Hbc r Hr Hack. apply Hab; [by apply Hbc|done]. Qed.

Lemma leaseAll_acks_nothing owner now expires l faults n d out n' d' :
  leaseAll owner now expires l faults n d = Ok (out, n', d') → acks_nothing d d'.
Proof.
  revert n d out. induction l as [|[seq r] l IH]; intros n d out; cbn [leaseAll]; intros H; inv_tx H; [by intros r|].
  apply leaseOne_Ok in Hs as [-> _]. etrans; [|by eapply IH]. apply set_outbox_acks_nothing.
  apply Forall2_alter; [apply _|]. intros w. unfold Inbox.claimRow. destruct (Inbox.claimHit _ _ _); [by right|by left].
Qed.

Lemma ClaimOutbox_acks_nothing s owner now duration limit faults n d out n' d' :
  Inbox.ClaimOutbox s owner now duration limit faults n d = Ok (out, n', d') → acks_nothing d d'.
Proof.
  unfold ClaimOutbox. intros H. inv_tx H. apply transaction_Ok in H as (c & n2 & H). inv_tx H. by eapply leaseAll_acks_nothing.
Qed.

Lemma ReleaseOutbox_acks_nothing id owner gen when code faults n d u n' d' :
  Inbox.ReleaseOutbox id owner gen when code faults n d = Ok (u, n', d') → acks_nothing d d'.
Proof.
  intros H. apply ReleaseOutbox_Ok in H as [n1 H]. apply finishLease_Ok in H as (r & _ & _ & _ & _ & [(? & _)|[_ ->]]); [done|].
  apply set_outbox_acks_nothing, Forall2_fmap_self. intros x. destruct (_ == _); [by right|by left].
Qed.

Lemma Accept_acks_nothing s v faults n d r n' d' : Inbox.Accept s v faults n d = Ok (r, n', d') → acks_nothing d d'.
Proof.
  intros H. apply Accept_Ok in H as [_ H]. destruct (inboxFree v d).
  - destruct H as (_ & -> & _). unfold accepted. destruct (_ == _); [|by intros x]. intros x. cbn.
    rewrite elem_of_app, list_elem_of_singleton. by intros [?| ->].
  - destruct H as (row & _ & H). destruct (_ == _); [destruct H as [_ ->]; by intros x|]. destruct H as [_ [->| ->]]; by intros x.
Qed.

Lemma exec_acks_nothing op faults d :
  (∀ id owner gen when, op <> InboxSpec.OpAcknowledge id owner gen when) → acks_nothing d (InboxSpec.exec_op inbox op faults d).
Proof.
  intros Hop. destruct op as [v|owner now dur limit|id owner gen when|id owner gen when code]; cbn [InboxSpec.exec_op]; unfold run;
    [destruct (Inbox.Accept _ _ _ _ _) as [[[a n] d1]|] eqn:E|destruct (Inbox.ClaimOutbox _ _ _ _ _ _ _ _) as [[[a n] d1]|] eqn:E
    |exfalso; by eapply Hop|destruct (Inbox.ReleaseOutbox _ _ _ _ _ _ _ _) as [[[a n] d1]|] eqn:E]; try by intros r.
  - by eapply Accept_acks_nothing.
  - by eapply ClaimOutbox_acks_nothing.
  - by eapply ReleaseOutbox_acks_nothing.
Qed.

(** An acknowledgement of a record that was decided. *)
Lemma ack_world_ok w rec owner gen when faults n :
  world_ok w → (∃ r, row_of rec (w_inbox w) r) → decided_in (w_store w) (lr_ReceiverID rec) (lr_ID rec) (lr_ProjectionDigest rec) →
  world_ok (mkWorld (run (AcknowledgeOutbox (lr_ID rec) owner gen when) faults (w_inbox w)).2 (w_store w) n).
Proof.
  intros Hw (r & Hin & Eid & Erecv & Edig) Hdec. pose proof Hw as [Hi Hs Ha]. unfold run.
  destruct (AcknowledgeOutbox _ _ _ _ _ _ _) as [[[a m] d1]|] eqn:E; [|cbn; split; assumption].
  unfold AcknowledgeOutbox in E. destruct (finishLease_sound _ _ _ _ _ _ _ _ _ _ _ _ E Hi) as [Hi' _]. cbn. split; [exact Hi'|exact Hs|].
  apply finishLease_Ok in E as (r0 & Hr0 & E0 & _ & _ & [(_ & _ & ->)|[_ ->]]); [done|].
  intros x. cbn. rewrite list_elem_of_fmap. intros (y & -> & Hy). case_bool_decide as Ey; [|by apply Ha].
  intros _. cbn. rewrite (record_unique (w_inbox w) y r Hi Hy Hin) by congruence. by rewrite Erecv, Eid, Edig.
Qed.

Lemma next_world_ok env c r w w' : ProcessNext env inbox st c w = (Ok r, w') → world_ok w → world_ok w'.
Proof.
  unfold ProcessNext, mbind, ctl_bind, now, on_inbox. cbn. set (t := mkGoTimeValue _ _ _ _). intros H Hw.
  destruct (run (ClaimOutbox _ _ _ _ _) _ _) as [[recs|e] d1] eqn:Ec.
  2: { injection H as _ <-. unfold run in Ec. destruct (ClaimOutbox _ _ _ _ _ _ _ _) as [[[? ?] ?]|]; [done|]. injection Ec as _ <-.
       destruct Hw. split; assumption. }
  apply run_ok in Ec as [n Ec]. pose proof Hw as [Hi _ _].
  pose proof (inbox_world_ok w d1 (S (S (w_events w))) (ClaimOutbox_sound _ _ _ _ _ _ _ _ _ _ _ Ec) (ClaimOutbox_acks_nothing _ _ _ _ _ _ _ _ _ _ _ Ec) Hw) as Hw1.
  set (w1 := mkWorld d1 (w_store w) _) in *. destruct (head recs) as [rec|] eqn:Eh; cbn in H; [|by injection H as _ <-].
  assert (∃ row, row_of rec d1 row) as Hrow.
  { apply head_Some_elem_of in Eh. destruct (ClaimOutbox_from _ _ _ _ _ _ _ _ _ _ _ _ Ec Eh) as (r0 & Hr0).
    eapply row_of_evolves; [|exact Hr0]. by apply (ClaimOutbox_sound _ _ _ _ _ _ _ _ _ _ _ Ec). }
  destruct (ProcessRecord_deciding env st c rec) as [Hinside Hdec]. destruct (ProcessRecord env st c rec w1) as [[res|e] w2] eqn:Ep.
  - destruct (Hinside _ _ _ Ep) as [Ei Es]. specialize (Hdec _ _ _ Ep).
    assert (world_ok w2) as Hw2 by (pose proof (store_world_ok w1 (w_store w2) (w_events w2) Es Hw1) as X; destruct w2; cbn in *; by subst).
    pose proof (ack_world_ok w2 rec (c_id c) (lr_LeaseGeneration rec) (mkGoTimeValue (env_clock env (w_events w2)) 0 true false)
      (env_faults env (S (w_events w2))) (S (S (w_events w2))) Hw2 ltac:(by rewrite Ei) Hdec) as Hfinal.
    cbn in H. destruct (run (AcknowledgeOutbox _ _ _ _) _ _) as [x d2]. by injection H as _ <-.
  - destruct (Hinside _ _ _ Ep) as [Ei Es].
    assert (world_ok w2) as Hw2 by (pose proof (store_world_ok w1 (w_store w2) (w_events w2) Es Hw1) as X; destruct w2; cbn in *; by subst).
    set (op := InboxSpec.OpRelease (lr_ID rec) (c_id c) (lr_LeaseGeneration rec) (mkGoTimeValue (env_clock env (w_events w2)) 0 true false) (Diagnostic e)).
    pose proof (inbox_world_ok w2 (InboxSpec.exec_op inbox op (env_faults env (S (w_events w2))) (w_inbox w2)) (S (S (w_events w2)))
      ltac:(apply (InboxSpec.inbox_step_sound inbox); by exists op, (env_faults env (S (w_events w2)))) ltac:(by apply exec_acks_nothing) Hw2) as Hfinal.
    cbn in H, Hfinal. destruct (run (ReleaseOutbox _ _ _ _ _) _ _) as [x d2]. by injection H as _ <-.
Qed.

Lemma wstep_ok w w' : wstep w w' → world_ok w → world_ok w'.
Proof.
  intros [op faults w0 Hop|d w0 Hd|env c r w0 w1 H] Hw.
  - apply inbox_world_ok; [apply (InboxSpec.inbox_step_sound inbox); by exists op, faults|by apply exec_acks_nothing|done].
  - apply store_world_ok; [by apply rtc_once|done].
  - by eapply next_world_ok.
Qed.

Lemma init_ok : world_ok init.
Proof. split; [apply Sound_empty|apply Consistent_empty|by inversion 1]. Qed.

(** What a controller does to the inbox are steps of the inbox. *)
Lemma next_inbox_steps env c r w w' :
  ProcessNext env inbox st c w = (Ok r, w') → rtc (InboxSpec.step inbox) (w_inbox w) (w_inbox w').
Proof.
  unfold ProcessNext, mbind, ctl_bind, now, on_inbox. cbn. set (t := mkGoTimeValue _ _ _ _). intros H.
  assert (InboxSpec.step inbox (w_inbox w) (run (ClaimOutbox inbox (c_id c) t (l_InboxLeaseDuration (c_limits c)) 1)
    (env_faults env (S (w_events w))) (w_inbox w)).2) as Hclaim.
  { by exists (InboxSpec.OpClaim (c_id c) t (l_InboxLeaseDuration (c_limits c)) 1), (env_faults env (S (w_events w))). }
  destruct (run (ClaimOutbox _ _ _ _ _) _ _) as [[recs|e] d1]; [|injection H as _ <-; by apply rtc_once].
  eapply rtc_l; [exact Hclaim|]. clear Hclaim. cbn [snd]. set (w1 := mkWorld d1 (w_store w) _) in *.
  destruct (head recs) as [rec|]; cbn in H; [|by injection H as _ <-].
  destruct (ProcessRecord_deciding env st c rec) as [Hinside _]. destruct (ProcessRecord env st c rec w1) as [[res|e] w2] eqn:Ep;
    destruct (Hinside _ _ _ Ep) as [Ei _]; cbn in Ei, H; rewrite <- Ei; apply rtc_once.
  - exists (InboxSpec.OpAcknowledge (lr_ID rec) (c_id c) (lr_LeaseGeneration rec) (mkGoTimeValue (env_clock env (w_events w2)) 0 true false)),
      (env_faults env (S (w_events w2))). cbn [InboxSpec.exec_op].
    destruct (run (AcknowledgeOutbox _ _ _ _) _ _) as [x d2]. by injection H as _ <-.
  - exists (InboxSpec.OpRelease (lr_ID rec) (c_id c) (lr_LeaseGeneration rec) (mkGoTimeValue (env_clock env (w_events w2)) 0 true false) (Diagnostic e)),
      (env_faults env (S (w_events w2))). cbn [InboxSpec.exec_op].
    destruct (run (ReleaseOutbox _ _ _ _ _) _ _) as [x d2]. by injection H as _ <-.
Qed.
Lemma wsteps_inbox w w' : rtc wstep w w' → rtc (InboxSpec.step inbox) (w_inbox w) (w_inbox w').
Proof.
  induction 1 as [|w1 w2 w3 H _ IH]; [done|]. etrans; [|exact IH]. destruct H as [op faults w0 _|d w0 _|env c r w0 w1 H].
  - apply rtc_once. by exists op, faults.
  - done.
  - by eapply next_inbox_steps.
Qed.

(** C1: a record is acknowledged only after its decision, and waits until then.
    Whatever the receiver, the users of the store and any controllers did, in
    whatever environment (databases that fail, tokens refused, pull requests
    unreadable, any clock), every outbox record is either acknowledged, and then the
    controller's store has a decision under its identity and projection; or it is
    pending, and every claim may take it; or it is leased until an expiry that is
    written down, and every claim from then on (by the text of the times) may take
    it again.  The decision can be to ignore the record: a rerequest whose binding
    or pull request could not be read is so decided, and acknowledged. *)
Theorem acknowledged_was_decided w :
  rtc wstep init w → ∀ r, r ∈ db_outbox (w_inbox w) →
  (ob_State r = OutboxStateAcknowledged ∧
   ∃ row, db_processed (w_store w) !! (ob_ReceiverID r, ob_ID r) = Some row ∧ pw_ProjectionDigest row = ob_ProjectionDigest r) ∨
  (ob_State r = OutboxStatePending ∧ ∀ now, Inbox.claimable now r = true) ∨
  (ob_State r = OutboxStateLeased ∧ ∃ expires, ob_LeaseExpiresAt r = Some expires ∧ ∀ now, Inbox.claimable now r = String.leb expires now).
Proof.
  intros H r Hr. assert (phased (w_inbox w)) as Hph.
  { apply wsteps_inbox in H. assert (phased (w_inbox init)) as H0 by apply Forall_nil_2. revert H0. induction H as [|d1 d2 d3 H12 _ IH]; [done|].
    intros Hd. apply IH; [done|]. by eapply inbox_step_phased. }
  unfold phased in Hph. rewrite Forall_forall in Hph. destruct (Hph r Hr) as [E|[E|[E [e He]]]].
  - left. split; [done|]. assert (world_ok w) as Hw; [|by apply (wo_acked _ Hw)].
    remember init as w0 eqn:E0. assert (world_ok w0) as H0 by (subst; apply init_ok). clear E0 Hr Hph E. induction H; [done|].
    apply IHrtc. by eapply wstep_ok.
  - right; left. split; [done|]. intros now. unfold Inbox.claimable. by rewrite E.
  - right; right. split; [done|]. exists e. split; [done|]. intros now. unfold Inbox.claimable. by rewrite E, He.
Qed.
End world.
