(* ===== verification/WorldEx.v ===== *)
(** * A worked day of receiver and controller

    A delivery is accepted, processed and acknowledged; another conflicts.  Two
    histories show what the code does beyond its documents: a lease that is taken
    again before it expires, and a rerequest that a failing database loses. *)

From stdpp Require Import prelude gmap strings.
From Stdlib Require Import ZArith Lia Ascii.
From S2P Require Import Prelude GoStd Sha256 Framing GoTime Model Json GoText Sql GithubApp Inbox InboxSpec ControllerStore ControllerSource ControllerStoreSpec ControllerInv ControllerSteps ControllerLaws ControllerEx Controller ControllerSpec.
Local Open Scope Z_scope.

Definition ib_store : Inbox.Store := Inbox.mkStore "receiver" Inbox.DefaultLimits.
Definition ex_digest (c : ascii) : string := "sha256:" +:+ ex_hex c 64.
Definition ex_pull : WebhookProjection :=
  mkWebhookProjection ProjectionPullRequest
    (Some (mkPullRequestProjection "opened" 1 2 0 "owner" "repo" 3 (ex_hex "a" 40) (ex_hex "b" 40) 2 false false false)) None None.
Definition ex_verified (body : ascii) (projection : WebhookProjection) (id : string) : VerifiedDelivery :=
  mkVerifiedDelivery "receiver" id "event" "opened" (ex_digest body) SecretGenerationCurrent (ex_at 0) projection
    (mkDeliveryReceipt SchemaGitHubWebhookReceiptV1Alpha1 "receiver" id "event" (ex_digest body) SecretGenerationCurrent
       (gt_instant (ex_at 0)) "" (wp_Kind projection) DeliveryDispositionEnqueued)
    DeliveryDispositionEnqueued (ComputeIntakeFingerprint "receiver" id "event" (ex_digest body) (wp_Kind projection)).

(** ** The inbox *)

Definition ib_run1 := run (Accept ib_store (ex_verified "1" ex_pull "delivery-1")) calm Inbox.emptyDB.
Definition ib_d1 : Inbox.DB := ib_run1.2.
Definition ib_run2 := run (Accept ib_store (ex_verified "2" ex_pull "delivery-1")) calm ib_d1.
Definition ib_d2 : Inbox.DB := ib_run2.2.
Definition ib_new : AcceptResult := mkAcceptResult AcceptNewEnqueued (outboxID (ex_verified "1" ex_pull "delivery-1")).
Definition ib_conflict : AcceptResult * option InboxError :=
  (mkAcceptResult AcceptDeliveryConflict "", Some (Inbox.errCode "delivery-conflict" "accept" "delivery id conflict")).

Lemma ib_run1_ok : run (Accept ib_store (ex_verified "1" ex_pull "delivery-1")) calm Inbox.emptyDB = (Ok (ib_new, None), ib_d1).
Proof. vm_cast_no_check (eq_refl ib_run1). Qed.
Lemma ib_run2_ok : run (Accept ib_store (ex_verified "2" ex_pull "delivery-1")) calm ib_d1 = (Ok ib_conflict, ib_d2).
Proof. vm_cast_no_check (eq_refl ib_run2). Qed.
Lemma ib_reach1 : InboxSpec.reachable ib_store ib_d1.
Proof. apply rtc_once. by exists (InboxSpec.OpAccept (ex_verified "1" ex_pull "delivery-1")), calm. Qed.

Lemma one_record_per_delivery_witness : NoDup (ob_ID <$> db_outbox ib_d1).
Proof. exact (proj1 (one_record_per_delivery ib_store ib_d1 ib_reach1)). Defined.

Lemma accept_exact_witness : db_outbox ib_d2 = db_outbox ib_d1.
Proof.
  pose proof (accept_exact ib_store (ex_verified "2" ex_pull "delivery-1") calm ib_d1 ib_conflict ib_d2 ib_run2_ok) as H.
  destruct (db_inbox ib_d1 !! inboxKey (ex_verified "2" ex_pull "delivery-1")) as [row|] eqn:E.
  - destruct (decide (in_IntakeFingerprint row = vd_IntakeFingerprint (ex_verified "2" ex_pull "delivery-1"))).
    + destruct H as [_ ->]. reflexivity.
    + destruct H as (_ & H & _). exact H.
  - exfalso. revert E. vm_compute. discriminate.
Defined.

(** Claimed at noon for a minute and a half second, and claimed again a minute
    later: as text, [...:20.5Z] comes before [...:20Z]. *)
Definition ib_run3 := run (ClaimOutbox ib_store "controller-a" (ex_at 0) (60 * second + 500000000) 1) calm ib_d1.
Definition ib_d3 : Inbox.DB := ib_run3.2.
Definition ib_run4 := run (ClaimOutbox ib_store "controller-b" (ex_at 60) (60 * second) 1) calm ib_d3.
Example lease_taken_before_expiry :
  (λ r, (lr_LeaseOwner r, lr_LeaseGeneration r, bool_decide (gt_instant (ex_at 60) < lr_LeaseExpiresAt r))) <$> ok_or [] ib_run3.1
    = [("controller-a"%string, 1, true)] ∧
  (λ r, (lr_LeaseOwner r, lr_LeaseGeneration r)) <$> ok_or [] ib_run4.1 = [("controller-b"%string, 2)].
Proof. split; vm_compute; reflexivity. Qed.

(** ** The controller *)

Definition ex_env (faults : nat → Faults) : Environment :=
  mkEnvironment (λ _ _, true) (λ _ _ _, Some (ex_snapshot "b" false)) (λ _, gt_instant (ex_at 5)) faults.
Definition ex_controller : Controller := mkController "controller" Controller.DefaultLimits 7.

Definition wd_1 : World := mkWorld ib_d1 ControllerStore.emptyDB 0.
Definition wd_run2 := ProcessNext (ex_env (λ _, calm)) ib_store ex_store ex_controller wd_1.
Definition wd_2 : World := wd_run2.2.
Definition wd_r2 : NextResult := ok_or (false, None, None) wd_run2.1.
Lemma wd_run2_ok : ProcessNext (ex_env (λ _, calm)) ib_store ex_store ex_controller wd_1 = (Ok wd_r2, wd_2).
Proof. exact (run_pair (false, None, None) wd_run2 (eq_refl true <: succeeds wd_run2.1 = true)). Qed.
Example wd_scheduled :
  (λ r, (rr_Decision r, rr_Generation r)) <$> wd_r2.1.2 = Some (DecisionScheduledNewTarget, 1)
  ∧ ob_State <$> db_outbox (w_inbox wd_2) = [OutboxStateAcknowledged].
Proof. split; vm_compute; reflexivity. Qed.

Lemma wd_reach : rtc (wstep ib_store ex_store) init wd_2.
Proof.
  eapply rtc_l; [|eapply rtc_l; [|reflexivity]].
  - apply (wstep_inbox ib_store ex_store (InboxSpec.OpAccept (ex_verified "1" ex_pull "delivery-1")) calm init). intros. discriminate.
  - exact (wstep_next ib_store ex_store _ _ _ wd_1 _ wd_run2_ok).
Qed.

Lemma acknowledged_was_decided_witness : ∃ r, head (db_outbox (w_inbox wd_2)) = Some r ∧
  ∃ row, db_processed (w_store wd_2) !! (ob_ReceiverID r, ob_ID r) = Some row ∧ pw_ProjectionDigest row = ob_ProjectionDigest r.
Proof.
  destruct (head (db_outbox (w_inbox wd_2))) as [r|] eqn:Hr; [|exfalso; revert Hr; vm_compute; discriminate].
  exists r. split; [reflexivity|].
  assert (ob_State r = OutboxStateAcknowledged) as Hack.
  { assert (ob_State <$> head (db_outbox (w_inbox wd_2)) = Some OutboxStateAcknowledged) as H; [vm_compute; reflexivity|].
    rewrite Hr in H. cbn in H. injection H as H. exact H. }
  destruct (acknowledged_was_decided ib_store ex_store wd_2 wd_reach r (head_Some_elem_of _ _ Hr)) as [[_ H]|[[E _]|[E _]]].
  - exact H.
  - rewrite Hack in E. discriminate E.
  - rewrite Hack in E. discriminate E.
Defined.

Lemma acknowledged_is_final_witness : InboxSpec.evolves ib_d1 ib_d3.
Proof.
  refine (proj1 (acknowledged_is_final ib_store ib_d1 ib_d3 ib_reach1 _)). apply rtc_once.
  exists (InboxSpec.OpClaim "controller-a" (ex_at 0) (60 * second + 500000000) 1), calm. reflexivity.
Defined.

(** A rerequest of a bound check of a current pull request, while the read of the
    binding fails once: the record is decided as ignored and acknowledged. *)
Definition ex_rerun : WebhookProjection :=
  mkWebhookProjection ProjectionCheckRun None (Some (mkCheckRunProjection "rerequested" 1 2 9 (ex_hex "b" 40) 7 "external")) None.
Definition ex_binding : CheckBinding := mkCheckBinding 7 1 2 3 9 1 1 "external" (rr_TargetID ex_r2) (rr_JobID ex_r2).
Definition wd_3 : World :=
  mkWorld (InboxSpec.exec_op ib_store (InboxSpec.OpAccept (ex_verified "3" ex_rerun "delivery-3")) calm (w_inbox wd_2))
    (ControllerSteps.exec_op ex_store (OpRegisterBinding ex_binding) calm (w_store wd_2)) 0.
(** Fails the third event: the read of the binding, after a clock reading and the claim. *)
Definition once : nat → Faults := λ event _, bool_decide (event = 2%nat).
Definition rerequest_outcome (faults : nat → Faults) : option ProcessingDecision * list OutboxState :=
  let r := ProcessNext (ex_env faults) ib_store ex_store ex_controller wd_3 in
  (rr_Decision <$> (ok_or (false, None, None) r.1).1.2, ob_State <$> db_outbox (w_inbox r.2)).
Example rerequest_lost_on_read_failure :
  rerequest_outcome (λ _, calm) = (Some DecisionRerequestCreated, [OutboxStateAcknowledged; OutboxStateAcknowledged]) ∧
  rerequest_outcome once = (Some DecisionRerequestIgnored, [OutboxStateAcknowledged; OutboxStateAcknowledged]).
Proof. split; vm_compute; reflexivity. Qed.
