(* ===== verification/Runner.v ===== *)
(** * The attempt runner ([internal/runner])

    A frozen plan is expanded into attempts; each attempt is handed to a backend,
    whose drafts are stamped into observation events and offered to a sink.

    A backend, a hook, a sink and a context are outside the package.  A backend
    that returns is a [Script]: it drafts events, sees what the sink answered to
    each, and finishes with an outcome or an error.  The other answers come from
    an [Environment], which is asked with the number of the question, so that it
    may change its mind.  What the runner did to the outside is the trace of the
    state.  The bytes a backend logs do not pass through the runner. *)

From stdpp Require Import prelude strings list_numbers.
From Stdlib Require Import ZArith Lia.
From S2P Require Import Prelude GoStd Sha256 Framing GoTime Model Json GoText Event.
Local Open Scope Z_scope.

(** ** [types.go] *)

Definition MaxAttempts : Z := 1280.
Definition MaxEventsPerAttempt : Z := 10000.
Definition MaxEventsPerExecution : Z := 100000.
Definition MaxEventJSONBytes : Z := 256 * 1024.
Definition MaxRunnerNameBytes : Z := 128.
Definition MaxRunnerVersionBytes : Z := 128.
Definition MaxCapabilityMismatches : Z := 64.
Definition MaxResultLimitations : Z := 1000.
Definition MaxLimitationCodeBytes : Z := 128.
Definition MaxLimitationMessageBytes : Z := 1024.
Definition MaxAttemptIDBytes : Z := 512.

Abbreviation ExecutionIntent := string.
Definition ExecutionIntentSyntheticTest : ExecutionIntent := "synthetic-test".
Definition ExecutionIntentWorkload : ExecutionIntent := "workload".

Record Requirements := mkRequirements {
  rq_Intent : ExecutionIntent;
  rq_AllowedIsolationTiers : list IsolationTier;
  rq_TargetExecutionRequired : bool;
  rq_SyntheticEvidenceAllowed : bool;
  rq_NetworkDenyEnforcementRequired : bool;
  rq_BrokeredNetworkRequired : bool;
  rq_ProcessEventsRequired : bool;
  rq_FilesystemEventsRequired : bool;
  rq_SyscallEventsRequired : bool;
  rq_ArtifactHashingRequired : bool;
  rq_SnapshotSupportRequired : bool;
  rq_FreshKernelRequired : bool
}.

Record Limits := mkLimits {
  l_MaxAttempts : Z;
  l_MaxEventsPerAttempt : Z;
  l_MaxEventsPerExecution : Z;
  l_MaxEventJSONBytes : Z;
  l_MaxCapabilityMismatches : Z;
  l_MaxResultLimitations : Z
}.
Definition DefaultLimits : Limits :=
  mkLimits MaxAttempts MaxEventsPerAttempt MaxEventsPerExecution MaxEventJSONBytes MaxCapabilityMismatches MaxResultLimitations.

Record CollectionSettings := mkCollectionSettings {
  cs_FilesystemRoots : list string;
  cs_FilesystemContents : string;
  cs_Artifacts : list ExpectedArtifactSpec;
  cs_LogMaxBytesPerStream : Z
}.

Record AttemptRequest := mkAttemptRequest {
  ar_PlanDigest : Digest;
  ar_RunID : string;
  ar_PlanCreatedAt : Time;
  ar_AttemptID : string;
  ar_GlobalOrdinal : Z;
  ar_Revision : RevisionKind;
  ar_CommitID : string;
  ar_TreeID : string;
  ar_ObjectFormat : GitObjectFormat;
  ar_MaterializedTreeDigest : Digest;
  ar_MaterializationManifestDigest : Digest;
  ar_Image : string;
  ar_Workdir : string;
  ar_Environment : list EnvEntry;
  ar_ResourceLimits : ResourceLimits;
  ar_NetworkPolicy : NetworkPolicy;
  ar_ScenarioID : string;
  ar_ScenarioName : string;
  ar_Shell : string;
  ar_Run : string;
  ar_ScenarioTimeoutMillis : Z;
  ar_Repetition : Z;
  ar_Collection : CollectionSettings
}.

Record EventDraft := mkEventDraft {
  ed_ObservedAt : Time;
  ed_Source : ObservationSource;
  ed_Kind : ObservationKind;
  ed_Process : option ProcessObservation;
  ed_Filesystem : option FilesystemObservation;
  ed_Network : option NetworkObservation;
  ed_Artifact : option ArtifactObservation;
  ed_Scenario : option ScenarioObservation;
  ed_ObserverWarning : option ObserverWarningObservation;
  ed_ResourceLimit : option ResourceLimitObservation
}.

Abbreviation AttemptStatus := string.
Definition AttemptStatusSucceeded : AttemptStatus := "succeeded".
Definition AttemptStatusFailed : AttemptStatus := "failed".
Definition AttemptStatusTimedOut : AttemptStatus := "timed-out".
Definition AttemptStatusResourceLimited : AttemptStatus := "resource-limited".

Record AttemptOutcome := mkAttemptOutcome {
  ao_Status : AttemptStatus;
  ao_ExitCode : option Z;
  ao_DurationMillis : Z;
  ao_Limitations : list Limitation
}.

Record AttemptResult := mkAttemptResult {
  res_AttemptID : string;
  res_Revision : RevisionKind;
  res_ScenarioID : string;
  res_Repetition : Z;
  res_Outcome : AttemptOutcome;
  res_FirstAcceptedSequence : Z;
  res_LastAcceptedSequence : Z;
  res_AcceptedEventCount : Z;
  res_Limitations : list Limitation
}.

Record ExecutionResult := mkExecutionResult {
  xr_PlanDigest : Digest;
  xr_Runner : RunnerCapabilities;
  xr_Complete : bool;
  xr_Attempts : list AttemptResult;
  xr_TotalEmittedEvents : Z;
  xr_Limitations : list Limitation
}.

Record CapabilityMismatch := mkCapabilityMismatch { cm_Code : string; cm_Required : string; cm_Actual : string }.

(** ** [errors.go]

    An error keeps, besides its fields, the cause of a context that it wraps:
    [errors.Is(err, context.Canceled)] looks for it. *)
Record RunnerError := mkRunnerError {
  re_Code : string;
  re_Stage : string;
  re_Attempt : string;
  re_Path : string;
  re_Cause : option CtxCause
}.
Definition errCode (code stage attempt path : string) : RunnerError := mkRunnerError code stage attempt path None.
Definition errWrap (code stage attempt path : string) (cause : option CtxCause) : RunnerError :=
  mkRunnerError code stage attempt path cause.

(** An error from outside: the context cause and the runner error in its chain, if any. *)
Record BackendError := mkBackendError { be_Cause : option CtxCause; be_Runner : option RunnerError }.

(** [contextError] *)
Definition contextError (answer : option CtxCause) (deadlineCode stage attempt path : string) : option RunnerError :=
  match answer with
  | Some DeadlineExceeded => Some (errWrap deadlineCode stage attempt path (Some DeadlineExceeded))
  | Some Canceled => Some (errWrap "context-cancelled" stage attempt path (Some Canceled))
  | None => None
  end.

(** [wrapAttemptError] and [wrapHookError] *)
Definition wrapError (err : BackendError) (stage attempt path : string) : RunnerError :=
  match be_Cause err with
  | Some Canceled => errWrap "context-cancelled" stage attempt "context" (Some Canceled)
  | Some DeadlineExceeded => errWrap "attempt-timeout" stage attempt "context" (Some DeadlineExceeded)
  | None => match be_Runner err with Some e => e | None => errCode "backend-failed" stage attempt path end
  end.
Definition wrapAttemptError (err : BackendError) (attempt : AttemptRequest) : RunnerError :=
  wrapError err "attempt" (ar_AttemptID attempt) "runner".
Definition wrapHookError (err : BackendError) (stage : string) (attempt : AttemptRequest) : RunnerError :=
  wrapError err stage (ar_AttemptID attempt) "hook".

(** ** [validate.go] *)

Definition containsControl (s : string) : bool := existsb (λ r, (r <? 32) || (r == 127)) (rune_values s).
Definition invalidBoundedText (s : string) (maxBytes : Z) (allowEmpty : bool) : bool :=
  (negb allowEmpty && (s == ""%string)) || (maxBytes <? str_len s) || negb (utf8_valid (to_bytes s)) || containsControl s.

Definition knownIsolationTier (tier : IsolationTier) : bool :=
  bool_decide (tier ∈ [IsolationTierFake; IsolationTierDevelopmentOnly; IsolationTierHardenedContainer; IsolationTierMicroVM]).
Definition knownSources : list ObservationSource :=
  [ObservationSourceHostObserved; ObservationSourceNetworkBrokerObserved; ObservationSourceSandboxRuntimeObserved;
   ObservationSourceGuestAgentReported; ObservationSourceWorkloadReported; ObservationSourceStaticAnalysisDerived;
   ObservationSourceModelInferred; ObservationSourceSyntheticTestGenerated].
Definition knownObservationSource (source : ObservationSource) : bool := bool_decide (source ∈ knownSources).

Definition ValidateRunnerCapabilities (caps : RunnerCapabilities) : result RunnerError unit :=
  let bad field := errCode "invalid-capabilities" "capabilities" "" field in
  reject_if (invalidBoundedText (rc_Name caps) MaxRunnerNameBytes false) (bad "name"%string) ;;
  reject_if (invalidBoundedText (rc_Version caps) MaxRunnerVersionBytes false) (bad "version"%string) ;;
  reject_if (negb (knownIsolationTier (rc_IsolationTier caps))) (bad "isolationTier"%string) ;;
  reject_if ((rc_IsolationTier caps == IsolationTierFake) && rc_ExecutesTargetCode caps) (bad "executesTargetCode"%string) ;;
  reject_if ((rc_IsolationTier caps == IsolationTierFake) && negb (rc_SyntheticEvidence caps)) (bad "syntheticEvidence"%string).

Definition validateRequirements (req : Requirements) : result RunnerError unit :=
  let bad field := errCode "invalid-requirements" "requirements" "" field in
  reject_if ((rq_Intent req != ExecutionIntentSyntheticTest) && (rq_Intent req != ExecutionIntentWorkload)) (bad "intent"%string) ;;
  reject_if (bool_decide (length (rq_AllowedIsolationTiers req) = 0%nat)) (bad "allowedIsolationTiers"%string) ;;
  foldR (λ _ '(i, tier), reject_if (negb (knownIsolationTier tier))
    (bad ("allowedIsolationTiers[" +:+ fmt_d (Z.of_nat i) +:+ "]"))) () (imap pair (rq_AllowedIsolationTiers req)) ;;
  reject_if ((rq_Intent req == ExecutionIntentSyntheticTest)
             && (rq_TargetExecutionRequired req || negb (rq_SyntheticEvidenceAllowed req))) (bad "synthetic-test"%string) ;;
  reject_if ((rq_Intent req == ExecutionIntentWorkload) && negb (rq_TargetExecutionRequired req)) (bad "targetExecutionRequired"%string).

Definition limitChecks (l : Limits) : list (string * Z * Z) :=
  [("maxAttempts"%string, l_MaxAttempts l, MaxAttempts);
   ("maxEventsPerAttempt"%string, l_MaxEventsPerAttempt l, MaxEventsPerAttempt);
   ("maxEventsPerExecution"%string, l_MaxEventsPerExecution l, MaxEventsPerExecution);
   ("maxEventJsonBytes"%string, l_MaxEventJSONBytes l, MaxEventJSONBytes);
   ("maxCapabilityMismatches"%string, l_MaxCapabilityMismatches l, MaxCapabilityMismatches);
   ("maxResultLimitations"%string, l_MaxResultLimitations l, MaxResultLimitations)].
Definition validateLimits (l : Limits) : result RunnerError unit :=
  foldR (λ _ '(name, got, max), reject_if ((got <=? 0) || (max <? got)) (errCode "invalid-limits" "limits" "" name)) () (limitChecks l).

Fixpoint join_comma (l : list string) : string :=
  match l with [] => "" | [x] => x | x :: l => x +:+ "," +:+ join_comma l end.
Definition tiersString (tiers : list IsolationTier) : string := join_comma tiers.
Definition capabilityBool (v : bool) : string := if v then "true" else "false".

(** The rows of [MatchCapabilities], and when each is a mismatch. *)
Definition capabilityChecks (req : Requirements) (caps : RunnerCapabilities) : list (bool * CapabilityMismatch) :=
  let actual := capabilityBool (rc_ExecutesTargetCode caps) +:+ "/synthetic=" +:+ capabilityBool (rc_SyntheticEvidence caps) in
  let missing code := mkCapabilityMismatch code "true" "false" in
  [((rq_Intent req == ExecutionIntentWorkload) && (negb (rc_ExecutesTargetCode caps) || rc_SyntheticEvidence caps),
    mkCapabilityMismatch "execution-intent" "workload target execution" actual);
   ((rq_Intent req == ExecutionIntentSyntheticTest)
    && (rc_ExecutesTargetCode caps || negb (rc_SyntheticEvidence caps) || negb (rq_SyntheticEvidenceAllowed req)),
    mkCapabilityMismatch "execution-intent" "synthetic-test without target execution" actual);
   (negb (bool_decide (rc_IsolationTier caps ∈ rq_AllowedIsolationTiers req)),
    mkCapabilityMismatch "isolation-tier" (tiersString (rq_AllowedIsolationTiers req)) (rc_IsolationTier caps));
   (rq_TargetExecutionRequired req && negb (rc_ExecutesTargetCode caps), missing "target-execution"%string);
   (rq_SyntheticEvidenceAllowed req && negb (rc_SyntheticEvidence caps) && (rq_Intent req == ExecutionIntentSyntheticTest),
    missing "synthetic-evidence"%string);
   (rq_NetworkDenyEnforcementRequired req && negb (rc_EnforcesNetworkDeny caps), missing "network-deny-enforcement"%string);
   (rq_BrokeredNetworkRequired req && negb (rc_BrokeredNetwork caps), missing "brokered-network"%string);
   (rq_ProcessEventsRequired req && negb (rc_ProcessEventCollection caps), missing "process-events"%string);
   (rq_FilesystemEventsRequired req && negb (rc_FilesystemEventCollection caps), missing "filesystem-events"%string);
   (rq_SyscallEventsRequired req && negb (rc_SyscallEventCollection caps), missing "syscall-events"%string);
   (rq_ArtifactHashingRequired req && negb (rc_ArtifactHashing caps), missing "artifact-hashing"%string);
   (rq_SnapshotSupportRequired req && negb (rc_SnapshotSupport caps), missing "snapshot-support"%string);
   (rq_FreshKernelRequired req && negb (rc_FreshKernel caps), missing "fresh-kernel"%string)].
Definition MatchCapabilities (req : Requirements) (caps : RunnerCapabilities) : result RunnerError (list CapabilityMismatch) :=
  validateRequirements req ;;
  ValidateRunnerCapabilities caps ;;
  mret (take (Z.to_nat MaxCapabilityMismatches) (omap (λ '(bad, m), if (bad : bool) then Some m else None) (capabilityChecks req caps))).

Definition is_some {A} (o : option A) : bool := match o with Some _ => true | None => false end.
Definition payload_count (d : EventDraft) : nat :=
  length (filter (λ b, b = true)
    [is_some (ed_Process d); is_some (ed_Filesystem d); is_some (ed_Network d); is_some (ed_Artifact d);
     is_some (ed_Scenario d); is_some (ed_ObserverWarning d); is_some (ed_ResourceLimit d)]).

Definition isProcessKind (k : ObservationKind) : bool := bool_decide (k ∈ [ObservationKindProcessStart; ObservationKindProcessExit]).
Definition isFilesystemKind (k : ObservationKind) : bool :=
  bool_decide (k ∈ [ObservationKindFilesystemCreate; ObservationKindFilesystemRead; ObservationKindFilesystemWrite;
    ObservationKindFilesystemDelete; ObservationKindFilesystemRename; ObservationKindFilesystemChmod]).
Definition isNetworkKind (k : ObservationKind) : bool := bool_decide (k ∈ [ObservationKindDNSQuery; ObservationKindNetworkConnection]).
Definition isArtifactKind (k : ObservationKind) : bool := k == ObservationKindArtifactActivity.
Definition isScenarioKind (k : ObservationKind) : bool :=
  bool_decide (k ∈ [ObservationKindScenarioStarted; ObservationKindScenarioCompleted]).
Definition isWarningKind (k : ObservationKind) : bool :=
  bool_decide (k ∈ [ObservationKindObserverWarning; ObservationKindUnsupportedObservation]).
Definition isResourceKind (k : ObservationKind) : bool := k == ObservationKindResourceLimit.

Definition payloadMatchesKind (d : EventDraft) : bool :=
  if isProcessKind (ed_Kind d) then is_some (ed_Process d)
  else if isFilesystemKind (ed_Kind d) then is_some (ed_Filesystem d)
  else if isNetworkKind (ed_Kind d) then is_some (ed_Network d)
  else if isArtifactKind (ed_Kind d) then is_some (ed_Artifact d)
  else if isScenarioKind (ed_Kind d) then is_some (ed_Scenario d)
  else if isWarningKind (ed_Kind d) then is_some (ed_ObserverWarning d)
  else if isResourceKind (ed_Kind d) then is_some (ed_ResourceLimit d)
  else false.

Definition sum_len {A} (f : A → Z) (l : list A) : Z := foldr (λ x n, f x + n) 0 l.
Definition estimateDraftSize (d : EventDraft) : Z :=
  str_len (ed_Source d) + str_len (ed_Kind d) + 64
  + from_option (λ p, str_len (po_Operation p) + str_len (po_ExecutablePath p) + sum_len str_len (po_Arguments p)
      + sum_len (λ e, str_len (env_Name e) + str_len (env_Value e)) (po_Environment p)) 0 (ed_Process d)
  + from_option (λ f, str_len (fo_Operation f) + str_len (fo_Path f) + str_len (fo_OldPath f) + str_len (fo_Mode f)
      + str_len (fo_Digest f)) 0 (ed_Filesystem d)
  + from_option (λ n, str_len (no_Operation n) + str_len (no_Protocol n) + str_len (no_QueryName n)
      + str_len (no_DestinationHost n) + str_len (no_Result n) + sum_len str_len (no_ResolvedAddresses n)) 0 (ed_Network d)
  + from_option (λ a, str_len (Event.ao_Operation a) + str_len (ao_ArtifactID a) + str_len (ao_Path a) + str_len (ao_Digest a)
      + sum_len str_len (ao_SourceEventIDs a)) 0 (ed_Artifact d)
  + from_option (λ s, str_len (so_Status s) + str_len (so_Message s)) 0 (ed_Scenario d)
  + from_option (λ w, str_len (wo_Code w) + str_len (wo_Message w)
      + sum_len (λ l, str_len (lim_ID l) + str_len (lim_Summary l) + str_len (lim_Details l)) (wo_Limitations w)) 0 (ed_ObserverWarning d)
  + from_option (λ r, str_len (ro_LimitKind r) + str_len (ro_Unit r)) 0 (ed_ResourceLimit d).

Definition ValidateEventDraft (d : EventDraft) (limits : Limits) : result RunnerError unit :=
  validateLimits limits ;;
  reject_if (negb (knownObservationSource (ed_Source d))) (errCode "invalid-event-draft" "event" "" "source") ;;
  reject_if (bool_decide (payload_count d <> 1%nat)) (errCode "invalid-event-draft" "event" "" "payload") ;;
  reject_if (negb (payloadMatchesKind d)) (errCode "invalid-event-draft" "event" "" "kind") ;;
  reject_if (l_MaxEventJSONBytes limits <? estimateDraftSize d) (errCode "event-too-large" "event" "" "payload").

Definition validateOutcome (o : AttemptOutcome) (timeoutMillis : Z) : result RunnerError unit :=
  let bad field := errCode "invalid-outcome" "attempt" "" field in
  reject_if ((ao_DurationMillis o <? 0) || ((0 <? timeoutMillis) && (timeoutMillis <? ao_DurationMillis o))) (bad "durationMillis"%string) ;;
  reject_if (MaxResultLimitations <? Z.of_nat (length (ao_Limitations o))) (bad "limitations"%string) ;;
  foldR (λ _ lim, reject_if (invalidBoundedText (lim_ID lim) MaxLimitationCodeBytes false
      || invalidBoundedText (lim_Summary lim) MaxLimitationMessageBytes false || containsControl (lim_Details lim))
    (bad "limitations"%string)) () (ao_Limitations o) ;;
  if ao_Status o == AttemptStatusSucceeded then reject_if (ao_ExitCode o != Some 0) (bad "exitCode"%string)
  else if ao_Status o == AttemptStatusFailed then reject_if ((ao_ExitCode o == None) || (ao_ExitCode o == Some 0)) (bad "exitCode"%string)
  else if (ao_Status o == AttemptStatusTimedOut) || (ao_Status o == AttemptStatusResourceLimited) then
    reject_if (ao_ExitCode o == Some 0) (bad "exitCode"%string)
  else Err (bad "status"%string).

(** ** [attempt.go] *)

Definition zeroCapabilities : RunnerCapabilities :=
  mkRunnerCapabilities "" "" "" false false false false false false false false false false.
#[global] Instance RunnerCapabilities_eq_dec : EqDecision RunnerCapabilities.
Proof. solve_decision. Defined.
Definition isZeroRunnerCapabilities (c : RunnerCapabilities) : bool := c == zeroCapabilities.

Definition index_field (name : string) (i : nat) : string := name +:+ "[" +:+ fmt_d (Z.of_nat i) +:+ "]".
Definition checkRevision (r : RevisionPlan) : bool :=
  (cr_CommitID (rvp_Commit r) == ""%string) || (rvp_TreeID r == ""%string) || (rvp_ObjectFormat r == ""%string)
  || (rvp_MaterializedTreeDigest r == ""%string) || (rvp_MaterializationManifestDigest r == ""%string).
Definition checkScenario (s : ScenarioPlan) : bool :=
  (sp_ID s == ""%string) || (sp_Shell s == ""%string) || (sp_Run s == ""%string) || (sp_Repetitions s <=? 0).
(** The running count of attempts is an [int64]. *)
Definition countScenario (revisions : Z) (attempts : Z) (x : nat * ScenarioPlan) : result RunnerError Z :=
  let '(i, s) := x in
  reject_if (checkScenario s) (errCode "invalid-plan" "plan" "" (index_field "scenarios" i)) ;;
  let attempts := wrap64 (attempts + wrap64 (sp_Repetitions s * revisions)) in
  reject_if (MaxAttempts <? attempts) (errCode "invalid-plan" "plan" "" "scenarios") ;;
  mret attempts.

Definition revisionsBaseHead (doc : RunPlan) : bool :=
  match rp_Revisions doc with
  | [b; h] => (rvp_Kind b == RevisionKindBase) && (rvp_Kind h == RevisionKindHead)
  | _ => false
  end.
Definition validatePlanDocument (doc : RunPlan) : result RunnerError unit :=
  reject_if ((rp_SchemaVersion doc != SchemaVersionRunPlanV1Alpha1) || (rp_RunID doc == ""%string) || (rp_CreatedAt doc == zero_time))
    (errCode "invalid-plan" "plan" "" "identity") ;;
  reject_if (negb (isZeroRunnerCapabilities (rp_Runner doc))) (errCode "invalid-plan-runner-field" "plan" "" "runner") ;;
  reject_if (match rp_ExecutionEnvironment doc with
             | Some e => (rpe_Image e == ""%string) || (rpe_Workdir e == ""%string)
             | None => true
             end) (errCode "invalid-plan" "plan" "" "executionEnvironment") ;;
  reject_if (negb (revisionsBaseHead doc)) (errCode "invalid-plan" "plan" "" "revisions") ;;
  reject_if (bool_decide (length (rp_Scenarios doc) = 0%nat)) (errCode "invalid-plan" "plan" "" "scenarios") ;;
  foldR (λ _ '(i, r), reject_if (checkRevision r) (errCode "invalid-plan" "plan" "" (index_field "revisions" i))) ()
    (imap pair (rp_Revisions doc)) ;;
  foldR (countScenario (Z.of_nat (length (rp_Revisions doc)))) 0 (imap pair (rp_Scenarios doc)) ;;
  mret ().

Definition collectionFromPlan (c : option CollectionPlan) : CollectionSettings :=
  match c with
  | None => mkCollectionSettings [] "" [] 0
  | Some c => mkCollectionSettings (clp_FilesystemRoots c) (clp_FilesystemContents c) (clp_Artifacts c) (clp_LogMaxBytesPerStream c)
  end.

Definition attemptID (revision : RevisionKind) (scenario : string) (rep : Z) : string :=
  "att-" +:+ revision +:+ "-" +:+ scenario +:+ "-r" +:+ fmt_d rep.
Definition attemptRequest (doc : RunPlan) (planDigest : Digest) (ordinal : Z) (r : RevisionPlan) (s : ScenarioPlan) (rep : Z) :
    AttemptRequest := {|
  ar_PlanDigest := planDigest;
  ar_RunID := rp_RunID doc;
  ar_PlanCreatedAt := rp_CreatedAt doc;
  ar_AttemptID := attemptID (rvp_Kind r) (sp_ID s) rep;
  ar_GlobalOrdinal := ordinal;
  ar_Revision := rvp_Kind r;
  ar_CommitID := cr_CommitID (rvp_Commit r);
  ar_TreeID := rvp_TreeID r;
  ar_ObjectFormat := rvp_ObjectFormat r;
  ar_MaterializedTreeDigest := rvp_MaterializedTreeDigest r;
  ar_MaterializationManifestDigest := rvp_MaterializationManifestDigest r;
  ar_Image := from_option rpe_Image ""%string (rp_ExecutionEnvironment doc);
  ar_Workdir := from_option rpe_Workdir ""%string (rp_ExecutionEnvironment doc);
  ar_Environment := rp_Environment doc;
  ar_ResourceLimits := sp_ResourceLimits s;
  ar_NetworkPolicy := sp_NetworkPolicy s;
  ar_ScenarioID := sp_ID s;
  ar_ScenarioName := sp_Name s;
  ar_Shell := sp_Shell s;
  ar_Run := sp_Run s;
  ar_ScenarioTimeoutMillis := rl_TimeoutMillis (sp_ResourceLimits s);
  ar_Repetition := rep mod 2 ^ 32;
  ar_Collection := collectionFromPlan (rp_Collection doc)
|}.

(** The iterations of the three loops.  The innermost leaves with an error once
    the ordinal exceeds [MaxAttempts], so no more than one iteration beyond that
    many is ever entered. *)
Definition repetitions (s : ScenarioPlan) : list Z := seqZ 1 (Z.min (sp_Repetitions s) (MaxAttempts + 1)).
Definition planTriples (doc : RunPlan) : list (RevisionPlan * ScenarioPlan * Z) :=
  rp_Revisions doc ≫= λ r, rp_Scenarios doc ≫= λ s, (λ rep, (r, s, rep)) <$> repetitions s.
Definition expandStep (doc : RunPlan) (planDigest : Digest) (acc : Z * list AttemptRequest) (x : RevisionPlan * ScenarioPlan * Z) :
    result RunnerError (Z * list AttemptRequest) :=
  let '(ordinal, attempts) := acc in
  let '(r, s, rep) := x in
  let ordinal := ordinal + 1 in
  reject_if (MaxAttempts <? ordinal) (errCode "invalid-plan" "attempts" "" "count") ;;
  let id := attemptID (rvp_Kind r) (sp_ID s) rep in
  reject_if (MaxAttemptIDBytes <? str_len id) (errCode "invalid-attempt" "attempts" id "attemptId") ;;
  mret (ordinal, attempts ++ [attemptRequest doc planDigest ordinal r s rep]).
Definition expandAttempts (doc : RunPlan) (planDigest : Digest) : result RunnerError (list AttemptRequest) :=
  validatePlanDocument doc ;;
  r ← foldR (expandStep doc planDigest) (0, []) (planTriples doc);
  mret r.2.
Definition ExpandPlanDocument (doc : RunPlan) (planDigest : Digest) : result RunnerError (list AttemptRequest) :=
  validatePlanDocument doc ;; expandAttempts doc planDigest.

(** ** [events.go] *)

Definition eventIDDomain : string := "glassroot.dev/observation-event-id/v1" +:+ NUL.
Definition eventIDPreimage (planDigest : Digest) (runID : string) (sequence : Z) : bytes :=
  to_bytes eventIDDomain ++ writeString planDigest ++ writeString runID ++ put_u64 sequence.
Definition eventID (planDigest : Digest) (runID : string) (sequence : Z) : string :=
  "evt-" +:+ sha256_hex (eventIDPreimage planDigest runID sequence).

Definition millisecond : Z := 1000000.
(** Durations are [int64] nanoseconds. *)
Definition deterministicAttemptTime (a : AttemptRequest) (offsetMillis : Z) : Time :=
  ar_PlanCreatedAt a + (if 0 <? ar_GlobalOrdinal a then wrap64 ((ar_GlobalOrdinal a - 1) * second) else 0)
  + wrap64 (offsetMillis * millisecond).

Definition envelopeEvent (a : AttemptRequest) (sequence : Z) (d : EventDraft) : ObservationEvent := {|
  oe_SchemaVersion := SchemaVersionObservationEventV1Alpha1;
  oe_ID := eventID (ar_PlanDigest a) (ar_RunID a) sequence;
  oe_RunID := ar_RunID a;
  oe_Revision := ar_Revision a;
  oe_ScenarioID := ar_ScenarioID a;
  oe_Repetition := ar_Repetition a;
  oe_SequenceNumber := sequence;
  oe_ObservedAt := if ed_ObservedAt d == zero_time then deterministicAttemptTime a 0 else ed_ObservedAt d;
  oe_Source := ed_Source d;
  oe_Kind := ed_Kind d;
  oe_Process := ed_Process d;
  oe_Filesystem := ed_Filesystem d;
  oe_Network := ed_Network d;
  oe_Artifact := ed_Artifact d;
  oe_Scenario := ed_Scenario d;
  oe_ObserverWarning := ed_ObserverWarning d;
  oe_ResourceLimit := ed_ResourceLimit d
|}.

(** The length of the encoding, or [None] when it cannot be encoded. *)
Definition eventJSONSize (e : ObservationEvent) : option Z :=
  if forallb json_year_ok (event_times e) then Some (Z.of_nat (length (render (json_of_ObservationEvent e)))) else None.

(** ** The outside *)

(** A backend, or a hook, that returns. *)
#[warnings="-register-all"]
Inductive Script :=
| Finish (r : result BackendError AttemptOutcome)
| EmitDraft (d : EventDraft) (k : option RunnerError → Script).

Record AttemptHooks := mkAttemptHooks {
  BeforeAttempt : nat → AttemptRequest → option BackendError;
  AfterAttempt : nat → AttemptRequest → AttemptOutcome → Script
}.
Record Environment := mkEnvironment {
  env_ctx : Context;
  env_sink : nat → ObservationEvent → option (option CtxCause);
  env_backend : nat → AttemptRequest → Script
}.

(** What the runner did to the outside: an event it offered, with whether the sink
    took it, and the calls of the hooks. *)
Inductive Action :=
| Emitted (e : ObservationEvent) (accepted : bool)
| Began (a : AttemptRequest)
| Ended (a : AttemptRequest) (o : AttemptOutcome)
| Aborted (a : AttemptRequest).

(** ** [execute.go] *)

Record executionState := mkState {
  xs_seq : Z;
  xs_result : ExecutionResult;
  xs_asked : nat;
  xs_trace : list Action
}.
Record draftSink := mkDraftSink { dk_count : Z; dk_firstSeq : Z; dk_lastSeq : Z }.
Definition newSink : draftSink := mkDraftSink 0 0 0.

Definition with_total (n : Z) (r : ExecutionResult) : ExecutionResult :=
  mkExecutionResult (xr_PlanDigest r) (xr_Runner r) (xr_Complete r) (xr_Attempts r) n (xr_Limitations r).
Definition with_attempt (a : AttemptResult) (r : ExecutionResult) : ExecutionResult :=
  mkExecutionResult (xr_PlanDigest r) (xr_Runner r) (xr_Complete r) (xr_Attempts r ++ [a]) (xr_TotalEmittedEvents r) (xr_Limitations r).
Definition completed (r : ExecutionResult) : ExecutionResult :=
  mkExecutionResult (xr_PlanDigest r) (xr_Runner r) true (xr_Attempts r) (xr_TotalEmittedEvents r) (xr_Limitations r).

(** One more question was asked of the outside. *)
Definition asked (s : executionState) : executionState := mkState (xs_seq s) (xs_result s) (S (xs_asked s)) (xs_trace s).
Definition acted (x : Action) (s : executionState) : executionState :=
  mkState (xs_seq s) (xs_result s) (S (xs_asked s)) (xs_trace s ++ [x]).
Definition accepted (e : ObservationEvent) (s : executionState) : executionState :=
  mkState (oe_SequenceNumber e) (with_total (oe_SequenceNumber e) (xs_result s)) (S (xs_asked s)) (xs_trace s ++ [Emitted e true]).

Section execution.
Context (env : Environment) (limits : Limits).

(** [attemptDraftSink.Emit] *)
Definition Emit (a : AttemptRequest) (sk : draftSink) (d : EventDraft) (s : executionState) :
    option RunnerError * draftSink * executionState :=
  let id := ar_AttemptID a in
  match contextError (env_ctx env (xs_asked s)) "attempt-timeout" "event" id "context" with
  | Some e => (Some e, sk, asked s)
  | None =>
    let s := asked s in
    if (l_MaxEventsPerAttempt limits <=? dk_count sk) || (l_MaxEventsPerExecution limits <=? xs_seq s) then
      (Some (errCode "event-limit" "event" id "count"), sk, s)
    else
      match ValidateEventDraft d limits with
      | Err e => (Some e, sk, s)
      | Ok _ =>
        let event := envelopeEvent a (xs_seq s + 1) d in
        match eventJSONSize event with
        | None => (Some (errCode "serialization-failed" "event" id "json"), sk, s)
        | Some size =>
          if l_MaxEventJSONBytes limits <? size then (Some (errCode "event-too-large" "event" id "json"), sk, s)
          else
            match env_sink env (xs_asked s) event with
            | Some cause => (Some (errWrap "sink-failed" "sink" id "emit" cause), sk, acted (Emitted event false) s)
            | None =>
              (None,
               mkDraftSink (dk_count sk + 1) (if dk_firstSeq sk == 0 then xs_seq s + 1 else dk_firstSeq sk) (xs_seq s + 1),
               accepted event s)
            end
        end
      end
  end.

(** A script, run against the sink of its attempt. *)
Fixpoint run_script (a : AttemptRequest) (sk : draftSink) (p : Script) (s : executionState) :
    result BackendError AttemptOutcome * draftSink * executionState :=
  match p with
  | Finish r => (r, sk, s)
  | EmitDraft d k => let '(answer, sk, s) := Emit a sk d s in run_script a sk (k answer) s
  end.

Definition attemptResult (a : AttemptRequest) (o : AttemptOutcome) (sk : draftSink) : AttemptResult := {|
  res_AttemptID := ar_AttemptID a;
  res_Revision := ar_Revision a;
  res_ScenarioID := ar_ScenarioID a;
  res_Repetition := ar_Repetition a;
  res_Outcome := o;
  res_FirstAcceptedSequence := dk_firstSeq sk;
  res_LastAcceptedSequence := dk_lastSeq sk;
  res_AcceptedEventCount := dk_count sk;
  res_Limitations := ao_Limitations o
|}.

(** A step that may fail, in the state of the execution. *)
Definition Exec (A : Type) : Type := executionState → result RunnerError A * executionState.
#[global] Instance exec_ret : MRet Exec := λ A x s, (Ok x, s).
#[global] Instance exec_bind : MBind Exec := λ A B k m s,
  match m s with (Ok x, s) => k x s | (Err e, s) => (Err e, s) end.
Definition checked (r : result RunnerError unit) : Exec unit := λ s, (r, s).
(** [contextError(ctx, ...)] *)
Definition poll (deadlineCode stage attempt path : string) : Exec unit := λ s,
  (match contextError (env_ctx env (xs_asked s)) deadlineCode stage attempt path with Some e => Err e | None => Ok () end, asked s).
(** A script that is run to its end, its error wrapped. *)
Definition call_script (a : AttemptRequest) (sk : draftSink) (script : nat → Script) (wrap : BackendError → RunnerError) :
    Exec (AttemptOutcome * draftSink) := λ s,
  match run_script a sk (script (xs_asked s)) (asked s) with
  | (Err err, _, s) => (Err (wrap err), s)
  | (Ok o, sk, s) => (Ok (o, sk), s)
  end.
Definition call_emit (a : AttemptRequest) (sk : draftSink) (d : EventDraft) : Exec draftSink := λ s,
  match Emit a sk d s with (Some e, _, s) => (Err e, s) | (None, sk, s) => (Ok sk, s) end.

Definition executeAttempt (a : AttemptRequest) : Exec AttemptResult :=
  poll "attempt-timeout" "attempt" (ar_AttemptID a) "context" ;;
  '(o, sk) ← call_script a newSink (λ n, env_backend env n a) (λ err, wrapAttemptError err a);
  checked (validateOutcome o (ar_ScenarioTimeoutMillis a)) ;;
  mret (attemptResult a o sk).

Definition scenarioStatus (status : AttemptStatus) : ScenarioStatus :=
  if status == AttemptStatusSucceeded then ScenarioStatusPassed
  else if status == AttemptStatusFailed then ScenarioStatusFailed
  else if status == AttemptStatusTimedOut then ScenarioStatusTimedOut
  else if status == AttemptStatusResourceLimited then ScenarioStatusIncomplete
  else ScenarioStatusError.
Definition scenarioDraft (t : Time) (kind : ObservationKind) (s : ScenarioObservation) : EventDraft :=
  mkEventDraft t ObservationSourceSandboxRuntimeObserved kind None None None None (Some s) None None.
Definition startedDraft (a : AttemptRequest) : EventDraft :=
  let t := deterministicAttemptTime a 0 in
  scenarioDraft t ObservationKindScenarioStarted (mkScenarioObservation ScenarioStatusRunning "" (Some t) None 0).
Definition completedDraft (a : AttemptRequest) (o : AttemptOutcome) : EventDraft :=
  let t := deterministicAttemptTime a (ao_DurationMillis o) in
  scenarioDraft t ObservationKindScenarioCompleted
    (mkScenarioObservation (scenarioStatus (ao_Status o)) "" None (Some t) (ao_DurationMillis o)).

Definition aborted (hooks : option AttemptHooks) (a : AttemptRequest) (s : executionState) : executionState :=
  if hooks is Some _ then acted (Aborted a) s else s.
Definition abort_on_error {A} (hooks : option AttemptHooks) (a : AttemptRequest) (m : Exec A) : Exec A := λ s,
  match m s with (Err e, s) => (Err e, aborted hooks a s) | (Ok x, s) => (Ok x, s) end.
Definition before_hook (hooks : option AttemptHooks) (a : AttemptRequest) : Exec unit := λ s,
  match hooks with
  | None => (Ok (), s)
  | Some h => match BeforeAttempt h (xs_asked s) a with
              | Some err => (Err (wrapHookError err "before" a), acted (Began a) s)
              | None => (Ok (), acted (Began a) s)
              end
  end.
Definition after_hook (hooks : option AttemptHooks) (a : AttemptRequest) (o : AttemptOutcome) (sk : draftSink) :
    Exec (AttemptOutcome * draftSink) := λ s,
  match hooks with
  | None => (Ok (o, sk), s)
  | Some h =>
    (r ← abort_on_error hooks a (call_script a sk (λ n, AfterAttempt h n a o) (λ err, wrapHookError err "after" a));
     checked (validateOutcome r.1 (ar_ScenarioTimeoutMillis a)) ;;
     mret r) (acted (Ended a o) s)
  end.

Definition executeAttemptWithHooks (hooks : option AttemptHooks) (a : AttemptRequest) : Exec AttemptResult :=
  poll "attempt-timeout" "attempt" (ar_AttemptID a) "context" ;;
  before_hook hooks a ;;
  sk ← abort_on_error hooks a (call_emit a newSink (startedDraft a));
  '(o, sk) ← abort_on_error hooks a (
     r ← call_script a sk (λ n, env_backend env n a) (λ err, wrapAttemptError err a);
     checked (validateOutcome r.1 (ar_ScenarioTimeoutMillis a)) ;;
     mret r);
  '(o, sk) ← after_hook hooks a o sk;
  sk ← call_emit a sk (completedDraft a o);
  mret (attemptResult a o sk).

(** The loop over the attempts; the result so far is in the state. *)
Definition record_result (r : AttemptResult) : Exec unit := λ s,
  (Ok (), mkState (xs_seq s) (with_attempt r (xs_result s)) (xs_asked s) (xs_trace s)).
Definition executeOne (execute : AttemptRequest → Exec AttemptResult) (a : AttemptRequest) : Exec unit :=
  poll "run-timeout" "execute" "" (ar_AttemptID a) ;;
  r ← execute a;
  record_result r.
Fixpoint executeAll (execute : AttemptRequest → Exec AttemptResult) (l : list AttemptRequest) : Exec unit :=
  match l with
  | [] => mret ()
  | a :: l => executeOne execute a ;; executeAll execute l
  end.
Definition finish : Exec unit := λ s,
  (Ok (), mkState (xs_seq s) (completed (with_total (xs_seq s) (xs_result s))) (xs_asked s) (xs_trace s)).
End execution.

Definition syntheticLimitations (caps : RunnerCapabilities) : list Limitation :=
  if negb (rc_SyntheticEvidence caps) then []
  else [mkLimitation "synthetic-no-target-execution" "No target code was executed by this runner." "";
        mkLimitation "synthetic-observations" "All observations are synthetic test data, not observed repository behavior." ""].

(** What is asked of the backend before anything is executed: its capabilities, and
    whether it takes the plan, when it is one that looks at plans. *)
Record Backend := mkBackend {
  bk_Capabilities : option RunnerCapabilities;
  bk_ValidatePlan : option (Digest → list AttemptRequest → Limits → bool)
}.
(** An error of the package, or one that the backend's [ValidatePlan] gave. *)
Inductive ExecutionError := ERunner (e : RunnerError) | EValidatePlan.

(** The checks before the execution, in their order: the attempts and the capabilities. *)
Definition matchedCapabilities (requirements : Requirements) (limits : Limits) (caps : RunnerCapabilities) : result RunnerError unit :=
  reject_if ((rq_Intent requirements == ExecutionIntentWorkload) && rc_SyntheticEvidence caps && negb (rc_ExecutesTargetCode caps))
    (errCode "synthetic-runner-not-allowed" "capabilities" "" "intent") ;;
  mismatches ← MatchCapabilities requirements caps;
  reject_if (l_MaxCapabilityMismatches limits <? Z.of_nat (length mismatches)) (errCode "capability-mismatch" "capabilities" "" "mismatches") ;;
  match mismatches with
  | m :: _ => Err (errCode "capability-mismatch" "capabilities" "" (cm_Code m))
  | [] => Ok ()
  end.
Definition admitted (ctx : option CtxCause) (plan : option (RunPlan * Digest)) (backend : Backend) (requirements : Requirements)
    (limits : Limits) : result RunnerError (RunPlan * Digest * list AttemptRequest * RunnerCapabilities) :=
  match contextError ctx "context-cancelled" "execute" "" "context" with Some e => Err e | None => Ok () end ;;
  match plan with
  | None => Err (errCode "invalid-plan" "plan" "" "plan")
  | Some (doc, digest) =>
    validateLimits limits ;;
    validateRequirements requirements ;;
    validatePlanDocument doc ;;
    attempts ← expandAttempts doc digest;
    reject_if (l_MaxAttempts limits <? Z.of_nat (length attempts)) (errCode "invalid-plan" "attempts" "" "count") ;;
    match bk_Capabilities backend with
    | None => Err (errCode "capabilities-failed" "capabilities" "" "runner")
    | Some caps => matchedCapabilities requirements limits caps ;; mret (doc, digest, attempts, caps)
    end
  end.

Definition zeroResult : ExecutionResult := mkExecutionResult "" zeroCapabilities false [] 0 [].
Definition initialState (digest : Digest) (caps : RunnerCapabilities) : executionState :=
  mkState 0 (mkExecutionResult digest caps false [] 0 (syntheticLimitations caps)) 0 [].

(** Both entry points; they differ in how an attempt is executed.  The result comes
    with the error, as far as it got, and with the trace. *)
Definition execute (attempt : Environment → Limits → AttemptRequest → Exec AttemptResult) (env : Environment) (ctx : option CtxCause)
    (plan : option (RunPlan * Digest)) (backend : Backend) (requirements : Requirements) (limits : Limits) :
    ExecutionResult * option ExecutionError * list Action :=
  match admitted ctx plan backend requirements limits with
  | Err e => (zeroResult, Some (ERunner e), [])
  | Ok (doc, digest, attempts, caps) =>
    if match bk_ValidatePlan backend with Some accepts => negb (accepts digest attempts limits) | None => false end
    then (zeroResult, Some EValidatePlan, [])
    else
      match executeAll env (attempt env limits) attempts (initialState digest caps) with
      | (Err e, s) => (xs_result s, Some (ERunner e), xs_trace s)
      | (Ok _, s) => let s := (finish s).2 in (xs_result s, None, xs_trace s)
      end
  end.
Definition ExecutePlan := execute executeAttempt.
Definition ExecutePlanWithHooks (hooks : option AttemptHooks) := execute (λ env limits, executeAttemptWithHooks env limits hooks).
