(* ===== verification/RunnerSpec.v ===== *)
(** * What an execution of a plan leaves

    Attempts are the product of the plan, numbered; whatever a backend drafts and
    however the outside answers, the events that the sink took are numbered
    without gaps, stamped with their attempt, attempt after attempt in the order
    of the plan, and each result counts its own. *)

From stdpp Require Import prelude strings list_numbers.
From Stdlib Require Import ZArith Lia.
From S2P Require Import Prelude GoStd Sha256 Framing GoTime Model Json GoText Event Runner.
Local Open Scope Z_scope.

(** ** One attempt *)

Definition accepted_event (x : Action) : option ObservationEvent := match x with Emitted e true => Some e | _ => None end.
(** The events that the sink took. *)
Definition events (l : list Action) : list ObservationEvent := omap accepted_event l.

(** [e] is an event of [a], numbered [seq], stamped on a valid draft. *)
Definition stamped (limits : Limits) (a : AttemptRequest) (seq : Z) (e : ObservationEvent) : Prop :=
  ∃ d size, e = envelopeEvent a seq d ∧ ValidateEventDraft d limits = Ok ()
  ∧ eventJSONSize e = Some size ∧ size <= l_MaxEventJSONBytes limits.
Definition chunk_of (limits : Limits) (a : AttemptRequest) (seq0 : Z) (chunk : list ObservationEvent) : Prop :=
  ∀ i e, chunk !! i = Some e → stamped limits a (seq0 + Z.of_nat i + 1) e.

(** The sink of an attempt that began after [seq0] and took [n] events. *)
Definition sink_at (seq0 n : Z) : draftSink :=
  mkDraftSink n (if bool_decide (n = 0) then 0 else seq0 + 1) (if bool_decide (n = 0) then 0 else seq0 + n).

Lemma chunk_of_app limits a seq0 c1 c2 :
  chunk_of limits a seq0 c1 → chunk_of limits a (seq0 + Z.of_nat (length c1)) c2 → chunk_of limits a seq0 (c1 ++ c2).
Proof.
  intros H1 H2 i e [Hi|[Hlen Hi]]%lookup_app_Some; [by apply H1|]. apply H2 in Hi.
  replace (seq0 + Z.of_nat i + 1) with (seq0 + Z.of_nat (length c1) + Z.of_nat (i - length c1) + 1) by lia. done.
Qed.

Section attempt.
Context (env : Environment) (limits : Limits) (a : AttemptRequest) (seq0 : Z).

(** The attempt has taken [n] events. *)
Record at_count (n : Z) (s : executionState) : Prop := {
  ac_seq : xs_seq s = seq0 + n;
  ac_start : 0 <= seq0;
  ac_pos : 0 <= n;
  ac_attempt : n = 0 ∨ n <= l_MaxEventsPerAttempt limits;
  ac_execution : xs_seq s = 0 ∨ xs_seq s <= l_MaxEventsPerExecution limits;
  ac_total : xr_TotalEmittedEvents (xs_result s) = xs_seq s
}.
(** What happened between two moments of the attempt. *)
Record grew (n : Z) (s : executionState) (n' : Z) (s' : executionState) : Prop := {
  gr_events : ∃ chunk, events (xs_trace s') = events (xs_trace s) ++ chunk ∧ Z.of_nat (length chunk) = n' - n
                ∧ chunk_of limits a (seq0 + n) chunk;
  gr_result : xs_result s' = with_total (xs_seq s') (xs_result s)
}.
Definition emits {A} (P : Z → Prop) (m : Exec A) (Q : A → Z → Prop) : Prop :=
  ∀ n s r s', at_count n s → P n → m s = (r, s') →
  ∃ n', at_count n' s' ∧ grew n s n' s' ∧ ∀ x, r = Ok x → Q x n'.

Lemma with_total_same r : with_total (xr_TotalEmittedEvents r) r = r.
Proof. by destruct r. Qed.
Lemma with_total_twice m n r : with_total m (with_total n r) = with_total m r.
Proof. by destruct r. Qed.

(** Nothing was taken. *)
Lemma grew_quiet n s s' :
  at_count n s → xs_seq s' = xs_seq s → xs_result s' = xs_result s → events (xs_trace s') = events (xs_trace s) →
  at_count n s' ∧ grew n s n s'.
Proof.
  intros [] E1 E2 E3. split; constructor; rewrite ?E1, ?E2; try done.
  - exists []. rewrite app_nil_r. split_and!; [done|cbn; lia|]. intros i e Hi. by rewrite lookup_nil in Hi.
  - rewrite <- ac_total0. by rewrite with_total_same.
Qed.
Lemma grew_trans n s n1 s1 n2 s2 : grew n s n1 s1 → grew n1 s1 n2 s2 → grew n s n2 s2.
Proof.
  intros [(c1 & E1 & L1 & H1) R1] [(c2 & E2 & L2 & H2) R2]. constructor.
  - exists (c1 ++ c2). rewrite E2, E1, app_assoc, length_app. split_and!; [done|lia|]. apply chunk_of_app; [done|].
    by replace (seq0 + n + Z.of_nat (length c1)) with (seq0 + n1) by lia.
  - by rewrite R2, R1, with_total_twice.
Qed.

Lemma events_snoc l x : events (l ++ [x]) = events l ++ option_list (accepted_event x).
Proof. unfold events. rewrite omap_app. cbn. by destruct (accepted_event x). Qed.

Lemma asked_quiet n s : at_count n s → at_count n (asked s) ∧ grew n s n (asked s).
Proof. intros H. by apply grew_quiet. Qed.
Lemma acted_quiet n s x : accepted_event x = None → at_count n s → at_count n (acted x s) ∧ grew n s n (acted x s).
Proof. intros Hx H. apply grew_quiet; [done..|]. cbn. by rewrite events_snoc, Hx, app_nil_r. Qed.

(** One offer to the sink. *)
Lemma Emit_spec n s d answer sk s' :
  at_count n s → Emit env limits a (sink_at seq0 n) d s = (answer, sk, s') →
  ∃ n', at_count n' s' ∧ grew n s n' s' ∧ sk = sink_at seq0 n'.
Proof.
  intros Hat. destruct (asked_quiet n s Hat) as [Hat1 Hg1]. unfold Emit.
  destruct (contextError _ _ _ _ _) as [e|]; [intros [= <- <- <-]; by exists n|].
  destruct (_ || _) eqn:Hlim; [intros [= <- <- <-]; by exists n|].
  destruct (ValidateEventDraft d limits) as [[]|e] eqn:Hd; [|intros [= <- <- <-]; by exists n].
  destruct (eventJSONSize _) as [size|] eqn:Hsize; [|intros [= <- <- <-]; by exists n].
  destruct (_ <? size) eqn:Hmax; [intros [= <- <- <-]; by exists n|].
  destruct (env_sink _ _ _) as [cause|]; intros [= <- <- <-].
  { set (e := envelopeEvent _ _ _). exists n. split; [|split; [|done]].
    - by apply (acted_quiet n (asked s) (Emitted e false)).
    - eapply grew_trans; [exact Hg1|]. by apply (acted_quiet n (asked s) (Emitted e false)). }
  destruct Hat1 as [Eseq Hs0 Hn Ha Hx Htot]. apply orb_false_iff in Hlim as [H1%Z.leb_gt H2%Z.leb_gt].
  cbn [dk_count sink_at] in H1. exists (n + 1). split; [|split].
  - constructor; cbn; [cbn in Eseq; lia|done|lia|lia|cbn in *; lia|done].
  - constructor; cbn; [|done]. eexists. rewrite events_snoc. split; [reflexivity|]. cbn. split; [lia|].
    intros [|i] e He; [|done]. injection He as <-. exists d, size. cbn in Eseq.
    replace (seq0 + n + Z.of_nat 0 + 1) with (xs_seq s + 1) by lia. split_and!; [done..|]. apply Z.ltb_ge in Hmax. done.
  - unfold sink_at. cbn in Eseq. rewrite (bool_decide_false (n + 1 = 0)) by lia. cbn. f_equal; [|lia].
    repeat case_bool_decide; lia.
Qed.

Lemma run_script_spec p : ∀ n s r sk s',
  at_count n s → run_script env limits a (sink_at seq0 n) p s = (r, sk, s') →
  ∃ n', at_count n' s' ∧ grew n s n' s' ∧ sk = sink_at seq0 n'.
Proof.
  induction p as [r0|d k IH]; cbn; intros n s r sk s' Hat.
  - intros [= <- <- <-]. exists n. split; [done|]. split; [|done]. by apply (grew_quiet n s s).
  - destruct (Emit _ _ _ _ _ _) as [[answer sk1] s1] eqn:He. apply Emit_spec in He as (n1 & Hat1 & Hg1 & ->); [|done].
    intros Hrun. apply IH in Hrun as (n2 & Hat2 & Hg2 & ->); [|done].
    exists n2. split; [done|]. split; [by eapply grew_trans|done].
Qed.
End attempt.

(** ** The steps of an attempt *)

Section steps.
Context {env : Environment} {limits : Limits} {a : AttemptRequest} {seq0 : Z}.
Abbreviation emits := (emits limits a seq0).
(** The sink is the one of the moment. *)
Definition tracks (sk : draftSink) (n : Z) : Prop := sk = sink_at seq0 n.

Lemma emits_bind {A B} P (m : Exec A) Q (k : A → Exec B) R :
  emits P m Q → (∀ x, emits (Q x) (k x) R) → emits P (m ≫= k) R.
Proof.
  intros Hm Hk n s r s' Hat HP. unfold mbind, exec_bind. destruct (m s) as [[x|e] s1] eqn:Em.
  - destruct (Hm _ _ _ _ Hat HP Em) as (n1 & Hat1 & Hg1 & HQ). intros H.
    destruct (Hk x n1 s1 r s' Hat1 (HQ x eq_refl) H) as (n2 & Hat2 & Hg2 & HR).
    exists n2. split; [done|]. split; [by eapply grew_trans|done].
  - intros [= <- <-]. destruct (Hm _ _ _ _ Hat HP Em) as (n1 & Hat1 & Hg1 & _). by exists n1.
Qed.
Lemma emits_pre {A} (P P' : Z → Prop) (m : Exec A) Q : (∀ n, P' n → P n) → emits P m Q → emits P' m Q.
Proof. intros HP Hm n s r s' Hat HP'. by apply Hm, HP. Qed.
Lemma emits_post {A} P (m : Exec A) (Q Q' : A → Z → Prop) : (∀ x n, Q x n → Q' x n) → emits P m Q → emits P m Q'.
Proof. intros HQ Hm n s r s' Hat HP E. destruct (Hm n s r s' Hat HP E) as (n' & ? & ? & H). exists n'. naive_solver. Qed.
Lemma emits_ret {A} (P : Z → Prop) (Q : A → Z → Prop) x : (∀ n, P n → Q x n) → emits P (mret x) Q.
Proof.
  intros HQ n s r s' Hat HP [= <- <-]. exists n. split; [done|]. split; [by apply (grew_quiet limits a seq0 n s s)|].
  intros ? [= <-]. auto.
Qed.
(** A step that takes nothing. *)
Lemma emits_quiet {A} P (m : Exec A) (Q : A → Z → Prop) :
  (∀ n s r s', P n → m s = (r, s') → xs_seq s' = xs_seq s ∧ xs_result s' = xs_result s
     ∧ events (xs_trace s') = events (xs_trace s) ∧ ∀ x, r = Ok x → Q x n) → emits P m Q.
Proof.
  intros Hm n s r s' Hat HP E. destruct (Hm n s r s' HP E) as (E1 & E2 & E3 & HQ). exists n.
  by destruct (grew_quiet limits a seq0 n s s' Hat E1 E2 E3).
Qed.
Lemma emits_poll (P : Z → Prop) code stage attempt path : emits P (poll env code stage attempt path) (λ _, P).
Proof. apply emits_quiet. intros n s r s' HP [= <- <-]. split_and!; try done. Qed.
Lemma emits_checked (P : Z → Prop) c : emits P (checked c) (λ _ n, P n ∧ c = Ok ()).
Proof. apply emits_quiet. intros n s r s' HP [= <- <-]. split_and!; try done. by intros [] ->. Qed.
Lemma emits_call_script sk script wrap :
  emits (tracks sk) (call_script env limits a sk script wrap) (λ r, tracks r.2).
Proof.
  intros n s r s' Hat -> E. unfold call_script in E. destruct (asked_quiet limits a seq0 n s Hat) as [Hat1 Hg1].
  destruct (run_script _ _ _ _ _ _) as [[r1 sk1] s1] eqn:Hrun.
  apply run_script_spec in Hrun as (n1 & Hat2 & Hg2 & ->); [|done].
  assert (grew limits a seq0 n s n1 s1) by by eapply grew_trans.
  exists n1. destruct r1 as [o|err]; injection E as <- <-; (split; [done|split; [done|]]); [by intros ? [= <-]|done].
Qed.
Lemma emits_call_emit sk d : emits (tracks sk) (call_emit env limits a sk d) tracks.
Proof.
  intros n s r s' Hat -> E. unfold call_emit in E. destruct (Emit _ _ _ _ _ _) as [[answer sk1] s1] eqn:He.
  apply Emit_spec in He as (n1 & Hat1 & Hg1 & ->); [|done]. exists n1.
  destruct answer; injection E as <- <-; (split; [done|split; [done|]]); [done|by intros ? [= <-]].
Qed.
Lemma emits_abort {A} hooks P (m : Exec A) Q : emits P m Q → emits P (abort_on_error hooks a m) Q.
Proof.
  intros Hm n s r s' Hat HP E. unfold abort_on_error in E. destruct (m s) as [[x|e] s1] eqn:Em; injection E as <- <-.
  - by apply (Hm n s).
  - destruct (Hm n s _ _ Hat HP Em) as (n1 & Hat1 & Hg1 & _). exists n1. unfold aborted.
    destruct hooks; [|done]. destruct (acted_quiet limits a seq0 n1 s1 (Aborted a) eq_refl Hat1) as [Hat2 Hg2].
    split; [done|]. split; [by eapply grew_trans|done].
Qed.
Lemma emits_before hooks P : emits P (before_hook hooks a) (λ _, P).
Proof.
  apply emits_quiet. intros n s r s' HP E. unfold before_hook in E. destruct hooks as [h|]; [|by injection E as <- <-].
  destruct (BeforeAttempt _ _ _); injection E as <- <-; cbn; rewrite events_snoc; cbn; by rewrite app_nil_r.
Qed.

(** An outcome that was reported and is valid. *)
Definition valid_outcome (o : AttemptOutcome) : Prop := validateOutcome o (ar_ScenarioTimeoutMillis a) = Ok ().
Definition reports (r : AttemptOutcome * draftSink) (n : Z) : Prop := tracks r.2 n ∧ valid_outcome r.1.

Lemma emits_validated hooks sk script wrap :
  emits (tracks sk) (abort_on_error hooks a
    (r ← call_script env limits a sk script wrap; checked (validateOutcome r.1 (ar_ScenarioTimeoutMillis a)) ;; mret r)) reports.
Proof.
  apply emits_abort. eapply emits_bind; [apply emits_call_script|]. intros r.
  eapply emits_bind; [apply emits_checked|]. intros []. apply emits_ret. done.
Qed.
Lemma emits_after hooks o sk : emits (reports (o, sk)) (after_hook env limits hooks a o sk) reports.
Proof.
  destruct hooks as [h|]; cbn.
  - intros n s r s' Hat [Htr Hv] E. cbn in *.
    assert (emits (tracks sk) (r ← abort_on_error (Some h) a (call_script env limits a sk (λ n, AfterAttempt h n a o) (λ err, wrapHookError err "after" a));
      checked (validateOutcome r.1 (ar_ScenarioTimeoutMillis a)) ;; mret r) reports) as Hm.
    { eapply emits_bind; [apply emits_abort, emits_call_script|]. intros x.
      eapply emits_bind; [apply emits_checked|]. intros []. apply emits_ret. done. }
    destruct (acted_quiet limits a seq0 n s (Ended a o) eq_refl Hat) as [Hat1 Hg1].
    destruct (Hm n _ r s' Hat1 Htr E) as (n' & Hat2 & Hg2 & HQ). exists n'. split; [done|]. split; [by eapply grew_trans|done].
  - apply (emits_ret (reports (o, sk)) reports (o, sk)). done.
Qed.

(** The result of an attempt tells its outcome and counts its events. *)
Definition counted (r : AttemptResult) (n : Z) : Prop := ∃ o, valid_outcome o ∧ r = attemptResult a o (sink_at seq0 n).
Definition starts (n : Z) : Prop := n = 0.

Lemma emits_result o sk : emits (reports (o, sk)) (mret (attemptResult a o sk)) counted.
Proof. apply emits_ret. intros n [Htr Hv]. exists o. split; [done|]. by rewrite <- Htr. Qed.

Lemma executeAttempt_emits : emits starts (executeAttempt env limits a) counted.
Proof.
  eapply emits_bind; [apply emits_poll|]. intros [].
  eapply emits_bind; [eapply emits_pre; [|apply (emits_call_script newSink)]; by intros n ->|]. intros [o sk].
  eapply emits_bind; [apply emits_checked|]. intros []. apply emits_result.
Qed.
Lemma executeAttemptWithHooks_emits hooks : emits starts (executeAttemptWithHooks env limits hooks a) counted.
Proof.
  eapply emits_bind; [apply emits_poll|]. intros [].
  eapply emits_bind; [apply emits_before|]. intros [].
  eapply emits_bind; [apply emits_abort; eapply emits_pre; [|apply (emits_call_emit newSink)]; by intros n ->|]. intros sk.
  eapply emits_bind; [apply emits_validated|]. intros [o sk1].
  eapply emits_bind; [apply emits_after|]. intros [o2 sk2].
  intros n s r s' Hat [Htr Hv] E.
  assert (emits (tracks sk2) (sk ← call_emit env limits a sk2 (completedDraft a o2); mret (attemptResult a o2 sk)) counted) as Hm.
  { eapply emits_bind; [apply emits_call_emit|]. intros sk'. apply emits_ret. intros m ->. by exists o2. }
  by apply (Hm n s).
Qed.
End steps.

(** ** The attempts of a plan *)

Definition requestOf (doc : RunPlan) (digest : Digest) (ordinal : Z) (x : RevisionPlan * ScenarioPlan * Z) : AttemptRequest :=
  attemptRequest doc digest ordinal x.1.1 x.1.2 x.2.
Definition tripleID (x : RevisionPlan * ScenarioPlan * Z) : string := attemptID (rvp_Kind x.1.1) (sp_ID x.1.2) x.2.

Lemma expandSteps_Ok doc digest l : ∀ n acc n' acc',
  foldR (expandStep doc digest) (n, acc) l = Ok (n', acc') →
  acc' = acc ++ imap (λ i x, requestOf doc digest (n + Z.of_nat i + 1) x) l ∧ n' = n + Z.of_nat (length l)
  ∧ (l = [] ∨ n' <= MaxAttempts) ∧ Forall (λ x, str_len (tripleID x) <= MaxAttemptIDBytes) l.
Proof.
  induction l as [|[[r s] rep] l IH]; intros n acc n' acc' H.
  { cbn in H. injection H as <- <-. rewrite app_nil_r. split_and!; [done|cbn; lia|by left|constructor]. }
  cbn [foldR] in H. destruct (expandStep doc digest (n, acc) (r, s, rep)) as [[n1 acc1]|e] eqn:Hs; [|done].
  apply reject_bind_Ok in Hs as [Hn%Z.ltb_ge Hs]. apply reject_bind_Ok in Hs as [Hid%Z.ltb_ge Hs]. injection Hs as <- <-.
  apply IH in H as (-> & -> & Hmax & Hids). split_and!.
  - rewrite <- app_assoc. cbn. f_equal. f_equal; [unfold requestOf; cbn; f_equal; lia|].
    apply imap_ext. intros i x _. cbn. unfold requestOf. f_equal. lia.
  - cbn. lia.
  - right. destruct Hmax as [->|?]; [cbn; cbn in Hn; lia|cbn in *; lia].
  - by constructor.
Qed.

(** Every repetition of every scenario, at both revisions. *)
Definition allTriples (doc : RunPlan) : list (RevisionPlan * ScenarioPlan * Z) :=
  rp_Revisions doc ≫= λ r, rp_Scenarios doc ≫= λ s, (λ rep, (r, s, rep)) <$> seqZ 1 (sp_Repetitions s).

Lemma length_bind_elem {A B} (f : A → list B) l x : x ∈ l → (length (f x) <= length (l ≫= f))%nat.
Proof.
  induction l as [|y l IH]; [by intros ?%not_elem_of_nil|]. cbn. rewrite length_app.
  intros [->|Hx]%elem_of_cons; [lia|]. specialize (IH Hx). lia.
Qed.
Lemma bind_ext_elem {A B} (f g : A → list B) l : (∀ x, x ∈ l → f x = g x) → l ≫= f = l ≫= g.
Proof.
  induction l as [|x l IH]; intros H; [done|]. cbn. rewrite (H x) by apply list_elem_of_here.
  rewrite IH; [done|]. intros y Hy. apply H. by apply list_elem_of_further.
Qed.

Lemma planTriples_all doc : Z.of_nat (length (planTriples doc)) <= MaxAttempts → planTriples doc = allTriples doc.
Proof.
  intros Hlen. unfold planTriples, allTriples. apply bind_ext_elem. intros r Hr. apply bind_ext_elem. intros s Hs.
  unfold repetitions. rewrite Z.min_l; [done|]. apply Z.nlt_ge. intros Hbig.
  assert (length ((λ rep, (r, s, rep)) <$> repetitions s) <= length (planTriples doc))%nat as H.
  { etrans; [|apply (length_bind_elem _ _ r Hr)]. by apply (length_bind_elem (λ s, (λ rep, (r, s, rep)) <$> repetitions s)). }
  rewrite length_fmap in H. unfold repetitions in H. rewrite length_seqZ, Z.min_r in H by lia. unfold MaxAttempts in *. lia.
Qed.

Lemma ExpandPlanDocument_Ok doc digest l :
  ExpandPlanDocument doc digest = Ok l →
  l = imap (λ i x, requestOf doc digest (Z.of_nat i + 1) x) (allTriples doc) ∧ Z.of_nat (length l) <= MaxAttempts
  ∧ validatePlanDocument doc = Ok () ∧ Forall (λ x, str_len (tripleID x) <= MaxAttemptIDBytes) (allTriples doc).
Proof.
  intros H. apply bind_Ok in H as ([] & Hv & H). apply bind_Ok in H as (_ & _ & H).
  apply bind_Ok in H as ([n acc] & Hf & H). injection H as <-. cbn.
  apply expandSteps_Ok in Hf as (-> & Hn & Hmax & Hids). cbn [app] in *.
  assert (Z.of_nat (length (planTriples doc)) <= MaxAttempts) as Hlen by (destruct Hmax as [->|?]; [done|lia]).
  pose proof (planTriples_all doc Hlen) as E. rewrite E in Hlen, Hids |- *. split_and!; [|by rewrite length_imap|done|done].
  apply imap_ext. intros i x _. by rewrite Z.add_0_l.
Qed.

Lemma checkScenarios_Ok n l acc m : foldR (countScenario n) acc l = Ok m → Forall (λ x, 0 < sp_Repetitions x.2) l.
Proof.
  revert acc. induction l as [|[i s] l IH]; intros acc H; [constructor|]. cbn [foldR] in H.
  destruct (countScenario n acc (i, s)) as [acc1|e] eqn:Hs; [|done]. constructor; [|by eapply IH].
  apply reject_bind_Ok in Hs as [Hc _]. unfold checkScenario in Hc. rewrite !orb_false_iff in Hc.
  destruct Hc as [_ Hr]. apply Z.leb_gt in Hr. done.
Qed.
Lemma validatePlanDocument_Ok doc :
  validatePlanDocument doc = Ok () →
  (∃ b h, rp_Revisions doc = [b; h] ∧ rvp_Kind b = RevisionKindBase ∧ rvp_Kind h = RevisionKindHead)
  ∧ Forall (λ s, 0 < sp_Repetitions s) (rp_Scenarios doc).
Proof.
  intros H. unfold validatePlanDocument in H.
  do 3 apply reject_bind_Ok in H as [_ H]. apply reject_bind_Ok in H as [Hrev H]. apply reject_bind_Ok in H as [_ H].
  apply bind_Ok in H as (_ & _ & H). apply bind_Ok in H as (m & Hs & _). split.
  - unfold revisionsBaseHead in Hrev. apply negb_false_iff in Hrev.
    destruct (rp_Revisions doc) as [|b [|h []]]; try done. exists b, h.
    apply andb_true_iff in Hrev as [?%bool_decide_eq_true ?%bool_decide_eq_true]. done.
  - apply checkScenarios_Ok in Hs. apply Forall_lookup. intros i s Hi.
    apply (Forall_lookup_1 _ _ i (i, s)) in Hs; [done|]. by rewrite list_lookup_imap, Hi.
Qed.

(** ** The whole execution *)

(** The events of an attempt are at most as many as the limit allows. *)
Definition attempt_sized (limits : Limits) (chunk : list ObservationEvent) : Prop :=
  chunk = [] ∨ Z.of_nat (length chunk) <= l_MaxEventsPerAttempt limits.

(** [ran seq l chunks results]: after [seq] events, the attempts [l] began in order;
    each that began took its chunk of events, and each that ended has its result. *)
Inductive ran (limits : Limits) : Z → list AttemptRequest → list (list ObservationEvent) → list AttemptResult → Prop :=
| ran_none seq l : ran limits seq l [] []
| ran_stopped seq a l chunk :
  chunk_of limits a seq chunk → attempt_sized limits chunk → ran limits seq (a :: l) [chunk] []
| ran_ended seq a l chunk o chunks results :
  chunk_of limits a seq chunk → attempt_sized limits chunk → valid_outcome (a := a) o →
  ran limits (seq + Z.of_nat (length chunk)) l chunks results →
  ran limits seq (a :: l) (chunk :: chunks) (attemptResult a o (sink_at seq (Z.of_nat (length chunk))) :: results).

(** The state between two attempts. *)
Record between (limits : Limits) (s : executionState) : Prop := {
  bw_pos : 0 <= xs_seq s;
  bw_execution : xs_seq s = 0 ∨ xs_seq s <= l_MaxEventsPerExecution limits;
  bw_total : xr_TotalEmittedEvents (xs_result s) = xs_seq s
}.
Definition with_results (rs : list AttemptResult) (total : Z) (r : ExecutionResult) : ExecutionResult :=
  mkExecutionResult (xr_PlanDigest r) (xr_Runner r) (xr_Complete r) (xr_Attempts r ++ rs) total (xr_Limitations r).

Section all.
Context (env : Environment) (limits : Limits) (attempt : AttemptRequest → Exec AttemptResult).
Context (Hattempt : ∀ a seq0, emits limits a seq0 starts (attempt a) (counted (a := a) (seq0 := seq0))).

Lemma executeAll_ran l : ∀ s r s',
  between limits s → executeAll env attempt l s = (r, s') →
  ∃ chunks results, ran limits (xs_seq s) l chunks results ∧ events (xs_trace s') = events (xs_trace s) ++ concat chunks
  ∧ xs_seq s' = xs_seq s + Z.of_nat (length (concat chunks)) ∧ between limits s'
  ∧ xs_result s' = with_results results (xs_seq s') (xs_result s) ∧ (r = Ok () → length results = length l).
Proof.
  induction l as [|a l IH]; intros s r s' Hs H.
  { injection H as <- <-. exists [], []. split; [constructor|]. rewrite app_nil_r. cbn. split_and!; [done|lia|done| |done].
    destruct Hs as [_ _ <-]. unfold with_results. rewrite app_nil_r. by destruct (xs_result s). }
  cbn [executeAll] in H. unfold executeOne in H.
  assert (emits limits a (xs_seq s) starts
    (poll env "run-timeout" "execute" "" (ar_AttemptID a) ;; attempt a) (counted (a := a) (seq0 := xs_seq s))) as Hone.
  { eapply emits_bind; [apply emits_poll|]. intros []. apply Hattempt. }
  assert (at_count limits (xs_seq s) 0 s) as Hat by (destruct Hs; constructor; [lia|done|done|by left|done|done]).
  destruct ((poll env "run-timeout" "execute" "" (ar_AttemptID a) ;; attempt a) s) as [r1 s1] eqn:E1.
  destruct (Hone 0 s r1 s1 Hat eq_refl E1) as (n & Hat1 & [(chunk & Ev & Hlen & Hchunk) Hres] & Hcount).
  rewrite Z.sub_0_r in Hlen. rewrite Z.add_0_r in Hchunk.
  assert (attempt_sized limits chunk) as Hsized.
  { unfold attempt_sized. rewrite Hlen. destruct (ac_attempt _ _ _ _ Hat1) as [->|?]; [left; by apply length_zero_iff_nil; lia|by right]. }
  destruct r1 as [x|e].
  - destruct (Hcount x eq_refl) as (o & Ho & ->).
    set (s2 := mkState (xs_seq s1) (with_attempt (attemptResult a o (sink_at (xs_seq s) n)) (xs_result s1)) (xs_asked s1) (xs_trace s1)).
    assert (executeAll env attempt l s2 = (r, s')) as H2.
    { rewrite <- H. unfold mbind, exec_bind in E1 |- *.
      destruct (poll _ _ _ _ _ s) as [[[]|?] s0]; [|done]. by rewrite E1. }
    assert (between limits s2) as Hs2 by (destruct Hat1; constructor; cbn; [lia|done|done]).
    destruct (IH s2 r s' Hs2 H2) as (chunks & results & Hran & Ev2 & Hseq & Hbw & Hres2 & Hall).
    change (xs_trace s2) with (xs_trace s1) in Ev2. change (xs_seq s2) with (xs_seq s1) in Hran, Hseq.
    exists (chunk :: chunks), (attemptResult a o (sink_at (xs_seq s) n) :: results).
    destruct Hat1 as [Eseq _ _ _ _ _]. split_and!.
    + rewrite <- Hlen. constructor; [done..|]. by rewrite Hlen, <- Eseq.
    + rewrite Ev2, Ev. cbn. by rewrite app_assoc.
    + cbn. rewrite length_app. lia.
    + done.
    + rewrite Hres2. cbn [s2 xs_result]. rewrite Hres. unfold with_results. cbn. by rewrite <- app_assoc.
    + intros ->. cbn. by rewrite Hall.
  - assert (r = Err e ∧ s' = s1) as [-> ->].
    { unfold mbind, exec_bind in E1, H. destruct (poll _ _ _ _ _ s) as [[[]|?] s0]; [rewrite E1 in H; by injection H as <- <-|].
      injection E1 as -> ->. by injection H as <- <-. }
    exists [chunk], []. destruct Hat1. split; [by constructor|]. cbn. rewrite app_nil_r. split_and!; [done|lia| | |done].
    + constructor; [lia|done|done].
    + rewrite Hres. unfold with_results. by rewrite app_nil_r.
Qed.
End all.

Lemma ran_numbered limits seq l chunks results :
  ran limits seq l chunks results → ∀ i e, concat chunks !! i = Some e →
  ∃ a, a ∈ l ∧ stamped limits a (seq + Z.of_nat i + 1) e.
Proof.
  induction 1 as [|seq a l chunk Hc _|seq a l chunk o chunks results Hc _ Ho _ IH]; cbn; intros i e Hi; [by rewrite lookup_nil in Hi| |].
  - rewrite app_nil_r in Hi. exists a. split; [apply list_elem_of_here|]. by apply Hc.
  - apply lookup_app_Some in Hi as [Hi|[Hlen Hi]].
    + exists a. split; [apply list_elem_of_here|]. by apply Hc.
    + destruct (IH _ _ Hi) as (b & Hb & Hst). exists b. split; [by apply list_elem_of_further|].
      by replace (seq + Z.of_nat i + 1) with (seq + Z.of_nat (length chunk) + Z.of_nat (i - length chunk) + 1) by lia.
Qed.

(** The two entry points. *)
Definition executes (env : Environment) (ctx : option CtxCause) (plan : option (RunPlan * Digest)) (backend : Backend)
    (requirements : Requirements) (limits : Limits) (out : ExecutionResult * option ExecutionError * list Action) : Prop :=
  ExecutePlan env ctx plan backend requirements limits = out
  ∨ ∃ hooks, ExecutePlanWithHooks hooks env ctx plan backend requirements limits = out.

Record executed (requirements : Requirements) (limits : Limits) (plan : option (RunPlan * Digest)) (backend : Backend)
    (res : ExecutionResult) (err : option ExecutionError) (trace : list Action)
    (doc : RunPlan) (digest : Digest) (attempts : list AttemptRequest) (caps : RunnerCapabilities)
    (chunks : list (list ObservationEvent)) : Prop := {
  ex_plan : plan = Some (doc, digest);
  ex_limits : validateLimits limits = Ok ();
  ex_expanded : ExpandPlanDocument doc digest = Ok attempts;
  ex_count : Z.of_nat (length attempts) <= l_MaxAttempts limits;
  ex_capabilities : bk_Capabilities backend = Some caps;
  ex_matched : matchedCapabilities requirements limits caps = Ok ();
  ex_ran : ran limits 0 attempts chunks (xr_Attempts res);
  ex_events : events trace = concat chunks;
  ex_total : xr_TotalEmittedEvents res = Z.of_nat (length (concat chunks));
  ex_bound : xr_TotalEmittedEvents res = 0 ∨ xr_TotalEmittedEvents res <= l_MaxEventsPerExecution limits;
  ex_digest : xr_PlanDigest res = digest;
  ex_runner : xr_Runner res = caps;
  ex_complete : if err is Some _ then xr_Complete res = false else xr_Complete res = true ∧ length (xr_Attempts res) = length attempts
}.

(** An execution did nothing, or is one of the attempts of its plan. *)
Lemma executes_cases env ctx plan backend requirements limits res err trace :
  executes env ctx plan backend requirements limits (res, err, trace) →
  (is_Some err ∧ trace = [] ∧ res = zeroResult)
  ∨ ∃ doc digest attempts caps chunks, executed requirements limits plan backend res err trace doc digest attempts caps chunks.
Proof.
  intros H. assert (∃ attempt, (∀ a seq0, emits limits a seq0 starts (attempt env limits a) (counted (a := a) (seq0 := seq0)))
    ∧ execute attempt env ctx plan backend requirements limits = (res, err, trace)) as (attempt & Hattempt & E).
  { destruct H as [H|[hooks H]]; eexists; (split; [|exact H]); intros a seq0; [apply executeAttempt_emits|apply executeAttemptWithHooks_emits]. }
  clear H. unfold execute in E. destruct (admitted _ _ _ _ _) as [[[[doc digest] attempts] caps]|e] eqn:Hadm;
    [|injection E as <- <- <-; left; eauto].
  destruct (match bk_ValidatePlan backend with Some _ => _ | None => _ end); [injection E as <- <- <-; left; eauto|]. right.
  apply bind_Ok in Hadm as (_ & _ & Hadm). destruct plan as [[doc0 digest0]|]; [|done].
  apply bind_Ok in Hadm as ([] & Hlim & Hadm). apply bind_Ok in Hadm as (_ & _ & Hadm). apply bind_Ok in Hadm as ([] & Hv & Hadm).
  apply bind_Ok in Hadm as (attempts0 & Hexp & Hadm). apply reject_bind_Ok in Hadm as [Hcount%Z.ltb_ge Hadm].
  destruct (bk_Capabilities backend) as [caps0|] eqn:Hcaps; [|done]. apply bind_Ok in Hadm as ([] & Hm & Hadm).
  apply Ok_inj in Hadm. injection Hadm as -> -> -> ->.
  destruct (executeAll _ _ _ _) as [r s] eqn:Hall.
  assert (between limits (initialState digest caps)) as Hb0 by (constructor; cbn; [lia|by left|done]).
  destruct (executeAll_ran env limits (attempt env limits) Hattempt attempts _ _ _ Hb0 Hall)
    as (chunks & results & Hran & Hev & Hseq & [_ Hb _] & Hres & Hdone).
  cbn in Hran, Hev, Hseq. assert (ExpandPlanDocument doc digest = Ok attempts) as Hx by (unfold ExpandPlanDocument; by rewrite Hv).
  exists doc, digest, attempts, caps, chunks.
  destruct r as [[]|e]; injection E as <- <- <-; constructor; cbn; rewrite ?Hres; cbn; try done; try lia.
  split; [done|]. by apply Hdone.
Qed.

(** ** Properties *)

Lemma attemptID_inj r1 s1 n1 r2 s2 n2 :
  r1 ∈ [RevisionKindBase; RevisionKindHead] → r2 ∈ [RevisionKindBase; RevisionKindHead] → 0 <= n1 → 0 <= n2 →
  attemptID r1 s1 n1 = attemptID r2 s2 n2 → r1 = r2 ∧ s1 = s2 ∧ n1 = n2.
Proof.
  intros Hr1%elem_of_two Hr2%elem_of_two Hn1 Hn2 H. unfold attemptID in H. apply (f_equal to_bytes) in H.
  rewrite !to_bytes_app in H. apply app_inv_head in H.
  assert (∀ r, r = RevisionKindBase ∨ r = RevisionKindHead → length (to_bytes r) = 4%nat) as Hlen by by intros r [->| ->].
  apply app_inj_1 in H as [Hr H]; [|rewrite !Hlen by done; done]. apply to_bytes_inj in Hr as ->. apply app_inv_head in H.
  change (to_bytes "-r") with ([byte_of 45] ++ [byte_of 114]) in H. rewrite <- !app_assoc, !(assoc_L (++) _ [byte_of 45]) in H. cbn [app] in H.
  assert (∀ n, 0 <= n → byte_of 114 ∉ to_bytes (fmt_d n)) as Hno.
  { intros n Hn Hin. pose proof (fmt_d_digits n Hn) as Hd. rewrite Forall_forall in Hd. specialize (Hd _ Hin).
    unfold is_digit in Hd. assert (byte_val (byte_of 114) = 114) as E by reflexivity. lia. }
  apply not_elem_of_app_cons_inv_r in H as (H1 & _ & H2); [|by apply Hno..].
  apply to_bytes_inj, fmt_d_inj in H2 as ->. apply app_inj_2 in H1 as [H1 _]; [|done]. apply to_bytes_inj in H1 as ->. done.
Qed.

Lemma NoDup_bind_disjoint {A B} (f : A → list B) l :
  NoDup l → (∀ x, x ∈ l → NoDup (f x)) → (∀ x y b, x ∈ l → y ∈ l → b ∈ f x → b ∈ f y → x = y) → NoDup (l ≫= f).
Proof.
  induction l as [|x l IH]; intros Hnd Hf Hdis; [constructor|]. inversion_clear Hnd as [|? ? Hx Hl]. cbn. apply NoDup_app. split_and!.
  - apply Hf, list_elem_of_here.
  - intros b Hb (y & Hby & Hy)%list_elem_of_bind. apply Hx.
    rewrite (Hdis x y b); [done|apply list_elem_of_here|by apply list_elem_of_further|done|done].
  - apply IH; [done| |]; intros; [apply Hf|eapply Hdis]; try by apply list_elem_of_further. all: done.
Qed.

Lemma elem_of_allTriples doc r s rep :
  (r, s, rep) ∈ allTriples doc ↔ r ∈ rp_Revisions doc ∧ s ∈ rp_Scenarios doc ∧ 1 <= rep <= sp_Repetitions s.
Proof.
  unfold allTriples. rewrite list_elem_of_bind. setoid_rewrite list_elem_of_bind. setoid_rewrite list_elem_of_fmap.
  setoid_rewrite elem_of_seqZ. split.
  - intros (r' & (s' & (rep' & [= -> -> ->] & ?) & ?) & ?). split_and!; [done..|lia|lia].
  - intros (? & ? & ?). exists r. split; [|done]. exists s. split; [|done]. exists rep. split; [done|lia].
Qed.

(** Distinct scenarios make distinct attempts. *)
Lemma attempts_distinct doc digest l :
  ExpandPlanDocument doc digest = Ok l → NoDup (sp_ID <$> rp_Scenarios doc) → NoDup (ar_AttemptID <$> l).
Proof.
  intros H. destruct (ExpandPlanDocument_Ok _ _ _ H) as (-> & Hlen & Hv & _).
  intros Hnd. destruct (validatePlanDocument_Ok doc Hv) as [(b & h & Hrev & Hb & Hh) Hreps].
  assert (NoDup (rp_Revisions doc)) as Hnr.
  { rewrite Hrev. apply NoDup_cons_2; [intros E%list_elem_of_singleton; rewrite E, Hh in Hb; discriminate Hb|apply NoDup_singleton]. }
  assert (ar_AttemptID <$> imap (λ i x, requestOf doc digest (Z.of_nat i + 1) x) (allTriples doc) = tripleID <$> allTriples doc) as ->.
  { apply list_eq. intros i. rewrite !list_lookup_fmap, list_lookup_imap. by destruct (allTriples doc !! i). }
  apply (NoDup_fmap_via id tripleID); [|rewrite list_fmap_id].
  - intros [[r1 s1] n1] [[r2 s2] n2] (Hr1 & Hs1 & Hn1)%elem_of_allTriples (Hr2 & Hs2 & Hn2)%elem_of_allTriples E. cbn.
    rewrite Hrev in Hr1, Hr2.
    assert (∀ r, r ∈ [b; h] → rvp_Kind r ∈ [RevisionKindBase; RevisionKindHead]) as Hkind
      by (intros r [->| ->]%elem_of_two; [rewrite Hb|rewrite Hh]; set_solver).
    unfold tripleID in E. cbn in E. apply attemptID_inj in E as (Er & Es & ->); [|by apply Hkind|by apply Hkind|lia|lia].
    assert (r1 = r2) as -> by (apply elem_of_two in Hr1 as [->| ->]; apply elem_of_two in Hr2 as [->| ->]; try done; rewrite Hb, Hh in Er; discriminate Er).
    apply list_elem_of_lookup in Hs1 as [i1 Hi1], Hs2 as [i2 Hi2].
    assert (i1 = i2) as -> by (eapply (NoDup_lookup (sp_ID <$> rp_Scenarios doc)); [done|rewrite list_lookup_fmap, Hi1; cbn; by rewrite Es|by rewrite list_lookup_fmap, Hi2]).
    congruence.
  - apply NoDup_bind_disjoint; [done| |].
    + intros r _. apply NoDup_bind_disjoint.
      * by eapply NoDup_fmap_1.
      * intros s _. apply NoDup_fmap; [by intros ? ? [= ->]|apply NoDup_seqZ].
      * intros s1 s2 t _ _ (? & -> & _)%list_elem_of_fmap (? & [= ->] & _)%list_elem_of_fmap. done.
    + intros r1 r2 t _ _ (? & (? & -> & _)%list_elem_of_fmap & _)%list_elem_of_bind (? & (? & [= ->] & _)%list_elem_of_fmap & _)%list_elem_of_bind.
      done.
Qed.

(** The attempts of a plan are its base and head revisions, its scenarios in
    order and their repetitions from 1 on, numbered from 1; there are at most
    [MaxAttempts], and when the scenarios have distinct identities so have the
    attempts. *)
Theorem expand_exact doc digest l :
  ExpandPlanDocument doc digest = Ok l →
  l = imap (λ i x, requestOf doc digest (Z.of_nat i + 1) x) (allTriples doc) ∧ Z.of_nat (length l) <= MaxAttempts ∧
  (∀ r s rep, (r, s, rep) ∈ allTriples doc ↔ r ∈ rp_Revisions doc ∧ s ∈ rp_Scenarios doc ∧ 1 <= rep <= sp_Repetitions s) ∧
  (NoDup (sp_ID <$> rp_Scenarios doc) → NoDup (ar_AttemptID <$> l)).
Proof.
  intros H. destruct (ExpandPlanDocument_Ok _ _ _ H) as (-> & Hlen & Hv & _). split_and!; [done..|apply elem_of_allTriples|by eapply attempts_distinct].
Qed.

(** C14: the events of an execution.  However backend, hooks, sink and deadlines
    answer, the events that the sink took are numbered from 1 without a gap, each
    with the identity that its number gives it; each is stamped with the run and
    with an attempt of the plan, on a draft whose source is known, whose one
    payload is the one of its kind, and whose encoding is within the limit. *)
Theorem execution_numbered env ctx plan backend requirements limits res err trace :
  executes env ctx plan backend requirements limits (res, err, trace) →
  ∀ i e, events trace !! i = Some e →
  ∃ doc digest attempts a, plan = Some (doc, digest) ∧ ExpandPlanDocument doc digest = Ok attempts ∧ a ∈ attempts
  ∧ oe_SequenceNumber e = Z.of_nat i + 1 ∧ oe_ID e = eventID (ar_PlanDigest a) (ar_RunID a) (Z.of_nat i + 1)
  ∧ stamped limits a (Z.of_nat i + 1) e.
Proof.
  intros H i e Hi. apply executes_cases in H as [(_ & -> & _)|(doc & digest & attempts & caps & chunks & H)]; [change (events []) with (@nil ObservationEvent) in Hi; by rewrite lookup_nil in Hi|].
  destruct H. rewrite ex_events0 in Hi. destruct (ran_numbered _ _ _ _ _ ex_ran0 i e Hi) as (a & Ha & Hst).
  rewrite Z.add_0_l in Hst. exists doc, digest, attempts, a. split_and!; try done; by destruct Hst as (d & size & -> & _).
Qed.

(** C24: the result of an execution.  An execution that was not refused took its
    events attempt by attempt, in the order of the plan; each attempt that ended
    has a result with a valid outcome, and with the numbers of its first and last
    event and their count, all zero when it has none.  It is complete exactly when
    it returns without an error, and then every attempt has its result. *)
Theorem execution_exact env ctx plan backend requirements limits res err trace :
  executes env ctx plan backend requirements limits (res, err, trace) → trace <> [] ∨ err = None →
  ∃ doc digest attempts chunks, plan = Some (doc, digest) ∧ ExpandPlanDocument doc digest = Ok attempts
  ∧ events trace = concat chunks ∧ ran limits 0 attempts chunks (xr_Attempts res)
  ∧ xr_TotalEmittedEvents res = Z.of_nat (length (events trace))
  ∧ (xr_TotalEmittedEvents res = 0 ∨ xr_TotalEmittedEvents res <= l_MaxEventsPerExecution limits)
  ∧ (xr_Complete res = true ↔ err = None) ∧ (err = None → length (xr_Attempts res) = length attempts).
Proof.
  intros H Hdid. apply executes_cases in H as [([e ->] & -> & _)|(doc & digest & attempts & caps & chunks & H)]; [by destruct Hdid|].
  destruct H. exists doc, digest, attempts, chunks. rewrite ex_events0. split_and!; try done.
  - destruct err as [e|]; [|naive_solver]. rewrite ex_complete0. done.
  - intros ->. by destruct ex_complete0.
Qed.

Lemma matched_nothing req caps m l :
  omap (λ '(bad, m), if (bad : bool) then Some m else None) (capabilityChecks req caps) = l → take (Z.to_nat MaxCapabilityMismatches) l = [] →
  (true, m) ∉ capabilityChecks req caps.
Proof.
  intros <- H Hin. assert (m ∈ omap (λ '(bad, m), if (bad : bool) then Some m else None) (capabilityChecks req caps)) as Hm
    by (apply list_elem_of_omap; exists (true, m); done).
  destruct (omap _ _) as [|x l]; [by apply not_elem_of_nil in Hm|done].
Qed.

(** A backend only works when it has what was asked.  When anything of an
    execution reached the sink or the hooks, or it returned without an error, the
    backend said that it has an allowed isolation tier and every capability that
    the requirements ask for; for a workload, that it executes target code and
    that its evidence is not synthetic; for a synthetic test, the opposite. *)
Theorem executed_as_required env ctx plan backend requirements limits res err trace :
  executes env ctx plan backend requirements limits (res, err, trace) → trace <> [] ∨ err = None →
  ∃ caps, bk_Capabilities backend = Some caps ∧ xr_Runner res = caps
  ∧ rc_IsolationTier caps ∈ rq_AllowedIsolationTiers requirements
  ∧ (rq_Intent requirements = ExecutionIntentWorkload → rc_ExecutesTargetCode caps = true ∧ rc_SyntheticEvidence caps = false)
  ∧ (rq_Intent requirements = ExecutionIntentSyntheticTest → rc_ExecutesTargetCode caps = false ∧ rc_SyntheticEvidence caps = true)
  ∧ (rq_NetworkDenyEnforcementRequired requirements = true → rc_EnforcesNetworkDeny caps = true)
  ∧ (rq_FreshKernelRequired requirements = true → rc_FreshKernel caps = true)
  ∧ (rc_IsolationTier caps = IsolationTierFake → rc_ExecutesTargetCode caps = false).
Proof.
  intros H Hdid. apply executes_cases in H as [([e ->] & -> & _)|(doc & digest & attempts & caps & chunks & H)]; [by destruct Hdid|].
  destruct H as [_ _ _ _ Hcaps Hmatch _ _ _ _ _ Hrun _]. exists caps. split; [done|]. split; [done|].
  unfold matchedCapabilities in Hmatch. apply reject_bind_Ok in Hmatch as [_ H]. apply bind_Ok in H as (ms & Hms & H).
  apply reject_bind_Ok in H as [_ H]. destruct ms as [|m ms]; [clear H|done].
  apply bind_Ok in Hms as (_ & _ & Hms). apply bind_Ok in Hms as ([] & Hvalid & Hms). apply Ok_inj in Hms.
  assert (∀ bad m, (bad, m) ∈ capabilityChecks requirements caps → bad = false) as Hno.
  { intros [] m Hin; [|done]. by destruct (matched_nothing requirements caps m _ eq_refl Hms). }
  unfold capabilityChecks in Hno. repeat setoid_rewrite elem_of_cons in Hno.
  split_and!.
  - assert (negb (bool_decide (rc_IsolationTier caps ∈ rq_AllowedIsolationTiers requirements)) = false) as F
      by (eapply Hno; do 2 right; left; reflexivity). by apply negb_false_iff, bool_decide_eq_true in F.
  - intros E. assert ((rq_Intent requirements == ExecutionIntentWorkload) && (negb (rc_ExecutesTargetCode caps) || rc_SyntheticEvidence caps) = false) as F
      by (eapply Hno; left; reflexivity).
    rewrite bool_decide_true in F by done. by destruct (rc_ExecutesTargetCode caps), (rc_SyntheticEvidence caps).
  - intros E. assert ((rq_Intent requirements == ExecutionIntentSyntheticTest)
      && (rc_ExecutesTargetCode caps || negb (rc_SyntheticEvidence caps) || negb (rq_SyntheticEvidenceAllowed requirements)) = false) as F
      by (eapply Hno; right; left; reflexivity).
    rewrite bool_decide_true in F by done. by destruct (rc_ExecutesTargetCode caps), (rc_SyntheticEvidence caps).
  - intros E. assert (rq_NetworkDenyEnforcementRequired requirements && negb (rc_EnforcesNetworkDeny caps) = false) as F
      by (eapply Hno; do 5 right; left; reflexivity). rewrite E in F. by destruct (rc_EnforcesNetworkDeny caps).
  - intros E. assert (rq_FreshKernelRequired requirements && negb (rc_FreshKernel caps) = false) as F
      by (eapply Hno; do 12 right; left; reflexivity). rewrite E in F. by destruct (rc_FreshKernel caps).
  - intros E. do 3 apply reject_bind_Ok in Hvalid as [_ Hvalid]. apply reject_bind_Ok in Hvalid as [F _].
    rewrite bool_decide_true in F by done. done.
Qed.
