(* ===== verification/RunnerEx.v ===== *)
(** * A worked execution

    A plan of one scenario with two repetitions, a backend that reports two
    processes in every attempt, and a sink that refuses one event. *)

From stdpp Require Import prelude strings list_numbers.
From Stdlib Require Import ZArith Lia Ascii.
From S2P Require Import Prelude GoStd Sha256 Framing GoTime Model Json GoText Event Runner RunnerSpec.
Local Open Scope Z_scope.

Definition ex_commit (kind : RevisionKind) (c : ascii) : CommitRef :=
  mkCommitRef kind "repo" "main" (of_bytes (replicate 40 c)) GitObjectFormatSHA1 (of_bytes (replicate 40 "t"%char)) "".
Definition ex_revision (kind : RevisionKind) (c : ascii) : RevisionPlan :=
  mkRevisionPlan kind (ex_commit kind c) GitObjectFormatSHA1 (of_bytes (replicate 40 c)) "sha256:tree" "sha256:manifest" None [] ["build"%string].
Definition ex_resources : ResourceLimits := mkResourceLimits 1 60000 1000000 1000000 0 10.
Definition ex_scenario : ScenarioPlan :=
  mkScenarioPlan "build" "Build" "sh" "make" 2 (mkCommand ["make"%string] "/work" [] 60000) ex_resources (mkNetworkPolicy NetworkModeDeny []) [].
(** Midnight of 2024-01-01. *)
Definition ex_created : Time := 1704067200 * second.
Definition ex_doc : RunPlan :=
  mkRunPlan SchemaVersionRunPlanV1Alpha1 "plan-1" "run-1" ex_created "pipeline" None
    (Some (mkRunPlanEnvironment "image@sha256:00" "sha256:00" "/work"))
    (ex_commit RevisionKindBase "a"%char) (ex_commit RevisionKindHead "b"%char)
    [ex_revision RevisionKindBase "a"%char; ex_revision RevisionKindHead "b"%char] [ex_scenario]
    zeroCapabilities ex_resources (mkNetworkPolicy NetworkModeDeny []) []
    (Some (mkCollectionPlan ["/work/out"%string] "hash" [] 65536))
    (Some (mkComparisonPlan ["event.timestamp"; "process.pid"]%string 2)) None None [].
Definition ex_digest : Digest := "sha256:" +:+ of_bytes (replicate 64 "0"%char).

Definition ex_capabilities : RunnerCapabilities :=
  mkRunnerCapabilities "docker" "1" IsolationTierDevelopmentOnly false false true false true true true false false false.
Definition ex_backend : Backend := mkBackend (Some ex_capabilities) None.
Definition ex_requirements : Requirements :=
  mkRequirements ExecutionIntentWorkload [IsolationTierDevelopmentOnly] true false true false true false false false false false.

Definition ex_process (pid : Z) (parent : option Z) (exe : string) : ProcessObservation :=
  mkProcessObservation "exec" pid parent exe [exe] [] None None None 0.
Definition ex_draft (pid : Z) (parent : option Z) (exe : string) (after : Z) : EventDraft :=
  mkEventDraft (ex_created + after * second) ObservationSourceHostObserved ObservationKindProcessStart
    (Some (ex_process pid parent exe)) None None None None None None.
Definition ex_outcome : AttemptOutcome := mkAttemptOutcome AttemptStatusSucceeded (Some 0) 1500 [].
(** Reports a process and its child, and pays no attention to the answers. *)
Definition ex_script (pid : Z) : Script :=
  EmitDraft (ex_draft pid None "/work/make" 1) (λ _, EmitDraft (ex_draft (pid + 1) (Some pid) "/usr/bin/cc" 2) (λ _, Finish (Ok ex_outcome))).
(** The environment: no deadline, a sink that refuses what [refuse] says. *)
Definition ex_env (refuse : ObservationEvent → bool) : Environment :=
  mkEnvironment (λ _, None) (λ _ e, if refuse e then Some None else None)
    (λ n _, ex_script (100 * Z.of_nat n)).

Definition ex_run (refuse : ObservationEvent → bool) :=
  ExecutePlanWithHooks None (ex_env refuse) None (Some (ex_doc, ex_digest)) ex_backend ex_requirements Runner.DefaultLimits.
Definition ex_out := ex_run (λ _, false).

Example ex_summary :
  ((λ r, (res_AttemptID r, res_FirstAcceptedSequence r, res_LastAcceptedSequence r, res_AcceptedEventCount r)) <$> xr_Attempts ex_out.1.1,
   xr_Complete ex_out.1.1, ex_out.1.2) =
  ([("att-base-build-r1", 1, 4, 4); ("att-base-build-r2", 5, 8, 4); ("att-head-build-r1", 9, 12, 4); ("att-head-build-r2", 13, 16, 4)]%string,
   true, None).
Proof. vm_compute. reflexivity. Qed.

(** A sink that refuses the first report of the compiler: the backend goes on, and so
    does the execution, which is reported complete without that event. *)
Definition ex_refuse (e : ObservationEvent) : bool :=
  (option_map po_ExecutablePath (oe_Process e) == Some "/usr/bin/cc"%string) && (oe_SequenceNumber e == 3).
Definition ex_lossy := ex_run ex_refuse.
Example refused_event_is_lost :
  (xr_Complete ex_lossy.1.1, ex_lossy.1.2, length (xr_Attempts ex_lossy.1.1)) = (true, None, 4%nat) ∧
  (λ r, res_AcceptedEventCount r) <$> xr_Attempts ex_lossy.1.1 = [3; 4; 4; 4].
Proof. vm_compute. split; reflexivity. Qed.

(** ** The laws on this execution *)

Lemma triple_eta {A B C} (x : A * B * C) : x = (x.1.1, x.1.2, x.2).
Proof. by destruct x as [[]]. Qed.
Lemma ex_executes : executes (ex_env (λ _, false)) None (Some (ex_doc, ex_digest)) ex_backend ex_requirements Runner.DefaultLimits
  (ex_out.1.1, ex_out.1.2, ex_out.2).
Proof. right. exists None. exact (triple_eta ex_out). Qed.
Lemma ex_no_error : ex_out.1.2 = None.
Proof. vm_compute. reflexivity. Qed.

Definition ex_attempts : list AttemptRequest := match ExpandPlanDocument ex_doc ex_digest with Ok l => l | Err _ => [] end.
Lemma ex_expand : ExpandPlanDocument ex_doc ex_digest = Ok ex_attempts.
Proof. vm_compute. reflexivity. Qed.
Lemma expand_exact_witness : length ex_attempts = 4%nat ∧ NoDup (ar_AttemptID <$> ex_attempts).
Proof.
  split; [vm_compute; reflexivity|].
  destruct (expand_exact ex_doc ex_digest ex_attempts ex_expand) as (_ & _ & _ & H). apply H. apply NoDup_singleton.
Defined.

Lemma execution_numbered_witness : ∃ e, events ex_out.2 !! 2%nat = Some e ∧ oe_SequenceNumber e = 3.
Proof.
  destruct (events ex_out.2 !! 2%nat) as [e|] eqn:E; [|exfalso; revert E; vm_compute; discriminate].
  exists e. split; [reflexivity|].
  destruct (execution_numbered _ _ _ _ _ _ _ _ _ ex_executes 2%nat e E) as (_ & _ & _ & _ & _ & _ & _ & H & _). exact H.
Defined.

Lemma execution_exact_witness : xr_TotalEmittedEvents ex_out.1.1 = Z.of_nat (length (events ex_out.2)) ∧ xr_Complete ex_out.1.1 = true.
Proof.
  destruct (execution_exact _ _ _ _ _ _ _ _ _ ex_executes (or_intror ex_no_error)) as (_ & _ & _ & _ & _ & _ & _ & _ & H1 & _ & H2 & _).
  split; [exact H1|]. exact (proj2 H2 ex_no_error).
Defined.

Lemma executed_as_required_witness : rc_EnforcesNetworkDeny (xr_Runner ex_out.1.1) = true.
Proof.
  destruct (executed_as_required _ _ _ _ _ _ _ _ _ ex_executes (or_intror ex_no_error)) as (caps & _ & E & _ & _ & _ & H & _).
  rewrite E. exact (H eq_refl).
Defined.
