(* ===== verification/Evidence.v ===== *)
(** * Evidence bundles: the data ([internal/evidence/types.go], [reader_types.go])

    What a verified bundle tells its readers.  Reading a bundle from a directory
    and verifying it is outside the model: a [Bundle] is what verification left,
    with the events that a walk over it visits. *)

From stdpp Require Import prelude gmap strings.
From Stdlib Require Import ZArith.
From S2P Require Import Prelude GoStd Model Event.
Local Open Scope Z_scope.

Abbreviation CaptureState := string.
Definition CaptureStateNotProvided : CaptureState := "not-provided".
Definition CaptureStateCapturedEmpty : CaptureState := "captured-empty".
Definition CaptureStateCaptured : CaptureState := "captured".
Definition CaptureStateTruncated : CaptureState := "truncated".
Definition CaptureStateFailed : CaptureState := "failed".
Definition CaptureStateOmittedLimit : CaptureState := "omitted-limit".

Abbreviation EntryRole := string.

Abbreviation ArtifactDisposition := string.
Definition ArtifactDispositionStored : ArtifactDisposition := "stored".
Definition ArtifactDispositionOmittedLimit : ArtifactDisposition := "omitted-limit".
Definition ArtifactDispositionOmittedSymlink : ArtifactDisposition := "omitted-symlink".
Definition ArtifactDispositionOmittedSpecial : ArtifactDisposition := "omitted-special".
Definition ArtifactDispositionFailed : ArtifactDisposition := "failed".

Record AttemptKey := mkAttemptKey { ak_Revision : RevisionKind; ak_ScenarioID : string; ak_Repetition : Z }.
#[global] Instance AttemptKey_eq_dec : EqDecision AttemptKey.
Proof. solve_decision. Defined.
#[global] Instance AttemptKey_countable : Countable AttemptKey.
Proof.
  apply (inj_countable' (λ k, (ak_Revision k, ak_ScenarioID k, ak_Repetition k)) (λ '(r, s, n), mkAttemptKey r s n)). by intros [].
Defined.

Record FailureRecord := mkFailureRecord {
  fr_Code : string;
  fr_Stage : string;
  fr_AttemptID : string;
  fr_Message : string;
  fr_Category : string
}.

Record ManifestEntry := mkManifestEntry {
  me_Path : string;
  me_Role : EntryRole;
  me_MediaType : string;
  me_Digest : Digest;
  me_SizeBytes : Z;
  me_Revision : RevisionKind;
  me_ScenarioID : string;
  me_Repetition : Z;
  me_CaptureState : CaptureState;
  me_Truncated : bool;
  me_Omitted : bool;
  me_ObservedBytes : Z;
  me_ObservedBytesAtLeast : Z
}.

Record AttemptManifest := mkAttemptManifest {
  am_AttemptID : string;
  am_Ordinal : Z;
  am_Revision : RevisionKind;
  am_ScenarioID : string;
  am_Repetition : Z;
  am_Directory : string;
  am_Events : CaptureState;
  am_Stdout : CaptureState;
  am_Stderr : CaptureState;
  am_Artifacts : CaptureState;
  am_Result : CaptureState;
  am_FirstEventSequence : Z;
  am_LastEventSequence : Z;
  am_AcceptedEventCount : Z
}.

Record ArtifactRecord := mkArtifactRecord {
  arr_LogicalPath : string;
  arr_Attempt : AttemptKey;
  arr_Disposition : ArtifactDisposition;
  arr_Digest : Digest;
  arr_StoredSizeBytes : Z;
  arr_DeclaredSize : option Z;
  arr_ObservedAtLeast : Z;
  arr_ObjectPath : string;
  arr_MediaType : string;
  arr_Executable : bool;
  arr_SourceMode : Z;
  arr_Limitations : list Limitation
}.

Record Manifest := mkManifest {
  mf_SchemaVersion : SchemaVersion;
  mf_ID : string;
  mf_RunID : string;
  mf_CreatedAt : Time;
  mf_BundleFormatVersion : string;
  mf_PlanDigest : Digest;
  mf_ExecutionComplete : bool;
  mf_EvidenceComplete : bool;
  mf_BundleTransactionValid : bool;
  mf_Entries : list ManifestEntry;
  mf_Artifacts : list ArtifactRecord;
  mf_Attempts : list AttemptManifest;
  mf_Limitations : list Limitation;
  mf_Failure : option FailureRecord
}.

Record AttemptExecutionSummary := mkAttemptExecutionSummary {
  aes_AttemptID : string;
  aes_Revision : RevisionKind;
  aes_ScenarioID : string;
  aes_Repetition : Z;
  aes_TargetOutcome : string;
  aes_ExitCode : option Z;
  aes_DurationMillis : Z;
  aes_FirstAcceptedSequence : Z;
  aes_LastAcceptedSequence : Z;
  aes_AcceptedEventCount : Z;
  aes_Limitations : list Limitation
}.

Record ExecutionDocument := mkExecutionDocument {
  xd_SchemaVersion : SchemaVersion;
  xd_RunID : string;
  xd_PlanDigest : Digest;
  xd_Runner : RunnerCapabilities;
  xd_ExecutionComplete : bool;
  xd_EvidenceComplete : bool;
  xd_BundleTransactionValid : bool;
  xd_TotalAcceptedEvents : Z;
  xd_Attempts : list AttemptExecutionSummary;
  xd_Limitations : list Limitation;
  xd_Failure : option FailureRecord
}.

Abbreviation VerificationMode := string.
Definition VerificationModeInternalConsistencyOnly : VerificationMode := "internal-consistency-only".
Definition VerificationModeExpectedManifestDigest : VerificationMode := "expected-manifest-digest".

Record VerificationSummary := mkVerificationSummary {
  vs_Mode : VerificationMode;
  vs_ManifestDigest : Digest;
  vs_ExpectedManifestDigestSupplied : bool;
  vs_ExpectedManifestDigestMatched : bool;
  vs_InternallyConsistent : bool;
  vs_Limitations : list Limitation
}.

Record VerifiedAttempt := mkVerifiedAttempt {
  va_AttemptID : string;
  va_Ordinal : Z;
  va_Revision : RevisionKind;
  va_ScenarioID : string;
  va_Repetition : Z;
  va_Directory : string;
  va_Events : CaptureState;
  va_Stdout : CaptureState;
  va_Stderr : CaptureState;
  va_Artifacts : CaptureState;
  va_Result : CaptureState;
  va_FirstEventSequence : Z;
  va_LastEventSequence : Z;
  va_AcceptedEventCount : Z
}.

Record VerifiedEntryReference := mkVerifiedEntryReference {
  ver_Path : string;
  ver_Digest : Digest;
  ver_SizeBytes : Z;
  ver_Role : EntryRole;
  ver_CaptureState : CaptureState;
  ver_Attempt : AttemptKey
}.

(** The code of an error of the package. *)
Abbreviation EvidenceError := string.
Definition CodeInvalidSessionState : EvidenceError := "invalid-session-state".
Definition CodeInvalidAttempt : EvidenceError := "invalid-attempt".

(** A bundle; [b_events] are the events that a walk visits, in its order, and
    [b_walk_end] is the error, if any, that ends the walk after them. *)
Record Bundle := mkBundle {
  b_closed : bool;
  b_manifest : Manifest;
  b_manifestDigest : Digest;
  b_plan : RunPlan;
  b_execution : ExecutionDocument;
  b_attempts : list VerifiedAttempt;
  b_verification : VerificationSummary;
  b_eventsByAttempt : gmap AttemptKey ManifestEntry;
  b_events : list ObservationEvent;
  b_walk_end : option EvidenceError
}.

Definition EventStreamReference (b : Bundle) (attempt : AttemptKey) : result EvidenceError VerifiedEntryReference :=
  if b_closed b then Err CodeInvalidSessionState
  else match b_eventsByAttempt b !! attempt with
       | None => Err CodeInvalidAttempt
       | Some e => Ok (mkVerifiedEntryReference (me_Path e) (me_Digest e) (me_SizeBytes e) (me_Role e) (me_CaptureState e) attempt)
       end.
