(* ===== verification/Normalize.v ===== *)
(** * The normalizer ([internal/observe])

    A verified bundle becomes a trace document: for every attempt its coverage and
    its typed facts, one for each of its events, with paths under the trusted
    roots, processes named by their lineage and times relative to their source.
    The Go maps of an attempt are [gmap]s; the states of the attempts are kept by
    attempt identity, as the code keeps them.  Clones that only copy are left out;
    the clone of a document through its JSON text replaces what is not UTF-8. *)

From stdpp Require Import prelude gmap strings list_numbers.
From Stdlib Require Import ZArith Lia.
From S2P Require Import Prelude GoStd Sha256 Framing GoTime Model Json GoText GoPath Event Runner Evidence Observe.
Local Open Scope Z_scope.

(** ** [errors.go] *)

Record NormalizeError := mkNormalizeError { ne_Code : string; ne_Stage : string; ne_Attempt : string; ne_Field : string }.
Definition errCode (code stage attempt field : string) : NormalizeError := mkNormalizeError code stage attempt field.
Definition contextErr (c : CtxCause) : NormalizeError :=
  match c with
  | DeadlineExceeded => errCode "normalization-timeout" "context" "" "deadline"
  | Canceled => errCode "context-cancelled" "context" "" "cancelled"
  end.
Definition poll (ctx : Context) (n : nat) : result NormalizeError unit :=
  match ctx n with None => Ok () | Some c => Err (contextErr c) end.

(** The rest of the text after a [break] is not looked at, but that there is one
    adds an ellipsis when there is room for a byte. *)
Definition ellipsis : bytes := [byte_of 226; byte_of 128; byte_of 166].
Definition sanitized_rune (r : option Z * bytes) : bytes * nat :=
  match r with
  | (None, b) => (to_bytes "\x" ++ (to_bytes (hex_encode b)), 6%nat)
  | (Some v, b) => if (v <? 32) || (v == 127) then (to_bytes "\u00" ++ to_bytes (hex_encode b), 6%nat) else (b, length b)
  end.
Fixpoint sanitize_loop (max : nat) (acc : bytes) (l : list (option Z * bytes)) : bytes * list (option Z * bytes) :=
  match l with
  | [] => (acc, [])
  | r :: l' =>
    if decide (max <= length acc)%nat then (acc, l)
    else let '(b, room) := sanitized_rune r in
         if decide (max < length acc + room)%nat then (acc, l) else sanitize_loop max (acc ++ b) l'
  end.
Definition sanitize (s : string) (max : nat) : string :=
  let max := if decide (max = 0%nat) then 256%nat else max in
  let '(b, rest) := sanitize_loop max [] (runes (to_bytes s)) in
  of_bytes (b ++ (if decide (rest <> [] ∧ length b + 1 <= max)%nat then ellipsis else [])).

(** ** [limits.go] *)

Definition MaxAttempts : Z := 1280.
Definition MaxFactsPerAttempt : Z := 10000.
Definition MaxFactsPerTraceSet : Z := 100000.
Definition MaxEvidenceRefsPerFact : Z := 16.
Definition MaxEvidenceRefsTotal : Z := 200000.
Definition MaxProcessGenerationsPerAttempt : Z := 10000.
Definition MaxActiveProcessesPerAttempt : Z := 10000.
Definition MaxNormalizedStringBytes : Z := 64 * 1024.
Definition MaxNormalizedArgumentsPerProcess : Z := 4096.
Definition MaxNormalizedArgumentBytes : Z := 256 * 1024.
Definition MaxPathRoots : Z := 32.
Definition MaxLimitationsPerAttempt : Z := 1000.
Definition MaxLimitationsTotal : Z := 10000.

Record Limits := mkLimits {
  l_MaxAttempts : Z;
  l_MaxFactsPerAttempt : Z;
  l_MaxFactsPerTraceSet : Z;
  l_MaxEvidenceRefsPerFact : Z;
  l_MaxEvidenceRefsTotal : Z;
  l_MaxProcessGenerationsPerAttempt : Z;
  l_MaxActiveProcessesPerAttempt : Z;
  l_MaxNormalizedStringBytes : Z;
  l_MaxNormalizedArguments : Z;
  l_MaxNormalizedArgumentBytes : Z;
  l_MaxPathRoots : Z;
  l_MaxLimitationsPerAttempt : Z;
  l_MaxLimitationsTotal : Z
}.
Definition DefaultLimits : Limits :=
  mkLimits MaxAttempts MaxFactsPerAttempt MaxFactsPerTraceSet MaxEvidenceRefsPerFact MaxEvidenceRefsTotal
    MaxProcessGenerationsPerAttempt MaxActiveProcessesPerAttempt MaxNormalizedStringBytes MaxNormalizedArgumentsPerProcess
    MaxNormalizedArgumentBytes MaxPathRoots MaxLimitationsPerAttempt MaxLimitationsTotal.
Definition limitChecks (l : Limits) : list (Z * Z * string) :=
  [(l_MaxAttempts l, MaxAttempts, "maxAttempts"%string);
   (l_MaxFactsPerAttempt l, MaxFactsPerAttempt, "maxFactsPerAttempt"%string);
   (l_MaxFactsPerTraceSet l, MaxFactsPerTraceSet, "maxFactsPerTraceSet"%string);
   (l_MaxEvidenceRefsPerFact l, MaxEvidenceRefsPerFact, "maxEvidenceRefsPerFact"%string);
   (l_MaxEvidenceRefsTotal l, MaxEvidenceRefsTotal, "maxEvidenceRefsTotal"%string);
   (l_MaxProcessGenerationsPerAttempt l, MaxProcessGenerationsPerAttempt, "maxProcessGenerations"%string);
   (l_MaxActiveProcessesPerAttempt l, MaxActiveProcessesPerAttempt, "maxActiveProcesses"%string);
   (l_MaxNormalizedStringBytes l, MaxNormalizedStringBytes, "maxStringBytes"%string);
   (l_MaxNormalizedArguments l, MaxNormalizedArgumentsPerProcess, "maxArguments"%string);
   (l_MaxNormalizedArgumentBytes l, MaxNormalizedArgumentBytes, "maxArgumentBytes"%string);
   (l_MaxPathRoots l, MaxPathRoots, "maxPathRoots"%string);
   (l_MaxLimitationsPerAttempt l, MaxLimitationsPerAttempt, "maxAttemptLimitations"%string);
   (l_MaxLimitationsTotal l, MaxLimitationsTotal, "maxLimitations"%string)].
#[global] Instance Limits_eq_dec : EqDecision Limits.
Proof. solve_decision. Defined.
Definition validateLimits (l : Limits) : result NormalizeError unit :=
  reject_if (l == mkLimits 0 0 0 0 0 0 0 0 0 0 0 0 0) (errCode "invalid-limits" "limits" "" "zero") ;;
  foldR (λ _ '(v, max, name), reject_if ((v <=? 0) || (max <? v)) (errCode "invalid-limits" "limits" "" name)) () (limitChecks l).

(** ** [profile.go] *)

Definition ProcessIdentityAlgorithmV1 : string := "glassroot.dev/normalized-process-id/v1".
Definition TimestampAlgorithmV1 : string := "glassroot.dev/source-relative-timestamp/v1".
Definition PathRootAlgorithmV1 : string := "glassroot.dev/rooted-posix-path/v1".
Definition IgnoreFieldEventTimestamp : string := "event.timestamp".
Definition IgnoreFieldProcessPID : string := "process.pid".

Definition validateProfile (p : NormalizationProfile) : result NormalizeError unit :=
  reject_if ((nzp_Version p != ProfileVersionV1Alpha1) || (nzp_ProcessIdentityAlgorithm p != ProcessIdentityAlgorithmV1)
             || (nzp_TimestampAlgorithm p != TimestampAlgorithmV1) || (nzp_PathRootAlgorithm p != PathRootAlgorithmV1))
    (errCode "invalid-normalization-profile" "profile" "" "version") ;;
  foldR (λ _ f, reject_if ((f != IgnoreFieldEventTimestamp) && (f != IgnoreFieldProcessPID))
    (errCode "unsupported-ignore-field" "profile" "" f)) () (nzp_IgnoreFields p) ;;
  reject_if (MaxPathRoots <? Z.of_nat (length (nzp_RootAliases p))) (errCode "invalid-normalization-profile" "profile" "" "rootAliases").

Definition workdirAlias (plan : RunPlan) : list PathRootAlias :=
  match rp_ExecutionEnvironment plan with
  | Some e => if rpe_Workdir e != ""%string then [mkPathRootAlias PathNamespaceWorkdirRoot 0 (rpe_Workdir e) "@workdir"] else []
  | None => []
  end.
(** A collection root that was not seen yet gets the next index. *)
Definition addRoot (acc : list PathRootAlias * list string * Z) (root : string) : list PathRootAlias * list string * Z :=
  let '(aliases, seen, idx) := acc in
  if bool_decide (root ∈ seen) then acc
  else (aliases ++ [mkPathRootAlias PathNamespaceCollectionRoot idx root ("@root" +:+ fmt_d idx)], root :: seen, idx + 1).
Definition rootAliases (plan : RunPlan) : list PathRootAlias :=
  let work := workdirAlias plan in
  (foldl addRoot (work, pra_Root <$> work, 1) (from_option clp_FilesystemRoots [] (rp_Collection plan))).1.1.
Definition profileFromPlan (plan : RunPlan) : result NormalizeError NormalizationProfile :=
  let p := mkNormalizationProfile ProfileVersionV1Alpha1 (from_option cmp_IgnoreFields [] (rp_Comparison plan))
             ProcessIdentityAlgorithmV1 TimestampAlgorithmV1 PathRootAlgorithmV1 (rootAliases plan) in
  validateProfile p ;; mret p.
Definition includeTiming (p : NormalizationProfile) : bool := negb (bool_decide (IgnoreFieldEventTimestamp ∈ nzp_IgnoreFields p)).

Definition limitation_less (a b : Limitation) : bool :=
  if lim_ID a != lim_ID b then String.ltb (lim_ID a) (lim_ID b)
  else if lim_Summary a != lim_Summary b then String.ltb (lim_Summary a) (lim_Summary b)
  else String.ltb (lim_Details a) (lim_Details b).
Definition sortLimitations (l : list Limitation) : list Limitation := stable_sort limitation_less l.

(** ** [path.go] *)

Definition contains_control (s : string) : bool := existsb (λ r, (r <? 32) || (r == 127)) (rune_values s).
Definition rootMatch (value root : string) : bool :=
  if (root == ""%string) || negb (has_prefix "/" root) then false
  else (value == root) || has_prefix (root +:+ "/") value.
Definition alias_less (a b : PathRootAlias) : bool :=
  if str_len (pra_Root a) != str_len (pra_Root b) then str_len (pra_Root b) <? str_len (pra_Root a)
  else if pra_Namespace a != pra_Namespace b then pra_Namespace a == PathNamespaceWorkdirRoot
  else pra_RootIndex a <? pra_RootIndex b.
(** [strings.TrimPrefix(s, "/")] *)
Definition trim_slash (s : string) : string := if has_prefix "/" s then str_drop 1 s else s.
Definition relativeTo (value root : string) : string :=
  if value == root then ""%string else trim_slash (str_drop (String.length root) value).
Definition underRoot (value : string) (r : PathRootAlias) : NormalizedPath :=
  let rel := relativeTo value (pra_Root r) in
  mkNormalizedPath (pra_Namespace r) (pra_RootIndex r) rel value
    (if rel != ""%string then pra_Alias r +:+ "/" +:+ rel else pra_Alias r).
Definition invalidPath (value : string) : NormalizedPath := mkNormalizedPath PathNamespaceOpaqueInvalid 0 "" value "<invalid>".
Definition normalizeObservedPath (value : string) (roots : list PathRootAlias) : NormalizedPath :=
  if (value == ""%string) || negb (utf8_valid (to_bytes value)) || contains NUL value || contains "\" value || contains_control value
  then invalidPath value
  else if has_prefix "/" value then
    match List.find (λ r, rootMatch value (pra_Root r)) (stable_sort alias_less roots) with
    | Some r => underRoot value r
    | None => mkNormalizedPath PathNamespaceAbsoluteUnmapped 0 "" value value
    end
  else if (of_bytes (path_clean (to_bytes value)) != value) || has_prefix "../" value || (value == ".."%string)
  then invalidPath value
  else mkNormalizedPath PathNamespaceRelative 0 value value value.

(** ** [digest.go] *)

Definition semanticDigestDomain : string := "glassroot.dev/normalized-observation/v1" +:+ NUL.
Definition factIDDomain : string := "glassroot.dev/normalized-fact-id/v1" +:+ NUL.
Definition processIDDomain : string := "glassroot.dev/normalized-process-id/v1" +:+ NUL.

Definition writePath (p : NormalizedPath) : bytes :=
  writeString (nzpath_Namespace p) ++ writeU64 (nzpath_RootIndex p) ++ writeString (nzpath_Relative p)
  ++ (if (nzpath_Namespace p == PathNamespaceWorkdirRoot) || (nzpath_Namespace p == PathNamespaceCollectionRoot)
      then writeString "" else writeString (nzpath_Literal p))
  ++ writeString (nzpath_Display p).
Definition writeLimitation (l : Limitation) : bytes := writeString (lim_ID l) ++ writeString (lim_Summary l) ++ writeString (lim_Details l).
Definition writeLimitations (l : list Limitation) : bytes := writeU64 (Z.of_nat (length l)) ++ (l ≫= writeLimitation).
Definition writeEnvEntry (e : EnvEntry) : bytes := writeString (env_Name e) ++ writeString (env_Value e).
Definition writeEnv (l : list EnvEntry) : bytes := writeU64 (Z.of_nat (length l)) ++ (l ≫= writeEnvEntry).
Definition writeOption {A} (f : A → bytes) (o : option A) : bytes :=
  match o with Some x => writeBool true ++ f x | None => writeBool false end.

Definition writeProcessFact (p : ProcessFact) : bytes :=
  writeString (pf_Operation p) ++ writeString (pf_StableID p) ++ writeString (pf_ParentStableID p) ++ writeString (pf_ParentRelation p)
  ++ writePath (pf_Executable p) ++ writeStrings (pf_Arguments p) ++ writeEnv (pf_Environment p)
  ++ writeOption writeI64 (pf_ExitCode p) ++ writeI64 (pf_DurationMillis p).
Definition writeFilesystemFact (f : FilesystemFact) : bytes :=
  writeString (ff_Operation f) ++ writePath (ff_Path f) ++ writeOption writePath (ff_OldPath f) ++ writeString (ff_Mode f)
  ++ writeDigest (ff_Digest f) ++ writeI64 (ff_SizeBytes f) ++ writeBool (ff_Executable f) ++ writeBool (ff_Truncated f).
Definition writeNetworkFact (n : NetworkFact) : bytes :=
  writeString (nf_Operation n) ++ writeString (nf_Protocol n) ++ writeString (nf_QueryName n) ++ writeString (nf_DestinationHost n)
  ++ writeI64 (nf_DestinationPort n) ++ writeStrings (nf_ResolvedAddresses n) ++ writeString (nf_Result n) ++ writeI64 (nf_DurationMillis n).
Definition writeArtifactFact (a : ArtifactFact) : bytes :=
  writeString (af_Operation a) ++ writeString (af_ArtifactID a) ++ writePath (af_Path a) ++ writeDigest (af_Digest a)
  ++ writeI64 (af_SizeBytes a) ++ writeBool (af_Executable a) ++ writeStrings (af_SourceEventIDs a).
Definition writeScenarioFact (s : ScenarioFact) : bytes :=
  writeString (sf_Status s) ++ writeString (sf_Message s) ++ writeI64 (sf_DurationMillis s).
Definition writeWarningFact (w : WarningFact) : bytes :=
  writeString (wf_Code w) ++ writeString (wf_Message w) ++ writeBool (wf_Unsupported w)
  ++ writeLimitations (stable_sort (λ a b, String.ltb (lim_ID a) (lim_ID b)) (wf_Limitations w)).
Definition writeResourceFact (r : ResourceFact) : bytes :=
  writeString (rf_LimitKind r) ++ writeI64 (rf_LimitValue r) ++ writeString (rf_Unit r) ++ writeI64 (rf_ObservedValue r) ++ writeBool (rf_Exceeded r).

(** The payload that the kind of a fact calls for. *)
Definition payloadBytes (f : Fact) : result NormalizeError bytes :=
  let need {A} (w : A → bytes) (o : option A) (field : string) : result NormalizeError bytes :=
    match o with Some x => Ok (w x) | None => Err (errCode "invalid-observation-payload" "digest" "" field) end in
  let k := f_Kind f in
  if isProcessKind k then need writeProcessFact (f_Process f) "process"%string
  else if isFilesystemKind k then need writeFilesystemFact (f_Filesystem f) "filesystem"%string
  else if isNetworkKind k then need writeNetworkFact (f_Network f) "network"%string
  else if isArtifactKind k then need writeArtifactFact (f_Artifact f) "artifact"%string
  else if isScenarioKind k then need writeScenarioFact (f_Scenario f) "scenario"%string
  else if isWarningKind k then need writeWarningFact (f_Warning f) "warning"%string
  else if isResourceKind k then need writeResourceFact (f_Resource f) "resource"%string
  else Err (errCode "unsupported-observation-kind" "digest" "" k).
Definition timingBytes (t : NormalizedTiming) : bytes :=
  if nt_IncludedInSemanticDigest t then writeI64 (nt_SourceRelativeNanos t) ++ writeBool (nt_ClockRegression t) else [].
Definition semanticPreimage (version : string) (f : Fact) : result NormalizeError bytes :=
  p ← payloadBytes f;
  mret (to_bytes semanticDigestDomain ++ writeString version ++ writeString (f_Kind f) ++ writeString (f_Source f) ++ timingBytes (f_Timing f) ++ p).
Definition semanticDigest (profile : NormalizationProfile) (f : Fact) : result NormalizeError Digest :=
  p ← semanticPreimage (nzp_Version profile) f;
  mret ("sha256:" +:+ sha256_hex p).

Definition factIDPreimage (planDigest : Digest) (attemptID : string) (semantic : Digest) (eventIDs : list string) : bytes :=
  to_bytes factIDDomain ++ writeDigest planDigest ++ writeString attemptID ++ writeDigest semantic ++ writeStrings eventIDs.
Definition factID (planDigest : Digest) (attemptID : string) (semantic : Digest) (eventIDs : list string) : FactID :=
  "fact-" +:+ sha256_hex (factIDPreimage planDigest attemptID semantic eventIDs).
Definition processIDPreimage (parts : list string) : bytes := to_bytes processIDDomain ++ (parts ≫= writeString).
Definition processID (parts : list string) : ProcessID := "proc-" +:+ sha256_hex (processIDPreimage parts).

(** ** [process.go] *)

(** [fmt.Sprint] of a slice of strings, and of a slice of entries *)
Fixpoint join_space (l : list string) : string :=
  match l with [] => "" | [x] => x | x :: l => x +:+ " " +:+ join_space l end.
Definition print_strings (l : list string) : string := "[" +:+ join_space l +:+ "]".
Definition print_env (l : list EnvEntry) : string := print_strings ((λ e, "{" +:+ env_Name e +:+ " " +:+ env_Value e +:+ "}") <$> l).

Record processGeneration := mkGeneration { pg_stable : ProcessID; pg_parent : ProcessID; pg_parentRelation : string }.
Record processNamespace := mkNamespace {
  pn_active : gmap Z processGeneration;
  pn_occurrence : gmap string Z;
  pn_generations : Z
}.
Definition emptyNamespace : processNamespace := mkNamespace ∅ ∅ 0.
Record timeNamespace := mkTimeNamespace { tn_origin : Z; tn_last : Z }.

Record attemptState := mkAttemptState {
  as_profile : NormalizationProfile;
  as_attemptID : string;
  as_attemptKey : RawEvidenceReference;
  as_limits : Limits;
  as_process : gmap ObservationSource processNamespace;
  as_time : gmap ObservationSource timeNamespace
}.
Definition newAttemptState (profile : NormalizationProfile) (attemptID : string) (ref : RawEvidenceReference) (limits : Limits) : attemptState :=
  mkAttemptState profile attemptID ref limits ∅ ∅.
Definition with_process (src : ObservationSource) (ns : processNamespace) (s : attemptState) : attemptState :=
  mkAttemptState (as_profile s) (as_attemptID s) (as_attemptKey s) (as_limits s) (<[src := ns]> (as_process s)) (as_time s).
Definition with_time (src : ObservationSource) (ns : timeNamespace) (s : attemptState) : attemptState :=
  mkAttemptState (as_profile s) (as_attemptID s) (as_attemptKey s) (as_limits s) (as_process s) (<[src := ns]> (as_time s)).
(** [s.ns(src)] *)
Definition namespaceOf (s : attemptState) (src : ObservationSource) : processNamespace := default emptyNamespace (as_process s !! src).

Definition limitation (id summary : string) : Limitation := mkLimitation id summary "".

Definition normalizeTiming (s : attemptState) (e : ObservationEvent) : NormalizedTiming * list Limitation * attemptState :=
  let tn := wrap64 (oe_ObservedAt e) in
  let ns := default (mkTimeNamespace tn tn) (as_time s !! oe_Source e) in
  let rel := wrap64 (tn - tn_origin ns) in
  let regression := tn <? tn_last ns in
  (mkNormalizedTiming rel (includeTiming (as_profile s)) regression,
   if regression then [limitation "clock-regression" "Observation timestamp moved backward within one source clock."] else [],
   with_time (oe_Source e) (mkTimeNamespace (tn_origin ns) tn) s).

(** The parent of a starting process: its identity, the relation, a limitation. *)
Definition parentOf (active : gmap Z processGeneration) (parent : option Z) : ProcessID * string * list Limitation :=
  match parent with
  | Some ppid =>
    if ppid == 0 then (""%string, "root"%string, [])
    else match active !! ppid with
         | Some g => (pg_stable g, "known-parent"%string, [])
         | None => ("proc-unresolved-parent"%string, "unresolved-parent"%string,
             [limitation "unresolved-parent" "A process start referenced a parent PID without an active generation."])
         end
  | None => (""%string, "root"%string, [])
  end.
(** What is said of a starting process, besides how often it was said. *)
Definition startSeed (src : ObservationSource) (parentID relation : string) (exe : NormalizedPath) (p : ProcessObservation) : string :=
  src +:+ NUL +:+ parentID +:+ NUL +:+ relation +:+ NUL +:+ nzpath_Display exe +:+ NUL +:+ print_strings (po_Arguments p)
  +:+ NUL +:+ print_env (po_Environment p).
Definition startParts (src : ObservationSource) (parentID relation : string) (exe : NormalizedPath) (p : ProcessObservation) (occ : Z) : list string :=
  [src; parentID; relation; nzpath_Display exe; print_strings (po_Arguments p); print_env (po_Environment p); fmt_d occ].

Definition processStart (s : attemptState) (src : ObservationSource) (p : ProcessObservation) :
    result NormalizeError (ProcessFact * list Limitation * attemptState) :=
  let ns := namespaceOf s src in
  let reuse := match pn_active ns !! po_ProcessID p with
               | Some _ => [limitation "active-pid-reuse" "A process start reused an active PID within one observer source."]
               | None => []
               end in
  let '(parentID, relation, lim) := parentOf (pn_active ns) (po_ParentProcessID p) in
  let exe := normalizeObservedPath (po_ExecutablePath p) (nzp_RootAliases (as_profile s)) in
  let seed := startSeed src parentID relation exe p in
  let occ := default 0 (pn_occurrence ns !! seed) + 1 in
  let generations := pn_generations ns + 1 in
  reject_if ((l_MaxProcessGenerationsPerAttempt (as_limits s) <? generations)
             || (l_MaxActiveProcessesPerAttempt (as_limits s) <? Z.of_nat (size (pn_active ns)) + 1))
    (errCode "process-limit" "process" (as_attemptID s) "count") ;;
  let stable := processID (startParts src parentID relation exe p occ) in
  mret (mkProcessFact (po_Operation p) stable parentID relation exe (po_Arguments p) (po_Environment p) (po_ExitCode p) (po_DurationMillis p),
        reuse ++ lim,
        with_process src (mkNamespace (<[po_ProcessID p := mkGeneration stable parentID relation]> (pn_active ns))
                                      (<[seed := occ]> (pn_occurrence ns)) generations) s).

Definition unresolvedActor : processGeneration := mkGeneration "proc-unresolved-actor" "" "unresolved-actor".
Definition processExit (s : attemptState) (src : ObservationSource) (p : ProcessObservation) : ProcessFact * list Limitation * attemptState :=
  let ns := namespaceOf s src in
  let found := pn_active ns !! po_ProcessID p in
  let gen := default unresolvedActor found in
  (mkProcessFact (po_Operation p) (pg_stable gen) (pg_parent gen) (pg_parentRelation gen)
     (normalizeObservedPath (po_ExecutablePath p) (nzp_RootAliases (as_profile s))) (po_Arguments p) (po_Environment p) (po_ExitCode p)
     (po_DurationMillis p),
   match found with
   | Some _ => []
   | None => [limitation "unresolved-actor" "A process exit referenced a PID without an active generation."]
   end,
   with_process src (mkNamespace (delete (po_ProcessID p) (pn_active ns)) (pn_occurrence ns) (pn_generations ns)) s).

(** ** [normalizer.go] *)

Definition coverageFromAttempt (a : VerifiedAttempt) (m : Manifest) : CoverageState :=
  if (va_Result a == CaptureStateNotProvided) || ((va_AcceptedEventCount a == 0) && negb (mf_ExecutionComplete m)) then CoverageIncomplete
  else if va_Result a == CaptureStateFailed then CoverageIncomplete
  else CoverageComplete.

Definition ofAttempt (a : VerifiedAttempt) (r : ArtifactRecord) : bool :=
  arr_Attempt r == mkAttemptKey (va_Revision a) (va_ScenarioID a) (va_Repetition a).
Definition attemptLimitations (a : VerifiedAttempt) (m : Manifest) : list Limitation :=
  (if va_Stdout a == CaptureStateTruncated then [limitation "stdout-truncated" "stdout capture was truncated."] else [])
  ++ (if va_Stderr a == CaptureStateTruncated then [limitation "stderr-truncated" "stderr capture was truncated."] else [])
  ++ (if va_Artifacts a == CaptureStateOmittedLimit
      then [limitation "artifact-omitted" "at least one artifact was omitted due to capture limits."] else [])
  ++ omap (λ r, if ofAttempt a r && (arr_Disposition r != ArtifactDispositionStored)
                then Some (mkLimitation ("artifact-" +:+ arr_Disposition r) "artifact capture was not stored completely."
                             (sanitize (arr_LogicalPath r) 160))
                else None) (mf_Artifacts m).

Definition validateSource (s : ObservationSource) : result NormalizeError unit :=
  reject_if (negb (knownObservationSource s)) (errCode "invalid-observation-source" "event" "" s).
Definition event_payloads (e : ObservationEvent) : list bool :=
  [is_some (oe_Process e); is_some (oe_Filesystem e); is_some (oe_Network e); is_some (oe_Artifact e);
   is_some (oe_Scenario e); is_some (oe_ObserverWarning e); is_some (oe_ResourceLimit e)].
Definition supportedKind (k : ObservationKind) : bool :=
  isProcessKind k || isFilesystemKind k || isNetworkKind k || isArtifactKind k || isScenarioKind k || isWarningKind k || isResourceKind k.
Definition validateKindPayload (e : ObservationEvent) : result NormalizeError unit :=
  let k := oe_Kind e in
  let missing field := errCode "invalid-observation-payload" "event" "" field in
  reject_if (negb (supportedKind k)) (errCode "unsupported-observation-kind" "event" "" k) ;;
  reject_if (bool_decide (length (filter (λ b, b = true) (event_payloads e)) <> 1%nat)) (missing k) ;;
  if isProcessKind k then reject_if (negb (is_some (oe_Process e))) (missing "process"%string)
  else if isFilesystemKind k then reject_if (negb (is_some (oe_Filesystem e))) (missing "filesystem"%string)
  else if isNetworkKind k then reject_if (negb (is_some (oe_Network e))) (missing "network"%string)
  else if isArtifactKind k then reject_if (negb (is_some (oe_Artifact e))) (missing "artifact"%string)
  else if isScenarioKind k then reject_if (negb (is_some (oe_Scenario e))) (missing "scenario"%string)
  else if isWarningKind k then reject_if (negb (is_some (oe_ObserverWarning e))) (missing "warning"%string)
  else if isResourceKind k then reject_if (negb (is_some (oe_ResourceLimit e))) (missing "resource"%string)
  else Ok ().

Definition filesystemFact (roots : list PathRootAlias) (f : FilesystemObservation) : FilesystemFact :=
  mkFilesystemFact (fo_Operation f) (normalizeObservedPath (fo_Path f) roots)
    (if fo_OldPath f != ""%string then Some (normalizeObservedPath (fo_OldPath f) roots) else None)
    (fo_Mode f) (fo_Digest f) (fo_SizeBytes f) (fo_Executable f) (fo_Truncated f).
Definition networkFact (n : NetworkObservation) : NetworkFact :=
  mkNetworkFact (no_Operation n) (no_Protocol n) (no_QueryName n) (no_DestinationHost n) (no_DestinationPort n)
    (no_ResolvedAddresses n) (no_Result n) (no_DurationMillis n).
Definition artifactFact (roots : list PathRootAlias) (a : ArtifactObservation) : ArtifactFact :=
  mkArtifactFact (Event.ao_Operation a) (ao_ArtifactID a) (normalizeObservedPath (ao_Path a) roots) (ao_Digest a) (ao_SizeBytes a)
    (ao_Executable a) (ao_SourceEventIDs a).
Definition scenarioFact (s : ScenarioObservation) : ScenarioFact := mkScenarioFact (so_Status s) (so_Message s) (so_DurationMillis s).
Definition warningFact (w : ObserverWarningObservation) : WarningFact :=
  mkWarningFact (wo_Code w) (wo_Message w) (wo_Unsupported w) (wo_Limitations w).
Definition warningLimitations (w : ObserverWarningObservation) : list Limitation :=
  if wo_Unsupported w then [limitation "unsupported-observation" "An observer reported unsupported observation data."] else [].
Definition resourceFact (r : ResourceLimitObservation) : ResourceFact :=
  mkResourceFact (ro_LimitKind r) (ro_LimitValue r) (ro_Unit r) (ro_ObservedValue r) (ro_Exceeded r).

(** The fact of an event, before its limitations are sorted and it is digested.  A
    payload that the kind asks for is there, as [validateKindPayload] saw; the code
    would panic without it. *)
Definition typedFact (s : attemptState) (e : ObservationEvent) (ref : RawEvidenceReference) :
    result NormalizeError (Fact * attemptState) :=
  let '(timing, tlim, s) := normalizeTiming s e in
  let roots := nzp_RootAliases (as_profile s) in
  let k := oe_Kind e in
  let missing field := Err (errCode "invalid-observation-payload" "process" (as_attemptID s) field) in
  let fact p f n a sc w r lim := mkFact "" "" k (oe_Source e) timing p f n a sc w r [ref] (tlim ++ lim) in
  if k == ObservationKindProcessStart then
    match oe_Process e with
    | None => missing "process"%string
    | Some p => '(pf, lim, s) ← processStart s (oe_Source e) p; mret (fact (Some pf) None None None None None None lim, s)
    end
  else if k == ObservationKindProcessExit then
    match oe_Process e with
    | None => missing "process"%string
    | Some p => let '(pf, lim, s) := processExit s (oe_Source e) p in mret (fact (Some pf) None None None None None None lim, s)
    end
  else if isFilesystemKind k then mret (fact None (filesystemFact roots <$> oe_Filesystem e) None None None None None [], s)
  else if isNetworkKind k then mret (fact None None (networkFact <$> oe_Network e) None None None None [], s)
  else if isArtifactKind k then mret (fact None None None (artifactFact roots <$> oe_Artifact e) None None None [], s)
  else if isScenarioKind k then mret (fact None None None None (scenarioFact <$> oe_Scenario e) None None [], s)
  else if isWarningKind k then
    mret (fact None None None None None (warningFact <$> oe_ObserverWarning e) None (from_option warningLimitations [] (oe_ObserverWarning e)), s)
  else if isResourceKind k then mret (fact None None None None None None (resourceFact <$> oe_ResourceLimit e) [], s)
  else Err (errCode "unsupported-observation-kind" "event" (as_attemptID s) k).

Definition with_limitations (l : list Limitation) (f : Fact) : Fact :=
  mkFact (f_ID f) (f_SemanticDigest f) (f_Kind f) (f_Source f) (f_Timing f) (f_Process f) (f_Filesystem f) (f_Network f) (f_Artifact f)
    (f_Scenario f) (f_Warning f) (f_Resource f) (f_Evidence f) l.
Definition with_digest (d : Digest) (f : Fact) : Fact :=
  mkFact (f_ID f) d (f_Kind f) (f_Source f) (f_Timing f) (f_Process f) (f_Filesystem f) (f_Network f) (f_Artifact f)
    (f_Scenario f) (f_Warning f) (f_Resource f) (f_Evidence f) (f_Limitations f).
Definition with_id (id : FactID) (f : Fact) : Fact :=
  mkFact id (f_SemanticDigest f) (f_Kind f) (f_Source f) (f_Timing f) (f_Process f) (f_Filesystem f) (f_Network f) (f_Artifact f)
    (f_Scenario f) (f_Warning f) (f_Resource f) (f_Evidence f) (f_Limitations f).

Definition normalizeEvent (s : attemptState) (e : ObservationEvent) (ref : RawEvidenceReference) :
    result NormalizeError (Fact * attemptState) :=
  validateSource (oe_Source e) ;;
  validateKindPayload e ;;
  '(fact, s') ← typedFact s e ref;
  let fact := with_limitations (sortLimitations (f_Limitations fact)) fact in
  d ← semanticDigest (as_profile s) fact;
  let fact := with_digest d fact in
  reject_if (l_MaxEvidenceRefsPerFact (as_limits s) <? Z.of_nat (length (f_Evidence fact)))
    (errCode "evidence-reference-limit" "event" (as_attemptID s) "evidence") ;;
  mret (fact, s').

(** [mapBundleErr]: an error of the walk's own; the errors of the visitor come
    through, inside the walk's. *)
Definition mapBundleErr (e : EvidenceError) : NormalizeError :=
  if e == CodeInvalidSessionState then errCode "bundle-closed" "bundle" "" "open" else errCode "bundle-read-failed" "bundle" "" e.

(** The state of the walk. *)
Record walkState := mkWalk {
  wk_docs : list AttemptTrace;
  wk_states : gmap string attemptState;
  wk_byID : gmap string nat;
  wk_facts : Z;
  wk_refs : Z;
  wk_prior : Z;
  wk_polls : nat
}.
Definition with_event (ref : RawEvidenceReference) (id : string) (seq : Z) : RawEvidenceReference :=
  mkRawEvidenceReference (rer_EventStreamDigest ref) (rer_EventStreamPath ref) id seq (rer_Revision ref) (rer_ScenarioID ref) (rer_Repetition ref).
Definition add_fact (f : Fact) (a : AttemptTrace) : AttemptTrace :=
  mkAttemptTrace (at_AttemptID a) (at_Ordinal a) (at_Revision a) (at_ScenarioID a) (at_Repetition a) (at_Coverage a) (at_Result a)
    (at_Events a) (at_Stdout a) (at_Stderr a) (at_Artifacts a) (at_FirstEventSequence a) (at_LastEventSequence a)
    (at_AcceptedEventCount a) (at_Facts a ++ [f]) (at_Limitations a).
Definition with_attempt_limitations (l : list Limitation) (a : AttemptTrace) : AttemptTrace :=
  mkAttemptTrace (at_AttemptID a) (at_Ordinal a) (at_Revision a) (at_ScenarioID a) (at_Repetition a) (at_Coverage a) (at_Result a)
    (at_Events a) (at_Stdout a) (at_Stderr a) (at_Artifacts a) (at_FirstEventSequence a) (at_LastEventSequence a)
    (at_AcceptedEventCount a) (at_Facts a) l.

Section normalizer.
Context (limits : Limits) (ctx : Context) (planDigest : Digest).

(** The visitor of the walk. *)
Definition visit (w : walkState) (e : ObservationEvent) : result NormalizeError walkState :=
  poll ctx (wk_polls w) ;;
  reject_if (oe_SequenceNumber e <=? 0) (errCode "event-order" "events" "" "sequence") ;;
  let seq := oe_SequenceNumber e in
  reject_if ((wk_prior w != 0) && (seq != wk_prior w + 1)) (errCode "event-order" "events" "" "sequence") ;;
  let id := attemptID (oe_Revision e) (oe_ScenarioID e) (oe_Repetition e) in
  match wk_byID w !! id, wk_states w !! id with
  | Some idx, Some st =>
    '(fact, st') ← normalizeEvent st e (with_event (as_attemptKey st) (oe_ID e) seq);
    let fact := with_id (factID planDigest id (f_SemanticDigest fact) [oe_ID e]) fact in
    let facts := wk_facts w + 1 in
    let refs := wk_refs w + Z.of_nat (length (f_Evidence fact)) in
    reject_if (l_MaxFactsPerTraceSet limits <? facts) (errCode "fact-limit" "facts" id "count") ;;
    reject_if (l_MaxEvidenceRefsTotal limits <? refs) (errCode "evidence-reference-limit" "facts" id "evidence") ;;
    mret (mkWalk (alter (add_fact fact) idx (wk_docs w)) (<[id := st']> (wk_states w)) (wk_byID w) facts refs seq (S (wk_polls w)))
  | _, _ => Err (errCode "invalid-attempt-inventory" "events" id "attempt")
  end.

Definition WalkEvents (b : Bundle) (w : walkState) : result NormalizeError walkState :=
  if b_closed b then Err (mapBundleErr CodeInvalidSessionState)
  else
    w ← foldR visit w (b_events b);
    match b_walk_end b with Some e => Err (mapBundleErr e) | None => Ok w end.
End normalizer.

Definition sameAttempt (req : AttemptRequest) (va : VerifiedAttempt) : bool :=
  (ar_AttemptID req == va_AttemptID va) && (ar_Revision req == va_Revision va) && (ar_ScenarioID req == va_ScenarioID va)
  && (ar_Repetition req == va_Repetition va) && (ar_GlobalOrdinal req == va_Ordinal va).
Definition attemptDoc (req : AttemptRequest) (va : VerifiedAttempt) (m : Manifest) : AttemptTrace :=
  mkAttemptTrace (ar_AttemptID req) (ar_GlobalOrdinal req) (ar_Revision req) (ar_ScenarioID req) (ar_Repetition req)
    (coverageFromAttempt va m) (va_Result va) (va_Events va) (va_Stdout va) (va_Stderr va) (va_Artifacts va)
    (va_FirstEventSequence va) (va_LastEventSequence va) (va_AcceptedEventCount va) [] (attemptLimitations va m).
(** One attempt of the plan against the one the bundle verified. *)
Definition enrol (limits : Limits) (profile : NormalizationProfile) (b : Bundle) (w : walkState) (x : nat * (AttemptRequest * VerifiedAttempt)) :
    result NormalizeError walkState :=
  let '(i, (req, va)) := x in
  reject_if (negb (sameAttempt req va)) (errCode "invalid-attempt-inventory" "attempts" (ar_AttemptID req) "order") ;;
  match EventStreamReference b (mkAttemptKey (ar_Revision req) (ar_ScenarioID req) (ar_Repetition req)) with
  | Err e => Err (mapBundleErr e)
  | Ok entry =>
    let ref := mkRawEvidenceReference (ver_Digest entry) (ver_Path entry) "" 0 (ar_Revision req) (ar_ScenarioID req) (ar_Repetition req) in
    mret (mkWalk (wk_docs w ++ [attemptDoc req va (b_manifest b)])
      (<[ar_AttemptID req := newAttemptState profile (ar_AttemptID req) ref limits]> (wk_states w))
      (<[ar_AttemptID req := i]> (wk_byID w)) (wk_facts w) (wk_refs w) (wk_prior w) (wk_polls w))
  end.

Definition emptyStream : Limitation :=
  limitation "empty-event-stream" "No events were present for this attempt; this is not evidence of no behavior.".
Definition closeAttempt (a : AttemptTrace) : AttemptTrace :=
  with_attempt_limitations (sortLimitations (at_Limitations a ++ (if at_Facts a is [] then [emptyStream] else []))) a.
Definition globalLimitations (b : Bundle) : list Limitation :=
  sortLimitations
    ((if vs_Mode (b_verification b) == VerificationModeInternalConsistencyOnly
      then [limitation "manifest-internal-consistency-only"
              "No independently retained expected manifest digest was supplied; verification is internal consistency only."] else [])
     ++ mf_Limitations (b_manifest b) ++ xd_Limitations (b_execution b)).
Definition manifestVerificationFromEvidence (v : VerificationSummary) : ManifestVerification :=
  mkManifestVerification (vs_Mode v) (vs_ManifestDigest v) (vs_ExpectedManifestDigestSupplied v) (vs_ExpectedManifestDigestMatched v)
    (vs_InternallyConsistent v) (vs_Limitations v).
Definition traceDocument (b : Bundle) (profile : NormalizationProfile) (attempts : list AttemptTrace) : TraceSetDocument :=
  mkTraceSetDocument TraceSetSchemaV1Alpha1 profile (mf_PlanDigest (b_manifest b)) (b_manifestDigest b) (mf_RunID (b_manifest b))
    (manifestVerificationFromEvidence (b_verification b)) (mf_ExecutionComplete (b_manifest b)) (mf_EvidenceComplete (b_manifest b))
    (mkEvidenceContext (rc_SyntheticEvidence (xd_Runner (b_execution b))) (rc_ExecutesTargetCode (xd_Runner (b_execution b))))
    attempts (globalLimitations b).

(** The document, before it is cloned. *)
Definition normalizeDocument (limits : Limits) (ctx : Context) (b : Bundle) : result NormalizeError TraceSetDocument :=
  let m := b_manifest b in
  reject_if ((mf_RunID m == ""%string) || (mf_PlanDigest m == ""%string) || (rp_RunID (b_plan b) == ""%string)
             || (xd_PlanDigest (b_execution b) != mf_PlanDigest m)) (errCode "invalid-plan" "binding" "" "plan") ;;
  reject_if (b_manifestDigest b == ""%string) (errCode "bundle-read-failed" "bundle" "" "manifestDigest") ;;
  reject_if (rp_Runner (b_plan b) != zeroCapabilities) (errCode "invalid-plan" "plan" "" "runner") ;;
  profile ← profileFromPlan (b_plan b);
  reqs ← match ExpandPlanDocument (b_plan b) (mf_PlanDigest m) with
         | Ok reqs => Ok reqs
         | Err _ => Err (errCode "invalid-plan" "plan" "" "attempts")
         end;
  reject_if (bool_decide (length reqs <> length (b_attempts b)) || (l_MaxAttempts limits <? Z.of_nat (length reqs)))
    (errCode "invalid-attempt-inventory" "attempts" "" "count") ;;
  w ← foldR (enrol limits profile b) (mkWalk [] ∅ ∅ 0 0 0 1) (imap pair (zip reqs (b_attempts b)));
  w ← WalkEvents limits ctx (mf_PlanDigest m) b w;
  mret (traceDocument b profile (closeAttempt <$> wk_docs w)).

(** *** The clone through JSON ([types.go]) *)

Definition clone_Limitation (l : Limitation) : Limitation := mkLimitation (json_text (lim_ID l)) (json_text (lim_Summary l)) (json_text (lim_Details l)).
Definition clone_EnvEntry (e : EnvEntry) : EnvEntry := mkEnvEntry (json_text (env_Name e)) (json_text (env_Value e)).
Definition clone_path (p : NormalizedPath) : NormalizedPath :=
  mkNormalizedPath (json_text (nzpath_Namespace p)) (nzpath_RootIndex p) (json_text (nzpath_Relative p)) (json_text (nzpath_Literal p))
    (json_text (nzpath_Display p)).
Definition clone_ProcessFact (p : ProcessFact) : ProcessFact :=
  mkProcessFact (json_text (pf_Operation p)) (json_text (pf_StableID p)) (json_text (pf_ParentStableID p)) (json_text (pf_ParentRelation p))
    (clone_path (pf_Executable p)) (json_text <$> pf_Arguments p) (clone_EnvEntry <$> pf_Environment p) (pf_ExitCode p) (pf_DurationMillis p).
Definition clone_FilesystemFact (f : FilesystemFact) : FilesystemFact :=
  mkFilesystemFact (json_text (ff_Operation f)) (clone_path (ff_Path f)) (clone_path <$> ff_OldPath f) (json_text (ff_Mode f))
    (json_text (ff_Digest f)) (ff_SizeBytes f) (ff_Executable f) (ff_Truncated f).
Definition clone_NetworkFact (n : NetworkFact) : NetworkFact :=
  mkNetworkFact (json_text (nf_Operation n)) (json_text (nf_Protocol n)) (json_text (nf_QueryName n)) (json_text (nf_DestinationHost n))
    (nf_DestinationPort n) (json_text <$> nf_ResolvedAddresses n) (json_text (nf_Result n)) (nf_DurationMillis n).
Definition clone_ArtifactFact (a : ArtifactFact) : ArtifactFact :=
  mkArtifactFact (json_text (af_Operation a)) (json_text (af_ArtifactID a)) (clone_path (af_Path a)) (json_text (af_Digest a)) (af_SizeBytes a)
    (af_Executable a) (json_text <$> af_SourceEventIDs a).
Definition clone_ScenarioFact (s : ScenarioFact) : ScenarioFact :=
  mkScenarioFact (json_text (sf_Status s)) (json_text (sf_Message s)) (sf_DurationMillis s).
Definition clone_WarningFact (w : WarningFact) : WarningFact :=
  mkWarningFact (json_text (wf_Code w)) (json_text (wf_Message w)) (wf_Unsupported w) (clone_Limitation <$> wf_Limitations w).
Definition clone_ResourceFact (r : ResourceFact) : ResourceFact :=
  mkResourceFact (json_text (rf_LimitKind r)) (rf_LimitValue r) (json_text (rf_Unit r)) (rf_ObservedValue r) (rf_Exceeded r).
Definition clone_reference (r : RawEvidenceReference) : RawEvidenceReference :=
  mkRawEvidenceReference (json_text (rer_EventStreamDigest r)) (json_text (rer_EventStreamPath r)) (json_text (rer_EventID r))
    (rer_EventSequence r) (json_text (rer_Revision r)) (json_text (rer_ScenarioID r)) (rer_Repetition r).
Definition clone_Fact (f : Fact) : Fact :=
  mkFact (json_text (f_ID f)) (json_text (f_SemanticDigest f)) (json_text (f_Kind f)) (json_text (f_Source f)) (f_Timing f)
    (clone_ProcessFact <$> f_Process f) (clone_FilesystemFact <$> f_Filesystem f) (clone_NetworkFact <$> f_Network f)
    (clone_ArtifactFact <$> f_Artifact f) (clone_ScenarioFact <$> f_Scenario f) (clone_WarningFact <$> f_Warning f)
    (clone_ResourceFact <$> f_Resource f) (clone_reference <$> f_Evidence f) (clone_Limitation <$> f_Limitations f).
Definition clone_AttemptTrace (a : AttemptTrace) : AttemptTrace :=
  mkAttemptTrace (json_text (at_AttemptID a)) (at_Ordinal a) (json_text (at_Revision a)) (json_text (at_ScenarioID a)) (at_Repetition a)
    (json_text (at_Coverage a)) (json_text (at_Result a)) (json_text (at_Events a)) (json_text (at_Stdout a)) (json_text (at_Stderr a))
    (json_text (at_Artifacts a)) (at_FirstEventSequence a) (at_LastEventSequence a) (at_AcceptedEventCount a) (clone_Fact <$> at_Facts a)
    (clone_Limitation <$> at_Limitations a).
Definition clone_alias (r : PathRootAlias) : PathRootAlias :=
  mkPathRootAlias (json_text (pra_Namespace r)) (pra_RootIndex r) (json_text (pra_Root r)) (json_text (pra_Alias r)).
Definition clone_profile (p : NormalizationProfile) : NormalizationProfile :=
  mkNormalizationProfile (json_text (nzp_Version p)) (json_text <$> nzp_IgnoreFields p) (json_text (nzp_ProcessIdentityAlgorithm p))
    (json_text (nzp_TimestampAlgorithm p)) (json_text (nzp_PathRootAlgorithm p)) (clone_alias <$> nzp_RootAliases p).
Definition clone_verification (v : ManifestVerification) : ManifestVerification :=
  mkManifestVerification (json_text (mv_Mode v)) (json_text (mv_ManifestDigest v)) (mv_ExpectedManifestDigestSupplied v)
    (mv_ExpectedManifestDigestMatched v) (mv_InternallyConsistent v) (clone_Limitation <$> mv_Limitations v).
Definition cloneTraceDocument (d : TraceSetDocument) : TraceSetDocument :=
  mkTraceSetDocument (json_text (tsd_SchemaVersion d)) (clone_profile (tsd_Profile d)) (json_text (tsd_PlanDigest d))
    (json_text (tsd_ManifestDigest d)) (json_text (tsd_RunID d)) (clone_verification (tsd_ManifestVerification d)) (tsd_ExecutionComplete d)
    (tsd_EvidenceComplete d) (tsd_EvidenceContext d) (clone_AttemptTrace <$> tsd_Attempts d) (clone_Limitation <$> tsd_Limitations d).

(** [New] and [Normalize]; the trace set holds the clone of the document. *)
Definition Normalize (limits : Limits) (ctx : Context) (bundle : option Bundle) : result NormalizeError TraceSetDocument :=
  validateLimits limits ;;
  poll ctx 0 ;;
  match bundle with
  | None => Err (errCode "nil-bundle" "bundle" "" "bundle")
  | Some b => doc ← normalizeDocument limits ctx b; mret (cloneTraceDocument doc)
  end.
