(* ===== verification/NormalizeHost.v ===== *)
(** * The host is not part of a trace document

    Process numbers and clock readings of the events of a bundle may be renamed,
    apart for each source and attempt, without a change of the document. *)

From stdpp Require Import prelude gmap strings list_numbers.
From Stdlib Require Import ZArith Lia.
From S2P Require Import Prelude GoStd Sha256 Framing GoTime Model Json GoText GoPath Event Runner RunnerSpec Evidence Observe Normalize.
Local Open Scope Z_scope.

#[local] Arguments processStart : simpl never.
#[local] Arguments processExit : simpl never.
#[local] Arguments normalizeTiming : simpl never.
#[local] Arguments typedFact : simpl never.
#[local] Arguments semanticDigest : simpl never.
#[local] Arguments normalizeEvent : simpl never.
#[local] Arguments poll : simpl never.
#[local] Opaque processID fmt_d.

(** ** The host's names *)

(** Another numbering of the processes and another wall clock: per attempt and
    source for the envelope of an event, anything for the times of its payload. *)
Record Host := mkHost {
  h_pid : string → ObservationSource → Z → Z;
  h_offset : string → ObservationSource → Z;
  h_clock : Time → Time
}.
Definition relabel_process (ρ : Z → Z) (c : Time → Time) (p : ProcessObservation) : ProcessObservation :=
  mkProcessObservation (po_Operation p) (ρ (po_ProcessID p)) (ρ <$> po_ParentProcessID p) (po_ExecutablePath p) (po_Arguments p)
    (po_Environment p) (po_ExitCode p) (c <$> po_StartedAt p) (c <$> po_ExitedAt p) (po_DurationMillis p).
Definition relabel_scenario (c : Time → Time) (s : ScenarioObservation) : ScenarioObservation :=
  mkScenarioObservation (so_Status s) (so_Message s) (c <$> so_StartedAt s) (c <$> so_CompletedAt s) (so_DurationMillis s).
Definition event_attempt (e : ObservationEvent) : string := attemptID (oe_Revision e) (oe_ScenarioID e) (oe_Repetition e).
Definition relabel_event (h : Host) (e : ObservationEvent) : ObservationEvent :=
  mkObservationEvent (oe_SchemaVersion e) (oe_ID e) (oe_RunID e) (oe_Revision e) (oe_ScenarioID e) (oe_Repetition e) (oe_SequenceNumber e)
    (oe_ObservedAt e + h_offset h (event_attempt e) (oe_Source e)) (oe_Source e) (oe_Kind e)
    (relabel_process (h_pid h (event_attempt e) (oe_Source e)) (h_clock h) <$> oe_Process e)
    (oe_Filesystem e) (oe_Network e) (oe_Artifact e) (relabel_scenario (h_clock h) <$> oe_Scenario e) (oe_ObserverWarning e) (oe_ResourceLimit e).
Definition relabel_bundle (h : Host) (b : Bundle) : Bundle :=
  mkBundle (b_closed b) (b_manifest b) (b_manifestDigest b) (b_plan b) (b_execution b) (b_attempts b) (b_verification b)
    (b_eventsByAttempt b) (relabel_event h <$> b_events b) (b_walk_end b).

(** The instants of an event on both clocks are those of an int64 of nanoseconds. *)
Definition in_clock (h : Host) (e : ObservationEvent) : Prop :=
  is_i64 (oe_ObservedAt e) ∧ is_i64 (oe_ObservedAt e + h_offset h (event_attempt e) (oe_Source e)).

Section host.
Context (h : Host).
Hypothesis pid_inj : ∀ id src, Inj (=) (=) (h_pid h id src).
Hypothesis pid_zero : ∀ id src, h_pid h id src 0 = 0.

Definition relabel_namespace (id : string) (src : ObservationSource) (ns : processNamespace) : processNamespace :=
  mkNamespace (kmap (h_pid h id src) (pn_active ns)) (pn_occurrence ns) (pn_generations ns).
Definition shift_time (id : string) (src : ObservationSource) (t : timeNamespace) : timeNamespace :=
  mkTimeNamespace (tn_origin t + h_offset h id src) (tn_last t + h_offset h id src).
Definition relabel_state (id : string) (s : attemptState) : attemptState :=
  mkAttemptState (as_profile s) (as_attemptID s) (as_attemptKey s) (as_limits s)
    (map_imap (λ src ns, Some (relabel_namespace id src ns)) (as_process s))
    (map_imap (λ src t, Some (shift_time id src t)) (as_time s)).
Definition relabel_walk (w : walkState) : walkState :=
  mkWalk (wk_docs w) (map_imap (λ id s, Some (relabel_state id s)) (wk_states w)) (wk_byID w) (wk_facts w) (wk_refs w) (wk_prior w) (wk_polls w).

Lemma kmap_size {A} (f : Z → Z) `{!Inj (=) (=) f} (m : gmap Z A) : size (kmap (M2 := gmap Z) f m) = size m.
Proof. rewrite <- !length_map_to_list, map_to_list_kmap by apply _. apply length_fmap. Qed.
Lemma map_imap_insert_Some `{Countable K} {A B} (f : K → A → B) (m : gmap K A) k x :
  map_imap (λ k y, Some (f k y)) (<[k := x]> m) = <[k := f k x]> (map_imap (λ k y, Some (f k y)) m).
Proof.
  apply map_eq. intros j. rewrite map_lookup_imap. destruct (decide (j = k)) as [->|Hj].
  - by rewrite !lookup_insert_eq.
  - rewrite !lookup_insert_ne by congruence. by rewrite map_lookup_imap.
Qed.
Lemma namespaceOf_relabel id s src :
  namespaceOf (relabel_state id s) src = relabel_namespace id src (namespaceOf s src).
Proof.
  unfold namespaceOf, relabel_state. cbn. rewrite map_lookup_imap. destruct (as_process s !! src); cbn; [done|].
  unfold relabel_namespace. cbn. by rewrite kmap_empty.
Qed.
Lemma with_process_relabel id s src ns :
  with_process src (relabel_namespace id src ns) (relabel_state id s) = relabel_state id (with_process src ns s).
Proof. unfold with_process, relabel_state. cbn. by rewrite map_imap_insert_Some. Qed.

Lemma parentOf_relabel id src active parent :
  parentOf (kmap (h_pid h id src) active) (h_pid h id src <$> parent) = parentOf active parent.
Proof.
  destruct parent as [p|]; [|done]. cbn. rewrite lookup_kmap by apply _.
  assert (h_pid h id src p = 0 ↔ p = 0) as Hz.
  { split; [|intros ->; apply pid_zero]. intros E. apply (pid_inj id src). by rewrite pid_zero. }
  by rewrite (bool_decide_ext _ _ Hz).
Qed.

Lemma normalizeTiming_relabel s e :
  in_clock h e →
  normalizeTiming (relabel_state (event_attempt e) s) (relabel_event h e) =
  let '(t, l, s') := normalizeTiming s e in (t, l, relabel_state (event_attempt e) s').
Proof.
  intros [Hc Hc']. unfold normalizeTiming. cbn. rewrite map_lookup_imap.
  unfold is_i64 in *. rewrite (wrap64_id _ Hc), (wrap64_id _ Hc').
  set (d := h_offset h (event_attempt e) (oe_Source e)) in *. set (t := oe_ObservedAt e) in *.
  assert (∀ o, t + d - (o + d) = t - o) as Hrel by lia.
  assert (∀ o, ((t + d <? o + d) = (t <? o))%Z) as Hlt by (intros o; destruct (Z.ltb_spec (t + d) (o + d)), (Z.ltb_spec t o); first [done|exfalso; lia]).
  destruct (as_time s !! oe_Source e) as [tn|] eqn:E; cbn; fold d.
  - rewrite Hrel, Hlt. f_equal. unfold with_time, relabel_state. cbn. by rewrite map_imap_insert_Some.
  - rewrite Hrel. rewrite Z.ltb_irrefl, Z.ltb_irrefl. f_equal.
    unfold with_time, relabel_state. cbn. by rewrite map_imap_insert_Some.
Qed.

(** The outcome of a step in the renamed state is the renamed outcome. *)
Definition relabel_result {A} (id : string) (r : result NormalizeError (A * attemptState)) : result NormalizeError (A * attemptState) :=
  match r with Ok (a, s) => Ok (a, relabel_state id s) | Err e => Err e end.

Lemma processStart_relabel id s src p :
  processStart (relabel_state id s) src (relabel_process (h_pid h id src) (h_clock h) p) = relabel_result id (processStart s src p).
Proof.
  unfold processStart. rewrite namespaceOf_relabel. cbn. rewrite lookup_kmap, parentOf_relabel, kmap_size by apply _.
  destruct (parentOf _ _) as [[parent relation] lim]. unfold startSeed, startParts. cbn.
  destruct (reject_if _ _) as [[]|]; cbn; [|done]. rewrite <- with_process_relabel.
  unfold relabel_namespace. cbn. by rewrite kmap_insert by apply _.
Qed.

Lemma processExit_relabel id s src p :
  processExit (relabel_state id s) src (relabel_process (h_pid h id src) (h_clock h) p) =
  let '(f, l, s') := processExit s src p in (f, l, relabel_state id s').
Proof.
  unfold processExit. rewrite namespaceOf_relabel. cbn. rewrite lookup_kmap by apply _.
  rewrite <- with_process_relabel. unfold relabel_namespace. cbn. by rewrite kmap_delete by apply _.
Qed.

Lemma typedFact_relabel s e ref :
  in_clock h e →
  typedFact (relabel_state (event_attempt e) s) (relabel_event h e) ref = relabel_result (event_attempt e) (typedFact s e ref).
Proof.
  intros Hc. unfold typedFact. rewrite normalizeTiming_relabel by done.
  destruct (normalizeTiming s e) as [[t l] s']. cbn.
  destruct (oe_Kind e == ObservationKindProcessStart).
  { destruct (oe_Process e) as [p|]; cbn; [|done]. rewrite processStart_relabel.
    destruct (processStart s' _ p) as [[[] ?]|]; done. }
  destruct (oe_Kind e == ObservationKindProcessExit).
  { destruct (oe_Process e) as [p|]; cbn; [|done]. rewrite processExit_relabel.
    by destruct (processExit s' _ p) as [[] ?]. }
  destruct (isFilesystemKind _); [done|]. destruct (isNetworkKind _); [done|]. destruct (isArtifactKind _); [done|].
  destruct (isScenarioKind _); [by destruct (oe_Scenario e)|].
  destruct (isWarningKind _); [done|]. by destruct (isResourceKind _).
Qed.

Lemma normalizeEvent_relabel s e ref :
  in_clock h e →
  normalizeEvent (relabel_state (event_attempt e) s) (relabel_event h e) ref = relabel_result (event_attempt e) (normalizeEvent s e ref).
Proof.
  intros Hc. unfold normalizeEvent. rewrite typedFact_relabel by done.
  assert (validateKindPayload (relabel_event h e) = validateKindPayload e) as ->.
  { unfold validateKindPayload, event_payloads. cbn. by destruct (oe_Process e), (oe_Scenario e). }
  cbn. destruct (validateSource _) as [[]|]; cbn; [|done]. destruct (validateKindPayload e) as [[]|]; cbn; [|done].
  destruct (typedFact s e ref) as [[f s']|]; cbn; [|done].
  destruct (semanticDigest _ _); cbn; [|done]. by destruct (reject_if _ _) as [[]|].
Qed.

Lemma visit_relabel limits ctx plan w e :
  in_clock h e →
  visit limits ctx plan (relabel_walk w) (relabel_event h e) =
  match visit limits ctx plan w e with Ok w' => Ok (relabel_walk w') | Err x => Err x end.
Proof.
  intros Hc. unfold visit. cbn. destruct (poll _ _) as [[]|]; cbn; [|done].
  destruct (oe_SequenceNumber e <=? 0)%go; cbn; [done|]. destruct ((wk_prior w != 0) && _)%go; cbn; [done|].
  rewrite map_lookup_imap. fold (event_attempt e). destruct (wk_byID w !! event_attempt e) as [i|]; [|done].
  destruct (wk_states w !! event_attempt e) as [st|]; cbn; [|done]. rewrite normalizeEvent_relabel by done.
  destruct (normalizeEvent st e _) as [[f st']|]; cbn; [|done].
  destruct (l_MaxFactsPerTraceSet limits <? _)%go; cbn; [done|]. destruct (l_MaxEvidenceRefsTotal limits <? _)%go; cbn; [done|].
  unfold relabel_walk. cbn. by rewrite map_imap_insert_Some.
Qed.

Lemma walk_relabel limits ctx plan l w :
  Forall (in_clock h) l →
  foldR (visit limits ctx plan) (relabel_walk w) (relabel_event h <$> l) =
  match foldR (visit limits ctx plan) w l with Ok w' => Ok (relabel_walk w') | Err x => Err x end.
Proof.
  intros Hl. revert w. induction Hl as [|e l He Hl IH]; intros w; cbn; [done|].
  rewrite visit_relabel by done. by destruct (visit _ _ _ w e).
Qed.

(** The states a walk starts from name no process and no instant. *)
Lemma enrol_fresh limits profile b w l w' :
  relabel_walk w = w → foldR (enrol limits profile b) w l = Ok w' → relabel_walk w' = w'.
Proof.
  intros Hw H. refine (foldR_ind (λ w, relabel_walk w = w) _ l w w' Hw _ H).
  intros w1 [i [req va]] w2 _ H1 Hx. unfold enrol in Hx.
  destruct (reject_if _ _) as [[]|]; cbn in Hx; [|done]. destruct (EventStreamReference _ _); [|done].
  apply Ok_inj in Hx as <-. apply (f_equal wk_states) in H1. unfold relabel_walk in *. cbn in *.
  by rewrite map_imap_insert_Some, H1.
Qed.
End host.

(** C13: the host is not part of what is compared.  Other process numbers - any
    injective renaming that keeps zero, chosen for every attempt and source - and
    other clocks - any offset of a source's clock that keeps its instants within 64
    bits, any time in a payload - give the same answer: the same trace document, with
    the same identities and digests, or the same error. *)
Theorem host_forgotten limits ctx h b :
  (∀ id src, Inj (=) (=) (h_pid h id src)) → (∀ id src, h_pid h id src 0 = 0) → Forall (in_clock h) (b_events b) →
  Normalize limits ctx (Some (relabel_bundle h b)) = Normalize limits ctx (Some b).
Proof.
  intros Hinj Hzero Hev. unfold Normalize. destruct (validateLimits _) as [[]|]; cbn; [|done].
  destruct (poll _ _) as [[]|]; cbn; [|done]. unfold normalizeDocument. cbn.
  do 3 (destruct (reject_if _ _) as [[]|]; cbn; [|done]). destruct (profileFromPlan _) as [profile|]; cbn; [|done].
  destruct (ExpandPlanDocument _ _) as [reqs|]; cbn; [|done]. destruct (reject_if _ _) as [[]|]; cbn; [|done].
  change (enrol limits profile (relabel_bundle h b)) with (enrol limits profile b).
  destruct (foldR (enrol _ _ _) _ _) as [w|] eqn:E; cbn; [|done].
  apply (enrol_fresh h) in E; [|unfold relabel_walk; cbn; by rewrite map_imap_empty].
  unfold WalkEvents. cbn. destruct (b_closed b); [done|].
  rewrite <- E at 1. rewrite walk_relabel by done. destruct (foldR _ _ _) as [w'|]; cbn; [|done].
  by destruct (b_walk_end b).
Qed.
