(* ===== verification/NormalizeSpec.v ===== *)
(** * What a trace document says

    A walk over the events of a bundle is a walk over the events of each attempt:
    every event becomes one fact, with the payload, the instant and the evidence
    reference of the event; a process is named by what was said of it, and its
    lineage is that of the processes that run under its numbers. *)

From stdpp Require Import prelude gmap strings list_numbers.
From Stdlib Require Import ZArith Lia.
From S2P Require Import Prelude GoStd Sha256 Framing GoTime Model Json GoText GoPath Event Runner RunnerSpec Evidence Observe Normalize NormalizeHost.
Local Open Scope Z_scope.

#[local] Arguments processStart : simpl never.
#[local] Arguments processExit : simpl never.
#[local] Arguments normalizeTiming : simpl never.
#[local] Arguments typedFact : simpl never.
#[local] Arguments semanticDigest : simpl never.
#[local] Arguments normalizeEvent : simpl never.
#[local] Arguments poll : simpl never.

(** ** The walk, attempt by attempt *)

Definition eventFact (plan : Digest) (st : attemptState) (e : ObservationEvent) : result NormalizeError (Fact * attemptState) :=
  '(fact, st') ← normalizeEvent st e (with_event (as_attemptKey st) (oe_ID e) (oe_SequenceNumber e));
  mret (with_id (factID plan (event_attempt e) (f_SemanticDigest fact) [oe_ID e]) fact, st').

(** The facts of a sequence of events of one attempt. *)
Inductive normalized (plan : Digest) (st0 : attemptState) : list ObservationEvent → list Fact → attemptState → Prop :=
| normalized_nil : normalized plan st0 [] [] st0
| normalized_snoc evs fs st e f st' :
  normalized plan st0 evs fs st → eventFact plan st e = Ok (f, st') → normalized plan st0 (evs ++ [e]) (fs ++ [f]) st'.

Definition of_attempt (id : string) (l : list ObservationEvent) : list ObservationEvent := filter (λ e, event_attempt e = id) l.
Definition with_facts (fs : list Fact) (a : AttemptTrace) : AttemptTrace :=
  mkAttemptTrace (at_AttemptID a) (at_Ordinal a) (at_Revision a) (at_ScenarioID a) (at_Repetition a) (at_Coverage a) (at_Result a)
    (at_Events a) (at_Stdout a) (at_Stderr a) (at_Artifacts a) (at_FirstEventSequence a) (at_LastEventSequence a)
    (at_AcceptedEventCount a) fs (at_Limitations a).

(** Where a walk is after the events [l]. *)
Record walked (limits : Limits) (plan : Digest) (w0 : walkState) (l : list ObservationEvent) (w : walkState) : Prop := {
  wd_byID : wk_byID w = wk_byID w0;
  wd_length : length (wk_docs w) = length (wk_docs w0);
  wd_attempt id idx st0 a0 :
    wk_byID w0 !! id = Some idx → wk_states w0 !! id = Some st0 → wk_docs w0 !! idx = Some a0 → at_Facts a0 = [] →
    ∃ fs st, wk_states w !! id = Some st ∧ wk_docs w !! idx = Some (with_facts fs a0) ∧ normalized plan st0 (of_attempt id l) fs st;
  wd_known e : e ∈ l → is_Some (wk_byID w0 !! event_attempt e);
  wd_prior : wk_prior w = from_option oe_SequenceNumber (wk_prior w0) (last l);
  wd_numbered i e e' : l !! i = Some e → l !! S i = Some e' → oe_SequenceNumber e' = oe_SequenceNumber e + 1;
  wd_positive e : e ∈ l → 0 < oe_SequenceNumber e;
  wd_facts : wk_facts w = wk_facts w0 + Z.of_nat (length l);
  wd_limit : l = [] ∨ wk_facts w <= l_MaxFactsPerTraceSet limits
}.

Lemma visit_Ok limits ctx plan w e w' :
  visit limits ctx plan w e = Ok w' →
  0 < oe_SequenceNumber e ∧ (wk_prior w = 0 ∨ oe_SequenceNumber e = wk_prior w + 1) ∧
  ∃ idx st f st', wk_byID w !! event_attempt e = Some idx ∧ wk_states w !! event_attempt e = Some st ∧
    eventFact plan st e = Ok (f, st') ∧ wk_facts w + 1 <= l_MaxFactsPerTraceSet limits ∧
    wk_docs w' = alter (add_fact f) idx (wk_docs w) ∧ wk_states w' = <[event_attempt e := st']> (wk_states w) ∧
    wk_byID w' = wk_byID w ∧ wk_facts w' = wk_facts w + 1 ∧ wk_prior w' = oe_SequenceNumber e.
Proof.
  unfold visit. intros (_ & _ & H)%bind_Ok. apply reject_bind_Ok in H as [H1 H]. apply reject_bind_Ok in H as [H2 H].
  apply Z.leb_gt in H1. split; [done|]. split.
  { apply andb_false_iff in H2 as [H2|H2]; apply negb_false_iff, bool_decide_eq_true in H2; auto. }
  fold (event_attempt e) in H. destruct (wk_byID w !! event_attempt e) as [idx|]; [|done].
  destruct (wk_states w !! event_attempt e) as [st|]; [|done]. apply bind_Ok in H as ([f st'] & Hf & H).
  apply reject_bind_Ok in H as [H3 H]. apply reject_bind_Ok in H as [_ H]. apply Ok_inj in H as <-.
  eexists idx, st, _, st'. unfold eventFact. rewrite Hf. cbn. apply Z.ltb_ge in H3. split_and!; first [done|lia].
Qed.

Lemma walk_Ok limits ctx plan w0 l w :
  (∀ id idx id', wk_byID w0 !! id = Some idx → wk_byID w0 !! id' = Some idx → id = id') → wk_prior w0 = 0 →
  foldR (visit limits ctx plan) w0 l = Ok w → walked limits plan w0 l w.
Proof.
  intros Hinj Hp. revert w. induction l as [|e l IH] using rev_ind; intros w.
  { intros [= <-]. split; [done..| | |done|done| |cbn; lia|by left].
    - intros id idx st0 a0 _ Hs Ha Hf. exists [], st0. split_and!; [done| |constructor]. rewrite Ha. f_equal. destruct a0. cbn in *. by subst.
    - by intros e ?%not_elem_of_nil.
    - by intros e ?%not_elem_of_nil. }
  rewrite foldR_app. intros (w1 & H1 & H)%bind_Ok. specialize (IH w1 H1). cbn in H.
  destruct (visit _ _ _ w1 e) as [w2|] eqn:Hv; [|done]. apply Ok_inj in H as ->.
  apply visit_Ok in Hv as (Hpos & Hseq & idx & st & f & st' & Hb & Hs & Hf & Hlim & Hdocs & Hstates & HbyID & Hfacts & Hprior).
  destruct IH as [I1 I2 I3 I4 I5 I6 I7 I8 I9]. split.
  - by rewrite HbyID.
  - by rewrite Hdocs, length_alter.
  - intros id idx' st0 a0 Hb0 Hs0 Ha0 Hf0. destruct (I3 _ _ _ _ Hb0 Hs0 Ha0 Hf0) as (fs & st1 & Hst1 & Hd & Hn).
    rewrite Hdocs, Hstates. unfold of_attempt in *. rewrite filter_app. destruct (decide (event_attempt e = id)) as [<-|Hid].
    + rewrite filter_cons_True by done. rewrite filter_nil. rewrite I1, Hb0 in Hb. injection Hb as <-.
      rewrite Hst1 in Hs. injection Hs as <-. exists (fs ++ [f]), st'. rewrite lookup_insert_eq, list_lookup_alter_eq, Hd. split_and!; [done..|].
      by econstructor.
    + rewrite filter_cons_False by done. rewrite filter_nil, app_nil_r. exists fs, st1.
      rewrite lookup_insert_ne by done. rewrite list_lookup_alter_ne; [done|]. intros <-. apply Hid.
      rewrite I1 in Hb. by eapply Hinj.
  - intros e' [He|He%list_elem_of_singleton]%elem_of_app; [by apply I4|]. subst e'. rewrite <- I1, Hb. by eexists.
  - by rewrite last_snoc.
  - intros i e1 e2 He1 He2. destruct (decide (S i < length l)%nat) as [Hi|Hi].
    + rewrite lookup_app_l in He1 by lia. rewrite lookup_app_l in He2 by lia. by eapply I6.
    + apply lookup_lt_Some in He2 as Hlt. rewrite length_app in Hlt. cbn in Hlt. assert (S i = length l) as Hi' by lia.
      rewrite list_lookup_middle in He2 by done. injection He2 as <-. rewrite lookup_app_l in He1 by lia.
      assert (last l = Some e1) as Hlast by (rewrite last_lookup, <- Hi'; done).
      rewrite Hlast in I5. cbn in I5. destruct Hseq as [Hz|Hz]; [|lia].
      assert (0 < oe_SequenceNumber e1) by (by apply I7; eapply list_elem_of_lookup_2). lia.
  - intros e' [He|He%list_elem_of_singleton]%elem_of_app; [by apply I7|]. by subst.
  - rewrite Hfacts, I8, length_app. cbn. lia.
  - right. lia.
Qed.

(** ** The attempts of the document *)

Definition attemptRef (b : Bundle) (req : AttemptRequest) (entry : VerifiedEntryReference) : RawEvidenceReference :=
  mkRawEvidenceReference (ver_Digest entry) (ver_Path entry) "" 0 (ar_Revision req) (ar_ScenarioID req) (ar_Repetition req).
Definition requestKey (req : AttemptRequest) : AttemptKey := mkAttemptKey (ar_Revision req) (ar_ScenarioID req) (ar_Repetition req).

Record enrolled (limits : Limits) (profile : NormalizationProfile) (b : Bundle) (l : list (AttemptRequest * VerifiedAttempt)) (w : walkState) : Prop := {
  en_docs : wk_docs w = (λ x, attemptDoc x.1 x.2 (b_manifest b)) <$> l;
  en_same x : x ∈ l → sameAttempt x.1 x.2 = true;
  en_byID id idx : wk_byID w !! id = Some idx → ∃ x, l !! idx = Some x ∧ ar_AttemptID x.1 = id;
  en_state i x : NoDup ((λ x, ar_AttemptID x.1) <$> l) → l !! i = Some x →
    wk_byID w !! ar_AttemptID x.1 = Some i ∧
    ∃ entry, EventStreamReference b (requestKey x.1) = Ok entry ∧
      wk_states w !! ar_AttemptID x.1 = Some (newAttemptState profile (ar_AttemptID x.1) (attemptRef b x.1 entry) limits);
  en_counts : wk_facts w = 0 ∧ wk_refs w = 0 ∧ wk_prior w = 0
}.

Lemma enrol_Ok limits profile b l w :
  foldR (enrol limits profile b) (mkWalk [] ∅ ∅ 0 0 0 1) (imap pair l) = Ok w → enrolled limits profile b l w.
Proof.
  revert w. induction l as [|[req va] l IH] using rev_ind; intros w.
  { intros [= <-]. split; [done| | |done|done]; [by intros x ?%not_elem_of_nil|]. intros id idx. cbn. by rewrite lookup_empty. }
  rewrite imap_app, foldR_app. intros (w1 & H1 & H)%bind_Ok. specialize (IH w1 H1).
  change (match enrol limits profile b w1 ((length l + 0)%nat, (req, va)) with Ok s => Ok s | Err e => Err e end = Ok w) in H.
  destruct (enrol _ _ _ w1 _) as [w2|] eqn:He; [|done]. apply Ok_inj in H as ->. unfold enrol in He.
  apply reject_bind_Ok in He as [Hsame He]. apply negb_false_iff in Hsame.
  destruct (EventStreamReference _ _) as [entry|] eqn:Hentry; [|done]. apply Ok_inj in He as <-.
  destruct IH as [I1 I2 I3 I4 I5]. rewrite Nat.add_0_r. split; cbn.
  - by rewrite I1, fmap_app.
  - intros x [Hx|Hx%list_elem_of_singleton]%elem_of_app; [by apply I2|]. by subst.
  - intros id idx. destruct (decide (ar_AttemptID req = id)) as [<-|Hid].
    + rewrite lookup_insert_eq. intros [= <-]. exists (req, va). by rewrite list_lookup_middle.
    + rewrite lookup_insert_ne by done. intros (x & Hx & ?)%I3. exists x. split; [|done]. by apply lookup_app_l_Some.
  - intros i x Hnd Hx. rewrite fmap_app in Hnd. apply NoDup_app in Hnd as (Hnd & Hdis & _).
    apply lookup_app_Some in Hx as [Hx|[Hlen Hx]].
    + destruct (I4 i x Hnd Hx) as (Hb & entry' & Hentry' & Hst).
      assert (ar_AttemptID req <> ar_AttemptID x.1) as Hne.
      { intros E. apply (Hdis (ar_AttemptID x.1)); [apply list_elem_of_fmap; exists x; split; [done|by eapply list_elem_of_lookup_2]|].
        apply list_elem_of_fmap. exists (req, va). split; [done|apply list_elem_of_here]. }
      rewrite !lookup_insert_ne by done. eauto.
    + apply list_lookup_singleton_Some in Hx as [Hi <-]. cbn. rewrite !lookup_insert_eq. split; [f_equal; lia|]. by eexists.
  - done.
Qed.

(** What is known of a document that was produced. *)
Lemma normalizeDocument_Ok limits ctx b d :
  normalizeDocument limits ctx b = Ok d → NoDup (sp_ID <$> rp_Scenarios (b_plan b)) →
  ∃ profile reqs, profileFromPlan (b_plan b) = Ok profile ∧ ExpandPlanDocument (b_plan b) (mf_PlanDigest (b_manifest b)) = Ok reqs ∧
    length (b_attempts b) = length reqs ∧ length (tsd_Attempts d) = length reqs ∧
    tsd_Profile d = profile ∧ tsd_PlanDigest d = mf_PlanDigest (b_manifest b) ∧ b_walk_end b = None ∧
    (b_events b = [] ∨ Z.of_nat (length (b_events b)) <= l_MaxFactsPerTraceSet limits) ∧
    (∀ e, e ∈ b_events b → event_attempt e ∈ ar_AttemptID <$> reqs) ∧
    (∀ e, e ∈ b_events b → 0 < oe_SequenceNumber e) ∧
    (∀ i e e', b_events b !! i = Some e → b_events b !! S i = Some e' → oe_SequenceNumber e' = oe_SequenceNumber e + 1) ∧
    ∀ i req, reqs !! i = Some req →
      ∃ va entry fs st, b_attempts b !! i = Some va ∧ sameAttempt req va = true ∧ EventStreamReference b (requestKey req) = Ok entry ∧
        tsd_Attempts d !! i = Some (closeAttempt (with_facts fs (attemptDoc req va (b_manifest b)))) ∧
        normalized (mf_PlanDigest (b_manifest b)) (newAttemptState profile (ar_AttemptID req) (attemptRef b req entry) limits)
          (of_attempt (ar_AttemptID req) (b_events b)) fs st.
Proof.
  intros H Hnd. unfold normalizeDocument in H.
  apply reject_bind_Ok in H as [_ H]. apply reject_bind_Ok in H as [_ H]. apply reject_bind_Ok in H as [_ H].
  apply bind_Ok in H as (profile & Hprof & H). apply bind_Ok in H as (reqs & Hreqs & H).
  destruct (ExpandPlanDocument _ _) as [reqs'|] eqn:Hexp; [|done]. apply Ok_inj in Hreqs as ->.
  apply reject_bind_Ok in H as [Hlen H]. apply orb_false_iff in Hlen as [Hlen _]. apply bool_decide_eq_false in Hlen.
  assert (length reqs = length (b_attempts b)) as Hlen' by (destruct (decide (length reqs = length (b_attempts b))); [done|contradiction]).
  apply bind_Ok in H as (w0 & Hw0 & H). apply bind_Ok in H as (w & Hw & H). apply Ok_inj in H as <-.
  apply enrol_Ok in Hw0. unfold WalkEvents in Hw. destruct (b_closed b); [done|].
  apply bind_Ok in Hw as (w' & Hw & Hend). destruct (b_walk_end b); [done|]. apply Ok_inj in Hend as ->.
  assert (NoDup (ar_AttemptID <$> reqs)) as Hids.
  { by eapply attempts_distinct. }
  assert ((λ x : AttemptRequest * VerifiedAttempt, ar_AttemptID x.1) <$> zip reqs (b_attempts b) = ar_AttemptID <$> reqs) as Hzip.
  { rewrite <- (fst_zip reqs (b_attempts b)) at 2 by lia. by rewrite <- list_fmap_compose. }
  destruct Hw0 as [E1 E2 E3 E4 (E5 & E6 & E7)]. rewrite Hzip in E4.
  apply walk_Ok in Hw; [|intros id idx id' (x & Hx & <-)%E3 (y & Hy & <-)%E3; congruence|done].
  destruct Hw as [W1 W2 W3 W4 W5 W6 W7 W8 W9].
  exists profile, reqs. split_and!; [done|done|done|cbn; rewrite length_fmap, W2, E1, length_fmap, length_zip_with; lia|done|done|done| | |done|done|].
  - destruct W9 as [?|W9]; [by left|right; lia].
  - intros e He. destruct (W4 e He) as [idx Hidx]. destruct (E3 _ _ Hidx) as (x & Hx & <-). rewrite <- Hzip.
    apply list_elem_of_fmap. exists x. split; [done|by eapply list_elem_of_lookup_2].
  - intros i req Hreq. destruct (lookup_lt_is_Some_2 (b_attempts b) i) as [va Hva].
    { apply lookup_lt_Some in Hreq. lia. }
    assert (zip reqs (b_attempts b) !! i = Some (req, va)) as Hx.
    { apply lookup_zip_with_Some. eauto. }
    destruct (E4 i _ Hids Hx) as (Hb & entry & Hentry & Hst). cbn in *.
    destruct (W3 _ _ _ (attemptDoc req va (b_manifest b)) Hb Hst) as (fs & st & _ & Hd & Hn); [by rewrite E1, list_lookup_fmap, Hx|done|].
    exists va, entry, fs, st. split_and!; [done| |done| |done].
    + apply (E2 (req, va)). by eapply list_elem_of_lookup_2.
    + by rewrite list_lookup_fmap, Hd.
Qed.

(** ** One fact for one event *)

Definition process_described (roots : list PathRootAlias) (p : ProcessObservation) (pf : ProcessFact) : Prop :=
  pf_Operation pf = po_Operation p ∧ pf_Executable pf = normalizeObservedPath (po_ExecutablePath p) roots ∧
  pf_Arguments pf = po_Arguments p ∧ pf_Environment pf = po_Environment p ∧ pf_ExitCode pf = po_ExitCode p ∧
  pf_DurationMillis pf = po_DurationMillis p.

(** What a fact says of its event, besides its instant and the identities of its process. *)
Record described (plan : Digest) (profile : NormalizationProfile) (key : RawEvidenceReference) (e : ObservationEvent) (f : Fact) : Prop := {
  ds_kind : f_Kind f = oe_Kind e;
  ds_source : f_Source f = oe_Source e;
  ds_evidence : f_Evidence f = [with_event key (oe_ID e) (oe_SequenceNumber e)];
  ds_process : match oe_Process e with
               | Some p => ∃ pf, f_Process f = Some pf ∧ process_described (nzp_RootAliases profile) p pf
               | None => f_Process f = None
               end;
  ds_filesystem : f_Filesystem f = filesystemFact (nzp_RootAliases profile) <$> oe_Filesystem e;
  ds_network : f_Network f = networkFact <$> oe_Network e;
  ds_artifact : f_Artifact f = artifactFact (nzp_RootAliases profile) <$> oe_Artifact e;
  ds_scenario : f_Scenario f = scenarioFact <$> oe_Scenario e;
  ds_warning : f_Warning f = warningFact <$> oe_ObserverWarning e;
  ds_resource : f_Resource f = resourceFact <$> oe_ResourceLimit e;
  ds_digest : semanticDigest profile f = Ok (f_SemanticDigest f);
  ds_id : f_ID f = factID plan (event_attempt e) (f_SemanticDigest f) [oe_ID e]
}.

(** The events of a source, the reading of its clock, its first and its latest event. *)
Definition of_source (src : ObservationSource) (l : list ObservationEvent) : list ObservationEvent := filter (λ e, oe_Source e = src) l.
Definition clock (e : ObservationEvent) : Z := wrap64 (oe_ObservedAt e).
Definition timed (profile : NormalizationProfile) (before : list ObservationEvent) (e : ObservationEvent) : NormalizedTiming :=
  let l := of_source (oe_Source e) before in
  mkNormalizedTiming (wrap64 (clock e - clock (default e (head l)))) (includeTiming profile) (clock e <? clock (default e (last l))).

(** The event that started the process that runs under a number. *)
Definition running_step (src : ObservationSource) (pid : Z) (acc : option nat) (x : nat * ObservationEvent) : option nat :=
  let '(i, e) := x in
  if decide (oe_Source e = src ∧ (po_ProcessID <$> oe_Process e) = Some pid) then
    if decide (oe_Kind e = ObservationKindProcessStart) then Some i
    else if decide (oe_Kind e = ObservationKindProcessExit) then None else acc
  else acc.
Definition running (src : ObservationSource) (pid : Z) (l : list ObservationEvent) : option nat :=
  foldl (running_step src pid) None (imap pair l).

Definition process_at (fs : list Fact) (i : nat) : option ProcessFact := fs !! i ≫= f_Process.
Definition fact_seed (src : ObservationSource) (pf : ProcessFact) : string :=
  src +:+ NUL +:+ pf_ParentStableID pf +:+ NUL +:+ pf_ParentRelation pf +:+ NUL +:+ nzpath_Display (pf_Executable pf)
  +:+ NUL +:+ print_strings (pf_Arguments pf) +:+ NUL +:+ print_env (pf_Environment pf).
Definition fact_parts (src : ObservationSource) (pf : ProcessFact) (occ : Z) : list string :=
  [src; pf_ParentStableID pf; pf_ParentRelation pf; nzpath_Display (pf_Executable pf); print_strings (pf_Arguments pf);
   print_env (pf_Environment pf); fmt_d occ].
(** How many starting processes of a source were said to be the same. *)
Definition is_start (src : ObservationSource) (seed : string) (f : Fact) : Prop :=
  f_Kind f = ObservationKindProcessStart ∧ f_Source f = src ∧ (fact_seed src <$> f_Process f) = Some seed.
#[global] Instance is_start_dec src seed f : Decision (is_start src seed f).
Proof. unfold is_start. apply _. Defined.
Definition occurrences (src : ObservationSource) (seed : string) (fs : list Fact) : Z := Z.of_nat (length (filter (is_start src seed) fs)).

(** The lineage of a process event: [i] events and facts of the attempt came before. *)
Definition started (before : list ObservationEvent) (fs : list Fact) (src : ObservationSource) (p : ProcessObservation) (pf : ProcessFact) : Prop :=
  pf_StableID pf = processID (fact_parts src pf (occurrences src (fact_seed src pf) fs + 1)) ∧
  match po_ParentProcessID p with
  | None => pf_ParentStableID pf = ""%string ∧ pf_ParentRelation pf = "root"%string
  | Some ppid =>
    if decide (ppid = 0) then pf_ParentStableID pf = ""%string ∧ pf_ParentRelation pf = "root"%string
    else match running src ppid before with
         | Some j => (pf_StableID <$> process_at fs j) = Some (pf_ParentStableID pf) ∧ pf_ParentRelation pf = "known-parent"%string
         | None => pf_ParentStableID pf = "proc-unresolved-parent"%string ∧ pf_ParentRelation pf = "unresolved-parent"%string
         end
  end.
Definition identity (pf : ProcessFact) : ProcessID * ProcessID * string := (pf_StableID pf, pf_ParentStableID pf, pf_ParentRelation pf).
Definition exited (before : list ObservationEvent) (fs : list Fact) (src : ObservationSource) (p : ProcessObservation) (pf : ProcessFact) : Prop :=
  match running src (po_ProcessID p) before with
  | Some j => (identity <$> process_at fs j) = Some (identity pf)
  | None => identity pf = ("proc-unresolved-actor", "", "unresolved-actor")%string
  end.
Definition lineage (before : list ObservationEvent) (fs : list Fact) (e : ObservationEvent) (f : Fact) : Prop :=
  ∀ p pf, oe_Process e = Some p → f_Process f = Some pf →
  (oe_Kind e = ObservationKindProcessStart → started before fs (oe_Source e) p pf) ∧
  (oe_Kind e = ObservationKindProcessExit → exited before fs (oe_Source e) p pf).

(** *** The state that the steps keep *)

Definition generation (pf : ProcessFact) : processGeneration := mkGeneration (pf_StableID pf) (pf_ParentStableID pf) (pf_ParentRelation pf).
(** No more processes run than were started, and no more were started than events seen. *)
Definition bounded (ns : processNamespace) (n : nat) : Prop :=
  Z.of_nat (size (pn_active ns)) <= pn_generations ns <= Z.of_nat n.
Record kept (st0 : attemptState) (evs : list ObservationEvent) (fs : list Fact) (st : attemptState) : Prop := {
  kp_profile : as_profile st = as_profile st0;
  kp_key : as_attemptKey st = as_attemptKey st0;
  kp_limits : as_limits st = as_limits st0;
  kp_length : length fs = length evs;
  kp_time src : as_time st !! src =
    match head (of_source src evs), last (of_source src evs) with
    | Some h, Some l => Some (mkTimeNamespace (clock h) (clock l))
    | _, _ => None
    end;
  kp_active src pid : pn_active (namespaceOf st src) !! pid = running src pid evs ≫= λ j, generation <$> process_at fs j;
  kp_running src pid j : running src pid evs = Some j → is_Some (process_at fs j);
  kp_occurrence src seed : default 0 (pn_occurrence (namespaceOf st src) !! seed) = occurrences src seed fs;
  kp_bounded src : bounded (namespaceOf st src) (length evs)
}.

(** *** Payloads *)

Definition payloads (e : ObservationEvent) :=
  (oe_Process e, oe_Filesystem e, oe_Network e, oe_Artifact e, oe_Scenario e, oe_ObserverWarning e, oe_ResourceLimit e).
Lemma payload_exact e u :
  validateKindPayload e = Ok u →
  if isProcessKind (oe_Kind e) then ∃ x, payloads e = (Some x, None, None, None, None, None, None)
  else if isFilesystemKind (oe_Kind e) then ∃ x, payloads e = (None, Some x, None, None, None, None, None)
  else if isNetworkKind (oe_Kind e) then ∃ x, payloads e = (None, None, Some x, None, None, None, None)
  else if isArtifactKind (oe_Kind e) then ∃ x, payloads e = (None, None, None, Some x, None, None, None)
  else if isScenarioKind (oe_Kind e) then ∃ x, payloads e = (None, None, None, None, Some x, None, None)
  else if isWarningKind (oe_Kind e) then ∃ x, payloads e = (None, None, None, None, None, Some x, None)
  else isResourceKind (oe_Kind e) = true ∧ ∃ x, payloads e = (None, None, None, None, None, None, Some x).
Proof.
  unfold validateKindPayload, supportedKind. intros H. apply reject_bind_Ok in H as [Hs H]. apply reject_bind_Ok in H as [Hn H].
  unfold payloads, event_payloads in *.
  repeat case_match; try (cbn in Hs; discriminate Hs);
    destruct (oe_Process e), (oe_Filesystem e), (oe_Network e), (oe_Artifact e), (oe_Scenario e), (oe_ObserverWarning e), (oe_ResourceLimit e);
    try (vm_compute in Hn; discriminate Hn); try (vm_compute in H; discriminate H); eauto.
Qed.

Ltac read_payload Hp H :=
  let E1 := fresh in let E2 := fresh in let E3 := fresh in let E4 := fresh in let E5 := fresh in let E6 := fresh in let E7 := fresh in
  injection Hp as E1 E2 E3 E4 E5 E6 E7; rewrite ?E1, ?E2, ?E3, ?E4, ?E5, ?E6, ?E7 in H; rewrite ?E1, ?E2, ?E3, ?E4, ?E5, ?E6, ?E7.
(** A fact of an event, in the state [s1] that has read its clock. *)
Definition typed (timing : NormalizedTiming) (s1 : attemptState) (e : ObservationEvent) (ref : RawEvidenceReference) (f : Fact) (s' : attemptState) : Prop :=
  f_Timing f = timing ∧ f_Kind f = oe_Kind e ∧ f_Source f = oe_Source e ∧ f_Evidence f = [ref] ∧
  f_Filesystem f = filesystemFact (nzp_RootAliases (as_profile s1)) <$> oe_Filesystem e ∧
  f_Network f = networkFact <$> oe_Network e ∧ f_Artifact f = artifactFact (nzp_RootAliases (as_profile s1)) <$> oe_Artifact e ∧
  f_Scenario f = scenarioFact <$> oe_Scenario e ∧ f_Warning f = warningFact <$> oe_ObserverWarning e ∧
  f_Resource f = resourceFact <$> oe_ResourceLimit e ∧
  ((∃ p pf lim, oe_Kind e = ObservationKindProcessStart ∧ oe_Process e = Some p ∧ f_Process f = Some pf ∧
      processStart s1 (oe_Source e) p = Ok (pf, lim, s')) ∨
   (∃ p pf lim, oe_Kind e = ObservationKindProcessExit ∧ oe_Process e = Some p ∧ f_Process f = Some pf ∧
      processExit s1 (oe_Source e) p = (pf, lim, s')) ∨
   (oe_Process e = None ∧ f_Process f = None ∧ s' = s1)).
Lemma typedFact_Ok s e ref f s' u :
  validateKindPayload e = Ok u → typedFact s e ref = Ok (f, s') →
  let '(timing, tlim, s1) := normalizeTiming s e in typed timing s1 e ref f s'.
Proof.
  intros Hp%payload_exact H. unfold typedFact in H. unfold typed. destruct (normalizeTiming s e) as [[timing tlim] s1].
  unfold payloads in Hp.
  assert (isProcessKind (oe_Kind e) = (oe_Kind e == ObservationKindProcessStart) || (oe_Kind e == ObservationKindProcessExit)) as Hk.
  { unfold isProcessKind. repeat case_bool_decide; cbn; set_solver. }
  rewrite Hk in Hp.
  destruct (oe_Kind e == ObservationKindProcessStart) eqn:Es; cbn in Hp, H.
  { apply bool_decide_eq_true in Es. destruct Hp as [x Hp]. read_payload Hp H.
    apply bind_Ok in H as ([[pf lim] s2] & Hst & H). apply Ok_inj in H as [= <- <-]. cbn. split_and!; try done. left. eauto 10. }
  destruct (oe_Kind e == ObservationKindProcessExit) eqn:Ex; cbn in Hp, H.
  { apply bool_decide_eq_true in Ex. destruct Hp as [x Hp]. read_payload Hp H.
    destruct (processExit _ _ _) as [[pf lim] s2] eqn:Hst. apply Ok_inj in H as [= <- <-]. cbn. split_and!; try done. right; left. eauto 10. }
  repeat case_match; try done; try destruct Hp as [? Hp]; try destruct Hp as [x Hp];
    read_payload Hp H; apply Ok_inj in H as [= <- <-]; cbn; split_and!; try done; right; right; done.
Qed.

Lemma processStart_Ok s src p pf lim s' :
  processStart s src p = Ok (pf, lim, s') →
  let ns := namespaceOf s src in
  process_described (nzp_RootAliases (as_profile s)) p pf ∧
  (pf_ParentStableID pf, pf_ParentRelation pf) = (parentOf (pn_active ns) (po_ParentProcessID p)).1 ∧
  pf_StableID pf = processID (fact_parts src pf (default 0 (pn_occurrence ns !! fact_seed src pf) + 1)) ∧
  s' = with_process src (mkNamespace (<[po_ProcessID p := generation pf]> (pn_active ns))
         (<[fact_seed src pf := default 0 (pn_occurrence ns !! fact_seed src pf) + 1]> (pn_occurrence ns)) (pn_generations ns + 1)) s.
Proof.
  unfold processStart. destruct (parentOf _ _) as [[parent relation] plim]. intros H. apply reject_bind_Ok in H as [_ H].
  apply Ok_inj in H as [= <- _ <-]. done.
Qed.

Lemma parentOf_spec active parent :
  (parentOf active parent).1 =
  match parent with
  | None => (""%string, "root"%string)
  | Some ppid =>
    if decide (ppid = 0) then (""%string, "root"%string)
    else match active !! ppid with
         | Some g => (pg_stable g, "known-parent"%string)
         | None => ("proc-unresolved-parent"%string, "unresolved-parent"%string)
         end
  end.
Proof.
  destruct parent as [ppid|]; [|done]. unfold parentOf. case_bool_decide; case_decide; try done. by destruct (active !! ppid).
Qed.

(** *** Lists that grow at the end *)

Lemma of_source_snoc src l e : of_source src (l ++ [e]) = of_source src l ++ (if decide (oe_Source e = src) then [e] else []).
Proof. unfold of_source. by rewrite filter_app. Qed.
Lemma occurrences_snoc src seed fs f :
  occurrences src seed (fs ++ [f]) = occurrences src seed fs + (if decide (is_start src seed f) then 1 else 0).
Proof. unfold occurrences. rewrite filter_app, length_app. cbn [filter list_filter]. case_decide; cbn; lia. Qed.
Lemma running_snoc src pid l e : running src pid (l ++ [e]) = running_step src pid (running src pid l) (length l, e).
Proof. unfold running. rewrite imap_app, foldl_app. cbn. by rewrite Nat.add_0_r. Qed.
Lemma process_at_snoc fs f i : is_Some (process_at fs i) → process_at (fs ++ [f]) i = process_at fs i.
Proof.
  unfold process_at. intros [x H]. apply bind_Some in H as (g & Hg & _). by rewrite lookup_app_l by (by apply lookup_lt_Some in Hg).
Qed.
Lemma process_at_end fs f : process_at (fs ++ [f]) (length fs) = f_Process f.
Proof. unfold process_at. by rewrite list_lookup_middle. Qed.

Lemma namespaceOf_with src src' ns s : namespaceOf (with_process src ns s) src' = if decide (src = src') then ns else namespaceOf s src'.
Proof.
  unfold namespaceOf, with_process. cbn. case_decide as E; [subst; by rewrite lookup_insert_eq|by rewrite lookup_insert_ne].
Qed.

Lemma normalizeTiming_Ok st0 evs fs st e :
  kept st0 evs fs st →
  let '(timing, _, s1) := normalizeTiming st e in
  timing = timed (as_profile st0) evs e ∧ as_profile s1 = as_profile st ∧ as_attemptKey s1 = as_attemptKey st ∧ as_limits s1 = as_limits st ∧
  as_process s1 = as_process st ∧ ∀ src, as_time s1 !! src =
    match head (of_source src (evs ++ [e])), last (of_source src (evs ++ [e])) with
    | Some h, Some l => Some (mkTimeNamespace (clock h) (clock l))
    | _, _ => None
    end.
Proof.
  intros [K1 K2 Kl K3 K4 K5 K6 K7 K8]. unfold normalizeTiming, timed. fold (clock e). rewrite (K4 (oe_Source e)), <- K1.
  split_and!; [|done..|].
  - destruct (of_source (oe_Source e) evs) as [|h l] eqn:E; [done|]. cbn [head default].
    destruct (last (h :: l)) as [x|] eqn:El; [done|]. by apply last_None in El.
  - intros src. cbn. rewrite of_source_snoc. case_decide as Hsrc.
    + subst src. rewrite lookup_insert_eq, last_snoc. destruct (of_source (oe_Source e) evs) as [|h l] eqn:E; [done|].
      cbn [head app]. destruct (last (h :: l)) as [x|] eqn:El; [done|]. by apply last_None in El.
    + rewrite lookup_insert_ne by congruence. by rewrite app_nil_r, K4.
Qed.

Lemma eventFact_Ok plan s e f s' :
  eventFact plan s e = Ok (f, s') →
  (let '(timing, tlim, s1) := normalizeTiming s e in
   typed timing s1 e (with_event (as_attemptKey s) (oe_ID e) (oe_SequenceNumber e)) f s') ∧
  semanticDigest (as_profile s) f = Ok (f_SemanticDigest f) ∧ f_ID f = factID plan (event_attempt e) (f_SemanticDigest f) [oe_ID e].
Proof.
  unfold eventFact, normalizeEvent. intros ([f1 s1] & H & H1)%bind_Ok. apply Ok_inj in H1 as [= <- ->].
  apply bind_Ok in H as (_ & _ & H). apply bind_Ok in H as (u & Hu & H). apply bind_Ok in H as ([f2 s2] & Hf & H).
  apply bind_Ok in H as (d & Hd & H). apply reject_bind_Ok in H as [_ H]. apply Ok_inj in H as [= <- ->].
  split; [|done]. apply (typedFact_Ok _ _ _ _ _ u) in Hf; [|done]. by destruct (normalizeTiming s e) as [[timing tlim] s1].
Qed.

Lemma lookup_running_bind {B} src pid l (k : nat → option B) j x : running src pid l = Some j → k j = Some x → (running src pid l ≫= k) = Some x.
Proof. by intros -> H. Qed.

Lemma map_size_insert_le {A} i (x : A) (m : gmap Z A) : (size (<[i := x]> m) <= S (size m))%nat.
Proof. rewrite map_size_insert. destruct (m !! i); cbn; lia. Qed.
Lemma map_size_delete_le {A} i (m : gmap Z A) : (size (delete i m) <= size m)%nat.
Proof. rewrite map_size_delete. destruct (m !! i); cbn; lia. Qed.
(** The step of a process that starts, and of one that exits. *)
Lemma kept_start st0 evs fs st s1 e f p pf lim st' :
  kept st0 evs fs st → as_process s1 = as_process st →
  oe_Kind e = ObservationKindProcessStart → oe_Process e = Some p → f_Kind f = oe_Kind e → f_Source f = oe_Source e → f_Process f = Some pf →
  processStart s1 (oe_Source e) p = Ok (pf, lim, st') →
  started evs fs (oe_Source e) p pf ∧
  (∀ src pid, pn_active (namespaceOf st' src) !! pid = running src pid (evs ++ [e]) ≫= λ j, generation <$> process_at (fs ++ [f]) j) ∧
  (∀ src seed, default 0 (pn_occurrence (namespaceOf st' src) !! seed) = occurrences src seed (fs ++ [f])) ∧
  (∀ src, bounded (namespaceOf st' src) (S (length evs))).
Proof.
  intros [K1 K2 Kl K3 K4 K5 K6 K7 K8] Hs1 Hk Hp Hfk Hfs Hpf H. apply processStart_Ok in H as (_ & Hparent & Hid & ->).
  assert (∀ src, namespaceOf s1 src = namespaceOf st src) as Hns by (intros src; unfold namespaceOf; by rewrite Hs1).
  rewrite Hns in *. rewrite K7 in Hid |- *. split_and!.
  - split; [done|]. rewrite parentOf_spec in Hparent.
    destruct (po_ParentProcessID p) as [ppid|]; [|by injection Hparent]. case_decide; [by injection Hparent|].
    rewrite K5 in Hparent. destruct (running _ ppid evs) as [j|] eqn:Ej; cbn in Hparent; [|by injection Hparent].
    destruct (K6 _ _ _ Ej) as [g Hg]. rewrite Hg in *. cbn in *. injection Hparent as -> ->. done.
  - intros src pid. rewrite namespaceOf_with, running_snoc. unfold running_step. rewrite Hp. cbn [fmap option_fmap option_map].
    destruct (decide (oe_Source e = src)) as [<-|Hsrc]; cbn [pn_active].
    + destruct (decide (po_ProcessID p = pid)) as [<-|Hpid].
      * rewrite decide_True by done. rewrite decide_True by done. cbn. by rewrite lookup_insert_eq, <- K3, process_at_end, Hpf.
      * rewrite decide_False by naive_solver. rewrite lookup_insert_ne by done. rewrite K5.
        destruct (running _ pid evs) as [j|] eqn:Ej; [|done]. cbn. by rewrite process_at_snoc by eauto.
    + rewrite decide_False by naive_solver. rewrite Hns, K5.
      destruct (running _ pid evs) as [j|] eqn:Ej; [|done]. cbn. by rewrite process_at_snoc by eauto.
  - intros src seed. rewrite namespaceOf_with, occurrences_snoc.
    assert (is_start src seed f ↔ oe_Source e = src ∧ fact_seed src pf = seed) as Hiff.
    { unfold is_start. rewrite Hfk, Hfs, Hpf. cbn. naive_solver. }
    destruct (decide (oe_Source e = src)) as [<-|Hsrc]; cbn [pn_occurrence].
    + destruct (decide (fact_seed (oe_Source e) pf = seed)) as [<-|Hseed].
      * rewrite decide_True by by apply Hiff. by rewrite lookup_insert_eq.
      * rewrite decide_False by (rewrite Hiff; naive_solver). rewrite lookup_insert_ne by done. rewrite K7. lia.
    + rewrite decide_False by (rewrite Hiff; naive_solver). rewrite Hns, K7. lia.
  - intros src. specialize (K8 src). rewrite namespaceOf_with. unfold bounded in *. case_decide as E; [subst|rewrite Hns; lia]. cbn.
    pose proof (map_size_insert_le (po_ProcessID p) (generation pf) (pn_active (namespaceOf st (oe_Source e)))). lia.
Qed.

Lemma kept_exit st0 evs fs st s1 e f p pf lim st' :
  kept st0 evs fs st → as_process s1 = as_process st →
  oe_Kind e = ObservationKindProcessExit → oe_Process e = Some p → f_Kind f = oe_Kind e →
  processExit s1 (oe_Source e) p = (pf, lim, st') →
  exited evs fs (oe_Source e) p pf ∧
  (∀ src pid, pn_active (namespaceOf st' src) !! pid = running src pid (evs ++ [e]) ≫= λ j, generation <$> process_at (fs ++ [f]) j) ∧
  (∀ src seed, default 0 (pn_occurrence (namespaceOf st' src) !! seed) = occurrences src seed (fs ++ [f])) ∧
  (∀ src, bounded (namespaceOf st' src) (S (length evs))).
Proof.
  intros [K1 K2 Kl K3 K4 K5 K6 K7 K8] Hs1 Hk Hp Hfk [= <- _ <-].
  assert (∀ src, namespaceOf s1 src = namespaceOf st src) as Hns by (intros src; unfold namespaceOf; by rewrite Hs1).
  rewrite !Hns. split_and!.
  - unfold exited. rewrite K5. destruct (running _ _ evs) as [j|] eqn:Ej; [|done]. destruct (K6 _ _ _ Ej) as [g Hg].
    cbn [mbind option_bind]. by rewrite Hg.
  - intros src pid. rewrite namespaceOf_with, running_snoc. unfold running_step. rewrite Hp. cbn [fmap option_fmap option_map].
    assert (∀ src, pn_active (namespaceOf st src) !! pid = running src pid evs ≫= λ j, generation <$> process_at (fs ++ [f]) j) as Hold.
    { intros src'. rewrite K5. destruct (running _ pid evs) as [j|] eqn:Ej; [|done]. cbn. by rewrite process_at_snoc by eauto. }
    destruct (decide (oe_Source e = src)) as [<-|Hsrc]; cbn [pn_active].
    + destruct (decide (po_ProcessID p = pid)) as [<-|Hpid].
      * rewrite decide_True by done. rewrite decide_False by (by rewrite Hk). rewrite decide_True by done. by rewrite lookup_delete_eq.
      * rewrite decide_False by naive_solver. by rewrite lookup_delete_ne.
    + rewrite decide_False by naive_solver. by rewrite Hns.
  - intros src seed. rewrite namespaceOf_with, occurrences_snoc.
    rewrite (decide_False (P := is_start src seed f)) by (intros [E _]; rewrite Hfk, Hk in E; discriminate E). rewrite <- K7.
    case_decide as E; [subst; cbn; lia|]. rewrite Hns. lia.
  - intros src. specialize (K8 src). rewrite namespaceOf_with. unfold bounded in *. case_decide as E; [subst|rewrite Hns; lia]. cbn.
    pose proof (map_size_delete_le (po_ProcessID p) (pn_active (namespaceOf st (oe_Source e)))). lia.
Qed.

Lemma processStart_frame s src p pf lim s' :
  processStart s src p = Ok (pf, lim, s') →
  process_described (nzp_RootAliases (as_profile s)) p pf ∧ as_profile s' = as_profile s ∧ as_attemptKey s' = as_attemptKey s ∧ as_limits s' = as_limits s ∧ as_time s' = as_time s.
Proof. by intros (H & _ & _ & ->)%processStart_Ok. Qed.
Lemma processExit_frame s src p pf lim s' :
  processExit s src p = (pf, lim, s') →
  process_described (nzp_RootAliases (as_profile s)) p pf ∧ as_profile s' = as_profile s ∧ as_attemptKey s' = as_attemptKey s ∧ as_limits s' = as_limits s ∧ as_time s' = as_time s.
Proof. by intros [= <- _ <-]. Qed.

Lemma running_described src pid evs e fs f :
  length fs = length evs → (∀ src pid j, running src pid evs = Some j → is_Some (process_at fs j)) →
  (is_Some (oe_Process e) → is_Some (f_Process f)) →
  ∀ j, running src pid (evs ++ [e]) = Some j → is_Some (process_at (fs ++ [f]) j).
Proof.
  intros Hlen Hold Hf j. rewrite running_snoc. unfold running_step.
  assert (running src pid evs = Some j → is_Some (process_at (fs ++ [f]) j)) as Hkeep.
  { intros H. rewrite process_at_snoc; by eapply Hold. }
  case_decide as E; [|done]. case_decide; [|by case_decide].
  intros [= <-]. rewrite <- Hlen, process_at_end. apply Hf. destruct (oe_Process e); [by eexists|by destruct E].
Qed.

Lemma eventFact_step plan st0 evs fs st e f st' :
  kept st0 evs fs st → eventFact plan st e = Ok (f, st') →
  described plan (as_profile st0) (as_attemptKey st0) e f ∧ f_Timing f = timed (as_profile st0) evs e ∧
  lineage evs fs e f ∧ kept st0 (evs ++ [e]) (fs ++ [f]) st'.
Proof.
  intros HK H. pose proof (normalizeTiming_Ok _ _ _ _ e HK) as Ht. apply eventFact_Ok in H as (Hty & Hd & Hid).
  destruct (normalizeTiming st e) as [[timing tlim] s1]. destruct Ht as (-> & Hp1 & Hk1 & Hl1 & Hs1 & Ht1).
  destruct Hty as (T1 & T2 & T3 & T4 & T5 & T6 & T7 & T8 & T9 & T10 & T11).
  pose proof HK as [K1 K2 Kl K3 K4 K5 K6 K7 K8]. rewrite Hp1, K1 in *. rewrite K2 in *. rewrite Kl in *.
  assert (match oe_Process e with
          | Some p => ∃ pf, f_Process f = Some pf ∧ process_described (nzp_RootAliases (as_profile st0)) p pf
          | None => f_Process f = None
          end ∧ as_profile st' = as_profile st0 ∧ as_attemptKey st' = as_attemptKey st0 ∧ as_limits st' = as_limits st0 ∧ as_time st' = as_time s1 ∧ lineage evs fs e f ∧
          (∀ src pid, pn_active (namespaceOf st' src) !! pid = running src pid (evs ++ [e]) ≫= λ j, generation <$> process_at (fs ++ [f]) j) ∧
          (∀ src seed, default 0 (pn_occurrence (namespaceOf st' src) !! seed) = occurrences src seed (fs ++ [f])) ∧
          (∀ src, bounded (namespaceOf st' src) (S (length evs))))
    as (Hproc & F1 & F2 & Fl & F3 & Hlin & Hact & Hocc & Hbd).
  { destruct T11 as [(p & pf & lim & Hk & Hp & Hpf & H)|[(p & pf & lim & Hk & Hp & Hpf & H)|(Hp & Hpf & ->)]].
    - destruct (kept_start _ _ _ _ _ _ _ _ _ _ _ HK Hs1 Hk Hp T2 T3 Hpf H) as (? & ? & ? & ?).
      destruct (processStart_frame _ _ _ _ _ _ H) as (Hdesc & -> & -> & -> & ->). rewrite Hp, Hp1, Hk1, Hl1 in *. split_and!; try done; [by eexists|].
      intros p' pf' E1 E2. rewrite Hp in E1. rewrite Hpf in E2. injection E1 as <-. injection E2 as <-. split; [done|]. rewrite Hk. intros E. discriminate E.
    - destruct (kept_exit _ _ _ _ _ _ _ _ _ _ _ HK Hs1 Hk Hp T2 H) as (? & ? & ? & ?).
      destruct (processExit_frame _ _ _ _ _ _ H) as (Hdesc & -> & -> & -> & ->). rewrite Hp, Hp1, Hk1, Hl1 in *. split_and!; try done; [by eexists|].
      intros p' pf' E1 E2. rewrite Hp in E1. rewrite Hpf in E2. injection E1 as <-. injection E2 as <-. split; [|done]. rewrite Hk. intros E. discriminate E.
    - rewrite Hp. split_and!; try done.
      + intros p pf E. congruence.
      + intros src pid. unfold namespaceOf. rewrite Hs1. fold (namespaceOf st src). rewrite K5, running_snoc. unfold running_step. rewrite Hp.
        rewrite decide_False by (intros [_ E]; discriminate E).
        destruct (running _ pid evs) as [j|] eqn:Ej; [|done]. cbn. by rewrite process_at_snoc by eauto.
      + intros src seed. unfold namespaceOf. rewrite Hs1. fold (namespaceOf st src). rewrite K7, occurrences_snoc.
        rewrite (decide_False (P := is_start src seed f)) by (intros (_ & _ & E); rewrite Hpf in E; discriminate E). lia.
      + intros src. unfold namespaceOf. rewrite Hs1. specialize (K8 src). unfold bounded in *. fold (namespaceOf st src). lia. }
  split_and!; [by split|done|done|]. split; [done|done|done| | |done| |done|].
  - rewrite !length_app. cbn. lia.
  - intros src. by rewrite F3.
  - intros src pid j. apply running_described; [done|done|]. destruct (oe_Process e) as [p|]; [|by intros []].
    destruct Hproc as (pf & -> & _). by eexists.
  - intros src. rewrite length_app, Nat.add_comm. apply Hbd.
Qed.

(** A fresh attempt, and then any number of steps. *)
Definition fresh (st : attemptState) : Prop := as_process st = ∅ ∧ as_time st = ∅.
Lemma normalized_spec plan st0 evs fs st :
  fresh st0 → normalized plan st0 evs fs st →
  kept st0 evs fs st ∧ ∀ i e f, evs !! i = Some e → fs !! i = Some f →
    described plan (as_profile st0) (as_attemptKey st0) e f ∧ f_Timing f = timed (as_profile st0) (take i evs) e ∧
    lineage (take i evs) (take i fs) e f.
Proof.
  intros [Hf1 Hf2]. induction 1 as [|evs fs st e f st' Hn [HK IH] He].
  { split; [|done]. split; try done.
    - intros src. by rewrite Hf2.
    - intros src pid. unfold namespaceOf. by rewrite Hf1.
    - intros src seed. unfold namespaceOf. by rewrite Hf1.
    - intros src. unfold namespaceOf. by rewrite Hf1. }
  destruct (eventFact_step _ _ _ _ _ _ _ _ HK He) as (Hd & Ht & Hl & HK'). split; [done|].
  pose proof (kp_length _ _ _ _ HK) as Hlen. intros i e' f' He' Hf'.
  apply lookup_app_Some in He' as [He'|[Hi He']].
  - apply lookup_lt_Some in He' as Hlt. rewrite lookup_app_l in Hf' by lia. rewrite !take_app_le by lia. by apply IH.
  - apply list_lookup_singleton_Some in He' as [Hi' <-]. assert (i = length evs) as -> by lia.
    rewrite <- Hlen in Hf' at 1. rewrite list_lookup_middle in Hf' by done. injection Hf' as <-.
    rewrite take_app_length. rewrite <- Hlen. by rewrite take_app_length.
Qed.

(** Two starting processes of an attempt are never described the same. *)
Lemma fact_parts_inj src1 pf1 k1 src2 pf2 k2 :
  fact_parts src1 pf1 k1 = fact_parts src2 pf2 k2 → src1 = src2 ∧ fact_seed src1 pf1 = fact_seed src2 pf2 ∧ k1 = k2.
Proof.
  unfold fact_parts, fact_seed.
  generalize (print_strings (pf_Arguments pf1)) (print_strings (pf_Arguments pf2)) (print_env (pf_Environment pf1)) (print_env (pf_Environment pf2)).
  intros a1 a2 e1 e2 H. injection H as -> -> -> -> -> -> H. apply fmt_d_inj in H. done.
Qed.
Definition start_parts (fs : list Fact) (i : nat) (f : Fact) : option (list string) :=
  pf ← f_Process f;
  if decide (f_Kind f = ObservationKindProcessStart)
  then Some (fact_parts (f_Source f) pf (occurrences (f_Source f) (fact_seed (f_Source f) pf) (take i fs) + 1)) else None.
Lemma start_parts_distinct fs i j f g x y :
  fs !! i = Some f → fs !! j = Some g → start_parts fs i f = Some x → start_parts fs j g = Some y → x = y → i = j.
Proof.
  assert (∀ i j f g x, (i < j)%nat → fs !! i = Some f → start_parts fs i f = Some x → start_parts fs j g = Some x → False) as Hlt.
  { intros i' j' f' g' z Hij Hf Hx Hy. unfold start_parts in Hx, Hy.
    destruct (f_Process f') as [pf|] eqn:Ef; [|done]. destruct (f_Process g') as [pg|] eqn:Eg; [|done]. cbn in Hx, Hy.
    destruct (decide (f_Kind f' = _)) as [Hk|]; [|done]. destruct (decide (f_Kind g' = _)); [|done].
    injection Hx as <-. apply (inj Some) in Hy. apply fact_parts_inj in Hy as (Hsrc & Hseed & Hocc).
    rewrite Hsrc in Hseed. rewrite Hsrc, Hseed in Hocc. unfold occurrences in Hocc.
    rewrite <- (take_drop i' (take j' fs)), filter_app, length_app, take_take, Nat.min_l in Hocc by lia.
    assert (drop i' (take j' fs) = f' :: drop (S i') (take j' fs)) as Hdrop.
    { apply drop_S. by rewrite lookup_take_lt by lia. }
    rewrite Hdrop, filter_cons_True in Hocc; [cbn in Hocc; lia|].
    split_and!; [done|done|]. by rewrite Ef. }
  intros Hf Hg Hx Hy ->. destruct (decide (i = j)) as [|Hij]; [done|].
  destruct (decide (i < j)%nat); [exfalso; by eapply (Hlt i j)|exfalso; eapply (Hlt j i); [lia|done..]].
Qed.

Lemma normalize_attempt limits ctx b doc :
  NoDup (sp_ID <$> rp_Scenarios (b_plan b)) → normalizeDocument limits ctx b = Ok doc →
  ∃ profile reqs, profileFromPlan (b_plan b) = Ok profile ∧ ExpandPlanDocument (b_plan b) (mf_PlanDigest (b_manifest b)) = Ok reqs ∧
    length (tsd_Attempts doc) = length reqs ∧
    ∀ i req, reqs !! i = Some req →
      ∃ a entry, tsd_Attempts doc !! i = Some a ∧ EventStreamReference b (requestKey req) = Ok entry ∧
        (at_AttemptID a, at_Ordinal a, at_Revision a, at_ScenarioID a, at_Repetition a) =
          (ar_AttemptID req, ar_GlobalOrdinal req, ar_Revision req, ar_ScenarioID req, ar_Repetition req) ∧
        length (at_Facts a) = length (of_attempt (ar_AttemptID req) (b_events b)) ∧
        ∀ k e f, of_attempt (ar_AttemptID req) (b_events b) !! k = Some e → at_Facts a !! k = Some f →
          described (mf_PlanDigest (b_manifest b)) profile (attemptRef b req entry) e f ∧
          f_Timing f = timed profile (take k (of_attempt (ar_AttemptID req) (b_events b))) e ∧
          lineage (take k (of_attempt (ar_AttemptID req) (b_events b))) (take k (at_Facts a)) e f.
Proof.
  intros Hnd H. destruct (normalizeDocument_Ok _ _ _ _ H Hnd) as (profile & reqs & Hprof & Hexp & _ & Hlen & _ & _ & _ & _ & _ & _ & _ & Hatt).
  exists profile, reqs. split_and!; [done..|]. intros i req Hreq.
  destruct (Hatt i req Hreq) as (va & entry & fs & st & _ & _ & Hentry & Hd & Hn).
  apply normalized_spec in Hn as [HK Hall]; [|done].
  eexists _, entry. split_and!; [done..| |]; cbn; [by apply (kp_length _ _ _ _ HK)|]. intros k e f He Hf. by apply Hall.
Qed.

(** C23: the facts of a trace document.  A document that was produced has the attempts
    of the plan in their order; every event of the bundle belongs to one of them, and
    the events are numbered without a gap.  Each attempt has one fact for each of its
    events, in their order: with the kind, source and payload of the event, its paths
    under the roots of the plan, its instant relative to the first of its source, the
    digest of what it says and the evidence reference of the event. *)
Theorem facts_exact limits ctx b d :
  NoDup (sp_ID <$> rp_Scenarios (b_plan b)) → Normalize limits ctx (Some b) = Ok d →
  ∃ doc profile reqs, d = cloneTraceDocument doc ∧ normalizeDocument limits ctx b = Ok doc ∧ profileFromPlan (b_plan b) = Ok profile ∧
  ExpandPlanDocument (b_plan b) (mf_PlanDigest (b_manifest b)) = Ok reqs ∧ length (tsd_Attempts doc) = length reqs ∧
  (∀ e, e ∈ b_events b → event_attempt e ∈ ar_AttemptID <$> reqs) ∧
  (∀ i e e', b_events b !! i = Some e → b_events b !! S i = Some e' → oe_SequenceNumber e' = oe_SequenceNumber e + 1) ∧
  ∀ i req, reqs !! i = Some req →
    let evs := of_attempt (ar_AttemptID req) (b_events b) in
    ∃ a entry, tsd_Attempts doc !! i = Some a ∧ EventStreamReference b (requestKey req) = Ok entry ∧
    (at_AttemptID a, at_Ordinal a, at_Revision a, at_ScenarioID a, at_Repetition a) =
      (ar_AttemptID req, ar_GlobalOrdinal req, ar_Revision req, ar_ScenarioID req, ar_Repetition req) ∧
    length (at_Facts a) = length evs ∧
    ∀ k e f, evs !! k = Some e → at_Facts a !! k = Some f →
      described (mf_PlanDigest (b_manifest b)) profile (attemptRef b req entry) e f ∧ f_Timing f = timed profile (take k evs) e.
Proof.
  intros Hnd H. unfold Normalize in H. apply bind_Ok in H as (_ & _ & H). apply bind_Ok in H as (_ & _ & H).
  apply bind_Ok in H as (doc & H & E). apply Ok_inj in E as <-. destruct (normalize_attempt _ _ _ _ Hnd H) as (profile & reqs & Hprof & Hexp & Hlen & Hatt).
  destruct (normalizeDocument_Ok _ _ _ _ H Hnd) as (? & reqs' & _ & Hexp' & _ & _ & _ & _ & _ & _ & Hknown & _ & Hnum & _).
  rewrite Hexp in Hexp'. apply Ok_inj in Hexp' as <-.
  exists doc, profile, reqs. split_and!; [done..|]. intros i req Hreq. destruct (Hatt i req Hreq) as (a & entry & Ha & He & Hf & Hl & Hall).
  exists a, entry. split_and!; [done..|]. intros k e f Hk Hfk. by destruct (Hall k e f Hk Hfk) as (? & ? & _).
Qed.

(** C16: the identities of processes.  In each attempt a process that starts is named
    by what is said of it - its source, its parent, its program and arguments - and
    by how often the same was said before; its parent is the process that runs under
    the parent's number; a process that exits is the one that runs under its number;
    and no two processes that start have the same description. *)
Theorem processes_identified limits ctx b doc :
  NoDup (sp_ID <$> rp_Scenarios (b_plan b)) → normalizeDocument limits ctx b = Ok doc →
  ∀ a, a ∈ tsd_Attempts doc →
    let evs := of_attempt (at_AttemptID a) (b_events b) in
    (∀ k e f, evs !! k = Some e → at_Facts a !! k = Some f → lineage (take k evs) (take k (at_Facts a)) e f) ∧
    (∀ i f pf, at_Facts a !! i = Some f → f_Process f = Some pf → f_Kind f = ObservationKindProcessStart →
       ∃ parts, start_parts (at_Facts a) i f = Some parts ∧ pf_StableID pf = processID parts) ∧
    (∀ i j f g parts, at_Facts a !! i = Some f → at_Facts a !! j = Some g →
       start_parts (at_Facts a) i f = Some parts → start_parts (at_Facts a) j g = Some parts → i = j).
Proof.
  intros Hnd H a Ha. destruct (normalize_attempt _ _ _ _ Hnd H) as (profile & reqs & _ & _ & Hlen & Hatt).
  apply list_elem_of_lookup in Ha as [i Ha]. destruct (lookup_lt_is_Some_2 reqs i) as [req Hreq].
  { rewrite <- Hlen. by eapply lookup_lt_Some. }
  destruct (Hatt i req Hreq) as (a' & entry & Ha' & _ & Hid & Hl & Hall). rewrite Ha in Ha'. injection Ha' as <-.
  injection Hid as -> _ _ _ _. cbn. split_and!.
  - intros k e f He Hf. by destruct (Hall k e f He Hf) as (_ & _ & ?).
  - intros k f pf Hf Hpf Hk. destruct (lookup_lt_is_Some_2 (of_attempt (ar_AttemptID req) (b_events b)) k) as [e He].
    { rewrite <- Hl. by eapply lookup_lt_Some. }
    destruct (Hall k e f He Hf) as (Hd & _ & Hlin). destruct Hd as [D1 D2 _ D4 _ _ _ _ _ _ _ _].
    unfold start_parts. rewrite Hpf. cbn. rewrite decide_True by done. eexists. split; [done|].
    destruct (oe_Process e) as [p|] eqn:Ep; [|congruence]. rewrite Hk in D1. destruct (Hlin p pf Ep Hpf) as [Hs _].
    destruct (Hs (eq_sym D1)) as [-> _]. by rewrite D2.
  - intros k j f g parts Hf Hg Hx Hy. by eapply start_parts_distinct.
Qed.
