(* ===== verification/NormalizeTotal.v ===== *)
(** * What executions can be normalized

    The events that an execution left, in a bundle of its plan, make a trace document
    under any valid limits that hold the counts of the run ([counts_within]) and its
    contents ([contents_within]).  The counts of the runner are within the defaults. *)

From stdpp Require Import prelude gmap strings list_numbers.
From Stdlib Require Import ZArith Lia.
From S2P Require Import Prelude GoStd Sha256 Framing GoTime Model Json GoText GoPath Event Runner RunnerSpec Evidence Observe Normalize NormalizeHost NormalizeSpec.
Local Open Scope Z_scope.

#[local] Arguments processStart : simpl never.
#[local] Arguments processExit : simpl never.
#[local] Arguments normalizeTiming : simpl never.
#[local] Arguments typedFact : simpl never.
#[local] Arguments semanticDigest : simpl never.
#[local] Arguments normalizeEvent : simpl never.
#[local] Arguments poll : simpl never.

(** An event that has the shape the normalizer asks for. *)
Definition shaped (e : ObservationEvent) : Prop := validateSource (oe_Source e) = Ok () ∧ validateKindPayload e = Ok ().

Lemma stamped_shaped limits a seq e :
  stamped limits a seq e →
  shaped e ∧ oe_SequenceNumber e = seq ∧ event_attempt e = attemptID (ar_Revision a) (ar_ScenarioID a) (ar_Repetition a).
Proof.
  intros (d & size & -> & Hd & _). split; [|done]. unfold ValidateEventDraft in Hd. apply bind_Ok in Hd as (_ & _ & Hd).
  apply reject_bind_Ok in Hd as [Hsrc Hd]. apply reject_bind_Ok in Hd as [Hcount Hd]. apply reject_bind_Ok in Hd as [Hkind _].
  apply negb_false_iff in Hkind. split; [unfold validateSource; cbn; by rewrite Hsrc|].
  unfold validateKindPayload. change (event_payloads (envelopeEvent a seq d)) with
    [is_some (ed_Process d); is_some (ed_Filesystem d); is_some (ed_Network d); is_some (ed_Artifact d);
     is_some (ed_Scenario d); is_some (ed_ObserverWarning d); is_some (ed_ResourceLimit d)].
  unfold payload_count in Hcount. rewrite Hcount. cbn [oe_Kind envelopeEvent oe_Process oe_Filesystem oe_Network oe_Artifact oe_Scenario oe_ObserverWarning oe_ResourceLimit].
  unfold payloadMatchesKind in Hkind. unfold supportedKind.
  repeat case_match; try (rewrite Hkind; done); try done.
Qed.

Lemma typedFact_total st0 evs fs st e ref :
  kept st0 evs fs st → validateKindPayload e = Ok () →
  Z.of_nat (S (length evs)) <= l_MaxProcessGenerationsPerAttempt (as_limits st0) →
  Z.of_nat (S (length evs)) <= l_MaxActiveProcessesPerAttempt (as_limits st0) →
  ∃ f st', typedFact st e ref = Ok (f, st').
Proof.
  intros HK Hp%payload_exact Hg Ha. pose proof (normalizeTiming_Ok _ _ _ _ e HK) as Ht. unfold typedFact.
  destruct (normalizeTiming st e) as [[timing tlim] s1]. destruct Ht as (_ & _ & _ & Hl1 & Hs1 & _).
  assert (isProcessKind (oe_Kind e) = (oe_Kind e == ObservationKindProcessStart) || (oe_Kind e == ObservationKindProcessExit)) as Hk.
  { unfold isProcessKind. repeat case_bool_decide; cbn; set_solver. }
  rewrite Hk in Hp. unfold payloads in Hp.
  destruct (oe_Kind e == ObservationKindProcessStart); cbn in Hp |- *.
  { destruct Hp as [p Hp]. injection Hp as -> _ _ _ _ _ _. unfold processStart, namespaceOf. rewrite Hs1. fold (namespaceOf st (oe_Source e)).
    destruct (parentOf _ _) as [[? ?] ?]. rewrite Hl1, (kp_limits _ _ _ _ HK). pose proof (kp_bounded _ _ _ _ HK (oe_Source e)) as [? ?].
    unfold reject_if. rewrite (proj2 (orb_false_iff _ _)); [by do 2 eexists|]. split; apply Z.ltb_ge; lia. }
  destruct (oe_Kind e == ObservationKindProcessExit); cbn in Hp |- *.
  { destruct Hp as [p Hp]. injection Hp as -> _ _ _ _ _ _. destruct (processExit _ _ _) as [[? ?] ?]. by do 2 eexists. }
  repeat case_match; try (by do 2 eexists). by destruct Hp.
Qed.

Lemma semanticDigest_total profile timing s1 e ref f s' :
  typed timing s1 e ref f s' → validateKindPayload e = Ok () → ∃ d, semanticDigest profile f = Ok d.
Proof.
  intros (_ & Hk & _ & _ & H1 & H2 & H3 & H4 & H5 & H6 & H7) Hp%payload_exact. unfold semanticDigest, semanticPreimage.
  assert (∃ b, payloadBytes f = Ok b) as [b ->]; [|by eexists]. unfold payloadBytes. rewrite Hk. unfold payloads in Hp.
  destruct (isProcessKind (oe_Kind e)).
  { destruct Hp as [p Hp]. injection Hp as Hp _ _ _ _ _ _.
    destruct H7 as [(? & pf & ? & _ & _ & -> & _)|[(? & pf & ? & _ & _ & -> & _)|(Hn & _)]]; [by eexists..|congruence]. }
  repeat case_match; try destruct Hp as [? Hp]; try destruct Hp as [x Hp]; try done; injection Hp as E1 E2 E3 E4 E5 E6 E7;
    rewrite ?E2, ?E3, ?E4, ?E5, ?E6, ?E7 in *; simplify_eq; try (by eexists); cbn in *; congruence.
Qed.

Lemma eventFact_total plan st0 evs fs st e :
  kept st0 evs fs st → shaped e →
  Z.of_nat (S (length evs)) <= l_MaxProcessGenerationsPerAttempt (as_limits st0) →
  Z.of_nat (S (length evs)) <= l_MaxActiveProcessesPerAttempt (as_limits st0) → 1 <= l_MaxEvidenceRefsPerFact (as_limits st0) →
  ∃ f st', eventFact plan st e = Ok (f, st').
Proof.
  intros HK [Hsrc Hp] Hg Ha Hr. unfold eventFact, normalizeEvent. rewrite Hsrc, Hp.
  set (ref := with_event _ _ _). destruct (typedFact_total _ _ _ _ e ref HK Hp Hg Ha) as (f & st' & Hf).
  cbn [mbind result_bind]. rewrite Hf. apply (typedFact_Ok _ _ _ _ _ ()) in Hf; [|done].
  destruct (normalizeTiming st e) as [[timing tlim] s1]. cbn [mbind result_bind].
  destruct (semanticDigest_total (as_profile st) _ _ _ _ _ _ Hf Hp) as [d Hd].
  assert (semanticDigest (as_profile st) (with_limitations (sortLimitations (f_Limitations f)) f) = Ok d) as -> by done.
  cbn [mbind result_bind]. rewrite (kp_limits _ _ _ _ HK).
  destruct Hf as (_ & _ & _ & He & _). cbn [with_digest with_limitations f_Evidence]. rewrite He. unfold reject_if.
  change (Z.of_nat (length [ref])) with 1. rewrite (proj2 (Z.ltb_ge _ _) Hr). by do 2 eexists.
Qed.

(** A walk over events that fit. *)
Section progress.
Context (limits : Limits) (plan : Digest) (w0 : walkState).
Context (Hinj : ∀ id idx id', wk_byID w0 !! id = Some idx → wk_byID w0 !! id' = Some idx → id = id').
Context (Hstart : wk_prior w0 = 0 ∧ wk_facts w0 = 0 ∧ wk_refs w0 = 0).
Context (Hready : ∀ id idx, wk_byID w0 !! id = Some idx →
  ∃ st a, wk_states w0 !! id = Some st ∧ fresh st ∧ as_limits st = limits ∧ wk_docs w0 !! idx = Some a ∧ at_Facts a = []).
Context (Hevidence : 1 <= l_MaxEvidenceRefsPerFact limits).

Definition fits (l : list ObservationEvent) : Prop :=
  Z.of_nat (length l) <= l_MaxFactsPerTraceSet limits ∧ Z.of_nat (length l) <= l_MaxEvidenceRefsTotal limits ∧
  (∀ i e, l !! i = Some e → oe_SequenceNumber e = Z.of_nat i + 1 ∧ shaped e ∧ is_Some (wk_byID w0 !! event_attempt e)) ∧
  ∀ id, Z.of_nat (length (of_attempt id l)) <= l_MaxProcessGenerationsPerAttempt limits ∧
        Z.of_nat (length (of_attempt id l)) <= l_MaxActiveProcessesPerAttempt limits.

Lemma fits_prefix l e : fits (l ++ [e]) → fits l.
Proof.
  intros (H1 & H2 & H3 & H4). rewrite length_app in *. split_and!; [lia|lia| |].
  - intros i x Hx. apply H3. by apply lookup_app_l_Some.
  - intros id. specialize (H4 id). unfold of_attempt in *. rewrite filter_app, length_app in H4. lia.
Qed.
Lemma walk_progress l :
  fits l → ∃ w, foldR (visit limits (λ _, None) plan) w0 l = Ok w ∧ wk_refs w = Z.of_nat (length l).
Proof.
  induction l as [|e l IH] using rev_ind; intros Hfit; [exists w0; split; [done|apply Hstart]|].
  destruct (IH (fits_prefix _ _ Hfit)) as (w & Hw & Hrefs). clear IH.
  pose proof (walk_Ok _ _ _ _ _ _ Hinj (proj1 Hstart) Hw) as [W1 W2 W3 W4 W5 W6 W7 W8 W9].
  destruct Hfit as (F1 & F2 & F3 & F4). destruct Hstart as (S1 & S2 & S3).
  destruct (F3 (length l) e) as (Hseq & Hshape & [idx Hidx]); [by rewrite list_lookup_middle|].
  destruct (Hready _ _ Hidx) as (st0 & a0 & Hst0 & Hfresh & Hlim & Ha0 & Hf0).
  destruct (W3 _ _ _ _ Hidx Hst0 Ha0 Hf0) as (fs & st & Hst & _ & Hn).
  apply normalized_spec in Hn as [HK _]; [|done].
  specialize (F4 (event_attempt e)). unfold of_attempt in F4. rewrite filter_app, filter_cons_True, filter_nil, length_app in F4 by done. cbn in F4.
  destruct (eventFact_total plan st0 _ _ st e HK Hshape) as (f & st' & Hf); [unfold of_attempt; rewrite Hlim; lia|unfold of_attempt; rewrite Hlim; lia|by rewrite Hlim|].
  rewrite length_app in F1, F2. cbn in F1, F2.
  rewrite foldR_app, Hw. cbn [mbind result_bind foldR]. unfold visit. cbn [poll mbind result_bind]. fold (event_attempt e).
  rewrite W1, Hidx, Hst. unfold eventFact in Hf. apply bind_Ok in Hf as ([f1 st1] & Hf & _). rewrite Hf.
  assert (f_Evidence f1 = [with_event (as_attemptKey st) (oe_ID e) (oe_SequenceNumber e)]) as Hev.
  { assert (eventFact plan st e = Ok (with_id (factID plan (event_attempt e) (f_SemanticDigest f1) [oe_ID e]) f1, st1)) as Hx by (unfold eventFact; by rewrite Hf).
    destruct (eventFact_step _ _ _ _ _ _ _ _ HK Hx) as ([_ _ He _ _ _ _ _ _ _ _ _] & _). rewrite (kp_key _ _ _ _ HK). exact He. }
  unfold reject_if. rewrite (proj2 (Z.leb_gt _ _)) by lia.
  assert ((wk_prior w != 0) && (oe_SequenceNumber e != wk_prior w + 1) = false) as ->.
  { rewrite W5. destruct l as [|x l] using rev_ind; [cbn; rewrite S1; done|]. rewrite last_snoc. cbn.
    destruct (F3 (length l) x) as (Hx & _); [rewrite lookup_app_l by (rewrite length_app; cbn; lia); by rewrite list_lookup_middle|].
    rewrite length_app in Hseq. cbn in Hseq. rewrite (bool_decide_true (oe_SequenceNumber e = _)) by lia. by rewrite andb_false_r. }
  cbn [mbind result_bind with_id f_Evidence]. rewrite Hev.
  rewrite (proj2 (Z.ltb_ge _ (wk_facts w + 1))) by lia. cbn [mbind result_bind].
  rewrite (proj2 (Z.ltb_ge _ (wk_refs w + _))) by (cbn; lia).
  eexists. split; [done|]. cbn. rewrite length_app. cbn. lia.
Qed.
End progress.

(** ** The attempts of a bundle *)

Lemma enrol_progress limits profile b l : ∀ n w,
  (∀ x, x ∈ l → sameAttempt x.1 x.2 = true) → (∀ x, x ∈ l → ∃ entry, EventStreamReference b (requestKey x.1) = Ok entry) →
  ∃ w', foldR (enrol limits profile b) w (imap (λ i x, ((n + i)%nat, x)) l) = Ok w'.
Proof.
  induction l as [|[req va] l IH]; intros n w Hsame Hstream; [by eexists|]. cbn [imap foldR].
  unfold enrol. assert (sameAttempt req va = true) as -> by (apply (Hsame (req, va)), list_elem_of_here). cbn [negb reject_if mbind result_bind].
  destruct (Hstream (req, va) (list_elem_of_here _ _)) as [entry Hentry]. unfold requestKey in Hentry. cbn [fst] in Hentry.
  rewrite Hentry. cbn [mret result_ret].
  match goal with |- context [foldR _ ?w1 _] => destruct (IH (S n) w1) as [w' Hw'] end.
  { intros x Hx. apply Hsame. by apply list_elem_of_further. }
  { intros x Hx. apply Hstream. by apply list_elem_of_further. }
  exists w'. rewrite <- Hw'. f_equal. apply imap_ext. intros i x _. cbn. f_equal. lia.
Qed.

(** Each attempt that ran has no more events than the limit of the runner. *)
Lemma ran_of_attempt limits seq l chunks results :
  ran limits seq l chunks results → NoDup (ar_AttemptID <$> l) → (∀ a, a ∈ l → ar_AttemptID a = attemptID (ar_Revision a) (ar_ScenarioID a) (ar_Repetition a)) →
  0 <= l_MaxEventsPerAttempt limits →
  (∀ e, e ∈ concat chunks → event_attempt e ∈ ar_AttemptID <$> l) ∧
  ∀ id, Z.of_nat (length (of_attempt id (concat chunks))) <= l_MaxEventsPerAttempt limits.
Proof.
  intros H. induction H as [|seq a l chunk Hc Hs|seq a l chunk o chunks results Hc Hs Ho _ IH]; intros Hnd Hid Hpos.
  { split; [by intros e ?%not_elem_of_nil|]. intros id. cbn. lia. }
  all: assert (∀ e, e ∈ chunk → event_attempt e = ar_AttemptID a) as Hchunk by
    (intros e [i Hi]%list_elem_of_lookup; apply Hc, stamped_shaped in Hi as (_ & _ & ->); by rewrite Hid by apply list_elem_of_here).
  all: assert (Z.of_nat (length chunk) <= l_MaxEventsPerAttempt limits) as Hlen by (destruct Hs as [->|?]; [cbn; lia|done]).
  - cbn [concat]. rewrite app_nil_r. split; [intros e He; rewrite (Hchunk e He); apply list_elem_of_here|].
    intros id. pose proof (length_filter (λ e, event_attempt e = id) chunk). unfold of_attempt. lia.
  - cbn in Hnd. inversion_clear Hnd as [|? ? Hna Hnl]. destruct IH as [IH1 IH2]; [done|intros x Hx; apply Hid; by apply list_elem_of_further|done|].
    cbn [concat]. split.
    + intros e [He|He]%elem_of_app; [rewrite (Hchunk e He); apply list_elem_of_here|]. apply list_elem_of_further. by apply IH1.
    + intros id. unfold of_attempt. rewrite filter_app, length_app. destruct (decide (ar_AttemptID a = id)) as [<-|Hne].
      * rewrite (filter_none _ (concat chunks)) by (intros e He E; apply Hna; rewrite <- E; by apply IH1). cbn.
        pose proof (length_filter (λ e, event_attempt e = ar_AttemptID a) chunk). lia.
      * rewrite (filter_none _ chunk) by (intros e He E; apply Hne; by rewrite <- (Hchunk e He)). apply IH2.
Qed.

(** A bundle that records an execution: its plan, its attempts with their event
    streams, and the events that the sink took. *)
Record recorded (b : Bundle) (doc : RunPlan) (digest : Digest) (attempts : list AttemptRequest) (evs : list ObservationEvent) : Prop := {
  rd_open : b_closed b = false;
  rd_walk : b_walk_end b = None;
  rd_plan : b_plan b = doc;
  rd_digest : mf_PlanDigest (b_manifest b) = digest;
  rd_execution : xd_PlanDigest (b_execution b) = digest;
  rd_named : mf_RunID (b_manifest b) <> ""%string ∧ digest <> ""%string ∧ b_manifestDigest b <> ""%string;
  rd_attempts : Forall2 (λ req va, sameAttempt req va = true) attempts (b_attempts b);
  rd_streams req : req ∈ attempts → is_Some (b_eventsByAttempt b !! requestKey req);
  rd_events : b_events b = evs
}.

(** A repetition is no larger than the number of attempts. *)
Lemma repetition_bound doc r s rep :
  (r, s, rep) ∈ allTriples doc → 1 <= rep <= Z.of_nat (length (allTriples doc)).
Proof.
  intros H. apply elem_of_allTriples in H as (Hr & Hs & Hrep). split; [lia|].
  assert (length ((λ rep, (r, s, rep)) <$> seqZ 1 (sp_Repetitions s)) <= length (allTriples doc))%nat as H.
  { etrans; [|apply (length_bind_elem _ _ r Hr)]. by apply (length_bind_elem (λ s, (λ rep, (r, s, rep)) <$> seqZ 1 (sp_Repetitions s))). }
  rewrite length_fmap, length_seqZ in H. lia.
Qed.
Lemma requests_named doc digest l :
  ExpandPlanDocument doc digest = Ok l →
  (∀ a, a ∈ l → ar_AttemptID a = attemptID (ar_Revision a) (ar_ScenarioID a) (ar_Repetition a)) ∧
  rp_Runner doc = zeroCapabilities ∧ rp_RunID doc <> ""%string ∧ Z.of_nat (length l) <= MaxAttempts.
Proof.
  intros H. destruct (ExpandPlanDocument_Ok _ _ _ H) as (-> & Hlen & Hv & _). split_and!; [| | |done].
  - intros a [i Hi]%list_elem_of_lookup. rewrite list_lookup_imap in Hi. destruct (allTriples doc !! i) as [x|] eqn:Hx; [|done]. apply list_elem_of_lookup_2 in Hx. cbn in Hi. apply (inj Some) in Hi. subst a.
    destruct x as [[r s] rep]. apply repetition_bound in Hx. rewrite length_imap in Hlen. unfold Runner.MaxAttempts in Hlen.
    unfold requestOf, attemptRequest. cbn -[attemptID]. by rewrite Z.mod_small by lia.
  - unfold validatePlanDocument in Hv. apply reject_bind_Ok in Hv as [_ Hv]. apply reject_bind_Ok in Hv as [Hz _].
    apply negb_false_iff in Hz. by apply bool_decide_eq_true in Hz.
  - unfold validatePlanDocument in Hv. apply reject_bind_Ok in Hv as [Hz _]. rewrite !orb_false_iff in Hz.
    destruct Hz as [[_ Hz] _]. by apply bool_decide_eq_false in Hz.
Qed.

Lemma runner_limits l :
  Runner.validateLimits l = Ok () →
  0 < Runner.l_MaxEventsPerAttempt l <= MaxEventsPerAttempt ∧ 0 < Runner.l_MaxEventsPerExecution l <= MaxEventsPerExecution.
Proof.
  unfold Runner.validateLimits, Runner.limitChecks. cbn [foldR]. unfold reject_if. intros H.
  destruct (_ || _); [discriminate H|]. destruct ((l_MaxEventsPerAttempt _ <=? _) || _) eqn:H1; [discriminate H|].
  destruct ((l_MaxEventsPerExecution _ <=? _) || _) eqn:H2; [discriminate H|].
  rewrite !orb_false_iff, !Z.leb_gt, !Z.ltb_ge in H1, H2. lia.
Qed.

(** What was executed, in chunks by attempt, or nothing. *)
Lemma executes_events env ctx doc digest backend requirements limits res err trace attempts :
  executes env ctx (Some (doc, digest)) backend requirements limits (res, err, trace) → ExpandPlanDocument doc digest = Ok attempts →
  ∃ chunks results, events trace = concat chunks ∧ ran limits 0 attempts chunks results ∧
    (chunks = [] ∨ Runner.validateLimits limits = Ok ()) ∧ Z.of_nat (length (events trace)) <= MaxEventsPerExecution.
Proof.
  intros H Hexp. apply executes_cases in H as [(_ & -> & _)|(doc' & digest' & attempts' & caps & chunks & [Hp Hl He _ _ _ Hr Hev Ht Hb _ _ _])].
  { exists [], []. split_and!; [done|constructor|by left|by vm_compute]. }
  injection Hp as <- <-. rewrite Hexp in He. apply Ok_inj in He as <-. exists chunks, (xr_Attempts res). split_and!; [done|done|by right|].
  rewrite Hev, <- Ht. destruct Hb as [->|Hb]; [done|].
  apply runner_limits in Hl. lia.
Qed.

Lemma executed_of_attempt limits attempts chunks results id :
  ran limits 0 attempts chunks results → chunks = [] ∨ Runner.validateLimits limits = Ok () → NoDup (ar_AttemptID <$> attempts) →
  (∀ a, a ∈ attempts → ar_AttemptID a = attemptID (ar_Revision a) (ar_ScenarioID a) (ar_Repetition a)) →
  Z.of_nat (length (of_attempt id (concat chunks))) <= MaxProcessGenerationsPerAttempt ∧
  Z.of_nat (length (of_attempt id (concat chunks))) <= MaxActiveProcessesPerAttempt.
Proof.
  intros Hran [->|Hlim%runner_limits] Hids Hname; [by vm_compute|].
  destruct (ran_of_attempt _ _ _ _ _ Hran Hids Hname) as [_ H]; [lia|]. specialize (H id).
  unfold MaxEventsPerAttempt, MaxProcessGenerationsPerAttempt, MaxActiveProcessesPerAttempt in *. lia.
Qed.

(** ** The limits of the caller *)

(** The strings of a path: as observed and as normalized. *)
Definition path_strings (roots : list PathRootAlias) (p : string) : list string :=
  let n := normalizeObservedPath p roots in [p; nzpath_Relative n; nzpath_Literal n; nzpath_Display n].

(** The strings that the fact of an event carries. *)
Definition event_strings (roots : list PathRootAlias) (e : ObservationEvent) : list string :=
  from_option (λ p, po_Operation p :: path_strings roots (po_ExecutablePath p) ++ po_Arguments p
                      ++ (po_Environment p ≫= λ v, [env_Name v; env_Value v])) [] (oe_Process e)
  ++ from_option (λ f, [fo_Operation f; fo_Mode f; fo_Digest f] ++ path_strings roots (fo_Path f) ++ path_strings roots (fo_OldPath f))
       [] (oe_Filesystem e)
  ++ from_option (λ n, [no_Operation n; no_Protocol n; no_QueryName n; no_DestinationHost n; no_Result n] ++ no_ResolvedAddresses n)
       [] (oe_Network e)
  ++ from_option (λ a, [Event.ao_Operation a; ao_ArtifactID a; ao_Digest a] ++ path_strings roots (ao_Path a) ++ ao_SourceEventIDs a)
       [] (oe_Artifact e)
  ++ from_option (λ s, [so_Status s; so_Message s]) [] (oe_Scenario e)
  ++ from_option (λ w, [wo_Code w; wo_Message w]) [] (oe_ObserverWarning e)
  ++ from_option (λ r, [ro_LimitKind r; ro_Unit r]) [] (oe_ResourceLimit e).
Definition event_arguments (e : ObservationEvent) : list string := from_option po_Arguments [] (oe_Process e).

(** The contents of a bundle are within what the caller allows: no string, no
    argument vector, and no more roots and limitations. *)
Definition contents_within (l : Limits) (b : Bundle) : Prop :=
  Forall (λ e, Forall (λ s, str_len s <= l_MaxNormalizedStringBytes l) (event_strings (rootAliases (b_plan b)) e) ∧
               Z.of_nat (length (event_arguments e)) <= l_MaxNormalizedArguments l ∧
               Z.of_nat (sum_list (String.length <$> event_arguments e)) <= l_MaxNormalizedArgumentBytes l) (b_events b) ∧
  Z.of_nat (length (rootAliases (b_plan b))) <= l_MaxPathRoots l ∧
  Forall (λ va, Z.of_nat (length (attemptLimitations va (b_manifest b))) < l_MaxLimitationsPerAttempt l) (b_attempts b) ∧
  Z.of_nat (length (globalLimitations b))
    + Z.of_nat (sum_list ((λ va, S (length (attemptLimitations va (b_manifest b)))) <$> b_attempts b)) <= l_MaxLimitationsTotal l.

(** And so are its counts: the attempts, the events, and those of each attempt. *)
Definition counts_within (l : Limits) (attempts : list AttemptRequest) (evs : list ObservationEvent) : Prop :=
  Z.of_nat (length attempts) <= l_MaxAttempts l ∧
  Z.of_nat (length evs) <= l_MaxFactsPerTraceSet l ∧ Z.of_nat (length evs) <= l_MaxEvidenceRefsTotal l ∧
  ∀ id, Z.of_nat (length (of_attempt id evs)) <= l_MaxFactsPerAttempt l ∧
        Z.of_nat (length (of_attempt id evs)) <= l_MaxProcessGenerationsPerAttempt l ∧
        Z.of_nat (length (of_attempt id evs)) <= l_MaxActiveProcessesPerAttempt l.

Lemma caller_limits nl : validateLimits nl = Ok () → 1 <= l_MaxEvidenceRefsPerFact nl.
Proof.
  unfold validateLimits. intros H. apply reject_bind_Ok in H as [_ H].
  assert (∀ x, x ∈ limitChecks nl → reject_if ((x.1.1 <=? 0) || (x.1.2 <? x.1.1)) (errCode "invalid-limits" "limits" "" x.2) = Ok ()) as Hall.
  { revert H. generalize (limitChecks nl). induction l as [|[[v m] name] l IH]; cbn [foldR]; intros H x Hx; [by apply not_elem_of_nil in Hx|].
    apply bind_Ok in H as ([] & H1 & H2). apply elem_of_cons in Hx as [->|Hx]; [exact H1|by apply IH]. }
  specialize (Hall (l_MaxEvidenceRefsPerFact nl, MaxEvidenceRefsPerFact, "maxEvidenceRefsPerFact"%string)).
  apply reject_if_Ok in Hall; [cbn in Hall; apply orb_false_iff in Hall as [Hall _]; apply Z.leb_gt in Hall; lia|].
  unfold limitChecks. do 3 apply list_elem_of_further. apply list_elem_of_here.
Qed.

(** No limit of the normalizer is below the runner's: what an execution leaves is
    within the counts of the default limits. *)
Lemma executed_counts env ctx doc digest backend requirements limits res err trace attempts :
  executes env ctx (Some (doc, digest)) backend requirements limits (res, err, trace) →
  ExpandPlanDocument doc digest = Ok attempts → NoDup (sp_ID <$> rp_Scenarios doc) →
  counts_within DefaultLimits attempts (events trace).
Proof.
  intros Hex Hexp Hnd. pose proof (attempts_distinct _ _ _ Hexp Hnd) as Hids.
  destruct (requests_named _ _ _ Hexp) as (Hname & _ & _ & Hcount).
  destruct (executes_events _ _ _ _ _ _ _ _ _ _ _ Hex Hexp) as (chunks & results & Hev & Hran & Hlim & Hmax).
  split; [exact Hcount|]. unfold MaxEventsPerExecution in Hmax. cbn. unfold MaxFactsPerTraceSet, MaxEvidenceRefsTotal.
  split; [lia|]. split; [lia|]. intros id. rewrite Hev.
  destruct (executed_of_attempt limits attempts chunks results id Hran Hlim Hids Hname) as [H1 H2].
  unfold MaxFactsPerAttempt, MaxProcessGenerationsPerAttempt, MaxActiveProcessesPerAttempt in *. lia.
Qed.

(** Whatever an execution of a plan with distinct scenarios and a supported profile
    left in the sink - complete or not, and however its backend, hooks and sink
    answered - a bundle that records it is turned into a trace document, under all
    limits that its counts are within. *)
Lemma execution_normalizes env ctx doc digest backend requirements limits res err trace attempts profile b nl :
  executes env ctx (Some (doc, digest)) backend requirements limits (res, err, trace) →
  ExpandPlanDocument doc digest = Ok attempts → NoDup (sp_ID <$> rp_Scenarios doc) → profileFromPlan doc = Ok profile →
  recorded b doc digest attempts (events trace) → validateLimits nl = Ok () → counts_within nl attempts (events trace) →
  ∃ d, Normalize nl (λ _, None) (Some b) = Ok d ∧ length (tsd_Attempts d) = length attempts.
Proof.
  intros Hex Hexp Hnd Hprof Hrec Hnl (Cn & Cs & Cr & Ca). pose proof (attempts_distinct _ _ _ Hexp Hnd) as Hids.
  destruct (requests_named _ _ _ Hexp) as (Hname & Hzero & Hrun & _).
  destruct (executes_events _ _ _ _ _ _ _ _ _ _ _ Hex Hexp) as (chunks & results & Hev & Hran & _ & _).
  destruct Hrec as [Hopen Hwalk Hplan Hdig Hxd (Hrid & Hdn & Hmd) Hatt Hstr Hevs].
  assert (∃ doc', normalizeDocument nl (λ _, None) b = Ok doc') as [doc' Hdoc].
  { assert (length attempts = length (b_attempts b)) as Hlen by by eapply Forall2_length.
    assert (∀ x, x ∈ zip attempts (b_attempts b) → sameAttempt x.1 x.2 = true ∧ x.1 ∈ attempts) as Hzip.
    { intros [req va] [i Hi]%list_elem_of_lookup. apply lookup_zip_with_Some in Hi as (? & ? & [= <- <-] & H1 & H2).
      split; [|by eapply list_elem_of_lookup_2]. by eapply (Forall2_lookup_lr (λ req va, sameAttempt req va = true)). }
    destruct (enrol_progress nl profile b (zip attempts (b_attempts b)) 0 (mkWalk [] ∅ ∅ 0 0 0 1)) as [w0 Hw0].
    { intros x Hx. by apply Hzip. }
    { intros x Hx. unfold EventStreamReference. rewrite Hopen. destruct (Hstr x.1) as [en ->]; [by apply Hzip|]. by eexists. }
    change (imap (λ i x, ((0 + i)%nat, x)) (zip attempts (b_attempts b))) with (imap pair (zip attempts (b_attempts b))) in Hw0.
    assert (∃ w, WalkEvents nl (λ _, None) digest b w0 = Ok w) as [w Hw].
    { unfold WalkEvents. rewrite Hopen, Hwalk, Hevs. 
      apply enrol_Ok in Hw0 as [E1 E2 E3 E4 E5].
      assert ((λ x : AttemptRequest * VerifiedAttempt, ar_AttemptID x.1) <$> zip attempts (b_attempts b) = ar_AttemptID <$> attempts) as Hzids.
      { rewrite <- (fst_zip attempts (b_attempts b)) at 2 by lia. by rewrite <- list_fmap_compose. }
      rewrite Hzids in E4.
      destruct (walk_progress nl digest w0) with (l := events trace) as (w & -> & _); [| | | | |by eexists].
      - intros id idx id' (x & Hx & <-)%E3 (y & Hy & <-)%E3. congruence.
      - destruct E5 as (? & ? & ?). done.
      - intros id idx (x & Hx & <-)%E3. destruct (E4 idx x Hids Hx) as (_ & entry & _ & Hst).
        eexists _, _. split; [exact Hst|]. split; [done|]. split; [done|]. by rewrite E1, list_lookup_fmap, Hx.
      - by apply caller_limits.
      - split_and!; [exact Cs|exact Cr| |].
        + intros i e He. rewrite Hev in He. destruct (ran_numbered _ _ _ _ _ Hran i e He) as (a & Ha & Hst).
          apply stamped_shaped in Hst as (Hsh & -> & Hat). split; [lia|]. split; [done|]. rewrite Hat, <- Hname by done.
          apply list_elem_of_lookup in Ha as [j Hj]. destruct (lookup_lt_is_Some_2 (b_attempts b) j) as [va Hva].
          { apply lookup_lt_Some in Hj. lia. }
          destruct (E4 j (a, va) Hids) as [Hb _]; [apply lookup_zip_with_Some; eauto|]. cbn in Hb. rewrite Hb. by eexists.
        + intros id. apply Ca. }
    unfold normalizeDocument. rewrite Hplan, Hxd, Hdig, Hzero, Hprof, Hexp. cbn [mbind result_bind].
    rewrite (bool_decide_false (mf_RunID _ = _)), (bool_decide_false (digest = _)), (bool_decide_false (rp_RunID _ = _)) by done.
    rewrite (bool_decide_true (digest = digest)), (bool_decide_true (zeroCapabilities = _)) by done. cbn [orb negb reject_if mbind result_bind].
    rewrite (bool_decide_false (b_manifestDigest _ = _)) by done. cbn [reject_if mbind result_bind].
    rewrite (bool_decide_false (length _ <> length _)) by (by intros H; apply H). cbn [orb].
    unfold reject_if. rewrite (proj2 (Z.ltb_ge _ _)) by exact Cn. cbn [mbind result_bind].
    rewrite Hw0. cbn [mbind result_bind]. rewrite Hw. by eexists. }
  exists (cloneTraceDocument doc'). split; [unfold Normalize; rewrite Hnl; cbn [mbind result_bind]; by rewrite Hdoc|]. cbn. rewrite length_fmap.
  apply normalizeDocument_Ok in Hdoc as (? & reqs & _ & Hexp' & _ & Hlen & _); [|by rewrite Hplan].
  rewrite Hplan, Hdig, Hexp in Hexp'. by apply Ok_inj in Hexp' as <-.
Qed.
