(* ===== verification/NormalizeEx.v ===== *)
(** * The normalizer on a concrete execution

    The execution of [RunnerEx], in a bundle, is normalized: its processes, which run
    under other numbers in every attempt, get the same identities in each; and the
    laws of the normalizer are applied to it. *)

From stdpp Require Import prelude gmap strings.
From Stdlib Require Import ZArith Lia Ascii.
From S2P Require Import Prelude GoStd Sha256 Framing GoTime Model Json GoText GoPath Event Runner RunnerSpec RunnerEx Evidence Observe Normalize NormalizeHost NormalizeSpec NormalizeTotal.
Local Open Scope Z_scope.

Definition ex_manifest : Manifest :=
  mkManifest "schema" "manifest-1" "run-1" ex_created "directory-v1alpha1" ex_digest true true true [] [] [] [] None.
Definition ex_execution : ExecutionDocument :=
  mkExecutionDocument "schema" "run-1" ex_digest ex_capabilities true true true 16 [] [] None.
Definition ex_verified (a : AttemptRequest) : VerifiedAttempt :=
  mkVerifiedAttempt (ar_AttemptID a) (ar_GlobalOrdinal a) (ar_Revision a) (ar_ScenarioID a) (ar_Repetition a) ""
    CaptureStateCaptured CaptureStateCapturedEmpty CaptureStateCapturedEmpty CaptureStateCapturedEmpty CaptureStateCaptured 1 4 4.
Definition ex_entry (a : AttemptRequest) : ManifestEntry :=
  mkManifestEntry ("attempts/" +:+ ar_AttemptID a +:+ "/events.ndjson") "events" "application/x-ndjson" ex_digest 100
    (ar_Revision a) (ar_ScenarioID a) (ar_Repetition a) CaptureStateCaptured false false 0 0.
Definition ex_bundle : Bundle :=
  mkBundle false ex_manifest ("sha256:" +:+ of_bytes (replicate 64 "1"%char)) ex_doc ex_execution (ex_verified <$> ex_attempts)
    (mkVerificationSummary VerificationModeInternalConsistencyOnly "" false false true [])
    (list_to_map ((λ a, (requestKey a, ex_entry a)) <$> ex_attempts)) (events ex_out.2) None.

Definition ex_document : result NormalizeError TraceSetDocument := normalizeDocument DefaultLimits (λ _, None) ex_bundle.
Definition no_document : TraceSetDocument :=
  mkTraceSetDocument "" (mkNormalizationProfile "" [] "" "" "" []) "" "" "" (mkManifestVerification "" "" false false false []) false false
    (mkEvidenceContext false false) [] [].
Definition document_of (r : result NormalizeError TraceSetDocument) : TraceSetDocument := match r with Ok d => d | Err _ => no_document end.
Definition is_ok (r : result NormalizeError TraceSetDocument) : bool := match r with Ok _ => true | Err _ => false end.
Lemma document_of_ok r : is_ok r = true → r = Ok (document_of r).
Proof. by destruct r. Qed.
Definition ex_traces : TraceSetDocument := document_of ex_document.
Definition starts_of (a : AttemptTrace) : list (string * string * ProcessID * ProcessID) :=
  omap (λ f, (λ p, (nzpath_Display (pf_Executable p), pf_ParentRelation p, pf_StableID p, pf_ParentStableID p)) <$> f_Process f) (at_Facts a).

(** Every attempt has the same two processes, the second a child of the first. *)
Definition ex_processes : list (list (string * string * ProcessID * ProcessID)) :=
  starts_of <$> tsd_Attempts ex_traces.
Example ex_same_processes :
  match ex_processes with
  | [[("@workdir/make", "root", make, ""); ("/usr/bin/cc", "known-parent", cc, parent)] as first; a2; a3; a4]%string =>
    bool_decide (parent = make ∧ cc <> make ∧ a2 = first ∧ a3 = first ∧ a4 = first)
  | _ => false
  end = true.
Proof. vm_compute. reflexivity. Qed.

(** One argument with a space in it prints like two. *)
Example arguments_confused : print_strings ["cc"; "a b"] = print_strings ["cc"; "a"; "b"].
Proof. reflexivity. Qed.

(** ** The laws on this bundle *)

Lemma ex_bundle_scenarios : NoDup (sp_ID <$> rp_Scenarios (b_plan ex_bundle)).
Proof. apply NoDup_singleton. Qed.
Lemma ex_document_ok : ex_document = Ok ex_traces.
Proof. apply document_of_ok. vm_compute. reflexivity. Qed.
Lemma ex_produced : normalizeDocument DefaultLimits (λ _, None) ex_bundle = Ok ex_traces.
Proof. exact ex_document_ok. Qed.
Lemma ex_normalized : Normalize DefaultLimits (λ _, None) (Some ex_bundle) = Ok (cloneTraceDocument ex_traces).
Proof.
  unfold Normalize. assert (validateLimits DefaultLimits = Ok ()) as -> by (vm_compute; reflexivity).
  fold ex_document. rewrite ex_document_ok. reflexivity.
Qed.

(** Other process numbers, and a clock that is five seconds off. *)
Definition ex_host : Host := mkHost (λ _ _ pid, - pid) (λ _ _, 5 * second) (λ t, t + 1).
Lemma ex_host_clock : Forall (in_clock ex_host) (b_events ex_bundle).
Proof.
  apply Forall_forall. intros e He.
  assert (forallb (λ e, (0 <=? oe_ObservedAt e) && (oe_ObservedAt e <? 2 ^ 62)) (b_events ex_bundle) = true) as H by (vm_compute; reflexivity).
  rewrite forallb_forall in H. specialize (H e). rewrite <- list_elem_of_In, andb_true_iff in H. specialize (H He).
  destruct H as [H1%Z.leb_le H2%Z.ltb_lt]. unfold in_clock, is_i64. cbn. unfold second, nanos_per_second. lia.
Qed.
Lemma host_forgotten_witness :
  (b_events (relabel_bundle ex_host ex_bundle) <> b_events ex_bundle) ∧
  Normalize DefaultLimits (λ _, None) (Some (relabel_bundle ex_host ex_bundle)) = Ok (cloneTraceDocument ex_traces).
Proof.
  split.
  - intros E. apply (f_equal (λ l, oe_ObservedAt <$> head l)) in E. revert E. vm_compute. discriminate.
  - rewrite <- ex_normalized. apply host_forgotten; [|done|exact ex_host_clock]. intros id src x y. cbn. lia.
Defined.

Lemma facts_exact_witness : ∃ doc, cloneTraceDocument ex_traces = cloneTraceDocument doc ∧ length (tsd_Attempts doc) = 4%nat.
Proof.
  destruct (facts_exact _ _ _ _ ex_bundle_scenarios ex_normalized) as (doc & profile & reqs & E & _ & _ & Hexp & Hlen & _).
  exists doc. split; [exact E|]. rewrite Hlen. change (ExpandPlanDocument ex_doc ex_digest = Ok reqs) in Hexp.
  rewrite ex_expand in Hexp. apply Ok_inj in Hexp as <-. vm_compute. reflexivity.
Defined.

Definition two_starts (a : AttemptTrace) : bool :=
  match at_Facts a !! 1%nat, at_Facts a !! 2%nat with
  | Some f, Some g => is_some (start_parts (at_Facts a) 1 f) && is_some (start_parts (at_Facts a) 2 g)
  | _, _ => false
  end.
Lemma ex_two_starts : existsb two_starts (tsd_Attempts ex_traces) = true.
Proof. vm_compute. reflexivity. Qed.
Lemma two_starts_true a : two_starts a = true →
  ∃ f g x y, at_Facts a !! 1%nat = Some f ∧ at_Facts a !! 2%nat = Some g ∧
    start_parts (at_Facts a) 1 f = Some x ∧ start_parts (at_Facts a) 2 g = Some y.
Proof.
  unfold two_starts. intros H. destruct (at_Facts a !! 1%nat) as [f|]; [|done]. destruct (at_Facts a !! 2%nat) as [g|]; [|done].
  destruct (start_parts _ 1 f) as [x|] eqn:Hx; [|done]. destruct (start_parts _ 2 g) as [y|] eqn:Hy; [|done]. by exists f, g, x, y.
Qed.
Lemma processes_identified_witness :
  ∃ a f g x y, a ∈ tsd_Attempts ex_traces ∧ at_Facts a !! 1%nat = Some f ∧ at_Facts a !! 2%nat = Some g ∧
    start_parts (at_Facts a) 1 f = Some x ∧ start_parts (at_Facts a) 2 g = Some y ∧ x <> y.
Proof.
  destruct (proj1 (existsb_exists _ _) ex_two_starts) as (a & Ha & H2). apply list_elem_of_In in Ha.
  destruct (processes_identified _ _ _ _ ex_bundle_scenarios ex_produced a Ha) as (_ & _ & H).
  destruct (two_starts_true a H2) as (f & g & x & y & E1 & E2 & E3 & E4).
  exists a, f, g, x, y. split; [exact Ha|]. split; [exact E1|]. split; [exact E2|]. split; [exact E3|]. split; [exact E4|].
  intros ->. specialize (H 1%nat 2%nat f g y E1 E2 E3 E4). discriminate H.
Defined.
