(* ===== verification/PlanSpec.v ===== *)
(** * What the planner guarantees

    The plan takes what it executes from the base revision only, stays within the
    ceilings of the platform, and is one that the runner expands: from a trusted
    configuration to the attempts nothing is left to fail. *)

From stdpp Require Import prelude gmap strings sorting list_numbers.
From Stdlib Require Import ZArith Lia.
From S2P Require Import Prelude GoStd Sha256 Framing GoTime Model Json GoText GoPath Yaml Config ConfigParse ConfigValidate ConfigTrusted ConfigSpec Plan Event Runner RunnerSpec Evidence Observe Normalize NormalizeSpec NormalizeTotal TrustedSpec.
Local Open Scope Z_scope.

(** ** What was built *)

Record built (ctx : option CtxCause) (r : BuildRequest) (fp : FrozenPlan) (createdAt : Time) (base head : SourceSnapshot) : Prop := {
  bt_run : validateRunID (br_RunID r) = Ok ();
  bt_created : normalizeCreatedAt (br_CreatedAt r) = Ok createdAt;
  bt_platform : validatePlatformConstraints (br_Platform r) = Ok ();
  bt_base : validateSourceSnapshot (br_BaseSource r) RevisionKindBase = Ok base;
  bt_head : validateSourceSnapshot (br_HeadSource r) RevisionKindHead = Ok head;
  bt_trusted : validateTrustedConsistency (br_Trusted r) base head = Ok ();
  bt_ceilings : enforcePlatform (tl_EffectivePipeline (br_Trusted r)) (br_Platform r) = Ok ();
  bt_doc : normalizeRunPlan (buildDocument (br_RunID r) createdAt (br_Trusted r) (tl_EffectivePipeline (br_Trusted r)) base head (br_Platform r)) = Ok (fp_doc fp);
  bt_json : fp_json fp = render (json_of_RunPlan (fp_doc fp));
  bt_digest : fp_digest fp = DigestRunPlanJSON (fp_json fp);
  bt_size : Z.of_nat (length (fp_json fp)) <= pc_MaxPlanJSONBytes (br_Platform r) ∧ Z.of_nat (length (fp_json fp)) <= MaxPlanJSONBytes
}.
Lemma Build_Ok ctx r fp : Build ctx r = Ok fp → ∃ createdAt base head, built ctx r fp createdAt base head.
Proof.
  unfold Build. intros (_ & _ & H)%bind_Ok. apply bind_Ok in H as ([] & H1 & H). apply bind_Ok in H as (createdAt & H2 & H).
  apply bind_Ok in H as ([] & H3 & H). apply bind_Ok in H as (base & H4 & H). apply bind_Ok in H as (head & H5 & H).
  apply bind_Ok in H as ([] & H6 & H). apply bind_Ok in H as ([] & H7 & H). apply bind_Ok in H as (doc & H8 & H).
  apply reject_bind_Ok in H as [H9 H]. apply Ok_inj in H as <-. apply orb_false_iff in H9 as [H9 H10].
  apply Z.ltb_ge in H9, H10. exists createdAt, base, head. by split.
Qed.

(** A snapshot that was validated is itself. *)
Lemma snapshot_Ok s want s' :
  validateSourceSnapshot s want = Ok s' →
  s' = s ∧ sn_RevisionKind s = want ∧ (∃ width, validObjectID (sn_CommitID s) width = true ∧ validObjectID (sn_TreeID s) width = true ∧ 0 < width) ∧
  validDigest (sn_MaterializedTreeDigest s) = true ∧ validDigest (sn_MaterializationManifestDigest s) = true ∧ planFormat (sn_ObjectFormat s) <> ""%string.
Proof.
  unfold validateSourceSnapshot. intros H. apply reject_bind_Ok in H as [H1 H]. apply bind_Ok in H as ([f w] & Hf & H).
  apply reject_bind_Ok in H as [H2 H]. apply reject_bind_Ok in H as [H3 H]. apply reject_bind_Ok in H as [H4 H]. apply reject_bind_Ok in H as [H5 H].
  apply bind_Ok in H as (_ & _ & H). apply reject_bind_Ok in H as [_ H]. apply bind_Ok in H as (_ & _ & H). apply Ok_inj in H as <-.
  apply negb_false_iff in H1, H2, H3, H4, H5. apply bool_decide_eq_true in H1.
  assert (sn_ObjectFormat s = f ∧ 0 < w ∧ planFormat (sn_ObjectFormat s) = f ∧ f <> ""%string) as (E & Hw & Hpf & Hne).
  { unfold planFormat. rewrite Hf. unfold modelFormatAndWidth in Hf.
    destruct (sn_ObjectFormat s == ObjectFormatSHA1) eqn:E1; [apply Ok_inj in Hf as [= <- <-]; apply bool_decide_eq_true in E1; done|].
    destruct (sn_ObjectFormat s == ObjectFormatSHA256) eqn:E2; [|done]. apply Ok_inj in Hf as [= <- <-]. apply bool_decide_eq_true in E2. done. }
  split_and!; [destruct s; cbn in *; by subst|done|by exists w|done|done|by rewrite Hpf].
Qed.

Lemma normalizeRunPlan_Ok d d' :
  normalizeRunPlan d = Ok d' → d' = with_revisions (normalizeRevision <$> rp_Revisions d) d.
Proof.
  unfold normalizeRunPlan. intros H. apply reject_bind_Ok in H as [_ H]. apply reject_bind_Ok in H as [_ H].
  apply bind_Ok in H as (_ & _ & H). by apply Ok_inj in H.
Qed.

(** The document of a plan, in terms of the request. *)
Lemma built_doc ctx r fp createdAt base head :
  built ctx r fp createdAt base head →
  base = br_BaseSource r ∧ head = br_HeadSource r ∧
  fp_doc fp = with_revisions (normalizeRevision <$> [revisionPlan base (commitRefForPlan (tl_Base (br_Trusted r)) base) (vs_ID <$> vpl_Scenarios (tl_EffectivePipeline (br_Trusted r)));
                                                   revisionPlan head (commitRefForPlan (tl_Head (br_Trusted r)) head) (vs_ID <$> vpl_Scenarios (tl_EffectivePipeline (br_Trusted r)))])
    (buildDocument (br_RunID r) createdAt (br_Trusted r) (tl_EffectivePipeline (br_Trusted r)) base head (br_Platform r)).
Proof.
  intros B. destruct (snapshot_Ok _ _ _ (bt_base _ _ _ _ _ _ B)) as [-> _]. destruct (snapshot_Ok _ _ _ (bt_head _ _ _ _ _ _ B)) as [-> _].
  split_and!; [done..|]. by apply normalizeRunPlan_Ok, (bt_doc _ _ _ _ _ _ B).
Qed.

(** ** The ceilings *)

Lemma enforcePlatform_Ok v p :
  enforcePlatform v p = Ok () →
  vr_CPU (vpl_Resources v) <= pc_MaxCPU p ∧ vr_MemoryBytes (vpl_Resources v) <= pc_MaxMemoryBytes p ∧
  vr_DiskBytes (vpl_Resources v) <= pc_MaxDiskBytes p ∧ vr_ProcessCount (vpl_Resources v) <= pc_MaxProcessCount p ∧
  vr_TimeoutMillis (vpl_Resources v) <= pc_MaxGlobalTimeoutMillis p ∧ Z.of_nat (length (vpl_Scenarios v)) <= pc_MaxScenarioCount p ∧
  vcm_Repetitions (vpl_Compare v) <= pc_MaxRepetitions p ∧
  Z.of_nat (length (vc_FilesystemRoots (vpl_Collect v))) <= pc_MaxFilesystemRootCount p ∧
  Z.of_nat (length (vc_Artifacts (vpl_Collect v))) <= pc_MaxArtifactCount p ∧
  vc_LogMaxBytesPerStream (vpl_Collect v) <= pc_MaxLogBytesPerStream p ∧
  Forall (λ s, vs_TimeoutMillis s <= pc_MaxScenarioTimeoutMillis p) (vpl_Scenarios v) ∧
  Forall (λ a, va_MaxBytes a <= pc_MaxArtifactBytes p) (vc_Artifacts (vpl_Collect v)) ∧
  vn_Mode (vpl_Network v) = pc_RequiredNetworkMode p.
Proof.
  unfold enforcePlatform. intros ([] & H & Hn)%bind_Ok. apply reject_if_Ok, negb_false_iff, bool_decide_eq_true in Hn.
  rewrite foldR_reject in H.
  assert (∀ x, x ∈ ceilingChecks v p → x.1.2 <= x.2) as Hall by (intros x Hx%H; by apply Z.ltb_ge in Hx). clear H.
  unfold ceilingChecks in Hall. setoid_rewrite elem_of_app in Hall. setoid_rewrite elem_of_app in Hall.
  assert (∀ n a b, (n, a, b) ∈ take 10 (ceilingChecks v p) → a <= b) as Hfix.
  { intros n a b Hx. apply (Hall (n, a, b)). by left. }
  cbn [take ceilingChecks app] in Hfix.
  split_and!; try (eapply Hfix; repeat (first [apply list_elem_of_here|apply list_elem_of_further]); fail); [..|exact Hn].
  all: try (eapply Hfix; cbn; set_solver).
  - apply Forall_lookup. intros i s Hs. eapply (Hall (_, _, _)). right. left. apply list_elem_of_lookup. exists i. by rewrite list_lookup_imap, Hs.
  - apply Forall_lookup. intros i a Ha. eapply (Hall (_, _, _)). right. right. apply list_elem_of_lookup. exists i. by rewrite list_lookup_imap, Ha.
Qed.
(** Constraints that stay below the ceilings of the product. *)
Record product_ceilings (p : PlatformConstraints) : Prop := {
  pcl_cpu : 0 < pc_MaxCPU p <= MaxCPU;
  pcl_memory : 0 < pc_MaxMemoryBytes p <= MaxMemoryBytes;
  pcl_disk : 0 < pc_MaxDiskBytes p <= MaxDiskBytes;
  pcl_processes : 0 < pc_MaxProcessCount p <= MaxProcessCount;
  pcl_timeouts : 0 < pc_MaxGlobalTimeoutMillis p <= MaxTimeoutMillis ∧ 0 < pc_MaxScenarioTimeoutMillis p <= MaxTimeoutMillis;
  pcl_scenarios : 0 < pc_MaxScenarioCount p <= MaxScenarioCount;
  pcl_repetitions : 0 < pc_MaxRepetitions p <= MaxRepetitions;
  pcl_roots : 0 < pc_MaxFilesystemRootCount p <= MaxFilesystemRootCount;
  pcl_artifacts : 0 < pc_MaxArtifactCount p <= MaxArtifactCount ∧ 0 < pc_MaxArtifactBytes p <= MaxArtifactBytes;
  pcl_logs : 0 < pc_MaxLogBytesPerStream p <= MaxLogBytesPerStream;
  pcl_json : 0 < pc_MaxPlanJSONBytes p <= MaxPlanJSONBytes;
  pcl_network : pc_RequiredNetworkMode p = NetworkModeDeny
}.

Lemma validatePlatform_Ok p : validatePlatformConstraints p = Ok () → product_ceilings p.
Proof.
  unfold validatePlatformConstraints. intros H. apply reject_bind_Ok in H as [Hn H]. apply negb_false_iff, bool_decide_eq_true in Hn.
  rewrite foldR_reject in H.
  assert (Forall (λ x, 0 < x.1.2 <= x.2) (platformChecks p)) as Hall.
  { apply Forall_forall. intros x Hx%H. apply orb_false_iff in Hx. lia. }
  unfold platformChecks in Hall. repeat setoid_rewrite Forall_cons in Hall. cbn [fst snd] in Hall. by destruct_and!.
Qed.

(** ** The plan is one that the runner expands *)

Lemma countScenarios_fit l : ∀ (f : nat → nat) acc,
  (∀ s, s ∈ l → checkScenario s = false ∧ 1 <= sp_Repetitions s <= 10) → 0 <= acc → acc + 20 * Z.of_nat (length l) <= Runner.MaxAttempts →
  ∃ n, foldR (countScenario 2) acc (imap (λ i s, (f i, s)) l) = Ok n.
Proof.
  induction l as [|s l IH]; intros f acc Hl Hacc Hmax; [by eexists|]. cbn [imap foldR]. unfold countScenario at 1.
  destruct (Hl s (list_elem_of_here _ _)) as [-> Hr]. cbn [reject_if mbind result_bind]. cbn [length] in Hmax. unfold Runner.MaxAttempts in *.
  rewrite (wrap64_id (sp_Repetitions s * 2)) by lia. rewrite wrap64_id by lia. unfold reject_if. rewrite (proj2 (Z.ltb_ge _ (acc + _))) by lia.
  cbn [mbind result_bind mret result_ret]. apply (IH (f ∘ S)); [|lia|lia]. intros x Hx. apply Hl. by apply list_elem_of_further.
Qed.
Lemma expandSteps_fit doc digest l : ∀ n acc,
  Forall (λ x, str_len (tripleID x) <= MaxAttemptIDBytes) l → n + Z.of_nat (length l) <= Runner.MaxAttempts →
  ∃ acc', foldR (expandStep doc digest) (n, acc) l = Ok (n + Z.of_nat (length l), acc').
Proof.
  induction l as [|[[r s] rep] l IH]; intros n acc Hids Hmax; [exists acc; cbn; do 2 f_equal; lia|].
  inversion_clear Hids as [|? ? Hid Hl]. cbn [foldR]. unfold expandStep at 1. cbn [length] in Hmax.
  unfold reject_if. rewrite (proj2 (Z.ltb_ge Runner.MaxAttempts (n + 1))) by lia. cbn [mbind result_bind]. rewrite (proj2 (Z.ltb_ge MaxAttemptIDBytes _)) by exact Hid.
  cbn [mbind result_bind mret result_ret]. destruct (IH (n + 1) (acc ++ [attemptRequest doc digest (n + 1) r s rep]) Hl) as [acc' ->]; [lia|].
  exists acc'. cbn [length]. do 2 f_equal. lia.
Qed.

Lemma small_number n : 1 <= n <= 10 → str_len (fmt_d n) <= 2.
Proof.
  intros Hn. assert (Forall (λ n, str_len (fmt_d n) <= 2) (seqZ 1 10)) as Hall by by repeat (constructor; [vm_compute; discriminate|]).
  rewrite Forall_forall in Hall. apply Hall, elem_of_seqZ. lia.
Qed.

Lemma str_len_app s t : str_len (s +:+ t) = str_len s + str_len t.
Proof. rewrite !str_len_bytes, to_bytes_app, length_app. lia. Qed.

(** A plan that was built from a pipeline that validates. *)
Section planned.
Context {ctx : option CtxCause} {r : BuildRequest} {fp : FrozenPlan} {createdAt : Time} {base head : SourceSnapshot}.
Context (B : built ctx r fp createdAt base head).
Let v := tl_EffectivePipeline (br_Trusted r).
Context (W : wf_pipeline v).

Lemma planned_scenarios : rp_Scenarios (fp_doc fp) = scenarioPlan v <$> vpl_Scenarios v.
Proof. destruct (built_doc _ _ _ _ _ _ B) as (_ & _ & ->). done. Qed.
Lemma planned_scenario s :
  s ∈ rp_Scenarios (fp_doc fp) → checkScenario s = false ∧ 1 <= sp_Repetitions s <= 10 ∧ str_len (sp_ID s) <= 64.
Proof.
  rewrite planned_scenarios. intros (x & -> & Hx)%list_elem_of_fmap. destruct (wf_scenarios _ W) as (_ & _ & Hall).
  rewrite Forall_forall in Hall. specialize (Hall x Hx). destruct Hall as [(c & rest & Hid & _ & Hlen & _) [Hname _] Hshell [Hrun _] _].
  pose proof (wf_repetitions _ W) as Hrep. unfold in_range in Hrep. cbn [sp_Repetitions scenarioPlan sp_ID]. split_and!; [|lia|lia|exact Hlen].
  unfold checkScenario. cbn [scenarioPlan sp_ID sp_Shell sp_Run sp_Repetitions].
  rewrite (bool_decide_false (vs_ID x = _)) by (intros E; rewrite E in Hid; discriminate Hid).
  rewrite (bool_decide_false (vs_Shell x = _)) by (intros E; rewrite E in Hshell; revert Hshell; apply (bool_decide_unpack (_ ∉ _)); vm_compute; done).
  rewrite (bool_decide_false (vs_Run x = _)) by done. apply Z.leb_gt. lia.
Qed.
Lemma planned_distinct : NoDup (sp_ID <$> rp_Scenarios (fp_doc fp)).
Proof. rewrite planned_scenarios, <- list_fmap_compose. exact (proj1 (proj2 (wf_scenarios _ W))). Qed.

Lemma hex_nonempty s width : validObjectID s width = true → 0 < width → s <> ""%string.
Proof. unfold validObjectID. intros [[Hl _]%andb_true_iff _]%andb_true_iff Hw ->. apply bool_decide_eq_true in Hl. change (str_len "") with 0 in Hl. lia. Qed.
Lemma digest_nonempty d : validDigest d = true → d <> ""%string.
Proof. intros H ->. vm_compute in H. discriminate H. Qed.

Lemma planned_revision s commit ids want s' :
  validateSourceSnapshot s want = Ok s' → checkRevision (normalizeRevision (revisionPlan s' (commitRefForPlan commit s') ids)) = false.
Proof.
  intros H. destruct (snapshot_Ok _ _ _ H) as (-> & _ & (w & Hc & Ht & Hw) & Hd & Hm & Hf). unfold checkRevision. cbn.
  rewrite !bool_decide_false; [done|by apply digest_nonempty|by apply digest_nonempty|done|by eapply hex_nonempty|by eapply hex_nonempty].
Qed.

Lemma validatePlanDocument_planned : validatePlanDocument (fp_doc fp) = Ok ().
Proof.
  pose proof planned_scenario as Hsc. pose proof planned_scenarios as Hscs.
  destruct (built_doc _ _ _ _ _ _ B) as (Eb & Eh & Hdoc). 
  assert (rp_Revisions (fp_doc fp) = [normalizeRevision (revisionPlan base (commitRefForPlan (tl_Base (br_Trusted r)) base) (vs_ID <$> vpl_Scenarios v));
    normalizeRevision (revisionPlan head (commitRefForPlan (tl_Head (br_Trusted r)) head) (vs_ID <$> vpl_Scenarios v))]) as Hrevs by by rewrite Hdoc.
  assert (sn_RevisionKind base = RevisionKindBase ∧ sn_RevisionKind head = RevisionKindHead) as [Kb Kh].
  { rewrite Eb, Eh. split; [apply (snapshot_Ok _ _ _ (bt_base _ _ _ _ _ _ B))|apply (snapshot_Ok _ _ _ (bt_head _ _ _ _ _ _ B))]. }
  unfold validatePlanDocument. rewrite Hrevs.
  assert (rp_SchemaVersion (fp_doc fp) = SchemaVersionRunPlanV1Alpha1 ∧ rp_RunID (fp_doc fp) = br_RunID r ∧ rp_CreatedAt (fp_doc fp) = createdAt
    ∧ rp_Runner (fp_doc fp) = zeroRunner ∧ rp_ExecutionEnvironment (fp_doc fp) = Some (mkRunPlanEnvironment (vpl_Image v) (vpl_ImageDigest v) (vpl_Workdir v)))
    as (-> & -> & -> & -> & ->) by by rewrite Hdoc.
  rewrite (bool_decide_true (SchemaVersionRunPlanV1Alpha1 = _)) by done.
  rewrite (bool_decide_false (br_RunID r = _)).
  2: { intros E. pose proof (bt_run _ _ _ _ _ _ B) as Hr. rewrite E in Hr. discriminate Hr. }
  rewrite (bool_decide_false (createdAt = _)).
  2: { intros E. pose proof (bt_created _ _ _ _ _ _ B) as Hc. unfold normalizeCreatedAt in Hc.
       apply reject_bind_Ok in Hc as [_ Hc]. apply reject_bind_Ok in Hc as [_ Hc]. apply reject_bind_Ok in Hc as [Hc H]. apply Ok_inj in H.
       apply orb_false_iff in Hc as [Hc _]. apply Z.ltb_ge in Hc. rewrite H, E in Hc. revert Hc. vm_compute. by intros []. }
  cbn [negb orb reject_if mbind result_bind]. unfold isZeroRunnerCapabilities. rewrite (bool_decide_true (zeroRunner = _)) by done.
  cbn [negb orb reject_if mbind result_bind rpe_Image rpe_Workdir].
  rewrite (bool_decide_false (vpl_Image v = _)).
  2: { intros E. destruct (wf_image _ W) as (repo & Hi & _). rewrite E in Hi. by destruct repo. }
  rewrite (bool_decide_false (vpl_Workdir v = _)) by apply (wf_workdir _ W).
  cbn [orb reject_if mbind result_bind]. unfold revisionsBaseHead. rewrite Hrevs. cbn [rvp_Kind normalizeRevision revisionPlan]. rewrite Kb, Kh.
  rewrite (bool_decide_true (RevisionKindBase = _)), (bool_decide_true (RevisionKindHead = _)) by done. cbn [andb negb reject_if mbind result_bind].
  rewrite bool_decide_false.
  2: { rewrite Hscs, length_fmap. destruct (wf_scenarios _ W) as [Hn _]. lia. }
  cbn [reject_if mbind result_bind imap foldR].
  rewrite (planned_revision _ _ _ _ _ (bt_base _ _ _ _ _ _ B)). cbn [reject_if mbind result_bind foldR compose].
  rewrite (planned_revision _ _ _ _ _ (bt_head _ _ _ _ _ _ B)).
  cbn [reject_if mbind result_bind length]. change (Z.of_nat 2) with 2.
  destruct (countScenarios_fit (rp_Scenarios (fp_doc fp)) (λ i, i) 0) as [n Hn].
  - intros s Hs. destruct (Hsc s Hs) as (? & ? & _). done.
  - lia.
  - rewrite Hscs, length_fmap. destruct (wf_scenarios _ W) as [Hn _]. unfold Runner.MaxAttempts. lia.
  - change (imap pair (rp_Scenarios (fp_doc fp))) with (imap (λ i s, (i, s)) (rp_Scenarios (fp_doc fp))). by rewrite Hn.
Qed.

(** *** The attempts *)

Lemma length_bind_same {A C} (f : A → list C) (k : nat) l : (∀ x, x ∈ l → length (f x) = k) → length (l ≫= f) = (length l * k)%nat.
Proof.
  induction l as [|x l IH]; intros H; [done|]. cbn. rewrite length_app, (H x (list_elem_of_here _ _)), IH; [lia|].
  intros y Hy. apply H. by apply list_elem_of_further.
Qed.
Lemma planned_revisions :
  (length (rp_Revisions (fp_doc fp)) = 2%nat) ∧ Forall (λ v, rvp_Kind v = RevisionKindBase ∨ rvp_Kind v = RevisionKindHead) (rp_Revisions (fp_doc fp)).
Proof.
  destruct (built_doc _ _ _ _ _ _ B) as (Eb & Eh & ->). split; [done|]. rewrite Eb, Eh. apply Forall_cons; split; [|apply Forall_cons; split; [|by apply Forall_nil]].
  - left. apply (snapshot_Ok _ _ _ (bt_base _ _ _ _ _ _ B)).
  - right. apply (snapshot_Ok _ _ _ (bt_head _ _ _ _ _ _ B)).
Qed.
Lemma planned_attempts :
  length (planTriples (fp_doc fp)) = (2 * length (vpl_Scenarios v) * Z.to_nat (vcm_Repetitions (vpl_Compare v)))%nat.
Proof.
  pose proof (wf_repetitions _ W) as Hrep. unfold in_range in Hrep. fold v in Hrep.
  unfold planTriples. rewrite (length_bind_same _ (length (vpl_Scenarios v) * Z.to_nat (vcm_Repetitions (vpl_Compare v)))%nat).
  { rewrite (proj1 planned_revisions). lia. }
  intros x _. rewrite (length_bind_same _ (Z.to_nat (vcm_Repetitions (vpl_Compare v)))).
  { by rewrite planned_scenarios, length_fmap. }
  intros s. rewrite planned_scenarios. intros (y & -> & _)%list_elem_of_fmap. rewrite length_fmap. unfold repetitions.
  cbn [sp_Repetitions scenarioPlan]. unfold Runner.MaxAttempts. rewrite Z.min_l, length_seqZ by lia. done.
Qed.
Lemma planned_ids : Forall (λ x, str_len (tripleID x) <= MaxAttemptIDBytes) (planTriples (fp_doc fp)).
Proof.
  apply Forall_forall. intros [[x s] rep] (y & Hx & Hy)%list_elem_of_bind. apply list_elem_of_bind in Hx as (z & Hz & Hs).
  apply list_elem_of_fmap in Hz as (n & [= -> -> ->] & Hn). destruct (planned_scenario z Hs) as (_ & Hr & Hid).
  unfold repetitions in Hn. apply elem_of_seqZ in Hn. pose proof (small_number n ltac:(lia)) as Hd.
  pose proof (proj2 planned_revisions) as Hk. rewrite Forall_forall in Hk. specialize (Hk y Hy).
  unfold tripleID, attemptID. cbn [fst snd]. rewrite !str_len_app. unfold MaxAttemptIDBytes.
  change (str_len "att-") with 4. change (str_len "-") with 1. change (str_len "-r") with 2.
  assert (str_len (rvp_Kind y) = 4) as -> by by destruct Hk as [-> | ->]. lia.
Qed.
Lemma planned_expands digest : ∃ attempts, ExpandPlanDocument (fp_doc fp) digest = Ok attempts ∧
  length attempts = (2 * length (vpl_Scenarios v) * Z.to_nat (vcm_Repetitions (vpl_Compare v)))%nat.
Proof.
  pose proof planned_attempts as Hn. destruct (wf_scenarios _ W) as [Hs _]. fold v in Hs.
  pose proof (wf_repetitions _ W) as Hrep. unfold in_range in Hrep. fold v in Hrep.
  destruct (expandSteps_fit (fp_doc fp) digest (planTriples (fp_doc fp)) 0 [] planned_ids) as [acc Hacc].
  { rewrite Hn. unfold Runner.MaxAttempts. nia. }
  exists acc. unfold ExpandPlanDocument, expandAttempts. rewrite validatePlanDocument_planned. cbn [mbind result_bind].
  rewrite Hacc. split; [done|]. apply expandSteps_Ok in Hacc as (-> & _). rewrite app_nil_l, length_imap. exact Hn.
Qed.

(** *** The normalization profile *)

Lemma addRoot_length l : ∀ acc, (length (foldl addRoot acc l).1.1 <= length acc.1.1 + length l)%nat.
Proof.
  induction l as [|x l IH]; intros [[aliases seen] idx]; [cbn; lia|]. cbn [foldl]. etrans; [apply IH|]. unfold addRoot.
  case_bool_decide; cbn; [lia|]. rewrite length_app. cbn. lia.
Qed.
Lemma planned_profile : ∃ profile, profileFromPlan (fp_doc fp) = Ok profile.
Proof.
  unfold profileFromPlan, validateProfile. cbn [nzp_Version nzp_ProcessIdentityAlgorithm nzp_TimestampAlgorithm nzp_PathRootAlgorithm nzp_IgnoreFields nzp_RootAliases].
  rewrite !bool_decide_true by done. cbn [negb orb reject_if mbind result_bind].
  destruct (built_doc _ _ _ _ _ _ B) as (_ & _ & Hdoc).
  assert (rp_Comparison (fp_doc fp) = Some (mkComparisonPlan (vcm_IgnoreFields (vpl_Compare v)) (vcm_Repetitions (vpl_Compare v)))) as -> by by rewrite Hdoc.
  cbn [from_option cmp_IgnoreFields].
  rewrite (proj2 (foldR_reject _ _ _ ())).
  2: { intros f Hf. destruct (wf_ignore _ W) as [_ Hall]. rewrite Forall_forall in Hall. by destruct (Hall f Hf) as [-> | ->]. }
  cbn [mbind result_bind]. unfold reject_if. rewrite (proj2 (Z.ltb_ge _ _)); [by eexists|].
  unfold rootAliases. pose proof (addRoot_length (from_option clp_FilesystemRoots [] (rp_Collection (fp_doc fp)))
    (workdirAlias (fp_doc fp), pra_Root <$> workdirAlias (fp_doc fp), 1)) as Hl.
  assert (rp_Collection (fp_doc fp) = Some (mkCollectionPlan (vc_FilesystemRoots (vpl_Collect v)) (vc_FilesystemContents (vpl_Collect v))
    (collectionArtifacts v) (vc_LogMaxBytesPerStream (vpl_Collect v)))) as Hc by by rewrite Hdoc.
  rewrite Hc in Hl |- *. cbn [from_option clp_FilesystemRoots fst] in Hl |- *.
  assert (length (workdirAlias (fp_doc fp)) <= 1)%nat by (unfold workdirAlias; repeat case_match; cbn; lia).
  destruct (wfc_roots _ (wf_coll _ W)) as [Hr _]. fold v in Hr. unfold MaxPathRoots. lia.
Qed.
End planned.

(** ** Composition with the trusted load *)

Lemma LoadTrusted_wf yaml_load tctx ReadFile base head t :
  LoadTrusted yaml_load tctx (Some ReadFile) base head = Ok t → wf_pipeline (tl_EffectivePipeline t).
Proof. intros (b & _ & Hs & _)%LoadTrusted_assessed. by apply says_wf in Hs. Qed.

(** The request with another trusted load. *)
Definition with_trusted (t : TrustedLoadResult) (r : BuildRequest) : BuildRequest :=
  mkBuildRequest (br_RunID r) (br_CreatedAt r) t (br_BaseSource r) (br_HeadSource r) (br_Platform r).

(** A load from a file of the base is that file, but for the assessment of the head. *)
Lemma LoadTrusted_base yaml_load tctx ReadFile base head t :
  LoadTrusted yaml_load tctx (Some ReadFile) base head = Ok t →
  ∃ b p, ReadFile base PipelinePath MaxPipelineBytes = Ok b ∧ ParseAndValidate yaml_load (fileData b) = Ok p ∧
    t = mkTrustedLoadResult base head p (mkEffectiveConfigSource EffectiveSourceBase PipelinePath (metadataForFile base b))
          (metadataForFile base b) (tl_HeadAssessment t).
Proof.
  unfold LoadTrusted. intros (u0 & _ & H)%bind_Ok. apply bind_Ok in H as ([b p] & Hb & H).
  apply bind_Ok in H as (a & Ha & H). apply Ok_inj in H as <-. exists b, p. cbn.
  unfold loadBase in Hb. destruct (ReadFile base _ _) as [f|e] eqn:Ef; [|done]. apply bind_Ok in Hb as (u1 & _ & Hb).
  destruct (negb _); [done|]. destruct (MaxPipelineBytes <? _); [done|].
  destruct (ParseAndValidate _ _) as [q|] eqn:Ep; [|done]. by injection Hb as -> ->.
Qed.

(** C19: the proposed change has no say in what is run: two trusted loads of the
    same revisions that read the same base file, whatever they read of the head,
    build the same plan for every request, byte for byte, or fail alike. *)
Theorem plan_from_base yaml_load tctx tctx' ReadFile ReadFile' base head t t' ctx r :
  LoadTrusted yaml_load tctx (Some ReadFile) base head = Ok t → LoadTrusted yaml_load tctx' (Some ReadFile') base head = Ok t' →
  ReadFile base PipelinePath MaxPipelineBytes = ReadFile' base PipelinePath MaxPipelineBytes →
  Build ctx (with_trusted t r) = Build ctx (with_trusted t' r).
Proof.
  intros (b & p & Hb & Hp & ->)%LoadTrusted_base (b' & p' & Hb' & Hp' & ->)%LoadTrusted_base E.
  assert (b = b') as -> by congruence. assert (p = p') as -> by congruence. reflexivity.
Qed.

(** Limits that the platform grants. *)
Definition within (p : PlatformConstraints) (l : ResourceLimits) : Prop :=
  1 <= rl_CPU l <= pc_MaxCPU p ∧ rl_CPUMillis l = rl_CPU l * 1000 ∧ 0 < rl_MemoryBytes l <= pc_MaxMemoryBytes p ∧
  0 < rl_DiskBytes l <= pc_MaxDiskBytes p ∧ 0 < rl_ProcessCount l <= pc_MaxProcessCount p.
Lemma planLimits_within v p :
  wf_pipeline v → enforcePlatform v p = Ok () → pc_MaxCPU p <= MaxCPU → within p (planLimits v).
Proof.
  intros W (H1 & H2 & H3 & H4 & _)%enforcePlatform_Ok Hcpu. destruct (wf_res _ W) as [[] [] [] [] _].
  unfold within, planLimits. cbn. unfold MaxCPU in Hcpu. rewrite wrap64_id by lia. lia.
Qed.
Lemma planNetwork_deny v : wf_pipeline v → planNetwork v = mkNetworkPolicy NetworkModeDeny [].
Proof. intros W. unfold planNetwork. by rewrite (wf_network _ W). Qed.

(** A collection that the platform grants: its roots, its artifacts and the bytes
    it keeps of a stream. *)
Definition collects_within (p : PlatformConstraints) (c : CollectionPlan) : Prop :=
  Z.of_nat (length (clp_FilesystemRoots c)) <= pc_MaxFilesystemRootCount p ∧
  Z.of_nat (length (clp_Artifacts c)) <= pc_MaxArtifactCount p ∧
  Forall (λ a, 0 < eas_MaxSizeBytes a <= pc_MaxArtifactBytes p) (clp_Artifacts c) ∧
  0 < clp_LogMaxBytesPerStream c <= pc_MaxLogBytesPerStream p.

Definition planned_collection (v : ValidatedPipeline) : CollectionPlan :=
  mkCollectionPlan (vc_FilesystemRoots (vpl_Collect v)) (vc_FilesystemContents (vpl_Collect v)) (collectionArtifacts v)
    (vc_LogMaxBytesPerStream (vpl_Collect v)).
Lemma collection_within v p : wf_pipeline v → enforcePlatform v p = Ok () → collects_within p (planned_collection v).
Proof.
  intros W (_ & _ & _ & _ & _ & _ & _ & Hroots & Harts & Hlog & _ & Hart & _)%enforcePlatform_Ok.
  destruct (wf_coll _ W) as [_ _ (_ & _ & Haw) [Hl _]].
  unfold collects_within, planned_collection, collectionArtifacts. cbn. rewrite length_fmap. split_and!; try lia.
  rewrite Forall_fmap. rewrite Forall_forall in Haw, Hart. apply Forall_forall. intros a Ha. cbn.
  destruct (Haw a Ha) as [_ [? _]]. specialize (Hart a Ha). cbn in Hart. lia.
Qed.

(** C20: a frozen plan stays within what the platform allows: from a trusted load,
    the run as a whole and every scenario ask for no more processors, memory, disk,
    processes, time, scenarios and repetitions than the ceilings of the request,
    and collect from no more roots, no more and no larger artifacts and no more log
    bytes per stream; each ceiling of the request is positive and at most the one
    of the product; the processor share is the pipeline's in thousandths and
    nothing wrapped around; the network is denied; and the plan is the canonical
    JSON of its document, no longer than allowed, under the digest of exactly these
    bytes. *)
Theorem plan_within_platform yaml_load tctx ReadFile cb ch ctx r fp :
  LoadTrusted yaml_load tctx (Some ReadFile) cb ch = Ok (br_Trusted r) → Build ctx r = Ok fp →
  let p := br_Platform r in
  product_ceilings p ∧
  within p (rp_ResourceLimits (fp_doc fp)) ∧ 0 < rl_TimeoutMillis (rp_ResourceLimits (fp_doc fp)) <= pc_MaxGlobalTimeoutMillis p ∧
  rp_NetworkPolicy (fp_doc fp) = mkNetworkPolicy NetworkModeDeny [] ∧
  Z.of_nat (length (rp_Scenarios (fp_doc fp))) <= pc_MaxScenarioCount p ∧
  (∀ s, s ∈ rp_Scenarios (fp_doc fp) →
     within p (sp_ResourceLimits s) ∧ 0 < rl_TimeoutMillis (sp_ResourceLimits s) <= pc_MaxScenarioTimeoutMillis p ∧
     rl_TimeoutMillis (sp_ResourceLimits s) <= rl_TimeoutMillis (rp_ResourceLimits (fp_doc fp)) ∧
     cmd_TimeoutMillis (sp_Command s) = rl_TimeoutMillis (sp_ResourceLimits s) ∧
     1 <= sp_Repetitions s <= pc_MaxRepetitions p ∧ sp_NetworkPolicy s = mkNetworkPolicy NetworkModeDeny [] ∧
     Some (sp_ExpectedArtifacts s) = clp_Artifacts <$> rp_Collection (fp_doc fp)) ∧
  (∃ c, rp_Collection (fp_doc fp) = Some c ∧ collects_within p c) ∧
  fp_json fp = render (json_of_RunPlan (fp_doc fp)) ∧ Z.of_nat (length (fp_json fp)) <= pc_MaxPlanJSONBytes p ∧
  fp_digest fp = DigestRunPlanJSON (fp_json fp).
Proof.
  intros W%LoadTrusted_wf (createdAt & base & head & B)%Build_Ok p. subst p.
  pose proof (validatePlatform_Ok _ (bt_platform _ _ _ _ _ _ B)) as Hp.
  destruct (enforcePlatform_Ok _ _ (bt_ceilings _ _ _ _ _ _ B)) as (_ & _ & _ & _ & Ht & Hn & Hr & _ & _ & _ & Hst & _).
  pose proof (planLimits_within _ _ W (bt_ceilings _ _ _ _ _ _ B) (proj2 (pcl_cpu _ Hp))) as Hlim. destruct (bt_size _ _ _ _ _ _ B) as [Hs1 Hs2].
  pose proof (collection_within _ _ W (bt_ceilings _ _ _ _ _ _ B)) as Hcol.
  pose proof (planned_scenarios B) as Hscs. destruct (built_doc _ _ _ _ _ _ B) as (_ & _ & Hdoc).
  assert (rp_ResourceLimits (fp_doc fp) = planLimits (tl_EffectivePipeline (br_Trusted r))) as -> by by rewrite Hdoc.
  assert (rp_NetworkPolicy (fp_doc fp) = planNetwork (tl_EffectivePipeline (br_Trusted r))) as -> by by rewrite Hdoc.
  assert (rp_Collection (fp_doc fp) = Some (planned_collection (tl_EffectivePipeline (br_Trusted r)))) as -> by by rewrite Hdoc.
  rewrite planNetwork_deny by done. destruct (wf_res _ W) as [_ _ _ _ [Htl _]]. cbn [rl_TimeoutMillis planLimits].
  split_and!; try done; try lia; [by rewrite Hscs, length_fmap| |by eexists|by apply (bt_json _ _ _ _ _ _ B)|by apply (bt_digest _ _ _ _ _ _ B)].
  rewrite Hscs. intros s (x & -> & Hx)%list_elem_of_fmap. destruct (wf_scenarios _ W) as (_ & _ & Hall).
  rewrite Forall_forall in Hall. rewrite Forall_forall in Hst. destruct (Hall x Hx) as [_ _ _ _ [Hx1 Hx2]]. specialize (Hst x Hx).
  destruct (wf_repetitions _ W) as [Hr1 _]. cbn. rewrite planNetwork_deny by done. split_and!; done || lia.
Qed.

(** C18: from the configuration to the comparison nothing is left to fail: a plan
    that was built from a trusted load expands into the two revisions times the
    scenarios times the repetitions, and every execution of it, with or without
    hooks, by any backend, in any environment, finished or not, that a bundle
    records normalizes, with one document per attempt, under valid limits of the
    caller that the contents of the bundle are within and its counts are; under
    the default limits the counts of an execution always are. *)
Theorem planned_run_normalizes yaml_load tctx ReadFile cb ch ctx r fp :
  LoadTrusted yaml_load tctx (Some ReadFile) cb ch = Ok (br_Trusted r) → Build ctx r = Ok fp →
  ∃ attempts, ExpandPlanDocument (fp_doc fp) (fp_digest fp) = Ok attempts ∧
    Z.of_nat (length attempts) = 2 * Z.of_nat (length (vpl_Scenarios (tl_EffectivePipeline (br_Trusted r)))) * vcm_Repetitions (vpl_Compare (tl_EffectivePipeline (br_Trusted r))) ∧
    ∀ env rctx backend requirements limits res err trace b nl,
      executes env rctx (Some (fp_doc fp, fp_digest fp)) backend requirements limits (res, err, trace) →
      recorded b (fp_doc fp) (fp_digest fp) attempts (events trace) →
      validateLimits nl = Ok () → contents_within nl b → nl = DefaultLimits ∨ counts_within nl attempts (events trace) →
      ∃ d, Normalize nl (λ _, None) (Some b) = Ok d ∧ length (tsd_Attempts d) = length attempts.
Proof.
  intros W%LoadTrusted_wf (createdAt & base & head & B)%Build_Ok.
  destruct (planned_expands B W (fp_digest fp)) as (attempts & Hexp & Hlen). exists attempts. split; [done|]. split.
  { rewrite Hlen. destruct (wf_repetitions _ W) as [Hr _]. lia. }
  intros env rctx backend requirements limits res err trace b nl Hex Hrec Hnl _ Hcounts. destruct (planned_profile B W) as [profile Hprof].
  pose proof (planned_distinct B W) as Hnd.
  eapply execution_normalizes; [exact Hex|exact Hexp|exact Hnd|exact Hprof|exact Hrec|exact Hnl|].
  destruct Hcounts as [->|Hc]; [by eapply executed_counts|exact Hc].
Qed.
