(* ===== verification/PlanEx.v ===== *)
(** * A plan, built and run

    A pipeline at the base, a change of it at the head, and the plan that is built
    from them; it is executed by the backend of [RunnerEx], recorded in a bundle and
    normalized. *)

From stdpp Require Import prelude gmap strings.
From Stdlib Require Import ZArith Lia Ascii.
From S2P Require Import Prelude GoStd Sha256 Framing GoTime Model Json GoText Yaml Config ConfigValidate ConfigTrusted ConfigSpec TrustedSpec WaiverEx ConfigEx Plan Event Runner RunnerSpec RunnerEx Evidence Observe Normalize NormalizeSpec NormalizeTotal NormalizeEx PlanSpec.
Local Open Scope Z_scope.

Definition pl_base : CommitRef := RunnerEx.ex_commit RevisionKindBase "a"%char.
Definition pl_head : CommitRef := RunnerEx.ex_commit RevisionKindHead "b"%char.
(** The base has its pipeline, the head what is given. *)
Definition pl_source (head : bytes) : RevisionFileSource :=
  λ rev _ _, Ok (ex_file (if bool_decide (cr_CommitID rev = cr_CommitID pl_base) then ex_config_bytes else head)).
Definition pl_load (head : bytes) : result TrustedConfigError Config.TrustedLoadResult :=
  ConfigTrusted.LoadTrusted ex_pipeline_load (λ _, None) (Some (pl_source head)) pl_base pl_head.
Definition loaded (r : result TrustedConfigError Config.TrustedLoadResult) : Config.TrustedLoadResult :=
  match r with Ok t => t | Err _ => zeroTrusted end.
Definition pl_trusted : Config.TrustedLoadResult := Eval vm_compute in loaded (pl_load ex_spaced_bytes).
Definition pl_bigger : Config.TrustedLoadResult := Eval vm_compute in loaded (pl_load ex_bigger_bytes).
Lemma pl_trusted_ok : pl_load ex_spaced_bytes = Ok pl_trusted.
Proof. vm_compute. reflexivity. Qed.
Lemma pl_bigger_ok : pl_load ex_bigger_bytes = Ok pl_bigger.
Proof. vm_compute. reflexivity. Qed.

Definition hex (n : nat) (c : ascii) : string := of_bytes (replicate n c).
Definition pl_snapshot (kind : RevisionKind) (c : ascii) : SourceSnapshot :=
  mkSourceSnapshot kind (hex 40 c) (hex 40 "d"%char) ObjectFormatSHA1 ("sha256:" +:+ hex 64 "1"%char) ("sha256:" +:+ hex 64 "2"%char)
    (mkSourceSummary 3 12 1 0 0 0 4096 0) [mkSourceLimitation "submodule" "vendor/lib" "not followed"; mkSourceLimitation "lfs" "" "no pointers"].
Definition pl_platform : PlatformConstraints :=
  mkPlatformConstraints 4 (2 ^ 32) (2 ^ 34) 256 600000 300000 8 5 4 8 (2 ^ 24) (2 ^ 20) (2 ^ 20) NetworkModeDeny.
Definition pl_request (t : Config.TrustedLoadResult) (p : PlatformConstraints) : BuildRequest :=
  mkBuildRequest "run-1" (mkGoTimeValue RunnerEx.ex_created 0 true false) t (pl_snapshot RevisionKindBase "a"%char) (pl_snapshot RevisionKindHead "b"%char) p.

Definition no_plan : FrozenPlan := mkFrozenPlan RunnerEx.ex_doc [] "".
Definition plan_or_none (r : result PlanError FrozenPlan) : FrozenPlan := match r with Ok fp => fp | Err _ => no_plan end.
Definition pl_plan : FrozenPlan := Eval vm_compute in plan_or_none (Build None (pl_request pl_trusted pl_platform)).
Lemma pl_plan_ok : Build None (pl_request pl_trusted pl_platform) = Ok pl_plan.
Proof. vm_compute. reflexivity. Qed.

(** The limitations of a source are sorted in the plan, and a processor is a
    thousand thousandths. *)
Example pl_plan_values :
  ((λ r, sl_Code <$> rvp_SourceLimitations r) <$> rp_Revisions (fp_doc pl_plan),
   rl_CPUMillis (rp_ResourceLimits (fp_doc pl_plan)), rl_TimeoutMillis ∘ sp_ResourceLimits <$> rp_Scenarios (fp_doc pl_plan))
  = ([["lfs"; "submodule"]; ["lfs"; "submodule"]]%string, 2000, [90000]).
Proof. reflexivity. Qed.

(** One processor too few, and the plan is refused. *)
Example pl_over_ceiling :
  Build None (pl_request pl_trusted (mkPlatformConstraints 1 (2 ^ 32) (2 ^ 34) 256 600000 300000 8 5 4 8 (2 ^ 24) (2 ^ 20) (2 ^ 20) NetworkModeDeny))
  = Err (planErr "platform-limit-exceeded" "platform" "spec.resources.cpu").
Proof. vm_compute. reflexivity. Qed.

(** ** Witnesses *)

(** The head that asks for twice the processors gets the plan of the base. *)
Lemma plan_from_base_witness :
  tl_HeadAssessment pl_bigger <> tl_HeadAssessment pl_trusted ∧ Build None (pl_request pl_bigger pl_platform) = Ok pl_plan.
Proof.
  split; [intros E; apply (f_equal ha_State) in E; discriminate E|]. rewrite <- pl_plan_ok.
  exact (plan_from_base _ _ _ _ _ _ _ _ _ None (pl_request pl_trusted pl_platform) pl_bigger_ok pl_trusted_ok eq_refl).
Defined.

(** The trusted load of the examples has the result that is specified. *)
Lemma trusted_load_exact_witness : trusted_result ex_pipeline_load (pl_source ex_spaced_bytes) pl_base pl_head pl_trusted.
Proof.
  apply (proj1 (trusted_load_exact ex_pipeline_load (pl_source ex_spaced_bytes) pl_base pl_head pl_trusted)).
  exists (λ _, None). exact pl_trusted_ok.
Defined.

Lemma plan_within_platform_witness : within pl_platform (rp_ResourceLimits (fp_doc pl_plan)) ∧ fp_digest pl_plan = DigestRunPlanJSON (fp_json pl_plan).
Proof.
  destruct (plan_within_platform _ _ _ _ _ None (pl_request pl_trusted pl_platform) pl_plan pl_trusted_ok pl_plan_ok) as (_ & H & _ & _ & _ & _ & _ & _ & _ & Hd).
  split; [exact H|exact Hd].
Defined.

(** *** The run *)

Definition pl_attempts : list AttemptRequest :=
  match ExpandPlanDocument (fp_doc pl_plan) (fp_digest pl_plan) with Ok l => l | Err _ => [] end.
Definition pl_out := ExecutePlanWithHooks None (RunnerEx.ex_env (λ _, false)) None (Some (fp_doc pl_plan, fp_digest pl_plan))
  RunnerEx.ex_backend RunnerEx.ex_requirements Runner.DefaultLimits.
Lemma pl_executes : executes (RunnerEx.ex_env (λ _, false)) None (Some (fp_doc pl_plan, fp_digest pl_plan)) RunnerEx.ex_backend
  RunnerEx.ex_requirements Runner.DefaultLimits (pl_out.1.1, pl_out.1.2, pl_out.2).
Proof. right. exists None. exact (triple_eta pl_out). Qed.
Example pl_ran : (xr_Complete pl_out.1.1, pl_out.1.2, length (events pl_out.2)) = (true, None, 24%nat).
Proof. vm_compute. reflexivity. Qed.

(** A bundle of the attempts of a plan. *)
Definition bundle_of (doc : RunPlan) (digest : Digest) (attempts : list AttemptRequest) (evs : list ObservationEvent) : Bundle :=
  mkBundle false (mkManifest "schema" "manifest-1" "run-1" RunnerEx.ex_created "directory-v1alpha1" digest true true true [] [] [] [] None)
    ("sha256:" +:+ hex 64 "1"%char) doc
    (mkExecutionDocument "schema" "run-1" digest RunnerEx.ex_capabilities true true true (Z.of_nat (length evs)) [] [] None)
    (ex_verified <$> attempts) (mkVerificationSummary VerificationModeInternalConsistencyOnly "" false false true [])
    (list_to_map ((λ a, (requestKey a, ex_entry a)) <$> attempts)) evs None.
Lemma bundle_of_recorded doc digest attempts evs :
  digest <> ""%string → recorded (bundle_of doc digest attempts evs) doc digest attempts evs.
Proof.
  intros Hd. split; try reflexivity.
  - split_and!; [vm_compute; discriminate|exact Hd|vm_compute; discriminate].
  - apply Forall2_fmap_r, Forall_Forall2_diag, Forall_forall. intros a _. unfold sameAttempt. cbn. by rewrite !bool_decide_true.
  - intros req [i Hi]%list_elem_of_lookup. cbn.
    destruct (list_to_map _ !! _) eqn:E; [by eexists|]. apply not_elem_of_list_to_map in E. exfalso. apply E.
    rewrite <- list_fmap_compose. apply list_elem_of_fmap. exists req. split; [done|]. by eapply list_elem_of_lookup_2.
Qed.

Definition pl_bundle (attempts : list AttemptRequest) : Bundle := bundle_of (fp_doc pl_plan) (fp_digest pl_plan) attempts (events pl_out.2).
#[local] Instance contents_within_dec l b : Decision (contents_within l b).
Proof. unfold contents_within. apply _. Defined.
Lemma pl_bundle_within : contents_within DefaultLimits (pl_bundle pl_attempts).
Proof. apply (bool_decide_unpack _). vm_compute. exact I. Qed.
Lemma default_limits_valid : validateLimits DefaultLimits = Ok ().
Proof. vm_compute. reflexivity. Qed.

Lemma planned_run_normalizes_witness :
  ∃ d, Normalize DefaultLimits (λ _, None) (Some (pl_bundle pl_attempts)) = Ok d ∧ length (tsd_Attempts d) = length pl_attempts
    ∧ length pl_attempts = 6%nat.
Proof.
  destruct (planned_run_normalizes _ _ _ _ _ None (pl_request pl_trusted pl_platform) pl_plan pl_trusted_ok pl_plan_ok) as (attempts & He & Hl & Hall).
  assert (attempts = pl_attempts) as -> by (unfold pl_attempts; rewrite He; reflexivity).
  destruct (Hall _ _ _ _ _ _ _ _ (pl_bundle pl_attempts) DefaultLimits pl_executes) as (d & Hn & Hd).
  { apply bundle_of_recorded. discriminate. }
  { exact default_limits_valid. }
  { exact pl_bundle_within. }
  { left. reflexivity. }
  exists d. split; [exact Hn|]. split; [exact Hd|]. apply Nat2Z.inj. rewrite Hl. reflexivity.
Defined.
