(* ===== verification/Report.v ===== *)
(** * The report ([internal/report]): composition

    From a verified bundle, a frozen delta and a frozen application to the frozen
    report: the three must be about one run, every reference must lead somewhere, and
    the document holds all findings and all records, with the notices that the
    circumstances call for.  The definitions follow [document.go], [limits.go],
    [kinds.go], [errors.go], [digest.go], [strip.go] and [builder.go]. *)

From stdpp Require Import prelude gmap strings.
From Stdlib Require Import ZArith Lia.
From S2P Require Import Prelude GoStd Sha256 Framing GoTime Model Json GoText JsonCopy Event Observe Compare Plan Policy Application Evidence.
Local Open Scope Z_scope.

(** ** [errors.go], [limits.go] *)

Record ReportError := mkReportError { rpe_Code : string; rpe_Stage : string; rpe_Field : string }.
Definition errCode (code stage field : string) : ReportError := mkReportError code stage field.
Definition contextErr (stage : string) (c : CtxCause) : ReportError :=
  match c with
  | DeadlineExceeded => errCode (if stage == "build"%string then "report-timeout" else "render-timeout") stage "context"
  | Canceled => errCode "context-cancelled" stage "context"
  end.

Definition MaxFindingsAbsolute : Z := 120000.
Definition MaxDeltaRecordsAbsolute : Z := 100000.
Definition MaxEvidenceRefsPerFindingAbsolute : Z := 1024.
Definition MaxEvidenceRefsPerDeltaAbsolute : Z := 1024.
Definition MaxEvidenceRefsTotalAbsolute : Z := 250000.
Definition MaxLimitationsTotalAbsolute : Z := 30000.
Definition MaxNoticesAbsolute : Z := 128.
Definition MaxDisplayInputBytesAbsolute : Z := 64 * 2 ^ 10.
Definition MaxEscapedDisplayBytesAbsolute : Z := 256 * 2 ^ 10.
Definition MaxReportJSONBytesAbsolute : Z := 128 * 2 ^ 20.
Definition MaxMarkdownBytesAbsolute : Z := 128 * 2 ^ 20.
Definition MaxTerminalBytesAbsolute : Z := 64 * 2 ^ 20.
Definition MaxRenderedLinesAbsolute : Z := 2000000.

Record Limits := mkLimits {
  l_MaxFindings : Z;
  l_MaxDeltaRecords : Z;
  l_MaxEvidenceRefsPerFinding : Z;
  l_MaxEvidenceRefsPerDelta : Z;
  l_MaxEvidenceRefsTotal : Z;
  l_MaxLimitationsTotal : Z;
  l_MaxNotices : Z;
  l_MaxReportJSONBytes : Z
}.
#[global] Instance ReportLimits_eq_dec : EqDecision Limits.
Proof. solve_decision. Defined.
Definition DefaultLimits : Limits :=
  mkLimits MaxFindingsAbsolute MaxDeltaRecordsAbsolute MaxEvidenceRefsPerFindingAbsolute MaxEvidenceRefsPerDeltaAbsolute
    MaxEvidenceRefsTotalAbsolute MaxLimitationsTotalAbsolute MaxNoticesAbsolute MaxReportJSONBytesAbsolute.

Record RenderLimits := mkRenderLimits {
  rl_MaxDisplayInputBytes : Z;
  rl_MaxEscapedDisplayBytes : Z;
  rl_MaxMarkdownBytes : Z;
  rl_MaxTerminalBytes : Z;
  rl_MaxRenderedLines : Z;
  rl_MaxEvidenceRefsTotal : Z
}.
#[global] Instance RenderLimits_eq_dec : EqDecision RenderLimits.
Proof. solve_decision. Defined.
Definition DefaultRenderLimits : RenderLimits :=
  mkRenderLimits MaxDisplayInputBytesAbsolute MaxEscapedDisplayBytesAbsolute MaxMarkdownBytesAbsolute MaxTerminalBytesAbsolute
    MaxRenderedLinesAbsolute MaxEvidenceRefsTotalAbsolute.

(** A limit is positive and within its bound. *)
Definition checkBounds (stage : string) (checks : list (Z * Z * string)) : result ReportError unit :=
  foldR (λ _ c, reject_if ((c.1.1 <=? 0) || (c.1.2 <? c.1.1)) (errCode "invalid-limits" stage c.2)) () checks.
Definition validateLimits (l : Limits) : result ReportError Limits :=
  reject_if (l == mkLimits 0 0 0 0 0 0 0 0) (errCode "invalid-limits" "limits" "zero") ;;
  checkBounds "limits" [
    (l_MaxFindings l, MaxFindingsAbsolute, "findings"%string);
    (l_MaxDeltaRecords l, MaxDeltaRecordsAbsolute, "deltaRecords"%string);
    (l_MaxEvidenceRefsPerFinding l, MaxEvidenceRefsPerFindingAbsolute, "evidenceRefsPerFinding"%string);
    (l_MaxEvidenceRefsPerDelta l, MaxEvidenceRefsPerDeltaAbsolute, "evidenceRefsPerDelta"%string);
    (l_MaxEvidenceRefsTotal l, MaxEvidenceRefsTotalAbsolute, "evidenceRefsTotal"%string);
    (l_MaxLimitationsTotal l, MaxLimitationsTotalAbsolute, "limitations"%string);
    (l_MaxNotices l, MaxNoticesAbsolute, "notices"%string);
    (l_MaxReportJSONBytes l, MaxReportJSONBytesAbsolute, "reportJSON"%string)] ;;
  mret l.
Definition validateRenderLimits (l : RenderLimits) : result ReportError RenderLimits :=
  reject_if (l == mkRenderLimits 0 0 0 0 0 0) (errCode "invalid-limits" "render-limits" "zero") ;;
  checkBounds "render-limits" [
    (rl_MaxDisplayInputBytes l, MaxDisplayInputBytesAbsolute, "displayInput"%string);
    (rl_MaxEscapedDisplayBytes l, MaxEscapedDisplayBytesAbsolute, "displayOutput"%string);
    (rl_MaxMarkdownBytes l, MaxMarkdownBytesAbsolute, "markdown"%string);
    (rl_MaxTerminalBytes l, MaxTerminalBytesAbsolute, "terminal"%string);
    (rl_MaxRenderedLines l, MaxRenderedLinesAbsolute, "lines"%string);
    (rl_MaxEvidenceRefsTotal l, MaxEvidenceRefsTotalAbsolute, "evidenceRefs"%string)] ;;
  mret l.

(** ** [document.go] *)

Definition ReportProfileVersionV1Alpha1 : string := "glassroot.dev/report-profile/v1alpha1".
Definition MarkdownRendererVersionV1Alpha1 : string := "glassroot.dev/markdown-renderer/v1alpha1".
Definition TerminalRendererVersionV1Alpha1 : string := "glassroot.dev/terminal-renderer/v1alpha1".

Abbreviation NoticeCode := string.
Definition NoticeEvidenceIncomplete : NoticeCode := "evidence-incomplete".
Definition NoticeExecutionIncomplete : NoticeCode := "execution-incomplete".
Definition NoticeSyntheticEvidence : NoticeCode := "synthetic-evidence".
Definition NoticeNoTargetCodeExecuted : NoticeCode := "no-target-code-executed".
Definition NoticeFakeRunner : NoticeCode := "fake-runner".
Definition NoticeDevelopmentOnlyRunner : NoticeCode := "development-only-runner".
Definition NoticeNetworkDenyNotEnforced : NoticeCode := "network-deny-not-enforced".
Definition NoticeInternalConsistencyOnlyManifestVerification : NoticeCode := "internal-consistency-only-manifest-verification".
Definition NoticeWaiversApplied : NoticeCode := "waivers-applied".
Definition NoticeGovernanceFindingsPresent : NoticeCode := "governance-findings-present".
Definition NoticeObserverLimitationsPresent : NoticeCode := "observer-limitations-present".
Definition NoticePassedNotProofOfSafety : NoticeCode := "passed-is-not-proof-of-safety".

Record Notice := mkNotice { nt_Code : NoticeCode; nt_Text : string }.

Record SourceIdentity := mkSourceIdentity {
  si_Base : CommitRef;
  si_Head : CommitRef;
  si_BaseMaterializedTreeDigest : Digest;
  si_BaseMaterializationManifestDigest : Digest;
  si_HeadMaterializedTreeDigest : Digest;
  si_HeadMaterializationManifestDigest : Digest
}.

Record RunnerSection := mkRunnerSection {
  rs_Name : string;
  rs_Version : string;
  rs_IsolationTier : IsolationTier;
  rs_FreshKernel : bool;
  rs_BrokeredNetwork : bool;
  rs_ExecutesTargetCode : bool;
  rs_SyntheticEvidence : bool;
  rs_EnforcesNetworkDeny : bool;
  rs_ProcessEventCollection : bool;
  rs_FilesystemEventCollection : bool;
  rs_SyscallEventCollection : bool;
  rs_ArtifactHashing : bool;
  rs_SnapshotSupport : bool
}.

Record AttemptCoverageReport := mkAttemptCoverageReport {
  acr_AttemptID : string;
  acr_Ordinal : Z;
  acr_Revision : RevisionKind;
  acr_ScenarioID : string;
  acr_Repetition : Z;
  acr_Events : CaptureState;
  acr_Stdout : CaptureState;
  acr_Stderr : CaptureState;
  acr_Artifacts : CaptureState;
  acr_Result : CaptureState;
  acr_AcceptedEventCount : Z
}.

Record CompletenessSection := mkCompletenessSection {
  cs_BundleTransactionValid : bool;
  cs_ExecutionComplete : bool;
  cs_EvidenceComplete : bool;
  cs_SyntheticEvidence : bool;
  cs_ExpectedManifestDigestSupplied : bool;
  cs_ExpectedManifestDigestMatched : bool;
  cs_AttemptCoverage : list AttemptCoverageReport
}.

Record PolicySection := mkPolicySection {
  ps_ProfileName : string;
  ps_ProfileVersion : string;
  ps_BuiltinRuleSetVersion : string;
  ps_GovernanceRuleSetVersion : string;
  ps_OverallEffectiveDisposition : Disposition;
  ps_Summary : ApplicationSummary;
  ps_AppliedFindings : list AppliedFinding;
  ps_WaiverStatuses : list WaiverStatusRecord;
  ps_TrustedConfigAuthority : ConfigAuthority;
  ps_TrustedWaiverAuthority : WaiverAuthority
}.

Record BehaviorSection := mkBehaviorSection {
  bs_ComparisonProfile : ComparisonProfile;
  bs_NormalizationProfileVersion : string;
  bs_ScenarioIDs : list string;
  bs_ScenarioComparisons : list ScenarioComparison;
  bs_Summary : DeltaSummary;
  bs_Records : list DeltaRecord
}.

Record Document := mkDocument {
  doc_SchemaVersion : string;
  doc_ReportProfileVersion : string;
  doc_RunID : string;
  doc_EvaluatedAt : Time;
  doc_PlanDigest : Digest;
  doc_ManifestDigest : Digest;
  doc_BehavioralDeltaDigest : Digest;
  doc_BuiltinPolicyEvaluationDigest : Digest;
  doc_PolicyApplicationDigest : Digest;
  doc_ManifestVerificationMode : string;
  doc_Source : SourceIdentity;
  doc_Runner : RunnerSection;
  doc_Completeness : CompletenessSection;
  doc_Policy : PolicySection;
  doc_Behavior : BehaviorSection;
  doc_Notices : list Notice;
  doc_Limitations : list Limitation
}.

Record FrozenReport := mkFrozenReport {
  frp_doc : Document;
  frp_json : bytes;
  frp_digest : Digest
}.
Record RenderedOutput := mkRenderedOutput { ro_RendererVersion : string; ro_Bytes : bytes; ro_Digest : Digest }.

(** *** Copies *)

#[global] Instance copy_AppliedWaiver : JsonCopy AppliedWaiver := λ x,
  mkAppliedWaiver (json_copy (aw_ID x)) (json_copy (aw_TargetFindingID x)) (json_copy (aw_RuleID x)) (json_copy (aw_Owner x))
    (json_copy (aw_Reason x)) (aw_IssuedAt x) (aw_ExpiresAt x) (json_copy (aw_BaseRawDigest x))
    (json_copy (aw_SemanticWaiverSetDigest x)).
#[global] Instance copied_AppliedWaiver : CopyOnce AppliedWaiver.
Proof. copies copy_AppliedWaiver. Qed.
#[global] Instance copy_GovernanceReference : JsonCopy GovernanceReference := λ x,
  mkGovernanceReference (json_copy (gr_Kind x)) (json_copy (gr_Path x)) (json_copy (gr_ChangeKind x)) (json_copy (gr_SecurityEffect x))
    (json_copy (gr_WaiverID x)) (json_copy (gr_State x)) (json_copy (gr_RawDigest x)) (json_copy (gr_SemanticDigest x)).
#[global] Instance copied_GovernanceReference : CopyOnce GovernanceReference.
Proof. copies copy_GovernanceReference. Qed.
#[global] Instance copy_AppliedFinding : JsonCopy AppliedFinding := λ x,
  mkAppliedFinding (json_copy (af_Origin x)) (json_copy (af_Original x)) (json_copy (af_EffectiveDisposition x))
    (json_copy (af_AppliedWaiver x)) (json_copy (af_GovernanceReference x)).
#[global] Instance copied_AppliedFinding : CopyOnce AppliedFinding.
Proof. copies copy_AppliedFinding. Qed.
#[global] Instance copy_ConfigChangeReference : JsonCopy ConfigChangeReference := λ x,
  mkConfigChangeReference (json_copy (ccr_Path x)) (json_copy (ccr_Kind x)) (json_copy (ccr_SecurityEffect x)).
#[global] Instance copied_ConfigChangeReference : CopyOnce ConfigChangeReference.
Proof. copies copy_ConfigChangeReference. Qed.
#[global] Instance copy_ConfigAuthority : JsonCopy ConfigAuthority := λ x,
  mkConfigAuthority (json_copy (ca_Path x)) (json_copy (ca_BaseRevision x)) (json_copy (ca_HeadRevision x))
    (json_copy (ca_BaseRawDigest x)) (ca_BaseSizeBytes x) (json_copy (ca_HeadState x)) (json_copy (ca_HeadRawDigest x))
    (json_copy (ca_Changes x)).
#[global] Instance copied_ConfigAuthority : CopyOnce ConfigAuthority.
Proof. copies copy_ConfigAuthority. Qed.
#[global] Instance copy_WaiverChangeRecord : JsonCopy WaiverChangeRecord := λ x,
  mkWaiverChangeRecord (json_copy (wcr_WaiverID x)) (json_copy (wcr_Kind x)).
#[global] Instance copied_WaiverChangeRecord : CopyOnce WaiverChangeRecord.
Proof. copies copy_WaiverChangeRecord. Qed.
#[global] Instance copy_WaiverAuthority : JsonCopy WaiverAuthority := λ x,
  mkWaiverAuthority (json_copy (wa_Path x)) (json_copy (wa_BaseRevision x)) (json_copy (wa_HeadRevision x)) (json_copy (wa_BaseState x))
    (json_copy (wa_BaseRawDigest x)) (json_copy (wa_BaseSemanticDigest x)) (wa_BaseSizeBytes x) (json_copy (wa_HeadState x))
    (json_copy (wa_HeadRawDigest x)) (json_copy (wa_HeadSemanticDigest x)) (wa_HeadSizeBytes x) (json_copy (wa_Changes x)).
#[global] Instance copied_WaiverAuthority : CopyOnce WaiverAuthority.
Proof. copies copy_WaiverAuthority. Qed.
#[global] Instance copy_WaiverStatusRecord : JsonCopy WaiverStatusRecord := λ x,
  mkWaiverStatusRecord (json_copy (wsr_WaiverID x)) (json_copy (wsr_FindingID x)) (json_copy (wsr_RuleID x)) (json_copy (wsr_Status x)).
#[global] Instance copied_WaiverStatusRecord : CopyOnce WaiverStatusRecord.
Proof. copies copy_WaiverStatusRecord. Qed.
#[global] Instance copy_Notice : JsonCopy Notice := λ x,
  mkNotice (json_copy (nt_Code x)) (json_copy (nt_Text x)).
#[global] Instance copied_Notice : CopyOnce Notice.
Proof. copies copy_Notice. Qed.
#[global] Instance copy_SourceIdentity : JsonCopy SourceIdentity := λ x,
  mkSourceIdentity (json_copy (si_Base x)) (json_copy (si_Head x)) (json_copy (si_BaseMaterializedTreeDigest x))
    (json_copy (si_BaseMaterializationManifestDigest x)) (json_copy (si_HeadMaterializedTreeDigest x))
    (json_copy (si_HeadMaterializationManifestDigest x)).
#[global] Instance copied_SourceIdentity : CopyOnce SourceIdentity.
Proof. copies copy_SourceIdentity. Qed.
#[global] Instance copy_RunnerSection : JsonCopy RunnerSection := λ x,
  mkRunnerSection (json_copy (rs_Name x)) (json_copy (rs_Version x)) (json_copy (rs_IsolationTier x)) (rs_FreshKernel x)
    (rs_BrokeredNetwork x) (rs_ExecutesTargetCode x) (rs_SyntheticEvidence x) (rs_EnforcesNetworkDeny x) (rs_ProcessEventCollection x)
    (rs_FilesystemEventCollection x) (rs_SyscallEventCollection x) (rs_ArtifactHashing x) (rs_SnapshotSupport x).
#[global] Instance copied_RunnerSection : CopyOnce RunnerSection.
Proof. copies copy_RunnerSection. Qed.
#[global] Instance copy_AttemptCoverageReport : JsonCopy AttemptCoverageReport := λ x,
  mkAttemptCoverageReport (json_copy (acr_AttemptID x)) (acr_Ordinal x) (json_copy (acr_Revision x)) (json_copy (acr_ScenarioID x))
    (acr_Repetition x) (json_copy (acr_Events x)) (json_copy (acr_Stdout x)) (json_copy (acr_Stderr x)) (json_copy (acr_Artifacts x))
    (json_copy (acr_Result x)) (acr_AcceptedEventCount x).
#[global] Instance copied_AttemptCoverageReport : CopyOnce AttemptCoverageReport.
Proof. copies copy_AttemptCoverageReport. Qed.
#[global] Instance copy_ApplicationSummary : JsonCopy ApplicationSummary := λ x, x.
#[global] Instance copied_ApplicationSummary : CopyOnce ApplicationSummary := λ x, eq_refl.
#[global] Instance copy_CompletenessSection : JsonCopy CompletenessSection := λ x,
  mkCompletenessSection (cs_BundleTransactionValid x) (cs_ExecutionComplete x) (cs_EvidenceComplete x) (cs_SyntheticEvidence x)
    (cs_ExpectedManifestDigestSupplied x) (cs_ExpectedManifestDigestMatched x) (json_copy (cs_AttemptCoverage x)).
#[global] Instance copied_CompletenessSection : CopyOnce CompletenessSection.
Proof. copies copy_CompletenessSection. Qed.
#[global] Instance copy_PolicySection : JsonCopy PolicySection := λ x,
  mkPolicySection (json_copy (ps_ProfileName x)) (json_copy (ps_ProfileVersion x)) (json_copy (ps_BuiltinRuleSetVersion x))
    (json_copy (ps_GovernanceRuleSetVersion x)) (json_copy (ps_OverallEffectiveDisposition x)) (json_copy (ps_Summary x))
    (json_copy (ps_AppliedFindings x)) (json_copy (ps_WaiverStatuses x)) (json_copy (ps_TrustedConfigAuthority x))
    (json_copy (ps_TrustedWaiverAuthority x)).
#[global] Instance copied_PolicySection : CopyOnce PolicySection.
Proof. copies copy_PolicySection. Qed.
#[global] Instance copy_BehaviorSection : JsonCopy BehaviorSection := λ x,
  mkBehaviorSection (json_copy (bs_ComparisonProfile x)) (json_copy (bs_NormalizationProfileVersion x)) (json_copy (bs_ScenarioIDs x))
    (json_copy (bs_ScenarioComparisons x)) (json_copy (bs_Summary x)) (json_copy (bs_Records x)).
#[global] Instance copied_BehaviorSection : CopyOnce BehaviorSection.
Proof. copies copy_BehaviorSection. Qed.
#[global] Instance copy_Document : JsonCopy Document := λ x,
  mkDocument (json_copy (doc_SchemaVersion x)) (json_copy (doc_ReportProfileVersion x)) (json_copy (doc_RunID x)) (doc_EvaluatedAt x)
    (json_copy (doc_PlanDigest x)) (json_copy (doc_ManifestDigest x)) (json_copy (doc_BehavioralDeltaDigest x))
    (json_copy (doc_BuiltinPolicyEvaluationDigest x)) (json_copy (doc_PolicyApplicationDigest x))
    (json_copy (doc_ManifestVerificationMode x)) (json_copy (doc_Source x)) (json_copy (doc_Runner x)) (json_copy (doc_Completeness x))
    (json_copy (doc_Policy x)) (json_copy (doc_Behavior x)) (json_copy (doc_Notices x)) (json_copy (doc_Limitations x)).
#[global] Instance copied_Document : CopyOnce Document.
Proof. copies copy_Document. Qed.

(** [cloneDocument] *)
Definition cloneDocument (d : Document) : Document := json_copy d.

(** *** The encoder *)

Definition json_of_Notice (x : Notice) : json := JObj (j_fields [
  (false, "code"%string, JStr (nt_Code x));
  (false, "text"%string, JStr (nt_Text x))]).

Definition json_of_SourceIdentity (x : SourceIdentity) : json := JObj (j_fields [
  (false, "base"%string, json_of_CommitRef (si_Base x));
  (false, "head"%string, json_of_CommitRef (si_Head x));
  (ze_str (si_BaseMaterializedTreeDigest x), "baseMaterializedTreeDigest"%string, JStr (si_BaseMaterializedTreeDigest x));
  (ze_str (si_BaseMaterializationManifestDigest x), "baseMaterializationManifestDigest"%string, JStr (si_BaseMaterializationManifestDigest x));
  (ze_str (si_HeadMaterializedTreeDigest x), "headMaterializedTreeDigest"%string, JStr (si_HeadMaterializedTreeDigest x));
  (ze_str (si_HeadMaterializationManifestDigest x), "headMaterializationManifestDigest"%string, JStr (si_HeadMaterializationManifestDigest x))]).

Definition json_of_RunnerSection (x : RunnerSection) : json := JObj (j_fields [
  (false, "name"%string, JStr (rs_Name x));
  (false, "version"%string, JStr (rs_Version x));
  (false, "isolationTier"%string, JStr (rs_IsolationTier x));
  (false, "freshKernel"%string, JBool (rs_FreshKernel x));
  (false, "brokeredNetwork"%string, JBool (rs_BrokeredNetwork x));
  (false, "executesTargetCode"%string, JBool (rs_ExecutesTargetCode x));
  (false, "syntheticEvidence"%string, JBool (rs_SyntheticEvidence x));
  (false, "enforcesNetworkDeny"%string, JBool (rs_EnforcesNetworkDeny x));
  (false, "processEventCollection"%string, JBool (rs_ProcessEventCollection x));
  (false, "filesystemEventCollection"%string, JBool (rs_FilesystemEventCollection x));
  (false, "syscallEventCollection"%string, JBool (rs_SyscallEventCollection x));
  (false, "artifactHashing"%string, JBool (rs_ArtifactHashing x));
  (false, "snapshotSupport"%string, JBool (rs_SnapshotSupport x))]).

Definition json_of_AttemptCoverageReport (x : AttemptCoverageReport) : json := JObj (j_fields [
  (false, "attemptId"%string, JStr (acr_AttemptID x));
  (false, "ordinal"%string, JNum (acr_Ordinal x));
  (false, "revision"%string, JStr (acr_Revision x));
  (false, "scenarioId"%string, JStr (acr_ScenarioID x));
  (false, "repetition"%string, JNum (acr_Repetition x));
  (false, "events"%string, JStr (acr_Events x));
  (false, "stdout"%string, JStr (acr_Stdout x));
  (false, "stderr"%string, JStr (acr_Stderr x));
  (false, "artifacts"%string, JStr (acr_Artifacts x));
  (false, "result"%string, JStr (acr_Result x));
  (false, "acceptedEventCount"%string, JNum (acr_AcceptedEventCount x))]).

Definition json_of_CompletenessSection (x : CompletenessSection) : json := JObj (j_fields [
  (false, "bundleTransactionValid"%string, JBool (cs_BundleTransactionValid x));
  (false, "executionComplete"%string, JBool (cs_ExecutionComplete x));
  (false, "evidenceComplete"%string, JBool (cs_EvidenceComplete x));
  (false, "syntheticEvidence"%string, JBool (cs_SyntheticEvidence x));
  (false, "expectedManifestDigestSupplied"%string, JBool (cs_ExpectedManifestDigestSupplied x));
  (false, "expectedManifestDigestMatched"%string, JBool (cs_ExpectedManifestDigestMatched x));
  (false, "attemptCoverage"%string, JArr (json_of_AttemptCoverageReport <$> cs_AttemptCoverage x))]).

Definition json_of_PolicySection (x : PolicySection) : json := JObj (j_fields [
  (false, "profileName"%string, JStr (ps_ProfileName x));
  (false, "profileVersion"%string, JStr (ps_ProfileVersion x));
  (false, "builtinRuleSetVersion"%string, JStr (ps_BuiltinRuleSetVersion x));
  (false, "governanceRuleSetVersion"%string, JStr (ps_GovernanceRuleSetVersion x));
  (false, "overallEffectiveDisposition"%string, JStr (ps_OverallEffectiveDisposition x));
  (false, "summary"%string, json_of_ApplicationSummary (ps_Summary x));
  (false, "appliedFindings"%string, JArr (json_of_AppliedFinding <$> ps_AppliedFindings x));
  (false, "waiverStatuses"%string, JArr (json_of_WaiverStatusRecord <$> ps_WaiverStatuses x));
  (false, "trustedConfigAuthority"%string, json_of_ConfigAuthority (ps_TrustedConfigAuthority x));
  (false, "trustedWaiverAuthority"%string, json_of_WaiverAuthority (ps_TrustedWaiverAuthority x))]).

Definition json_of_BehaviorSection (x : BehaviorSection) : json := JObj (j_fields [
  (false, "comparisonProfile"%string, json_of_ComparisonProfile (bs_ComparisonProfile x));
  (false, "normalizationProfileVersion"%string, JStr (bs_NormalizationProfileVersion x));
  (false, "scenarioIds"%string, JArr (JStr <$> bs_ScenarioIDs x));
  (false, "scenarioComparisons"%string, JArr (json_of_ScenarioComparison <$> bs_ScenarioComparisons x));
  (false, "summary"%string, json_of_DeltaSummary (bs_Summary x));
  (false, "records"%string, JArr (json_of_DeltaRecord <$> bs_Records x))]).

(** The arrays of the document itself are not nil ([ensureDocumentSlices]). *)
Definition json_of_Document (x : Document) : json := JObj (j_fields [
  (false, "schemaVersion"%string, JStr (doc_SchemaVersion x));
  (false, "reportProfileVersion"%string, JStr (doc_ReportProfileVersion x));
  (false, "runId"%string, JStr (doc_RunID x));
  (false, "evaluatedAt"%string, json_of_time (doc_EvaluatedAt x));
  (false, "planDigest"%string, JStr (doc_PlanDigest x));
  (false, "manifestDigest"%string, JStr (doc_ManifestDigest x));
  (false, "behavioralDeltaDigest"%string, JStr (doc_BehavioralDeltaDigest x));
  (false, "builtinPolicyEvaluationDigest"%string, JStr (doc_BuiltinPolicyEvaluationDigest x));
  (false, "policyApplicationDigest"%string, JStr (doc_PolicyApplicationDigest x));
  (false, "manifestVerificationMode"%string, JStr (doc_ManifestVerificationMode x));
  (false, "source"%string, json_of_SourceIdentity (doc_Source x));
  (false, "runner"%string, json_of_RunnerSection (doc_Runner x));
  (false, "completeness"%string, json_of_CompletenessSection (doc_Completeness x));
  (false, "policy"%string, json_of_PolicySection (doc_Policy x));
  (false, "behavior"%string, json_of_BehaviorSection (doc_Behavior x));
  (false, "notices"%string, JArr (json_of_Notice <$> doc_Notices x));
  (false, "limitations"%string, JArr (json_of_Limitation <$> doc_Limitations x))]).

(** *** Freezing *)

Definition reportJSONDomain : string := "glassroot.dev/report-json/v1" +:+ NUL.
Definition markdownDigestDomain : string := "glassroot.dev/report-markdown/v1" +:+ NUL.
Definition terminalDigestDomain : string := "glassroot.dev/report-terminal/v1" +:+ NUL.

Definition freezeReportDocument (doc : Document) (limits : Limits) : result ReportError FrozenReport :=
  reject_if ((doc_SchemaVersion doc != SchemaVersionReportV1Alpha1) || (doc_ReportProfileVersion doc != ReportProfileVersionV1Alpha1))
    (errCode "unsupported-report-profile" "freeze" "schema") ;;
  reject_if (l_MaxNotices limits <? Z.of_nat (length (doc_Notices doc))) (errCode "report-limit" "freeze" "notices") ;;
  reject_if (l_MaxLimitationsTotal limits <? Z.of_nat (length (doc_Limitations doc))) (errCode "report-limit" "freeze" "limitations") ;;
  let data := render (json_of_Document doc) in
  reject_if ((l_MaxReportJSONBytes limits <=? 0) || (MaxReportJSONBytesAbsolute <? l_MaxReportJSONBytes limits))
    (errCode "invalid-limits" "freeze" "limits") ;;
  reject_if (l_MaxReportJSONBytes limits <? Z.of_nat (length data)) (errCode "report-too-large" "freeze" "json") ;;
  mret (mkFrozenReport (cloneDocument doc) data (digestBytes reportJSONDomain data)).

(** ** [strip.go]: without the paths inside the bundle *)

Definition stripRef (r : EvidenceRef) : EvidenceRef :=
  mkEvidenceRef (er_Digest r) (er_EventIDs r) None (er_EventStreamDigest r) (er_EventStreamPath r) (er_EventSequence r) (er_Revision r)
    (er_ScenarioID r) (er_Repetition r).
Definition stripRefs (l : list EvidenceRef) : list EvidenceRef := stripRef <$> l.
Definition stripWaiver (w : ModelWaiver) : ModelWaiver :=
  mkModelWaiver (mw_ID w) (mw_RuleID w) (mw_Scope w) (mw_Reason w) (mw_Owner w) (mw_ExpiresAt w) (stripRefs (mw_Evidence w)).
Definition stripFinding (f : Finding) : Finding :=
  mkFinding (fd_SchemaVersion f) (fd_ID f) (fd_RuleID f) (fd_RuleVersion f) (fd_Title f) (fd_Severity f) (fd_Confidence f) (fd_Disposition f)
    (fd_Summary f) (fd_DeltaRecordIDs f) (stripRefs (fd_Evidence f)) (fd_ScenarioIDs f) (fd_BaseObserved f) (fd_HeadObserved f) (fd_Waived f)
    (stripWaiver <$> fd_Waivers f) (fd_Limitations f).
Definition stripApplied (a : AppliedFinding) : AppliedFinding :=
  mkAppliedFinding (af_Origin a) (stripFinding (af_Original a)) (af_EffectiveDisposition a) (af_AppliedWaiver a) (af_GovernanceReference a).
Definition stripFact (f : DeltaFactSnapshot) : DeltaFactSnapshot :=
  mkDeltaFactSnapshot (dfs_ID f) (dfs_SemanticDigest f) (dfs_Kind f) (dfs_Source f) (dfs_Process f) (dfs_Filesystem f) (dfs_Network f)
    (dfs_Artifact f) (dfs_Scenario f) (dfs_Warning f) (dfs_Resource f) (stripRefs (dfs_Evidence f)) (dfs_Limitations f).
Definition stripRecord (r : DeltaRecord) : DeltaRecord :=
  mkDeltaRecord (dr_ID r) (dr_Kind r) (dr_Summary r) (dr_BaseObserved r) (dr_HeadObserved r) (stripRefs (dr_Evidence r)) (dr_ScenarioIDs r)
    (dr_Limitations r) (dr_FactKind r) (dr_Source r) (dr_AnchorDigest r) (dr_Basis r) (dr_ChangedFields r) (dr_BaseOccurrence r)
    (dr_HeadOccurrence r) (stripFact <$> dr_BaseFacts r) (stripFact <$> dr_HeadFacts r) (stripRefs (dr_BaseEvidence r))
    (stripRefs (dr_HeadEvidence r)) (dr_BaseSemanticDigests r) (dr_HeadSemanticDigests r).

(** ** [kinds.go] *)

Definition validateDeltaKind (k : DeltaKind) : result ReportError unit :=
  if bool_decide (k ∈ [DeltaKindAdded; DeltaKindRemoved; DeltaKindModified; DeltaKindCountChanged; DeltaKindOrderChanged; DeltaKindStabilityChanged;
    DeltaKindCoverageChanged; DeltaKindAddedProcess; DeltaKindAddedFilesystemActivity; DeltaKindAddedNetworkConnection; DeltaKindArtifactChanged;
    DeltaKindObservationIncomplete]) then Ok ()
  else Err (errCode "unsupported-delta-kind" "render" "deltaKind").

(** ** [digest.go] *)

Definition validDigest (d : Digest) : bool :=
  negb ((str_len d != 71) || negb (has_prefix "sha256:" d)) && str_forallb is_lower_hex_digit (str_drop 7 d).

(** ** [builder.go]: binding *)

Record ReportRequest := mkReportRequest {
  rq_Bundle : option Bundle;
  rq_Delta : option FrozenDelta;
  rq_Application : option FrozenApplication
}.

Definition sameCommit (a b : CommitRef) : bool :=
  (cr_Kind a == cr_Kind b) && (cr_CommitID a == cr_CommitID b) && (cr_TreeID a == cr_TreeID b) && (cr_ObjectFormat a == cr_ObjectFormat b)
  && (cr_TreeDigest a == cr_TreeDigest b).
#[global] Instance CommitRef_eq_dec : EqDecision CommitRef.
Proof. solve_decision. Defined.
Definition deltaCommitCompatible (plan delta : CommitRef) : bool :=
  if delta == mkCommitRef "" "" "" "" "" "" "" then true else sameCommit plan delta.

Definition validRunner (c : RunnerCapabilities) : bool :=
  negb ((rc_Name c == ""%string) || (rc_Version c == ""%string))
  && bool_decide (rc_IsolationTier c ∈ [IsolationTierFake; IsolationTierDevelopmentOnly; IsolationTierHardenedContainer; IsolationTierMicroVM])
  && negb ((rc_IsolationTier c == IsolationTierFake) && (rc_ExecutesTargetCode c || negb (rc_SyntheticEvidence c))).

Definition validateBinding (b : Bundle) (delta : FrozenDelta) (application : FrozenApplication) : result ReportError unit :=
  let manifest := b_manifest b in let verification := b_verification b in let plan := b_plan b in let exec := b_execution b in
  let d := fz_doc delta in let app := fa_doc application in
  reject_if ((mf_SchemaVersion manifest != SchemaVersionEvidenceManifestV1Alpha1) || (mf_RunID manifest == ""%string)
             || negb (mf_BundleTransactionValid manifest)) (errCode "invalid-bundle" "binding" "manifest") ;;
  reject_if (negb (vs_InternallyConsistent verification) || (vs_ManifestDigest verification != b_manifestDigest b)
             || (vs_ManifestDigest verification != bd_ManifestDigest d)) (errCode "manifest-digest-mismatch" "binding" "manifestDigest") ;;
  reject_if ((rp_SchemaVersion plan != SchemaVersionRunPlanV1Alpha1) || (rp_RunID plan == ""%string)) (errCode "invalid-bundle" "binding" "plan") ;;
  reject_if (rp_Runner plan != Application.zeroRunner) (errCode "invalid-bundle" "binding" "runner") ;;
  let computed := DigestRunPlanJSON (render (json_of_RunPlan plan)) in
  reject_if ((computed != mf_PlanDigest manifest) || (computed != xd_PlanDigest exec) || (computed != bd_PlanDigest d)
             || (computed != ad_PlanDigest app)) (errCode "plan-digest-mismatch" "binding" "planDigest") ;;
  reject_if ((xd_SchemaVersion exec != SchemaVersionExecutionResultV1Alpha1) || (xd_RunID exec != rp_RunID plan))
    (errCode "invalid-bundle" "binding" "execution") ;;
  reject_if ((rp_RunID plan != mf_RunID manifest) || (rp_RunID plan != bd_RunID d) || (rp_RunID plan != ad_RunID app))
    (errCode "run-id-mismatch" "binding" "runId") ;;
  reject_if ((bd_SchemaVersion d != SchemaVersionBehavioralDeltaV1Alpha1)
             || (cp_Version (bd_ComparisonProfile d) != ComparisonProfileVersionV1Alpha1)
             || (bd_NormalizationProfileVersion d != ProfileVersionV1Alpha1)) (errCode "invalid-delta" "binding" "delta") ;;
  reject_if ((DigestBehavioralDeltaJSON (fz_json delta) != fz_digest delta) || (ad_BehavioralDeltaDigest app != fz_digest delta))
    (errCode "delta-digest-mismatch" "binding" "deltaDigest") ;;
  reject_if ((ad_SchemaVersion app != SchemaVersionPolicyApplicationV1Alpha1) || (ad_PolicyProfileName app != PolicyProfileNameStrict)
             || (ad_PolicyProfileVersion app != PolicyProfileVersionStrictV1Alpha1)
             || (ad_BuiltinRuleSetVersion app != BuiltinRuleSetVersionStrictV1Alpha1)
             || (ad_GovernanceRuleSetVersion app != GovernanceRuleSetVersionStrictV1Alpha1)) (errCode "invalid-application" "binding" "application") ;;
  reject_if (digestBytes applicationJSONDomain (fa_json application) != fa_digest application)
    (errCode "application-digest-mismatch" "binding" "applicationDigest") ;;
  reject_if (negb (validDigest (ad_BasePolicyEvaluationDigest app)) || negb (validDigest (fa_digest application)) || negb (validDigest (fz_digest delta)))
    (errCode "invalid-application" "binding" "digest") ;;
  reject_if (negb (deltaCommitCompatible (rp_Base plan) (bd_Base d)) || negb (deltaCommitCompatible (rp_Head plan) (bd_Head d))
             || negb (sameCommit (rp_Base plan) (ad_Base app)) || negb (sameCommit (rp_Head plan) (ad_Head app)))
    (errCode "revision-mismatch" "binding" "revision") ;;
  reject_if (negb (Bool.eqb (mf_ExecutionComplete manifest) (xd_ExecutionComplete exec)) || negb (Bool.eqb (mf_EvidenceComplete manifest) (xd_EvidenceComplete exec))
             || negb (Bool.eqb (bd_ExecutionComplete d) (xd_ExecutionComplete exec)) || negb (Bool.eqb (bd_EvidenceComplete d) (xd_EvidenceComplete exec)))
    (errCode "completeness-mismatch" "binding" "complete") ;;
  reject_if (negb (validRunner (xd_Runner exec))) (errCode "invalid-runner-capabilities" "binding" "runner") ;;
  reject_if (ad_EvaluatedAt app == zero_time) (errCode "invalid-application" "binding" "evaluatedAt") ;;
  reject_if (ze_list (b_attempts b)) (errCode "invalid-bundle" "binding" "attempts").

(** *** Counts and references *)

Definition attemptKey (rev : RevisionKind) (scenario : string) (rep : Z) : string := rev +:+ NUL +:+ scenario +:+ NUL +:+ fmt_d rep.

Definition validateEvidenceRef (attempts : gset string) (ref : EvidenceRef) : result ReportError unit :=
  if (er_Revision ref == ""%string) && (er_ScenarioID ref == ""%string) && (er_EventSequence ref == 0) then Ok ()
  else
    reject_if ((er_Revision ref != RevisionKindBase) && (er_Revision ref != RevisionKindHead))
      (errCode "invalid-evidence-reference" "validate" "revision") ;;
    reject_if ((er_ScenarioID ref == ""%string) || (er_Repetition ref == 0) || (er_EventSequence ref == 0) || (er_EventStreamDigest ref == ""%string)
               || (er_EventStreamPath ref == ""%string) || ze_list (er_EventIDs ref)) (errCode "invalid-evidence-reference" "validate" "evidence") ;;
    reject_if (negb (validDigest (er_EventStreamDigest ref))) (errCode "invalid-evidence-reference" "validate" "digest") ;;
    reject_if (bool_decide (attemptKey (er_Revision ref) (er_ScenarioID ref) (er_Repetition ref) ∉ attempts))
      (errCode "invalid-evidence-reference" "validate" "attempt").

(** A record: a new identity, and not too many references. *)
Definition recordRefs (r : DeltaRecord) : Z := Z.of_nat (length (dr_Evidence r) + (length (dr_BaseEvidence r) + length (dr_HeadEvidence r))).
Definition checkRecord (limits : Limits) (s : gset string * Z) (r : DeltaRecord) : result ReportError (gset string * Z) :=
  reject_if (dr_ID r == ""%string) (errCode "invalid-delta" "validate" "record") ;;
  reject_if (bool_decide (dr_ID r ∈ s.1)) (errCode "duplicate-delta-record-id" "validate" "record") ;;
  reject_if (l_MaxEvidenceRefsPerDelta limits <? recordRefs r) (errCode "evidence-reference-limit" "validate" "deltaEvidence") ;;
  mret ({[ dr_ID r ]} ∪ s.1, s.2 + recordRefs r).

(** A finding: a new identity, about records, scenarios and attempts there are. *)
Definition checkFindingRefs (limits : Limits) (deltaIDs scenarios attempts : gset string) (s : gset string * Z) (f : AppliedFinding) :
    result ReportError (gset string * Z) :=
  let o := af_Original f in
  reject_if (fd_ID o == ""%string) (errCode "invalid-application" "validate" "finding") ;;
  reject_if (bool_decide (fd_ID o ∈ s.1)) (errCode "duplicate-finding-id" "validate" "finding") ;;
  foldR (λ _ id, reject_if (bool_decide (id ∉ deltaIDs)) (errCode "missing-delta-record" "validate" "deltaRecordId")) () (fd_DeltaRecordIDs o) ;;
  foldR (λ _ id, reject_if (bool_decide (id ∉ scenarios)) (errCode "invalid-application" "validate" "scenario")) () (fd_ScenarioIDs o) ;;
  reject_if (l_MaxEvidenceRefsPerFinding limits <? Z.of_nat (length (fd_Evidence o))) (errCode "evidence-reference-limit" "validate" "findingEvidence") ;;
  foldR (λ _, validateEvidenceRef attempts) () (fd_Evidence o) ;;
  mret ({[ fd_ID o ]} ∪ s.1, s.2 + Z.of_nat (length (fd_Evidence o))).

Definition validateCountsAndRefs (plan : RunPlan) (attempts : list VerifiedAttempt) (delta : BehavioralDelta) (app : ApplicationDocument)
    (limits : Limits) : result ReportError unit :=
  reject_if (l_MaxDeltaRecords limits <? Z.of_nat (length (bd_Records delta))) (errCode "report-limit" "validate" "deltaRecords") ;;
  reject_if (l_MaxFindings limits <? Z.of_nat (length (ad_AppliedFindings app))) (errCode "report-limit" "validate" "findings") ;;
  reject_if (ds_TotalRecords (bd_Summary delta) != Z.of_nat (length (bd_Records delta))) (errCode "invalid-delta" "validate" "summary") ;;
  reject_if (as_TotalFindings (ad_Summary app) != Z.of_nat (length (ad_AppliedFindings app))) (errCode "invalid-application" "validate" "summary") ;;
  r ← foldR (checkRecord limits) (∅, 0) (bd_Records delta);
  let keys : gset string := list_to_set ((λ a, attemptKey (va_Revision a) (va_ScenarioID a) (va_Repetition a)) <$> attempts) in
  let scenarios : gset string := list_to_set (sp_ID <$> rp_Scenarios plan) in
  f ← foldR (checkFindingRefs limits r.1 scenarios keys) (∅, r.2) (ad_AppliedFindings app);
  reject_if (l_MaxEvidenceRefsTotal limits <? f.2) (errCode "evidence-reference-limit" "validate" "evidence").

(** ** [builder.go]: the document *)

Definition materialized (kind : RevisionKind) (f : RevisionPlan → Digest) (plan : RunPlan) : Digest :=
  foldl (λ d r, if rvp_Kind r == kind then f r else d) ""%string (rp_Revisions plan).
Definition sourceIdentity (plan : RunPlan) : SourceIdentity :=
  mkSourceIdentity (rp_Base plan) (rp_Head plan)
    (materialized RevisionKindBase rvp_MaterializedTreeDigest plan) (materialized RevisionKindBase rvp_MaterializationManifestDigest plan)
    (materialized RevisionKindHead rvp_MaterializedTreeDigest plan) (materialized RevisionKindHead rvp_MaterializationManifestDigest plan).
Definition runnerSection (c : RunnerCapabilities) : RunnerSection :=
  mkRunnerSection (rc_Name c) (rc_Version c) (rc_IsolationTier c) (rc_FreshKernel c) (rc_BrokeredNetwork c) (rc_ExecutesTargetCode c)
    (rc_SyntheticEvidence c) (rc_EnforcesNetworkDeny c) (rc_ProcessEventCollection c) (rc_FilesystemEventCollection c)
    (rc_SyscallEventCollection c) (rc_ArtifactHashing c) (rc_SnapshotSupport c).
Definition coverageReport (a : VerifiedAttempt) : AttemptCoverageReport :=
  mkAttemptCoverageReport (va_AttemptID a) (va_Ordinal a) (va_Revision a) (va_ScenarioID a) (va_Repetition a) (va_Events a) (va_Stdout a)
    (va_Stderr a) (va_Artifacts a) (va_Result a) (va_AcceptedEventCount a).
Definition completenessSection (m : Manifest) (v : VerificationSummary) (e : ExecutionDocument) (attempts : list VerifiedAttempt) : CompletenessSection :=
  mkCompletenessSection (mf_BundleTransactionValid m && xd_BundleTransactionValid e) (xd_ExecutionComplete e) (xd_EvidenceComplete e)
    (rc_SyntheticEvidence (xd_Runner e)) (vs_ExpectedManifestDigestSupplied v) (vs_ExpectedManifestDigestMatched v) (coverageReport <$> attempts).
(** The sections are made from copies of their documents. *)
Definition policySection (app : ApplicationDocument) : PolicySection :=
  mkPolicySection (json_copy (ad_PolicyProfileName app)) (json_copy (ad_PolicyProfileVersion app)) (json_copy (ad_BuiltinRuleSetVersion app))
    (json_copy (ad_GovernanceRuleSetVersion app)) (json_copy (ad_OverallEffectiveDisposition app)) (ad_Summary app)
    (stripApplied <$> json_copy (ad_AppliedFindings app)) (json_copy (ad_WaiverStatuses app)) (json_copy (ad_TrustedConfigAuthority app))
    (json_copy (ad_TrustedWaiverAuthority app)).
Definition behaviorSection (delta : BehavioralDelta) : BehaviorSection :=
  mkBehaviorSection (json_copy (bd_ComparisonProfile delta)) (json_copy (bd_NormalizationProfileVersion delta)) (json_copy (bd_ScenarioIDs delta))
    (json_copy (bd_ScenarioComparisons delta)) (bd_Summary delta) (stripRecord <$> json_copy (bd_Records delta)).

Definition noticeText (c : NoticeCode) : string :=
  if c == NoticeEvidenceIncomplete then "Evidence is incomplete; missing evidence is not treated as clean behavior."
  else if c == NoticeExecutionIncomplete then "Execution did not complete; behavior absence is not established."
  else if c == NoticeSyntheticEvidence then "Evidence is synthetic test data, not observed target behavior."
  else if c == NoticeNoTargetCodeExecuted then "The runner reported that no target code was executed."
  else if c == NoticeFakeRunner then "The fake runner is for tests and is not a security boundary."
  else if c == NoticeDevelopmentOnlyRunner then "The development-only runner is not a hardened security boundary."
  else if c == NoticeNetworkDenyNotEnforced then "The runner did not report enforced network deny."
  else if c == NoticeInternalConsistencyOnlyManifestVerification then "The manifest was verified for internal consistency only, not authentication."
  else if c == NoticeWaiversApplied then "One or more findings are effectively waived but remain visible."
  else if c == NoticeGovernanceFindingsPresent then "Configuration or waiver governance findings are present."
  else if c == NoticeObserverLimitationsPresent then "Observer or capture limitations are present."
  else if c == NoticePassedNotProofOfSafety then "A passed disposition does not prove the code is safe."
  else "Unknown report notice.".
(** The conditions of the notices. *)
Definition noticeChecks (v : VerificationSummary) (e : ExecutionDocument) (app : ApplicationDocument) : list (NoticeCode * bool) := [
  (NoticePassedNotProofOfSafety, true);
  (NoticeExecutionIncomplete, negb (xd_ExecutionComplete e));
  (NoticeEvidenceIncomplete, negb (xd_EvidenceComplete e));
  (NoticeSyntheticEvidence, rc_SyntheticEvidence (xd_Runner e));
  (NoticeNoTargetCodeExecuted, negb (rc_ExecutesTargetCode (xd_Runner e)));
  (NoticeFakeRunner, rc_IsolationTier (xd_Runner e) == IsolationTierFake);
  (NoticeDevelopmentOnlyRunner, rc_IsolationTier (xd_Runner e) == IsolationTierDevelopmentOnly);
  (NoticeNetworkDenyNotEnforced, negb (rc_EnforcesNetworkDeny (xd_Runner e)));
  (NoticeInternalConsistencyOnlyManifestVerification, vs_Mode v == VerificationModeInternalConsistencyOnly);
  (NoticeWaiversApplied, (0 <? as_EffectiveWaived (ad_Summary app)) || (0 <? as_AppliedWaivers (ad_Summary app)));
  (NoticeGovernanceFindingsPresent, (0 <? as_ConfigurationFindings (ad_Summary app)) || (0 <? as_WaiverGovernanceFindings (ad_Summary app)));
  (NoticeObserverLimitationsPresent, negb (ze_list (xd_Limitations e)) || negb (ze_list (ad_Limitations app)))].
(** A map of the codes that apply; its order is that of the sort below. *)
Definition notices (v : VerificationSummary) (e : ExecutionDocument) (app : ApplicationDocument) : list Notice :=
  omap (λ '(c, holds), if (holds : bool) then Some (mkNotice c (noticeText c)) else None) (noticeChecks v e app).

Definition limitation_less (a b : Limitation) : bool :=
  if lim_ID a != lim_ID b then String.ltb (lim_ID a) (lim_ID b) else String.ltb (lim_Summary a) (lim_Summary b).
Definition collectLimitations (m : Manifest) (v : VerificationSummary) (e : ExecutionDocument) (d : BehavioralDelta) (a : ApplicationDocument) :
    list Limitation :=
  stable_sort limitation_less (mf_Limitations m ++ vs_Limitations v ++ xd_Limitations e ++ bd_Limitations d ++ ad_Limitations a).

Definition notice_less (a b : Notice) : bool := String.ltb (nt_Code a) (nt_Code b).
Definition buildDocument (b : Bundle) (delta : FrozenDelta) (application : FrozenApplication) : Document :=
  let v := b_verification b in let e := b_execution b in let d := fz_doc delta in let app := fa_doc application in
  {| doc_SchemaVersion := SchemaVersionReportV1Alpha1;
     doc_ReportProfileVersion := ReportProfileVersionV1Alpha1;
     doc_RunID := rp_RunID (b_plan b);
     doc_EvaluatedAt := ad_EvaluatedAt app;
     doc_PlanDigest := bd_PlanDigest d;
     doc_ManifestDigest := vs_ManifestDigest v;
     doc_BehavioralDeltaDigest := fz_digest delta;
     doc_BuiltinPolicyEvaluationDigest := ad_BasePolicyEvaluationDigest app;
     doc_PolicyApplicationDigest := fa_digest application;
     doc_ManifestVerificationMode := vs_Mode v;
     doc_Source := sourceIdentity (b_plan b);
     doc_Runner := runnerSection (xd_Runner e);
     doc_Completeness := completenessSection (b_manifest b) v e (b_attempts b);
     doc_Policy := policySection app;
     doc_Behavior := behaviorSection d;
     doc_Notices := stable_sort notice_less (notices v e app);
     doc_Limitations := collectLimitations (b_manifest b) v e d app |}.

(** [New] followed by [Build] *)
Definition Build (limits : Limits) (ctx : option CtxCause) (req : ReportRequest) : result ReportError FrozenReport :=
  limits ← validateLimits limits;
  match ctx with Some c => Err (contextErr "build" c) | None =>
  match rq_Bundle req with None => Err (errCode "nil-bundle" "build" "bundle") | Some b =>
  match rq_Delta req with None => Err (errCode "nil-delta" "build" "delta") | Some delta =>
  match rq_Application req with None => Err (errCode "nil-application" "build" "application") | Some application =>
    reject_if (b_closed b) (errCode "bundle-closed" "build" "bundle") ;;
    validateBinding b delta application ;;
    validateCountsAndRefs (b_plan b) (b_attempts b) (fz_doc delta) (fa_doc application) limits ;;
    freezeReportDocument (buildDocument b delta application) limits
  end end end end.
