(* ===== verification/Render.v ===== *)
(** * The report ([internal/report]): rendering

    The frozen report as Markdown and as terminal text.  Every value of the document
    passes the visible-text encoder of [display.go], and Markdown puts it into a code
    span.  What the methods of the render builder write is a list of actions, which
    [perform] carries out on the builder.  The definitions follow [display.go],
    [markdown.go] and [terminal.go]. *)

From stdpp Require Import prelude strings.
From Stdlib Require Import ZArith Lia Ascii.
From S2P Require Import Prelude GoStd Sha256 Framing GoTime Model Json GoText JsonCopy Event Compare Policy Application Report.
Local Open Scope Z_scope.

(** ** [display.go] *)

(** [unicode.Cf], the format characters of Unicode 15. *)
Definition format_ranges : list (Z * Z) := [
  (0xAD, 0xAD); (0x600, 0x605); (0x61C, 0x61C); (0x6DD, 0x6DD); (0x70F, 0x70F); (0x890, 0x891); (0x8E2, 0x8E2); (0x180E, 0x180E);
  (0x200B, 0x200F); (0x202A, 0x202E); (0x2060, 0x2064); (0x2066, 0x206F); (0xFEFF, 0xFEFF); (0xFFF9, 0xFFFB); (0x110BD, 0x110BD);
  (0x110CD, 0x110CD); (0x13430, 0x1343F); (0x1BCA0, 0x1BCA3); (0x1D173, 0x1D17A); (0xE0001, 0xE0001); (0xE0020, 0xE007F)].
Definition is_Cf (r : Z) : bool := existsb (λ '(lo, hi), (lo <=? r) && (r <=? hi)) format_ranges.

Definition upper_hex_digit (v : Z) : ascii := byte_of (if v <? 10 then 48 + v else 55 + v).
(** [%0wX] for a value of at most [w] digits *)
Fixpoint upper_hex (w : nat) (v : Z) : bytes :=
  match w with O => [] | S w => upper_hex w (v / 16) ++ [upper_hex_digit (v mod 16)] end.

Definition writeByteEscape (c : ascii) : bytes := to_bytes "\x" ++ upper_hex 2 (byte_val c).
(** [\u{%04X}]: four digits, or as many as a larger rune has *)
Definition writeRuneEscape (r : Z) : bytes :=
  to_bytes "\u{" ++ upper_hex (if r <? 65536 then 4 else if r <? 1048576 then 5 else 6) r ++ to_bytes "}".
(** The rune [r], which was read from [enc]. *)
Definition writeRuneVisible (r : Z) (enc : bytes) : bytes :=
  if r =? 92 then to_bytes "\\"
  else if bool_decide (r ∈ [0; 7; 8; 9; 10; 11; 12; 13; 27; 127]) then to_bytes "\x" ++ upper_hex 2 r
  else if bool_decide (r ∈ [60; 62; 91; 93; 40; 41; 33; 35; 124; 64]) then writeRuneEscape r
  else if (r <? 32) || ((128 <=? r) && (r <=? 159)) || (r =? 8232) || (r =? 8233) || is_Cf r then writeRuneEscape r
  else enc.
Definition writeVisible (x : option Z * bytes) : bytes :=
  match x with (Some r, enc) => writeRuneVisible r enc | (None, enc) => enc ≫= writeByteEscape end.

Definition visibleStep (limits : RenderLimits) (acc : bytes) (x : option Z * bytes) : result ReportError bytes :=
  let acc := acc ++ writeVisible x in
  reject_if (rl_MaxEscapedDisplayBytes limits <? Z.of_nat (length acc)) (errCode "display-value-too-large" "display" "output") ;;
  mret acc.
Definition visibleDisplayBytes (input : bytes) (limits : RenderLimits) : result ReportError bytes :=
  reject_if ((rl_MaxDisplayInputBytes limits <=? 0) || (MaxDisplayInputBytesAbsolute <? rl_MaxDisplayInputBytes limits)
             || (rl_MaxEscapedDisplayBytes limits <=? 0) || (MaxEscapedDisplayBytesAbsolute <? rl_MaxEscapedDisplayBytes limits))
    (errCode "invalid-limits" "display" "limits") ;;
  reject_if (rl_MaxDisplayInputBytes limits <? Z.of_nat (length input)) (errCode "display-value-too-large" "display" "input") ;;
  foldR (visibleStep limits) [] (runes input).

Definition backtick : ascii := byte_of 96.
(** The longest run of backticks, and the run at the end; a backtick is one byte. *)
Definition runStep (s : nat * nat) (c : ascii) : nat * nat :=
  if bool_decide (c = backtick) then (Nat.max s.1 (S s.2), S s.2) else (s.1, 0%nat).
Definition markdownCodeSpan (value : bytes) : bytes :=
  let delim := replicate (S (foldl runStep (0%nat, 0%nat) value).1) backtick in
  delim ++ to_bytes " " ++ value ++ to_bytes " " ++ delim.

(** ** The render builder ([terminal.go], [markdown.go]) *)

Record renderBuilder := mkRenderBuilder {
  rb_buf : bytes;
  rb_lines : Z;
  rb_err : option ReportError
}.
(** What does not change while a builder is used. *)
Record RenderTarget := mkRenderTarget { tg_limits : RenderLimits; tg_maxBytes : Z; tg_tooLargeCode : string }.

Definition LF : ascii := byte_of 10.
Definition line (t : RenderTarget) (s : bytes) (b : renderBuilder) : renderBuilder :=
  match rb_err b with
  | Some _ => b
  | None =>
    if rl_MaxRenderedLines (tg_limits t) <=? rb_lines b
    then mkRenderBuilder (rb_buf b) (rb_lines b) (Some (errCode "report-limit" "render" "lines"))
    else
      let buf := rb_buf b ++ s ++ [LF] in
      mkRenderBuilder buf (rb_lines b + 1)
        (if tg_maxBytes t <? Z.of_nat (length buf) then Some (errCode (tg_tooLargeCode t) "render" "bytes") else None)
  end.
Definition heading (t : RenderTarget) (s : bytes) (b : renderBuilder) : renderBuilder :=
  line t s (if bool_decide (rb_buf b = []) then b else line t [] b).

(** A value that cannot be displayed is the builder's error, and [other] stands for it. *)
Definition shown (t : RenderTarget) (wrap : bytes → bytes) (other : bytes) (value : string) (b : renderBuilder) : bytes * renderBuilder :=
  match visibleDisplayBytes (to_bytes value) (tg_limits t) with
  | Ok v => (wrap v, b)
  | Err e => (other, mkRenderBuilder (rb_buf b) (rb_lines b) (Some e))
  end.
Definition mdValue (t : RenderTarget) : string → renderBuilder → bytes * renderBuilder := shown t markdownCodeSpan (to_bytes "``").
Definition termValue (t : RenderTarget) : string → renderBuilder → bytes * renderBuilder := shown t id [].

Inductive action :=
| Line (s : string)
| Heading (s : string)
| KV (label value : string)
| ListKV (label value : string)
| TermKV (label value : string).
Definition perform (t : RenderTarget) (b : renderBuilder) (a : action) : renderBuilder :=
  match a with
  | Line s => line t (to_bytes s) b
  | Heading s => heading t (to_bytes s) b
  | KV label value => let '(v, b) := mdValue t value b in line t (to_bytes "- " ++ to_bytes label ++ to_bytes ": " ++ v) b
  | ListKV label value =>
    let '(l, b) := mdValue t label b in
    let '(v, b) := mdValue t value b in
    line t (to_bytes "- " ++ l ++ to_bytes ": " ++ v) b
  | TermKV label value => let '(v, b) := termValue t value b in line t (to_bytes label ++ to_bytes ": " ++ v) b
  end.
Definition performs (t : RenderTarget) (l : list action) (b : renderBuilder) : renderBuilder := foldl (perform t) b l.
(** A method that ends with [return b.err]. *)
Definition performed (t : RenderTarget) (l : list action) (b : renderBuilder) : result ReportError renderBuilder :=
  let b := performs t l b in match rb_err b with Some e => Err e | None => Ok b end.

(** ** Texts *)

Definition boolText (v : bool) : string := if v then "true" else "false".
(** The negative of the least integer is itself, and has no digits. *)
Definition intText (v : Z) : string :=
  if v =? 0 then "0"
  else
    let neg := v <? 0 in
    let v := if neg then wrap64 (- v) else v in
    (if neg then "-" else "") +:+ (if 0 <? v then fmt_d v else "").
Definition occurrenceText (o : OccurrenceProfile) : string :=
  "coverage=" +:+ op_Coverage o +:+ " repeatability=" +:+ op_Repeatability o +:+ " total=" +:+ intText (op_TotalKnownCount o)
  +:+ " min=" +:+ intText (op_MinimumKnownCount o) +:+ " max=" +:+ intText (op_MaximumKnownCount o).
Definition evidenceText (r : EvidenceRef) : string :=
  er_Revision r +:+ "/" +:+ er_ScenarioID r +:+ "/" +:+ intText (er_Repetition r) +:+ " seq=" +:+ intText (wrap64 (er_EventSequence r))
  +:+ " event=" +:+ String.concat "," (er_EventIDs r) +:+ " stream=" +:+ er_EventStreamPath r +:+ " digest=" +:+ er_EventStreamDigest r.
(** [UTC().Format("2006-01-02T15:04:05Z")] *)
Definition timeText (t : Time) : string := format_rfc3339 t.
Definition shownWaived (f : AppliedFinding) : bool := (af_EffectiveDisposition f == DispositionWaived) || fd_Waived (af_Original f).

Definition checkRefTotal (limits : RenderLimits) (total n : Z) : result ReportError Z :=
  reject_if (rl_MaxEvidenceRefsTotal limits <? total + n) (errCode "evidence-reference-limit" "render" "evidence") ;; mret (total + n).
Definition validateRenderEvidenceRefs (doc : Document) (limits : RenderLimits) : result ReportError unit :=
  total ← foldR (λ n f, checkRefTotal limits n (Z.of_nat (length (fd_Evidence (af_Original f))))) 0 (ps_AppliedFindings (doc_Policy doc));
  foldR (λ n r, checkRefTotal limits n (Z.of_nat (length (dr_Evidence r) + length (dr_BaseEvidence r) + length (dr_HeadEvidence r)))) total
    (bs_Records (doc_Behavior doc)) ;;
  mret ().

(** [strings.TrimRight(s, "\n")] *)
Fixpoint drop_lf (b : bytes) : bytes := match b with c :: rest => if bool_decide (c = LF) then drop_lf rest else b | [] => [] end.
Definition trim_right_lf (b : bytes) : bytes := reverse (drop_lf (reverse b)).

(** ** [terminal.go] *)

Definition isFormatControl (r : Z) : bool :=
  bool_decide (r ∈ [0x61C; 0x200B; 0x200C; 0x200D; 0x200E; 0x200F; 0x202A; 0x202B; 0x202C; 0x202D; 0x202E; 0x2060; 0x2066; 0x2067; 0x2068;
                    0x2069; 0xFEFF]).
Definition terminalRune (r : Z) : bool :=
  (r =? 10) || negb ((r <? 32) || (r =? 127) || ((128 <=? r) && (r <=? 159)) || (r =? 8232) || (r =? 8233) || isFormatControl r).
Definition terminalSafe (b : bytes) : bool := forallb (λ x, terminalRune (default RuneError x.1)) (runes b).

Definition terminalFinding (f : AppliedFinding) : list action :=
  let o := af_Original f in
  [TermKV "finding" (fd_ID o);
   TermKV "origin" (af_Origin f);
   TermKV "rule" (fd_RuleID o +:+ " " +:+ fd_RuleVersion o);
   TermKV "title" (fd_Title o);
   TermKV "severity" (fd_Severity o);
   TermKV "confidence" (fd_Confidence o);
   TermKV "original-disposition" (fd_Disposition o);
   TermKV "effective-disposition" (af_EffectiveDisposition f);
   TermKV "waived" (boolText (shownWaived f));
   TermKV "base-observed" (boolText (fd_BaseObserved o));
   TermKV "head-observed" (boolText (fd_HeadObserved o))]
  ++ (TermKV "scenario" <$> fd_ScenarioIDs o)
  ++ (TermKV "delta-record" <$> fd_DeltaRecordIDs o)
  ++ match af_AppliedWaiver f with
     | Some w => [TermKV "applied-waiver" (aw_ID w);
                  TermKV "waiver-owner" (aw_Owner w);
                  TermKV "waiver-reason" (aw_Reason w);
                  TermKV "waiver-issued-at" (timeText (aw_IssuedAt w));
                  TermKV "waiver-expires-at" (timeText (aw_ExpiresAt w))]
     | None => []
     end
  ++ ((λ ref, TermKV "evidence" (evidenceText ref)) <$> fd_Evidence o)
  ++ ((λ lim, TermKV "finding-limitation" (lim_ID lim +:+ ":" +:+ lim_Summary lim)) <$> fd_Limitations o).

Definition terminalDelta (r : DeltaRecord) : list action :=
  [TermKV "delta-record" (dr_ID r);
   TermKV "delta-kind" (dr_Kind r);
   TermKV "fact-kind" (dr_FactKind r);
   TermKV "source" (dr_Source r);
   TermKV "basis" (dr_Basis r);
   TermKV "base-observed" (boolText (dr_BaseObserved r));
   TermKV "head-observed" (boolText (dr_HeadObserved r))]
  ++ (TermKV "delta-scenario" <$> dr_ScenarioIDs r)
  ++ [TermKV "base-occurrence" (occurrenceText (dr_BaseOccurrence r));
      TermKV "head-occurrence" (occurrenceText (dr_HeadOccurrence r));
      TermKV "evidence-reference-count"
        (intText (Z.of_nat (length (dr_BaseEvidence r) + length (dr_HeadEvidence r) + length (dr_Evidence r))))]
  ++ ((λ lim, TermKV "delta-limitation" (lim_ID lim +:+ ":" +:+ lim_Summary lim)) <$> dr_Limitations r).

Definition terminalHead (doc : Document) (digest : Digest) : list action :=
  [Line "GLASSROOT REPORT";
   TermKV "report-digest" digest;
   TermKV "run-id" (doc_RunID doc);
   TermKV "overall-effective-disposition" (ps_OverallEffectiveDisposition (doc_Policy doc));
   Line "";
   Line "NOTICES"]
  ++ ((λ n, TermKV (nt_Code n) (nt_Text n)) <$> doc_Notices doc)
  ++ [Line "";
      Line "RUNNER";
      TermKV "name" (rs_Name (doc_Runner doc));
      TermKV "version" (rs_Version (doc_Runner doc));
      TermKV "isolation-tier" (rs_IsolationTier (doc_Runner doc));
      TermKV "executes-target-code" (boolText (rs_ExecutesTargetCode (doc_Runner doc)));
      TermKV "synthetic-evidence" (boolText (rs_SyntheticEvidence (doc_Runner doc)));
      TermKV "enforces-network-deny" (boolText (rs_EnforcesNetworkDeny (doc_Runner doc)));
      Line "";
      Line "COMPLETENESS";
      TermKV "execution-complete" (boolText (cs_ExecutionComplete (doc_Completeness doc)));
      TermKV "evidence-complete" (boolText (cs_EvidenceComplete (doc_Completeness doc)));
      TermKV "bundle-transaction-valid" (boolText (cs_BundleTransactionValid (doc_Completeness doc)));
      TermKV "manifest-verification" (doc_ManifestVerificationMode doc);
      Line "";
      Line "FINDINGS"].
Definition terminalTail (doc : Document) : list action :=
  [Line ""; Line "LIMITATIONS"] ++ ((λ lim, TermKV "limitation" (lim_ID lim +:+ " " +:+ lim_Summary lim)) <$> doc_Limitations doc).

Definition emptyBuilder : renderBuilder := mkRenderBuilder [] 0 None.
Definition builtText (b : renderBuilder) : result ReportError bytes :=
  match rb_err b with Some e => Err e | None => Ok (trim_right_lf (rb_buf b) ++ [LF]) end.

(** The document of a frozen report is handed out as a copy. *)
Definition RenderTerminal (ctx : option CtxCause) (report : option FrozenReport) (limits : RenderLimits) : result ReportError RenderedOutput :=
  match ctx with Some c => Err (contextErr "terminal" c) | None =>
  l ← validateRenderLimits limits;
  match report with None => Err (errCode "invalid-report-model" "terminal" "report") | Some report =>
  let doc := cloneDocument (frp_doc report) in
  validateRenderEvidenceRefs doc l ;;
  let t := mkRenderTarget l (rl_MaxTerminalBytes l) "terminal-too-large" in
  let b := performs t (terminalHead doc (frp_digest report)) emptyBuilder in
  b ← foldR (λ b f, performed t (terminalFinding f) b) b (ps_AppliedFindings (doc_Policy doc));
  let b := performs t [Line ""; Line "DELTAS"] b in
  b ← foldR (λ b r, performed t (terminalDelta r) b) b (bs_Records (doc_Behavior doc));
  out ← builtText (performs t (terminalTail doc) b);
  reject_if (negb (terminalSafe out)) (errCode "render-failed" "terminal" "controls") ;;
  mret (mkRenderedOutput TerminalRendererVersionV1Alpha1 out (digestBytes terminalDigestDomain out))
  end end.

(** ** [markdown.go] *)

Definition mdEvidence (label : string) (r : EvidenceRef) : action := ListKV label (evidenceText r).
Definition mdLimitation (lim : Limitation) : action := ListKV ("limitation " +:+ lim_ID lim) (lim_Summary lim).

Definition mdFinding (f : AppliedFinding) : list action :=
  let o := af_Original f in
  [Heading "### Finding";
   KV "Finding ID" (fd_ID o);
   KV "Origin" (af_Origin f);
   KV "Rule" (fd_RuleID o +:+ " " +:+ fd_RuleVersion o);
   KV "Title" (fd_Title o);
   KV "Severity" (fd_Severity o);
   KV "Confidence" (fd_Confidence o);
   KV "Original disposition" (fd_Disposition o);
   KV "Effective disposition" (af_EffectiveDisposition f);
   KV "Waived" (boolText (shownWaived f));
   KV "Base observed" (boolText (fd_BaseObserved o));
   KV "Head observed" (boolText (fd_HeadObserved o))]
  ++ (ListKV "scenario" <$> fd_ScenarioIDs o)
  ++ (ListKV "delta record" <$> fd_DeltaRecordIDs o)
  ++ match af_AppliedWaiver f with
     | Some w => [KV "Applied waiver" (aw_ID w);
                  KV "Waiver owner" (aw_Owner w);
                  KV "Waiver reason" (aw_Reason w);
                  KV "Waiver issued at" (timeText (aw_IssuedAt w));
                  KV "Waiver expires at" (timeText (aw_ExpiresAt w))]
     | None => []
     end
  ++ (mdEvidence "evidence" <$> fd_Evidence o)
  ++ (mdLimitation <$> fd_Limitations o).

(** The payload that the kind of a fact calls for. *)
Definition factPayload (f : DeltaFactSnapshot) : result ReportError (list action) :=
  let missing field := Err (errCode "unsupported-fact-kind" "markdown" field) in
  let kind := dfs_Kind f in
  if bool_decide (kind ∈ ["process-start"; "process-exit"]%string) then
    match dfs_Process f with
    | None => missing "process"%string
    | Some p => Ok [ListKV "process operation" (dpf_Operation p); ListKV "process id" (dpf_StableID p);
                    ListKV "executable" (dnp_Display (dpf_Executable p))]
    end
  else if bool_decide (kind ∈ ["filesystem-create"; "filesystem-read"; "filesystem-write"; "filesystem-delete"; "filesystem-rename"; "filesystem-chmod"]%string) then
    match dfs_Filesystem f with
    | None => missing "filesystem"%string
    | Some x => Ok [ListKV "filesystem operation" (dff_Operation x); ListKV "filesystem path" (dnp_Display (dff_Path x));
                    ListKV "path namespace" (dnp_Namespace (dff_Path x)); ListKV "executable" (boolText (dff_Executable x))]
    end
  else if bool_decide (kind ∈ ["dns-query"; "network-connection"]%string) then
    match dfs_Network f with
    | None => missing "network"%string
    | Some n => Ok [ListKV "network operation" (dnf_Operation n); ListKV "network destination" (dnf_DestinationHost n);
                    ListKV "network result" (dnf_Result n)]
    end
  else if kind == "artifact-activity"%string then
    match dfs_Artifact f with
    | None => missing "artifact"%string
    | Some a => Ok [ListKV "artifact path" (dnp_Display (daf_Path a)); ListKV "artifact digest" (daf_Digest a);
                    ListKV "artifact executable" (boolText (daf_Executable a))]
    end
  else if bool_decide (kind ∈ ["scenario-started"; "scenario-completed"]%string) then
    match dfs_Scenario f with
    | None => missing "scenario"%string
    | Some s => Ok [ListKV "scenario status" (dsf_Status s)]
    end
  else if bool_decide (kind ∈ ["observer-warning"; "unsupported-observation"]%string) then
    match dfs_Warning f with
    | None => missing "warning"%string
    | Some w => Ok [ListKV "warning code" (dwf_Code w); ListKV "unsupported" (boolText (dwf_Unsupported w))]
    end
  else if kind == "resource-limit"%string then
    match dfs_Resource f with
    | None => missing "resource"%string
    | Some r => Ok [ListKV "resource kind" (drf_LimitKind r); ListKV "resource exceeded" (boolText (drf_Exceeded r))]
    end
  else missing "factKind"%string.
Definition mdFact (label : string) (f : DeltaFactSnapshot) : result ReportError (list action) :=
  payload ← factPayload f; mret (ListKV label (dfs_Kind f +:+ " " +:+ dfs_SemanticDigest f) :: payload).

Definition recordHead (r : DeltaRecord) : list action :=
  [Heading "### Delta record";
   KV "Delta record ID" (dr_ID r);
   KV "Kind" (dr_Kind r);
   KV "Fact kind" (dr_FactKind r);
   KV "Source" (dr_Source r);
   KV "Basis" (dr_Basis r);
   KV "Base observed" (boolText (dr_BaseObserved r));
   KV "Head observed" (boolText (dr_HeadObserved r));
   KV "Base occurrence" (occurrenceText (dr_BaseOccurrence r));
   KV "Head occurrence" (occurrenceText (dr_HeadOccurrence r))].
Definition recordTail (r : DeltaRecord) : list action :=
  (ListKV "changed field" <$> dr_ChangedFields r)
  ++ (mdEvidence "base evidence" <$> dr_BaseEvidence r)
  ++ (mdEvidence "head evidence" <$> dr_HeadEvidence r)
  ++ (mdLimitation <$> dr_Limitations r).
Definition performFact (t : RenderTarget) (label : string) (b : renderBuilder) (f : DeltaFactSnapshot) : result ReportError renderBuilder :=
  l ← mdFact label f; performed t l b.
Definition deltaRecord (t : RenderTarget) (b : renderBuilder) (r : DeltaRecord) : result ReportError renderBuilder :=
  validateDeltaKind (dr_Kind r) ;;
  let b := performs t (recordHead r) b in
  b ← foldR (performFact t "base fact") b (dr_BaseFacts r);
  b ← foldR (performFact t "head fact") b (dr_HeadFacts r);
  performed t (recordTail r) b.

Definition markdownHead (doc : Document) (digest : Digest) : list action :=
  [Heading "# Glassroot report";
   KV "Report digest" digest;
   KV "Run ID" (doc_RunID doc);
   KV "Overall effective disposition" (ps_OverallEffectiveDisposition (doc_Policy doc));
   KV "Manifest verification" (doc_ManifestVerificationMode doc);
   Heading "## Notices"]
  ++ (if ze_list (doc_Notices doc) then [Line "- none"] else [])
  ++ ((λ n, ListKV (nt_Code n) (nt_Text n)) <$> doc_Notices doc)
  ++ [Heading "## Runner";
      KV "Name" (rs_Name (doc_Runner doc));
      KV "Version" (rs_Version (doc_Runner doc));
      KV "Isolation tier" (rs_IsolationTier (doc_Runner doc));
      KV "Executes target code" (boolText (rs_ExecutesTargetCode (doc_Runner doc)));
      KV "Synthetic evidence" (boolText (rs_SyntheticEvidence (doc_Runner doc)));
      KV "Enforces network deny" (boolText (rs_EnforcesNetworkDeny (doc_Runner doc)));
      Heading "## Completeness";
      KV "Execution complete" (boolText (cs_ExecutionComplete (doc_Completeness doc)));
      KV "Evidence complete" (boolText (cs_EvidenceComplete (doc_Completeness doc)));
      KV "Bundle transaction valid" (boolText (cs_BundleTransactionValid (doc_Completeness doc)));
      Heading "## Findings";
      KV "Total findings" (intText (as_TotalFindings (ps_Summary (doc_Policy doc))))].
Definition markdownMiddle (doc : Document) : list action :=
  [Heading "## Behavioral delta"; KV "Total delta records" (intText (ds_TotalRecords (bs_Summary (doc_Behavior doc))))].
Definition markdownTail (doc : Document) : list action :=
  [Heading "## Authorities";
   KV "Trusted config path" (ca_Path (ps_TrustedConfigAuthority (doc_Policy doc)));
   KV "Trusted config head state" (ca_HeadState (ps_TrustedConfigAuthority (doc_Policy doc)));
   KV "Trusted waiver path" (wa_Path (ps_TrustedWaiverAuthority (doc_Policy doc)));
   KV "Trusted waiver base state" (wa_BaseState (ps_TrustedWaiverAuthority (doc_Policy doc)));
   KV "Trusted waiver head state" (wa_HeadState (ps_TrustedWaiverAuthority (doc_Policy doc)));
   Heading "## Limitations"]
  ++ ((λ lim, ListKV (lim_ID lim) (lim_Summary lim)) <$> doc_Limitations doc)
  ++ [Heading "## Safety statement";
      Line "A passed disposition does not prove the code is safe. Report digests are deterministic equality values only."].

Definition RenderMarkdown (ctx : option CtxCause) (report : option FrozenReport) (limits : RenderLimits) : result ReportError RenderedOutput :=
  match ctx with Some c => Err (contextErr "markdown" c) | None =>
  l ← validateRenderLimits limits;
  match report with None => Err (errCode "invalid-report-model" "markdown" "report") | Some report =>
  let doc := cloneDocument (frp_doc report) in
  validateRenderEvidenceRefs doc l ;;
  let t := mkRenderTarget l (rl_MaxMarkdownBytes l) "markdown-too-large" in
  let b := performs t (markdownHead doc (frp_digest report)) emptyBuilder in
  b ← foldR (λ b f, performed t (mdFinding f) b) b (ps_AppliedFindings (doc_Policy doc));
  let b := performs t (markdownMiddle doc) b in
  b ← foldR (deltaRecord t) b (bs_Records (doc_Behavior doc));
  out ← builtText (performs t (markdownTail doc) b);
  reject_if (has_byte (byte_of 13) out) (errCode "render-failed" "markdown" "newline") ;;
  mret (mkRenderedOutput MarkdownRendererVersionV1Alpha1 out (digestBytes markdownDigestDomain out))
  end end.
