(* ===== verification/RenderSpec.v ===== *)
(** * What the renderers guarantee

    The visible-text encoder shows everything and lets nothing through: distinct values
    look different, and no control, line break or format character is left.  A rendered
    report is exactly the layout of its document: a value cannot add a line, end a code
    span, or hide a finding. *)

From stdpp Require Import prelude strings.
From Stdlib Require Import ZArith Lia Ascii.
From S2P Require Import Prelude GoStd Sha256 Framing GoTime Model Json GoText Utf8 JsonCopy Event Compare CompareSpec Policy Application Report Render.
Local Open Scope Z_scope.

#[local] Arguments runes : simpl never.
#[local] Arguments upper_hex : simpl never.

(** ** The visible text of a value *)

Definition visible (input : bytes) : bytes := runes input ≫= writeVisible.

Lemma visible_loop limits l : ∀ acc out,
  foldR (visibleStep limits) acc l = Ok out ↔ out = acc ++ (l ≫= writeVisible) ∧
    (l = [] ∨ Z.of_nat (length out) <= rl_MaxEscapedDisplayBytes limits).
Proof.
  induction l as [|x l IH]; intros acc out; cbn [foldR].
  { cbn. rewrite app_nil_r. split; [intros [= <-]; by eauto|by intros [-> _]]. }
  unfold visibleStep at 1. cbn [mbind list_bind]. unfold reject_if.
  destruct (rl_MaxEscapedDisplayBytes limits <? _) eqn:E; cbn [mbind result_bind mret result_ret].
  - go_bool. split; [done|]. intros [-> [?|H]]; [done|]. rewrite !length_app in *. lia.
  - rewrite IH. rewrite <- app_assoc. go_bool. split; intros [-> H]; (split; [done|]).
    + right. destruct H as [->|H]; [cbn; rewrite app_nil_r; done|done].
    + destruct H as [?|H]; [done|by right].
Qed.
Lemma visibleDisplayBytes_Ok input limits out : visibleDisplayBytes input limits = Ok out → out = visible input.
Proof.
  unfold visibleDisplayBytes. intros H. apply reject_bind_Ok in H as [_ H]. apply reject_bind_Ok in H as [_ H].
  by apply visible_loop in H as [-> _].
Qed.

(** ** Distinct values look different *)

Lemma upper_hex_snoc w v : upper_hex (S w) v = upper_hex w (v / 16) ++ [upper_hex_digit (v mod 16)].
Proof. done. Qed.
Lemma length_upper_hex w : ∀ v, length (upper_hex w v) = w.
Proof. induction w as [|w IH]; intros v; [done|]. rewrite upper_hex_snoc, length_app, IH. cbn. lia. Qed.
Lemma upper_hex_digit_val v : 0 <= v < 16 → byte_val (upper_hex_digit v) = if v <? 10 then 48 + v else 55 + v.
Proof. intros H. unfold upper_hex_digit. rewrite byte_val_of. destruct (v <? 10) eqn:E; go_bool; rewrite Z.mod_small; lia. Qed.
Lemma upper_hex_inj w : ∀ v v', 0 <= v < 16 ^ Z.of_nat w → 0 <= v' < 16 ^ Z.of_nat w → upper_hex w v = upper_hex w v' → v = v'.
Proof.
  induction w as [|w IH]; intros v v' Hv Hv' E; [cbn in *; lia|]. rewrite !upper_hex_snoc in E.
  apply app_inj_tail in E as [E1 E2]. rewrite Nat2Z.inj_succ, Z.pow_succ_r in Hv, Hv' by lia.
  apply IH in E1; [|split; [apply Z.div_pos; lia|apply Z.div_lt_upper_bound; lia]..].
  apply (f_equal byte_val) in E2. rewrite !upper_hex_digit_val in E2 by (apply Z.mod_pos_bound; lia).
  rewrite (Z.div_mod v 16), (Z.div_mod v' 16), E1 by lia. f_equal.
  repeat case_match; go_bool; pose proof (Z.mod_pos_bound v 16 ltac:(lia)); pose proof (Z.mod_pos_bound v' 16 ltac:(lia)); lia.
Qed.
(** Hexadecimal digits are printable, and no brace. *)
Lemma upper_hex_digits w : ∀ v, 0 <= v → Forall (λ c, 48 <= byte_val c <= 70) (upper_hex w v).
Proof.
  induction w as [|w IH]; intros v Hv; [by constructor|]. rewrite upper_hex_snoc. apply Forall_app. split; [apply IH, Z.div_pos; lia|].
  apply Forall_singleton. pose proof (Z.mod_pos_bound v 16 ltac:(lia)). rewrite upper_hex_digit_val by done. case_match; go_bool; lia.
Qed.

(** The four ways in which a rune or a byte is written. *)
Definition rune_width (r : Z) : nat := if r <? 65536 then 4%nat else if r <? 1048576 then 5%nat else 6%nat.
Inductive written : option Z * bytes → bytes → Prop :=
| written_backslash enc : written (Some 92, enc) (to_bytes "\\")
| written_byte x v : x = (Some v, [byte_of v]) ∧ 0 <= v < 128 ∨ x = (None, [byte_of v]) ∧ 128 <= v < 256 →
    written x (to_bytes "\x" ++ upper_hex 2 v)
| written_rune r enc : 0 <= r <= 0x10FFFF → written (Some r, enc) (to_bytes "\u{" ++ upper_hex (rune_width r) r ++ to_bytes "}")
| written_plain r enc : r <> 92 → 32 <= r → r <> 127 → ¬ (128 <= r <= 159) → r <> 8232 → r <> 8233 → is_Cf r = false →
    written (Some r, enc) enc.

Lemma token_rune_range r b : token (Some r, b) → 0 <= r <= 0x10FFFF.
Proof.
  unfold token. cbn. intros H. apply utf8_decode_values in H.
  destruct H as [(c&_&_&->&?)|[(?&?&_&_&?)|[(?&?&?&_&_&?)|(?&?&?&?&_&_&?)]]]; try lia. pose proof (byte_val_range c). lia.
Qed.
Lemma writeVisible_written s x : x ∈ runes s → written x (writeVisible x).
Proof.
  intros Hx. pose proof (runes_tokens s) as Ht. rewrite Forall_forall in Ht. specialize (Ht x Hx). destruct x as [[r|] enc].
  - cbn. unfold writeRuneVisible. destruct (Z.eqb_spec r 92) as [->|E1]; [apply written_backslash|].
    case_bool_decide as E2.
    { assert (0 <= r < 128) by (set_unfold; lia). destruct (token_ascii r enc Ht) as [-> _]; [lia|]. apply written_byte. by left. }
    case_bool_decide as E3; [apply written_rune; by apply token_rune_range in Ht|].
    destruct (_ || is_Cf r) eqn:E4; [apply written_rune; by apply token_rune_range in Ht|].
    rewrite !orb_false_iff in E4. destruct E4 as [[[[E4 E5] E6%Z.eqb_neq] E7%Z.eqb_neq] E8]. apply andb_false_iff in E5. rewrite !Z.leb_gt in E5. go_bool.
    apply written_plain; try done; try lia. set_unfold. lia.
  - destruct (token_bad_byte _ Ht) as [c ->]. apply runes_bad_byte in Hx. cbn. unfold writeByteEscape. rewrite app_nil_r.
    apply written_byte. right. rewrite byte_of_val. pose proof (byte_val_range c). split; [done|lia].
Qed.

Lemma cut_unique (c : ascii) b1 b2 t1 t2 : c ∉ b1 → c ∉ b2 → b1 ++ c :: t1 = b2 ++ c :: t2 → b1 = b2 ∧ t1 = t2.
Proof.
  revert b2. induction b1 as [|d b1 IH]; intros [|e b2] H1 H2 E; cbn in E.
  - by injection E as ->.
  - injection E as -> _. destruct H2. apply list_elem_of_here.
  - injection E as -> _. destruct H1. apply list_elem_of_here.
  - injection E as -> E. destruct (IH b2) as [-> ->]; [by intros ?; apply H1, list_elem_of_further|by intros ?; apply H2, list_elem_of_further|done|done].
Qed.
Lemma rune_width_fits r : 0 <= r <= 0x10FFFF → 0 <= r < 16 ^ Z.of_nat (rune_width r).
Proof. intros H. unfold rune_width. repeat case_match; go_bool; cbn; lia. Qed.
Lemma brace_no_digit w v : 0 <= v → byte_of 125 ∉ upper_hex w v.
Proof.
  intros Hv Hin. pose proof (upper_hex_digits w v Hv) as H. rewrite Forall_forall in H. apply H in Hin. rewrite byte_val_of in Hin.
  change (125 mod 256) with 125 in Hin. lia.
Qed.
Lemma plain_first r enc : token (Some r, enc) → r <> 92 → ∃ c b, enc = c :: b ∧ c <> byte_of 92.
Proof.
  unfold token. cbn. intros H Hr. apply utf8_decode_values in H. rewrite take_ge in H by done.
  assert (∀ c, byte_val c <> 92 → c <> byte_of 92) as Hc by (intros c Hc ->; by apply Hc).
  destruct H as [(c&->&_&->&?)|[(c&?&->&_&?)|[(c&?&?&->&_&?)|(c&?&?&?&->&_&?)]]]; eexists _, _; (split; [done|]); apply Hc; lia.
Qed.

(** What is written of a rune tells it, whatever follows. *)
Lemma written_inj x y t t' s s' : token x → token y → written x t → written y t' → t ++ s = t' ++ s' → x = y ∧ s = s'.
Proof.
  intros Hx Hy Wx Wy E.
  assert (∀ a b : bytes, to_bytes "\\" ++ a <> to_bytes "\x" ++ b) as N1 by (intros a b; cbn; by intros [= ]).
  assert (∀ a b : bytes, to_bytes "\\" ++ a <> to_bytes "\u{" ++ b) as N2 by (intros a b; cbn; by intros [= ]).
  assert (∀ a b : bytes, to_bytes "\x" ++ a <> to_bytes "\u{" ++ b) as N3 by (intros a b; cbn; by intros [= ]).
  assert (∀ r enc b q w, r <> 92 → token (Some r, enc) → enc ++ b <> to_bytes (String (byte_of 92) q) ++ w) as N4.
  { intros r enc b q w Hr Ht E'. destruct (plain_first r enc Ht Hr) as (c & b' & -> & Hc). injection E' as E' _. congruence. }
  destruct Wx as [e|x v Hv|r e Hr|r e Hr], Wy as [e'|y v' Hv'|r' e' Hr'|r' e' Hr']; rewrite <- ?app_assoc in E;
    try (exfalso; first [exact (N1 _ _ E)|exact (N1 _ _ (eq_sym E))|exact (N2 _ _ E)|exact (N2 _ _ (eq_sym E))|exact (N3 _ _ E)|exact (N3 _ _ (eq_sym E))
      |by eapply N4, E|by eapply N4, (eq_sym E)]).
  - apply app_inv_head in E. split; [|done]. by rewrite (token_inj _ _ _ Hx Hy).
  - apply app_inv_head in E. apply app_inj_1 in E as [E ->]; [|by rewrite !length_upper_hex]. split; [|done].
    assert (v = v') as <- by (apply (upper_hex_inj 2); [destruct Hv as [[_ ?]|[_ ?]]; cbn; lia|destruct Hv' as [[_ ?]|[_ ?]]; cbn; lia|done]).
    destruct Hv as [[-> ?]|[-> ?]], Hv' as [[-> ?]|[-> ?]]; try done; lia.
  - apply app_inv_head in E. cbn [to_bytes String.list_ascii_of_string app] in E.
    apply (cut_unique (byte_of 125)) in E as [E ->]; [|apply brace_no_digit; lia..]. split; [|done].
    assert (r = r') as <-; [|by rewrite (token_inj _ _ _ Hx Hy)].
    assert (rune_width r = rune_width r') as Ew by (rewrite <- (length_upper_hex (rune_width r) r), <- (length_upper_hex (rune_width r') r'); by rewrite E).
    rewrite <- Ew in E. apply (upper_hex_inj (rune_width r)); [by apply rune_width_fits|rewrite Ew; by apply rune_width_fits|done].
  - unfold token in Hx, Hy. cbn in Hx, Hy. pose proof (utf8_decode_app _ _ _ s Hx) as D1. pose proof (utf8_decode_app _ _ _ s' Hy) as D2.
    rewrite take_ge in D1, D2 by done. rewrite E, D2 in D1. injection D1 as E1 E2. apply app_inj_1 in E as [-> ->]; [|by rewrite E2]. by subst.
Qed.
Lemma written_nonempty x t : token x → written x t → t <> [].
Proof.
  intros Hx W E. destruct W; try discriminate E. subst. discriminate Hx.
Qed.

Lemma visible_inj a b : visible a = visible b → a = b.
Proof.
  intros E. rewrite <- (runes_concat a), <- (runes_concat b). do 2 f_equal. unfold visible in E.
  assert (∀ s, Forall (λ x, token x ∧ written x (writeVisible x)) (runes s)) as Hall.
  { intros s. apply Forall_forall. intros x Hx. split; [|by eapply writeVisible_written].
    pose proof (runes_tokens s) as H. rewrite Forall_forall in H. by apply H. }
  pose proof (Hall a) as Ha. pose proof (Hall b) as Hb. clear Hall. revert E Ha Hb. generalize (runes a) (runes b). clear a b.
  induction l as [|x l IH]; intros [|y l'] E Ha Hb; [done|..]; cbn in E.
  - inversion_clear Hb as [|? ? [Ht W] _]. symmetry in E. apply app_eq_nil in E as [E _]. by apply written_nonempty in W.
  - inversion_clear Ha as [|? ? [Ht W] _]. apply app_eq_nil in E as [E _]. by apply written_nonempty in W.
  - inversion_clear Ha as [|? ? [Ht W] Hl]. inversion_clear Hb as [|? ? [Ht' W'] Hl'].
    destruct (written_inj _ _ _ _ _ _ Ht Ht' W W' E) as [-> E']. f_equal. by apply IH.
Qed.

(** ** What is shown is printable *)

(** No control, no line or paragraph separator, no format character. *)
Definition safe_rune (r : Z) : bool :=
  negb ((r <? 32) || (r =? 127) || ((128 <=? r) && (r <=? 159)) || (r =? 8232) || (r =? 8233) || is_Cf r).
(** Valid UTF-8 of such runes. *)
Definition printable (b : bytes) : Prop := Forall (λ x, ∃ r, x.1 = Some r ∧ safe_rune r = true) (runes b).

Lemma runes_app a b : Forall (λ x, is_Some x.1) (runes a) → runes (a ++ b) = runes a ++ runes b.
Proof.
  induction a as [|a r n E IH|c a E IH] using runes_ind; intros H; [done|..].
  - rewrite (runes_Some _ _ _ E) in H |- *. inversion_clear H as [|? ? _ H']. rewrite <- (take_drop n a) at 1. rewrite <- app_assoc.
    rewrite (runes_Some _ r n).
    + pose proof (utf8_decode_size _ _ _ E). assert (length (take n a) = n) as Hl by (rewrite length_take; lia).
      rewrite (take_app_length' _ _ n) by done. rewrite (drop_app_length' _ _ n) by done. cbn. by rewrite IH.
    + by apply utf8_decode_app.
  - rewrite runes_None in H by done. inversion_clear H as [|? ? [? Hc] _]. done.
Qed.
Lemma printable_app a b : printable a → printable b → printable (a ++ b).
Proof.
  intros Ha Hb. unfold printable. rewrite runes_app; [by apply Forall_app|]. eapply Forall_impl; [exact Ha|]. intros x (r & -> & _). by eexists.
Qed.
Lemma printable_nil : printable [].
Proof. constructor. Qed.
Lemma printable_token r b : token (Some r, b) → safe_rune r = true → printable b.
Proof.
  unfold token. cbn. intros Ht Hr. unfold printable. rewrite (runes_Some _ _ _ Ht), drop_ge by done. constructor; [|constructor]. by exists r.
Qed.
Lemma safe_ascii v : 32 <= v < 127 → safe_rune v = true.
Proof.
  intros H. unfold safe_rune. apply negb_true_iff. rewrite !orb_false_iff. split_and!; try lia.
  unfold is_Cf, format_ranges. cbn [existsb]. rewrite !orb_false_iff. split_and!; lia.
Qed.
Lemma printable_ascii b : Forall (λ c, 32 <= byte_val c < 127) b → printable b.
Proof.
  induction 1 as [|c b Hc _ IH]; [by apply printable_nil|]. apply (printable_app [c]); [|done].
  apply (printable_token (byte_val c)); [apply ascii_token; lia|by apply safe_ascii].
Qed.
Definition ascii_text (b : bytes) : bool := forallb (λ c, (32 <=? byte_val c) && (byte_val c <? 127)) b.
Lemma printable_text b : ascii_text b = true → printable b.
Proof. intros H. apply printable_ascii, Forall_forall. intros c Hc%list_elem_of_In. unfold ascii_text in H. rewrite forallb_forall in H. apply H in Hc. lia. Qed.
(** No byte of it is a control. *)
Lemma printable_bytes b c : printable b → c ∈ b → 32 <= byte_val c ∧ byte_val c <> 127.
Proof.
  unfold printable. intros H Hc. rewrite <- (runes_concat b) in Hc. apply list_elem_of_In, in_concat in Hc as (e & He & Hc).
  apply list_elem_of_In in He, Hc. apply list_elem_of_fmap in He as ([o e'] & -> & Hx). cbn in Hc.
  pose proof (runes_tokens b) as Ht. rewrite Forall_forall in H, Ht. specialize (Ht _ Hx). destruct (H _ Hx) as (r & E & Hr). cbn in E. subst o.
  destruct (decide (r < 128)) as [Hlt|Hge].
  - destruct (token_ascii _ _ Ht Hlt) as [-> Hr0]. apply list_elem_of_singleton in Hc as ->. rewrite byte_val_of, Z.mod_small by lia.
    unfold safe_rune in Hr. apply negb_true_iff in Hr. rewrite !orb_false_iff in Hr. destruct Hr as [[[[[? ?] _] _] _] _]. lia.
  - pose proof (token_high _ _ _ Ht ltac:(lia) Hc). lia.
Qed.
Lemma printable_no_LF b : printable b → LF ∉ b.
Proof. intros H Hin. apply (printable_bytes _ _ H) in Hin. unfold LF in Hin. rewrite byte_val_of in Hin. change (10 mod 256) with 10 in Hin. lia. Qed.

Lemma written_printable x t : token x → written x t → printable t.
Proof.
  intros Hx W. destruct W as [e|x v Hv|r e Hr|r e H92 Hlo H127 Hc1 H8232 H8233 Hcf].
  - by apply printable_text.
  - apply printable_app; [by apply printable_text|]. apply printable_ascii. eapply Forall_impl; [apply upper_hex_digits; lia|]. cbn. lia.
  - apply printable_app; [by apply printable_text|]. apply printable_app; [|by apply printable_text].
    apply printable_ascii. eapply Forall_impl; [apply upper_hex_digits; lia|]. cbn. lia.
  - eapply printable_token; [exact Hx|]. unfold safe_rune. rewrite Hcf. lia.
Qed.
Lemma visible_printable a : printable (visible a).
Proof.
  unfold visible. pose proof (runes_tokens a) as Ht. pose proof (writeVisible_written a) as Hw.
  induction (runes a) as [|x l IH]; [by apply printable_nil|]. cbn. inversion_clear Ht as [|? ? Hx Hl].
  apply printable_app; [|apply IH; [done|]].
  - eapply written_printable; [exact Hx|]. apply Hw, list_elem_of_here.
  - intros y Hy. by apply Hw, list_elem_of_further.
Qed.

Lemma safe_terminal r : safe_rune r = true → terminalRune r = true.
Proof.
  unfold safe_rune, terminalRune. intros H%negb_true_iff. rewrite !orb_false_iff in H. destruct H as [[[[[-> ->] ->] ->] ->] Hcf].
  assert (isFormatControl r = false) as ->; [|by rewrite orb_true_r].
  apply bool_decide_eq_false. intros Hin. assert (is_Cf r = true); [|congruence]. clear Hcf.
  repeat (apply elem_of_cons in Hin as [->|Hin]; [vm_compute; reflexivity|]). by apply not_elem_of_nil in Hin.
Qed.

(** ** Code spans *)

Definition ticks (n : nat) : bytes := replicate n backtick.
(** Delimited by [n] backticks and a space, around printable text in which no run of
    backticks is that long: nothing in the text ends the span. *)
Definition sealed_span (s : bytes) : Prop :=
  ∃ n text, s = ticks (S n) ++ to_bytes " " ++ text ++ to_bytes " " ++ ticks (S n) ∧ printable text ∧
    ∀ a b, text <> a ++ ticks (S n) ++ b.

Lemma runs_grow l : ∀ s, (s.1 <= (foldl runStep s l).1)%nat.
Proof.
  induction l as [|c l IH]; intros s; [done|]. cbn. etrans; [|apply IH]. unfold runStep. case_bool_decide; cbn; lia.
Qed.
Lemma runs_ticks k : ∀ s, (s.2 <= s.1)%nat → (s.2 + k <= (foldl runStep s (ticks k)).1)%nat.
Proof.
  induction k as [|k IH]; intros s Hs; [cbn; lia|]. cbn [ticks replicate foldl]. unfold runStep at 2. rewrite bool_decide_true by done.
  etrans; [|apply IH; cbn; lia]. cbn. lia.
Qed.
Lemma runs_end l : ∀ s, (s.2 <= s.1)%nat → ((foldl runStep s l).2 <= (foldl runStep s l).1)%nat.
Proof. induction l as [|c l IH]; intros s Hs; [done|]. cbn. apply IH. unfold runStep. case_bool_decide; cbn; lia. Qed.
Lemma runs_bound a k b : (k <= (foldl runStep (0, 0) (a ++ ticks k ++ b)%nat).1)%nat.
Proof.
  rewrite !foldl_app. etrans; [|apply runs_grow]. etrans; [|apply runs_ticks, runs_end; done]. lia.
Qed.
Lemma markdownCodeSpan_sealed a : sealed_span (markdownCodeSpan (visible a)).
Proof.
  unfold markdownCodeSpan. eexists _, (visible a). split; [reflexivity|]. split; [apply visible_printable|].
  intros x y E. set (n := S _) in E. pose proof (runs_bound x n y) as H. rewrite <- E in H. subst n. lia.
Qed.
Lemma sealed_printable s : sealed_span s → printable s.
Proof.
  intros (n & text & -> & H & _). assert (printable (ticks (S n))) by (apply printable_ascii, Forall_replicate; by vm_compute).
  assert (printable (to_bytes " ")) by by by apply printable_text.
  by repeat apply printable_app.
Qed.

#[local] Opaque markdownCodeSpan.

(** ** What is written is the layout *)

(** The lines of an action, the first of a text or not. *)
Definition action_line (a : action) : bytes :=
  match a with
  | Line s | Heading s => to_bytes s
  | KV label value => to_bytes "- " ++ to_bytes label ++ to_bytes ": " ++ markdownCodeSpan (visible (to_bytes value))
  | ListKV label value =>
    to_bytes "- " ++ markdownCodeSpan (visible (to_bytes label)) ++ to_bytes ": " ++ markdownCodeSpan (visible (to_bytes value))
  | TermKV label value => to_bytes label ++ to_bytes ": " ++ visible (to_bytes value)
  end.
Definition action_lines (first : bool) (a : action) : list bytes :=
  match a with
  | Heading _ => if first then [action_line a] else [[]; action_line a]
  | _ => [action_line a]
  end.
Definition layout (l : list action) : list bytes :=
  match l with [] => [] | a :: l => action_lines true a ++ (l ≫= action_lines false) end.
(** A text of lines. *)
Definition text_of (ls : list bytes) : bytes := ls ≫= λ l, l ++ [LF].

Lemma text_begun a : text_of (action_lines true a) <> [].
Proof.
  assert (action_lines true a = [action_line a]) as -> by by destruct a. unfold text_of. cbn [mbind list_bind]. rewrite app_nil_r.
  by intros [_ ?]%app_eq_nil.
Qed.

Section builder.
Context (t : RenderTarget).

(** From [b] to [b'] these lines were added, unless [b'] has failed. *)
Record wrote (b : renderBuilder) (ls : list bytes) (b' : renderBuilder) : Prop := {
  wr_begun : rb_buf b <> [] → rb_buf b' <> [];
  wr_ok : rb_err b' = None → rb_err b = None;
  wr_text : rb_buf b <> [] → rb_err b' = None → rb_buf b' = rb_buf b ++ text_of ls
}.
Lemma wrote_nil b : wrote b [] b.
Proof. split; [done..|]. intros _ _. cbn. by rewrite app_nil_r. Qed.
Lemma wrote_trans b l1 b1 l2 b2 : wrote b l1 b1 → wrote b1 l2 b2 → wrote b (l1 ++ l2) b2.
Proof.
  intros [N1 E1 T1] [N2 E2 T2]. split; [by auto..|]. intros Hb H. rewrite (T2 (N1 Hb) H), (T1 Hb (E2 H)).
  unfold text_of. by rewrite bind_app, app_assoc.
Qed.

Lemma line_None s b : rb_err (line t s b) = None → rb_err b = None ∧ rb_buf (line t s b) = rb_buf b ++ s ++ [LF].
Proof. unfold line. destruct (rb_err b) as [e|] eqn:E; [by rewrite E|]. by destruct (_ <=? _). Qed.
Lemma line_grows s b : rb_buf b <> [] → rb_buf (line t s b) <> [].
Proof. unfold line. intros H. repeat case_match; cbn; try done; by intros [? _]%app_eq_nil. Qed.
Lemma line_wrote s b : wrote b [s] (line t s b).
Proof.
  split; [apply line_grows|by intros [H _]%line_None|]. intros _ H. destruct (line_None s b H) as [_ ->]. cbn. by rewrite app_nil_r.
Qed.
Lemma shown_None wrap other v b x b' :
  shown t wrap other v b = (x, b') → rb_buf b' = rb_buf b ∧ (rb_err b' = None → rb_err b = None ∧ x = wrap (visible (to_bytes v))).
Proof.
  unfold shown. destruct (visibleDisplayBytes _ _) as [o|e] eqn:E; intros [= <- <-]; [|done].
  apply visibleDisplayBytes_Ok in E as ->. by split.
Qed.
Lemma shown_line wrap other v b x b' s s' :
  shown t wrap other v b = (x, b') → (x = wrap (visible (to_bytes v)) → s = s') → wrote b [s'] (line t s b').
Proof.
  intros [E H]%shown_None Hs. split.
  - intros Hb. apply line_grows. by rewrite E.
  - by intros [[He _]%H _]%line_None.
  - intros _ He. apply line_None in He as [He ->]. destruct (H He) as [_ Hx]. cbn. by rewrite app_nil_r, E, (Hs Hx).
Qed.
Lemma perform_wrote b a : wrote b (action_lines false a) (perform t b a).
Proof.
  destruct a as [s|s|label v|label v|label v]; cbn [perform action_lines action_line].
  - apply line_wrote.
  - unfold heading. case_bool_decide as Hb.
    + split; [done| |done]. by intros [? _]%line_None.
    + apply (wrote_trans _ [[]] (line t [] b) [to_bytes s]); apply line_wrote.
  - unfold mdValue. destruct (shown _ _ _ _ _) as [x b'] eqn:E. eapply shown_line; [exact E|]. by intros ->.
  - unfold mdValue. destruct (shown _ _ _ label b) as [x b1] eqn:E1. destruct (shown _ _ _ v b1) as [y b2] eqn:E2.
    apply shown_None in E1 as [E1 H1]. apply shown_None in E2 as [E2 H2]. split.
    + intros Hb. apply line_grows. by rewrite E2, E1.
    + by intros [[[? _]%H1 _]%H2 _]%line_None.
    + intros _ He. apply line_None in He as [He ->]. destruct (H2 He) as [He1 ->]. destruct (H1 He1) as [_ ->].
      cbn. by rewrite app_nil_r, E2, E1.
  - unfold termValue. destruct (shown _ _ _ _ _) as [x b'] eqn:E. eapply shown_line; [exact E|]. by intros ->.
Qed.
Lemma performs_wrote l : ∀ b, wrote b (l ≫= action_lines false) (performs t l b).
Proof. induction l as [|a l IH]; intros b; [apply wrote_nil|]. cbn. eapply wrote_trans; [apply perform_wrote|apply IH]. Qed.
Lemma performed_wrote l b b' : performed t l b = Ok b' → wrote b (l ≫= action_lines false) b'.
Proof. unfold performed. destruct (rb_err _) eqn:E; [done|]. intros [= <-]. apply performs_wrote. Qed.
Lemma foldR_wrote {A} (step : renderBuilder → A → result ReportError renderBuilder) (acts : A → list action) l : ∀ b b',
  (∀ x b b', x ∈ l → step b x = Ok b' → wrote b (acts x ≫= action_lines false) b') →
  foldR step b l = Ok b' → wrote b ((l ≫= acts) ≫= action_lines false) b'.
Proof.
  induction l as [|x l IH]; intros b b' Hs H; cbn in H.
  - injection H as <-. apply wrote_nil.
  - destruct (step b x) as [b1|] eqn:E; [|done]. cbn [mbind list_bind]. rewrite bind_app. eapply wrote_trans.
    + eapply Hs; [apply list_elem_of_here|done].
    + apply IH; [|done]. intros y ? ? Hy. apply Hs. by apply list_elem_of_further.
Qed.
(** A text that begins with an action. *)
Lemma performs_begin a l : rb_err (performs t (a :: l) emptyBuilder) = None →
  rb_buf (performs t (a :: l) emptyBuilder) = text_of (layout (a :: l)).
Proof.
  cbn [performs foldl]. intros H. pose proof (performs_wrote l (perform t emptyBuilder a)) as [_ He Ht]. specialize (He H).
  assert (rb_buf (perform t emptyBuilder a) = text_of (action_lines true a)) as E.
  { destruct a as [s|s|label v|label v|label v]; cbn [perform action_lines action_line] in *.
    - apply line_None in He as [_ ->]. cbn. by rewrite app_nil_r.
    - change (heading t (to_bytes s) emptyBuilder) with (line t (to_bytes s) emptyBuilder) in *. apply line_None in He as [_ ->]. cbn. by rewrite app_nil_r.
    - unfold mdValue in *. destruct (shown _ _ _ _ _) as [x b'] eqn:E. apply shown_None in E as [E Hx].
      apply line_None in He as [[_ ->]%Hx ->]. rewrite E. cbn. by rewrite app_nil_r.
    - unfold mdValue in *. destruct (shown _ _ _ label _) as [x b1] eqn:E1. destruct (shown _ _ _ v b1) as [y b2] eqn:E2.
      apply shown_None in E1 as [E1 H1]. apply shown_None in E2 as [E2 H2]. apply line_None in He as [[[_ ->]%H1 ->]%H2 ->].
      rewrite E2, E1. cbn. by rewrite app_nil_r.
    - unfold termValue in *. destruct (shown _ _ _ _ _) as [x b'] eqn:E. apply shown_None in E as [E Hx].
      apply line_None in He as [[_ ->]%Hx ->]. rewrite E. cbn. by rewrite app_nil_r. }
  change (foldl (perform t) (perform t emptyBuilder a) l) with (performs t l (perform t emptyBuilder a)).
  rewrite Ht; [|rewrite E; apply text_begun|done]. rewrite E. cbn [layout]. unfold text_of. by rewrite bind_app.
Qed.
End builder.

(** ** Lines that are printable, and a text that needs no trimming *)

(** The fixed texts of an action are plain. *)
Definition plain_action (a : action) : bool :=
  match a with
  | Line s | Heading s | KV s _ | TermKV s _ => ascii_text (to_bytes s)
  | ListKV _ _ => true
  end.
Lemma action_line_printable a : plain_action a = true → printable (action_line a).
Proof.
  assert (printable (to_bytes "- ") ∧ printable (to_bytes ": ")) as [H1 H2] by by split; apply printable_text.
  pose proof (λ v, sealed_printable _ (markdownCodeSpan_sealed v)) as Hs. pose proof visible_printable as Hv.
  destruct a as [s|s|label v|label v|label v]; cbn -[to_bytes]; intros H; repeat apply printable_app; auto using printable_text.
Qed.
Lemma layout_printable l : Forall (λ a, plain_action a = true) l → Forall printable (layout l).
Proof.
  assert (∀ first a, plain_action a = true → Forall printable (action_lines first a)) as Ha.
  { intros first a H%action_line_printable. destruct a, first; cbn [action_lines]; repeat (apply Forall_cons_2; [first [exact H|apply printable_nil]|]); by apply Forall_nil_2. }
  destruct 1 as [|a l H Hl]; [by constructor|]. cbn [layout]. apply Forall_app. split; [by apply Ha|].
  apply Forall_bind. eapply Forall_impl; [exact Hl|]. intros x Hx. by apply Ha.
Qed.

Lemma text_of_app a b : text_of (a ++ b) = text_of a ++ text_of b.
Proof. unfold text_of. apply bind_app. Qed.
Lemma trim_text ls l : l <> [] → LF ∉ l → trim_right_lf (text_of (ls ++ [l])) ++ [LF] = text_of (ls ++ [l]).
Proof.
  intros Hl HLF. rewrite text_of_app. unfold trim_right_lf. unfold text_of at 2 4. cbn [mbind list_bind]. rewrite !app_nil_r.
  rewrite app_assoc, reverse_app. change (reverse [LF]) with [LF]. cbn [app drop_lf]. rewrite bool_decide_true by done.
  destruct l as [|c l _] using rev_ind; [done|]. rewrite !app_assoc, reverse_app. change (reverse [c]) with [c]. cbn [app drop_lf].
  rewrite bool_decide_false by (intros ->; apply HLF, elem_of_app; right; apply list_elem_of_here).
  rewrite reverse_cons, reverse_involutive. by rewrite <- !app_assoc.
Qed.
Lemma layout_snoc a l x : layout (a :: l ++ [x]) = layout (a :: l) ++ action_lines false x.
Proof. cbn [layout]. rewrite bind_app, app_assoc. cbn. by rewrite app_nil_r. Qed.
(** A layout that ends with a plain line which is not empty. *)
Lemma layout_trimmed l x : l <> [] → plain_action x = true → action_line x <> [] →
  trim_right_lf (text_of (layout (l ++ [x]))) ++ [LF] = text_of (layout (l ++ [x])).
Proof.
  intros Hl Hp Hx. destruct l as [|a l]; [done|]. cbn [app]. rewrite layout_snoc.
  assert (∃ ls, layout (a :: l) ++ action_lines false x = ls ++ [action_line x]) as [ls ->].
  { destruct x; first [by eexists|by exists (layout (a :: l) ++ [[]]); rewrite <- app_assoc]. }
  apply trim_text; [done|]. by apply printable_no_LF, action_line_printable.
Qed.

(** ** The two renderers *)

Definition terminal_actions (doc : Document) (digest : Digest) : list action :=
  terminalHead doc digest ++ (ps_AppliedFindings (doc_Policy doc) ≫= terminalFinding) ++ [Line ""; Line "DELTAS"]
  ++ (bs_Records (doc_Behavior doc) ≫= terminalDelta) ++ terminalTail doc.
Definition fact_actions (label : string) (f : DeltaFactSnapshot) : list action :=
  match mdFact label f with Ok l => l | Err _ => [] end.
Definition record_actions (r : DeltaRecord) : list action :=
  recordHead r ++ (dr_BaseFacts r ≫= fact_actions "base fact") ++ (dr_HeadFacts r ≫= fact_actions "head fact") ++ recordTail r.
Definition markdown_actions (doc : Document) (digest : Digest) : list action :=
  markdownHead doc digest ++ (ps_AppliedFindings (doc_Policy doc) ≫= mdFinding) ++ markdownMiddle doc
  ++ (bs_Records (doc_Behavior doc) ≫= record_actions) ++ markdownTail doc.

Lemma wrote_begin t a l ls b : wrote (performs t (a :: l) emptyBuilder) ls b → rb_err b = None →
  rb_buf b = text_of (layout (a :: l) ++ ls).
Proof.
  intros [_ He Ht] H. specialize (He H). pose proof (performs_begin t a l He) as Hb. rewrite Ht; [|rewrite Hb|done].
  - by rewrite Hb, text_of_app.
  - cbn [layout]. rewrite text_of_app. intros [E _]%app_eq_nil. by apply text_begun in E.
Qed.
Lemma layout_app a l l' : layout ((a :: l) ++ l') = layout (a :: l) ++ (l' ≫= action_lines false).
Proof. cbn [layout app]. by rewrite bind_app, app_assoc. Qed.
Lemma builtText_Ok b out : builtText b = Ok out → rb_err b = None ∧ out = trim_right_lf (rb_buf b) ++ [LF].
Proof. unfold builtText. destruct (rb_err b); [done|]. by intros [= <-]. Qed.

Lemma terminal_last doc digest : ∃ l x, terminal_actions doc digest = l ++ [x] ∧ l <> [] ∧ plain_action x = true ∧ action_line x <> [].
Proof.
  unfold terminal_actions, terminalTail. rewrite !app_assoc.
  destruct (doc_Limitations doc) as [|lim lims _] using rev_ind.
  - rewrite app_nil_r. rewrite (app_assoc _ [Line ""] [Line "LIMITATIONS"]).
    eexists _, _. split; [reflexivity|]. split; [by intros [_ ?]%app_eq_nil|]. by split.
  - rewrite fmap_app, app_assoc. cbn [fmap list_fmap]. eexists _, _. split; [reflexivity|].
    split; [intros [E _]%app_eq_nil; by apply app_eq_nil in E as [_ ?]|]. by split.
Qed.
Lemma markdown_last doc digest : ∃ l x, markdown_actions doc digest = l ++ [x] ∧ l <> [] ∧ plain_action x = true ∧ action_line x <> [].
Proof.
  unfold markdown_actions, markdownTail. rewrite !app_assoc.
  match goal with |- context [?l ++ [?x; Line ?s]] => exists (l ++ [x]), (Line s) end. split; [exact (app_assoc _ [_] [_])|]. split; [by intros [_ ?]%app_eq_nil|]. by split.
Qed.

(** The text of a terminal report, and that of a Markdown report. *)
Lemma terminal_text t doc digest b1 b2 text :
  foldR (λ b f, performed t (terminalFinding f) b) (performs t (terminalHead doc digest) emptyBuilder) (ps_AppliedFindings (doc_Policy doc)) = Ok b1 →
  foldR (λ b r, performed t (terminalDelta r) b) (performs t [Line ""; Line "DELTAS"] b1) (bs_Records (doc_Behavior doc)) = Ok b2 →
  builtText (performs t (terminalTail doc) b2) = Ok text →
  text = text_of (layout (terminal_actions doc digest)).
Proof.
  intros H1 H2 H3. apply builtText_Ok in H3 as [He ->]. assert (∃ a l, terminalHead doc digest = a :: l) as (a & l0 & Ea) by by eexists _, _.
  destruct (terminal_last doc digest) as (ls & x & El & Hl & Hp & Hx). rewrite El, <- (layout_trimmed ls x) by done. rewrite <- El.
  do 2 f_equal. unfold terminal_actions. rewrite Ea in H1 |- *. rewrite layout_app, !bind_app. eapply wrote_begin; [|exact He].
  eapply wrote_trans; [eapply foldR_wrote; [|exact H1]; intros f ? ? _; apply performed_wrote|].
  eapply wrote_trans; [apply performs_wrote|]. eapply wrote_trans; [eapply foldR_wrote; [|exact H2]; intros f ? ? _; apply performed_wrote|].
  apply performs_wrote.
Qed.

Lemma performFact_wrote t label b f b' : performFact t label b f = Ok b' → wrote b (fact_actions label f ≫= action_lines false) b'.
Proof. unfold performFact, fact_actions. intros (l & -> & H)%bind_Ok. by eapply performed_wrote. Qed.
Lemma deltaRecord_wrote t b r b' : deltaRecord t b r = Ok b' → wrote b (record_actions r ≫= action_lines false) b'.
Proof.
  unfold deltaRecord. intros (_ & _ & H)%bind_Ok. apply bind_Ok in H as (b1 & H1 & H). apply bind_Ok in H as (b2 & H2 & H).
  unfold record_actions. rewrite !bind_app. eapply wrote_trans; [apply performs_wrote|].
  eapply wrote_trans; [eapply foldR_wrote; [|exact H1]; intros f ? ? _; apply performFact_wrote|].
  eapply wrote_trans; [eapply foldR_wrote; [|exact H2]; intros f ? ? _; apply performFact_wrote|]. by eapply performed_wrote.
Qed.
Lemma markdown_text t doc digest b1 b2 text :
  foldR (λ b f, performed t (mdFinding f) b) (performs t (markdownHead doc digest) emptyBuilder) (ps_AppliedFindings (doc_Policy doc)) = Ok b1 →
  foldR (deltaRecord t) (performs t (markdownMiddle doc) b1) (bs_Records (doc_Behavior doc)) = Ok b2 →
  builtText (performs t (markdownTail doc) b2) = Ok text →
  text = text_of (layout (markdown_actions doc digest)).
Proof.
  intros H1 H2 H3. apply builtText_Ok in H3 as [He ->]. assert (∃ a l, markdownHead doc digest = a :: l) as (a & l0 & Ea) by by eexists _, _.
  destruct (markdown_last doc digest) as (ls & x & El & Hl & Hp & Hx). rewrite El, <- (layout_trimmed ls x) by done. rewrite <- El.
  do 2 f_equal. unfold markdown_actions. rewrite Ea in H1 |- *. rewrite layout_app, !bind_app. eapply wrote_begin; [|exact He].
  eapply wrote_trans; [eapply foldR_wrote; [|exact H1]; intros f ? ? _; apply performed_wrote|].
  eapply wrote_trans; [apply performs_wrote|]. eapply wrote_trans; [eapply foldR_wrote; [|exact H2]; intros f ? ? _; apply deltaRecord_wrote|].
  apply performs_wrote.
Qed.

(** ** The lines of a text *)

Lemma split_on_line l rest : LF ∉ l → split_on LF (l ++ LF :: rest) = l :: split_on LF rest.
Proof.
  induction l as [|c l IH]; intros H; cbn [app split_on].
  - by rewrite bool_decide_true.
  - rewrite bool_decide_false by (intros ->; apply H, list_elem_of_here). rewrite IH; [done|]. intros ?. by apply H, list_elem_of_further.
Qed.
Lemma split_text ls : Forall printable ls → split_on LF (text_of ls) = ls ++ [[]].
Proof.
  induction 1 as [|l ls Hl _ IH]; [done|]. unfold text_of. cbn [mbind list_bind]. rewrite <- app_assoc. cbn [app].
  rewrite split_on_line by by apply printable_no_LF. unfold text_of in IH. by rewrite IH.
Qed.
Lemma text_bytes ls c : Forall printable ls → c ∈ text_of ls → c = LF ∨ 32 <= byte_val c.
Proof.
  intros H (l & Hc & Hl)%list_elem_of_bind. rewrite Forall_forall in H. apply elem_of_app in Hc as [Hc|Hc].
  - right. by apply (printable_bytes l c (H l Hl)).
  - left. by apply list_elem_of_singleton in Hc.
Qed.
Lemma text_terminal ls : Forall printable ls → terminalSafe (text_of ls) = true.
Proof.
  intros H. unfold terminalSafe. apply forallb_forall. intros x Hx%list_elem_of_In. revert x Hx. apply Forall_forall.
  assert (Forall (λ x, ∃ r, x.1 = Some r ∧ terminalRune r = true) (runes (text_of ls))) as Hall; [|by eapply Forall_impl; [exact Hall|]; intros x (r & -> & ?)].
  induction H as [|l ls Hl _ IH]; [constructor|]. unfold text_of. cbn [mbind list_bind]. rewrite <- app_assoc. rewrite runes_app.
  2: { eapply Forall_impl; [exact Hl|]. intros x (r & -> & _). by eexists. }
  apply Forall_app. split.
  - eapply Forall_impl; [exact Hl|]. intros x (r & -> & Hr). exists r. split; [done|]. by apply safe_terminal.
  - cbn [app]. rewrite (runes_Some _ 10 1) by done. constructor; [by eexists|exact IH].
Qed.

(** ** The actions are plain *)

Ltac plain_actions :=
  repeat first [apply Forall_app; split | apply Forall_cons; split; [reflexivity|] | apply Forall_nil; exact I | apply Forall_fmap, Forall_true; intros; reflexivity].
Lemma terminal_plain doc digest :
  Forall (λ n, ascii_text (to_bytes (nt_Code n)) = true) (doc_Notices doc) → Forall (λ a, plain_action a = true) (terminal_actions doc digest).
Proof.
  intros Hn. unfold terminal_actions, terminalHead, terminalTail. repeat (apply Forall_app; split); plain_actions.
  - apply Forall_fmap. exact Hn.
  - apply Forall_bind, Forall_true. intros f. unfold terminalFinding. plain_actions. destruct (af_AppliedWaiver f); plain_actions.
  - apply Forall_bind, Forall_true. intros r. unfold terminalDelta. plain_actions.
Qed.

(** The lines of a Markdown report: fixed texts, and values in sealed spans after a
    label of letters or another such span. *)
Definition fixed_lines : list bytes := to_bytes <$> [
  ""; "# Glassroot report"; "## Notices"; "- none"; "## Runner"; "## Completeness"; "## Findings"; "### Finding"; "## Behavioral delta";
  "### Delta record"; "## Authorities"; "## Limitations"; "## Safety statement";
  "A passed disposition does not prove the code is safe. Report digests are deterministic equality values only."]%string.
Definition plain_label (s : bytes) : bool :=
  forallb (λ c, let v := byte_val c in ((65 <=? v) && (v <=? 90)) || ((97 <=? v) && (v <=? 122)) || (v =? 32)) s.
Inductive inert_line : bytes → Prop :=
| inert_fixed l : l ∈ fixed_lines → inert_line l
| inert_value label span : plain_label label = true → sealed_span span → inert_line (to_bytes "- " ++ label ++ to_bytes ": " ++ span)
| inert_pair span span' : sealed_span span → sealed_span span' → inert_line (to_bytes "- " ++ span ++ to_bytes ": " ++ span').
Definition inert_action (a : action) : bool :=
  match a with
  | Line s | Heading s => bool_decide (to_bytes s ∈ fixed_lines)
  | KV label _ => plain_label (to_bytes label)
  | ListKV _ _ => true
  | TermKV _ _ => false
  end.
Lemma inert_action_line a : inert_action a = true → inert_line (action_line a).
Proof.
  pose proof (λ v, markdownCodeSpan_sealed v) as Hs.
  destruct a; cbn [inert_action action_line]; intros H; try discriminate H; go_bool; [by apply inert_fixed..|by apply inert_value|by apply inert_pair].
Qed.
Lemma layout_inert l : Forall (λ a, inert_action a = true) l → Forall inert_line (layout l).
Proof.
  assert (∀ first a, inert_action a = true → Forall inert_line (action_lines first a)) as Ha.
  { intros first a H%inert_action_line. assert (inert_line []) by by (apply inert_fixed, list_elem_of_here).
    destruct a, first; cbn [action_lines]; repeat (apply Forall_cons_2; [assumption|]); by apply Forall_nil_2. }
  destruct 1 as [|a l H Hl]; [by constructor|]. cbn [layout]. apply Forall_app. split; [by apply Ha|].
  apply Forall_bind. eapply Forall_impl; [exact Hl|]. intros x Hx. by apply Ha.
Qed.
Lemma fact_inert label f : Forall (λ a, inert_action a = true) (fact_actions label f).
Proof.
  unfold fact_actions, mdFact. destruct (factPayload f) as [l|] eqn:E; cbn; [|by constructor]. constructor; [done|].
  unfold factPayload in E. repeat case_match; try discriminate E; apply Ok_inj in E as <-; plain_actions.
Qed.
Lemma markdown_inert_actions doc digest : Forall (λ a, inert_action a = true) (markdown_actions doc digest).
Proof.
  unfold markdown_actions, markdownHead, markdownMiddle, markdownTail. repeat (apply Forall_app; split); plain_actions.
  - destruct (ze_list _); plain_actions.
  - apply Forall_bind, Forall_true. intros f. unfold mdFinding. plain_actions. destruct (af_AppliedWaiver f); plain_actions.
  - apply Forall_bind, Forall_true. intros r. unfold record_actions, recordHead, recordTail. plain_actions.
    + apply Forall_bind, Forall_true. intros f. apply fact_inert.
    + apply Forall_bind, Forall_true. intros f. apply fact_inert.
Qed.
Lemma inert_printable l : inert_line l → printable l.
Proof.
  assert (printable (to_bytes "- ") ∧ printable (to_bytes ": ")) as [H1 H2] by by split; apply printable_text.
  intros [l' Hl|label span Hlab Hs|s s' Hs%sealed_printable Hs'%sealed_printable].
  - apply printable_text. revert l' Hl. apply Forall_forall. by vm_compute; repeat constructor.
  - repeat apply printable_app; try done; [|by apply sealed_printable]. apply printable_ascii, Forall_forall. intros c Hc%list_elem_of_In.
    unfold plain_label in Hlab. rewrite forallb_forall in Hlab. apply Hlab in Hc. lia.
  - by repeat apply printable_app.
Qed.
