(* ===== verification/ReportSpec.v ===== *)
(** * What a report guarantees

    A report is built only from a bundle, a delta and an application that are about one
    run; it holds every finding and every record, each with its references in place; and
    what is rendered of it is, line by line, its document. *)

From stdpp Require Import prelude gmap strings.
From Stdlib Require Import ZArith Lia Ascii.
From S2P Require Import Prelude GoStd Sha256 Framing GoTime Model Json GoText Utf8 JsonCopy Event Observe Compare CompareSpec Plan Policy Application Evidence Report Render RenderSpec.
Local Open Scope Z_scope.

(** ** A built report *)

Lemma report_Build_Ok limits ctx req r : Build limits ctx req = Ok r → ∃ l b d a,
  validateLimits limits = Ok l ∧ req = mkReportRequest (Some b) (Some d) (Some a) ∧ b_closed b = false ∧ validateBinding b d a = Ok () ∧
  validateCountsAndRefs (b_plan b) (b_attempts b) (fz_doc d) (fa_doc a) l = Ok () ∧ freezeReportDocument (buildDocument b d a) l = Ok r.
Proof.
  unfold Build. intros (l & Hl & H)%bind_Ok. destruct ctx; [done|]. destruct req as [[b|] [d|] [a|]]; try done. cbn in H.
  apply reject_bind_Ok in H as [Hc H]. apply bind_Ok in H as ([] & Hb & H). apply bind_Ok in H as ([] & Hr & H). by exists l, b, d, a.
Qed.
Lemma freeze_Ok doc l r : freezeReportDocument doc l = Ok r →
  r = mkFrozenReport (cloneDocument doc) (render (json_of_Document doc)) (digestBytes reportJSONDomain (render (json_of_Document doc))).
Proof. unfold freezeReportDocument. intros H. repeat (apply reject_bind_Ok in H as [_ H]). by apply Ok_inj in H as <-. Qed.

(** To strip a copy is to copy what was stripped. *)
Lemma copy_fmap {A} `{JsonCopy A} (l : list A) : json_copy l = json_copy <$> l.
Proof. done. Qed.
Lemma strip_copies {A} `{JsonCopy A} (strip : A → A) (l : list A) :
  (∀ x, json_copy (strip x) = strip (json_copy x)) → json_copy (strip <$> l) = strip <$> json_copy l.
Proof. intros Hs. rewrite !copy_fmap, <- !list_fmap_compose. apply list_fmap_ext. intros i x _. apply Hs. Qed.
Lemma stripRefs_copy l : json_copy (stripRefs l) = stripRefs (json_copy l).
Proof. by apply strip_copies; intros []. Qed.
Lemma stripWaiver_copy w : json_copy (stripWaiver w) = stripWaiver (json_copy w).
Proof. destruct w. unfold stripWaiver, json_copy at 1 2, copy_ModelWaiver. cbn. f_equal. apply stripRefs_copy. Qed.
Lemma stripFinding_copy f : json_copy (stripFinding f) = stripFinding (json_copy f).
Proof.
  destruct f. unfold stripFinding, json_copy at 1 2, copy_Finding. cbn. f_equal; [apply stripRefs_copy|]. apply strip_copies, stripWaiver_copy.
Qed.
Lemma stripApplied_copy a : json_copy (stripApplied a) = stripApplied (json_copy a).
Proof. destruct a. unfold stripApplied, json_copy at 1 2, copy_AppliedFinding. cbn. f_equal. apply stripFinding_copy. Qed.
Lemma stripFact_copy f : json_copy (stripFact f) = stripFact (json_copy f).
Proof. destruct f. unfold stripFact, json_copy at 1 2, copy_DeltaFactSnapshot. cbn. f_equal. apply stripRefs_copy. Qed.
Lemma stripRecord_copy r : json_copy (stripRecord r) = stripRecord (json_copy r).
Proof.
  destruct r. unfold stripRecord, json_copy at 1 2, copy_DeltaRecord. cbn.
  f_equal; first [apply stripRefs_copy|apply strip_copies, stripFact_copy].
Qed.

(** What the copy of the document holds of the application and of the delta. *)
Lemma built_findings b d a : ps_AppliedFindings (doc_Policy (cloneDocument (buildDocument b d a))) = stripApplied <$> json_copy (ad_AppliedFindings (fa_doc a)).
Proof.
  change (json_copy (stripApplied <$> json_copy (ad_AppliedFindings (fa_doc a))) = stripApplied <$> json_copy (ad_AppliedFindings (fa_doc a))).
  rewrite (strip_copies stripApplied) by apply stripApplied_copy. by rewrite json_copy_idem.
Qed.
Lemma built_records b d a : bs_Records (doc_Behavior (cloneDocument (buildDocument b d a))) = stripRecord <$> json_copy (bd_Records (fz_doc d)).
Proof.
  change (json_copy (stripRecord <$> json_copy (bd_Records (fz_doc d))) = stripRecord <$> json_copy (bd_Records (fz_doc d))).
  rewrite (strip_copies stripRecord) by apply stripRecord_copy. by rewrite json_copy_idem.
Qed.

(** The notices: codes and texts are plain, and there is one for each condition that
    holds. *)
Lemma notice_checked v e a n : n ∈ notices v e a ↔ ∃ c, (c, true) ∈ noticeChecks v e a ∧ n = mkNotice c (noticeText c).
Proof.
  unfold notices. rewrite list_elem_of_omap. split.
  - intros ((c & [|]) & Hin & [= <-]). by exists c.
  - intros (c & Hin & ->). by exists (c, true).
Qed.
Lemma notice_plain v e a n : n ∈ notices v e a → json_copy n = n ∧ ascii_text (to_bytes (nt_Code n)) = true.
Proof.
  intros (c & Hin & ->)%notice_checked. unfold noticeChecks in Hin.
  repeat (apply elem_of_cons in Hin as [E|Hin]; [apply (f_equal fst) in E; cbn in E; subst c; by split; vm_compute|]). by apply not_elem_of_nil in Hin.
Qed.
Lemma built_notices b d a : doc_Notices (cloneDocument (buildDocument b d a)) = stable_sort notice_less (notices (b_verification b) (b_execution b) (fa_doc a)).
Proof.
  change (json_copy (stable_sort notice_less (notices (b_verification b) (b_execution b) (fa_doc a))) = stable_sort notice_less (notices (b_verification b) (b_execution b) (fa_doc a))).
  rewrite copy_fmap. rewrite <- (list_fmap_id (stable_sort _ _)) at 2. apply list_fmap_ext. intros i n Hn%list_elem_of_lookup_2.
  rewrite stable_sort_Permutation in Hn. by apply notice_plain in Hn as [-> _].
Qed.
Lemma built_plain limits ctx req r : Build limits ctx req = Ok r → Forall (λ n, ascii_text (to_bytes (nt_Code n)) = true) (doc_Notices (frp_doc r)).
Proof.
  intros (l & b & d & a & _ & _ & _ & _ & _ & ->%freeze_Ok)%report_Build_Ok. cbn [frp_doc]. rewrite built_notices. apply Forall_forall. intros n Hn.
  rewrite stable_sort_Permutation in Hn. by apply notice_plain in Hn as [_ Hn].
Qed.
Lemma built_copy limits ctx req r : Build limits ctx req = Ok r → cloneDocument (frp_doc r) = frp_doc r.
Proof. intros (l & b & d & a & _ & _ & _ & _ & _ & ->%freeze_Ok)%report_Build_Ok. cbn [frp_doc]. apply json_copy_idem. Qed.

(** ** The error that cannot happen *)

(** The last check of a renderer looks for what no value could have brought in. *)
Definition outcome {A} (P : A → Prop) (m : result ReportError A) : Prop :=
  match m with Ok x => P x | Err e => rpe_Code e <> "render-failed"%string end.
Lemma outcome_bind {A B} (P : A → Prop) (Q : B → Prop) m (k : A → result ReportError B) :
  outcome P m → (∀ x, m = Ok x → P x → outcome Q (k x)) → outcome Q (m ≫= k).
Proof. destruct m as [x|e]; cbn; intros H Hk; [by apply Hk|done]. Qed.
Lemma outcome_reject bad code stage field : code <> "render-failed"%string → outcome (λ _, True) (reject_if bad (errCode code stage field)).
Proof. by destruct bad. Qed.
Lemma outcome_foldR {S A} (P : S → Prop) (f : S → A → result ReportError S) l : ∀ s,
  P s → (∀ s x, P s → outcome P (f s x)) → outcome P (foldR f s l).
Proof.
  induction l as [|x l IH]; intros s Hs Hf; cbn; [done|]. specialize (Hf s x Hs) as Hx. destruct (f s x); [by apply IH; eauto|done].
Qed.
Lemma outcome_checks stage checks : outcome (λ _, True) (checkBounds stage checks).
Proof. unfold checkBounds. apply outcome_foldR; [done|]. intros _ [[v lim] field] _. by apply outcome_reject. Qed.

Definition calm (b : renderBuilder) : Prop := match rb_err b with Some e => rpe_Code e <> "render-failed"%string | None => True end.
Section calm.
Context (t : RenderTarget) (Ht : tg_tooLargeCode t <> "render-failed"%string).
Lemma line_calm s b : calm b → calm (line t s b).
Proof. unfold calm, line. destruct (rb_err b) as [e|] eqn:E; [by rewrite E|]. intros _. by repeat case_match; simplify_eq/=. Qed.
Lemma shown_calm wrap other v b : calm b → calm (shown t wrap other v b).2.
Proof.
  assert (outcome (λ _, True) (visibleDisplayBytes (to_bytes v) (tg_limits t))) as H.
  { unfold visibleDisplayBytes. eapply outcome_bind; [by apply outcome_reject|]. intros _ _ _. eapply outcome_bind; [by apply outcome_reject|].
    intros _ _ _. apply outcome_foldR; [done|]. intros acc x _. unfold visibleStep. eapply outcome_bind; [by apply outcome_reject|]. done. }
  unfold shown. by destruct (visibleDisplayBytes _ _).
Qed.
Lemma perform_calm b a : calm b → calm (perform t b a).
Proof.
  intros Hb. destruct a as [s|s|label v|label v|label v]; cbn [perform].
  - by apply line_calm.
  - unfold heading. case_bool_decide; repeat apply line_calm; done.
  - unfold mdValue. pose proof (shown_calm markdownCodeSpan (to_bytes "``") v b Hb). destruct (shown _ _ _ _ _). by apply line_calm.
  - unfold mdValue. pose proof (shown_calm markdownCodeSpan (to_bytes "``") label b Hb). destruct (shown _ _ _ _ _) as [x b1].
    pose proof (shown_calm markdownCodeSpan (to_bytes "``") v b1 ltac:(done)). destruct (shown _ _ _ _ _). by apply line_calm.
  - unfold termValue. pose proof (shown_calm id [] v b Hb). destruct (shown _ _ _ _ _). by apply line_calm.
Qed.
Lemma performs_calm l : ∀ b, calm b → calm (performs t l b).
Proof. induction l as [|a l IH]; intros b Hb; [done|]. apply IH. by apply perform_calm. Qed.
Lemma performed_calm l b : calm b → outcome calm (performed t l b).
Proof. intros Hb. pose proof (performs_calm l b Hb) as H. unfold performed. unfold calm in H |- *. destruct (rb_err _) eqn:E; cbn; [done|]. by rewrite E. Qed.
Lemma builtText_calm b : calm b → outcome (λ _, True) (builtText b).
Proof. unfold calm, builtText. by destruct (rb_err b). Qed.
End calm.
Lemma outcome_refs doc l : outcome (λ _, True) (validateRenderEvidenceRefs doc l).
Proof.
  unfold validateRenderEvidenceRefs.
  assert (∀ total n, outcome (λ _, True) (checkRefTotal l total n)) as H by (intros; eapply outcome_bind; [by apply outcome_reject|done]).
  eapply outcome_bind; [apply (outcome_foldR (λ _, True)); [done|]; intros; apply H|]. intros total _ _.
  eapply outcome_bind; [apply (outcome_foldR (λ _, True)); [done|]; intros; apply H|]. done.
Qed.
Lemma outcome_limits l : outcome (λ _, True) (validateRenderLimits l).
Proof. unfold validateRenderLimits. eapply outcome_bind; [by apply outcome_reject|]. intros _ _ _. eapply outcome_bind; [apply outcome_checks|]. done. Qed.

(** ** What a renderer returns *)

Lemma block_of {A} (f : A → list action) (pre post : list action) (l : list A) x : x ∈ l → pre <> [] →
  ∃ before after, layout (pre ++ (l ≫= f) ++ post) = before ++ (f x ≫= action_lines false) ++ after.
Proof.
  intros (l1 & l2 & ->)%list_elem_of_split Hpre. destruct pre as [|a pre]; [done|].
  exists (layout ((a :: pre) ++ (l1 ≫= f))), (((l2 ≫= f) ++ post) ≫= action_lines false).
  cbn [app layout]. rewrite !bind_app. cbn [mbind list_bind]. rewrite !bind_app, <- !app_assoc. done.
Qed.

Lemma RenderTerminal_outcome limits ctx req r ctx' rl : Build limits ctx req = Ok r →
  outcome (λ out, ro_RendererVersion out = TerminalRendererVersionV1Alpha1 ∧
    ro_Bytes out = text_of (layout (terminal_actions (frp_doc r) (frp_digest r))) ∧ ro_Digest out = digestBytes terminalDigestDomain (ro_Bytes out))
    (RenderTerminal ctx' (Some r) rl).
Proof.
  intros H. unfold RenderTerminal. destruct ctx' as [[]|]; [done..|]. rewrite (built_copy _ _ _ _ H). set (doc := frp_doc r).
  eapply outcome_bind; [apply outcome_limits|]. intros l _ _. eapply outcome_bind; [apply outcome_refs|]. intros _ _ _. set (t := mkRenderTarget _ _ _).
  assert (tg_tooLargeCode t <> "render-failed"%string) as Ht by done.
  eapply outcome_bind; [apply outcome_foldR; [by apply performs_calm|]; intros; by apply performed_calm|]. intros b1 H1 C1.
  eapply outcome_bind; [apply outcome_foldR; [by apply performs_calm|]; intros; by apply performed_calm|]. intros b2 H2 C2.
  eapply outcome_bind; [apply builtText_calm; by apply performs_calm|]. intros text H3 _.
  apply (terminal_text t doc (frp_digest r) b1 b2 text H1 H2) in H3 as ->. rewrite text_terminal; [done|].
  apply layout_printable, terminal_plain. exact (built_plain _ _ _ _ H).
Qed.

(** ** References *)

Lemma checkRecord_ids limits l : ∀ s s', foldR (checkRecord limits) s l = Ok s' →
  s'.1 = s.1 ∪ list_to_set (dr_ID <$> l) ∧ NoDup (dr_ID <$> l) ∧ (∀ id, id ∈ dr_ID <$> l → id ∉ s.1).
Proof.
  induction l as [|r l IH]; intros s s' H; cbn [foldR] in H.
  { apply Ok_inj in H as <-. cbn. split_and!; [set_solver|constructor|set_solver]. }
  destruct (checkRecord limits s r) as [s1|] eqn:E; [|done]. apply IH in H as (Hs & Hnd & Hnew). unfold checkRecord in E.
  apply reject_bind_Ok in E as [_ E]. apply reject_bind_Ok in E as [Hr%bool_decide_eq_false E]. apply reject_bind_Ok in E as [_ E].
  apply Ok_inj in E as <-. cbn in *. split_and!; [set_solver|constructor; [set_solver|done]|set_solver].
Qed.
Definition finding_id (f : AppliedFinding) : string := fd_ID (af_Original f).
Lemma checkFindingRefs_all limits ids scenarios attempts l : ∀ s s', foldR (checkFindingRefs limits ids scenarios attempts) s l = Ok s' →
  s'.1 = s.1 ∪ list_to_set (finding_id <$> l) ∧ NoDup (finding_id <$> l) ∧ (∀ id, id ∈ finding_id <$> l → id ∉ s.1) ∧
  Forall (λ f, Forall (.∈ ids) (fd_DeltaRecordIDs (af_Original f)) ∧ Forall (.∈ scenarios) (fd_ScenarioIDs (af_Original f)) ∧
    Forall (λ ref, validateEvidenceRef attempts ref = Ok ()) (fd_Evidence (af_Original f))) l.
Proof.
  induction l as [|r l IH]; intros s s' H; cbn [foldR] in H.
  { apply Ok_inj in H as <-. cbn. split_and!; [set_solver|constructor|set_solver|constructor]. }
  destruct (checkFindingRefs _ _ _ _ s r) as [s1|] eqn:E; [|done]. apply IH in H as (Hs & Hnd & Hnew & Hall). unfold checkFindingRefs in E.
  apply reject_bind_Ok in E as [_ E]. apply reject_bind_Ok in E as [Hr%bool_decide_eq_false E].
  apply bind_Ok in E as (u1 & E1 & E). apply bind_Ok in E as (u2 & E2 & E). apply reject_bind_Ok in E as [_ E]. apply bind_Ok in E as (u3 & E3 & E).
  apply Ok_inj in E as <-. cbn in *. unfold finding_id at 1 2 3. split_and!; [set_solver|constructor; [set_solver|done]|set_solver|].
  constructor; [|done]. split_and!.
  - apply Forall_forall. intros id Hid. apply (foldR_reject _ _ _ u1) with (x := id) in E1; [|done]. go_bool. by apply dec_stable.
  - apply Forall_forall. intros id Hid. apply (foldR_reject _ _ _ u2) with (x := id) in E2; [|done]. go_bool. by apply dec_stable.
  - clear -E3. revert E3. generalize (fd_Evidence (af_Original r)). intros refs. destruct u3. induction refs as [|x refs IHr]; intros H; [constructor|].
    cbn in H. destruct (validateEvidenceRef attempts x) as [[]|] eqn:E; [|done]. constructor; [done|by apply IHr].
Qed.

(** An evidence reference that leads to an attempt of the bundle. *)
Definition leads_to (attempts : list VerifiedAttempt) (ref : EvidenceRef) : Prop :=
  ∃ a, a ∈ attempts ∧ attemptKey (er_Revision ref) (er_ScenarioID ref) (er_Repetition ref) = attemptKey (va_Revision a) (va_ScenarioID a) (va_Repetition a).
(** The references that give no event. *)
Definition no_event (ref : EvidenceRef) : Prop := er_Revision ref = ""%string ∧ er_ScenarioID ref = ""%string ∧ er_EventSequence ref = 0.
Lemma validateEvidenceRef_Ok (attempts : list VerifiedAttempt) ref :
  validateEvidenceRef (list_to_set ((λ a, attemptKey (va_Revision a) (va_ScenarioID a) (va_Repetition a)) <$> attempts)) ref = Ok () →
  no_event ref ∨ leads_to attempts ref.
Proof.
  unfold validateEvidenceRef. destruct (_ && _) eqn:E; intros H; [left|right].
  - go_bool. by split_and!.
  - apply reject_bind_Ok in H as [_ H]. apply reject_bind_Ok in H as [_ H]. apply reject_bind_Ok in H as [_ H]. apply reject_if_Ok in H. go_bool.
    apply dec_stable in H. apply elem_of_list_to_set, list_elem_of_fmap in H as (a & E' & Ha). by exists a.
Qed.

(** ** The properties *)

(** What a report was built from. *)
Definition request_of (b : Bundle) (d : FrozenDelta) (a : FrozenApplication) : ReportRequest := mkReportRequest (Some b) (Some d) (Some a).

(** Two references to one commit, in all that identifies it. *)
Definition same_commit (x y : CommitRef) : Prop :=
  cr_Kind x = cr_Kind y ∧ cr_CommitID x = cr_CommitID y ∧ cr_TreeID x = cr_TreeID y ∧ cr_ObjectFormat x = cr_ObjectFormat y
  ∧ cr_TreeDigest x = cr_TreeDigest y.
Definition no_commit : CommitRef := mkCommitRef "" "" "" "" "" "" "".
Lemma sameCommit_true x y : sameCommit x y = true → same_commit x y.
Proof. unfold sameCommit. intros H. by go_bool. Qed.
Lemma deltaCommitCompatible_true x y : deltaCommitCompatible x y = true → y = no_commit ∨ same_commit x y.
Proof. unfold deltaCommitCompatible. destruct (y == _) eqn:E; intros H; [left; by go_bool|right; by apply sameCommit_true]. Qed.

(** C21: a report is built only when the bundle, the delta and the application are about
    the same run: one run identity, one plan (the digest of the bundle's plan is the one
    that the manifest, the execution, the delta and the application name), one manifest,
    the delta whose digest the application names and whose digest is that of its text,
    the application whose digest is that of its text, the two commits of the plan in the
    application and, where it names commits, in the delta, and the same state of
    completeness in the manifest, the execution and the delta.  The digest of the report
    is that of its text. *)
Theorem report_binds limits ctx b d a r : Build limits ctx (request_of b d a) = Ok r →
  let digest := DigestRunPlanJSON (render (json_of_RunPlan (b_plan b))) in
  (mf_RunID (b_manifest b) = rp_RunID (b_plan b) ∧ xd_RunID (b_execution b) = rp_RunID (b_plan b) ∧ bd_RunID (fz_doc d) = rp_RunID (b_plan b)
   ∧ ad_RunID (fa_doc a) = rp_RunID (b_plan b)) ∧
  (mf_PlanDigest (b_manifest b) = digest ∧ xd_PlanDigest (b_execution b) = digest ∧ bd_PlanDigest (fz_doc d) = digest ∧ ad_PlanDigest (fa_doc a) = digest) ∧
  (vs_ManifestDigest (b_verification b) = b_manifestDigest b ∧ bd_ManifestDigest (fz_doc d) = b_manifestDigest b) ∧
  (fz_digest d = DigestBehavioralDeltaJSON (fz_json d) ∧ ad_BehavioralDeltaDigest (fa_doc a) = fz_digest d ∧
   fa_digest a = digestBytes applicationJSONDomain (fa_json a)) ∧
  (same_commit (rp_Base (b_plan b)) (ad_Base (fa_doc a)) ∧ same_commit (rp_Head (b_plan b)) (ad_Head (fa_doc a))) ∧
  ((bd_Base (fz_doc d) = no_commit ∨ same_commit (rp_Base (b_plan b)) (bd_Base (fz_doc d))) ∧
   (bd_Head (fz_doc d) = no_commit ∨ same_commit (rp_Head (b_plan b)) (bd_Head (fz_doc d)))) ∧
  (mf_EvidenceComplete (b_manifest b) = xd_EvidenceComplete (b_execution b) ∧ mf_ExecutionComplete (b_manifest b) = xd_ExecutionComplete (b_execution b)) ∧
  (bd_EvidenceComplete (fz_doc d) = xd_EvidenceComplete (b_execution b) ∧ bd_ExecutionComplete (fz_doc d) = xd_ExecutionComplete (b_execution b)) ∧
  frp_digest r = digestBytes reportJSONDomain (frp_json r).
Proof.
  intros (l & b' & d' & a' & _ & E & _ & H & _ & ->%freeze_Ok)%report_Build_Ok. injection E as <- <- <-. unfold validateBinding in H. inv_ok. go_bool.
  repeat match goal with H : ¬ ¬ _ |- _ => apply dec_stable in H | H : Bool.eqb _ _ = true |- _ => apply eqb_prop in H end.
  split_and!; first [reflexivity|congruence|by apply sameCommit_true|by apply deltaCommitCompatible_true].
Qed.

(** What warrants a notice. *)
Inductive warrants (v : VerificationSummary) (e : ExecutionDocument) (a : ApplicationDocument) : NoticeCode → Prop :=
| warrants_always : warrants v e a NoticePassedNotProofOfSafety
| warrants_execution : xd_ExecutionComplete e = false → warrants v e a NoticeExecutionIncomplete
| warrants_evidence : xd_EvidenceComplete e = false → warrants v e a NoticeEvidenceIncomplete
| warrants_synthetic : rc_SyntheticEvidence (xd_Runner e) = true → warrants v e a NoticeSyntheticEvidence
| warrants_no_target : rc_ExecutesTargetCode (xd_Runner e) = false → warrants v e a NoticeNoTargetCodeExecuted
| warrants_fake : rc_IsolationTier (xd_Runner e) = IsolationTierFake → warrants v e a NoticeFakeRunner
| warrants_development : rc_IsolationTier (xd_Runner e) = IsolationTierDevelopmentOnly → warrants v e a NoticeDevelopmentOnlyRunner
| warrants_network : rc_EnforcesNetworkDeny (xd_Runner e) = false → warrants v e a NoticeNetworkDenyNotEnforced
| warrants_internal :
    vs_Mode v = VerificationModeInternalConsistencyOnly → warrants v e a NoticeInternalConsistencyOnlyManifestVerification
| warrants_waivers :
    0 < as_EffectiveWaived (ad_Summary a) ∨ 0 < as_AppliedWaivers (ad_Summary a) → warrants v e a NoticeWaiversApplied
| warrants_governance :
    0 < as_ConfigurationFindings (ad_Summary a) ∨ 0 < as_WaiverGovernanceFindings (ad_Summary a) →
    warrants v e a NoticeGovernanceFindingsPresent
| warrants_limitations : xd_Limitations e <> [] ∨ ad_Limitations a <> [] → warrants v e a NoticeObserverLimitationsPresent.

Lemma ze_list_true {A} (l : list A) : negb (ze_list l) = true ↔ l <> [].
Proof. by destruct l. Qed.
Lemma noticeChecks_warrants v e a c : (c, true) ∈ noticeChecks v e a ↔ warrants v e a c.
Proof.
  unfold noticeChecks. split.
  - intros H. repeat (apply elem_of_cons in H as [H|H]; [
      pose proof (f_equal snd H) as E; apply (f_equal fst) in H; cbn in H, E; subst c; constructor; symmetry in E;
      rewrite ?orb_true_iff, ?ze_list_true, ?negb_true_iff, ?Z.ltb_lt, ?bool_decide_eq_true in E; exact E|]).
    by apply not_elem_of_nil in H.
  - rewrite !elem_of_cons.
    intros []; repeat first [left; f_equal; symmetry; rewrite ?orb_true_iff, ?ze_list_true, ?negb_true_iff, ?Z.ltb_lt, ?bool_decide_eq_true; done|right].
Qed.
Lemma notice_codes v e a : NoDup (nt_Code <$> notices v e a).
Proof.
  assert (nt_Code <$> notices v e a = omap (λ '(c, holds), if (holds : bool) then Some c else None) (noticeChecks v e a)) as ->.
  { unfold notices. induction (noticeChecks v e a) as [|[c [|]] l IH]; cbn; [done|by rewrite IH|done]. }
  assert (∀ l : list (NoticeCode * bool), omap (λ '(c, holds), if (holds : bool) then Some c else None) l `sublist_of` l.*1) as Hsub.
  { induction l as [|[c [|]] l IH]; cbn; [done|by apply sublist_skip|by apply sublist_cons]. }
  eapply sublist_NoDup; [|apply Hsub]. apply (bool_decide_unpack _). vm_compute. exact I.
Qed.

(** C11: a built report holds every finding of the application and every record of the
    delta, in order (as copies without the bundle's paths), with the disposition of the
    application; it has one notice, with its fixed text, for each code that something
    warrants and no other; and the findings have distinct identities, as have the
    records, the records and the scenarios that a finding names are there, and a
    reference of a finding to an event leads to an attempt of the bundle.  A finding's
    reference that gives neither revision nor scenario nor sequence leads nowhere, and
    the references of the records are only counted. *)
Theorem report_complete limits ctx b d a r : Build limits ctx (request_of b d a) = Ok r →
  ps_AppliedFindings (doc_Policy (frp_doc r)) = stripApplied <$> json_copy (ad_AppliedFindings (fa_doc a)) ∧
  bs_Records (doc_Behavior (frp_doc r)) = stripRecord <$> json_copy (bd_Records (fz_doc d)) ∧
  ps_OverallEffectiveDisposition (doc_Policy (frp_doc r)) = json_copy (ad_OverallEffectiveDisposition (fa_doc a)) ∧
  (∀ n, n ∈ doc_Notices (frp_doc r) ↔
     warrants (b_verification b) (b_execution b) (fa_doc a) (nt_Code n) ∧ n = mkNotice (nt_Code n) (noticeText (nt_Code n))) ∧
  NoDup (nt_Code <$> doc_Notices (frp_doc r)) ∧
  NoDup (dr_ID <$> bd_Records (fz_doc d)) ∧ NoDup (finding_id <$> ad_AppliedFindings (fa_doc a)) ∧
  Forall (λ f, Forall (.∈ dr_ID <$> bd_Records (fz_doc d)) (fd_DeltaRecordIDs (af_Original f)) ∧
    Forall (.∈ sp_ID <$> rp_Scenarios (b_plan b)) (fd_ScenarioIDs (af_Original f)) ∧
    Forall (λ ref, no_event ref ∨ leads_to (b_attempts b) ref) (fd_Evidence (af_Original f))) (ad_AppliedFindings (fa_doc a)).
Proof.
  intros (l & b' & d' & a' & _ & E & _ & _ & H & ->%freeze_Ok)%report_Build_Ok. injection E as <- <- <-. cbn [frp_doc].
  unfold validateCountsAndRefs in H. do 4 (apply reject_bind_Ok in H as [_ H]). apply bind_Ok in H as (s1 & H1 & H).
  apply bind_Ok in H as (s2 & H2 & _). apply checkRecord_ids in H1 as (Hids & Hnd & _). apply checkFindingRefs_all in H2 as (_ & Hnd' & _ & Hall).
  rewrite built_notices.
  split_and!; [apply built_findings|apply built_records| | | |exact Hnd|exact Hnd'|].
  - exact (json_copy_idem (ad_OverallEffectiveDisposition (fa_doc a))).
  - intros n. rewrite stable_sort_Permutation, notice_checked. setoid_rewrite noticeChecks_warrants. split.
    + by intros (c & Hc & ->).
    + intros [Hc Hn]. by exists (nt_Code n).
  - rewrite stable_sort_Permutation. apply notice_codes.
  - eapply Forall_impl; [exact Hall|]. intros f (F1 & F2 & F3). split_and!.
    + eapply Forall_impl; [exact F1|]. intros id. rewrite Hids. set_solver.
    + eapply Forall_impl; [exact F2|]. intros id. set_solver.
    + eapply Forall_impl; [exact F3|]. intros ref. apply validateEvidenceRef_Ok.
Qed.

(** C22: what is shown of a value tells the value, whatever bytes it has: no two values
    look the same; and what is shown is printable text, with no control, no line break
    and no format character. *)
Theorem display_faithful x y limits limits' shown : visibleDisplayBytes x limits = Ok shown → visibleDisplayBytes y limits' = Ok shown →
  x = y ∧ printable shown.
Proof. intros ->%visibleDisplayBytes_Ok E%visibleDisplayBytes_Ok. split; [by apply visible_inj|apply visible_printable]. Qed.

(** A terminal report of a built report is never refused for what its values hold
    (the final check for controls cannot fail), and its lines are the layout of the
    document: one printable line for each field, none added, with the lines of every
    finding and of every record next to each other. *)
Theorem terminal_inert limits ctx req r ctx' rl : Build limits ctx req = Ok r →
  RenderTerminal ctx' (Some r) rl <> Err (errCode "render-failed" "terminal" "controls") ∧
  ∀ out, RenderTerminal ctx' (Some r) rl = Ok out → ∃ lines, split_on LF (ro_Bytes out) = lines ++ [[]] ∧
    lines = layout (terminal_actions (frp_doc r) (frp_digest r)) ∧ Forall printable lines ∧
    (∀ f, f ∈ ps_AppliedFindings (doc_Policy (frp_doc r)) → ∃ before after, lines = before ++ (terminalFinding f ≫= action_lines false) ++ after) ∧
    (∀ x, x ∈ bs_Records (doc_Behavior (frp_doc r)) → ∃ before after, lines = before ++ (terminalDelta x ≫= action_lines false) ++ after).
Proof.
  intros H. pose proof (RenderTerminal_outcome _ _ _ _ ctx' rl H) as Ho. split; [intros E; rewrite E in Ho; by apply Ho|].
  intros out E. rewrite E in Ho. destruct Ho as (_ & Hb & _). eexists. split; [|split; [reflexivity|]].
  - rewrite Hb. apply split_text. apply layout_printable, terminal_plain, (built_plain _ _ _ _ H).
  - split; [apply layout_printable, terminal_plain, (built_plain _ _ _ _ H)|]. unfold terminal_actions. split; intros x Hx.
    + by apply block_of.
    + rewrite !app_assoc. rewrite <- (app_assoc _ (_ ≫= terminalDelta)). apply block_of; [done|]. by intros [_ ?]%app_eq_nil.
Qed.

