(* ===== verification/ReportEx.v ===== *)
(** * A run, from its plan to its report

    The plan of [PlanEx] is executed by a backend whose head attempts also connect to a
    host with an unkind name; the events are normalized, compared, judged and applied
    under a waiver, and the report is built and rendered.  The theorems of
    [ReportSpec] are instantiated here. *)

From stdpp Require Import prelude gmap strings.
From Stdlib Require Import ZArith Lia Ascii.
From S2P Require Import Prelude GoStd Sha256 Framing GoTime Model Json GoText Yaml Config Waiver WaiverEx Plan Event Runner RunnerSpec RunnerEx Evidence Observe Normalize NormalizeSpec NormalizeTotal NormalizeEx PlanSpec PlanEx Compare CompareEx Policy PolicyEx Application ApplicationEx JsonCopy Report Render RenderSpec ReportSpec.
Local Open Scope Z_scope.

(** ** The run *)

(** The name has a line break, a heading and a run of backticks. *)
Definition rx_host : string := of_bytes (to_bytes "evil`" ++ [byte_of 10] ++ to_bytes "# Passed ``` ").
Definition rx_connect : EventDraft :=
  mkEventDraft (ex_created + 3 * second) ObservationSourceHostObserved ObservationKindNetworkConnection None None
    (Some (mkNetworkObservation "connect" "tcp" "" rx_host 443 [] "denied" 5)) None None None None.
Definition rx_env : Environment :=
  mkEnvironment (λ _, None) (λ _ _, None)
    (λ n req, if bool_decide (ar_Revision req = RevisionKindHead) then EmitDraft rx_connect (λ _, ex_script (100 * Z.of_nat n))
              else ex_script (100 * Z.of_nat n)).
Definition rx_out := ExecutePlanWithHooks None rx_env None (Some (fp_doc pl_plan, fp_digest pl_plan)) RunnerEx.ex_backend RunnerEx.ex_requirements Runner.DefaultLimits.
Definition rx_digest (c : ascii) : Digest := "sha256:" +:+ hex 64 c.
Definition rx_bundle : Bundle :=
  mkBundle false
    (mkManifest SchemaVersionEvidenceManifestV1Alpha1 "manifest-1" "run-1" ex_created "directory-v1alpha1" (fp_digest pl_plan) true true true [] [] [] [] None)
    (rx_digest "1"%char) (fp_doc pl_plan)
    (mkExecutionDocument SchemaVersionExecutionResultV1Alpha1 "run-1" (fp_digest pl_plan) RunnerEx.ex_capabilities true true true
      (Z.of_nat (length (events rx_out.2))) [] [] None)
    (ex_verified <$> pl_attempts)
    (mkVerificationSummary VerificationModeInternalConsistencyOnly (rx_digest "1"%char) false false true [])
    (list_to_map ((λ a, (requestKey a, ex_entry a)) <$> pl_attempts)) (events rx_out.2) None.

(** ** The judgement *)

Definition rx_traces : TraceSetDocument := Eval vm_compute in document_of (Normalize Normalize.DefaultLimits (λ _, None) (Some rx_bundle)).
Definition rx_delta : FrozenDelta := Eval vm_compute in frozen (Compare.Compare Compare.DefaultLimits (λ _, None) (Some rx_traces)).
Definition rx_evaluation : FrozenEvaluation := Eval vm_compute in evaluation (Evaluate Policy.DefaultLimits (λ _, None) PolicyProfileStrict (Some rx_delta)).
Definition rx_finding : Finding := Eval vm_compute in firstFinding (ed_Findings (fe_doc rx_evaluation)).

(** The base accepts the finding until February 2024. *)
Definition rx_waiver_load : YamlLoad := λ _ _ _,
  Ok [y_waivers [y_waiver "connect" (fd_ID rx_finding) "GR-NET-001" "ops" "known `mirror`" "2024-01-01T00:00:00Z" "2024-02-01T00:00:00Z"]].
Definition rx_application : FrozenApplication := Eval vm_compute in okApplication
  (Apply rx_waiver_load DefaultApplicationLimits (λ _, None)
    (mkApplicationRequest (Some rx_evaluation) (Some pl_plan) pl_trusted (Some (λ _ _ _, Ok (ex_file ex_base_bytes))) ex_now)).

(** ** The report *)

Definition no_report : FrozenReport := mkFrozenReport (buildDocument rx_bundle rx_delta rx_application) [] "".
Definition report_or_none (r : result ReportError FrozenReport) : FrozenReport := match r with Ok r => r | Err _ => no_report end.
Definition rx_report : FrozenReport := Eval vm_compute in
  report_or_none (Report.Build Report.DefaultLimits None (request_of rx_bundle rx_delta rx_application)).
Lemma rx_report_ok : Report.Build Report.DefaultLimits None (request_of rx_bundle rx_delta rx_application) = Ok rx_report.
Proof. vm_compute. reflexivity. Qed.

(** The finding is waived, and that is a notice. *)
Example rx_report_values :
  (ps_OverallEffectiveDisposition (doc_Policy (frp_doc rx_report)), nt_Code <$> doc_Notices (frp_doc rx_report),
   length (bs_Records (doc_Behavior (frp_doc rx_report))))
  = (DispositionPassed,
     [NoticeDevelopmentOnlyRunner; NoticeInternalConsistencyOnlyManifestVerification; NoticeObserverLimitationsPresent;
      NoticePassedNotProofOfSafety; NoticeWaiversApplied], 1%nat).
Proof. vm_compute. reflexivity. Qed.

(** The delta of another run, and there is no report. *)
Example rx_other_delta :
  Report.Build Report.DefaultLimits None (request_of rx_bundle ex_diff_delta rx_application)
  = Err (Report.errCode "manifest-digest-mismatch" "binding" "manifestDigest").
Proof. vm_compute. reflexivity. Qed.

(** What the name of the host looks like. *)
Definition rx_shown : bytes := to_bytes "evil`\x0A\u{0023} Passed ``` ".
Example rx_span : of_bytes (markdownCodeSpan rx_shown) = "```` evil`\x0A\u{0023} Passed ```  ````"%string.
Proof. reflexivity. Qed.

Definition rendered (r : result ReportError RenderedOutput) : RenderedOutput := match r with Ok o => o | Err _ => mkRenderedOutput "" [] "" end.
Definition rx_terminal : RenderedOutput := Eval vm_compute in rendered (RenderTerminal None (Some rx_report) DefaultRenderLimits).
Definition rx_markdown : RenderedOutput := Eval vm_compute in rendered (RenderMarkdown None (Some rx_report) DefaultRenderLimits).
Lemma rx_terminal_ok : RenderTerminal None (Some rx_report) DefaultRenderLimits = Ok rx_terminal.
Proof. vm_compute. reflexivity. Qed.

Example rx_markdown_line :
  existsb (λ l, of_bytes l == "- ` network destination `: ```` evil`\x0A\u{0023} Passed ```  ````"%string) (split_on LF (ro_Bytes rx_markdown)) = true.
Proof. vm_compute. reflexivity. Qed.

(** The least integer has no digits. *)
Example least_integer : intText (- 2 ^ 63) = "-"%string ∧ intText (- 2 ^ 63 + 1) = "-9223372036854775807"%string.
Proof. split; reflexivity. Qed.

(** ** Witnesses *)

Lemma display_faithful_witness : printable rx_shown.
Proof.
  exact (proj2 (display_faithful (to_bytes rx_host) (to_bytes rx_host) DefaultRenderLimits DefaultRenderLimits rx_shown
    ltac:(vm_compute; reflexivity) ltac:(vm_compute; reflexivity))).
Defined.

Lemma report_binds_witness : bd_RunID (fz_doc rx_delta) = "run-1"%string ∧ frp_digest rx_report = Framing.digestBytes reportJSONDomain (frp_json rx_report).
Proof.
  destruct (report_binds _ _ _ _ _ _ rx_report_ok) as ((_ & _ & H & _) & _ & _ & _ & _ & _ & _ & _ & Hd). split; [exact H|exact Hd].
Defined.

Lemma report_complete_witness :
  length (ps_AppliedFindings (doc_Policy (frp_doc rx_report))) = length (ad_AppliedFindings (fa_doc rx_application)) ∧
  bool_decide (NoticeWaiversApplied ∈ nt_Code <$> doc_Notices (frp_doc rx_report)) = true.
Proof.
  destruct (report_complete _ _ _ _ _ _ rx_report_ok) as (H & _ & _ & Hn & _). split.
  - rewrite H, length_fmap. apply length_fmap.
  - apply bool_decide_eq_true, list_elem_of_fmap.
    exists (mkNotice NoticeWaiversApplied (noticeText NoticeWaiversApplied)). split; [reflexivity|]. apply Hn.
    split; [|reflexivity]. apply warrants_waivers. left. vm_compute. reflexivity.
Defined.

Lemma terminal_inert_witness : ∃ lines, split_on LF (ro_Bytes rx_terminal) = lines ++ [[]] ∧ Forall printable lines.
Proof.
  destruct (terminal_inert _ _ _ _ None DefaultRenderLimits rx_report_ok) as [_ H].
  destruct (H rx_terminal rx_terminal_ok) as (lines & H1 & _ & H2 & _). exists lines. split; [exact H1|exact H2].
Defined.

