(* ===== verification/BundleWriter.v ===== *)
(** * Writing an evidence bundle ([internal/evidence]: the session)

    A session records what a run observes in a staging directory: the plan, the lines of
    the events of every attempt, its logs, its artifacts; a commit writes the results and
    the manifest and renames the directory.  The definitions follow [limits.go],
    [path.go], [digest.go], [writer.go], [session.go], [logs.go], [artifacts.go] and
    [manifest.go].

    The state of a session holds the parent directory, as names and what they hold; a
    system call is answered by the operating system ([Os]), which is asked with the
    number of the call: it succeeds, or it fails, a write after it wrote some bytes. *)

From stdpp Require Import prelude gmap strings.
From Stdlib Require Import ZArith Lia Ascii.
From S2P Require Import Prelude GoStd Sha256 Framing GoTime Model Json GoText GoPath Event Plan Runner Evidence.
Local Open Scope Z_scope.

(** ** [errors.go], [limits.go] *)

Record WriteError := mkWriteError { we_Code : string; we_Stage : string; we_Op : string; we_Attempt : string; we_Path : string }.
Definition errCode (code stage op : string) : WriteError := mkWriteError code stage op "" "".
Definition pathErr (code stage op path : string) : WriteError := mkWriteError code stage op "" path.
Definition attemptErr (code stage op attempt : string) : WriteError := mkWriteError code stage op attempt "".
Definition contextErr (c : CtxCause) : WriteError :=
  match c with DeadlineExceeded => errCode "write-timeout" "context" "deadline" | Canceled => errCode "context-cancelled" "context" "cancelled" end.

Record Limits := mkLimits {
  l_MaxAttempts : Z;
  l_MaxBundleEntries : Z;
  l_MaxBundleBytes : Z;
  l_MaxManifestBytes : Z;
  l_MaxManifestEntries : Z;
  l_MaxEventJSONBytes : Z;
  l_MaxEventsPerAttempt : Z;
  l_MaxEventsPerBundle : Z;
  l_MaxEventStreamBytesPerAttempt : Z;
  l_MaxLogBytesPerStream : Z;
  l_MaxTotalLogBytes : Z;
  l_MaxArtifactsPerAttempt : Z;
  l_MaxArtifactsPerBundle : Z;
  l_MaxSingleArtifactBytes : Z;
  l_MaxTotalArtifactBytes : Z;
  l_MaxArtifactIndexBytes : Z;
  l_MaxLimitations : Z;
  l_MaxLimitationCodeBytes : Z;
  l_MaxLimitationMessageBytes : Z;
  l_MaxLogicalPathBytes : Z;
  l_MaxPhysicalEntryPathBytes : Z;
  l_MaxDuration : Z
}.
Definition MaxLogicalPathBytes : Z := 4096.
Definition MaxPhysicalEntryPathBytes : Z := 4096.
Definition DefaultLimits : Limits :=
  mkLimits 1280 250000 (16 * 2 ^ 30) (64 * 2 ^ 20) 250000 (256 * 2 ^ 10) 10000 100000 (2 * 2 ^ 30) (100 * 2 ^ 20) (4 * 2 ^ 30) 1000 10000
    (2 ^ 30) (8 * 2 ^ 30) (64 * 2 ^ 20) 1000 128 (2 ^ 10) MaxLogicalPathBytes MaxPhysicalEntryPathBytes (600 * nanos_per_second).
Definition limitFields : list (Limits → Z) := [
  l_MaxAttempts; l_MaxBundleEntries; l_MaxBundleBytes; l_MaxManifestBytes; l_MaxManifestEntries; l_MaxEventJSONBytes; l_MaxEventsPerAttempt;
  l_MaxEventsPerBundle; l_MaxEventStreamBytesPerAttempt; l_MaxLogBytesPerStream; l_MaxTotalLogBytes; l_MaxArtifactsPerAttempt;
  l_MaxArtifactsPerBundle; l_MaxSingleArtifactBytes; l_MaxTotalArtifactBytes; l_MaxArtifactIndexBytes; l_MaxLimitations;
  l_MaxLimitationCodeBytes; l_MaxLimitationMessageBytes; l_MaxLogicalPathBytes; l_MaxPhysicalEntryPathBytes; l_MaxDuration].
Definition validateLimits (l : Limits) : result WriteError unit :=
  reject_if (existsb (λ f, (f l <=? 0) || (f DefaultLimits <? f l)) limitFields) (errCode "invalid-limits" "limits" "validate").

(** ** [path.go] *)

Definition containsControl (s : string) : bool := existsb (λ r, (r <? 32) || (r == 127)) (rune_values s).
Definition bad_segment (p : bytes) : bool := bool_decide (p = [] ∨ p = to_bytes "." ∨ p = to_bytes "..").
Definition validRelativePath (p : string) (max : Z) (allowDot : bool) : bool :=
  if (p == ""%string) || (max <? str_len p) || negb (utf8_valid (to_bytes p)) || has_prefix "/" p || has_byte (byte_of 0) (to_bytes p)
     || containsControl p || has_byte c_backslash (to_bytes p) then false
  else if p == "."%string then allowDot
  else if path_clean (to_bytes p) != to_bytes p then false
  else negb (existsb bad_segment (split_on slash (to_bytes p))).
Definition ValidateEvidenceEntryPath (p : string) : result WriteError unit :=
  reject_if (negb (validRelativePath p MaxPhysicalEntryPathBytes false)) (pathErr "invalid-entry-path" "path" "validate" p).
Definition ValidateLogicalArtifactPath (p : string) : result WriteError unit :=
  let bad := pathErr "invalid-artifact" "artifact" "logical-path" p in
  reject_if ((p == ""%string) || (MaxLogicalPathBytes <? str_len p) || negb (utf8_valid (to_bytes p)) || has_byte (byte_of 0) (to_bytes p)
             || containsControl p || has_byte c_backslash (to_bytes p)) bad ;;
  reject_if (path_clean (to_bytes p) != to_bytes p) bad ;;
  reject_if (existsb bad_segment (split_on slash (to_bytes (if has_prefix "/" p then str_drop 1 p else p)))) bad.

Definition is_lower (r : Z) : bool := (97 <=? r) && (r <=? 122).
Definition is_digit_rune (r : Z) : bool := (48 <=? r) && (r <=? 57).
Definition validScenarioID (id : string) : bool :=
  if (id == ""%string) || (64 <? str_len id) || negb (utf8_valid (to_bytes id)) then false
  else match rune_values id with
       | r :: rest => is_lower r && forallb (λ r, is_lower r || is_digit_rune r || (r == 46) || (r == 95) || (r == 45)) rest
       | [] => true
       end.

(** A [uint32] in decimal, and in at least four digits. *)
Definition uintToString (n : Z) : string := fmt_d n.
Definition zeroPad4 (n : Z) : string :=
  if 9999 <? n then "repetition-overflow" else let s := to_bytes ("0000" +:+ uintToString n) in of_bytes (drop (length s - 4) s).
Definition repetitionDir (n : Z) : string := "repetition-" +:+ zeroPad4 n.
Definition attemptDir (key : AttemptKey) : string :=
  "attempts/" +:+ ak_Revision key +:+ "/" +:+ ak_ScenarioID key +:+ "/" +:+ repetitionDir (ak_Repetition key).

(** ** [digest.go] *)

Definition manifestDigestDomain : string := "glassroot.dev/evidence-manifest-json/v1" +:+ NUL.
(** Without a domain: the digest of a file. *)
Definition digestBytes (data : bytes) : Digest := "sha256:" +:+ sha256_hex data.
Definition manifestDigest (data : bytes) : Digest := Framing.digestBytes manifestDigestDomain data.
Definition planJSONDigest (data : bytes) : Digest := DigestRunPlanJSON data.
Definition expectedEventID (planDigest : Digest) (runID : string) (seq : Z) : string := eventID planDigest runID seq.
Definition validDigest (d : Digest) : bool :=
  negb ((str_len d != 71) || negb (has_prefix "sha256:" d)) && str_forallb is_lower_hex_digit (str_drop 7 d).

(** ** [types.go]: the documents that are written, and what a session is given *)

Abbreviation State := string.
Definition StateActive : State := "active".
Definition StateFailed : State := "failed".
Definition StateCommitting : State := "committing".
Definition StateCommitted : State := "committed".
Definition StateAborted : State := "aborted".
Inductive LogStream := LogStreamStdout | LogStreamStderr.
#[global] Instance LogStream_eq_dec : EqDecision LogStream.
Proof. solve_decision. Defined.
Definition streamName (s : LogStream) : string := match s with LogStreamStdout => "stdout" | LogStreamStderr => "stderr" end.

Definition EntryRolePlan : EntryRole := "plan".
Definition EntryRoleExecutionResult : EntryRole := "execution-result".
Definition EntryRoleAttemptResult : EntryRole := "attempt-result".
Definition EntryRoleEvents : EntryRole := "events".
Definition EntryRoleStdout : EntryRole := "stdout".
Definition EntryRoleStderr : EntryRole := "stderr".
Definition EntryRoleArtifactIndex : EntryRole := "artifact-index".
Definition EntryRoleArtifactObject : EntryRole := "artifact-object".
Definition BundleFormatV1Alpha1 : string := "directory-v1alpha1".

Record Completion := mkCompletion { cmp_Execution : ExecutionResult; cmp_Failure : option FailureRecord; cmp_Incomplete : bool }.
Record BundleResult := mkBundleResult {
  br_Path : string;
  br_ManifestDigest : Digest;
  br_ManifestBytes : bytes;
  br_EntryCount : Z;
  br_TotalBytes : Z
}.
(** What a [Read] returns: bytes, and nothing, the end, or an error.  A reader is the
    list of its answers; after them it is at its end. *)
Inductive ReadEnd := ReadMore | ReadEOF | ReadFailed.
Record ArtifactInput := mkArtifactInput {
  ai_Attempt : AttemptKey;
  ai_LogicalPath : string;
  ai_DeclaredSize : option Z;
  ai_MaxBytes : Z;
  ai_Reader : option (list (bytes * ReadEnd));
  ai_MediaType : string;
  ai_Executable : bool;
  ai_SourceMode : Z
}.
Record ArtifactOmissionInput := mkArtifactOmissionInput {
  oi_Attempt : AttemptKey;
  oi_LogicalPath : string;
  oi_Disposition : ArtifactDisposition;
  oi_DeclaredSize : option Z;
  oi_ObservedAtLeast : Z;
  oi_MediaType : string;
  oi_Executable : bool;
  oi_SourceMode : Z;
  oi_Limitations : list Limitation
}.
Record AttemptResultDocument := mkAttemptResultDocument {
  rd_SchemaVersion : SchemaVersion;
  rd_Summary : AttemptExecutionSummary
}.

Definition json_of_AttemptKey (k : AttemptKey) : json := JObj (j_fields [
  (false, "revision"%string, JStr (ak_Revision k));
  (false, "scenarioId"%string, JStr (ak_ScenarioID k));
  (false, "repetition"%string, JNum (ak_Repetition k))]).
Definition json_of_FailureRecord (f : FailureRecord) : json := JObj (j_fields [
  (false, "code"%string, JStr (fr_Code f));
  (false, "stage"%string, JStr (fr_Stage f));
  (ze_str (fr_AttemptID f), "attemptId"%string, JStr (fr_AttemptID f));
  (false, "message"%string, JStr (fr_Message f));
  (false, "category"%string, JStr (fr_Category f))]).
Definition json_of_ManifestEntry (e : ManifestEntry) : json := JObj (j_fields [
  (false, "path"%string, JStr (me_Path e));
  (false, "role"%string, JStr (me_Role e));
  (false, "mediaType"%string, JStr (me_MediaType e));
  (false, "digest"%string, JStr (me_Digest e));
  (false, "sizeBytes"%string, JNum (me_SizeBytes e));
  (ze_str (me_Revision e), "revision"%string, JStr (me_Revision e));
  (ze_str (me_ScenarioID e), "scenarioId"%string, JStr (me_ScenarioID e));
  (ze_num (me_Repetition e), "repetition"%string, JNum (me_Repetition e));
  (ze_str (me_CaptureState e), "captureState"%string, JStr (me_CaptureState e));
  (negb (me_Truncated e), "truncated"%string, JBool (me_Truncated e));
  (negb (me_Omitted e), "omitted"%string, JBool (me_Omitted e));
  (ze_num (me_ObservedBytes e), "observedBytes"%string, JNum (me_ObservedBytes e));
  (ze_num (me_ObservedBytesAtLeast e), "observedBytesAtLeast"%string, JNum (me_ObservedBytesAtLeast e))]).
Definition json_of_AttemptManifest (a : AttemptManifest) : json := JObj (j_fields [
  (false, "attemptId"%string, JStr (am_AttemptID a));
  (false, "ordinal"%string, JNum (am_Ordinal a));
  (false, "revision"%string, JStr (am_Revision a));
  (false, "scenarioId"%string, JStr (am_ScenarioID a));
  (false, "repetition"%string, JNum (am_Repetition a));
  (false, "directory"%string, JStr (am_Directory a));
  (false, "events"%string, JStr (am_Events a));
  (false, "stdout"%string, JStr (am_Stdout a));
  (false, "stderr"%string, JStr (am_Stderr a));
  (false, "artifacts"%string, JStr (am_Artifacts a));
  (false, "result"%string, JStr (am_Result a));
  (ze_num (am_FirstEventSequence a), "firstEventSequence"%string, JNum (am_FirstEventSequence a));
  (ze_num (am_LastEventSequence a), "lastEventSequence"%string, JNum (am_LastEventSequence a));
  (false, "acceptedEventCount"%string, JNum (am_AcceptedEventCount a))]).
Definition json_of_ArtifactRecord (r : ArtifactRecord) : json := JObj (j_fields [
  (false, "logicalPath"%string, JStr (arr_LogicalPath r));
  (false, "attempt"%string, json_of_AttemptKey (arr_Attempt r));
  (false, "disposition"%string, JStr (arr_Disposition r));
  (ze_str (arr_Digest r), "digest"%string, JStr (arr_Digest r));
  (ze_num (arr_StoredSizeBytes r), "storedSizeBytes"%string, JNum (arr_StoredSizeBytes r));
  (ze_ptr (arr_DeclaredSize r), "declaredSizeBytes"%string, j_ptr JNum (arr_DeclaredSize r));
  (ze_num (arr_ObservedAtLeast r), "observedBytesAtLeast"%string, JNum (arr_ObservedAtLeast r));
  (ze_str (arr_ObjectPath r), "objectPath"%string, JStr (arr_ObjectPath r));
  (ze_str (arr_MediaType r), "mediaType"%string, JStr (arr_MediaType r));
  (negb (arr_Executable r), "executable"%string, JBool (arr_Executable r));
  (ze_num (arr_SourceMode r), "sourceMode"%string, JNum (arr_SourceMode r));
  (false, "limitations"%string, JArr (json_of_Limitation <$> arr_Limitations r))]).
Definition json_of_Manifest (m : Manifest) : json := JObj (j_fields [
  (false, "schemaVersion"%string, JStr (mf_SchemaVersion m));
  (false, "id"%string, JStr (mf_ID m));
  (false, "runId"%string, JStr (mf_RunID m));
  (false, "createdAt"%string, j_time (mf_CreatedAt m));
  (false, "bundleFormatVersion"%string, JStr (mf_BundleFormatVersion m));
  (false, "planDigest"%string, JStr (mf_PlanDigest m));
  (false, "executionComplete"%string, JBool (mf_ExecutionComplete m));
  (false, "evidenceComplete"%string, JBool (mf_EvidenceComplete m));
  (false, "bundleTransactionValid"%string, JBool (mf_BundleTransactionValid m));
  (false, "entries"%string, JArr (json_of_ManifestEntry <$> mf_Entries m));
  (false, "artifacts"%string, JArr (json_of_ArtifactRecord <$> mf_Artifacts m));
  (false, "attempts"%string, JArr (json_of_AttemptManifest <$> mf_Attempts m));
  (false, "limitations"%string, JArr (json_of_Limitation <$> mf_Limitations m));
  (ze_ptr (mf_Failure m), "failure"%string, j_ptr json_of_FailureRecord (mf_Failure m))]).
Definition summaryFields (s : AttemptExecutionSummary) : list (bool * string * json) := [
  (false, "attemptId"%string, JStr (aes_AttemptID s));
  (false, "revision"%string, JStr (aes_Revision s));
  (false, "scenarioId"%string, JStr (aes_ScenarioID s));
  (false, "repetition"%string, JNum (aes_Repetition s));
  (false, "targetOutcome"%string, JStr (aes_TargetOutcome s));
  (ze_ptr (aes_ExitCode s), "exitCode"%string, j_ptr JNum (aes_ExitCode s));
  (false, "durationMillis"%string, JNum (aes_DurationMillis s));
  (false, "firstAcceptedSequence"%string, JNum (aes_FirstAcceptedSequence s));
  (false, "lastAcceptedSequence"%string, JNum (aes_LastAcceptedSequence s));
  (false, "acceptedEventCount"%string, JNum (aes_AcceptedEventCount s));
  (false, "limitations"%string, JArr (json_of_Limitation <$> aes_Limitations s))].
Definition json_of_AttemptExecutionSummary (s : AttemptExecutionSummary) : json := JObj (j_fields (summaryFields s)).
Definition json_of_AttemptResultDocument (d : AttemptResultDocument) : json :=
  JObj (j_fields ((false, "schemaVersion"%string, JStr (rd_SchemaVersion d)) :: summaryFields (rd_Summary d))).
Definition json_of_ExecutionDocument (d : ExecutionDocument) : json := JObj (j_fields [
  (false, "schemaVersion"%string, JStr (xd_SchemaVersion d));
  (false, "runId"%string, JStr (xd_RunID d));
  (false, "planDigest"%string, JStr (xd_PlanDigest d));
  (false, "runner"%string, json_of_RunnerCapabilities (xd_Runner d));
  (false, "executionComplete"%string, JBool (xd_ExecutionComplete d));
  (false, "evidenceComplete"%string, JBool (xd_EvidenceComplete d));
  (false, "bundleTransactionValid"%string, JBool (xd_BundleTransactionValid d));
  (false, "totalAcceptedEvents"%string, JNum (xd_TotalAcceptedEvents d));
  (false, "attempts"%string, JArr (json_of_AttemptExecutionSummary <$> xd_Attempts d));
  (false, "limitations"%string, JArr (json_of_Limitation <$> xd_Limitations d));
  (ze_ptr (xd_Failure d), "failure"%string, j_ptr json_of_FailureRecord (xd_Failure d))]).
Definition json_of_ArtifactIndex (key : AttemptKey) (artifacts : list ArtifactRecord) : json := JObj (j_fields [
  (false, "schemaVersion"%string, JStr SchemaVersionArtifactIndexV1Alpha1);
  (false, "attempt"%string, json_of_AttemptKey key);
  (false, "artifacts"%string, JArr (json_of_ArtifactRecord <$> artifacts))]).

(** ** The state of a session ([session.go], [logs.go]) *)

(** A directory: its files, and the directories below it, by relative path. *)
Record Dir := mkDir { d_files : gmap string bytes; d_dirs : gset string }.
Definition emptyDir : Dir := mkDir ∅ ∅.

(** A log that was opened; [lc_hash] is what the hash buffer holds. *)
Record LogCapture := mkLogCapture {
  lc_path : string;
  lc_limit : Z;
  lc_stored : Z;
  lc_observed : Z;
  lc_hash : bytes;
  lc_truncated : bool;
  lc_closed : bool
}.
(** [sa_eventsOpen] says that there is an open file of events. *)
Record attemptState := mkAttempt {
  sa_key : AttemptKey;
  sa_attemptID : string;
  sa_ordinal : Z;
  sa_dir : string;
  sa_eventsOpen : bool;
  sa_eventsHash : bytes;
  sa_eventsBytes : Z;
  sa_eventsCount : Z;
  sa_firstSeq : Z;
  sa_lastSeq : Z;
  sa_eventsState : CaptureState;
  sa_stdoutState : CaptureState;
  sa_stderrState : CaptureState;
  sa_artifactsState : CaptureState;
  sa_resultState : CaptureState;
  sa_stdout : option LogCapture;
  sa_stderr : option LogCapture;
  sa_artifactRecords : list ArtifactRecord
}.
(** Fields that the code sets and never reads, and the limitations, which it reads and
    never sets, are left out. *)
Record Session := mkSession {
  ss_parent : gmap string Dir;
  ss_state : State;
  ss_staging : string;
  ss_final : string;
  ss_runID : string;
  ss_createdAt : Time;
  ss_planDigest : Digest;
  ss_attempts : gmap string attemptState;
  ss_attemptOrder : list string;
  ss_currentAttempt : Z;
  ss_nextSequence : Z;
  ss_eventIDs : gset string;
  ss_entries : list ManifestEntry;
  ss_payloads : gset string;
  ss_artifactRecords : list ArtifactRecord;
  ss_objectDigests : gmap Digest string;
  ss_artifactLogical : gset string;
  ss_evidenceIncomplete : bool;
  ss_failed : option WriteError;
  ss_totalBytes : Z;
  ss_totalEvents : Z;
  ss_totalLogBytes : Z;
  ss_totalArtifactBytes : Z
}.

(** Assignments to a field. *)
Definition set_parent (v : gmap string Dir) (s : Session) : Session :=
  mkSession v (ss_state s) (ss_staging s) (ss_final s) (ss_runID s) (ss_createdAt s) (ss_planDigest s) (ss_attempts s) (ss_attemptOrder s)
    (ss_currentAttempt s) (ss_nextSequence s) (ss_eventIDs s) (ss_entries s) (ss_payloads s) (ss_artifactRecords s) (ss_objectDigests s)
    (ss_artifactLogical s) (ss_evidenceIncomplete s) (ss_failed s) (ss_totalBytes s) (ss_totalEvents s) (ss_totalLogBytes s)
    (ss_totalArtifactBytes s).
Definition set_state (v : State) (s : Session) : Session :=
  mkSession (ss_parent s) v (ss_staging s) (ss_final s) (ss_runID s) (ss_createdAt s) (ss_planDigest s) (ss_attempts s)
    (ss_attemptOrder s) (ss_currentAttempt s) (ss_nextSequence s) (ss_eventIDs s) (ss_entries s) (ss_payloads s) (ss_artifactRecords s)
    (ss_objectDigests s) (ss_artifactLogical s) (ss_evidenceIncomplete s) (ss_failed s) (ss_totalBytes s) (ss_totalEvents s)
    (ss_totalLogBytes s) (ss_totalArtifactBytes s).
Definition set_staging (v : string) (s : Session) : Session :=
  mkSession (ss_parent s) (ss_state s) v (ss_final s) (ss_runID s) (ss_createdAt s) (ss_planDigest s) (ss_attempts s) (ss_attemptOrder s)
    (ss_currentAttempt s) (ss_nextSequence s) (ss_eventIDs s) (ss_entries s) (ss_payloads s) (ss_artifactRecords s) (ss_objectDigests s)
    (ss_artifactLogical s) (ss_evidenceIncomplete s) (ss_failed s) (ss_totalBytes s) (ss_totalEvents s) (ss_totalLogBytes s)
    (ss_totalArtifactBytes s).
Definition set_final (v : string) (s : Session) : Session :=
  mkSession (ss_parent s) (ss_state s) (ss_staging s) v (ss_runID s) (ss_createdAt s) (ss_planDigest s) (ss_attempts s)
    (ss_attemptOrder s) (ss_currentAttempt s) (ss_nextSequence s) (ss_eventIDs s) (ss_entries s) (ss_payloads s) (ss_artifactRecords s)
    (ss_objectDigests s) (ss_artifactLogical s) (ss_evidenceIncomplete s) (ss_failed s) (ss_totalBytes s) (ss_totalEvents s)
    (ss_totalLogBytes s) (ss_totalArtifactBytes s).
Definition set_attempts (v : gmap string attemptState) (s : Session) : Session :=
  mkSession (ss_parent s) (ss_state s) (ss_staging s) (ss_final s) (ss_runID s) (ss_createdAt s) (ss_planDigest s) v (ss_attemptOrder s)
    (ss_currentAttempt s) (ss_nextSequence s) (ss_eventIDs s) (ss_entries s) (ss_payloads s) (ss_artifactRecords s) (ss_objectDigests s)
    (ss_artifactLogical s) (ss_evidenceIncomplete s) (ss_failed s) (ss_totalBytes s) (ss_totalEvents s) (ss_totalLogBytes s)
    (ss_totalArtifactBytes s).
Definition set_attemptOrder (v : list string) (s : Session) : Session :=
  mkSession (ss_parent s) (ss_state s) (ss_staging s) (ss_final s) (ss_runID s) (ss_createdAt s) (ss_planDigest s) (ss_attempts s) v
    (ss_currentAttempt s) (ss_nextSequence s) (ss_eventIDs s) (ss_entries s) (ss_payloads s) (ss_artifactRecords s) (ss_objectDigests s)
    (ss_artifactLogical s) (ss_evidenceIncomplete s) (ss_failed s) (ss_totalBytes s) (ss_totalEvents s) (ss_totalLogBytes s)
    (ss_totalArtifactBytes s).
Definition set_currentAttempt (v : Z) (s : Session) : Session :=
  mkSession (ss_parent s) (ss_state s) (ss_staging s) (ss_final s) (ss_runID s) (ss_createdAt s) (ss_planDigest s) (ss_attempts s)
    (ss_attemptOrder s) v (ss_nextSequence s) (ss_eventIDs s) (ss_entries s) (ss_payloads s) (ss_artifactRecords s) (ss_objectDigests s)
    (ss_artifactLogical s) (ss_evidenceIncomplete s) (ss_failed s) (ss_totalBytes s) (ss_totalEvents s) (ss_totalLogBytes s)
    (ss_totalArtifactBytes s).
Definition set_nextSequence (v : Z) (s : Session) : Session :=
  mkSession (ss_parent s) (ss_state s) (ss_staging s) (ss_final s) (ss_runID s) (ss_createdAt s) (ss_planDigest s) (ss_attempts s)
    (ss_attemptOrder s) (ss_currentAttempt s) v (ss_eventIDs s) (ss_entries s) (ss_payloads s) (ss_artifactRecords s) (ss_objectDigests s)
    (ss_artifactLogical s) (ss_evidenceIncomplete s) (ss_failed s) (ss_totalBytes s) (ss_totalEvents s) (ss_totalLogBytes s)
    (ss_totalArtifactBytes s).
Definition set_eventIDs (v : gset string) (s : Session) : Session :=
  mkSession (ss_parent s) (ss_state s) (ss_staging s) (ss_final s) (ss_runID s) (ss_createdAt s) (ss_planDigest s) (ss_attempts s)
    (ss_attemptOrder s) (ss_currentAttempt s) (ss_nextSequence s) v (ss_entries s) (ss_payloads s) (ss_artifactRecords s)
    (ss_objectDigests s) (ss_artifactLogical s) (ss_evidenceIncomplete s) (ss_failed s) (ss_totalBytes s) (ss_totalEvents s)
    (ss_totalLogBytes s) (ss_totalArtifactBytes s).
Definition set_entries (v : list ManifestEntry) (s : Session) : Session :=
  mkSession (ss_parent s) (ss_state s) (ss_staging s) (ss_final s) (ss_runID s) (ss_createdAt s) (ss_planDigest s) (ss_attempts s)
    (ss_attemptOrder s) (ss_currentAttempt s) (ss_nextSequence s) (ss_eventIDs s) v (ss_payloads s) (ss_artifactRecords s)
    (ss_objectDigests s) (ss_artifactLogical s) (ss_evidenceIncomplete s) (ss_failed s) (ss_totalBytes s) (ss_totalEvents s)
    (ss_totalLogBytes s) (ss_totalArtifactBytes s).
Definition set_payloads (v : gset string) (s : Session) : Session :=
  mkSession (ss_parent s) (ss_state s) (ss_staging s) (ss_final s) (ss_runID s) (ss_createdAt s) (ss_planDigest s) (ss_attempts s)
    (ss_attemptOrder s) (ss_currentAttempt s) (ss_nextSequence s) (ss_eventIDs s) (ss_entries s) v (ss_artifactRecords s)
    (ss_objectDigests s) (ss_artifactLogical s) (ss_evidenceIncomplete s) (ss_failed s) (ss_totalBytes s) (ss_totalEvents s)
    (ss_totalLogBytes s) (ss_totalArtifactBytes s).
Definition set_artifactRecords (v : list ArtifactRecord) (s : Session) : Session :=
  mkSession (ss_parent s) (ss_state s) (ss_staging s) (ss_final s) (ss_runID s) (ss_createdAt s) (ss_planDigest s) (ss_attempts s)
    (ss_attemptOrder s) (ss_currentAttempt s) (ss_nextSequence s) (ss_eventIDs s) (ss_entries s) (ss_payloads s) v (ss_objectDigests s)
    (ss_artifactLogical s) (ss_evidenceIncomplete s) (ss_failed s) (ss_totalBytes s) (ss_totalEvents s) (ss_totalLogBytes s)
    (ss_totalArtifactBytes s).
Definition set_objectDigests (v : gmap Digest string) (s : Session) : Session :=
  mkSession (ss_parent s) (ss_state s) (ss_staging s) (ss_final s) (ss_runID s) (ss_createdAt s) (ss_planDigest s) (ss_attempts s)
    (ss_attemptOrder s) (ss_currentAttempt s) (ss_nextSequence s) (ss_eventIDs s) (ss_entries s) (ss_payloads s) (ss_artifactRecords s) v
    (ss_artifactLogical s) (ss_evidenceIncomplete s) (ss_failed s) (ss_totalBytes s) (ss_totalEvents s) (ss_totalLogBytes s)
    (ss_totalArtifactBytes s).
Definition set_artifactLogical (v : gset string) (s : Session) : Session :=
  mkSession (ss_parent s) (ss_state s) (ss_staging s) (ss_final s) (ss_runID s) (ss_createdAt s) (ss_planDigest s) (ss_attempts s)
    (ss_attemptOrder s) (ss_currentAttempt s) (ss_nextSequence s) (ss_eventIDs s) (ss_entries s) (ss_payloads s) (ss_artifactRecords s)
    (ss_objectDigests s) v (ss_evidenceIncomplete s) (ss_failed s) (ss_totalBytes s) (ss_totalEvents s) (ss_totalLogBytes s)
    (ss_totalArtifactBytes s).
Definition set_evidenceIncomplete (v : bool) (s : Session) : Session :=
  mkSession (ss_parent s) (ss_state s) (ss_staging s) (ss_final s) (ss_runID s) (ss_createdAt s) (ss_planDigest s) (ss_attempts s)
    (ss_attemptOrder s) (ss_currentAttempt s) (ss_nextSequence s) (ss_eventIDs s) (ss_entries s) (ss_payloads s) (ss_artifactRecords s)
    (ss_objectDigests s) (ss_artifactLogical s) v (ss_failed s) (ss_totalBytes s) (ss_totalEvents s) (ss_totalLogBytes s)
    (ss_totalArtifactBytes s).
Definition set_failed (v : option WriteError) (s : Session) : Session :=
  mkSession (ss_parent s) (ss_state s) (ss_staging s) (ss_final s) (ss_runID s) (ss_createdAt s) (ss_planDigest s) (ss_attempts s)
    (ss_attemptOrder s) (ss_currentAttempt s) (ss_nextSequence s) (ss_eventIDs s) (ss_entries s) (ss_payloads s) (ss_artifactRecords s)
    (ss_objectDigests s) (ss_artifactLogical s) (ss_evidenceIncomplete s) v (ss_totalBytes s) (ss_totalEvents s) (ss_totalLogBytes s)
    (ss_totalArtifactBytes s).
Definition set_totalBytes (v : Z) (s : Session) : Session :=
  mkSession (ss_parent s) (ss_state s) (ss_staging s) (ss_final s) (ss_runID s) (ss_createdAt s) (ss_planDigest s) (ss_attempts s)
    (ss_attemptOrder s) (ss_currentAttempt s) (ss_nextSequence s) (ss_eventIDs s) (ss_entries s) (ss_payloads s) (ss_artifactRecords s)
    (ss_objectDigests s) (ss_artifactLogical s) (ss_evidenceIncomplete s) (ss_failed s) v (ss_totalEvents s) (ss_totalLogBytes s)
    (ss_totalArtifactBytes s).
Definition set_totalEvents (v : Z) (s : Session) : Session :=
  mkSession (ss_parent s) (ss_state s) (ss_staging s) (ss_final s) (ss_runID s) (ss_createdAt s) (ss_planDigest s) (ss_attempts s)
    (ss_attemptOrder s) (ss_currentAttempt s) (ss_nextSequence s) (ss_eventIDs s) (ss_entries s) (ss_payloads s) (ss_artifactRecords s)
    (ss_objectDigests s) (ss_artifactLogical s) (ss_evidenceIncomplete s) (ss_failed s) (ss_totalBytes s) v (ss_totalLogBytes s)
    (ss_totalArtifactBytes s).
Definition set_totalLogBytes (v : Z) (s : Session) : Session :=
  mkSession (ss_parent s) (ss_state s) (ss_staging s) (ss_final s) (ss_runID s) (ss_createdAt s) (ss_planDigest s) (ss_attempts s)
    (ss_attemptOrder s) (ss_currentAttempt s) (ss_nextSequence s) (ss_eventIDs s) (ss_entries s) (ss_payloads s) (ss_artifactRecords s)
    (ss_objectDigests s) (ss_artifactLogical s) (ss_evidenceIncomplete s) (ss_failed s) (ss_totalBytes s) (ss_totalEvents s) v
    (ss_totalArtifactBytes s).
Definition set_totalArtifactBytes (v : Z) (s : Session) : Session :=
  mkSession (ss_parent s) (ss_state s) (ss_staging s) (ss_final s) (ss_runID s) (ss_createdAt s) (ss_planDigest s) (ss_attempts s)
    (ss_attemptOrder s) (ss_currentAttempt s) (ss_nextSequence s) (ss_eventIDs s) (ss_entries s) (ss_payloads s) (ss_artifactRecords s)
    (ss_objectDigests s) (ss_artifactLogical s) (ss_evidenceIncomplete s) (ss_failed s) (ss_totalBytes s) (ss_totalEvents s)
    (ss_totalLogBytes s) v.
Definition put_eventsOpen (v : bool) (a : attemptState) : attemptState :=
  mkAttempt (sa_key a) (sa_attemptID a) (sa_ordinal a) (sa_dir a) v (sa_eventsHash a) (sa_eventsBytes a) (sa_eventsCount a)
    (sa_firstSeq a) (sa_lastSeq a) (sa_eventsState a) (sa_stdoutState a) (sa_stderrState a) (sa_artifactsState a) (sa_resultState a)
    (sa_stdout a) (sa_stderr a) (sa_artifactRecords a).
Definition put_eventsHash (v : bytes) (a : attemptState) : attemptState :=
  mkAttempt (sa_key a) (sa_attemptID a) (sa_ordinal a) (sa_dir a) (sa_eventsOpen a) v (sa_eventsBytes a) (sa_eventsCount a)
    (sa_firstSeq a) (sa_lastSeq a) (sa_eventsState a) (sa_stdoutState a) (sa_stderrState a) (sa_artifactsState a) (sa_resultState a)
    (sa_stdout a) (sa_stderr a) (sa_artifactRecords a).
Definition put_eventsBytes (v : Z) (a : attemptState) : attemptState :=
  mkAttempt (sa_key a) (sa_attemptID a) (sa_ordinal a) (sa_dir a) (sa_eventsOpen a) (sa_eventsHash a) v (sa_eventsCount a) (sa_firstSeq a)
    (sa_lastSeq a) (sa_eventsState a) (sa_stdoutState a) (sa_stderrState a) (sa_artifactsState a) (sa_resultState a) (sa_stdout a)
    (sa_stderr a) (sa_artifactRecords a).
Definition put_eventsCount (v : Z) (a : attemptState) : attemptState :=
  mkAttempt (sa_key a) (sa_attemptID a) (sa_ordinal a) (sa_dir a) (sa_eventsOpen a) (sa_eventsHash a) (sa_eventsBytes a) v (sa_firstSeq a)
    (sa_lastSeq a) (sa_eventsState a) (sa_stdoutState a) (sa_stderrState a) (sa_artifactsState a) (sa_resultState a) (sa_stdout a)
    (sa_stderr a) (sa_artifactRecords a).
Definition put_firstSeq (v : Z) (a : attemptState) : attemptState :=
  mkAttempt (sa_key a) (sa_attemptID a) (sa_ordinal a) (sa_dir a) (sa_eventsOpen a) (sa_eventsHash a) (sa_eventsBytes a)
    (sa_eventsCount a) v (sa_lastSeq a) (sa_eventsState a) (sa_stdoutState a) (sa_stderrState a) (sa_artifactsState a) (sa_resultState a)
    (sa_stdout a) (sa_stderr a) (sa_artifactRecords a).
Definition put_lastSeq (v : Z) (a : attemptState) : attemptState :=
  mkAttempt (sa_key a) (sa_attemptID a) (sa_ordinal a) (sa_dir a) (sa_eventsOpen a) (sa_eventsHash a) (sa_eventsBytes a)
    (sa_eventsCount a) (sa_firstSeq a) v (sa_eventsState a) (sa_stdoutState a) (sa_stderrState a) (sa_artifactsState a) (sa_resultState a)
    (sa_stdout a) (sa_stderr a) (sa_artifactRecords a).
Definition put_eventsState (v : CaptureState) (a : attemptState) : attemptState :=
  mkAttempt (sa_key a) (sa_attemptID a) (sa_ordinal a) (sa_dir a) (sa_eventsOpen a) (sa_eventsHash a) (sa_eventsBytes a)
    (sa_eventsCount a) (sa_firstSeq a) (sa_lastSeq a) v (sa_stdoutState a) (sa_stderrState a) (sa_artifactsState a) (sa_resultState a)
    (sa_stdout a) (sa_stderr a) (sa_artifactRecords a).
Definition put_artifactsState (v : CaptureState) (a : attemptState) : attemptState :=
  mkAttempt (sa_key a) (sa_attemptID a) (sa_ordinal a) (sa_dir a) (sa_eventsOpen a) (sa_eventsHash a) (sa_eventsBytes a)
    (sa_eventsCount a) (sa_firstSeq a) (sa_lastSeq a) (sa_eventsState a) (sa_stdoutState a) (sa_stderrState a) v (sa_resultState a)
    (sa_stdout a) (sa_stderr a) (sa_artifactRecords a).
Definition put_resultState (v : CaptureState) (a : attemptState) : attemptState :=
  mkAttempt (sa_key a) (sa_attemptID a) (sa_ordinal a) (sa_dir a) (sa_eventsOpen a) (sa_eventsHash a) (sa_eventsBytes a)
    (sa_eventsCount a) (sa_firstSeq a) (sa_lastSeq a) (sa_eventsState a) (sa_stdoutState a) (sa_stderrState a) (sa_artifactsState a) v
    (sa_stdout a) (sa_stderr a) (sa_artifactRecords a).
Definition put_artifactRecords (v : list ArtifactRecord) (a : attemptState) : attemptState :=
  mkAttempt (sa_key a) (sa_attemptID a) (sa_ordinal a) (sa_dir a) (sa_eventsOpen a) (sa_eventsHash a) (sa_eventsBytes a)
    (sa_eventsCount a) (sa_firstSeq a) (sa_lastSeq a) (sa_eventsState a) (sa_stdoutState a) (sa_stderrState a) (sa_artifactsState a)
    (sa_resultState a) (sa_stdout a) (sa_stderr a) v.
(** The capture and the state of a stream. *)
Definition log_of (stream : LogStream) (a : attemptState) : option LogCapture :=
  match stream with LogStreamStdout => sa_stdout a | LogStreamStderr => sa_stderr a end.
Definition put_log (stream : LogStream) (c : LogCapture) (st : CaptureState) (a : attemptState) : attemptState :=
  let out := match stream with LogStreamStdout => true | LogStreamStderr => false end in
  mkAttempt (sa_key a) (sa_attemptID a) (sa_ordinal a) (sa_dir a) (sa_eventsOpen a) (sa_eventsHash a) (sa_eventsBytes a) (sa_eventsCount a)
    (sa_firstSeq a) (sa_lastSeq a) (sa_eventsState a) (if out then st else sa_stdoutState a) (if out then sa_stderrState a else st)
    (sa_artifactsState a) (sa_resultState a) (if out then Some c else sa_stdout a) (if out then sa_stderr a else Some c) (sa_artifactRecords a).
Definition log_state (stream : LogStream) (a : attemptState) : CaptureState :=
  match stream with LogStreamStdout => sa_stdoutState a | LogStreamStderr => sa_stderrState a end.

(** ** Operations *)

(** The answer to a system call: success, or failure, a write after [k] bytes. *)
Abbreviation Os := (nat → option nat).
Abbreviation Rand := (nat → option bytes).

(** An operation on a session: it may fail, and keeps what it changed; [n] counts the
    system calls. *)
Definition W (A : Type) : Type := nat → Session → result WriteError A * nat * Session.
#[global] Instance w_ret : MRet W := λ A a n s, (Ok a, n, s).
#[global] Instance w_bind : MBind W := λ A B k m n s,
  match m n s with (Ok a, n', s') => k a n' s' | (Err e, n', s') => (Err e, n', s') end.
Definition raise {A} (e : WriteError) : W A := λ n s, (Err e, n, s).
Definition get {A} (q : Session → A) : W A := λ n s, (Ok (q s), n, s).
Definition modify (f : Session → Session) : W unit := λ n s, (Ok (), n, f s).
Definition guard (bad : bool) (e : WriteError) : W unit := if bad then raise e else mret ().
Definition lift {A} (r : result WriteError A) : W A := match r with Ok a => mret a | Err e => raise e end.
(** [s.fail(err)] *)
Definition failed (e : WriteError) (s : Session) : Session := set_failed (Some e) (set_state StateFailed s).
Definition failing {A} (m : W A) : W A := λ n s,
  match m n s with (Err e, n', s') => (Err e, n', failed e s') | r => r end.
(** A call whose error is ignored. *)
Definition ignored {A} (m : W A) : W unit := λ n s, (Ok (), (m n s).1.2, (m n s).2).
(** A call after whose error something is undone, whether that succeeds or not. *)
Definition undoing {A} (m : W A) (undo : W unit) : W A := λ n s,
  match m n s with (Err e, n', s') => (ignored undo ;; raise e) n' s' | r => r end.
Fixpoint forW {A} (f : A → W unit) (l : list A) : W unit := match l with [] => mret () | x :: l => f x ;; forW f l end.
Definition check_ctx (ctx : option CtxCause) : W unit := match ctx with Some c => raise (contextErr c) | None => mret () end.

(** The staging directory. *)
Definition ss_dir (s : Session) : Dir := default emptyDir (ss_parent s !! ss_staging s).
Definition set_dir (d : Dir) (s : Session) : Session := set_parent (<[ss_staging s := d]> (ss_parent s)) s.
Definition set_files (f : gmap string bytes) (s : Session) : Session := set_dir (mkDir f (d_dirs (ss_dir s))) s.
Definition ss_files (s : Session) : gmap string bytes := d_files (ss_dir s).
Definition exists_at (p : string) (d : Dir) : bool := bool_decide (p ∈ d_dirs d ∨ is_Some (d_files d !! p)).
(** The directory that holds [p]; the empty path is the staging directory itself. *)
Definition parent_of (p : string) : string := of_bytes (join_slash (reverse (tail (reverse (split_on slash (to_bytes p)))))).
Definition has_parent (p : string) (d : Dir) : bool := bool_decide (parent_of p = ""%string ∨ parent_of p ∈ d_dirs d).

Section writer.
Context (limits : Limits) (os : Os) (rand : Rand).

(** A system call that does nothing but succeed or fail. *)
Definition syscall (e : WriteError) : W unit := λ n s, match os n with None => (Ok (), S n, s) | Some _ => (Err e, S n, s) end.

Definition mkdir (rel : string) : W unit :=
  guard (negb (validRelativePath rel (l_MaxPhysicalEntryPathBytes limits) false)) (pathErr "invalid-entry-path" "mkdir" "path" rel) ;;
  let e := pathErr "staging-create-failed" "mkdir" "mkdir" rel in
  syscall e ;;
  d ← get ss_dir;
  if exists_at rel d then mret ()
  else guard (negb (has_parent rel d)) e ;; modify (set_dir (mkDir (d_files d) ({[rel]} ∪ d_dirs d))).
Definition openExclusive (rel : string) : W unit :=
  lift (ValidateEvidenceEntryPath rel) ;;
  let e := pathErr "staging-create-failed" "file" "open" rel in
  syscall e ;;
  d ← get ss_dir;
  guard (exists_at rel d) (pathErr "destination-entry-exists" "file" "open" rel) ;;
  guard (negb (has_parent rel d)) e ;;
  modify (λ s, set_files (<[rel := []]> (ss_files s)) s).
(** A write at the end of an open file; a failing call may have written the first bytes. *)
Definition append_file (rel : string) (data : bytes) (s : Session) : Session :=
  set_files (alter (.++ data) rel (ss_files s)) s.
Definition write_file (rel : string) (data : bytes) (e : WriteError) : W unit := λ n s,
  match os n with
  | None => (Ok (), S n, append_file rel data s)
  | Some k => (Err e, S n, append_file rel (take k data) s)
  end.
(** [root.Rename] of a file, and [root.Remove] *)
Definition rename_file (a b : string) (e : WriteError) : W unit :=
  syscall e ;;
  s ← get id;
  match ss_files s !! a with
  | None => raise e
  | Some data => guard (negb (has_parent b (ss_dir s))) e ;; modify (λ s, set_files (<[b := data]> (delete a (ss_files s))) s)
  end.
Definition remove_file (a : string) : W unit :=
  ignored (syscall (errCode "" "" "") ;; modify (λ s, set_files (delete a (ss_files s)) s)).

Definition randomName (prefix runID : string) : W string := λ n s,
  match rand n with
  | None => (Err (errCode "staging-create-failed" "random" "read"), S n, s)
  | Some b =>
    (Ok (if (runID != ""%string) && validScenarioID runID then prefix +:+ runID +:+ "-" +:+ hex_encode b else prefix +:+ hex_encode b), S n, s)
  end.

Definition ensureActive (op : string) : W unit :=
  st ← get ss_state; guard (st != StateActive) (errCode "invalid-session-state" "session" op).

(** ** Entries of the manifest *)

Definition addEntry (entry : ManifestEntry) : W unit :=
  lift (ValidateEvidenceEntryPath (me_Path entry)) ;;
  s ← get id;
  let e := pathErr "manifest-invariant" "manifest" "entry" (me_Path entry) in
  let count := Z.of_nat (length (ss_entries s)) in
  guard ((l_MaxManifestEntries limits <=? count) || (l_MaxBundleEntries limits <=? count)) e ;;
  guard (bool_decide (me_Path entry ∈ ss_payloads s)) e ;;
  guard ((me_SizeBytes entry <? 0) || (l_MaxBundleBytes limits - me_SizeBytes entry <? ss_totalBytes s)) e ;;
  modify (λ s, set_totalBytes (ss_totalBytes s + me_SizeBytes entry)
    (set_entries (ss_entries s ++ [entry]) (set_payloads ({[me_Path entry]} ∪ ss_payloads s) s))).

Definition noAttempt : AttemptKey := mkAttemptKey "" "" 0.
Definition writePayload (rel : string) (role : EntryRole) (media : string) (key : AttemptKey) (data : bytes) : W unit :=
  openExclusive rel ;;
  write_file rel data (pathErr "event-write-failed" "file" "write" rel) ;;
  syscall (pathErr "sync-failed" "file" "sync" rel) ;;
  syscall (pathErr "event-write-failed" "file" "close" rel) ;;
  addEntry (mkManifestEntry rel role media (digestBytes data) (Z.of_nat (length data)) (ak_Revision key) (ak_ScenarioID key) (ak_Repetition key)
    CaptureStateCaptured false false 0 0).

(** ** Events *)

Definition attemptKeyString (k : AttemptKey) : string := ak_Revision k +:+ NUL +:+ ak_ScenarioID k +:+ NUL +:+ uintToString (ak_Repetition k).
Definition indexOf (xs : list string) (v : string) : Z := match list_find (λ x, x = v) xs with Some (i, _) => Z.of_nat i | None => -1 end.

Definition runnerLimits : Runner.Limits :=
  Runner.mkLimits (l_MaxAttempts limits) (l_MaxEventsPerAttempt limits) (l_MaxEventsPerBundle limits) (l_MaxEventJSONBytes limits)
    MaxCapabilityMismatches MaxResultLimitations.
Definition draftOf (e : ObservationEvent) : EventDraft :=
  mkEventDraft (oe_ObservedAt e) (oe_Source e) (oe_Kind e) (oe_Process e) (oe_Filesystem e) (oe_Network e) (oe_Artifact e) (oe_Scenario e)
    (oe_ObserverWarning e) (oe_ResourceLimit e).
Definition LF : ascii := byte_of 10.
Definition eventLine (e : ObservationEvent) : bytes := render (json_of_ObservationEvent e) ++ [LF].
Definition encodeEventLine (e : ObservationEvent) : result WriteError bytes :=
  reject_if ((oe_SchemaVersion e != SchemaVersionObservationEventV1Alpha1) || (oe_ID e == ""%string) || (oe_RunID e == ""%string)
             || (oe_SequenceNumber e <=? 0) || (oe_Repetition e == 0)) (errCode "invalid-event" "event" "validate") ;;
  match ValidateEventDraft (draftOf e) runnerLimits with
  | Err _ => Err (errCode "invalid-event" "event" "payload")
  | Ok _ =>
    reject_if (negb (forallb json_year_ok (event_times e))) (errCode "serialization-failed" "event" "json") ;;
    reject_if (l_MaxEventJSONBytes limits <? Z.of_nat (length (render (json_of_ObservationEvent e)))) (errCode "event-too-large" "event" "json") ;;
    mret (eventLine e)
  end.

Definition eventsPath (a : attemptState) : string := sa_dir a +:+ "/events.jsonl".
Definition update_attempt (ak : string) (f : attemptState → attemptState) : W unit :=
  modify (λ s, set_attempts (alter f ak (ss_attempts s)) s).
Definition entryOf (a : attemptState) (path role media : string) (hash : bytes) (size : Z) (st : CaptureState) : ManifestEntry :=
  mkManifestEntry path role media (digestBytes hash) size (ak_Revision (sa_key a)) (ak_ScenarioID (sa_key a)) (ak_Repetition (sa_key a))
    st false false 0 0.

Definition openEvents (ak : string) (a : attemptState) : W unit :=
  openExclusive (eventsPath a) ;;
  update_attempt ak (λ a, put_eventsState CaptureStateCapturedEmpty (put_eventsHash [] (put_eventsOpen true a))).
Definition closeEvents (ak : string) : W unit :=
  o ← get (λ s, ss_attempts s !! ak);
  match o with
  | None => mret ()
  | Some a =>
    if negb (sa_eventsOpen a) then mret () else
    syscall (attemptErr "sync-failed" "event" "sync" (sa_attemptID a)) ;;
    syscall (attemptErr "event-write-failed" "event" "close" (sa_attemptID a)) ;;
    let st := if sa_eventsBytes a == 0 then CaptureStateCapturedEmpty else CaptureStateCaptured in
    update_attempt ak (λ a, put_eventsState st (put_eventsOpen false a)) ;;
    addEntry (entryOf a (eventsPath a) EntryRoleEvents "application/x-ndjson" (sa_eventsHash a) (sa_eventsBytes a) st)
  end.
Definition closeEventsForCurrent : W unit :=
  s ← get id;
  if (ss_currentAttempt s <? 0) || (Z.of_nat (length (ss_attemptOrder s)) <=? ss_currentAttempt s) then mret ()
  else match ss_attemptOrder s !! Z.to_nat (ss_currentAttempt s) with Some ak => closeEvents ak | None => mret () end.

(** The key of the attempt that the event belongs to. *)
Definition validateEventRoute (e : ObservationEvent) : W string :=
  s ← get id;
  guard (oe_RunID e != ss_runID s) (errCode "invalid-event" "event" "run") ;;
  let seq := oe_SequenceNumber e in
  guard (seq != ss_nextSequence s + 1) (errCode "event-order" "event" "sequence") ;;
  guard (oe_ID e != expectedEventID (ss_planDigest s) (ss_runID s) seq) (errCode "invalid-event" "event" "id") ;;
  guard (bool_decide (oe_ID e ∈ ss_eventIDs s)) (errCode "duplicate-event-id" "event" "id") ;;
  let ak := attemptKeyString (mkAttemptKey (oe_Revision e) (oe_ScenarioID e) (oe_Repetition e)) in
  guard (bool_decide (ss_attempts s !! ak = None)) (errCode "invalid-attempt" "event" "attempt") ;;
  let idx := indexOf (ss_attemptOrder s) ak in
  guard (idx <? ss_currentAttempt s) (errCode "event-order" "event" "attempt") ;;
  (if ss_currentAttempt s <? idx then closeEventsForCurrent ;; modify (set_currentAttempt idx) else mret ()) ;;
  modify (λ s, set_eventIDs ({[oe_ID e]} ∪ ss_eventIDs s) (set_nextSequence seq s)) ;;
  mret ak.

(** What an event adds to its attempt. *)
Definition event_added (seq : Z) (line : bytes) (a : attemptState) : attemptState :=
  let a := put_eventsHash (sa_eventsHash a ++ line) (put_eventsBytes (sa_eventsBytes a + Z.of_nat (length line)) a) in
  let a := put_eventsCount (sa_eventsCount a + 1) a in
  let a := if sa_firstSeq a == 0 then put_firstSeq seq a else a in
  put_eventsState CaptureStateCaptured (put_lastSeq seq a).
Definition Emit (ctx : option CtxCause) (e : ObservationEvent) : W unit :=
  ensureActive "event" ;;
  failing (
    check_ctx ctx ;;
    line ← lift (encodeEventLine e);
    ak ← validateEventRoute e;
    o ← get (λ s, ss_attempts s !! ak);
    match o with
    | None => mret ()
    | Some a0 =>
      (if sa_eventsOpen a0 then mret () else openEvents ak a0) ;;
      s ← get id;
      let a := default a0 (ss_attempts s !! ak) in
      guard ((l_MaxEventJSONBytes limits <? Z.of_nat (length line)) || (l_MaxEventsPerAttempt limits <=? sa_eventsCount a)
             || (l_MaxEventsPerBundle limits <=? ss_totalEvents s)) (attemptErr "event-limit" "event" "limit" (sa_attemptID a)) ;;
      guard (l_MaxEventStreamBytesPerAttempt limits <? sa_eventsBytes a + Z.of_nat (length line))
        (attemptErr "event-limit" "event" "bytes" (sa_attemptID a)) ;;
      write_file (eventsPath a) line (attemptErr "event-write-failed" "event" "write" (sa_attemptID a)) ;;
      modify (λ s, set_totalEvents (ss_totalEvents s + 1)
        (set_attempts (alter (event_added (oe_SequenceNumber e) line) ak (ss_attempts s)) s))
    end).

(** ** [logs.go] *)

Definition attemptForKey (key : AttemptKey) : W (string * attemptState) :=
  o ← get (λ s, ss_attempts s !! attemptKeyString key);
  match o with Some a => mret (attemptKeyString key, a) | None => raise (errCode "invalid-attempt" "attempt" "lookup") end.
Definition logPath (a : attemptState) (stream : LogStream) : string := sa_dir a +:+ "/" +:+ streamName stream +:+ ".log".
Definition OpenLog (ctx : option CtxCause) (key : AttemptKey) (stream : LogStream) : W unit :=
  ensureActive "open-log" ;;
  failing (check_ctx ctx) ;;
  '(ak, a) ← attemptForKey key;
  guard (bool_decide (is_Some (log_of stream a))) (attemptErr "duplicate-log-capture" "log" "open" (sa_attemptID a)) ;;
  failing (openExclusive (logPath a stream)) ;;
  update_attempt ak (put_log stream (mkLogCapture (logPath a stream) (l_MaxLogBytesPerStream limits) 0 0 [] false false) CaptureStateCapturedEmpty).

(** The capture behind a handle, unless it is closed. *)
Definition openCapture (key : AttemptKey) (stream : LogStream) (op : string) : W (string * attemptState * LogCapture) :=
  let e := errCode "log-write-failed" "log" op in
  s ← get id;
  match ss_attempts s !! attemptKeyString key ≫= λ a, pair a <$> log_of stream a with
  | None => raise e
  | Some (a, c) =>
    guard (lc_closed c) e ;;
    guard (ss_state s != StateActive) (errCode "invalid-session-state" "log" op) ;;
    mret (attemptKeyString key, a, c)
  end.
Definition update_log (ak : string) (stream : LogStream) (f : LogCapture → LogCapture) : W unit :=
  update_attempt ak (λ a, match log_of stream a with Some c => put_log stream (f c) (log_state stream a) a | None => a end).
Definition log_observed (n : Z) (c : LogCapture) : LogCapture :=
  mkLogCapture (lc_path c) (lc_limit c) (lc_stored c) n (lc_hash c) (lc_truncated c) (lc_closed c).
Definition log_truncated (c : LogCapture) : LogCapture :=
  mkLogCapture (lc_path c) (lc_limit c) (lc_stored c) (lc_observed c) (lc_hash c) true (lc_closed c).
Definition log_stored (chunk : bytes) (c : LogCapture) : LogCapture :=
  mkLogCapture (lc_path c) (lc_limit c) (lc_stored c + Z.of_nat (length chunk)) (lc_observed c) (lc_hash c ++ chunk) (lc_truncated c) (lc_closed c).
Definition log_closed (c : LogCapture) : LogCapture :=
  mkLogCapture (lc_path c) (lc_limit c) (lc_stored c) (lc_observed c) (lc_hash c) (lc_truncated c) true.
Definition incomplete : W unit := modify (set_evidenceIncomplete true).

(** [LogCapture.Write]: stores as much as the limits leave room for *)
Definition LogWrite (key : AttemptKey) (stream : LogStream) (p : bytes) : W unit :=
  '(ak, a, c) ← openCapture key stream "write";
  let size := Z.of_nat (length p) in
  update_log ak stream (log_observed (wrap64 (lc_observed c + size))) ;;
  total ← get ss_totalLogBytes;
  let remaining := Z.min (lc_limit c - lc_stored c) (l_MaxTotalLogBytes limits - total) in
  (if 0 <? remaining then
     let chunk := if remaining <? size then take (Z.to_nat remaining) p else p in
     (if remaining <? size then update_log ak stream log_truncated else mret ()) ;;
     failing (write_file (lc_path c) chunk (attemptErr "log-write-failed" "log" "write" (sa_attemptID a))) ;;
     update_log ak stream (log_stored chunk) ;;
     modify (λ s, set_totalLogBytes (ss_totalLogBytes s + Z.of_nat (length chunk)) s)
   else mret ()) ;;
  (if remaining <? size then update_log ak stream log_truncated ;; incomplete else mret ()).

Definition MarkTruncated (key : AttemptKey) (stream : LogStream) (observedAtLeast : Z) : W unit :=
  '(ak, a, c) ← openCapture key stream "truncate";
  let n := if observedAtLeast <=? lc_observed c then wrap64 (lc_observed c + 1) else observedAtLeast in
  update_log ak stream (λ c, log_truncated (log_observed n c)) ;;
  incomplete.

Definition logRole (stream : LogStream) : EntryRole := match stream with LogStreamStdout => EntryRoleStdout | LogStreamStderr => EntryRoleStderr end.
Definition logEntry (a : attemptState) (stream : LogStream) (c : LogCapture) (st : CaptureState) : ManifestEntry :=
  mkManifestEntry (lc_path c) (logRole stream) "application/octet-stream" (digestBytes (lc_hash c)) (lc_stored c) (ak_Revision (sa_key a))
    (ak_ScenarioID (sa_key a)) (ak_Repetition (sa_key a)) st (lc_truncated c) false
    (if lc_truncated c then 0 else lc_observed c) (if lc_truncated c then lc_observed c else 0).
(** [LogCapture.Close] *)
Definition closeLog (ak : string) (stream : LogStream) : W unit :=
  s ← get id;
  match ss_attempts s !! ak ≫= λ a, pair a <$> log_of stream a with
  | None => mret ()
  | Some (a, c) =>
    if lc_closed c then mret () else
    update_log ak stream log_closed ;;
    failing (syscall (attemptErr "sync-failed" "log" "sync" (sa_attemptID a))) ;;
    failing (syscall (attemptErr "log-write-failed" "log" "close" (sa_attemptID a))) ;;
    let st := if lc_truncated c then CaptureStateTruncated else if lc_stored c == 0 then CaptureStateCapturedEmpty else CaptureStateCaptured in
    update_attempt ak (put_log stream (log_closed c) st) ;;
    addEntry (logEntry a stream c st)
  end.
Definition CloseLog (key : AttemptKey) (stream : LogStream) : W unit := closeLog (attemptKeyString key) stream.

(** ** [artifacts.go] *)

Definition objectPathForDigest (d : Digest) : string :=
  let hex := to_bytes (str_drop 7 d) in "objects/sha256/" +:+ of_bytes (take 2 hex) +:+ "/" +:+ of_bytes hex.
Definition artifactKey (key : AttemptKey) (path : string) : string := attemptKeyString key +:+ NUL +:+ path.
Definition omitted (d : ArtifactDisposition) : bool :=
  bool_decide (d ∈ [ArtifactDispositionOmittedLimit; ArtifactDispositionOmittedSymlink; ArtifactDispositionOmittedSpecial; ArtifactDispositionFailed]).
Definition recordArtifact (ak : string) (rec : ArtifactRecord) : W ArtifactRecord :=
  update_attempt ak (λ a, put_artifactsState (if omitted (arr_Disposition rec) then CaptureStateOmittedLimit else CaptureStateCaptured)
    (put_artifactRecords (sa_artifactRecords a ++ [rec]) a)) ;;
  modify (λ s, set_artifactRecords (ss_artifactRecords s ++ [rec]) s) ;;
  (if omitted (arr_Disposition rec) then incomplete else mret ()) ;;
  mret rec.

Definition omittedRecord (i : ArtifactInput) (observed : Z) (summary : string) : ArtifactRecord :=
  mkArtifactRecord (ai_LogicalPath i) (ai_Attempt i) ArtifactDispositionOmittedLimit "" 0 (ai_DeclaredSize i) observed "" (ai_MediaType i)
    (ai_Executable i) (ai_SourceMode i) [mkLimitation "artifact-omitted-limit" summary ""].
Definition storedRecord (i : ArtifactInput) (data : bytes) : ArtifactRecord :=
  mkArtifactRecord (ai_LogicalPath i) (ai_Attempt i) ArtifactDispositionStored (digestBytes data) (Z.of_nat (length data)) (ai_DeclaredSize i) 0
    (objectPathForDigest (digestBytes data)) (ai_MediaType i) (ai_Executable i) (ai_SourceMode i) [].
Definition recordFull (a : attemptState) (s : Session) : bool :=
  (l_MaxArtifactsPerAttempt limits <=? Z.of_nat (length (sa_artifactRecords a)))
  || (l_MaxArtifactsPerBundle limits <=? Z.of_nat (length (ss_artifactRecords s))).

(** The bytes that were stored, or how many were seen when they were too many; the
    context is asked before every read. *)
Fixpoint streamArtifact (ctx : Context) (i : nat) (tmp : string) (max : Z) (acc : bytes) (reader : list (bytes * ReadEnd)) : W (bytes * option Z) :=
  check_ctx (ctx i) ;;
  match reader with
  | [] => mret (acc, None)
  | (chunk, stop) :: reader =>
    let after : W (bytes * option Z) := match stop with
      | ReadMore => streamArtifact ctx (S i) tmp max (acc ++ chunk) reader
      | ReadEOF => mret (acc ++ chunk, None)
      | ReadFailed => raise (errCode "artifact-write-failed" "artifact" "read")
      end in
    if bool_decide (chunk = []) then after else
    let observed := Z.of_nat (length (acc ++ chunk)) in
    if max <? observed then mret (acc, Some observed) else
    write_file tmp chunk (errCode "artifact-write-failed" "artifact" "write") ;; after
  end.

Definition closing (e : WriteError) : W unit := ignored (syscall e).
Definition AddArtifact (ctx : Context) (i : ArtifactInput) : W ArtifactRecord :=
  ensureActive "artifact" ;;
  failing (check_ctx (ctx 0%nat)) ;;
  '(ak, a) ← attemptForKey (ai_Attempt i);
  match ai_Reader i with
  | None => raise (errCode "invalid-artifact" "artifact" "reader")
  | Some reader =>
    lift (ValidateLogicalArtifactPath (ai_LogicalPath i)) ;;
    let lk := artifactKey (ai_Attempt i) (ai_LogicalPath i) in
    s ← get id;
    guard (bool_decide (lk ∈ ss_artifactLogical s)) (errCode "duplicate-artifact" "artifact" "logical-path") ;;
    modify (λ s, set_artifactLogical ({[lk]} ∪ ss_artifactLogical s) s) ;;
    if recordFull a s then recordArtifact ak (omittedRecord i 0 "artifact count exceeds capture limit") else
    let max := if (ai_MaxBytes i <=? 0) || (l_MaxSingleArtifactBytes limits <? ai_MaxBytes i) then l_MaxSingleArtifactBytes limits else ai_MaxBytes i in
    let max := Z.min max (l_MaxTotalArtifactBytes limits - ss_totalArtifactBytes s) in
    if max <=? 0 then recordArtifact ak (omittedRecord i 0 "total artifact byte limit exhausted") else
    if match ai_DeclaredSize i with Some d => max <? d | None => false end
    then recordArtifact ak (omittedRecord i 0 "artifact declared size exceeds capture limit") else
    tmp ← failing (name ← randomName "tmp-" ""; openExclusive ("objects/sha256/" +:+ name) ;; mret ("objects/sha256/" +:+ name));
    let close := pathErr "artifact-write-failed" "artifact" "close" tmp in
    r ← failing (undoing (streamArtifact ctx 1 tmp max [] reader) (closing close ;; remove_file tmp));
    match r with
    | (_, Some observed) =>
      closing close ;; remove_file tmp ;; recordArtifact ak (omittedRecord i observed "artifact exceeded capture limit")
    | (data, None) =>
      failing (undoing (syscall (pathErr "sync-failed" "artifact" "sync" tmp)) (closing close ;; remove_file tmp)) ;;
      failing (undoing (syscall close) (remove_file tmp)) ;;
      let digest := digestBytes data in
      let path := objectPathForDigest digest in
      known ← get (λ s, bool_decide (is_Some (ss_objectDigests s !! digest)));
      (if (known : bool) then remove_file tmp
       else failing (
         undoing (mkdir ("objects/sha256/" +:+ of_bytes (take 2 (to_bytes (str_drop 7 digest))))) (remove_file tmp) ;;
         undoing (rename_file tmp path (pathErr "artifact-write-failed" "artifact" "rename" path)) (remove_file tmp) ;;
         addEntry (mkManifestEntry path EntryRoleArtifactObject "application/octet-stream" digest (Z.of_nat (length data)) "" "" 0
           CaptureStateCaptured false false 0 0)) ;;
         modify (λ s, set_objectDigests (<[digest := path]> (ss_objectDigests s)) s)) ;;
      modify (λ s, set_totalArtifactBytes (ss_totalArtifactBytes s + Z.of_nat (length data)) s) ;;
      recordArtifact ak (storedRecord i data)
    end
  end.

Definition RecordArtifactOmission (ctx : option CtxCause) (i : ArtifactOmissionInput) : W ArtifactRecord :=
  ensureActive "artifact" ;;
  failing (check_ctx ctx) ;;
  '(ak, a) ← attemptForKey (oi_Attempt i);
  guard (negb (omitted (oi_Disposition i))) (errCode "invalid-artifact" "artifact" "disposition") ;;
  lift (ValidateLogicalArtifactPath (oi_LogicalPath i)) ;;
  let lk := artifactKey (oi_Attempt i) (oi_LogicalPath i) in
  s ← get id;
  guard (bool_decide (lk ∈ ss_artifactLogical s)) (errCode "duplicate-artifact" "artifact" "logical-path") ;;
  guard (recordFull a s) (errCode "artifact-limit" "artifact" "count") ;;
  modify (λ s, set_artifactLogical ({[lk]} ∪ ss_artifactLogical s) s) ;;
  recordArtifact ak (mkArtifactRecord (oi_LogicalPath i) (oi_Attempt i) (oi_Disposition i) "" 0 (oi_DeclaredSize i) (oi_ObservedAtLeast i) ""
    (oi_MediaType i) (oi_Executable i) (oi_SourceMode i)
    (if ze_list (oi_Limitations i) then [mkLimitation (oi_Disposition i) "artifact was not stored" ""] else oi_Limitations i)).
Definition MarkArtifactCollectionComplete (ctx : option CtxCause) (key : AttemptKey) : W unit :=
  ensureActive "artifact" ;;
  failing (check_ctx ctx) ;;
  '(ak, a) ← attemptForKey key;
  if sa_artifactsState a == CaptureStateNotProvided then update_attempt ak (put_artifactsState CaptureStateCapturedEmpty) else mret ().
Definition writeArtifactIndex (a : attemptState) : W unit :=
  let data := render (json_of_ArtifactIndex (sa_key a) (sa_artifactRecords a)) in
  guard (l_MaxArtifactIndexBytes limits <? Z.of_nat (length data)) (attemptErr "artifact-limit" "artifact" "index" (sa_attemptID a)) ;;
  writePayload (sa_dir a +:+ "/artifacts.json") EntryRoleArtifactIndex "application/json" (sa_key a) data.

(** ** [manifest.go] *)

Definition resultKey (r : AttemptResult) : string := attemptKeyString (mkAttemptKey (res_Revision r) (res_ScenarioID r) (res_Repetition r)).
Definition summaryOf (r : AttemptResult) : AttemptExecutionSummary :=
  mkAttemptExecutionSummary (res_AttemptID r) (res_Revision r) (res_ScenarioID r) (res_Repetition r) (ao_Status (res_Outcome r))
    (ao_ExitCode (res_Outcome r)) (ao_DurationMillis (res_Outcome r)) (res_FirstAcceptedSequence r) (res_LastAcceptedSequence r)
    (res_AcceptedEventCount r) (res_Limitations r).
Definition addResult (m : gmap string AttemptResult) (r : AttemptResult) : result WriteError (gmap string AttemptResult) :=
  reject_if (bool_decide (is_Some (m !! resultKey r))) (errCode "result-invalid" "result" "attempt") ;; mret (<[resultKey r := r]> m).
Definition writeResult (results : gmap string AttemptResult) (ak : string) : W unit :=
  o ← get (λ s, ss_attempts s !! ak);
  match o, results !! ak with
  | Some a, Some r =>
    guard ((res_AcceptedEventCount r != sa_eventsCount a) || (res_FirstAcceptedSequence r != sa_firstSeq a)
           || (res_LastAcceptedSequence r != sa_lastSeq a)) (attemptErr "result-invalid" "result" "events" (sa_attemptID a)) ;;
    writePayload (sa_dir a +:+ "/result.json") EntryRoleAttemptResult "application/json" (sa_key a)
      (render (json_of_AttemptResultDocument (mkAttemptResultDocument SchemaVersionAttemptResultV1Alpha1 (summaryOf r)))) ;;
    update_attempt ak (put_resultState CaptureStateCaptured)
  | _, _ => mret ()
  end.
(** Whether the evidence of a session that ends so is complete. *)
Definition evidenceComplete (c : Completion) (s : Session) : bool :=
  negb (ss_evidenceIncomplete s) && xr_Complete (cmp_Execution c) && negb (cmp_Incomplete c).
Definition executionDocument (c : Completion) (s : Session) : ExecutionDocument :=
  let x := cmp_Execution c in
  mkExecutionDocument SchemaVersionExecutionResultV1Alpha1 (ss_runID s) (ss_planDigest s) (xr_Runner x) (xr_Complete x) (evidenceComplete c s) true
    (xr_TotalEmittedEvents x) (summaryOf <$> xr_Attempts x) (xr_Limitations x) (cmp_Failure c).
Definition writeResults (c : Completion) : W unit :=
  s ← get id;
  let x := cmp_Execution c in
  guard (xr_PlanDigest x != ss_planDigest s) (errCode "result-invalid" "result" "planDigest") ;;
  results ← lift (foldR addResult ∅ (xr_Attempts x));
  guard (xr_Complete x && (Z.of_nat (size results) != Z.of_nat (length (ss_attemptOrder s)))) (errCode "result-invalid" "result" "attempts") ;;
  forW (writeResult results) (ss_attemptOrder s) ;;
  s ← get id;
  writePayload "execution.json" EntryRoleExecutionResult "application/json" noAttempt (render (json_of_ExecutionDocument (executionDocument c s))).

Definition attemptManifest (a : attemptState) : AttemptManifest :=
  mkAttemptManifest (sa_attemptID a) (sa_ordinal a) (ak_Revision (sa_key a)) (ak_ScenarioID (sa_key a)) (ak_Repetition (sa_key a)) (sa_dir a)
    (sa_eventsState a) (sa_stdoutState a) (sa_stderrState a) (sa_artifactsState a) (sa_resultState a) (sa_firstSeq a) (sa_lastSeq a) (sa_eventsCount a).
Definition entry_less (a b : ManifestEntry) : bool := str_lt (me_Path a) (me_Path b).
Definition sortedEntries (l : list ManifestEntry) : list ManifestEntry := stable_sort entry_less l.
Definition buildManifest (c : Completion) (s : Session) : result WriteError Manifest :=
  let bad op := errCode "completion-invalid" "completion" op in
  reject_if (xr_PlanDigest (cmp_Execution c) != ss_planDigest s) (bad "planDigest"%string) ;;
  reject_if (negb (cmp_Incomplete c) && negb (evidenceComplete c s)) (bad "evidence"%string) ;;
  reject_if (cmp_Incomplete c && bool_decide (cmp_Failure c = None)) (bad "failure"%string) ;;
  mret (mkManifest SchemaVersionEvidenceManifestV1Alpha1 ("bundle-" +:+ ss_runID s) (ss_runID s) (ss_createdAt s) BundleFormatV1Alpha1
    (ss_planDigest s) (xr_Complete (cmp_Execution c)) (evidenceComplete c s) true (sortedEntries (ss_entries s)) (ss_artifactRecords s)
    (omap (λ ak, attemptManifest <$> ss_attempts s !! ak) (ss_attemptOrder s))
    (if ss_evidenceIncomplete s then [mkLimitation "evidence-incomplete" "one or more evidence captures were truncated or omitted" ""] else [])
    (cmp_Failure c)).

Definition checkEntry (seen : gset string) (e : ManifestEntry) : result WriteError (gset string) :=
  ValidateEvidenceEntryPath (me_Path e) ;;
  reject_if (bool_decide (me_Path e ∈ seen)) (pathErr "manifest-invariant" "manifest" "entry" (me_Path e)) ;;
  reject_if (negb (validDigest (me_Digest e)) || (me_SizeBytes e <? 0) || (me_Path e == "manifest.json"%string))
    (pathErr "manifest-invariant" "manifest" "entry" (me_Path e)) ;;
  mret ({[me_Path e]} ∪ seen).
Definition artifact_less (a b : ArtifactRecord) : bool :=
  let ka := arr_Attempt a in let kb := arr_Attempt b in
  if ak_Revision ka != ak_Revision kb then str_lt (ak_Revision ka) (ak_Revision kb)
  else if ak_ScenarioID ka != ak_ScenarioID kb then str_lt (ak_ScenarioID ka) (ak_ScenarioID kb)
  else if ak_Repetition ka != ak_Repetition kb then ak_Repetition ka <? ak_Repetition kb
  else str_lt (arr_LogicalPath a) (arr_LogicalPath b).
Definition normalized (m : Manifest) : Manifest :=
  mkManifest (mf_SchemaVersion m) (mf_ID m) (mf_RunID m) (mf_CreatedAt m) (mf_BundleFormatVersion m) (mf_PlanDigest m) (mf_ExecutionComplete m)
    (mf_EvidenceComplete m) (mf_BundleTransactionValid m) (sortedEntries (mf_Entries m)) (stable_sort artifact_less (mf_Artifacts m))
    (mf_Attempts m) (mf_Limitations m) (mf_Failure m).
Definition normalizeManifest (m : Manifest) : result WriteError bytes :=
  reject_if ((mf_SchemaVersion m != SchemaVersionEvidenceManifestV1Alpha1) || (mf_RunID m == ""%string) || (mf_ID m == ""%string)
             || negb (validDigest (mf_PlanDigest m))) (errCode "manifest-invariant" "manifest" "validate") ;;
  foldR checkEntry ∅ (sortedEntries (mf_Entries m)) ;;
  reject_if (negb (json_year_ok (mf_CreatedAt m))) (errCode "serialization-failed" "manifest" "json") ;;
  let data := render (json_of_Manifest (normalized m)) in
  reject_if (l_MaxManifestBytes limits <? Z.of_nat (length data)) (errCode "manifest-too-large" "manifest" "size") ;;
  mret data.
Definition writeManifest (data : bytes) : W unit :=
  let tmp := "manifest.json.tmp"%string in
  openExclusive tmp ;;
  write_file tmp data (pathErr "event-write-failed" "manifest" "write" tmp) ;;
  syscall (pathErr "sync-failed" "manifest" "sync" tmp) ;;
  syscall (pathErr "event-write-failed" "manifest" "close" tmp) ;;
  rename_file tmp "manifest.json" (pathErr "publish-failed" "manifest" "rename" "manifest.json").

(** ** Commit and abort *)

Definition finalizeAttempt (ak : string) : W unit :=
  closeEvents ak ;;
  closeLog ak LogStreamStdout ;;
  closeLog ak LogStreamStderr ;;
  o ← get (λ s, ss_attempts s !! ak);
  match o with
  | None => mret ()
  | Some a =>
    if negb (ze_list (sa_artifactRecords a)) || (sa_artifactsState a == CaptureStateCapturedEmpty) || (sa_artifactsState a == CaptureStateOmittedLimit)
    then writeArtifactIndex a else mret ()
  end.
Definition finalizeCaptures : W unit := order ← get ss_attemptOrder; forW finalizeAttempt order.

(** [RemoveAll] of a name of the parent directory: a failing call leaves it. *)
Definition removeAll (p : string) (e : WriteError) : W unit := syscall e ;; modify (λ s, set_parent (delete p (ss_parent s)) s).
Definition Abort : W unit :=
  s ← get id;
  if ss_state s == StateCommitted then raise (errCode "invalid-session-state" "session" "abort")
  else if ss_state s == StateAborted then mret ()
  else
    modify (λ s, set_staging "" (set_state StateAborted s)) ;;
    if ss_staging s == ""%string then mret () else removeAll (ss_staging s) (pathErr "cleanup-failed" "cleanup" "remove" (ss_staging s)).
(** [cleanupSession] after an error *)
Definition cleaning {A} (m : W A) : W A := λ n s,
  match m n s with
  | (Err e, n', s') =>
    match Abort n' s' with
    | (Ok _, n'', s'') => (Err e, n'', s'')
    | (Err _, n'', s'') => (Err (errCode "cleanup-failed" "cleanup" "remove"), n'', s'')
    end
  | r => r
  end.

Definition createAttempts : nat := 16.
Fixpoint publishLoop (tries : nat) : W string :=
  match tries with
  | O => raise (errCode "publish-collision" "publish" "name")
  | S tries =>
    runID ← get ss_runID;
    name ← randomName "glassroot-evidence-" runID;
    syscall (pathErr "publish-failed" "publish" "lstat" name) ;;
    taken ← get (λ s, bool_decide (is_Some (ss_parent s !! name)));
    if (taken : bool) then publishLoop tries else
    syscall (pathErr "publish-failed" "publish" "rename" name) ;;
    modify (λ s, set_parent (<[name := ss_dir s]> (delete (ss_staging s) (ss_parent s))) s) ;;
    undoing (syscall (errCode "sync-failed" "publish" "sync-parent")) (removeAll name (errCode "" "" "")) ;;
    mret name
  end.
Definition publish : W string := publishLoop createAttempts.

Definition Commit (ctx : option CtxCause) (c : Completion) : W BundleResult :=
  s ← get id;
  let invalid := errCode "invalid-session-state" "session" "commit" in
  guard (ss_state s == StateCommitted) invalid ;;
  guard (ss_state s == StateAborted) invalid ;;
  (if (ss_state s == StateFailed) && negb (cmp_Incomplete c) then raise (default invalid (ss_failed s)) else mret ()) ;;
  failing (check_ctx ctx) ;;
  guard (negb (cmp_Incomplete c) && ss_evidenceIncomplete s) (errCode "completion-invalid" "completion" "evidence") ;;
  modify (set_state StateCommitting) ;;
  r ← cleaning (
    finalizeCaptures ;;
    writeResults c ;;
    s ← get id;
    m ← lift (buildManifest c s);
    data ← lift (normalizeManifest m);
    writeManifest data ;;
    syscall (errCode "sync-failed" "publish" "sync-staging") ;;
    final ← publish;
    mret (data, final));
  modify (λ s, set_state StateCommitted (set_staging "" (set_final r.2 s))) ;;
  s ← get id;
  mret (mkBundleResult r.2 (manifestDigest r.1) r.1 (Z.of_nat (length (ss_entries s))) (ss_totalBytes s)).

(** ** [writer.go]: the beginning *)

Fixpoint createStagingLoop (runID : string) (tries : nat) : W string :=
  match tries with
  | O => raise (errCode "staging-create-failed" "staging" "mkdir")
  | S tries =>
    name ← randomName "glassroot-evidence-staging-" runID;
    syscall (pathErr "staging-create-failed" "staging" "mkdir" name) ;;
    taken ← get (λ s, bool_decide (is_Some (ss_parent s !! name)));
    if (taken : bool) then createStagingLoop runID tries else
    modify (λ s, set_parent (<[name := emptyDir]> (ss_parent s)) s) ;;
    undoing (syscall (pathErr "staging-open-failed" "staging" "open-root" name)) (removeAll name (errCode "" "" "")) ;;
    undoing (syscall (pathErr "staging-open-failed" "staging" "stat-root" name)) (removeAll name (errCode "" "" "")) ;;
    mret name
  end.
Definition attemptKeyOf (a : AttemptRequest) : AttemptKey := mkAttemptKey (ar_Revision a) (ar_ScenarioID a) (ar_Repetition a).
Definition newAttempt (a : AttemptRequest) : attemptState :=
  let st := CaptureStateNotProvided in
  mkAttempt (attemptKeyOf a) (ar_AttemptID a) (ar_GlobalOrdinal a) (attemptDir (attemptKeyOf a)) false [] 0 0 0 0 st st st st st None None [].
Definition addAttempt (a : AttemptRequest) : W unit :=
  let key := attemptKeyOf a in
  guard (negb (validScenarioID (ak_ScenarioID key)) || ((ak_Revision key != RevisionKindBase) && (ak_Revision key != RevisionKindHead))
         || (ak_Repetition key == 0)) (errCode "invalid-attempt" "plan" "attempt") ;;
  let ak := attemptKeyString key in
  known ← get (λ s, bool_decide (is_Some (ss_attempts s !! ak)));
  guard known (errCode "invalid-attempt" "plan" "attempt") ;;
  modify (λ s, set_attemptOrder (ss_attemptOrder s ++ [ak]) (set_attempts (<[ak := newAttempt a]> (ss_attempts s)) s)).
(** The prefixes of a path, the shortest first. *)
Definition prefixes (p : string) : list string :=
  let parts := split_on slash (to_bytes p) in (λ n, of_bytes (join_slash (take n parts))) <$> seq 1 (length parts).
Definition mkAttemptDir (ak : string) : W unit :=
  o ← get (λ s, ss_attempts s !! ak);
  match o with Some a => forW mkdir (prefixes (sa_dir a)) | None => mret () end.
Definition newSession (doc : RunPlan) (planDigest : Digest) (staging : string) (parent : gmap string Dir) : Session :=
  mkSession parent StateActive staging "" (rp_RunID doc) (rp_CreatedAt doc) planDigest ∅ [] 0 0 ∅ [] ∅ [] ∅ ∅ false None 0 0 0 0.

(** Runs on a session of which only the parent directory is given. *)
Definition Begin (ctx : option CtxCause) (plan : option FrozenPlan) : W unit :=
  check_ctx ctx ;;
  match plan with
  | None => raise (errCode "invalid-plan" "plan" "begin")
  | Some plan =>
    guard (planJSONDigest (fp_json plan) != fp_digest plan) (errCode "invalid-plan" "plan" "digest") ;;
    let doc := fp_doc plan in
    guard ((rp_SchemaVersion doc != SchemaVersionRunPlanV1Alpha1) || (rp_RunID doc == ""%string)) (errCode "invalid-plan" "plan" "validate") ;;
    guard (rp_Runner doc != zeroCapabilities) (errCode "invalid-plan" "plan" "runner") ;;
    attempts ← match ExpandPlanDocument doc (fp_digest plan) with
               | Ok l => mret l
               | Err _ => raise (errCode "invalid-plan" "plan" "attempts")
               end;
    guard (ze_list attempts || (l_MaxAttempts limits <? Z.of_nat (length attempts))) (errCode "invalid-plan" "plan" "attempts") ;;
    staging ← createStagingLoop (rp_RunID doc) createAttempts;
    modify (λ s, newSession doc (fp_digest plan) staging (ss_parent s)) ;;
    undoing (forW addAttempt attempts) Abort ;;
    cleaning (
      forW mkdir ["attempts"; "attempts/base"; "attempts/head"; "objects"; "objects/sha256"]%string ;;
      order ← get ss_attemptOrder;
      forW mkAttemptDir order ;;
      writePayload "plan.json" EntryRolePlan "application/json" noAttempt (fp_json plan))
  end.
Definition beginning (parent : gmap string Dir) : Session :=
  mkSession parent "" "" "" "" 0 "" ∅ [] 0 0 ∅ [] ∅ [] ∅ ∅ false None 0 0 0 0.
End writer.
