(* ===== verification/BundleWriterSpec.v ===== *)
(** * What a session keeps true, and what a commit publishes

    Proved over [BundleWriter.v].  A small calculus of weakest preconditions ([wp]) with
    one postcondition for success and one for errors carries the proofs; the session's
    files, its open files and its entries are held together by [good], and the facts of
    a history of calls by [Body], which every call keeps as long as the session is
    active. *)

From stdpp Require Import prelude gmap strings.
From Stdlib Require Import ZArith Lia Ascii Sorted.
From S2P Require Import Prelude GoStd Sha256 Framing GoTime Model Json GoText GoPath Event Plan Runner Evidence BundleWriter.
Local Open Scope Z_scope.

(** ** Weakest preconditions *)

Definition wp {A} (m : W A) (Q : A → Session → Prop) (E : Session → Prop) (s : Session) : Prop :=
  ∀ n, match m n s with (Ok a, _, s') => Q a s' | (Err _, _, s') => E s' end.

Section wp.
Context {A B : Type}.
Implicit Types (E : Session → Prop) (s : Session).

Lemma wp_ret (a : A) Q E s : Q a s → wp (mret a) Q E s.
Proof. by intros H n. Qed.
Lemma wp_raise e (Q : A → Session → Prop) E s : E s → wp (raise e) Q E s.
Proof. by intros H n. Qed.
Lemma wp_bind (m : W A) (k : A → W B) Q E s : wp m (λ a, wp (k a) Q E) E s → wp (m ≫= k) Q E s.
Proof.
  intros H n. specialize (H n). unfold mbind, w_bind. destruct (m n s) as [[[a|e] n'] s']; [apply H|done].
Qed.
Lemma wp_get (q : Session → A) Q E s : Q (q s) s → wp (get q) Q E s.
Proof. by intros H n. Qed.
Lemma wp_modify f Q E s : Q () (f s) → wp (modify f) Q E s.
Proof. by intros H n. Qed.
Lemma wp_guard (bad : bool) e Q E s : (bad = true → E s) → (bad = false → Q () s) → wp (guard bad e) Q E s.
Proof. intros H1 H2 n. destruct bad; cbn; auto. Qed.
Lemma wp_lift (r : result WriteError A) Q E s : (∀ e, r = Err e → E s) → (∀ a, r = Ok a → Q a s) → wp (lift r) Q E s.
Proof. intros H1 H2 n. destruct r as [a|e]; cbn; [by apply H2|by eapply H1]. Qed.
Lemma wp_mono (m : W A) (Q Q' : A → Session → Prop) E E' s :
  wp m Q E s → (∀ a s', Q a s' → Q' a s') → (∀ s', E s' → E' s') → wp m Q' E' s.
Proof. intros H HQ HE n. specialize (H n). destruct (m n s) as [[[a|e] n'] s']; auto. Qed.
Lemma wp_failing (m : W A) Q E s : wp m Q (λ s', ∀ e, E (failed e s')) s → wp (failing m) Q E s.
Proof. intros H n. specialize (H n). unfold failing. destruct (m n s) as [[[a|e] n'] s']; auto. Qed.
Lemma wp_ignored (m : W A) Q E s : wp m (λ _, Q ()) (Q ()) s → wp (ignored m) Q E s.
Proof. intros H n. specialize (H n). unfold ignored. destruct (m n s) as [[[a|e] n'] s']; auto. Qed.
(** What is undone does not matter where every error is lost. *)
Lemma wp_undoing (m : W A) undo Q s : wp m Q (λ _, True) s → wp (undoing m undo) Q (λ _, True) s.
Proof.
  intros H n. specialize (H n). unfold undoing. destruct (m n s) as [[[a|e] n'] s']; [done|].
  unfold mbind, w_bind, ignored. done.
Qed.
Lemma wp_cleaning os (m : W A) Q s : wp m Q (λ _, True) s → wp (cleaning os m) Q (λ _, True) s.
Proof.
  intros H n. specialize (H n). unfold cleaning. destruct (m n s) as [[[a|e] n'] s']; [done|].
  by destruct (Abort os n' s') as [[[|] ?] ?].
Qed.
End wp.

Lemma wp_syscall os e Q E s : E s → Q () s → wp (syscall os e) Q E s.
Proof. intros H1 H2 n. unfold syscall. by destruct (os n). Qed.
Lemma wp_write_file os rel data e Q s :
  Q () (append_file rel data s) → wp (write_file os rel data e) Q (λ _, True) s.
Proof. intros H n. unfold write_file. by destruct (os n). Qed.
Lemma wp_forW {A} (f : A → W unit) (l : list A) (I : list A → Session → Prop) E s :
  I l s → (∀ x l s, I (x :: l) s → wp (f x) (λ _, I l) E s) → wp (forW f l) (λ _, I []) E s.
Proof.
  revert s. induction l as [|x l IH]; intros s HI Hstep; cbn; [by apply wp_ret|].
  apply wp_bind. eapply wp_mono; [by apply Hstep| |done]. intros [] s' H. by apply IH.
Qed.

(** One step of an operation. *)
Ltac wstep :=
  lazymatch goal with
  | |- wp (_ ≫= _) _ _ _ => apply wp_bind; cbn beta
  | |- wp (mret _) _ _ _ => apply wp_ret
  | |- wp (raise _) _ _ _ => apply wp_raise
  | |- wp (get _) _ _ _ => apply wp_get; cbn beta
  | |- wp (modify _) _ _ _ => apply wp_modify; cbn beta
  | |- wp (update_attempt _ _) _ _ _ => unfold update_attempt
  | |- wp incomplete _ _ _ => unfold incomplete
  | |- wp (guard _ _) _ _ _ => apply wp_guard; [intros _|intros ?]
  | |- wp (lift _) _ _ _ => apply wp_lift; [intros ? _|intros ? ?]
  | |- wp (syscall _ _) _ _ _ => apply wp_syscall
  | |- wp (failing _) _ _ _ => apply wp_failing
  | |- wp (ignored _) _ _ _ => apply wp_ignored
  | |- wp (undoing _ _) _ (λ _, True) _ => apply wp_undoing
  | |- wp (cleaning _ _) _ (λ _, True) _ => apply wp_cleaning
  | |- wp (write_file _ _ _ _) _ (λ _, True) _ => apply wp_write_file
  | |- wp (match ?x with _ => _ end) _ _ _ => destruct x eqn:?
  end.

(** ** The files of a session *)

(** The digest and the size of an entry are those of the file it names. *)
Definition truthful (files : gmap string bytes) (e : ManifestEntry) : Prop :=
  ∃ data, files !! me_Path e = Some data ∧ me_Digest e = BundleWriter.digestBytes data ∧ me_SizeBytes e = Z.of_nat (length data).

(** The files of an attempt that are written bit by bit: its events ([None]) and its
    logs, with their path, what the hash holds, and whether they are open. *)
Definition slot_of (a : attemptState) (k : option LogStream) : option (string * bytes * bool) :=
  match k with
  | None => if decide (sa_eventsState a = CaptureStateNotProvided) then None else Some (eventsPath a, sa_eventsHash a, sa_eventsOpen a)
  | Some stream => (λ c, (lc_path c, lc_hash c, negb (lc_closed c))) <$> log_of stream a
  end.
Abbreviation Slots := (string * option LogStream → option (string * bytes * bool)).
Definition slots (m : gmap string attemptState) : Slots := λ id, m !! id.1 ≫= λ a, slot_of a id.2.

Definition under_attempts (p : string) : Prop := ∃ r, p = ("attempts/" +:+ r)%string.

Record good (F : gmap string bytes) (S : Slots) (P : gset string) (L : list ManifestEntry) : Prop := {
  g_slot : ∀ id p h o, S id = Some (p, h, o) →
    F !! p = Some h ∧ under_attempts p ∧ (o = true → p ∉ P) ∧ (id.2 = None → o = false → p ∈ P);
  g_apart : ∀ id id' p h o h' o', S id = Some (p, h, o) → S id' = Some (p, h', o') → id = id';
  g_truth : ∀ e, e ∈ L → truthful F e;
  g_paths : P = list_to_set (me_Path <$> L);
  g_nodup : NoDup (me_Path <$> L)
}.

Lemma good_elem F S P L p : good F S P L → p ∈ P → ∃ e, e ∈ L ∧ me_Path e = p.
Proof.
  intros G. rewrite (g_paths _ _ _ _ G), elem_of_list_to_set, list_elem_of_fmap. intros (e & -> & ?). eauto.
Qed.
Lemma good_exists F S P L p : good F S P L → p ∈ P → is_Some (F !! p).
Proof. intros G (e & He & <-)%(good_elem _ _ _ _ _ G). destruct (g_truth _ _ _ _ G e He) as (? & ? & _). eauto. Qed.

(** A file that is neither listed nor a slot may change. *)
Lemma good_private F F' S P L p : good F S P L → p ∉ P → (∀ id h o, S id ≠ Some (p, h, o)) →
  (∀ q, q ≠ p → F' !! q = F !! q) → good F' S P L.
Proof.
  intros G Hp Hs HF. split; try apply G.
  - intros id q h o Hid. destruct (g_slot _ _ _ _ G _ _ _ _ Hid) as (? & ?). split; [|done].
    rewrite HF; [done|]. intros ->. by eapply Hs.
  - intros e He. destruct (g_truth _ _ _ _ G e He) as (data & Hd & ?). exists data. split; [|done].
    rewrite HF; [done|]. intros Ep. apply Hp. rewrite <- Ep, (g_paths _ _ _ _ G). set_solver.
Qed.
Lemma good_new F S P L p : good F S P L → F !! p = None → (p ∉ P) ∧ (∀ id h o, S id ≠ Some (p, h, o)).
Proof.
  intros G Hp. split.
  - intros [x Hx]%(good_exists _ _ _ _ _ G). congruence.
  - intros id h o Hid. destruct (g_slot _ _ _ _ G _ _ _ _ Hid) as (? & _). congruence.
Qed.
Lemma good_insert F S P L p x : good F S P L → F !! p = None → good (<[p:=x]> F) S P L.
Proof.
  intros G Hp. destruct (good_new _ _ _ _ _ G Hp). eapply good_private; [done..|]. intros. by rewrite lookup_insert_ne.
Qed.
(** A new entry for a file that is not an open slot. *)
Lemma good_list F S P L e : good F S P L → truthful F e → me_Path e ∉ P → (∀ id h, S id ≠ Some (me_Path e, h, true)) →
  good F S ({[me_Path e]} ∪ P) (L ++ [e]).
Proof.
  intros G He Hp Hs. split.
  - intros id p h o Hid. destruct (g_slot _ _ _ _ G _ _ _ _ Hid) as (? & ? & Ho & Hc). split; [done|split; [done|split]].
    + intros ->. apply not_elem_of_union. split; [|by apply Ho]. intros ->%elem_of_singleton. by eapply Hs.
    + intros. apply elem_of_union_r. auto.
  - apply (g_apart _ _ _ _ G).
  - intros e' [He'| ->%list_elem_of_singleton]%elem_of_app; [by apply (g_truth _ _ _ _ G)|done].
  - rewrite (g_paths _ _ _ _ G), fmap_app, list_to_set_app_L. cbn. set_solver.
  - rewrite fmap_app. apply NoDup_app. split; [apply G|]. split; [|apply NoDup_singleton].
    intros q Hq ->%list_elem_of_singleton. apply Hp. rewrite (g_paths _ _ _ _ G). set_solver.
Qed.
(** A slot that is opened, grows, or is closed. *)
Lemma good_slot F F' S S' P L id p h o : good F S P L →
  S' id = Some (p, h, o) → (∀ id', id' ≠ id → S' id' = S id') →
  F' !! p = Some h → (∀ q, q ≠ p → F' !! q = F !! q) →
  under_attempts p → p ∉ P → (id.2 = None → o = true) → (∀ id' h' o', id' ≠ id → S id' ≠ Some (p, h', o')) →
  good F' S' P L.
Proof.
  intros G Hid Hrest Hp Hq Hu Hn Ho Ha. split.
  - intros id' q h' o' Hid'. destruct (decide (id' = id)) as [->|Hne].
    + simplify_eq. split_and!; auto. intros E1 E2. specialize (Ho E1). congruence.
    + rewrite Hrest in Hid' by done. destruct (g_slot _ _ _ _ G _ _ _ _ Hid') as (? & ?). split; [|done].
      rewrite Hq; [done|]. intros ->. by eapply Ha.
  - intros i j q hi oi hj oj Hi Hj. destruct (decide (i = id)) as [->|Hi'], (decide (j = id)) as [->|Hj']; [done|..].
    + rewrite Hrest in Hj by done. simplify_eq. by edestruct Ha.
    + rewrite Hrest in Hi by done. simplify_eq. by edestruct Ha.
    + rewrite Hrest in Hi, Hj by done. by eapply (g_apart _ _ _ _ G).
  - intros e He. destruct (g_truth _ _ _ _ G e He) as (data & Hd & ?). exists data. split; [|done].
    rewrite Hq; [done|]. intros Ep. apply Hn. rewrite <- Ep, (g_paths _ _ _ _ G). set_solver.
  - apply G.
  - apply G.
Qed.
Lemma good_ext F S S' P L : good F S P L → (∀ id, S' id = S id) → good F S' P L.
Proof. intros [H1 H2 H3 H4 H5] HS. split; [intros id; rewrite HS; apply H1|intros i j; rewrite !HS; apply H2|done..]. Qed.

(** Closing a slot lists its file. *)
Lemma good_close F S S' P L id p h e : good F S P L →
  S id = Some (p, h, true) → S' id = Some (p, h, false) → (∀ id', id' ≠ id → S' id' = S id') →
  me_Path e = p → truthful F e → good F S' ({[p]} ∪ P) (L ++ [e]).
Proof.
  intros G Hid Hid' Hrest Ep He. subst p. destruct (g_slot _ _ _ _ G _ _ _ _ Hid) as (Hp & Hu & Hn & _).
  assert (Happ : ∀ id' h' o', id' ≠ id → S id' ≠ Some (me_Path e, h', o')) by (intros i ? ? Hne Hi; by destruct Hne, (g_apart _ _ _ _ G _ _ _ _ _ _ _ Hi Hid)).
  split.
  - intros i q h' o Hi. destruct (decide (i = id)) as [->|Hne].
    + simplify_eq. split_and!; [done..|]. intros. set_solver.
    + rewrite Hrest in Hi by done. destruct (g_slot _ _ _ _ G _ _ _ _ Hi) as (? & ? & Ho & Hc). split_and!; [done..| |].
      * intros ->. apply not_elem_of_union. split; [|by apply Ho]. intros ->%elem_of_singleton. by eapply Happ.
      * intros. apply elem_of_union_r. auto.
  - intros i j q hi oi hj oj Hi Hj.
    destruct (decide (i = id)) as [->|Hi'], (decide (j = id)) as [->|Hj']; [done|..].
    + rewrite Hrest in Hj by done. simplify_eq. by edestruct Happ.
    + rewrite Hrest in Hi by done. simplify_eq. by edestruct Happ.
    + rewrite Hrest in Hi, Hj by done. by eapply (g_apart _ _ _ _ G).
  - intros e' [He'| ->%list_elem_of_singleton]%elem_of_app; [by apply (g_truth _ _ _ _ G)|done].
  - rewrite (g_paths _ _ _ _ G), fmap_app, list_to_set_app_L. cbn. set_solver.
  - rewrite fmap_app. apply NoDup_app. split; [apply G|]. split; [|apply NoDup_singleton].
    intros q Hq ->%list_elem_of_singleton. apply Hn; [done|]. rewrite (g_paths _ _ _ _ G). set_solver.
Qed.

(** ** What the file operations do *)

Lemma ss_files_set f s : ss_files (set_files f s) = f.
Proof. unfold ss_files, ss_dir, set_files, set_dir. cbn. by rewrite lookup_insert_eq. Qed.
Lemma ss_files_attempts m s : ss_files (set_attempts m s) = ss_files s.
Proof. done. Qed.
Lemma ss_files_events v m s : ss_files (set_totalEvents v (set_attempts m s)) = ss_files s.
Proof. done. Qed.
Lemma ss_files_append p data s : ss_files (append_file p data s) = alter (.++ data) p (ss_files s).
Proof. apply ss_files_set. Qed.
Lemma ss_dir_set d s : ss_dir (set_dir d s) = d.
Proof. unfold ss_dir, set_dir. cbn. by rewrite lookup_insert_eq. Qed.
Lemma ss_files_dirs d s : ss_files (set_dir (mkDir (d_files (ss_dir s)) d) s) = ss_files s.
Proof. unfold ss_files at 1. by rewrite ss_dir_set. Qed.

(** The state after an entry was added. *)
Definition added (e : ManifestEntry) (s : Session) : Session :=
  set_totalBytes (ss_totalBytes s + me_SizeBytes e) (set_entries (ss_entries s ++ [e]) (set_payloads ({[me_Path e]} ∪ ss_payloads s) s)).
Definition room (limits : Limits) (e : ManifestEntry) (s : Session) : Prop :=
  (me_Path e ∉ ss_payloads s) ∧ Z.of_nat (length (ss_entries s)) < l_MaxManifestEntries limits ∧
  ss_totalBytes s + me_SizeBytes e ≤ l_MaxBundleBytes limits.

Section primitives.
Context (limits : Limits) (os : Os).

Lemma wp_openExclusive rel Q E s : E s →
  (ss_files s !! rel = None → Q () (set_files (<[rel := []]> (ss_files s)) s)) → wp (openExclusive os rel) Q E s.
Proof.
  intros HE HQ. unfold openExclusive. repeat (wstep; try done). apply HQ.
  match goal with H : exists_at _ _ = false |- _ => unfold exists_at in H; apply bool_decide_eq_false in H; rename H into Hx end.
  apply eq_None_not_Some. tauto.
Qed.
Lemma wp_addEntry e Q E s : E s → (room limits e s → Q () (added e s)) → wp (addEntry limits e) Q E s.
Proof.
  intros HE HQ. unfold addEntry. repeat (wstep; try done). apply HQ.
  repeat match goal with H : _ || _ = false |- _ => apply orb_false_iff in H as [? ?] end.
  match goal with H : bool_decide _ = false |- _ => apply bool_decide_eq_false in H end.
  unfold id in *. split; [done|lia].
Qed.
Lemma wp_mkdir rel Q E s : E s → (∀ s', s' = s ∨ (∃ d, s' = set_dir (mkDir (d_files (ss_dir s)) d) s) → Q () s') → wp (mkdir limits os rel) Q E s.
Proof. intros HE HQ. unfold mkdir. repeat (wstep; try done); eauto. Qed.
Lemma wp_remove_file a Q E s : Q () s → Q () (set_files (delete a (ss_files s)) s) → wp (remove_file os a) Q E s.
Proof. intros H1 H2. unfold remove_file. repeat (wstep; try done). Qed.
Lemma wp_rename_file a b e Q s :
  (∀ data, ss_files s !! a = Some data → Q () (set_files (<[b := data]> (delete a (ss_files s))) s)) → wp (rename_file os a b e) Q (λ _, True) s.
Proof. intros H. unfold rename_file. repeat (wstep; try done). by apply H. Qed.
Lemma wp_randomName rand prefix runID Q E s : E s → (∀ name, Q name s) → wp (randomName rand prefix runID) Q E s.
Proof. intros HE HQ n. unfold randomName. destruct (rand n); auto. Qed.

(** A payload: one new file, listed. *)
Definition payloadEntry (rel : string) (role : EntryRole) (media : string) (key : AttemptKey) (data : bytes) : ManifestEntry :=
  mkManifestEntry rel role media (BundleWriter.digestBytes data) (Z.of_nat (length data)) (ak_Revision key) (ak_ScenarioID key) (ak_Repetition key)
    CaptureStateCaptured false false 0 0.
Lemma wp_writePayload rel role media key data Q s :
  (ss_files s !! rel = None → room limits (payloadEntry rel role media key data) s →
   ∀ s1, ss_files s1 = <[rel := data]> (ss_files s) → (∃ d, s1 = set_parent d s) → Q () (added (payloadEntry rel role media key data) s1)) →
  wp (writePayload limits os rel role media key data) Q (λ _, True) s.
Proof.
  intros HQ. unfold writePayload. wstep. apply wp_openExclusive; [done|]. intros Hnew. wstep. wstep.
  unfold append_file. rewrite ss_files_set, alter_insert, decide_True by done. cbn. repeat (wstep; try done).
  apply wp_addEntry; [done|]. intros Hroom. apply HQ; [done|done|by rewrite ss_files_set|]. unfold set_files, set_dir. eexists. reflexivity.
Qed.
End primitives.

(** ** The history of a session, and what it keeps true *)

(** A call of a session that was answered without an error and that brought something:
    an event, or bytes of a log. *)
Inductive Note := Noted (e : ObservationEvent) | Logged (key : AttemptKey) (stream : LogStream) (p : bytes).
Abbreviation History := (list Note).
Definition events_of (tr : History) : list ObservationEvent := omap (λ x, match x with Noted e => Some e | _ => None end) tr.
Definition event_key (e : ObservationEvent) : AttemptKey := mkAttemptKey (oe_Revision e) (oe_ScenarioID e) (oe_Repetition e).
Definition attempt_events (ak : string) (tr : History) : list ObservationEvent :=
  filter (λ e, attemptKeyString (event_key e) = ak) (events_of tr).
Definition attempt_log (ak : string) (stream : LogStream) (tr : History) : bytes :=
  concat (omap (λ x, match x with
    | Logged key st p => if decide (attemptKeyString key = ak ∧ st = stream) then Some p else None
    | _ => None end) tr).

(** The state of an attempt's events and logs, by its history. *)
Definition log_ok (limits : Limits) (total : Z) (inc : bool) (logged : bytes) (p : string) (c : LogCapture) : Prop :=
  lc_path c = p ∧ lc_stored c = Z.of_nat (length (lc_hash c)) ∧ (lc_truncated c = true → inc = true) ∧
  (lc_hash c = logged ∨
   lc_hash c `prefix_of` logged ∧ lc_truncated c = true ∧ (lc_limit c ≤ lc_stored c ∨ l_MaxTotalLogBytes limits ≤ total)).
Record attempt_ok (limits : Limits) (tr : History) (total : Z) (inc : bool) (ak : string) (a : attemptState) : Prop := {
  a_key : attemptKeyString (sa_key a) = ak;
  a_dir : under_attempts (sa_dir a);
  a_hash : sa_eventsHash a = concat (eventLine <$> attempt_events ak tr);
  a_bytes : sa_eventsBytes a = Z.of_nat (length (sa_eventsHash a));
  a_count : sa_eventsCount a = Z.of_nat (length (attempt_events ak tr));
  a_first : sa_firstSeq a = default 0 (oe_SequenceNumber <$> head (attempt_events ak tr));
  a_last : sa_lastSeq a = default 0 (oe_SequenceNumber <$> last (attempt_events ak tr));
  a_unopened : sa_eventsState a = CaptureStateNotProvided → attempt_events ak tr = [] ∧ sa_eventsOpen a = false;
  a_nolog : ∀ stream, log_of stream a = None → attempt_log ak stream tr = [];
  a_log : ∀ stream c, log_of stream a = Some c → log_ok limits total inc (attempt_log ak stream tr) (logPath a stream) c
}.

Definition numbered (digest : Digest) (runID : string) (next : Z) (tr : History) : Prop :=
  next = Z.of_nat (length (events_of tr)) ∧
  ∀ i e, events_of tr !! i = Some e →
    oe_SequenceNumber e = Z.of_nat i + 1 ∧ oe_RunID e = runID ∧ oe_ID e = expectedEventID digest runID (oe_SequenceNumber e).
Definition accounted (limits : Limits) (L : list ManifestEntry) (total : Z) : Prop :=
  total = foldr Z.add 0 (me_SizeBytes <$> L) ∧ (L = [] ∨ total ≤ l_MaxBundleBytes limits).
Definition disclosed (inc : bool) (L : list ManifestEntry) (rs : list ArtifactRecord) : Prop :=
  inc = false → (∀ e, e ∈ L → me_Truncated e = false) ∧ (∀ r, r ∈ rs → arr_Disposition r = ArtifactDispositionStored).
Definition objects_ok (L : list ManifestEntry) (objects : gmap Digest string) (rs : list ArtifactRecord) : Prop :=
  (∀ d p, objects !! d = Some p → ∃ e, e ∈ L ∧ me_Path e = p ∧ me_Digest e = d ∧ p = objectPathForDigest d) ∧
  (∀ r, r ∈ rs → arr_Disposition r = ArtifactDispositionStored → objects !! arr_Digest r = Some (arr_ObjectPath r)).

Record Core (limits : Limits) (tr : History) (s : Session) : Prop := {
  c_good : good (ss_files s) (slots (ss_attempts s)) (ss_payloads s) (ss_entries s);
  c_attempt : ∀ ak a, ss_attempts s !! ak = Some a → attempt_ok limits tr (ss_totalLogBytes s) (ss_evidenceIncomplete s) ak a;
  c_known : ∀ e, e ∈ events_of tr → is_Some (ss_attempts s !! attemptKeyString (event_key e));
  c_order : ∀ ak, is_Some (ss_attempts s !! ak) → ak ∈ ss_attemptOrder s;
  c_accounted : accounted limits (ss_entries s) (ss_totalBytes s);
  c_disclosed : disclosed (ss_evidenceIncomplete s) (ss_entries s) (ss_artifactRecords s);
  c_objects : objects_ok (ss_entries s) (ss_objectDigests s) (ss_artifactRecords s)
}.
Definition Body (limits : Limits) (tr : History) (s : Session) : Prop :=
  Core limits tr s ∧ numbered (ss_planDigest s) (ss_runID s) (ss_nextSequence s) tr.
(** What every call keeps. *)
Definition Inv (limits : Limits) (tr : History) (s : Session) : Prop := ss_state s = StateActive → Body limits tr s.
(** What most calls leave alone. *)
Definition same_run (s s' : Session) : Prop :=
  ss_planDigest s' = ss_planDigest s ∧ ss_runID s' = ss_runID s ∧ ss_nextSequence s' = ss_nextSequence s ∧
  ss_attemptOrder s' = ss_attemptOrder s ∧ (∀ ak, is_Some (ss_attempts s' !! ak) ↔ is_Some (ss_attempts s !! ak)) ∧
  (∀ ak a', ss_attempts s' !! ak = Some a' → ∃ a, ss_attempts s !! ak = Some a ∧ sa_key a' = sa_key a ∧ sa_dir a' = sa_dir a ∧
     (sa_eventsOpen a' = true → sa_eventsOpen a = true)).
Definition same_numbers (s s' : Session) : Prop :=
  ss_planDigest s' = ss_planDigest s ∧ ss_runID s' = ss_runID s ∧ ss_nextSequence s' = ss_nextSequence s.
#[global] Instance same_run_preorder : PreOrder same_run.
Proof.
  split.
  - intros s. unfold same_run. split_and!; [done..|]. eauto.
  - intros s1 s2 s3 (?&?&?&?&D1&K1) (?&?&?&?&D2&K2). unfold same_run. split_and!; try congruence.
    + intros ak. by rewrite D2.
    + intros ak a3 (a2 & Ha2 & ? & ? & ?)%K2. destruct (K1 _ _ Ha2) as (a1 & ? & ? & ? & ?). exists a1. split_and!; auto; congruence.
Qed.

(** *** Lemmas on the pieces *)

Lemma alter_is_insert {A} (f : A → A) (m : gmap string A) k x : m !! k = Some x → alter f k m = <[k := f x]> m.
Proof.
  intros Hk. apply map_eq. intros i. destruct (decide (i = k)) as [->|].
  - by rewrite lookup_alter_eq, lookup_insert_eq, Hk.
  - by rewrite lookup_alter_ne, lookup_insert_ne.
Qed.
Lemma slots_insert m ak a a' : m !! ak = Some a → ∀ id,
  slots (<[ak := a']> m) id = if decide (id.1 = ak) then slot_of a' id.2 else slots m id.
Proof.
  intros Ha id. unfold slots. destruct (decide (id.1 = ak)) as [->|]; [by rewrite lookup_insert_eq|by rewrite lookup_insert_ne].
Qed.
Lemma slots_same m ak a a' : m !! ak = Some a → (∀ k, slot_of a' k = slot_of a k) → ∀ id, slots (<[ak := a']> m) id = slots m id.
Proof.
  intros Ha Hk id. rewrite (slots_insert _ _ a) by done. destruct (decide (id.1 = ak)) as [E|]; [|done].
  unfold slots. by rewrite E, Ha, Hk.
Qed.
Lemma slots_other m ak a a' k : m !! ak = Some a → (∀ k', k' ≠ k → slot_of a' k' = slot_of a k') →
  ∀ id, id ≠ (ak, k) → slots (<[ak := a']> m) id = slots m id.
Proof.
  intros Ha Hk [i k'] Hne. rewrite (slots_insert _ _ a) by done. cbn. destruct (decide (i = ak)) as [->|]; [|done].
  unfold slots. cbn. rewrite Ha. cbn. apply Hk. congruence.
Qed.
Lemma log_ok_mono limits total total' inc inc' logged p c :
  total ≤ total' → (inc = true → inc' = true) → log_ok limits total inc logged p c → log_ok limits total' inc' logged p c.
Proof. intros Ht Hi (? & ? & ? & [?|(? & ? & ?)]); split_and!; auto. right. split_and!; [done..|lia]. Qed.
Lemma attempt_ok_mono limits tr total total' inc inc' ak a :
  total ≤ total' → (inc = true → inc' = true) → attempt_ok limits tr total inc ak a → attempt_ok limits tr total' inc' ak a.
Proof. intros Ht Hi [? ? ? ? ? ? ? ? ? Hl]. split; try done. intros st c Hc. eapply log_ok_mono; eauto. Qed.
Lemma accounted_add limits L total e : accounted limits L total → total + me_SizeBytes e ≤ l_MaxBundleBytes limits →
  accounted limits (L ++ [e]) (total + me_SizeBytes e).
Proof.
  intros [Ht _] Hm. split; [|by right]. rewrite fmap_app, Ht. cbn.
  induction L as [|x L IH] in |- *; cbn; lia.
Qed.
Lemma disclosed_add inc L rs e : disclosed inc L rs → (inc = false → me_Truncated e = false) → disclosed inc (L ++ [e]) rs.
Proof.
  intros H He Hi. destruct (H Hi) as [? ?]. split; [|done]. intros x [?| ->%list_elem_of_singleton]%elem_of_app; auto.
Qed.
Lemma objects_add L o rs e : objects_ok L o rs → objects_ok (L ++ [e]) o rs.
Proof.
  intros [H1 H2]. split; [|done]. intros d p Hd. destruct (H1 d p Hd) as (x & ? & ?). exists x. split; [apply elem_of_app; by left|done].
Qed.

Section core.
Context (limits : Limits) (os : Os) (rand : Rand).
Implicit Types (tr : History) (s : Session).
Abbreviation Core := (Core limits).

(** An attempt changes, and what it is part of. *)
Lemma core_update tr tr' s s' ak a a' : Core tr s → ss_attempts s !! ak = Some a →
  ss_attempts s' = <[ak := a']> (ss_attempts s) → ss_attemptOrder s' = ss_attemptOrder s →
  good (ss_files s') (slots (ss_attempts s')) (ss_payloads s') (ss_entries s') →
  attempt_ok limits tr' (ss_totalLogBytes s') (ss_evidenceIncomplete s') ak a' →
  (∀ ak', ak' ≠ ak → attempt_events ak' tr' = attempt_events ak' tr ∧ ∀ st, attempt_log ak' st tr' = attempt_log ak' st tr) →
  (∀ e, e ∈ events_of tr' → e ∈ events_of tr ∨ attemptKeyString (event_key e) = ak) →
  ss_totalLogBytes s ≤ ss_totalLogBytes s' → (ss_evidenceIncomplete s = true → ss_evidenceIncomplete s' = true) →
  accounted limits (ss_entries s') (ss_totalBytes s') → disclosed (ss_evidenceIncomplete s') (ss_entries s') (ss_artifactRecords s') →
  objects_ok (ss_entries s') (ss_objectDigests s') (ss_artifactRecords s') → Core tr' s'.
Proof.
  intros C Ha Em Eo G A Htr Hev Ht Hi Hacc Hdis Hobj. split; try done; rewrite Em.
  - intros ak' b Hb. destruct (decide (ak' = ak)) as [->|Hne].
    + rewrite lookup_insert_eq in Hb. by simplify_eq.
    + rewrite lookup_insert_ne in Hb by done. destruct (Htr _ Hne) as [E1 E2].
      destruct (attempt_ok_mono _ _ _ _ _ _ _ _ Ht Hi (c_attempt _ _ _ C _ _ Hb)) as [? ? ? ? ? ? ? ? Hn Hl].
      split; rewrite ?E1; try done; [intros st; rewrite E2; apply Hn|intros st c; rewrite E2; apply Hl].
  - intros e He. destruct (Hev e He) as [He'| ->].
    + destruct (decide (attemptKeyString (event_key e) = ak)) as [->|]; [rewrite lookup_insert_eq; eauto|].
      rewrite lookup_insert_ne by done. by apply (c_known _ _ _ C).
    + rewrite lookup_insert_eq. eauto.
  - intros ak'. rewrite Eo. destruct (decide (ak' = ak)) as [->|]; [intros _; apply (c_order _ _ _ C); eauto|].
    rewrite lookup_insert_ne by done. apply (c_order _ _ _ C).
Qed.

(** An attempt changes in what is neither its events nor its logs. *)
Lemma core_put tr s ak a a' : Core tr s → ss_attempts s !! ak = Some a → (∀ k, slot_of a' k = slot_of a k) →
  attempt_ok limits tr (ss_totalLogBytes s) (ss_evidenceIncomplete s) ak a' → Core tr (set_attempts (<[ak := a']> (ss_attempts s)) s).
Proof.
  intros C Ha Hk A. eapply (core_update tr); try done; try apply C; cbn; [|auto..].
  eapply good_ext; [apply C|]. by eapply slots_same.
Qed.
Lemma same_run_insert s s' ak a a' : ss_attempts s !! ak = Some a → ss_attempts s' = <[ak := a']> (ss_attempts s) →
  ss_planDigest s' = ss_planDigest s → ss_runID s' = ss_runID s → ss_nextSequence s' = ss_nextSequence s → ss_attemptOrder s' = ss_attemptOrder s →
  sa_key a' = sa_key a → sa_dir a' = sa_dir a → (sa_eventsOpen a' = true → sa_eventsOpen a = true) → same_run s s'.
Proof.
  intros Ha Em ? ? ? ? Hk Hd Ho. unfold same_run. rewrite Em. split_and!; [done..| |].
  - intros i. destruct (decide (i = ak)) as [->|]; [rewrite lookup_insert_eq; split; eauto|by rewrite lookup_insert_ne].
  - intros i b. destruct (decide (i = ak)) as [->|]; [rewrite lookup_insert_eq; intros [= <-]; eauto|rewrite lookup_insert_ne by done; eauto].
Qed.

(** A payload was written. *)
Lemma core_added tr s s1 e : Core tr s → (∃ d, s1 = set_parent d s) → good (ss_files s1) (slots (ss_attempts s)) ({[me_Path e]} ∪ ss_payloads s) (ss_entries s ++ [e]) →
  room limits e s → (ss_evidenceIncomplete s = false → me_Truncated e = false) → Core tr (added e s1) ∧ same_run s (added e s1).
Proof.
  intros C [d ->] G (_ & _ & Hm) Ht. split.
  - split; cbn; try apply C; [done|..].
    + apply accounted_add; [apply C|done].
    + apply disclosed_add; [apply C|done].
    + apply objects_add, C.
  - unfold same_run. cbn. split_and!; eauto.
Qed.
Lemma core_payload tr s rel role media key data (Q : unit → Session → Prop) : Core tr s →
  (∀ s', Core tr s' → same_run s s' → ss_attempts s' = ss_attempts s → ss_evidenceIncomplete s' = ss_evidenceIncomplete s →
     ss_artifactRecords s' = ss_artifactRecords s → Q () s') →
  wp (writePayload limits os rel role media key data) Q (λ _, True) s.
Proof.
  intros C HQ. apply wp_writePayload. intros Hnew Hroom s1 Hf Hd. set (e := payloadEntry rel role media key data) in *.
  assert (good (ss_files s1) (slots (ss_attempts s)) ({[me_Path e]} ∪ ss_payloads s) (ss_entries s ++ [e])) as G.
  { rewrite Hf. apply good_list.
    - apply good_insert; [apply C|done].
    - exists data. by rewrite lookup_insert_eq.
    - apply Hroom.
    - intros id h. by eapply (good_new _ _ _ _ _ (c_good _ _ _ C)). }
  destruct (core_added tr s s1 e C Hd G Hroom) as [C' S']; [done|]. destruct Hd as [d ->]. by apply HQ.
Qed.

(** Closing the file of an attempt's events. *)
Lemma core_closeEvents tr s ak (Q : unit → Session → Prop) : Core tr s →
  (∀ s', Core tr s' → same_run s s' → ss_state s' = ss_state s → (∀ a, ss_attempts s' !! ak = Some a → sa_eventsOpen a = false) → Q () s') →
  wp (closeEvents limits os ak) Q (λ _, True) s.
Proof.
  intros C HQ. unfold closeEvents. wstep. wstep. destruct (ss_attempts s !! ak) as [a|] eqn:Ha.
  2: { wstep. apply HQ; [done..|]. congruence. }
  destruct (sa_eventsOpen a) eqn:Hop; cbn [negb].
  2: { wstep. apply HQ; [done..|]. intros b Hb. by simplify_eq. }
  repeat (wstep; try done). rewrite (alter_is_insert _ _ _ a) by done.
  set (st := if sa_eventsBytes a == 0 then _ else _). set (a' := put_eventsState st (put_eventsOpen false a)).
  assert (st ≠ CaptureStateNotProvided) as Hst by (subst st; by case_bool_decide).
  pose proof (c_attempt _ _ _ C _ _ Ha) as A.
  assert (sa_eventsState a ≠ CaptureStateNotProvided) as Hopened by (intros [_ ?]%(a_unopened _ _ _ _ _ _ A); congruence).
  apply wp_addEntry; [done|]. intros Hroom. set (e := entryOf a _ _ _ _ _ _) in *.
  assert (slots (ss_attempts s) (ak, None) = Some (eventsPath a, sa_eventsHash a, true)) as Hs.
  { unfold slots. cbn. rewrite Ha. cbn. rewrite decide_False by done. by rewrite Hop. }
  destruct (g_slot _ _ _ _ (c_good _ _ _ C) _ _ _ _ Hs) as (Hfile & _).
  apply HQ.
  - eapply (core_update tr tr s); [done..| | |auto|auto|done|done| | |].
    + cbn. eapply (good_close _ _ _ _ _ (ak, None)); [apply C|done| | |done|].
      * rewrite (slots_insert _ _ a) by done. cbn. rewrite decide_True by done. by rewrite decide_False.
      * eapply slots_other; [done|]. by intros [[]|] ?.
      * exists (sa_eventsHash a). split_and!; [done..|]. apply A.
    + destruct A. split; cbn; try done.
    + cbn. apply accounted_add; [apply C|apply Hroom].
    + cbn. by apply disclosed_add; [apply C|].
    + cbn. apply objects_add, C.
  - by eapply (same_run_insert _ _ _ a a').
  - done.
  - cbn. intros b. rewrite lookup_insert_eq. by intros [= <-].
Qed.

Ltac core_rest C := first [exact (c_accounted _ _ _ C) | exact (c_disclosed _ _ _ C) | exact (c_objects _ _ _ C)].

(** *** Events *)

Lemma events_of_app tr tr' : events_of (tr ++ tr') = events_of tr ++ events_of tr'.
Proof. apply omap_app. Qed.
Lemma attempt_events_noted ak tr e : attempt_events ak (tr ++ [Noted e]) =
  if decide (attemptKeyString (event_key e) = ak) then attempt_events ak tr ++ [e] else attempt_events ak tr.
Proof.
  unfold attempt_events. rewrite events_of_app, filter_app. change (events_of [Noted e]) with [e]. case_decide.
  - by rewrite filter_cons_True.
  - by rewrite filter_cons_False, app_nil_r.
Qed.
Lemma attempt_log_noted ak st tr e : attempt_log ak st (tr ++ [Noted e]) = attempt_log ak st tr.
Proof. unfold attempt_log. rewrite omap_app. cbn. by rewrite app_nil_r. Qed.
Lemma numbered_noted digest runID next tr e : numbered digest runID next tr → oe_SequenceNumber e = next + 1 → oe_RunID e = runID →
  oe_ID e = expectedEventID digest runID (oe_SequenceNumber e) → numbered digest runID (oe_SequenceNumber e) (tr ++ [Noted e]).
Proof.
  intros [Hn Hi] Hs Hr Hid. split; rewrite events_of_app; cbn.
  - rewrite length_app. cbn. lia.
  - intros i x [Hx|[Hlen Hx]]%lookup_app_Some; [by apply Hi|]. apply list_lookup_singleton_Some in Hx as [Hx <-].
    split_and!; [|done..]. rewrite Hs, Hn. lia.
Qed.

Lemma core_closeCurrent tr s (Q : unit → Session → Prop) : Core tr s →
  (∀ s', Core tr s' → same_run s s' → Q () s') → wp (closeEventsForCurrent limits os) Q (λ _, True) s.
Proof.
  intros C HQ. unfold closeEventsForCurrent. repeat wstep; try by apply HQ.
  eapply core_closeEvents; [done|]. intros s' C' S' _ _. by apply HQ.
Qed.
Lemma core_route tr s e (Q : string → Session → Prop) : Core tr s →
  (∀ s', Core tr s' → ss_planDigest s' = ss_planDigest s → ss_runID s' = ss_runID s → is_Some (ss_attempts s' !! attemptKeyString (event_key e)) →
     ss_nextSequence s' = oe_SequenceNumber e → oe_RunID e = ss_runID s → oe_SequenceNumber e = ss_nextSequence s + 1 →
     oe_ID e = expectedEventID (ss_planDigest s) (ss_runID s) (oe_SequenceNumber e) → Q (attemptKeyString (event_key e)) s') →
  wp (validateEventRoute limits os e) Q (λ _, True) s.
Proof.
  intros C HQ. unfold validateEventRoute. unfold id in *. do 12 (wstep; try done). go_bool.
  assert (∀ s', Core tr s' → same_run s s' → Q (attemptKeyString (event_key e))
    (set_eventIDs ({[oe_ID e]} ∪ ss_eventIDs s') (set_nextSequence (oe_SequenceNumber e) s'))) as HQ'.
  { intros s' C' (? & ? & ? & ? & Hd & _). apply HQ; try done; [by split; apply C'|]. cbn. apply Hd. by apply not_eq_None_Some. }
  repeat wstep; try done.
  - eapply core_closeCurrent; [done|]. intros s' C' S'. repeat wstep. apply HQ'; [by split; apply C'|]. apply S'.
  - by apply HQ'.
Qed.

Lemma core_openEvents tr s ak a (Q : unit → Session → Prop) : Core tr s → ss_attempts s !! ak = Some a → sa_eventsOpen a = false →
  (∀ s' a', Core tr s' → ss_attempts s' !! ak = Some a' → sa_eventsOpen a' = true → eventsPath a' = eventsPath a → same_numbers s s' → Q () s') →
  wp (openEvents os ak a) Q (λ _, True) s.
Proof.
  intros C Ha Ho HQ. unfold openEvents. wstep. apply wp_openExclusive; [done|]. intros Hnew. repeat wstep.
  pose proof (c_attempt _ _ _ C _ _ Ha) as A.
  assert (sa_eventsState a = CaptureStateNotProvided) as Hst.
  { destruct (decide (sa_eventsState a = CaptureStateNotProvided)) as [?|Hst]; [done|exfalso].
    assert (slots (ss_attempts s) (ak, None) = Some (eventsPath a, sa_eventsHash a, sa_eventsOpen a)) as Hs.
    { unfold slots. cbn. rewrite Ha. cbn. by rewrite decide_False. }
    destruct (g_slot _ _ _ _ (c_good _ _ _ C) _ _ _ _ Hs) as (? & _). congruence. }
  destruct (a_unopened _ _ _ _ _ _ A Hst) as [Hnone _].
  cbn. rewrite (alter_is_insert _ _ _ a) by done. set (a' := put_eventsState _ _).
  apply (HQ _ a'); [|cbn; by rewrite lookup_insert_eq|done..].
  destruct (good_new _ _ _ _ _ (c_good _ _ _ C) Hnew) as [HP HS].
  eapply (core_update tr tr s _ ak a a'); try done; try core_rest C; [| |by auto..].
  - rewrite ss_files_attempts, ss_files_set. cbn. eapply (good_slot _ _ _ _ _ _ (ak, None) (eventsPath a)); [apply C|..|done|done|].
    + rewrite (slots_insert _ _ a) by done. cbn. rewrite decide_True by done. by rewrite decide_False.
    + eapply slots_other; [done|]. by intros [[]|] ?.
    + cbn. by rewrite lookup_insert_eq.
    + intros q Hq. by rewrite lookup_insert_ne.
    + destruct (a_dir _ _ _ _ _ _ A) as [r Hr]. unfold eventsPath. rewrite Hr. by exists (r +:+ "/events.jsonl").
    + intros. apply HS.
  - destruct A as [? ? E1 E2]. split; cbn; try done; [by rewrite Hnone|]. by rewrite E2, E1, Hnone.
Qed.

Lemma inv_failed tr s e : Inv limits tr (failed e s).
Proof. by intros ?. Qed.
Lemma wp_ensureActive op tr s (Q : unit → Session → Prop) : Inv limits tr s →
  (Body limits tr s → ss_state s = StateActive → Q () s) → wp (ensureActive op) Q (Inv limits tr) s.
Proof. intros HI HQ. unfold ensureActive. repeat (wstep; try done). go_bool. auto. Qed.
(** What fails the session is proved for its success only. *)
Lemma wp_inv_failing {A} (m : W A) tr (Q : A → Session → Prop) s : wp m Q (λ _, True) s → wp (failing m) Q (Inv limits tr) s.
Proof. intros H. apply wp_failing. eapply wp_mono; [done..|]. intros ? _ e. apply inv_failed. Qed.
Lemma wp_ctx ctx E s (Q : unit → Session → Prop) : E s → Q () s → wp (check_ctx ctx) Q E s.
Proof. intros HE HQ. unfold check_ctx. destruct ctx; by wstep. Qed.

Lemma encodeEventLine_Ok e line : encodeEventLine limits e = Ok line → line = eventLine e ∧ 0 < oe_SequenceNumber e.
Proof.
  unfold encodeEventLine. intros [Hb H]%reject_bind_Ok. split.
  - destruct (ValidateEventDraft _ _); [|done]. apply reject_bind_Ok in H as [_ H]. apply reject_bind_Ok in H as [_ H]. by apply Ok_inj in H.
  - repeat (apply orb_false_iff in Hb as [Hb ?]). lia.
Qed.

(** What is written to an open slot. *)
Lemma good_write F S S' P L id p h data : good F S P L → S id = Some (p, h, true) → S' id = Some (p, h ++ data, true) →
  (∀ id', id' ≠ id → S' id' = S id') → good (alter (.++ data) p F) S' P L.
Proof.
  intros G Hid Hid' Hrest. destruct (g_slot _ _ _ _ G _ _ _ _ Hid) as (Hp & Hu & Hn & _).
  eapply (good_slot _ _ _ _ _ _ id p); [done..| | |done|auto|done|].
  - by rewrite lookup_alter_eq, Hp.
  - intros q Hq. by rewrite lookup_alter_ne.
  - intros i h' o' Hne Hi. by destruct Hne, (g_apart _ _ _ _ G _ _ _ _ _ _ _ Hi Hid).
Qed.

(** One more event of an attempt. *)
Lemma event_added_fields seq line a : let b := event_added seq line a in
  sa_key b = sa_key a ∧ sa_dir b = sa_dir a ∧ sa_eventsHash b = sa_eventsHash a ++ line ∧
  sa_eventsBytes b = sa_eventsBytes a + Z.of_nat (length line) ∧ sa_eventsCount b = sa_eventsCount a + 1 ∧
  sa_firstSeq b = (if sa_firstSeq a == 0 then seq else sa_firstSeq a) ∧ sa_lastSeq b = seq ∧ sa_eventsState b = CaptureStateCaptured ∧
  sa_eventsOpen b = sa_eventsOpen a ∧ ∀ st, log_of st b = log_of st a.
Proof. unfold event_added. cbn. destruct (bool_decide (sa_firstSeq a = 0)); cbn; split_and!; try done; by intros []. Qed.
Lemma concat_fmap_snoc {X Y} (f : X → list Y) l x : concat (f <$> l ++ [x]) = concat (f <$> l) ++ f x.
Proof. rewrite fmap_app, concat_app. cbn [fmap list_fmap concat]. by rewrite app_nil_r. Qed.
Lemma event_added_ok tr total inc ak a e : attempt_ok limits tr total inc ak a → attemptKeyString (event_key e) = ak →
  (∀ e, e ∈ events_of tr → 0 < oe_SequenceNumber e) →
  attempt_ok limits (tr ++ [Noted e]) total inc ak (event_added (oe_SequenceNumber e) (eventLine e) a).
Proof.
  intros [Hk Hd Hh Hb Hc Hf Hl Hu Hno Hlog] He Hpos.
  assert (attempt_events ak (tr ++ [Noted e]) = attempt_events ak tr ++ [e]) as Htr by (rewrite attempt_events_noted; by rewrite decide_True).
  destruct (event_added_fields (oe_SequenceNumber e) (eventLine e) a) as (E1 & E2 & E3 & E4 & E5 & E6 & E7 & E8 & E9 & E10).
  set (b := event_added _ _ a) in *. clearbody b. split; rewrite ?Htr.
  - by rewrite E1.
  - by rewrite E2.
  - by rewrite E3, Hh, concat_fmap_snoc.
  - rewrite E4, E3, Hb, length_app. lia.
  - rewrite E5, Hc, length_app. cbn. lia.
  - rewrite E6, Hf. destruct (attempt_events ak tr) as [|x l] eqn:El; [done|].
    assert (x ∈ events_of tr) as Hx%Hpos.
    { assert (x ∈ attempt_events ak tr) as Hx by (rewrite El; apply list_elem_of_here). by apply list_elem_of_filter in Hx as [_ ?]. }
    rewrite bool_decide_false by (cbn; lia). done.
  - by rewrite E7, last_snoc.
  - by rewrite E8.
  - intros st. rewrite E10, attempt_log_noted. apply Hno.
  - intros st c. rewrite E10, attempt_log_noted. intros Hst. specialize (Hlog st c Hst). unfold logPath in *. by rewrite E2.
Qed.

Lemma inv_Emit tr ctx e s : Inv limits tr s →
  wp (Emit limits os ctx e) (λ _, Inv limits (tr ++ [Noted e])) (Inv limits tr) s.
Proof.
  intros HI. unfold Emit. wstep. apply wp_ensureActive; [done|]. intros [C N] Hact. apply wp_inv_failing.
  wstep. apply wp_ctx; [done|]. wstep. wstep; [done|]. apply encodeEventLine_Ok in H as [-> Hpos]. wstep.
  eapply core_route; [done|]. intros s1 C1 Ed Er [a0 Ha0] En H1 H2 H3. wstep. wstep. rewrite Ha0.
  set (ak := attemptKeyString (event_key e)) in *. wstep.
  assert (∀ s2 a, Core tr s2 → ss_attempts s2 !! ak = Some a → sa_eventsOpen a = true → eventsPath a = eventsPath a0 → same_numbers s1 s2 →
    Inv limits (tr ++ [Noted e]) (set_totalEvents (ss_totalEvents s2 + 1) (set_attempts (alter (event_added (oe_SequenceNumber e) (eventLine e)) ak
      (ss_attempts s2)) (append_file (eventsPath a) (eventLine e) s2)))) as Hdone.
  { intros s2 a C2 Ha Ho Ep (F1 & F2 & F3) _. pose proof (c_attempt _ _ _ C2 _ _ Ha) as A.
    rewrite (alter_is_insert _ _ _ a) by done. destruct (event_added_fields (oe_SequenceNumber e) (eventLine e) a) as (_ & E2 & E3 & _ & _ & _ & _ & E8 & E9 & E10).
    assert (attempt_ok limits (tr ++ [Noted e]) (ss_totalLogBytes s2) (ss_evidenceIncomplete s2) ak (event_added (oe_SequenceNumber e) (eventLine e) a)) as A'.
    { apply event_added_ok; [done..|]. intros x [i Hi]%list_elem_of_lookup. destruct (proj2 N i x Hi) as (-> & _). lia. }
    set (b := event_added _ _ a) in *. set (line := eventLine e) in *. clearbody b line. split.
    - assert (sa_eventsState a ≠ CaptureStateNotProvided) as Hopened by (intros [_ ?]%(a_unopened _ _ _ _ _ _ A); congruence).
      eapply (core_update tr _ s2 _ ak a b); try done; try core_rest C2.
      + rewrite ss_files_events, ss_files_append. cbn. eapply (good_write _ _ _ _ _ (ak, None)); [apply C2|..].
        * unfold slots. cbn. rewrite Ha. cbn. rewrite decide_False by done. by rewrite Ho.
        * rewrite (slots_insert _ _ a) by done. cbn. rewrite decide_True by done. rewrite decide_False by by rewrite E8.
          unfold eventsPath. by rewrite E2, E3, E9, Ho.
        * eapply slots_other; [done|]. intros [st|] ?; [|done]. cbn. by rewrite E10.
      + intros ak' Hne. rewrite attempt_events_noted. split; [by rewrite decide_False by (by intros <-)|intros; apply attempt_log_noted].
      + intros x. rewrite events_of_app, elem_of_app. intros [?| ->%list_elem_of_singleton]; auto.
    - cbn. rewrite F1, F2, F3, En, Ed, Er. by apply numbered_noted with (next := ss_nextSequence s). }
  wstep.
  - wstep. wstep. wstep. unfold id in *. rewrite Ha0. cbn [default]. repeat (wstep; try done). by apply (Hdone s1 a0).
  - eapply core_openEvents; [done..|]. intros s2 a C2 Ha Ho Ep Hn. wstep. wstep. unfold id in *. rewrite Ha. cbn [default]. repeat (wstep; try done). by apply (Hdone s2 a).
Qed.

(** *** Logs *)

Lemma log_of_put st st' c x a : log_of st' (put_log st c x a) = if decide (st' = st) then Some c else log_of st' a.
Proof. by destruct st, st'. Qed.
Lemma put_log_twice st c c' x x' a : put_log st c' x' (put_log st c x a) = put_log st c' x' a.
Proof. by destruct st. Qed.
Lemma log_state_put st c x a : log_state st (put_log st c x a) = x.
Proof. by destruct st. Qed.
Lemma disclosed_mono (inc inc' : bool) L rs : (inc = true → inc' = true) → disclosed inc L rs → disclosed inc' L rs.
Proof. intros Hi H E. apply H. destruct inc; [|done]. rewrite Hi in E; done. Qed.
Definition same_rest s s' : Prop :=
  ss_attemptOrder s' = ss_attemptOrder s ∧ ss_payloads s' = ss_payloads s ∧ ss_entries s' = ss_entries s ∧ ss_totalBytes s' = ss_totalBytes s ∧
  ss_artifactRecords s' = ss_artifactRecords s ∧ ss_objectDigests s' = ss_objectDigests s.

(** An open log changes; [chunk] is written to it. *)
Lemma core_log tr tr' s s' ak a st c c' x chunk : Core tr s → ss_attempts s !! ak = Some a → log_of st a = Some c → lc_closed c = false →
  ss_attempts s' = <[ak := put_log st c' x a]> (ss_attempts s) → same_rest s s' → ss_files s' = alter (.++ chunk) (lc_path c) (ss_files s) →
  lc_hash c' = lc_hash c ++ chunk → log_ok limits (ss_totalLogBytes s') (ss_evidenceIncomplete s') (attempt_log ak st tr') (logPath a st) c' →
  ss_totalLogBytes s ≤ ss_totalLogBytes s' → (ss_evidenceIncomplete s = true → ss_evidenceIncomplete s' = true) →
  events_of tr' = events_of tr → (∀ ak' st', ak' ≠ ak ∨ st' ≠ st → attempt_log ak' st' tr' = attempt_log ak' st' tr) → Core tr' s'.
Proof.
  intros C Ha Hc Hop Em (R1 & R2 & R3 & R4 & R5 & R6) Ef Eh Hlog Ht Hi Hev Hlogs. pose proof (c_attempt _ _ _ C _ _ Ha) as A.
  assert (∀ ak', attempt_events ak' tr' = attempt_events ak' tr) as Hevs by (intros; unfold attempt_events; by rewrite Hev).
  eapply (core_update tr tr' s s' ak a (put_log st c' x a)); try done; rewrite ?R2, ?R3, ?R4, ?R5, ?R6; try core_rest C.
  - rewrite Ef, Em. assert (slots (ss_attempts s) (ak, Some st) = Some (lc_path c, lc_hash c, true)) as Hs.
    { unfold slots. cbn. rewrite Ha. cbn. rewrite Hc. cbn. by rewrite Hop. }
    assert (lc_path c = logPath a st) as Ep by by destruct (a_log _ _ _ _ _ _ A _ _ Hc).
    destruct (g_slot _ _ _ _ (c_good _ _ _ C) _ _ _ _ Hs) as (Hp & Hu & Hn & _).
    eapply (good_slot _ _ _ _ _ _ (ak, Some st) (lc_path c) (lc_hash c ++ chunk) (negb (lc_closed c'))); [apply C|..| |done|]; auto.
    + rewrite (slots_insert _ _ a) by done. cbn. rewrite decide_True by done. rewrite log_of_put, decide_True by done. cbn.
      by rewrite (proj1 Hlog), Eh, Ep.
    + eapply slots_other; [done|]. intros [st'|] ?; cbn; [|by destruct st]. rewrite log_of_put, decide_False by congruence. done.
    + by rewrite lookup_alter_eq, Hp.
    + intros q Hq. by rewrite lookup_alter_ne.
    + intros i h' o' Hne Hi'. by destruct Hne, (g_apart _ _ _ _ (c_good _ _ _ C) _ _ _ _ _ _ _ Hi' Hs).
  - destruct (attempt_ok_mono _ _ _ _ _ _ _ _ Ht Hi A) as [? ? ? ? ? ? ? ? Hn Hl]. split; rewrite ?Hevs; try (by destruct st).
    + intros st'. rewrite log_of_put. case_decide; [done|]. rewrite Hlogs by auto. apply Hn.
    + intros st' c1. rewrite log_of_put. case_decide as Hst; [by intros [= <-]; subst|]. rewrite Hlogs by auto. intros Hc1. by destruct st, st'; apply Hl.
  - auto.
  - rewrite Hev. auto.
  - eapply disclosed_mono; [done|]. apply C.
Qed.

Lemma attempt_log_logged ak st tr key st' p : attempt_log ak st (tr ++ [Logged key st' p]) =
  attempt_log ak st tr ++ (if decide (attemptKeyString key = ak ∧ st' = st) then p else []).
Proof. unfold attempt_log. rewrite omap_app, concat_app. cbn. case_decide; cbn; by rewrite ?app_nil_r. Qed.
Lemma events_of_logged tr key st p : events_of (tr ++ [Logged key st p]) = events_of tr.
Proof. rewrite events_of_app. apply app_nil_r. Qed.

Lemma wp_attemptForKey key (Q : string * attemptState → Session → Prop) E s : E s →
  (∀ a, ss_attempts s !! attemptKeyString key = Some a → Q (attemptKeyString key, a) s) → wp (attemptForKey key) Q E s.
Proof. intros HE HQ. unfold attemptForKey. repeat wstep; auto. Qed.
Lemma wp_openCapture key st op tr (Q : string * attemptState * LogCapture → Session → Prop) s : Inv limits tr s →
  (∀ a c, Body limits tr s → ss_state s = StateActive → ss_attempts s !! attemptKeyString key = Some a → log_of st a = Some c → lc_closed c = false →
     Q (attemptKeyString key, a, c) s) → wp (openCapture key st op) Q (Inv limits tr) s.
Proof.
  intros HI HQ. unfold openCapture. wstep. wstep. unfold id. destruct (ss_attempts s !! _) as [a|] eqn:Ha; cbn; [|by wstep].
  destruct (log_of st a) as [c|] eqn:Hc; cbn; [|by wstep]. repeat (wstep; try done). go_bool. auto.
Qed.
Lemma wp_update_log ak st f a c (Q : unit → Session → Prop) E s : ss_attempts s !! ak = Some a → log_of st a = Some c →
  Q () (set_attempts (<[ak := put_log st (f c) (log_state st a) a]> (ss_attempts s)) s) → wp (update_log ak st f) Q E s.
Proof. intros Ha Hc HQ. unfold update_log. repeat wstep. rewrite (alter_is_insert _ _ _ a) by done. by rewrite Hc. Qed.

Lemma inv_OpenLog tr ctx key st s : Inv limits tr s → wp (OpenLog limits os ctx key st) (λ _, Inv limits tr) (Inv limits tr) s.
Proof.
  intros HI. unfold OpenLog. wstep. apply wp_ensureActive; [done|]. intros [C N] Hact. wstep. apply wp_inv_failing, wp_ctx; [done|].
  wstep. apply wp_attemptForKey; [done|]. intros a Ha. cbn. wstep. wstep; [done|]. go_bool.
  assert (log_of st a = None) as Hc by by apply eq_None_not_Some.
  wstep. apply wp_inv_failing, wp_openExclusive; [done|]. intros Hnew. repeat wstep. intros _. split; [|done].
  cbn. rewrite (alter_is_insert _ _ _ a) by done. set (c := mkLogCapture _ _ _ _ _ _ _). set (ak := attemptKeyString key) in *.
  pose proof (c_attempt _ _ _ C _ _ Ha) as A. destruct (good_new _ _ _ _ _ (c_good _ _ _ C) Hnew) as [HP HS].
  eapply (core_update tr tr s _ ak a (put_log st c CaptureStateCapturedEmpty a)); try done; try core_rest C; [| |by auto..].
  - rewrite ss_files_attempts, ss_files_set. cbn. eapply (good_slot _ _ _ _ _ _ (ak, Some st) (logPath a st) [] true); [apply C|..|done|done|].
    + rewrite (slots_insert _ _ a) by done. cbn. rewrite decide_True by done. by rewrite log_of_put, decide_True.
    + eapply slots_other; [done|]. intros [st'|] ?; cbn; [|by destruct st]. rewrite log_of_put, decide_False by congruence. done.
    + by rewrite lookup_insert_eq.
    + intros q Hq. by rewrite lookup_insert_ne.
    + destruct (a_dir _ _ _ _ _ _ A) as [r Hr]. unfold logPath. rewrite Hr. eexists. reflexivity.
    + intros. apply HS.
  - destruct A as [? ? ? ? ? ? ? ? Hn Hl]. split; try (by destruct st).
    + intros st'. rewrite log_of_put. case_decide; [done|]. apply Hn.
    + intros st' c1. rewrite log_of_put. case_decide as Hst.
      * intros [= <-]. subst st'. split_and!; cbn; [by destruct st|done|done|]. left. by rewrite Hn.
      * intros Hc1. by destruct st, st'; apply Hl.
Qed.

(** How much of a write is stored. *)
Lemma log_ok_write total inc inc' logged p path c c' : log_ok limits total inc logged path c →
  let size := Z.of_nat (length p) in let remaining := Z.min (lc_limit c - lc_stored c) (l_MaxTotalLogBytes limits - total) in
  let chunk := if 0 <? remaining then (if remaining <? size then take (Z.to_nat remaining) p else p) else [] in
  lc_path c' = lc_path c → lc_limit c' = lc_limit c → lc_stored c' = lc_stored c + Z.of_nat (length chunk) → lc_hash c' = lc_hash c ++ chunk →
  lc_truncated c' = (lc_truncated c || (remaining <? size)) → inc' = (inc || (remaining <? size)) →
  log_ok limits (total + Z.of_nat (length chunk)) inc' (logged ++ p) path c'.
Proof.
  intros (Hp & Hs & Hi & Hl) size remaining chunk E1 E2 E3 E4 E5 ->. split_and!; [congruence|rewrite E3, E4, length_app; lia| |].
  - rewrite E5. intros [?|?]%orb_true_iff; apply orb_true_iff; auto.
  - rewrite E4, E5. subst chunk. destruct (remaining <? size) eqn:Hr.
    + right. rewrite orb_true_r. destruct (0 <? remaining) eqn:H0; [|rewrite app_nil_r]; go_bool.
      * destruct Hl as [->|(_ & _ & Hfull)]; [|lia]. split; [apply prefix_app, prefix_take|]. split; [done|].
        rewrite E2, E3, length_take. lia.
      * split; [|split; [done|rewrite E2, E3; cbn; lia]]. apply prefix_app_r. destruct Hl as [->|(? & _)]; done.
    + rewrite orb_false_r. go_bool. destruct (0 <? remaining) eqn:H0; go_bool.
      * destruct Hl as [->|(_ & _ & Hfull)]; [|lia]. by left.
      * assert (p = []) as -> by (destruct p; [done|cbn in *; lia]). rewrite !app_nil_r. destruct Hl as [->|(? & ? & ?)]; [by left|].
        right. split_and!; [done..|]. rewrite E2, E3. cbn. lia.
Qed.

Lemma alter_nil (F : gmap string bytes) p : alter (.++ []) p F = F.
Proof.
  apply map_eq. intros i. destruct (decide (i = p)) as [->|]; [|by rewrite lookup_alter_ne].
  rewrite lookup_alter_eq. destruct (F !! p); cbn; by rewrite ?app_nil_r.
Qed.
Lemma same_rest_refl s : same_rest s s.
Proof. by split_and!. Qed.

(** The same when the log has just been changed. *)
Lemma wp_update_again ak st f a c x m (Q : unit → Session → Prop) E s : ss_attempts s = <[ak := put_log st c x a]> m →
  Q () (set_attempts (<[ak := put_log st (f c) x a]> m) s) → wp (update_log ak st f) Q E s.
Proof.
  intros Em HQ. eapply wp_update_log; [by rewrite Em, lookup_insert_eq|by rewrite log_of_put, decide_True|].
  by rewrite Em, insert_insert, decide_True, put_log_twice, log_state_put by done.
Qed.
Ltac log_steps := repeat first [apply wp_inv_failing | wstep | eapply wp_update_again; [reflexivity|]].

Lemma inv_LogWrite tr key st p s : Inv limits tr s →
  wp (LogWrite limits os key st p) (λ _, Inv limits (tr ++ [Logged key st p])) (Inv limits tr) s.
Proof.
  intros HI. unfold LogWrite. wstep. apply wp_openCapture; [done|]. intros a c [C N] Hact Ha Hc Hop. cbn beta iota zeta.
  set (ak := attemptKeyString key) in *. set (size := Z.of_nat (length p)).
  set (remaining := Z.min (lc_limit c - lc_stored c) (l_MaxTotalLogBytes limits - ss_totalLogBytes s)).
  set (chunk := if 0 <? remaining then (if remaining <? size then take (Z.to_nat remaining) p else p) else []).
  assert (∀ s' c', ss_attempts s' = <[ak := put_log st c' (log_state st a) a]> (ss_attempts s) → same_rest s s' → same_numbers s s' →
    ss_files s' = alter (.++ chunk) (lc_path c) (ss_files s) → lc_path c' = lc_path c → lc_limit c' = lc_limit c →
    lc_stored c' = lc_stored c + Z.of_nat (length chunk) → lc_hash c' = lc_hash c ++ chunk → lc_truncated c' = (lc_truncated c || (remaining <? size)) →
    ss_evidenceIncomplete s' = (ss_evidenceIncomplete s || (remaining <? size)) → ss_totalLogBytes s' = ss_totalLogBytes s + Z.of_nat (length chunk) →
    Inv limits (tr ++ [Logged key st p]) s') as Hfin.
  { intros s' c' Em Hr (N1 & N2 & N3) Ef Ep El Es Eh Et Ei Elt _. split.
    - eapply (core_log tr _ s s' ak a st c c' _ chunk); try done.
      + rewrite attempt_log_logged, decide_True by done. rewrite Elt. eapply log_ok_write; try done.
        apply (c_attempt _ _ _ C _ _ Ha). done.
      + lia.
      + rewrite Ei. intros ->. done.
      + apply events_of_logged.
      + intros ak' st' Hne. rewrite attempt_log_logged, decide_False by naive_solver. apply app_nil_r.
    - unfold numbered. by rewrite events_of_logged, N1, N2, N3. }
  wstep. eapply wp_update_log; [done..|]. wstep. wstep. cbn [ss_totalLogBytes set_attempts]. fold remaining.
  fold size. assert (H0' : (0 <? remaining) = (0 <? remaining)) by done.
  destruct (0 <? remaining) eqn:H0 in |- *, (remaining <? size) eqn:H1 in |- *; log_steps;
    eapply Hfin; try done; cbn; subst chunk; rewrite ?H0, ?H1, ?orb_true_r, ?orb_false_r; cbn; rewrite ?app_nil_r, ?alter_nil, ?Z.add_0_r; try done;
    try (etransitivity; [|apply (ss_files_append (lc_path c) _ s)]; reflexivity).
Qed.

Lemma inv_MarkTruncated tr key st n s : Inv limits tr s → wp (MarkTruncated key st n) (λ _, Inv limits tr) (Inv limits tr) s.
Proof.
  intros HI. unfold MarkTruncated. wstep. apply wp_openCapture; [done|]. intros a c [C N] Hact Ha Hc Hop. cbn beta iota zeta.
  wstep. eapply wp_update_log; [done..|]. log_steps. intros _. split; [|done].
  eapply (core_log tr _ s _ _ a st c _ _ []); try done; cbn; rewrite ?app_nil_r, ?alter_nil; try done.
  destruct (a_log _ _ _ _ _ _ (c_attempt _ _ _ C _ _ Ha) _ _ Hc) as (? & ? & ? & Hl). split_and!; try done. cbn.
  destruct Hl as [?|(? & ? & ?)]; [by left|by right].
Qed.

(** Closing a log; the entry of a log may be refused, and then the session stays. *)
Lemma core_closeLog tr s ak st (Q : unit → Session → Prop) (E : Session → Prop) : Core tr s →
  (∀ s', Core tr s' → same_run s s' → ss_state s' = ss_state s → Q () s' ∧ E s') → (∀ s' e, E (failed e s')) →
  wp (closeLog limits os ak st) Q E s.
Proof.
  intros C HQ HE. unfold closeLog. wstep. wstep. unfold id. destruct (ss_attempts s !! ak) as [a|] eqn:Ha; cbn; [|wstep; by apply HQ].
  destruct (log_of st a) as [c|] eqn:Hc; cbn; [|wstep; by apply HQ]. destruct (lc_closed c) eqn:Hop; [wstep; by apply HQ|].
  wstep. eapply wp_update_log; [done..|]. log_steps; try done.
  set (x := if lc_truncated c then _ else _). set (e := logEntry a st c x). cbn [ss_attempts set_attempts].
  rewrite (alter_is_insert _ _ _ (put_log st (log_closed c) (log_state st a) a)) by apply lookup_insert_eq.
  rewrite insert_insert, decide_True, put_log_twice by done. set (s1 := set_attempts _ _).
  pose proof (a_log _ _ _ _ _ _ (c_attempt _ _ _ C _ _ Ha) _ _ Hc) as Hlog.
  assert (Core tr s1) as C1.
  { eapply (core_log tr _ s _ _ a st c (log_closed c) _ []); try done; cbn; rewrite ?app_nil_r, ?alter_nil; done. }
  assert (same_run s s1) as S1 by (eapply same_run_insert; try done; by destruct st).
  assert (slots (ss_attempts s1) (ak, Some st) = Some (lc_path c, lc_hash c, false)) as Hs.
  { subst s1. cbn. rewrite (slots_insert _ _ a) by done. cbn. by rewrite decide_True, log_of_put, decide_True. }
  destruct (g_slot _ _ _ _ (c_good _ _ _ C1) _ _ _ _ Hs) as (Hp & _).
  apply wp_addEntry; [by apply HQ|]. intros Hroom.
  assert (Core tr (added e s1) ∧ same_run s1 (added e s1)) as [C2 S2].
  { apply core_added; [done|by exists (ss_parent s1); destruct s1| |done|].
    - apply good_list; [apply C1| |apply Hroom|].
      + exists (lc_hash c). split_and!; [done..|]. apply Hlog.
      + intros id h Hid. pose proof (g_apart _ _ _ _ (c_good _ _ _ C1) _ _ _ _ _ _ _ Hid Hs) as ->. congruence.
    - cbn. destruct Hlog as (_ & _ & Hi & _). destruct (lc_truncated c); [|done]. by rewrite Hi. }
  apply HQ; [done|by etrans|done].
Qed.
Lemma inv_CloseLog tr key st s : Inv limits tr s → wp (CloseLog limits os key st) (λ _, Inv limits tr) (Inv limits tr) s.
Proof.
  intros HI. destruct (decide (ss_state s = StateActive)) as [Hact|Hact].
  - destruct (HI Hact) as [C N]. eapply core_closeLog; [done| |intros; apply inv_failed].
    intros s' C' (N1 & N2 & N3 & _) _. assert (Inv limits tr s') as HI' by (intros _; split; [done|]; unfold numbered; by rewrite N1, N2, N3). done.
  - assert (∀ s', ss_state s' = ss_state s → Inv limits tr s') as HI' by (intros s' E ?; congruence).
    unfold CloseLog, closeLog. wstep. wstep. unfold id. destruct (ss_attempts s !! _) as [a|] eqn:Ha; cbn; [|wstep; by apply HI'].
    destruct (log_of st a) as [c|] eqn:Hc; cbn; [|wstep; by apply HI']. destruct (lc_closed c); [wstep; by apply HI'|].
    wstep. eapply wp_update_log; [done..|]. log_steps; try done; try (intros; by apply HI'). apply wp_addEntry; intros; by apply HI'.
Qed.

(** *** Artifacts *)

Lemma core_recordArtifact tr s ak a rec (Q : ArtifactRecord → Session → Prop) E : Core tr s → ss_attempts s !! ak = Some a →
  omitted (arr_Disposition rec) = true ∨
  arr_Disposition rec = ArtifactDispositionStored ∧ ss_objectDigests s !! arr_Digest rec = Some (arr_ObjectPath rec) →
  (∀ s', Core tr s' → same_run s s' → Q rec s') → wp (recordArtifact ak rec) Q E s.
Proof.
  intros C Ha Hrec HQ. unfold recordArtifact.
  assert (∀ inc a', inc = (ss_evidenceIncomplete s || omitted (arr_Disposition rec)) →
    sa_key a' = sa_key a → sa_dir a' = sa_dir a → (∀ k, slot_of a' k = slot_of a k) → sa_eventsOpen a' = sa_eventsOpen a →
    attempt_ok limits tr (ss_totalLogBytes s) (ss_evidenceIncomplete s) ak a' →
    Q rec (set_evidenceIncomplete inc (set_artifactRecords (ss_artifactRecords s ++ [rec]) (set_attempts (<[ak := a']> (ss_attempts s)) s)))) as H.
  { intros inc a' -> E1 E2 E3 E4 A'. apply HQ; [|eapply (same_run_insert _ _ ak a a'); try done; by rewrite E4].
    eapply (core_update tr tr s _ ak a a'); try done; cbn; try apply (c_accounted _ _ _ C); [| |by auto|by intros ->| |].
    - eapply good_ext; [apply C|]. by eapply slots_same.
    - eapply attempt_ok_mono; [done| |done]. by intros ->.
    - intros [Hi Ho]%orb_false_iff. destruct (c_disclosed _ _ _ C Hi) as [D1 D2]. split; [done|].
      intros r [Hr| ->%list_elem_of_singleton]%elem_of_app; [by apply D2|]. destruct Hrec as [?|[? _]]; [congruence|done].
    - destruct (c_objects _ _ _ C) as [O1 O2]. split; [done|]. intros r [Hr| ->%list_elem_of_singleton]%elem_of_app Hst; [by apply O2|].
      destruct Hrec as [Hom|[_ ?]]; [|done]. by rewrite Hst in Hom. }
  wstep. wstep. wstep. rewrite (alter_is_insert _ _ _ a) by done.
  assert (∀ X, set_evidenceIncomplete (ss_evidenceIncomplete X) X = X) as Hset by by intros [].
  assert (∀ v, attempt_ok limits tr (ss_totalLogBytes s) (ss_evidenceIncomplete s) ak (put_artifactsState v (put_artifactRecords (sa_artifactRecords a ++ [rec]) a))) as A'.
  { intros v. destruct (c_attempt _ _ _ C _ _ Ha). by split. }
  repeat wstep.
  - apply (H true); [by rewrite orb_true_r|done|done|by intros [[]|]|done|apply A'].
  - rewrite <- (Hset (set_artifactRecords _ _)). apply H; [by rewrite orb_false_r|done|done|by intros [[]|]|done|apply A'].
Qed.

(** A file of the session's own, while it is written. *)
Record own_file tr s (tmp : string) : Prop := {
  o_core : Core tr s;
  o_listed : tmp ∉ ss_payloads s;
  o_slot : ∀ id h o, slots (ss_attempts s) id ≠ Some (tmp, h, o)
}.
Lemma own_write tr s tmp d : own_file tr s tmp → (∀ q, q ≠ tmp → ss_files (set_parent d s) !! q = ss_files s !! q) → own_file tr (set_parent d s) tmp.
Proof.
  intros [C Hp Hs] Hq. split; [|done..]. split; try apply C. change (good (ss_files (set_parent d s)) (slots (ss_attempts s)) (ss_payloads s) (ss_entries s)).
  eapply good_private; [apply C|done..].
Qed.
Lemma set_files_parent f s : ∃ d, set_files f s = set_parent d s ∧ ss_files (set_parent d s) = f.
Proof. eexists. split; [reflexivity|]. apply ss_files_set. Qed.
Lemma own_set tr s tmp f : own_file tr s tmp → (∀ q, q ≠ tmp → f !! q = ss_files s !! q) → own_file tr (set_files f s) tmp.
Proof. intros O Hq. destruct (set_files_parent f s) as (d & -> & Hf). apply own_write; [done|]. by rewrite Hf. Qed.
Lemma same_run_files f s : same_run s (set_files f s).
Proof. unfold same_run. cbn. split_and!; eauto. Qed.

Lemma own_stream tr ctx tmp max reader i acc s (Q : bytes * option Z → Session → Prop) :
  own_file tr s tmp → ss_files s !! tmp = Some acc →
  (∀ r s', own_file tr s' tmp → same_run s s' → ss_attempts s' = ss_attempts s → ss_files s' !! tmp = Some r.1 → Q r s') →
  wp (streamArtifact os ctx i tmp max acc reader) Q (λ _, True) s.
Proof.
  revert i acc s. induction reader as [|[chunk stop] reader IH]; intros i acc s O Hf HQ; cbn [streamArtifact]; wstep; apply wp_ctx; [done| |done|].
  - wstep. by apply HQ.
  - assert (∀ s', own_file tr s' tmp → same_run s s' → ss_attempts s' = ss_attempts s → ss_files s' !! tmp = Some (acc ++ chunk) →
      wp match stop with
         | ReadMore => streamArtifact os ctx (S i) tmp max (acc ++ chunk) reader
         | ReadEOF => mret (acc ++ chunk, None)
         | ReadFailed => raise (errCode "artifact-write-failed" "artifact" "read")
         end Q (λ _, True) s') as Hafter.
    { intros s' O' S' A' Hf'. destruct stop; [|wstep; by apply HQ|by wstep].
      apply IH; [done..|]. intros r s2 O2 S2 A2 Hf2. apply HQ; [done|by etrans|congruence|done]. }
    case_bool_decide as Hc; [subst chunk; apply Hafter; [done..|by rewrite app_nil_r]|].
    wstep; [wstep; by apply HQ|]. wstep. wstep. unfold append_file. apply Hafter.
    + apply own_set; [done|]. intros q Hq. by rewrite lookup_alter_ne.
    + apply same_run_files.
    + done.
    + by rewrite ss_files_set, lookup_alter_eq, Hf.
Qed.

(** The object of an artifact is put in its place and listed. *)
Lemma core_object tr s tmp path data (Q : unit → Session → Prop) dir : own_file tr s tmp → ss_files s !! tmp = Some data →
  path = objectPathForDigest (BundleWriter.digestBytes data) →
  (∀ s', Core tr s' → same_run s s' → ss_attempts s' = ss_attempts s → ss_objectDigests s' !! BundleWriter.digestBytes data = Some path → Q () s') →
  wp (failing (
      undoing (mkdir limits os dir) (remove_file os tmp) ;;
      undoing (rename_file os tmp path (pathErr "artifact-write-failed" "artifact" "rename" path)) (remove_file os tmp) ;;
      addEntry limits (mkManifestEntry path EntryRoleArtifactObject "application/octet-stream" (BundleWriter.digestBytes data) (Z.of_nat (length data)) "" "" 0
        CaptureStateCaptured false false 0 0)) ;;
    modify (λ s, set_objectDigests (<[BundleWriter.digestBytes data := path]> (ss_objectDigests s)) s)) Q (Inv limits tr) s.
Proof.
  intros O Hf Ep HQ. wstep. apply wp_inv_failing. wstep. wstep. apply wp_mkdir; [done|]. intros s1 Hs1.
  assert (own_file tr s1 tmp ∧ ss_files s1 = ss_files s ∧ same_run s s1 ∧ ss_attempts s1 = ss_attempts s) as (O1 & F1 & S1 & A1).
  { destruct Hs1 as [->|[d ->]]; [by split_and!|]. split_and!; [|apply ss_files_dirs|unfold same_run; cbn; split_and!; eauto|done]. apply own_write; [done|]. intros q _.
    change (ss_files (set_parent _ s)) with (ss_files (set_dir (mkDir (d_files (ss_dir s)) d) s)). by rewrite ss_files_dirs. }
  wstep. wstep. apply wp_rename_file. intros data' Hd. rewrite F1, Hf in Hd. injection Hd as <-.
  set (e := mkManifestEntry _ _ _ _ _ _ _ _ _ _ _ _ _). apply wp_addEntry; [done|]. intros Hroom. wstep.
  destruct (set_files_parent (<[path := data]> (delete tmp (ss_files s1))) s1) as (d & -> & Hfd).
  destruct O1 as [C1 P1 T1].
  assert (∀ id h o, slots (ss_attempts s1) id ≠ Some (path, h, o)) as Hpath.
  { intros id h o Hid. destruct (g_slot _ _ _ _ (c_good _ _ _ C1) _ _ _ _ Hid) as (_ & (r & Hr) & _). rewrite Ep in Hr. by inversion Hr. }
  destruct (core_added tr s1 (set_parent d s1) e C1) as [C2 S2]; [eauto| |done|done|].
  - rewrite Hfd. apply good_list.
    + eapply (good_private (delete tmp (ss_files s1)) _ _ _ _ path); [|apply Hroom|done|by intros; rewrite lookup_insert_ne].
      eapply (good_private (ss_files s1) _ _ _ _ tmp); [apply C1|done..|]. intros q Hq. by rewrite lookup_delete_ne.
    + exists data. cbn. by rewrite lookup_insert_eq.
    + apply Hroom.
    + intros id h. apply Hpath.
  - apply HQ.
    + split; try apply C2. destruct (c_objects _ _ _ C2) as [O1 O2]. split.
      * intros g q. cbn. destruct (decide (g = BundleWriter.digestBytes data)) as [->|]; [rewrite lookup_insert_eq|rewrite lookup_insert_ne by done; apply O1].
        intros [= <-]. exists e. split_and!; [|done..]. apply elem_of_app. right. by apply list_elem_of_singleton.
      * intros r Hr Hst. cbn. specialize (O2 r Hr Hst). destruct (decide (arr_Digest r = BundleWriter.digestBytes data)) as [Er|]; [|by rewrite lookup_insert_ne].
        rewrite Er, lookup_insert_eq. destruct (O1 _ _ O2) as (? & ? & ? & ? & Eo). by rewrite Eo, Er, Ep.
    + by etrans.
    + done.
    + cbn. by rewrite lookup_insert_eq.
Qed.

Lemma wp_closing e (Q : unit → Session → Prop) E s : Q () s → wp (closing os e) Q E s.
Proof. intros HQ. unfold closing. by wstep; wstep. Qed.
Lemma inv_of_core tr s s' : Body limits tr s → Core tr s' → same_run s s' → Inv limits tr s'.
Proof. intros [_ N] C' (N1 & N2 & N3 & _) _. split; [done|]. unfold numbered. by rewrite N1, N2, N3. Qed.
Lemma same_run_attempt s s' ak a : same_run s s' → ss_attempts s !! ak = Some a → ∃ a', ss_attempts s' !! ak = Some a'.
Proof. intros (_ & _ & _ & _ & Hd & _) Ha. apply Hd. eauto. Qed.

Lemma inv_AddArtifact tr ctx i s : Inv limits tr s → wp (AddArtifact limits os rand ctx i) (λ _, Inv limits tr) (Inv limits tr) s.
Proof.
  intros HI. unfold AddArtifact. wstep. apply wp_ensureActive; [done|]. intros B Hact. destruct B as [C N].
  wstep. apply wp_inv_failing, wp_ctx; [done|]. wstep. apply wp_attemptForKey; [done|]. intros a Ha. cbn beta iota.
  set (ak := attemptKeyString (ai_Attempt i)) in *. destruct (ai_Reader i) as [reader|]; [|by wstep]. cbv zeta.
  wstep. wstep; [done|]. wstep. wstep. wstep. wstep; [done|]. wstep. wstep. unfold id.
  set (lk := artifactKey _ _). set (s1 := set_artifactLogical _ s).
  assert (Core tr s1) as C1 by by split; apply C. assert (same_run s s1) as S1 by (unfold same_run; cbn; split_and!; eauto).
  clearbody s1. rename H0 into Hdup. destruct (same_run_attempt _ _ _ _ S1 Ha) as [a1 Ha1].
  assert (∀ s' rec E, Core tr s' → same_run s s' → omitted (arr_Disposition rec) = true →
    wp (recordArtifact ak rec) (λ _, Inv limits tr) E s') as Hom.
  { intros s' rec E C' S' Ho. destruct (same_run_attempt _ _ _ _ S' Ha) as [a' Ha']. eapply core_recordArtifact; [done..|by left|].
    intros s2 C2 S2. apply (inv_of_core tr s); [by split|done|by etrans]. }
  wstep; [by apply Hom|]. set (max := Z.min _ _). wstep; [by apply Hom|]. wstep; [by apply Hom|].
  wstep. apply wp_inv_failing. wstep. apply wp_randomName; [done|]. intros name. wstep. set (tmp := ("objects/sha256/" +:+ name)%string).
  apply wp_openExclusive; [done|]. intros Hnew. wstep. 
  assert (own_file tr (set_files (<[tmp := []]> (ss_files s1)) s1) tmp) as O2.
  { destruct (good_new _ _ _ _ _ (c_good _ _ _ C1) Hnew). apply own_set; [by split|]. intros q Hq. by rewrite lookup_insert_ne. }
  wstep. apply wp_inv_failing. wstep. eapply own_stream; [done|by rewrite ss_files_set, lookup_insert_eq|].
  intros [data over] s3 O3 S3 A3 Hf3. cbn in Hf3. assert (same_run s s3) as S03 by (etrans; [done|]; etrans; [apply same_run_files|done]).
  clear S3 A3 O2. 
  assert (∀ s', own_file tr s' tmp → own_file tr (set_files (delete tmp (ss_files s')) s') tmp) as Hdel.
  { intros s' O. apply own_set; [done|]. intros q Hq. by rewrite lookup_delete_ne. }
  assert (∀ (Q : unit → Session → Prop) E s', own_file tr s' tmp → (∀ s2, own_file tr s2 tmp → same_run s' s2 → ss_objectDigests s2 = ss_objectDigests s' → Q () s2) → wp (remove_file os tmp) Q E s') as Hrm.
  { intros Q E s' O HQ. apply wp_remove_file; [by apply HQ|]. apply HQ; [by apply Hdel|apply same_run_files|done]. }
  destruct over as [observed|].
  { wstep. apply wp_closing. wstep. apply Hrm; [done|]. intros s4 [C4 _ _] S4 _. apply Hom; [done|by etrans|done]. }
  wstep. apply wp_inv_failing. wstep. wstep; [done|]. wstep. apply wp_inv_failing. wstep. wstep; [done|]. wstep. wstep. wstep.
  assert (∀ s', Core tr s' → same_run s s' → ss_objectDigests s' !! BundleWriter.digestBytes data = Some (objectPathForDigest (BundleWriter.digestBytes data)) →
    wp (modify (λ s, set_totalArtifactBytes (ss_totalArtifactBytes s + Z.of_nat (length data)) s) ;; recordArtifact ak (storedRecord i data))
      (λ _, Inv limits tr) (Inv limits tr) s') as Hst.
  { intros s' C' S' Ho. wstep. wstep. destruct (same_run_attempt _ _ _ _ S' Ha) as [a' Ha'].
    eapply core_recordArtifact; [by split; apply C'|done|by right|].
    intros s2 C2 S2. apply (inv_of_core tr s); [by split|done|]. etrans; [done|]. exact S2. }
  destruct O3 as [C3 P3 T3]. wstep.
  - go_bool. apply Hrm; [by split|]. intros s4 [C4 _ _] S4 Eo. apply Hst; [done|by etrans|]. rewrite Eo.
    match goal with H : is_Some _ |- _ => destruct H as [q Hq] end. rewrite Hq. destruct (c_objects _ _ _ C3) as [O1 _]. by destruct (O1 _ _ Hq) as (? & ? & ? & ? & ->).
  - eapply core_object; [by split|done|done|]. intros s4 C4 S4 _ Ho. apply Hst; [done|by etrans|done].
Qed.

Lemma inv_RecordArtifactOmission tr ctx i s : Inv limits tr s → wp (RecordArtifactOmission limits ctx i) (λ _, Inv limits tr) (Inv limits tr) s.
Proof.
  intros HI. unfold RecordArtifactOmission. wstep. apply wp_ensureActive; [done|]. intros [C N] Hact.
  wstep. apply wp_inv_failing, wp_ctx; [done|]. wstep. apply wp_attemptForKey; [done|]. intros a Ha. cbn beta iota.
  wstep. wstep; [done|]. go_bool. wstep. wstep; [done|]. wstep. wstep. wstep. wstep; [done|]. wstep. wstep; [done|]. wstep. wstep.
  set (s1 := set_artifactLogical _ _). assert (Core tr s1) as C1 by by split; apply C.
  eapply core_recordArtifact; [done|done|by left|]. intros s2 C2 S2. apply (inv_of_core tr s1); done.
Qed.
Lemma inv_MarkArtifactCollectionComplete tr ctx key s : Inv limits tr s →
  wp (MarkArtifactCollectionComplete ctx key) (λ _, Inv limits tr) (Inv limits tr) s.
Proof.
  intros HI. unfold MarkArtifactCollectionComplete. wstep. apply wp_ensureActive; [done|]. intros [C N] Hact.
  wstep. apply wp_inv_failing, wp_ctx; [done|]. wstep. apply wp_attemptForKey; [done|]. intros a Ha. cbn beta iota.
  wstep; [|by wstep]. wstep. wstep. intros _. split; [|done]. rewrite (alter_is_insert _ _ _ a) by done.
  eapply core_put; [done..|by intros [[]|]|]. destruct (c_attempt _ _ _ C _ _ Ha). by split.
Qed.
Lemma inv_Abort tr s : Inv limits tr s → wp (Abort os) (λ _, Inv limits tr) (Inv limits tr) s.
Proof. intros HI. unfold Abort, removeAll. repeat (wstep; try done). Qed.

(** *** The beginning *)

Lemma wp_any {A} (m : W A) (Q : A → Session → Prop) (E : Session → Prop) s : (∀ a s', Q a s') → (∀ s', E s') → wp m Q E s.
Proof. intros HQ HE n. destruct (m n s) as [[[a|e] ?] s']; auto. Qed.

(** A session of which nothing is known but that it began. *)
Definition begun s : Prop := Core [] s ∧ ss_nextSequence s = 0.
Lemma newAttempt_ok a : attempt_ok limits [] 0 false (attemptKeyString (attemptKeyOf a)) (newAttempt a).
Proof. split; cbn; try done; try (by intros []). by eexists. Qed.
Lemma wp_addAttempt a (Q : unit → Session → Prop) s : begun s → ss_totalLogBytes s = 0 → ss_evidenceIncomplete s = false →
  (∀ s', begun s' → ss_totalLogBytes s' = 0 → ss_evidenceIncomplete s' = false → Q () s') → wp (addAttempt a) Q (λ _, True) s.
Proof.
  intros [C Hn] Ht Hi HQ. unfold addAttempt. repeat (wstep; try done). go_bool.
  match goal with H : ¬ is_Some _ |- _ => apply eq_None_not_Some in H; rename H into Hnew end.
  set (ak := attemptKeyString (attemptKeyOf a)) in *. apply HQ; [|done..]. split; [|done]. split; cbn; try apply C.
  - eapply good_ext; [apply C|]. intros id. unfold slots. destruct (decide (id.1 = ak)) as [->|]; [|by rewrite lookup_insert_ne].
    rewrite lookup_insert_eq, Hnew. cbn. by destruct id as [? [[]|]].
  - intros ak' b. destruct (decide (ak' = ak)) as [->|]; [rewrite lookup_insert_eq|rewrite lookup_insert_ne by done; apply C].
    intros [= <-]. rewrite Ht, Hi. apply newAttempt_ok.
  - intros ? []%not_elem_of_nil.
  - intros ak'. destruct (decide (ak' = ak)) as [->|]; [set_solver|rewrite lookup_insert_ne by done].
    intros ?%(c_order _ _ _ C). set_solver.
Qed.
Lemma begun_dirs s s' : begun s → s' = s ∨ (∃ d, s' = set_dir (mkDir (d_files (ss_dir s)) d) s) → begun s'.
Proof.
  intros [C Hn] [->|[d ->]]; [done|]. split; [|done]. pose proof (ss_files_dirs d s) as Hf. split; try apply C.
  rewrite Hf. apply C.
Qed.
Lemma begun_mkdirs l s (Q : unit → Session → Prop) : begun s → (∀ s', begun s' → Q () s') → wp (forW (mkdir limits os) l) Q (λ _, True) s.
Proof.
  intros HB HQ. eapply wp_mono; [eapply (wp_forW _ _ (λ _, begun))|by intros []; apply HQ|done]; [done|].
  intros x _ s' HB'. apply wp_mkdir; [done|]. intros s2. by apply begun_dirs.
Qed.

Lemma inv_Begin ctx plan parent : wp (Begin limits os rand ctx plan) (λ _, Inv limits []) (λ _, True) (beginning parent).
Proof.
  unfold Begin. wstep. apply wp_ctx; [done|]. destruct plan as [plan|]; [|by wstep]. cbv zeta.
  do 3 (wstep; wstep; [done|]). wstep. wstep; [wstep|by wstep]. wstep. wstep; [done|].
  wstep. apply wp_any; [|done]. intros staging s1. wstep. wstep. set (s2 := newSession _ _ _ _).
  assert (begun s2) as B2.
  { split; [|done]. split; cbn; try done.
    - split; cbn; [by intros [] *|by intros ? ? *|by intros ? ?%not_elem_of_nil|done|constructor].
    - by intros ? ?%not_elem_of_nil.
    - intros ? [? ?]. done.
    - split; [done|by left].
    - intros _. split; by intros ? ?%not_elem_of_nil.
    - split; [done|by intros ? ?%not_elem_of_nil]. }
  wstep. wstep. eapply wp_mono; [eapply (wp_forW _ _ (λ _ s, begun s ∧ ss_totalLogBytes s = 0 ∧ ss_evidenceIncomplete s = false))| |done]; [done| |].
  { intros x _ s0 (HB & Ht & Hi). by apply wp_addAttempt. }
  intros [] s3 (B3 & _). wstep. wstep. apply begun_mkdirs; [done|]. intros s4 B4. wstep. wstep. wstep.
  eapply wp_mono; [eapply (wp_forW _ _ (λ _, begun))| |done]; [done| |].
  { intros ak _ s HB. unfold mkAttemptDir. wstep. wstep. destruct (ss_attempts s !! ak); [|by wstep]. by apply begun_mkdirs. }
  intros [] s5 [C5 N5]. eapply core_payload; [done|]. intros s6 C6 (_ & _ & N6 & _) _ _ _ _. split; [done|].
  split; [by rewrite N6, N5|]. by intros.
Qed.

(** *** The end *)

(** The files of events that are open belong to the attempts of [l]. *)
Definition open_in (l : list string) s : Prop := ∀ ak a, ss_attempts s !! ak = Some a → sa_eventsOpen a = true → ak ∈ l.
Lemma open_in_same l s s' : same_run s s' → open_in l s → open_in l s'.
Proof. intros (_ & _ & _ & _ & _ & Ha) Ho ak a' Hl Hop. destruct (Ha _ _ Hl) as (a & Hla & _ & _ & Himp). apply (Ho ak a Hla). auto. Qed.

Lemma core_finalizeAttempt tr s ak l (Q : unit → Session → Prop) : Core tr s → open_in (ak :: l) s →
  (∀ s', Core tr s' → same_run s s' → open_in l s' → Q () s') → wp (finalizeAttempt limits os ak) Q (λ _, True) s.
Proof.
  intros C Ho HQ. unfold finalizeAttempt. wstep. eapply core_closeEvents; [done|]. intros s1 C1 S1 _ Hcl.
  assert (open_in l s1) as Ho1.
  { intros ak' a' Hl Hop. pose proof (open_in_same _ _ _ S1 Ho ak' a' Hl Hop) as [->|?]%elem_of_cons; [|done]. rewrite (Hcl _ Hl) in Hop. done. }
  wstep. eapply core_closeLog; [done| |done]. intros s2 C2 S2 _. split; [|done].
  wstep. eapply core_closeLog; [done| |done]. intros s3 C3 S3 _. split; [|done].
  assert (same_run s1 s3) as S13 by by etrans. assert (open_in l s3) as Ho3 by by eapply open_in_same.
  assert (same_run s s3) as S03 by by etrans. wstep. wstep.
  destruct (ss_attempts s3 !! ak) as [a|] eqn:Ha; [|wstep; by apply HQ]. wstep; [|wstep; by apply HQ].
  unfold writeArtifactIndex. wstep. wstep; [done|]. eapply core_payload; [done|]. intros s4 C4 S4 _ _ _.
  apply HQ; [done|by etrans|by eapply open_in_same].
Qed.
Lemma core_finalizeCaptures tr s (Q : unit → Session → Prop) : Core tr s →
  (∀ s', Core tr s' → same_run s s' → open_in [] s' → Q () s') → wp (finalizeCaptures limits os) Q (λ _, True) s.
Proof.
  intros C HQ. unfold finalizeCaptures. wstep. wstep.
  eapply wp_mono; [eapply (wp_forW _ _ (λ l s', Core tr s' ∧ same_run s s' ∧ open_in l s'))| |done].
  - split_and!; [done|done|]. intros ak a Ha _. apply (c_order _ _ _ C). eauto.
  - intros ak l s1 (C1 & S1 & O1). eapply core_finalizeAttempt; [done..|]. intros s2 C2 S2 O2. split_and!; [done|by etrans|done].
  - intros [] s' (? & ? & ?). by apply HQ.
Qed.
Lemma core_writeResults tr s c (Q : unit → Session → Prop) : Core tr s →
  (∀ s', Core tr s' → same_run s s' → Q () s') → wp (writeResults limits os c) Q (λ _, True) s.
Proof.
  intros C HQ. unfold writeResults. cbv zeta. wstep. wstep. wstep. wstep; [done|]. wstep. wstep; [done|]. wstep. wstep; [done|]. wstep.
  eapply wp_mono; [eapply (wp_forW _ _ (λ _ s', Core tr s' ∧ same_run s s') (λ _, True))| |done]; [done| |].
  - intros ak _ s1 [C1 S1]. unfold writeResult. wstep. wstep. destruct (ss_attempts s1 !! ak) as [x|] eqn:Ha; [|by wstep].
    wstep; [|by wstep]. wstep. wstep; [done|]. wstep. eapply core_payload; [done|]. intros s2 C2 S2 A2 _ _. wstep. wstep.
    rewrite A2, (alter_is_insert _ _ _ x) by done. rewrite <- A2. rewrite <- A2 in Ha. split.
    + eapply core_put; [done..|by intros [[]|]|]. destruct (c_attempt _ _ _ C2 _ _ Ha). by split.
    + etrans; [done|]. etrans; [done|]. by eapply (same_run_insert _ _ ak x).
  - intros [] s1 [C1 S1]. wstep. wstep. eapply core_payload; [done|]. intros s2 C2 S2 _ _ _. apply HQ; [done|by etrans].
Qed.

(** The manifest is put beside what it lists. *)
Lemma core_writeManifest tr s data (Q : unit → Session → Prop) : Core tr s → "manifest.json" ∉ ss_payloads s →
  (∀ d, Core tr (set_parent d s) → ss_files (set_parent d s) !! "manifest.json" = Some data → Q () (set_parent d s)) →
  wp (writeManifest os data) Q (λ _, True) s.
Proof.
  intros C Hm HQ. unfold writeManifest. cbv zeta. wstep. apply wp_openExclusive; [done|]. intros Hnew. set (tmp := "manifest.json.tmp"%string) in *.
  destruct (good_new _ _ _ _ _ (c_good _ _ _ C) Hnew) as [HP HS].
  wstep. wstep. unfold append_file. rewrite ss_files_set, alter_insert, decide_True by done. cbn [app].
  wstep. wstep; [done|]. wstep. wstep; [done|]. apply wp_rename_file. intros data' Hd.
  rewrite ss_files_set, lookup_insert_eq in Hd. injection Hd as <-. rewrite ss_files_set.
  set (F := <["manifest.json":=data]> _).
  assert (∃ d, set_files F (set_files (<[tmp:=data]> (ss_files s)) (set_files (<[tmp:=[]]> (ss_files s)) s)) = set_parent d s ∧ ss_files (set_parent d s) = F)
    as (d & -> & HF).
  { eexists. split; [reflexivity|]. apply (ss_files_set F (set_files (<[tmp:=data]> (ss_files s)) (set_files (<[tmp:=[]]> (ss_files s)) s))). }
  apply HQ; [|by subst F; rewrite HF, lookup_insert_eq]. split; try apply C. rewrite HF.
  eapply (good_private (delete tmp (ss_files s)) _ _ _ _ "manifest.json"%string).
  - eapply (good_private (ss_files s) _ _ _ _ tmp); [apply C|done..|]. intros q Hq. by rewrite lookup_delete_ne.
  - done.
  - intros id h o Hid. destruct (g_slot _ _ _ _ (c_good _ _ _ C) _ _ _ _ Hid) as (_ & (r & Hr) & _). by inversion Hr.
  - intros q Hq. subst F. rewrite lookup_insert_ne by done. destruct (decide (q = tmp)) as [->|].
    + by rewrite !lookup_delete_eq.
    + by rewrite !lookup_delete_ne, lookup_insert_ne.
Qed.
Lemma wp_publish s (Q : string → Session → Prop) : (∀ name d, d !! name = Some (ss_dir s) → Q name (set_parent d s)) →
  wp (publish os rand) Q (λ _, True) s.
Proof.
  intros HQ. unfold publish. induction createAttempts as [|n IH]; cbn [publishLoop]; [by wstep|].
  wstep. wstep. wstep. apply wp_randomName; [done|]. intros name. wstep. wstep; [done|]. wstep. wstep. wstep; [done|].
  wstep. wstep; [done|]. wstep. wstep. wstep. wstep. wstep; [done|]. wstep. apply HQ. apply lookup_insert_eq.
Qed.

Lemma buildManifest_Ok c s m : buildManifest c s = Ok m →
  mf_Entries m = sortedEntries (ss_entries s) ∧ mf_Artifacts m = ss_artifactRecords s ∧
  mf_Attempts m = omap (λ ak, attemptManifest <$> ss_attempts s !! ak) (ss_attemptOrder s) ∧
  mf_EvidenceComplete m = evidenceComplete c s ∧ (cmp_Incomplete c = false → evidenceComplete c s = true).
Proof.
  unfold buildManifest. intros [_ H]%reject_bind_Ok. apply reject_bind_Ok in H as [Hc H]. apply reject_bind_Ok in H as [_ H].
  apply Ok_inj in H as <-. split_and!; try done. intros E. rewrite E in Hc. by destruct (evidenceComplete c s).
Qed.
Lemma checkEntries_Ok l seen seen' : foldR checkEntry seen l = Ok seen' → "manifest.json"%string ∉ me_Path <$> l.
Proof.
  revert seen. induction l as [|e l IH]; cbn; intros seen H; [apply not_elem_of_nil|].
  destruct (checkEntry seen e) as [s1|] eqn:He; [|done]. apply not_elem_of_cons. split; [|by eapply IH].
  unfold checkEntry in He. inv_ok. go_bool. congruence.
Qed.
Lemma normalizeManifest_Ok m data : normalizeManifest limits m = Ok data →
  data = render (json_of_Manifest (normalized m)) ∧ "manifest.json"%string ∉ me_Path <$> mf_Entries m.
Proof.
  unfold normalizeManifest. intros [_ H]%reject_bind_Ok. apply bind_Ok in H as (seen & Hseen & H). apply reject_bind_Ok in H as [_ H].
  apply reject_bind_Ok in H as [_ H]. apply Ok_inj in H as <-. split; [done|]. apply checkEntries_Ok in Hseen.
  unfold sortedEntries in Hseen. by rewrite stable_sort_Permutation in Hseen.
Qed.

(** What is known when a commit returned. *)
Record committed tr (c : Completion) s (r : BundleResult) s' s0 (m : Manifest) : Prop := {
  k_core : Core tr s0;
  k_closed : open_in [] s0;
  k_run : same_run s s0;
  k_build : buildManifest c s0 = Ok m;
  k_bytes : br_ManifestBytes r = render (json_of_Manifest (normalized m));
  k_digest : br_ManifestDigest r = manifestDigest (br_ManifestBytes r);
  k_manifest : ss_files s0 !! "manifest.json"%string = Some (br_ManifestBytes r);
  k_apart : "manifest.json"%string ∉ ss_payloads s0;
  k_dir : ss_parent s' !! br_Path r = Some (ss_dir s0);
  k_count : br_EntryCount r = Z.of_nat (length (ss_entries s0));
  k_total : br_TotalBytes r = ss_totalBytes s0
}.
Lemma core_Commit tr ctx c s : Core tr s →
  wp (Commit limits os rand ctx c) (λ r s', ∃ s0 m, committed tr c s r s' s0 m) (λ _, True) s.
Proof.
  intros C. unfold Commit. cbv zeta. wstep. wstep. wstep. wstep; [done|]. wstep. wstep; [done|]. wstep. unfold id.
  assert (∀ (Q : unit → Session → Prop) s, Q () s → wp (if (ss_state s == StateFailed) && negb (cmp_Incomplete c)
    then raise (default (errCode "invalid-session-state" "session" "commit") (ss_failed s)) else mret ()) Q (λ _, True) s) as Hfailed.
  { intros Q s1 HQ. by wstep; wstep. }
  apply Hfailed. wstep. apply wp_failing, wp_ctx; [done|]. wstep. wstep; [done|]. wstep. wstep. wstep.
  set (s1 := set_state StateCommitting s). assert (Core tr s1) as C1 by by split; apply C.
  assert (same_run s s1) as S1 by (unfold same_run; cbn; split_and!; eauto).
  wstep. wstep. eapply core_finalizeCaptures; [done|]. intros s2 C2 S2 O2. wstep. eapply core_writeResults; [done|]. intros s3 C3 S3.
  wstep. wstep. wstep. wstep; [done|]. wstep. wstep; [done|]. unfold id in *.
  match goal with H : buildManifest _ _ = Ok _ |- _ => rename H into Hb end.
  match goal with H : normalizeManifest _ _ = Ok _ |- _ => apply normalizeManifest_Ok in H as [-> Hm] end.
  assert ("manifest.json"%string ∉ ss_payloads s3) as Hpay.
  { destruct (buildManifest_Ok _ _ _ Hb) as (E & _). rewrite E in Hm. unfold sortedEntries in Hm. rewrite stable_sort_Permutation in Hm.
    rewrite (g_paths _ _ _ _ (c_good _ _ _ C3)). by rewrite elem_of_list_to_set. }
  wstep. eapply core_writeManifest; [done|done|]. intros d C4 F4. wstep. wstep; [done|]. wstep. apply wp_publish. intros name d' Hd'. wstep.
  wstep. wstep. wstep. wstep. wstep. unfold id. exists (set_parent d s3), a. split; try done.
  - eapply open_in_same; [|exact O2]. exact S3.
  - etrans; [exact S1|]. etrans; [exact S2|]. exact S3.
Qed.
End core.

(** ** Sessions *)

(** The calls of a session, with any arguments. *)
Inductive call :=
| CallEmit (ctx : option CtxCause) (e : ObservationEvent)
| CallOpenLog (ctx : option CtxCause) (key : AttemptKey) (stream : LogStream)
| CallLogWrite (key : AttemptKey) (stream : LogStream) (p : bytes)
| CallMarkTruncated (key : AttemptKey) (stream : LogStream) (n : Z)
| CallCloseLog (key : AttemptKey) (stream : LogStream)
| CallAddArtifact (ctx : Context) (i : ArtifactInput)
| CallRecordArtifactOmission (ctx : option CtxCause) (i : ArtifactOmissionInput)
| CallMarkArtifactCollectionComplete (ctx : option CtxCause) (key : AttemptKey)
| CallAbort.
Definition note_of (x : call) : History :=
  match x with CallEmit _ e => [Noted e] | CallLogWrite key stream p => [Logged key stream p] | _ => [] end.

Section sessions.
Context (limits : Limits) (os : Os) (rand : Rand).

Definition run_call (x : call) : W unit :=
  match x with
  | CallEmit ctx e => Emit limits os ctx e
  | CallOpenLog ctx key stream => OpenLog limits os ctx key stream
  | CallLogWrite key stream p => LogWrite limits os key stream p
  | CallMarkTruncated key stream n => MarkTruncated key stream n
  | CallCloseLog key stream => CloseLog limits os key stream
  | CallAddArtifact ctx i => AddArtifact limits os rand ctx i ;; mret ()
  | CallRecordArtifactOmission ctx i => RecordArtifactOmission limits ctx i ;; mret ()
  | CallMarkArtifactCollectionComplete ctx key => MarkArtifactCollectionComplete ctx key
  | CallAbort => Abort os
  end.

(** The sessions that calls lead to, with what they were told: a call that fails may be
    followed by others. *)
Inductive session_at (parent : gmap string Dir) : History → nat → Session → Prop :=
| session_begin ctx plan n n' s : Begin limits os rand ctx plan n (beginning parent) = (Ok (), n', s) → session_at parent [] n' s
| session_call tr n s x r n' s' : session_at parent tr n s → run_call x n s = (r, n', s') →
    session_at parent (tr ++ match r with Ok _ => note_of x | Err _ => [] end) n' s'.

Lemma wp_run {A} (m : W A) Q E n s r n' s' : wp m Q E s → m n s = (r, n', s') → match r with Ok a => Q a s' | Err _ => E s' end.
Proof. intros H Hm. specialize (H n). by rewrite Hm in H. Qed.
Lemma wp_unit {A} (m : W A) (Q : Session → Prop) E s : wp m (λ _, Q) E s → wp (m ;; mret ()) (λ _, Q) E s.
Proof. intros H. apply wp_bind. by eapply wp_mono; [exact H|intros; apply wp_ret|]. Qed.

Lemma session_inv parent tr n s : session_at parent tr n s → Inv limits tr s.
Proof.
  induction 1 as [ctx plan n n' s H|tr n s x r n' s' _ IH H].
  - by eapply (wp_run _ _ _ _ _ _ _ _ (inv_Begin limits os rand ctx plan parent)) in H.
  - assert (wp (run_call x) (λ _, Inv limits (tr ++ note_of x)) (Inv limits tr) s) as Hwp.
    { destruct x; cbn [run_call note_of]; rewrite ?app_nil_r; try apply wp_unit; eauto using inv_Emit, inv_OpenLog, inv_LogWrite,
        inv_MarkTruncated, inv_CloseLog, inv_AddArtifact, inv_RecordArtifactOmission, inv_MarkArtifactCollectionComplete, inv_Abort. }
    pose proof (wp_run _ _ _ _ _ _ _ _ Hwp H) as Hr. destruct r; [done|by rewrite app_nil_r].
Qed.

(** What a commit of an active session published. *)
Lemma session_committed parent tr n s ctx c r n' s' : session_at parent tr n s → ss_state s = StateActive →
  Commit limits os rand ctx c n s = (Ok r, n', s') → ∃ s0 m, committed limits tr c s r s' s0 m.
Proof.
  intros Hs Hact H. destruct (session_inv _ _ _ _ Hs Hact) as [C _].
  exact (wp_run _ _ _ _ _ _ _ _ (core_Commit limits os rand tr ctx c s C) H).
Qed.
End sessions.

(** ** What a published bundle says *)

(** The directory of the result holds the manifest [m], and its digest is reported. *)
Definition published (s : Session) (r : BundleResult) (m : Manifest) (files : gmap string bytes) : Prop :=
  (∃ dirs, ss_parent s !! br_Path r = Some (mkDir files dirs)) ∧ files !! "manifest.json"%string = Some (br_ManifestBytes r) ∧
  br_ManifestBytes r = render (json_of_Manifest m) ∧ br_ManifestDigest r = manifestDigest (br_ManifestBytes r).
#[global] Instance entry_less_weak : StrictWeak entry_less.
Proof. exact (by_last_StrictWeak me_Path str_lt _). Qed.
(** Every entry is a file of its own, in order, with the digest and the size of that
    file; the sizes add up to the total, which is within the limit. *)
Definition lists_truly (limits : Limits) (m : Manifest) (files : gmap string bytes) (r : BundleResult) : Prop :=
  (∀ e, e ∈ mf_Entries m → truthful files e) ∧ NoDup (me_Path <$> mf_Entries m) ∧ ("manifest.json"%string ∉ me_Path <$> mf_Entries m) ∧
  StronglySorted (not_after entry_less) (mf_Entries m) ∧ br_EntryCount r = Z.of_nat (length (mf_Entries m)) ∧
  br_TotalBytes r = foldr Z.add 0 (me_SizeBytes <$> mf_Entries m) ∧ (mf_Entries m = [] ∨ br_TotalBytes r ≤ l_MaxBundleBytes limits).
Definition manifest_key (am : AttemptManifest) : string :=
  attemptKeyString (mkAttemptKey (am_Revision am) (am_ScenarioID am) (am_Repetition am)).
(** The events that were accepted are numbered, belong to an attempt of the manifest, and
    are the lines of its file of events, no more, no less, in their order. *)
Definition keeps_events (tr : History) (m : Manifest) (files : gmap string bytes) : Prop :=
  (∀ i e, events_of tr !! i = Some e → oe_SequenceNumber e = Z.of_nat i + 1 ∧ oe_RunID e = mf_RunID m ∧
     oe_ID e = expectedEventID (mf_PlanDigest m) (mf_RunID m) (oe_SequenceNumber e)) ∧
  (∀ e, e ∈ events_of tr → ∃ am, am ∈ mf_Attempts m ∧ manifest_key am = attemptKeyString (event_key e)) ∧
  (∀ am, am ∈ mf_Attempts m → let evs := attempt_events (manifest_key am) tr in
     am_AcceptedEventCount am = Z.of_nat (length evs) ∧
     am_FirstEventSequence am = default 0 (oe_SequenceNumber <$> head evs) ∧ am_LastEventSequence am = default 0 (oe_SequenceNumber <$> last evs) ∧
     (evs ≠ [] → ∃ e, e ∈ mf_Entries m ∧ me_Path e = (am_Directory am +:+ "/events.jsonl")%string ∧
        files !! me_Path e = Some (concat (eventLine <$> evs)))).
(** The file of a log is a beginning of what was written to it, and all of it when the
    manifest says that the evidence is complete; then nothing that is listed was cut
    and every artifact that was reported is stored and listed. *)
Definition keeps_logs (tr : History) (m : Manifest) (files : gmap string bytes) : Prop :=
  ∀ am stream, am ∈ mf_Attempts m → let written := attempt_log (manifest_key am) stream tr in
  written ≠ [] → ∃ h, files !! (am_Directory am +:+ "/" +:+ streamName stream +:+ ".log")%string = Some h ∧ h `prefix_of` written ∧
    (mf_EvidenceComplete m = true → h = written).
Definition complete_evidence (m : Manifest) : Prop := mf_EvidenceComplete m = true →
  (∀ e, e ∈ mf_Entries m → me_Truncated e = false) ∧
  (∀ a, a ∈ mf_Artifacts m → arr_Disposition a = ArtifactDispositionStored ∧
     ∃ e, e ∈ mf_Entries m ∧ me_Path e = arr_ObjectPath a ∧ me_Digest e = arr_Digest a).

Section committed.
Context (limits : Limits) (tr : History) (c : Completion) (s : Session) (r : BundleResult) (s' s0 : Session) (m : Manifest).
Hypothesis K : committed limits tr c s r s' s0 m.

Lemma committed_entries : mf_Entries (normalized m) ≡ₚ ss_entries s0.
Proof.
  destruct (buildManifest_Ok _ _ _ (k_build _ _ _ _ _ _ _ _ K)) as (E & _). cbn. unfold sortedEntries. rewrite stable_sort_Permutation, E.
  unfold sortedEntries. apply stable_sort_Permutation.
Qed.
Lemma committed_published : published s' r (normalized m) (ss_files s0).
Proof.
  split; [|split; [apply K|split; apply K]]. exists (d_dirs (ss_dir s0)). rewrite (k_dir _ _ _ _ _ _ _ _ K). unfold ss_files. by destruct (ss_dir s0).
Qed.
Lemma committed_lists : lists_truly limits (normalized m) (ss_files s0) r.
Proof.
  pose proof (c_good _ _ _ (k_core _ _ _ _ _ _ _ _ K)) as G. pose proof committed_entries as P. set (l := mf_Entries (normalized m)) in *.
  assert (∀ l1 l2 : list ManifestEntry, l1 ≡ₚ l2 → foldr Z.add 0 (me_SizeBytes <$> l1) = foldr Z.add 0 (me_SizeBytes <$> l2)) as Hsum.
  { intros l1 l2 Hp. induction Hp; cbn in *; lia. }
  destruct (c_accounted _ _ _ (k_core _ _ _ _ _ _ _ _ K)) as [Ht Hm]. unfold lists_truly. fold l. split_and!.
  - intros e. rewrite P. apply G.
  - rewrite P. apply G.
  - rewrite P. intros H. apply (k_apart _ _ _ _ _ _ _ _ K). rewrite (g_paths _ _ _ _ G). by apply elem_of_list_to_set.
  - refine (stable_sort_StronglySorted entry_less _).
  - by rewrite P, (k_count _ _ _ _ _ _ _ _ K).
  - by rewrite (k_total _ _ _ _ _ _ _ _ K), (Hsum _ _ P).
  - rewrite (k_total _ _ _ _ _ _ _ _ K). destruct Hm as [E|?]; [left|by right]. rewrite E in P. by apply Permutation_nil_r in P.
Qed.

(** An attempt of the manifest is an attempt of the session. *)
Lemma committed_attempt am : am ∈ mf_Attempts (normalized m) →
  ∃ a, ss_attempts s0 !! manifest_key am = Some a ∧ am = attemptManifest a.
Proof.
  destruct (buildManifest_Ok _ _ _ (k_build _ _ _ _ _ _ _ _ K)) as (_ & _ & E & _). cbn. rewrite E.
  intros (ak & _ & Ha)%list_elem_of_omap. destruct (ss_attempts s0 !! ak) as [a|] eqn:Hl; [|done]. injection Ha as <-. exists a. split; [|done].
  rewrite <- Hl. f_equal. rewrite <- (a_key _ _ _ _ _ _ (c_attempt _ _ _ (k_core _ _ _ _ _ _ _ _ K) _ _ Hl)). by destruct a as [[]].
Qed.
Lemma committed_events : numbered (ss_planDigest s) (ss_runID s) (ss_nextSequence s) tr → keeps_events tr (normalized m) (ss_files s0).
Proof.
  intros [_ N]. pose proof (k_core _ _ _ _ _ _ _ _ K) as C. destruct (k_run _ _ _ _ _ _ _ _ K) as (E1 & E2 & _).
  pose proof (k_build _ _ _ _ _ _ _ _ K) as B. destruct (buildManifest_Ok _ _ _ B) as (_ & _ & E & _).
  assert (mf_PlanDigest m = ss_planDigest s ∧ mf_RunID m = ss_runID s) as [F1 F2].
  { unfold buildManifest in B. inv_ok. by subst m. }
  split; [|split].
  - intros i e He. cbn. rewrite F1, F2. by apply N.
  - intros e He. destruct (c_known _ _ _ C e He) as [a Ha]. exists (attemptManifest a). split.
    + cbn. rewrite E. apply list_elem_of_omap. exists (attemptKeyString (event_key e)). rewrite Ha. split; [|done]. apply (c_order _ _ _ C). eauto.
    + rewrite <- (a_key _ _ _ _ _ _ (c_attempt _ _ _ C _ _ Ha)). by destruct a as [[]].
  - intros am (a & Ha & Eam)%committed_attempt. pose proof (c_attempt _ _ _ C _ _ Ha) as A. cbv zeta.
    set (ak := manifest_key am) in *. rewrite Eam. cbn [attemptManifest am_AcceptedEventCount am_FirstEventSequence am_LastEventSequence am_Directory].
    split; [apply A|]. split; [apply A|]. split; [apply A|]. intros Hne.
    destruct (decide (sa_eventsState a = CaptureStateNotProvided)) as [Hst|Hst]; [by destruct (a_unopened _ _ _ _ _ _ A Hst)|].
    assert (slots (ss_attempts s0) (ak, None) = Some (eventsPath a, sa_eventsHash a, sa_eventsOpen a)) as Hs.
    { unfold slots. cbn. rewrite Ha. cbn. by rewrite decide_False. }
    destruct (g_slot _ _ _ _ (c_good _ _ _ C) _ _ _ _ Hs) as (Hf & _ & _ & Hc).
    assert (sa_eventsOpen a = false) as Ho.
    { destruct (sa_eventsOpen a) eqn:Ho; [|done]. by apply (k_closed _ _ _ _ _ _ _ _ K) in Ha as ?%not_elem_of_nil. }
    destruct (good_elem _ _ _ _ _ (c_good _ _ _ C) (Hc eq_refl Ho)) as (e & He & Ep). exists e. rewrite committed_entries. split; [done|].
    rewrite Ep. split; [done|]. by rewrite Hf, (a_hash _ _ _ _ _ _ A).
Qed.
Lemma committed_incomplete : mf_EvidenceComplete (normalized m) = true → ss_evidenceIncomplete s0 = false.
Proof.
  destruct (buildManifest_Ok _ _ _ (k_build _ _ _ _ _ _ _ _ K)) as (_ & _ & _ & E & _). cbn. rewrite E. unfold evidenceComplete.
  by destruct (ss_evidenceIncomplete s0).
Qed.
Lemma committed_logs : keeps_logs tr (normalized m) (ss_files s0).
Proof.
  intros am stream (a & Ha & Eam)%committed_attempt. pose proof (k_core _ _ _ _ _ _ _ _ K) as C. pose proof (c_attempt _ _ _ C _ _ Ha) as A.
  cbv zeta. set (ak := manifest_key am) in *. rewrite Eam. intros Hne. destruct (log_of stream a) as [l|] eqn:Hl; [|by destruct Hne; apply A].
  assert (slots (ss_attempts s0) (ak, Some stream) = Some (lc_path l, lc_hash l, negb (lc_closed l))) as Hs.
  { unfold slots. cbn. rewrite Ha. cbn. by rewrite Hl. }
  destruct (g_slot _ _ _ _ (c_good _ _ _ C) _ _ _ _ Hs) as (Hf & _). destruct (a_log _ _ _ _ _ _ A _ _ Hl) as (Ep & _ & Hi & Hh).
  exists (lc_hash l). split; [by rewrite <- Hf, Ep|]. split; [destruct Hh as [->|(? & _)]; done|].
  intros Hcomp%committed_incomplete. destruct Hh as [?|(_ & Ht & _)]; [done|]. rewrite Hi in Hcomp by done. done.
Qed.
Lemma committed_complete : complete_evidence (normalized m).
Proof.
  intros Hc%committed_incomplete. pose proof (k_core _ _ _ _ _ _ _ _ K) as C. destruct (c_disclosed _ _ _ C Hc) as [D1 D2].
  destruct (buildManifest_Ok _ _ _ (k_build _ _ _ _ _ _ _ _ K)) as (_ & E & _). split.
  - intros e. rewrite committed_entries. apply D1.
  - intros x. cbn. rewrite stable_sort_Permutation, E. intros Hx. split; [by apply D2|]. destruct (c_objects _ _ _ C) as [O1 O2].
    destruct (O1 _ _ (O2 x Hx (D2 x Hx))) as (e & He & ? & ? & _). exists e. by rewrite committed_entries.
Qed.
End committed.

(** C3: a bundle that an active session publishes is what its manifest says: whatever the
    calls that led to it, those that failed included, and whatever the operating system
    answered, the directory of the result holds the manifest that is reported, every
    entry has the digest and the size of its file, and the file of events of an attempt
    is the lines of the events that were accepted for it, numbered in order. *)
Theorem committed_bundle limits os rand parent tr n s ctx c r n' s' :
  session_at limits os rand parent tr n s → ss_state s = StateActive → Commit limits os rand ctx c n s = (Ok r, n', s') →
  ∃ m files, published s' r m files ∧ lists_truly limits m files r ∧ keeps_events tr m files ∧ keeps_logs tr m files.
Proof.
  intros Hs Hact H. destruct (session_committed _ _ _ _ _ _ _ _ _ _ _ _ Hs Hact H) as (s0 & m & K).
  destruct (session_inv _ _ _ _ _ _ _ Hs Hact) as [_ N]. exists (normalized m), (ss_files s0).
  split_and!; [by eapply committed_published|by eapply committed_lists|by eapply committed_events|by eapply committed_logs].
Qed.
(** C15: a bundle that is not declared incomplete has complete evidence: nothing that is
    listed was cut, every artifact that was reported is stored and listed under its
    digest, and every byte that was written to a log is in its file. *)
Theorem complete_bundle limits os rand parent tr n s ctx c r n' s' :
  session_at limits os rand parent tr n s → ss_state s = StateActive → Commit limits os rand ctx c n s = (Ok r, n', s') →
  ∃ m files, published s' r m files ∧ complete_evidence m ∧
    (cmp_Incomplete c = false → xr_Complete (cmp_Execution c) = true ∧ mf_EvidenceComplete m = true ∧
      ∀ am stream, am ∈ mf_Attempts m → attempt_log (manifest_key am) stream tr ≠ [] →
        files !! (am_Directory am +:+ "/" +:+ streamName stream +:+ ".log")%string = Some (attempt_log (manifest_key am) stream tr)).
Proof.
  intros Hs Hact H. destruct (session_committed _ _ _ _ _ _ _ _ _ _ _ _ Hs Hact H) as (s0 & m & K). exists (normalized m), (ss_files s0).
  split; [by eapply committed_published|]. split; [by eapply committed_complete|]. intros Hi.
  destruct (buildManifest_Ok _ _ _ (k_build _ _ _ _ _ _ _ _ K)) as (_ & _ & _ & Ee & Hc). specialize (Hc Hi).
  assert (mf_EvidenceComplete (normalized m) = true) as He by by cbn; rewrite Ee. split; [|split; [done|]].
  - unfold evidenceComplete in Hc. by destruct (xr_Complete (cmp_Execution c)), (ss_evidenceIncomplete s0).
  - intros am stream Ham Hne. destruct (committed_logs _ _ _ _ _ _ _ _ K am stream Ham Hne) as (h & -> & _ & Hh). by rewrite Hh.
Qed.
