(* ===== verification/BundleWriterEx.v ===== *)
(** * A run that is recorded in a bundle

    A plan with one attempt of each revision is executed; the events of the run are given
    to a session, with a log, an artifact and its copy, and the session is committed.
    The theorems of [BundleWriterSpec] are instantiated here; the other examples are what
    they leave out: sessions that failed, or that were refused an entry. *)

From stdpp Require Import prelude gmap strings.
From Stdlib Require Import ZArith Lia Ascii.
From S2P Require Import Prelude GoStd Sha256 Framing GoTime Model Json GoText GoPath Event Plan Runner RunnerSpec RunnerEx Evidence BundleWriter BundleWriterSpec.
Local Open Scope Z_scope.

(** ** The session *)

Definition bw_calm : Os := λ _, None.
Definition bw_rand : Rand := λ n, Some (replicate 12 (ascii_of_nat n)).

(** The plan of [RunnerEx], once; the session asks of its JSON that it has the digest. *)
Definition bw_scenario : ScenarioPlan :=
  mkScenarioPlan "build" "Build" "sh" "make" 1 (mkCommand ["make"%string] "/work" [] 60000) ex_resources (mkNetworkPolicy NetworkModeDeny []) [].
Definition bw_doc : RunPlan :=
  mkRunPlan SchemaVersionRunPlanV1Alpha1 "plan-1" "run-1" ex_created "pipeline" None
    (Some (mkRunPlanEnvironment "image@sha256:00" "sha256:00" "/work"))
    (ex_commit RevisionKindBase "a"%char) (ex_commit RevisionKindHead "b"%char)
    [ex_revision RevisionKindBase "a"%char; ex_revision RevisionKindHead "b"%char] [bw_scenario]
    zeroCapabilities ex_resources (mkNetworkPolicy NetworkModeDeny []) []
    (Some (mkCollectionPlan ["/work/out"%string] "hash" [] 65536))
    (Some (mkComparisonPlan ["event.timestamp"; "process.pid"]%string 1)) None None [].
Definition bw_json : bytes := to_bytes "{}".
Definition bw_plan : FrozenPlan := mkFrozenPlan bw_doc bw_json (DigestRunPlanJSON bw_json).
Definition bw_env : Environment :=
  mkEnvironment (λ _, None) (λ _ _, None) (λ n _, EmitDraft (ex_draft (100 * Z.of_nat n) None "/work/make" 1) (λ _, Finish (Ok ex_outcome))).
Definition bw_run := ExecutePlanWithHooks None bw_env None (Some (bw_doc, fp_digest bw_plan)) ex_backend ex_requirements Runner.DefaultLimits.
Definition bw_events : list ObservationEvent := events bw_run.2.
Definition bw_execution : ExecutionResult := bw_run.1.1.
Definition bw_key : AttemptKey := default noAttempt (event_key <$> head bw_events).
Definition bw_artifact (path : string) : ArtifactInput :=
  mkArtifactInput bw_key path (Some 5) 0 (Some [(to_bytes "hel", ReadMore); (to_bytes "lo", ReadEOF)]) "text/plain" false 420.
Definition bw_calls : list call :=
  (CallEmit None <$> bw_events) ++ [
    CallOpenLog None bw_key LogStreamStdout;
    CallLogWrite bw_key LogStreamStdout (to_bytes "compiling ");
    CallLogWrite bw_key LogStreamStdout (to_bytes "done");
    CallAddArtifact (λ _, None) (bw_artifact "out/a.txt");
    CallAddArtifact (λ _, None) (bw_artifact "out/b.txt")].

(** Calls, one after the other, whether they succeed or not; with what they were told. *)
Fixpoint run_calls (limits : BundleWriter.Limits) (os : Os) (l : list call) (tr : History) (n : nat) (s : Session) : History * nat * Session :=
  match l with
  | [] => (tr, n, s)
  | x :: l => let '(r, n', s') := run_call limits os bw_rand x n s in
              run_calls limits os l (tr ++ match r with Ok _ => note_of x | Err _ => [] end) n' s'
  end.
Definition begin_run (limits : BundleWriter.Limits) (os : Os) : result WriteError unit * nat * Session :=
  Begin limits os bw_rand None (Some bw_plan) 0%nat (beginning ∅).
Definition session_of (limits : BundleWriter.Limits) (os : Os) (l : list call) : History * nat * Session :=
  run_calls limits os l [] (begin_run limits os).1.2 (begin_run limits os).2.
Definition bw_session := session_of BundleWriter.DefaultLimits bw_calm bw_calls.
Definition bw_commit (c : Completion) (limits : BundleWriter.Limits) (os : Os) (x : History * nat * Session) :=
  Commit limits os bw_rand None c x.1.2 x.2.
Definition bw_complete : Completion := mkCompletion bw_execution None false.


(** ** What was published *)

(** An entry whose file has another digest or size, or is not there. *)
Definition untrue (files : gmap string bytes) (e : ManifestEntry) : bool :=
  match files !! me_Path e with
  | Some data => (me_Digest e != BundleWriter.digestBytes data) || (me_SizeBytes e != Z.of_nat (length data))
  | None => true
  end.
Definition files_at (s : Session) (p : string) : gmap string bytes := d_files (default emptyDir (ss_parent s !! p)).
Definition unlisted (s : Session) (files : gmap string bytes) : list string :=
  filter (λ p, p ∉ ss_payloads s) (fst <$> map_to_list files).
Definition no_result : BundleResult := mkBundleResult "" "" [] 0 0.
Definition ok_result (r : result WriteError BundleResult) : BundleResult := match r with Ok r => r | Err _ => no_result end.
Definition is_ok {A} (r : result WriteError A) : bool := match r with Ok _ => true | Err _ => false end.
(** Whether a commit succeeded, the entries that are untrue, the files that are unlisted. *)
Definition commit_report (c : Completion) (limits : BundleWriter.Limits) (os : Os) (x : History * nat * Session) : bool * list string * list string :=
  let y := bw_commit c limits os x in let files := files_at y.2 (br_Path (ok_result y.1.1)) in
  (is_ok y.1.1, me_Path <$> filter (λ e, untrue files e = true) (ss_entries y.2), unlisted y.2 files).


Definition bw_out := bw_commit bw_complete BundleWriter.DefaultLimits bw_calm bw_session.
(** Nine entries: the plan, the results of the attempts and of the run, a file of events
    for each attempt, the object of both artifacts, a log, and the index of an attempt. *)
Definition facts (b : result WriteError unit * nat * Session) (x : History * nat * Session) (y : result WriteError BundleResult * nat * Session)
    (count : Z) : bool :=
  is_ok b.1.1 && (ss_state x.2 == StateActive) && is_ok y.1.1 && (br_EntryCount (ok_result y.1.1) == count).
Lemma facts_split b x y count : facts b x y count = true →
  b.1.1 = Ok () ∧ ss_state x.2 = StateActive ∧ is_ok y.1.1 = true ∧ br_EntryCount (ok_result y.1.1) = count.
Proof. unfold facts. intros H. go_bool. destruct b as [[[[]|] ?] ?]; [done|discriminate]. Qed.
Lemma bw_facts : facts (begin_run BundleWriter.DefaultLimits bw_calm) bw_session bw_out 9 = true.
Proof. vm_compute. reflexivity. Qed.
Lemma bw_known : (begin_run BundleWriter.DefaultLimits bw_calm).1.1 = Ok () ∧ ss_state bw_session.2 = StateActive ∧ is_ok bw_out.1.1 = true ∧
  br_EntryCount (ok_result bw_out.1.1) = 9.
Proof. exact (facts_split (begin_run BundleWriter.DefaultLimits bw_calm) bw_session bw_out 9 bw_facts). Qed.
Lemma bw_began : (begin_run BundleWriter.DefaultLimits bw_calm).1.1 = Ok ().
Proof. exact (proj1 bw_known). Qed.
Lemma bw_active : ss_state bw_session.2 = StateActive.
Proof. exact (proj1 (proj2 bw_known)). Qed.
Lemma bw_committed : is_ok bw_out.1.1 = true.
Proof. exact (proj1 (proj2 (proj2 bw_known))). Qed.
Lemma bw_count : br_EntryCount (ok_result bw_out.1.1) = 9.
Proof. exact (proj2 (proj2 (proj2 bw_known))). Qed.

(** ** Witnesses *)

Lemma run_calls_at limits os parent l : ∀ tr n s, session_at limits os bw_rand parent tr n s →
  session_at limits os bw_rand parent (run_calls limits os l tr n s).1.1 (run_calls limits os l tr n s).1.2 (run_calls limits os l tr n s).2.
Proof.
  induction l as [|x l IH]; intros tr n s H; [exact H|]. cbn [run_calls].
  destruct (run_call limits os bw_rand x n s) as [[r n'] s'] eqn:Hx. apply IH. by eapply session_call.
Qed.
Lemma out_eta (y : result WriteError BundleResult * nat * Session) : is_ok y.1.1 = true → y = (Ok (ok_result y.1.1), y.1.2, y.2).
Proof. by destruct y as [[[]]]. Qed.
Lemma begin_eta (y : result WriteError unit * nat * Session) : y.1.1 = Ok () → y = (Ok (), y.1.2, y.2).
Proof. destruct y as [[]]. cbn. by intros ->. Qed.
Lemma session_of_at limits os l : (begin_run limits os).1.1 = Ok () →
  session_at limits os bw_rand ∅ (session_of limits os l).1.1 (session_of limits os l).1.2 (session_of limits os l).2.
Proof.
  unfold session_of, begin_run. intros H. apply run_calls_at, (session_begin _ _ _ _ None (Some bw_plan) 0%nat), begin_eta. exact H.
Qed.
Lemma bw_session_at : session_at BundleWriter.DefaultLimits bw_calm bw_rand ∅ bw_session.1.1 bw_session.1.2 bw_session.2.
Proof. exact (session_of_at _ _ bw_calls bw_began). Qed.
Lemma bw_out_eta : Commit BundleWriter.DefaultLimits bw_calm bw_rand None bw_complete bw_session.1.2 bw_session.2 = (Ok (ok_result bw_out.1.1), bw_out.1.2, bw_out.2).
Proof. exact (out_eta bw_out bw_committed). Qed.

Lemma committed_bundle_witness : ∃ m files,
  published bw_out.2 (ok_result bw_out.1.1) m files ∧ lists_truly BundleWriter.DefaultLimits m files (ok_result bw_out.1.1) ∧
  keeps_events bw_session.1.1 m files ∧ keeps_logs bw_session.1.1 m files ∧ length (mf_Entries m) = 9%nat.
Proof.
  destruct (committed_bundle _ _ _ _ _ _ _ _ _ _ _ _ bw_session_at bw_active bw_out_eta) as (m & files & H1 & H2 & H3 & H4).
  exists m, files. split; [exact H1|]. split; [exact H2|]. split; [exact H3|]. split; [exact H4|].
  apply Nat2Z.inj. destruct H2 as (_ & _ & _ & _ & Hc & _). exact (eq_trans (eq_sym Hc) bw_count).
Defined.
Lemma complete_bundle_witness : ∃ m files,
  published bw_out.2 (ok_result bw_out.1.1) m files ∧ mf_EvidenceComplete m = true ∧ Forall (λ e, me_Truncated e = false) (mf_Entries m).
Proof.
  destruct (complete_bundle _ _ _ _ _ _ _ _ _ _ _ _ bw_session_at bw_active bw_out_eta) as (m & files & H1 & H2 & H3).
  destruct (H3 eq_refl) as (_ & Hc & _). exists m, files. split; [exact H1|]. split; [exact Hc|].
  apply Forall_forall. exact (proj1 (H2 Hc)).
Defined.

(** ** What the theorems leave out *)

(** The write of the first event fails after ten bytes.  The failed session is committed
    as incomplete, and publishes an entry that its file does not match. *)
Definition bw_torn : Os := λ n, if (n =? 22)%nat then Some 10%nat else None.
Definition bw_incomplete : Completion :=
  mkCompletion (mkExecutionResult (xr_PlanDigest bw_execution) (xr_Runner bw_execution) false [] 0 [])
    (Some (mkFailureRecord "write" "event" "" "the disk is full" "")) true.
Example torn_events :
  commit_report bw_incomplete BundleWriter.DefaultLimits bw_torn (session_of BundleWriter.DefaultLimits bw_torn (take 1 bw_calls))
  = (true, ["attempts/base/build/repetition-0001/events.jsonl"%string], ["manifest.json"%string]).
Proof. vm_compute. reflexivity. Qed.

(** Room for all but a log of six thousand bytes: the log is refused an entry when it
    is closed, and the session is committed with complete evidence and a file that its
    manifest does not list. *)
Definition bw_tight : BundleWriter.Limits :=
  let l := BundleWriter.DefaultLimits in
  BundleWriter.mkLimits (l_MaxAttempts l) (l_MaxBundleEntries l) 6000 (l_MaxManifestBytes l) (l_MaxManifestEntries l) (BundleWriter.l_MaxEventJSONBytes l)
    (BundleWriter.l_MaxEventsPerAttempt l) (l_MaxEventsPerBundle l) (l_MaxEventStreamBytesPerAttempt l) (l_MaxLogBytesPerStream l) (l_MaxTotalLogBytes l)
    (l_MaxArtifactsPerAttempt l) (l_MaxArtifactsPerBundle l) (l_MaxSingleArtifactBytes l) (l_MaxTotalArtifactBytes l) (l_MaxArtifactIndexBytes l)
    (l_MaxLimitations l) (l_MaxLimitationCodeBytes l) (l_MaxLimitationMessageBytes l) (l_MaxLogicalPathBytes l) (l_MaxPhysicalEntryPathBytes l) (l_MaxDuration l).
Definition bw_loud : list call := (CallEmit None <$> bw_events) ++ [
  CallOpenLog None bw_key LogStreamStdout; CallLogWrite bw_key LogStreamStdout (replicate (Z.to_nat 6000) "x"%char); CallCloseLog bw_key LogStreamStdout].
Example refused_log :
  commit_report bw_complete bw_tight bw_calm (session_of bw_tight bw_calm bw_loud)
  = (true, [], ["manifest.json"; "attempts/base/build/repetition-0001/stdout.log"]%string).
Proof. vm_compute. reflexivity. Qed.

(** An artifact is omitted, another is stored, and the attempt says that its artifacts
    were captured. *)
Definition bw_omission : ArtifactOmissionInput :=
  mkArtifactOmissionInput bw_key "out/b.txt" ArtifactDispositionOmittedSymlink None 0 "" false 0 [].
Definition artifact_states (l : list call) : list CaptureState * bool :=
  let s := (session_of BundleWriter.DefaultLimits bw_calm l).2 in
  (filter (λ st, st ≠ CaptureStateNotProvided) (sa_artifactsState ∘ snd <$> map_to_list (ss_attempts s)), ss_evidenceIncomplete s).
Example omission_overwritten :
  (artifact_states [CallAddArtifact (λ _, None) (bw_artifact "out/a.txt"); CallRecordArtifactOmission None bw_omission],
   artifact_states [CallRecordArtifactOmission None bw_omission; CallAddArtifact (λ _, None) (bw_artifact "out/a.txt")])
  = (([CaptureStateOmittedLimit], true), ([CaptureStateCaptured], true)).
Proof. vm_compute. reflexivity. Qed.
